(* ===== verification/_CoqProject ===== *)
-Q . S2P
Prelude.v
Bytes.v
Prog.v
Ulib.v
Utils.v
Grind.v
Grep.v
Sh.v
ShRun.v
Uthread.v
Umalloc.v
UserTests.v
UserTests2.v
UserTestsRun.v
State.v
Paging.v
Spinlock.v
Kalloc.v
Vm.v
PageTable.v
UserMem.v
Demo.v
VmSpec.v
Sched.v
Kthread.v
KthreadSpec.v
ThreadSpec.v
Sleeplock.v
Post.v
SleeplockSpec.v
Uart.v
Console.v
Bio.v
BioSpec.v
FsDemo.v
Virtio.v
Log.v
LogSpec.v
LogCommit.v
Crash.v
LogOps.v
FsTxn.v
Fs.v
FsSpec.v
Dir.v
InodeSpec.v
DirSpec.v
WriteSpec.v
PathSpec.v
DirLink.v
Mkfs.v
MkfsSpec.v
Pipe.v
PipeSpec.v
File.v
Proc.v
Exec.v
Sysfile.v
FileSpec.v
ForkSpec.v
Syscall.v
Trap.v
Boot.v
Asm.v
