(* ===== verification/Prelude.v ===== *)
(** * A verification of xv6 with kernel threads

    The program is the teaching kernel xv6 for RISC-V, changed so that a process has
    several kernel threads (src/kernel), its user programs and libraries (src/user) and
    the program that builds the file system image (src/mkfs).  This library translates
    the C code into functions, one definition per C function with its name, and proves
    what the components guarantee.

    ** The parts and how they interact

    The kernel runs on several harts.  Spinlocks protect the tables; a thread that has to
    wait gives up its hart in [sleep] and is made runnable by [wakeup].  The page
    allocator feeds the page tables and the pipes.  Files are reached by system calls,
    which go through the table of open files to pipes, devices and inodes.  Inodes and
    directories are changed inside transactions of the log, which is written through the
    buffer cache to the disk.  User programs only see the system calls.

    ** How the code is modelled

    - A C integer is a [Z], reduced to its width ([u8], [u16], [u32], [u64], [s32]) where
      the code stores or compares it.  Memory, disk blocks and arrays of characters are
      functions from offsets to bytes; words are little-endian (Bytes.v).
    - The global variables of the kernel and the hardware registers are one record
      [kstate] = [kdata] (the data) + [lockst] (lock words, interrupt nesting, the hart)
      (State.v).  A kernel function is a program of the monad [M]: it returns, panics,
      waits for a lock that another hart holds, runs out of fuel, or switches to the
      scheduler.  The outcome [Spin] carries the state in which it waits, and the outcome
      [Swtch] carries the rest of the function, so that other threads may run
      (any change of the state that they may make is quantified over) before it resumes.
    - [evals] (Spinlock.v) says that a function returns with given data and locks,
      [evals_panic] that it panics, [evals_swtch] that it gives up the hart (with a
      property of what it does when it is resumed), [evals_spin] that it waits for a lock,
      and [posts] (Post.v) that it returns in a state with a property.  All of them are
      total: they say that the function does get there.
    - Loops over a table are recursion on the list of its indices.  Loops that are not
      bounded by the data carry fuel; the theorems give the fuel that is enough (a number
      of pages, of blocks, of bytes, of free blocks).  The number of times that a waiting
      loop is woken without finding its condition true is the parameter [WaitFuel].
    - The disk as bio.c sees it is the class [DiskDriver] with the laws [DiskDriverOk]:
      requests are synchronous and write whole blocks.  Virtio.v models the driver itself;
      the device is not code of this repository.
    - User programs are pure functions of their input (the parser of the shell, the
      allocator, the user-level threads) or trees of system calls (Prog.v).  [holds] is the
      weakest precondition of such a tree over every answer that the system may give.
    - The assembly is lists of instructions on a machine of registers, control registers
      and physical memory (Asm.v); the translation of addresses is a parameter.

    ** The files

    - Prelude.v, Bytes.v, State.v: integers, lists, record updates and tactics; bytes and
      kernel/string.c; the state, the monad, and the structs and constants of the headers
      param.h, riscv.h, memlayout.h, proc.h, kthread.h, file.h, fs.h, buf.h, spinlock.h,
      sleeplock.h, stat.h, fcntl.h.
    - Spinlock.v: spinlock.c; [Mutex] is the interleaving of the atomic steps of any
      number of harts.
    - Kalloc.v, Paging.v, Vm.v, PageTable.v, UserMem.v, VmSpec.v: kalloc.c and vm.c; page
      tables as finite maps, user address spaces, and the theorems on them.
    - Sched.v, Kthread.v, Sleeplock.v, KthreadSpec.v, ThreadSpec.v, SleeplockSpec.v: the
      scheduler, sleep and wakeup, kthread.c and sleeplock.c.
    - Uart.v, Console.v, Virtio.v: uart.c, plic.c, console.c, printf.c, virtio_disk.c.
    - Bio.v, BioSpec.v: bio.c.  Log.v, LogSpec.v, LogCommit.v, Crash.v, LogOps.v: log.c.
    - FsTxn.v: the logical disk inside a transaction.  Fs.v, FsSpec.v, InodeSpec.v: blocks
      and inodes of fs.c.  WriteSpec.v: [writei].  Dir.v, DirSpec.v, PathSpec.v,
      DirLink.v: directories and paths of fs.c.  Mkfs.v, MkfsSpec.v: mkfs/mkfs.c.
    - Pipe.v, PipeSpec.v, File.v, FileSpec.v: pipe.c, file.c and the descriptors.  Proc.v,
      Exec.v, ForkSpec.v: the life of a process, exec.c, and [fork].  Sysfile.v, Syscall.v,
      Trap.v, Boot.v: sysfile.c, sysproc.c, syscall.c, trap.c, main.c and start.c.
    - Asm.v: trampoline.S, swtch.S, kernelvec.S, entry.S, uswtch.S, initcode.S (with the
      bytes of it in proc.c) and the stubs of usys.pl.
    - Demo.v, FsDemo.v: concrete states, on which the theorems are instantiated.
    - Prog.v, Ulib.v, Utils.v: trees of system calls; user/ulib.c and user/printf.c; the
      small utilities (cat, echo, init, kill, ln, ls, mkdir, rm, wc, zombie).
    - Grep.v, Sh.v, ShRun.v, Uthread.v, Umalloc.v: user/grep.c, the parser and the rest of
      user/sh.c, user/uthread.c and user/umalloc.c.
    - Grind.v, UserTests.v, UserTests2.v, UserTestsRun.v: user/grind.c, the tests and the
      driver of user/usertests.c, forktest.c, stressfs.c and tests.c.

    ** What the theorems show

    - Locks and threads: a spinlock has one holder in every interleaving; no wakeup is
      lost between the check of a condition and [sleep]; [wakeup], [kill], thread creation
      and joining change exactly the threads they should; kernel stacks and trapframes do
      not overlap.  Some theorems show defects of the thread code: [yield] panics for
      every thread but the first, and [exit] of a process with two live threads sleeps on
      itself.  [fork] gives the child an equal and disjoint address space, the registers of
      the caller and the descriptors of the parent (with six free pages and three for each
      page of the parent, which is enough for every page table it may need).
    - Assembly: a trap from user mode, an interrupt in the kernel and a context switch save
      and restore the registers that they must; a timer interrupt changes no register; each
      hart starts on a stack of its own; the bytes of the first process are initcode.S.
    - Memory: no page is handed out twice; [walk], [mappages] and [uvmunmap] implement a
      finite map; copies between kernel and user memory move exactly the bytes that the
      page table maps; growing, shrinking and copying an address space keep its invariant and
      lose no page, also when they fail.
    - Disk: the buffer cache is transparent; a transaction is atomic with respect to a
      crash at any block write, also during recovery; allocation and release of blocks,
      reading and writing inodes and files, lookup and creation of directory entries and
      the walk of a path have their intended effect on the logical disk; the kernel finds
      in the image of mkfs the files that it was given.
    - Files: [dup] and [close] keep the counts of the open files equal to the number of
      descriptors (and a race of two threads breaks it); reading and writing of a pipe
      refine an abstract bounded queue of bytes, across the sleeps of a writer that finds
      it full.  [close] is covered where [iput] does not truncate the inode.
    - User programs: grep finds the lines of the language of its pattern, up to a NUL or a
      line that does not fit its buffer; the parser of the shell terminates and delimits
      its words, and the process of a line runs the programs that it means; atoi reads
      back what printf prints, without the sign; the allocator keeps the blocks of a
      program disjoint for requests below 2 GB; the scheduler of the user-level threads
      runs the best thread, except where it reads outside its table.
    - Tests: the generator of grind has its full period and a round of it leaves no
      descriptor and no child behind; usertests succeeds exactly when all its tests do.

    ** Not modelled

    - The linker scripts: the addresses that they give are parameters.  The hardware side of
      a trap (the change of privilege and of the program counter) is a change of the record
      of registers in Trap.v, and the kernel model keeps [swtch] as an outcome.
    - The memory model of the machine: a statement of C between two lock operations is one
      step, and [__sync_synchronize] has no effect.
    - The null pointers that the shell gets from [malloc] when memory runs out, and the line
      that [uthread_exit] prints.
    - The disk device, and ramdisk.c, which the Makefile does not build.
    - The memory of a test program outside its variables: an access to it is a call of its
      own, [Load] or [Store], which the system may answer by the death of the process.
      defs.h and user.h hold declarations only. *)
From Stdlib Require Export ZArith Lia.
From stdpp Require Export base tactics option strings functions numbers sets relations list.

#[global] Open Scope Z_scope.

(** ** Machine integers of kernel/types.h

    Every C integer is a [Z]; the functions below reduce a mathematical result
    to the width of the C type it is stored in. *)

Definition u8 (x : Z) : Z := x mod 2 ^ 8.
Definition u16 (x : Z) : Z := x mod 2 ^ 16.
Definition u32 (x : Z) : Z := x mod 2 ^ 32.
Definition u64 (x : Z) : Z := x mod 2 ^ 64.
Definition s16 (x : Z) : Z := (x + 2 ^ 15) mod 2 ^ 16 - 2 ^ 15.
Definition s32 (x : Z) : Z := (x + 2 ^ 31) mod 2 ^ 32 - 2 ^ 31.

(** A C condition on an integer: non-zero is true. *)
Definition ctrue (x : Z) : bool := negb (x =? 0).

(** The integer value of a C comparison. *)
Definition cbool (b : bool) : Z := if b then 1 else 0.

Lemma u8_small x : 0 <= x < 2 ^ 8 -> u8 x = x.
Proof. intros. by apply Z.mod_small. Qed.
Lemma u32_small x : 0 <= x < 2 ^ 32 -> u32 x = x.
Proof. intros. by apply Z.mod_small. Qed.
Lemma u64_small x : 0 <= x < 2 ^ 64 -> u64 x = x.
Proof. intros. by apply Z.mod_small. Qed.
Lemma u32_bound x : 0 <= u32 x < 2 ^ 32.
Proof. apply Z.mod_pos_bound. lia. Qed.
Lemma u64_bound x : 0 <= u64 x < 2 ^ 64.
Proof. apply Z.mod_pos_bound. lia. Qed.
Lemma u8_bound x : 0 <= u8 x < 2 ^ 8.
Proof. apply Z.mod_pos_bound. lia. Qed.
Lemma s32_small x : - 2 ^ 31 <= x < 2 ^ 31 -> s32 x = x.
Proof. intros. unfold s32. rewrite Z.mod_small; lia. Qed.

Lemma filter_ext_in {A} (P Q : A -> Prop) `{forall x, Decision (P x)} `{forall x, Decision (Q x)} (l : list A) :
  (forall x, x ∈ l -> P x <-> Q x) -> filter P l = filter Q l.
Proof.
  induction l as [|a l IH]; intros E; [done|]. rewrite !filter_cons, IH by (intros; apply E; by right).
  pose proof (E a ltac:(by left)). repeat case_decide; tauto.
Qed.

(** Two numbers with the same [int] differ by a multiple of 2^32. *)
Lemma s32_eq a b : s32 a = s32 b <-> exists k, a = b + k * 2 ^ 32.
Proof.
  unfold s32. split.
  - intros E. exists ((a + 2 ^ 31) / 2 ^ 32 - (b + 2 ^ 31) / 2 ^ 32).
    pose proof (Z.div_mod (a + 2 ^ 31) (2 ^ 32)). pose proof (Z.div_mod (b + 2 ^ 31) (2 ^ 32)). lia.
  - intros [k ->]. replace (b + k * 2 ^ 32 + 2 ^ 31) with (b + 2 ^ 31 + k * 2 ^ 32) by lia. by rewrite Z.mod_add by lia.
Qed.

Lemma s32_idem x : s32 (s32 x) = s32 x.
Proof. unfold s32. f_equal. rewrite Z.sub_add, Z.mod_mod by lia. done. Qed.

(** ** Record update

    [r <| f := v |>] is the C assignment [r.f = v], [r <| f ::= g |>] applies
    [g] to the field.  Each record of the development declares a [Setter] for
    each field. *)

Class Setter {R T : Type} (proj : R -> T) := rset : (T -> T) -> R -> R.
#[global] Arguments rset {R T} proj {_} g r.
#[global] Hint Mode Setter + + + : typeclass_instances.

Declare Scope xv6_scope.
#[global] Open Scope xv6_scope.
#[warnings="-postfix-notation-not-level-1"]
Notation "r <| f ::= g |>" := (rset f g r)
  (at level 12, f at next level, left associativity) : xv6_scope.
#[warnings="-postfix-notation-not-level-1"]
Notation "r <| f := v |>" := (rset f (fun _ => v) r)
  (at level 12, f at next level, left associativity) : xv6_scope.

(** [setter eta f]: the setter of field [f], from the eta-expansion of its record. *)
Ltac setter eta f :=
  let g := fresh "g" in let r := fresh "r" in intros g r;
  let b := eval cbv beta delta [eta] in (eta r) in
  let b' := eval pattern (f r) in b in
  lazymatch b' with ?F _ => let t := eval cbv beta in (F (g (f r))) in exact t end.

(** ** Tactics *)

(** Case analysis on a match of the goal. *)
Ltac case_goal :=
  match goal with
  | |- context [match ?x with _ => _ end] => destruct x eqn:?
  end.

(** Case analysis on a decision of the goal. *)
Ltac case_dec :=
  match goal with
  | |- context [decide ?P] => destruct (decide P)
  end.

(** Turn boolean arithmetic tests in hypotheses and goal into propositions. *)
Ltac b2p :=
  repeat match goal with
  | H : _ && _ = true |- _ => apply andb_prop in H; destruct H
  | H : _ || _ = false |- _ => apply orb_false_elim in H; destruct H
  | H : negb _ = true |- _ => apply negb_true_iff in H
  | H : negb _ = false |- _ => apply negb_false_iff in H
  | H : (_ =? _) = true |- _ => apply Z.eqb_eq in H
  | H : (_ =? _) = false |- _ => apply Z.eqb_neq in H
  | H : (_ <? _) = true |- _ => apply Z.ltb_lt in H
  | H : (_ <? _) = false |- _ => apply Z.ltb_ge in H
  | H : (_ <=? _) = true |- _ => apply Z.leb_le in H
  | H : (_ <=? _) = false |- _ => apply Z.leb_gt in H
  | H : bool_decide _ = true |- _ => apply bool_decide_eq_true in H
  | H : bool_decide _ = false |- _ => apply bool_decide_eq_false in H
  end.

(** Decide every integer comparison of the goal, then close what is linear. *)
Ltac zcases :=
  repeat match goal with
  | |- context [?a <=? ?b] => destruct (Z.leb_spec a b)
  | |- context [?a <? ?b] => destruct (Z.ltb_spec a b)
  | |- context [?a =? ?b] => destruct (Z.eqb_spec a b)
  | |- context [decide (?a = ?b :> Z)] => destruct (decide (a = b))
  end; cbn [andb orb negb]; try subst; try done; try lia.

Create HintDb xv6.
Create Rewrite HintDb xv6.

(** ** Function update (arrays indexed by a decidable type) *)

Section fn_update.
Context {A T : Type} `{EqDecision A}.

Lemma fn_insert_eq (f : A -> T) a t : (<[a:=t]> f) a = t.
Proof. apply fn_lookup_insert. Qed.

Lemma fn_insert_case (f : A -> T) a b t :
  (<[a:=t]> f) b = if decide (a = b) then t else f b.
Proof. done. Qed.

Lemma fn_alter_case (g : T -> T) (f : A -> T) a b :
  alter g a f b = if decide (a = b) then g (f a) else f b.
Proof. done. Qed.
End fn_update.

#[export] Hint Rewrite @fn_lookup_insert @fn_lookup_alter : xv6.
#[export] Hint Rewrite @fn_lookup_insert_ne @fn_lookup_alter_ne
  using (congruence || lia) : xv6.

(** ** Little lemmas on [Z] used by the address arithmetic *)

Lemma Z_mod_range a b : 0 < b -> 0 <= a mod b < b.
Proof. apply Z.mod_pos_bound. Qed.

Lemma ctrue_true x : ctrue x = true <-> x <> 0.
Proof. unfold ctrue. rewrite negb_true_iff, Z.eqb_neq. done. Qed.
Lemma ctrue_false x : ctrue x = false <-> x = 0.
Proof. unfold ctrue. rewrite negb_false_iff, Z.eqb_eq. done. Qed.
