(* ===== verification/Bytes.v ===== *)
(** * Byte-addressed storage and the string routines of kernel/string.c

    A byte array (physical memory, a disk block, a [char] array of a struct) is
    a function from offsets to bytes.  [load n]/[store n] are the little-endian
    [n]-byte accesses of the RISC-V machine.  The string routines are the loops
    of string.c; where the source works on two unrelated objects they take two
    arrays, where it works on one address space ([memset], [memmove]) one. *)
From S2P Require Export Prelude.

Abbreviation bytes := (Z -> Z).

(** ** Little-endian access *)

Fixpoint load (n : nat) (m : bytes) (a : Z) : Z :=
  match n with
  | O => 0
  | S n => u8 (m a) + 256 * load n m (a + 1)
  end.

Fixpoint store (n : nat) (m : bytes) (a v : Z) : bytes :=
  match n with
  | O => m
  | S n => store n (<[a := u8 v]> m) (a + 1) (v / 256)
  end.

Definition load16 := load 2.
Definition load32 := load 4.
Definition load64 := load 8.
Definition store16 := store 2.
Definition store32 := store 4.
Definition store64 := store 8.

(** ** kernel/string.c *)

Fixpoint memset_loop (k : nat) (m : bytes) (p c : Z) : bytes :=
  match k with
  | O => m
  | S k => memset_loop k (<[p := u8 c]> m) (p + 1) c
  end.

Definition memset (m : bytes) (dst c n : Z) : bytes :=
  memset_loop (Z.to_nat n) m dst c.

Fixpoint memcmp_loop (n : nat) (m1 : bytes) (s1 : Z) (m2 : bytes) (s2 : Z) : Z :=
  match n with
  | O => 0
  | S n =>
      if negb (m1 s1 =? m2 s2) then m1 s1 - m2 s2
      else memcmp_loop n m1 (s1 + 1) m2 (s2 + 1)
  end.

Definition memcmp (m1 : bytes) (v1 : Z) (m2 : bytes) (v2 n : Z) : Z :=
  memcmp_loop (Z.to_nat n) m1 v1 m2 v2.

Fixpoint move_bwd (n : nat) (m : bytes) (d s : Z) : bytes :=
  match n with
  | O => m
  | S n => move_bwd n (<[d - 1 := m (s - 1)]> m) (d - 1) (s - 1)
  end.

Fixpoint move_fwd (n : nat) (m : bytes) (d s : Z) : bytes :=
  match n with
  | O => m
  | S n => move_fwd n (<[d := m s]> m) (d + 1) (s + 1)
  end.

Definition memmove (m : bytes) (dst src n : Z) : bytes :=
  if n =? 0 then m
  else if (src <? dst) && (dst <? src + n)
  then move_bwd (Z.to_nat n) m (dst + n) (src + n)
  else move_fwd (Z.to_nat n) m dst src.

Definition memcpy (m : bytes) (dst src n : Z) : bytes := memmove m dst src n.

(** [memmove] between two different objects: the ranges never overlap, so the
    forward loop runs. *)
Fixpoint move_across (n : nat) (dm : bytes) (d : Z) (sm : bytes) (s : Z) : bytes :=
  match n with
  | O => dm
  | S n => move_across n (<[d := sm s]> dm) (d + 1) sm (s + 1)
  end.

Definition memmove_across (dm : bytes) (dst : Z) (sm : bytes) (src n : Z) : bytes :=
  move_across (Z.to_nat n) dm dst sm src.

Fixpoint strncmp_loop (n : nat) (pm : bytes) (p : Z) (qm : bytes) (q : Z) : Z :=
  match n with
  | O => 0
  | S n' =>
      if ctrue (pm p) && (pm p =? qm q)
      then strncmp_loop n' pm (p + 1) qm (q + 1)
      else u8 (pm p) - u8 (qm q)
  end.

Definition strncmp (pm : bytes) (p : Z) (qm : bytes) (q n : Z) : Z :=
  strncmp_loop (Z.to_nat n) pm p qm q.

Fixpoint strncpy_pad (n : nat) (dm : bytes) (s : Z) : bytes :=
  match n with
  | O => dm
  | S n => strncpy_pad n (<[s := 0]> dm) (s + 1)
  end.

Fixpoint strncpy_loop (n : nat) (dm : bytes) (s : Z) (tm : bytes) (t : Z) : bytes :=
  match n with
  | O => dm
  | S n =>
      let dm' := <[s := tm t]> dm in
      if tm t =? 0 then strncpy_pad n dm' (s + 1)
      else strncpy_loop n dm' (s + 1) tm (t + 1)
  end.

Definition strncpy (dm : bytes) (s : Z) (tm : bytes) (t n : Z) : bytes :=
  strncpy_loop (Z.to_nat n) dm s tm t.

(** [k] is the value of [--n]: the number of bytes that may still be copied. *)
Fixpoint safestrcpy_loop (k : nat) (dm : bytes) (s : Z) (tm : bytes) (t : Z) : bytes :=
  match k with
  | O => <[s := 0]> dm
  | S k =>
      let dm' := <[s := tm t]> dm in
      if tm t =? 0 then <[s + 1 := 0]> dm'
      else safestrcpy_loop k dm' (s + 1) tm (t + 1)
  end.

Definition safestrcpy (dm : bytes) (s : Z) (tm : bytes) (t n : Z) : bytes :=
  if n <=? 0 then dm else safestrcpy_loop (Z.to_nat (n - 1)) dm s tm t.

(** [strlen] runs until it meets a NUL byte: [None] when [fuel] bytes were read
    without one. *)
Fixpoint strlen_loop (fuel : nat) (m : bytes) (s n : Z) : option Z :=
  match fuel with
  | O => None
  | S fuel => if ctrue (m (s + n)) then strlen_loop fuel m s (n + 1) else Some n
  end.

Definition strlen (fuel : nat) (m : bytes) (s : Z) : option Z :=
  strlen_loop fuel m s 0.

(** A byte array holding a list of bytes from offset 0, zero elsewhere. *)
Definition bytes_of (l : list Z) : bytes :=
  fun i => if i <? 0 then 0 else default 0 (l !! Z.to_nat i).

(** The list of the [n] bytes at [a]. *)
Fixpoint read_bytes (n : nat) (m : bytes) (a : Z) : list Z :=
  match n with
  | O => []
  | S n => m a :: read_bytes n m (a + 1)
  end.

(** The characters of a string literal, and of a NUL-terminated array. *)
Definition chars (s : string) : list Z :=
  map (fun c => Z.of_nat (Ascii.nat_of_ascii c)) (String.list_ascii_of_string s).
Definition nl : string := String (Ascii.ascii_of_nat 10) EmptyString.
Fixpoint cstr (fuel : nat) (m : bytes) (a : Z) : list Z :=
  match fuel with
  | O => []
  | S fuel => if ctrue (m a) then m a :: cstr fuel m (a + 1) else []
  end.

#[global] Arguments load !n m a / : simpl nomatch.
#[global] Arguments memset : simpl never.
#[global] Arguments memmove : simpl never.
#[global] Arguments memmove_across : simpl never.
#[global] Arguments load16 : simpl never.
#[global] Arguments load32 : simpl never.
#[global] Arguments load64 : simpl never.
#[global] Arguments store16 : simpl never.
#[global] Arguments store32 : simpl never.
#[global] Arguments store64 : simpl never.

(** ** Lemmas on loads and stores *)

Strategy 1000 [memset memmove memmove_across].

Lemma load_ext n m m' a :
  (forall i, a <= i < a + Z.of_nat n -> m i = m' i) -> load n m a = load n m' a.
Proof.
  revert a. induction n as [|n IH]; intros a H; [done|]. cbn [load].
  rewrite (H a) by lia. f_equal. f_equal. apply IH. intros. apply H. lia.
Qed.

Lemma load_bound n m a : 0 <= load n m a < 256 ^ Z.of_nat n.
Proof.
  revert a. induction n as [|n IH]; intros a; [done|]. cbn [load].
  specialize (IH (a + 1)). pose proof (u8_bound (m a)).
  rewrite Nat2Z.inj_succ, Z.pow_succ_r by lia. lia.
Qed.

Lemma store_out n m a v x :
  x < a \/ a + Z.of_nat n <= x -> store n m a v x = m x.
Proof.
  revert m a v. induction n as [|n IH]; intros m a v H; [done|]. cbn [store].
  rewrite IH by lia. apply fn_lookup_insert_ne. lia.
Qed.

Lemma store_in n m a v i :
  0 <= i < Z.of_nat n -> store n m a v (a + i) = u8 (v / 256 ^ i).
Proof.
  revert m a v i. induction n as [|n IH]; intros m a v i H; [lia|]. cbn [store].
  destruct (decide (i = 0)) as [->|].
  - rewrite store_out by lia. rewrite Z.add_0_r, fn_lookup_insert.
    by rewrite Z.pow_0_r, Z.div_1_r.
  - replace (a + i) with (a + 1 + (i - 1)) by lia. rewrite IH by lia.
    f_equal. rewrite Z.div_div by lia. f_equal.
    rewrite <- Z.pow_succ_r by lia. f_equal. lia.
Qed.

Lemma u8_u8 x : u8 (u8 x) = u8 x.
Proof. unfold u8. by rewrite Z.mod_mod by lia. Qed.

(** A store is read back by a load of the same width. *)
Lemma load_store n m a v : load n (store n m a v) a = v mod 256 ^ Z.of_nat n.
Proof.
  revert m a v. induction n as [|n IH]; intros m a v; [by rewrite Z.mod_1_r|].
  cbn [load store]. rewrite IH. rewrite store_out by lia.
  rewrite fn_lookup_insert, u8_u8. unfold u8.
  rewrite Nat2Z.inj_succ, Z.pow_succ_r by lia.
  rewrite Z.rem_mul_r by lia. done.
Qed.

Lemma load_store_ne n k m a b v :
  a + Z.of_nat n <= b \/ b + Z.of_nat k <= a ->
  load n (store k m b v) a = load n m a.
Proof. intros. apply load_ext. intros. apply store_out. lia. Qed.

Lemma load64_store64 m a v : 0 <= v < 2 ^ 64 -> load64 (store64 m a v) a = v.
Proof. intros. unfold load64, store64. rewrite load_store. by apply Z.mod_small. Qed.

Lemma load64_store64_wrap m a v : load64 (store64 m a v) a = u64 v.
Proof. unfold load64, store64. by rewrite load_store. Qed.

Lemma load64_store64_ne m a b v :
  a + 8 <= b \/ b + 8 <= a -> load64 (store64 m b v) a = load64 m a.
Proof. intros. apply load_store_ne. lia. Qed.

Lemma load64_bound m a : 0 <= load64 m a < 2 ^ 64.
Proof. apply (load_bound 8). Qed.

Lemma load64_ext m m' a :
  (forall i, a <= i < a + 8 -> m i = m' i) -> load64 m a = load64 m' a.
Proof. intros. by apply load_ext. Qed.

Lemma store64_out m a v x : x < a \/ a + 8 <= x -> store64 m a v x = m x.
Proof. intros. apply store_out. lia. Qed.

Lemma load_zero n m a :
  (forall i, a <= i < a + Z.of_nat n -> m i = 0) -> load n m a = 0.
Proof.
  revert a. induction n as [|n IH]; intros a H; [done|]. cbn [load].
  rewrite H by lia. rewrite IH; [done|]. intros. apply H. lia.
Qed.

Lemma bytes_of_lookup l i c : l !! i = Some c -> bytes_of l (Z.of_nat i) = c.
Proof. intros Hi. unfold bytes_of. rewrite (proj2 (Z.ltb_ge _ 0)) by lia. by rewrite Nat2Z.id, Hi. Qed.

Lemma bytes_of_beyond l i : Z.of_nat (length l) <= i -> bytes_of l i = 0.
Proof. intros Hi. unfold bytes_of. case_match; [done|]. by rewrite lookup_ge_None_2 by lia. Qed.

Lemma bytes_of_app l1 l2 i : 0 <= i ->
  bytes_of (l1 ++ l2) i = if i <? Z.of_nat (length l1) then bytes_of l1 i else bytes_of l2 (i - Z.of_nat (length l1)).
Proof.
  intros Hi. unfold bytes_of. rewrite (proj2 (Z.ltb_ge i 0)) by lia. destruct (Z.ltb_spec i (Z.of_nat (length l1))).
  - by rewrite lookup_app_l by lia.
  - rewrite (proj2 (Z.ltb_ge _ 0)), lookup_app_r by lia. f_equal. f_equal. lia.
Qed.

Lemma bytes_of_elem l c : c ∈ l <-> exists x, 0 <= x < Z.of_nat (length l) /\ bytes_of l x = c.
Proof.
  rewrite list_elem_of_lookup. split.
  - intros [i Hi]. exists (Z.of_nat i). pose proof (lookup_lt_Some _ _ _ Hi). split; [lia|]. by apply bytes_of_lookup.
  - intros (x & Hx & Ex). exists (Z.to_nat x). destruct (lookup_lt_is_Some_2 l (Z.to_nat x)) as [y Hy]; [lia|].
    pose proof (bytes_of_lookup _ _ _ Hy) as E. rewrite Z2Nat.id in E by lia. congruence.
Qed.

(** ** Lemmas on the string routines *)

Lemma memset_loop_spec k m p c x :
  memset_loop k m p c x = if (p <=? x) && (x <? p + Z.of_nat k) then u8 c else m x.
Proof.
  revert m p. induction k as [|k IH]; intros m p; cbn [memset_loop].
  - zcases.
  - rewrite IH, fn_insert_case. zcases.
Qed.

Lemma memset_spec m dst c n x :
  0 <= n ->
  memset m dst c n x = if (dst <=? x) && (x <? dst + n) then u8 c else m x.
Proof. intros. unfold memset. rewrite memset_loop_spec. by rewrite Z2Nat.id. Qed.

Lemma memset_in m dst c n x :
  dst <= x < dst + n -> memset m dst c n x = u8 c.
Proof. intros. rewrite memset_spec by lia. zcases. Qed.

Lemma memset_out m dst c n x :
  x < dst \/ dst + n <= x -> memset m dst c n x = m x.
Proof.
  intros. unfold memset. rewrite memset_loop_spec.
  destruct (decide (0 <= n)); [rewrite Z2Nat.id by done|rewrite Z2Nat.nonpos by lia];
    zcases.
Qed.

Lemma move_fwd_spec n m d s x :
  d <= s \/ s + Z.of_nat n <= d ->
  move_fwd n m d s x =
    if (d <=? x) && (x <? d + Z.of_nat n) then m (s + (x - d)) else m x.
Proof.
  revert m d s. induction n as [|n IH]; intros m d s H; cbn [move_fwd].
  - zcases.
  - rewrite IH by lia. rewrite !fn_insert_case.
    zcases; f_equal; lia.
Qed.

Lemma move_bwd_spec n m d s x :
  s <= d ->
  move_bwd n m d s x =
    if (d - Z.of_nat n <=? x) && (x <? d) then m (s - (d - x)) else m x.
Proof.
  revert m d s. induction n as [|n IH]; intros m d s H; cbn [move_bwd].
  - zcases.
  - rewrite IH by lia. rewrite !fn_insert_case.
    zcases; f_equal; lia.
Qed.

(** Overlapping or not, the destination holds what the source held. *)
Lemma memmove_spec m dst src n x :
  0 <= n ->
  memmove m dst src n x =
    if (dst <=? x) && (x <? dst + n) then m (src + (x - dst)) else m x.
Proof.
  intros. unfold memmove. destruct (Z.eqb_spec n 0); [zcases|].
  destruct (Z.ltb_spec src dst), (Z.ltb_spec dst (src + n)); cbn [andb];
    first [rewrite move_bwd_spec by lia | rewrite move_fwd_spec by lia];
    rewrite ?Z2Nat.id by lia; zcases; f_equal; lia.
Qed.

Lemma move_across_spec n dm d sm s x :
  move_across n dm d sm s x =
    if (d <=? x) && (x <? d + Z.of_nat n) then sm (s + (x - d)) else dm x.
Proof.
  revert dm d s. induction n as [|n IH]; intros dm d s; cbn [move_across].
  - zcases.
  - rewrite IH, fn_insert_case. zcases; f_equal; lia.
Qed.

Lemma memmove_across_spec dm dst sm src n x :
  0 <= n ->
  memmove_across dm dst sm src n x =
    if (dst <=? x) && (x <? dst + n) then sm (src + (x - dst)) else dm x.
Proof.
  intros. unfold memmove_across. rewrite move_across_spec. by rewrite Z2Nat.id.
Qed.

(** ** Strings *)

(** [nul_at m s k]: the string at [s] has its first NUL byte at offset [k]. *)
Definition nul_at (m : bytes) (s k : Z) : Prop :=
  0 <= k /\ m (s + k) = 0 /\ forall i, 0 <= i < k -> m (s + i) <> 0.

Lemma nul_at_exists m s j : 0 <= j -> m (s + j) = 0 -> exists k, 0 <= k <= j /\ nul_at m s k.
Proof.
  intros Hj. revert s. pattern j. apply natlike_ind; [..|done]; clear j Hj.
  - intros s H. exists 0. split; [lia|]. split; [lia|]. split; [done|lia].
  - intros j Hj IH s H. destruct (decide (m s = 0)) as [E|E].
    + exists 0. split; [lia|]. split; [lia|]. rewrite Z.add_0_r. split; [done|lia].
    + destruct (IH (s + 1)) as (k & Hk & _ & Hz & Hnz); [by replace (s + 1 + j) with (s + Z.succ j) by lia|].
      exists (k + 1). split; [lia|]. split; [lia|]. split; [by replace (s + (k + 1)) with (s + 1 + k) by lia|].
      intros i Hi. destruct (decide (i = 0)) as [->|]; [by rewrite Z.add_0_r|].
      replace (s + i) with (s + 1 + (i - 1)) by lia. apply Hnz. lia.
Qed.

(** [strlen] terminates on every string with a NUL byte and returns the
    offset of the first one. *)
Lemma strlen_nul_at fuel m s k :
  nul_at m s k -> k < Z.of_nat fuel -> strlen fuel m s = Some k.
Proof.
  intros (Hk & Hz & Hnz). unfold strlen.
  cut (forall n, 0 <= n <= k -> k - n < Z.of_nat fuel ->
         strlen_loop fuel m s n = Some k); [intros H ?; apply H; lia|].
  induction fuel as [|fuel IH]; intros n Hn Hf; [lia|]. cbn [strlen_loop].
  destruct (decide (n = k)) as [->|].
  - by rewrite Hz.
  - rewrite (proj2 (ctrue_true _)) by (apply Hnz; lia). apply IH; lia.
Qed.

Lemma safestrcpy_loop_out k dm s tm t x :
  x < s \/ s + Z.of_nat k < x -> safestrcpy_loop k dm s tm t x = dm x.
Proof.
  revert dm s t. induction k as [|k IH]; intros dm s t H; cbn [safestrcpy_loop].
  - apply fn_lookup_insert_ne. lia.
  - case_match; [|rewrite IH by lia]; by rewrite !fn_lookup_insert_ne by lia.
Qed.

(** The destination holds the source up to its NUL byte or up to [k] bytes,
    and is NUL-terminated. *)
Lemma safestrcpy_loop_in k dm s tm t j :
  nul_at tm t j ->
  (forall i, 0 <= i < Z.min j (Z.of_nat k) ->
     safestrcpy_loop k dm s tm t (s + i) = tm (t + i)) /\
  safestrcpy_loop k dm s tm t (s + Z.min j (Z.of_nat k)) = 0.
Proof.
  revert dm s t j. induction k as [|k IH]; intros dm s t j (Hj & Hz & Hnz);
    cbn [safestrcpy_loop].
  - split; [lia|]. replace (s + Z.min j (Z.of_nat 0)) with s by lia.
    apply fn_lookup_insert.
  - destruct (Z.eqb_spec (tm t) 0) as [E|E].
    + assert (j = 0) as ->.
      { destruct (decide (j = 0)) as [|]; [done|].
        exfalso. apply (Hnz 0); [lia|]. by rewrite Z.add_0_r. }
      split; [lia|]. replace (s + Z.min 0 (Z.of_nat (S k))) with s by lia.
      rewrite fn_lookup_insert_ne by lia. by rewrite fn_lookup_insert.
    + assert (1 <= j).
      { destruct (decide (j = 0)) as [->|]; [|lia]. by rewrite Z.add_0_r in Hz. }
      destruct (IH (<[s:=tm t]> dm) (s + 1) (t + 1) (j - 1)) as [Hi Hn].
      { split; [lia|]. split; [by replace (t + 1 + (j - 1)) with (t + j) by lia|].
        intros i ?. replace (t + 1 + i) with (t + (i + 1)) by lia. apply Hnz. lia. }
      split.
      * intros i ?. destruct (decide (i = 0)) as [->|].
        -- rewrite safestrcpy_loop_out by lia. rewrite !Z.add_0_r.
           apply fn_lookup_insert.
        -- replace (s + i) with (s + 1 + (i - 1)) by lia. rewrite Hi by lia.
           f_equal. lia.
      * rewrite <- Hn. f_equal. lia.
Qed.

Lemma strncpy_pad_spec n dm s x :
  strncpy_pad n dm s x = if (s <=? x) && (x <? s + Z.of_nat n) then 0 else dm x.
Proof.
  revert dm s. induction n as [|n IH]; intros dm s; cbn [strncpy_pad].
  - zcases.
  - rewrite IH, fn_insert_case. zcases.
Qed.

Lemma strncpy_loop_out n dm s tm t x :
  x < s \/ s + Z.of_nat n <= x -> strncpy_loop n dm s tm t x = dm x.
Proof.
  revert dm s t. induction n as [|n IH]; intros dm s t H; [done|].
  cbn [strncpy_loop]. case_match.
  - rewrite strncpy_pad_spec, fn_insert_case. zcases.
  - rewrite IH by lia. apply fn_lookup_insert_ne. lia.
Qed.

(** Up to its first NUL byte the source is copied, the rest is NUL-padded. *)
Lemma strncpy_loop_in n dm s tm t i :
  0 <= i < Z.of_nat n ->
  ((forall j, 0 <= j < i -> tm (t + j) <> 0) ->
     strncpy_loop n dm s tm t (s + i) = tm (t + i)) /\
  (forall j, 0 <= j < i -> tm (t + j) = 0 ->
     strncpy_loop n dm s tm t (s + i) = 0).
Proof.
  revert dm s t i. induction n as [|n IH]; intros dm s t i Hi; [lia|].
  cbn [strncpy_loop]. destruct (decide (i = 0)) as [->|].
  - split; [intros _|intros; lia]. rewrite !Z.add_0_r.
    destruct (Z.eqb_spec (tm t) 0).
    + rewrite strncpy_pad_spec, fn_insert_case. zcases.
    + rewrite strncpy_loop_out by lia. apply fn_lookup_insert.
  - destruct (Z.eqb_spec (tm t) 0) as [E|E].
    + rewrite strncpy_pad_spec, fn_insert_case. split.
      * intros H. exfalso. apply (H 0); [lia|]. by rewrite Z.add_0_r.
      * zcases.
    + destruct (IH (<[s:=tm t]> dm) (s + 1) (t + 1) (i - 1)) as [H1 H2]; [lia|].
      replace (s + 1 + (i - 1)) with (s + i) in * by lia.
      replace (t + 1 + (i - 1)) with (t + i) in * by lia. split.
      * intros H. apply H1. intros j ?.
        replace (t + 1 + j) with (t + (j + 1)) by lia. apply H. lia.
      * intros j Hj Hz. destruct (decide (j = 0)) as [->|].
        { by rewrite Z.add_0_r in Hz. }
        apply (H2 (j - 1)); [lia|]. by replace (t + 1 + (j - 1)) with (t + j) by lia.
Qed.

(** [strncmp] is zero exactly when the strings agree up to [n] bytes or up to
    and including a common NUL byte. *)
Definition str_agree (n : Z) (pm : bytes) (p : Z) (qm : bytes) (q : Z) : Prop :=
  forall i, 0 <= i < n ->
    (forall j, 0 <= j < i -> pm (p + j) <> 0) -> pm (p + i) = qm (q + i).

Lemma strncmp_loop_zero n pm p qm q :
  (forall i, 0 <= pm i < 256) -> (forall i, 0 <= qm i < 256) ->
  strncmp_loop n pm p qm q = 0 <-> str_agree (Z.of_nat n) pm p qm q.
Proof.
  intros Hp Hq. revert p q. induction n as [|n IH]; intros p q; cbn [strncmp_loop].
  - split; [intros _ i; lia|done].
  - destruct (Z.eqb_spec (pm p) (qm q)) as [E|E], (ctrue (pm p)) eqn:C; cbn [andb].
    + rewrite IH. apply ctrue_true in C. split; intros H i Hi Hj.
      * destruct (decide (i = 0)) as [->|]; [by rewrite !Z.add_0_r|].
        replace (p + i) with (p + 1 + (i - 1)) by lia.
        replace (q + i) with (q + 1 + (i - 1)) by lia. apply H; [lia|].
        intros j ?. replace (p + 1 + j) with (p + (j + 1)) by lia. apply Hj. lia.
      * replace (p + 1 + i) with (p + (i + 1)) by lia.
        replace (q + 1 + i) with (q + (i + 1)) by lia. apply H; [lia|].
        intros j ?. destruct (decide (j = 0)) as [->|]; [by rewrite Z.add_0_r|].
        replace (p + j) with (p + 1 + (j - 1)) by lia. apply Hj. lia.
    + rewrite E, Z.sub_diag. split; [|done]. intros _ i Hi Hj.
      apply ctrue_false in C. destruct (decide (i = 0)) as [->|];
        [by rewrite !Z.add_0_r|]. exfalso. apply (Hj 0); [lia|]. by rewrite Z.add_0_r.
    + rewrite !u8_small by eauto. split; [intros; lia|].
      intros H. specialize (H 0). rewrite !Z.add_0_r in H. exfalso. apply E, H; lia.
    + rewrite !u8_small by eauto. split; [intros; lia|].
      intros H. specialize (H 0). rewrite !Z.add_0_r in H. exfalso. apply E, H; lia.
Qed.
