(* ===== verification/Prog.v ===== *)
(** * User programs as trees of system calls (user/user.h)

    A user program computes on its own memory and calls the system.  [prog A] is such a
    program with a result of type [A]: a finished program, or a system call together
    with the rest of the program as a function of the answer.  [run] executes a program
    against a handler, which answers each call in a world of its own choosing; a
    handler may stop the process ([exit], [exec]) or continue it twice ([fork]). *)
From S2P Require Export Bytes.

(** [struct stat] of kernel/stat.h. *)
Record stat_t := Stat { st_dev : Z; st_ino : Z; st_type : Z; st_nlink : Z; st_size : Z }.

(** An argument as a program passes it: a string, a word, or a vector of arguments. *)
Inductive uarg := Str (l : list Z) | Num (v : Z) | Vec (l : list uarg).

(** The system calls, each with the type of its answer.  A path or an argument is the
    list of its characters.  A call that fills a buffer answers with the returned value
    and what it stored.  [Raw] is a call by its number, for arguments that are addresses
    outside of the variables of the program; [Load] and [Store] are accesses to such
    addresses, of the given number of bytes, at which the process may end. *)
Inductive sys : Type -> Type :=
| Fork : sys Z
| Exit (status : Z) : sys Empty_set
| Wait : sys Z
| Pipe : sys (Z * (Z * Z))
| Write (fd : Z) (data : list Z) : sys Z
| Read (fd n : Z) : sys (Z * list Z)
| Close (fd : Z) : sys Z
| Kill (pid : Z) : sys Z
| Exec (path : list Z) (argv : list (list Z)) : sys Z
| Open (path : list Z) (mode : Z) : sys Z
| Mknod (path : list Z) (major minor : Z) : sys Z
| Unlink (path : list Z) : sys Z
| Fstat (fd : Z) : sys (Z * stat_t)
| Link (old new : list Z) : sys Z
| Mkdir (path : list Z) : sys Z
| Chdir (path : list Z) : sys Z
| Dup (fd : Z) : sys Z
| Sleep (n : Z) : sys Z
| Wait_status : sys (Z * option Z)
| Getpid : sys Z
| Sbrk (n : Z) : sys Z
| Raw (num : Z) (args : list uarg) : sys Z
| Load (addr n : Z) : sys Z
| Store (addr n v : Z) : sys unit.

(** [Nofuel]: a loop of the program was cut off.  [Undefined]: behaviour that C does not
    define. *)
Inductive prog (A : Type) : Type :=
| Ret (a : A)
| Call {R : Type} (e : sys R) (k : R -> prog A)
| Nofuel
| Undefined.
Arguments Ret {A} a.
Arguments Call {A R} e k.
Arguments Nofuel {A}.
Arguments Undefined {A}.

#[global] Instance prog_ret : MRet prog := @Ret.
#[global] Instance prog_bind : MBind prog := fun A B f =>
  fix go p :=
    match p with
    | Ret a => f a
    | Call e k => Call e (fun r => go (k r))
    | Nofuel => Nofuel
    | Undefined => Undefined
    end.

Definition call {R} (e : sys R) : prog R := Call e Ret.

(** [exit] does not return. *)
Definition exit {A} (status : Z) : prog A := Call (Exit status) (fun r : Empty_set => match r with end).

Definition forP {A} (l : list A) (f : A -> prog unit) : prog unit :=
  foldr (fun a p => f a;; p) (Ret tt) l.

(** Whatever the answers of the system, the program is not cut off and its result
    satisfies [P]. *)
Fixpoint always {A} (P : A -> Prop) (p : prog A) : Prop :=
  match p with
  | Ret a => P a
  | Call _ k => forall r, always P (k r)
  | Nofuel | Undefined => False
  end.

Lemma always_bind {A B} (P : A -> Prop) (Q : B -> Prop) (p : prog A) (f : A -> prog B) :
  always P p -> (forall a, P a -> always Q (f a)) -> always Q (p ≫= f).
Proof. intros Hp Hf. induction p as [a|R e k IH| |]; cbn in *; auto. Qed.

(** ** Execution *)

(** The answer of a handler in world type [W] with events [E]: continue, continue after
    an event, continue as two processes (the child first), or stop with an event. *)
Inductive ans (W E R : Type) :=
| Go (r : R) (w : W)
| Emit (e : E) (r : R) (w : W)
| Both (r1 : R) (w1 : W) (r2 : R) (w2 : W)
| Stop (e : E).
Arguments Go {W E R} r w.
Arguments Emit {W E R} e r w.
Arguments Both {W E R} r1 w1 r2 w2.
Arguments Stop {W E R} e.

(** The behaviour of a program and of the processes that it forks. *)
Inductive ptree (W E A : Type) :=
| Done (a : A) (w : W)
| Leaf (e : E)
| Node (e : E) (t : ptree W E A)
| Split (child parent : ptree W E A)
| Stuck.
Arguments Done {W E A} a w.
Arguments Leaf {W E A} e.
Arguments Node {W E A} e t.
Arguments Split {W E A} child parent.
Arguments Stuck {W E A}.

Section run.
Context {W E : Type} (h : forall R, sys R -> W -> ans W E R).

Fixpoint run {A} (p : prog A) (w : W) : ptree W E A :=
  match p with
  | Ret a => Done a w
  | Call e k =>
      match h _ e w with
      | Go r w => run (k r) w
      | Emit ev r w => Node ev (run (k r) w)
      | Both r1 w1 r2 w2 => Split (run (k r1) w1) (run (k r2) w2)
      | Stop ev => Leaf ev
      end
  | Nofuel | Undefined => Stuck
  end.

(** A behaviour followed by another, for the processes that return. *)
Fixpoint then_ {A B} (t : ptree W E A) (f : A -> W -> ptree W E B) : ptree W E B :=
  match t with
  | Done a w => f a w
  | Leaf e => Leaf e
  | Node e t => Node e (then_ t f)
  | Split c p => Split (then_ c f) (then_ p f)
  | Stuck => Stuck
  end.

Lemma run_bind {A B} (p : prog A) (f : A -> prog B) w : run (p ≫= f) w = then_ (run p w) (fun a w => run (f a) w).
Proof.
  revert w. induction p as [a|R e k IH| |]; intros w; cbn; [done| |done..].
  destruct (h R e w) as [r w'|ev r w'|r1 w1 r2 w2|ev]; cbn.
  - apply IH.
  - f_equal. apply IH.
  - f_equal; apply IH.
  - done.
Qed.

Lemma run_exit {A} status w : run (@exit A status) w =
  match h _ (Exit status) w with Stop ev => Leaf ev | Go r _ | Emit _ r _ | Both r _ _ _ => match r : Empty_set with end end.
Proof. cbn. by destruct (h _ (Exit status) w) as [[]|? []|[]|]. Qed.

(** A list of events, then a behaviour. *)
Definition emits {A} (l : list E) (t : ptree W E A) : ptree W E A := foldr Node t l.

Lemma then_emits {A B} l (t : ptree W E A) (f : A -> W -> ptree W E B) : then_ (emits l t) f = emits l (then_ t f).
Proof. induction l as [|e l IH]; cbn; [done|]. f_equal. apply IH. Qed.

Lemma emits_app {A} l1 l2 (t : ptree W E A) : emits (l1 ++ l2) t = emits l1 (emits l2 t).
Proof. apply foldr_app. Qed.
End run.

(** ** Any system of a kind

    [step] says which answers a system may give to a call, and the world after it; a
    fork answers once as the parent and once as the child.  [pre] says which calls the
    program may make. *)
Section holds.
Context {W : Type} (pre : forall R, sys R -> W -> Prop) (step : forall R, sys R -> W -> R -> W -> Prop).

(** Whatever the system answers, the program is not cut off and makes only calls that it
    may make, and where it returns its result and the world satisfy [Q]. *)
Fixpoint holds {A} (Q : A -> W -> Prop) (p : prog A) (w : W) : Prop :=
  match p with
  | Ret a => Q a w
  | Call e k => pre _ e w /\ forall r w', step _ e w r w' -> holds Q (k r) w'
  | Nofuel | Undefined => False
  end.

Lemma holds_mono {A} (Q Q' : A -> W -> Prop) p w : holds Q p w -> (forall a w, Q a w -> Q' a w) -> holds Q' p w.
Proof. intros Hp HQ. revert w Hp. induction p as [a|R e k IH| |]; intros w Hp; cbn in *; naive_solver. Qed.

Lemma holds_bind {A B} (Q : B -> W -> Prop) (p : prog A) (f : A -> prog B) w :
  holds (fun a w => holds Q (f a) w) p w -> holds Q (p ≫= f) w.
Proof. revert w. induction p as [a|R e k IH| |]; intros w Hp; cbn in *; naive_solver. Qed.

Lemma holds_ret {A} (Q : A -> W -> Prop) a w : Q a w -> holds Q (Ret a) w.
Proof. done. Qed.

Lemma holds_call {R} (Q : R -> W -> Prop) (e : sys R) w : pre _ e w -> (forall r w', step _ e w r w' -> Q r w') -> holds Q (call e) w.
Proof. done. Qed.

Lemma holds_exit {A} (Q : A -> W -> Prop) n w : pre _ (Exit n) w -> holds Q (exit n) w.
Proof. intros H. split; [done|]. by intros []. Qed.

Lemma holds_forP {A} (I : W -> Prop) (l : list A) (f : A -> prog unit) w :
  (forall a w, a ∈ l -> I w -> holds (fun _ w => I w) (f a) w) -> I w -> holds (fun _ w => I w) (forP l f) w.
Proof.
  revert w. induction l as [|a l IH]; intros w Hf Hw; [done|]. cbn. apply holds_bind. eapply holds_mono; [apply Hf; [by left|done]|].
  intros [] w' Hw'. apply IH; [|done]. intros b w'' Hb. apply Hf. by right.
Qed.
End holds.
