(* ===== verification/Ulib.v ===== *)
(** * The C library of user programs (user/ulib.c, user/printf.c)

    The string routines work on a byte array, as those of the kernel; those that scan
    for a NUL carry fuel.  [gets], [stat] and the printing functions are programs with
    system calls.  [char] is unsigned on RISC-V. *)
From S2P Require Export Prog.

(** A string literal that ends in a newline. *)
Definition line (s : string) : string := s +:+ nl.

(** ** user/ulib.c *)

(** The loop of [strcpy]: the character is stored before it is tested. *)
Fixpoint strcpy (fuel : nat) (m : bytes) (s t : Z) : option bytes :=
  match fuel with
  | O => None
  | S fuel =>
      let c := m t in
      let m := <[s := c]> m in
      if ctrue c then strcpy fuel m (s + 1) (t + 1) else Some m
  end.

Fixpoint strcmp (fuel : nat) (m : bytes) (p q : Z) : option Z :=
  match fuel with
  | O => None
  | S fuel =>
      if ctrue (m p) && (m p =? m q) then strcmp fuel m (p + 1) (q + 1)
      else Some (u8 (m p) - u8 (m q))
  end.

Definition strlen (fuel : nat) (m : bytes) (s : Z) : option Z := strlen_loop fuel m s 0.

Definition memset (m : bytes) (dst c n : Z) : bytes := memset_loop (Z.to_nat n) m dst c.

(** The outer [None] is lack of fuel, the inner one a null pointer. *)
Fixpoint strchr (fuel : nat) (m : bytes) (s c : Z) : option (option Z) :=
  match fuel with
  | O => None
  | S fuel =>
      if ctrue (m s) then if m s =? c then Some (Some s) else strchr fuel m (s + 1) c
      else Some None
  end.

(** The loop of [gets] with room for [n] more characters, the next one at [buf[i]]. *)
Fixpoint gets_loop (n : nat) (buf : bytes) (i : Z) : prog bytes :=
  match n with
  | O => Ret (<[i := 0]> buf)
  | S n =>
      '(cc, data) ← call (Read 0 1);
      if cc <? 1 then Ret (<[i := 0]> buf) else
      let c := default 0 (head data) in
      let buf := <[i := c]> buf in
      if (c =? 10) || (c =? 13) then Ret (<[i + 1 := 0]> buf)
      else gets_loop n buf (i + 1)
  end.

Definition gets (buf : bytes) (max : Z) : prog bytes := gets_loop (Z.to_nat (max - 1)) buf 0.

(** [open] with [O_RDONLY], which is 0. *)
Definition stat (n : list Z) : prog (Z * stat_t) :=
  fd ← call (Open n 0);
  if fd <? 0 then Ret (-1, Stat 0 0 0 0 0) else
  r ← call (Fstat fd);
  call (Close fd);;
  Ret r.

(** The loop of [atoi]; [n] is an [int]. *)
Fixpoint atoi_loop (fuel : nat) (m : bytes) (s n : Z) : option Z :=
  match fuel with
  | O => None
  | S fuel =>
      if (48 <=? m s) && (m s <=? 57) then atoi_loop fuel m (s + 1) (s32 (n * 10 + m s - 48))
      else Some n
  end.

Definition atoi (fuel : nat) (m : bytes) (s : Z) : option Z := atoi_loop fuel m s 0.

Definition memmove (m : bytes) (dst src n : Z) : bytes :=
  if dst <? src then move_fwd (Z.to_nat n) m dst src
  else move_bwd (Z.to_nat n) m (dst + n) (src + n).

Fixpoint memcmp_loop (n : nat) (m : bytes) (p1 p2 : Z) : Z :=
  match n with
  | O => 0
  | S n => if negb (m p1 =? m p2) then m p1 - m p2 else memcmp_loop n m (p1 + 1) (p2 + 1)
  end.

Definition memcmp (m : bytes) (s1 s2 n : Z) : Z := memcmp_loop (Z.to_nat n) m s1 s2.

Definition memcpy (m : bytes) (dst src n : Z) : bytes := memmove m dst src n.

(** ** user/printf.c *)

Definition digits (i : Z) : Z := nth (Z.to_nat i) (chars "0123456789ABCDEF") 0.

Definition putc (fd c : Z) : prog unit := call (Write fd [u8 c]);; Ret tt.

(** The do-while loop: the digits in the order in which they are stored in [buf]. *)
Fixpoint printint_loop (fuel : nat) (x base : Z) : list Z :=
  let c := digits (x mod base) in
  let x := x / base in
  match fuel with
  | O => [c]
  | S fuel => c :: (if negb (x =? 0) then printint_loop fuel x base else [])
  end.

(** The contents of [buf] before it is printed backwards.  32 rounds are enough for a
    32-bit number in base 2 or more. *)
Definition printint_buf (xx base : Z) (sgn : bool) : list Z :=
  let neg := sgn && (xx <? 0) in
  let x := if neg then u32 (- xx) else u32 xx in
  printint_loop 32 x base ++ (if neg then [45] else []).

Definition printint (fd xx base : Z) (sgn : bool) : prog unit :=
  forP (rev (printint_buf xx base sgn)) (putc fd).

Definition printptr (fd x : Z) : prog unit :=
  putc fd 48;;
  putc fd 120;;
  forP (seqZ 0 16) (fun i => putc fd (digits (Z.shiftr (u64 (Z.shiftl x (4 * i))) 60))).

(** The arguments of [printf]: an [int], a [uint64], and a [char*]. *)
Inductive va := va_int (x : Z) | va_long (x : Z) | va_str (s : option (list Z)).

(** The loop over [fmt]; [state] is [true] after a percent sign, and [ap] holds the
    arguments not yet used.  Taking an argument that was not passed is undefined. *)
Fixpoint vprintf_loop (fd : Z) (fmt : list Z) (state : bool) (ap : list va) : prog unit :=
  match fmt with
  | [] => Ret tt
  | c :: fmt =>
      if negb state then
        if c =? 37 then vprintf_loop fd fmt true ap
        else putc fd c;; vprintf_loop fd fmt false ap
      else if c =? 100 then
        match ap with
        | va_int x :: ap => printint fd x 10 true;; vprintf_loop fd fmt false ap
        | _ => Undefined
        end
      else if c =? 108 then
        match ap with
        | va_long x :: ap => printint fd (s32 x) 10 false;; vprintf_loop fd fmt false ap
        | _ => Undefined
        end
      else if c =? 120 then
        match ap with
        | va_int x :: ap => printint fd x 16 false;; vprintf_loop fd fmt false ap
        | _ => Undefined
        end
      else if c =? 112 then
        match ap with
        | va_long x :: ap => printptr fd x;; vprintf_loop fd fmt false ap
        | _ => Undefined
        end
      else if c =? 115 then
        match ap with
        | va_str s :: ap => forP (default (chars "(null)") s) (putc fd);; vprintf_loop fd fmt false ap
        | _ => Undefined
        end
      else if c =? 99 then
        match ap with
        | va_int x :: ap => putc fd x;; vprintf_loop fd fmt false ap
        | _ => Undefined
        end
      else if c =? 37 then putc fd c;; vprintf_loop fd fmt false ap
      else putc fd 37;; putc fd c;; vprintf_loop fd fmt false ap
  end.

Definition vprintf (fd : Z) (fmt : string) (ap : list va) : prog unit := vprintf_loop fd (chars fmt) false ap.
Definition fprintf (fd : Z) (fmt : string) (ap : list va) : prog unit := vprintf fd fmt ap.
Definition printf (fmt : string) (ap : list va) : prog unit := vprintf 1 fmt ap.

(** ** The string routines *)

(** The two directions of [memmove] copy correctly whether or not the ranges overlap,
    with the same result as the routine of the kernel, which chooses differently. *)
Lemma memmove_copies m dst src n x : 0 <= n ->
  memmove m dst src n x = if (dst <=? x) && (x <? dst + n) then m (src + (x - dst)) else m x.
Proof.
  intros Hn. unfold memmove. destruct (Z.ltb_spec dst src).
  - rewrite move_fwd_spec by lia. by rewrite Z2Nat.id by lia.
  - rewrite move_bwd_spec by lia. rewrite Z2Nat.id by lia. replace (dst + n - n) with dst by lia.
    by replace (src + n - (dst + n - x)) with (src + (x - dst)) by lia.
Qed.

Lemma memmove_kernel m dst src n x : 0 <= n -> memmove m dst src n x = Bytes.memmove m dst src n x.
Proof. intros Hn. by rewrite memmove_copies, memmove_spec. Qed.

(** [strcpy] to memory that does not overlap the string copies it with its NUL. *)
Lemma strcpy_copies fuel m s t k : nul_at m t k -> s + k < t \/ t + k < s -> k < Z.of_nat fuel ->
  exists m', strcpy fuel m s t = Some m' /\ forall x, m' x = if (s <=? x) && (x <=? s + k) then m (t + (x - s)) else m x.
Proof.
  revert m s t k. induction fuel as [|fuel IH]; intros m s t k (Hk & Hz & Hnz) Hd Hf; [lia|]. cbn [strcpy].
  destruct (decide (k = 0)) as [->|Hk0].
  - rewrite Z.add_0_r in *. rewrite Hz. eexists. split; [done|]. intros x. rewrite fn_insert_case.
    destruct (Z.leb_spec s x), (Z.leb_spec x s); case_decide; try lia; subst; cbn; try done. by replace (t + (x - x)) with t by lia.
  - assert (m t <> 0) as Ht by (specialize (Hnz 0); rewrite Z.add_0_r in Hnz; apply Hnz; lia).
    rewrite (proj2 (ctrue_true _)) by done.
    destruct (IH (<[s := m t]> m) (s + 1) (t + 1) (k - 1)) as (m' & E & Hm'); [|lia|lia|].
    { split; [lia|]. split; [|intros i Hi]; rewrite fn_lookup_insert_ne by lia.
      - rewrite <- Hz. f_equal. lia.
      - replace (t + 1 + i) with (t + (i + 1)) by lia. apply Hnz. lia. }
    exists m'. split; [done|]. intros x. rewrite Hm', !fn_insert_case.
    destruct (Z.leb_spec (s + 1) x), (Z.leb_spec x (s + 1 + (k - 1))), (Z.leb_spec s x), (Z.leb_spec x (s + k));
      cbn; repeat case_decide; try lia; subst; try done; f_equal; lia.
Qed.

(** [strcmp] of two strings is 0 exactly when they are equal. *)
Lemma strcmp_zero fuel m p q k : (forall x, 0 <= m x < 256) -> nul_at m p k -> k < Z.of_nat fuel ->
  exists r, strcmp fuel m p q = Some r /\ (r = 0 <-> forall i, 0 <= i <= k -> m (q + i) = m (p + i)).
Proof.
  intros Hb. revert p q k. induction fuel as [|fuel IH]; intros p q k (Hk & Hz & Hnz) Hf; [lia|]. cbn [strcmp].
  assert (u8 (m p) - u8 (m q) = 0 <-> m p = m q) as Hu.
  { rewrite !u8_small by apply Hb. lia. }
  destruct (decide (m p = 0 \/ m p <> m q)) as [Hs|Hs].
  - assert (ctrue (m p) && (m p =? m q) = false) as ->.
    { destruct Hs as [Hs|Hs]; [by rewrite Hs|]. rewrite (proj2 (Z.eqb_neq _ _)) by done. apply andb_false_r. }
    eexists. split; [done|]. rewrite Hu. split.
    + intros E i Hi. destruct Hs as [Hs|]; [|done]. destruct (decide (k = 0)) as [->|].
      * replace i with 0 by lia. by rewrite !Z.add_0_r.
      * destruct (Hnz 0); [lia|]. by rewrite Z.add_0_r.
    + intros E. specialize (E 0). rewrite !Z.add_0_r in E. rewrite E; [done|lia].
  - assert (m p <> 0 /\ m p = m q) as [Hp Hq] by (split; [|destruct (decide (m p = m q)); [done|]]; tauto).
    rewrite (proj2 (ctrue_true _)), (proj2 (Z.eqb_eq _ _)) by done. cbn [andb].
    assert (k <> 0) as Hk0 by (intros ->; by rewrite Z.add_0_r in Hz).
    destruct (IH (p + 1) (q + 1) (k - 1)) as (r & E & Hr); [|lia|].
    { split; [lia|]. split; [by replace (p + 1 + (k - 1)) with (p + k) by lia|]. intros i Hi.
      replace (p + 1 + i) with (p + (i + 1)) by lia. apply Hnz. lia. }
    exists r. split; [done|]. rewrite Hr. split; intros H i Hi.
    + destruct (decide (i = 0)) as [->|]; [by rewrite !Z.add_0_r|].
      replace (q + i) with (q + 1 + (i - 1)) by lia. replace (p + i) with (p + 1 + (i - 1)) by lia. apply H. lia.
    + replace (q + 1 + i) with (q + (i + 1)) by lia. replace (p + 1 + i) with (p + (i + 1)) by lia. apply H. lia.
Qed.

(** [strchr] finds the first occurrence of the character in the string. *)
Lemma strchr_first fuel m s c k : nul_at m s k -> k < Z.of_nat fuel ->
  exists r, strchr fuel m s c = Some r /\
    match r with
    | Some a => s <= a < s + k /\ m a = c /\ forall x, s <= x < a -> m x <> c
    | None => forall x, s <= x < s + k -> m x <> c
    end.
Proof.
  revert s k. induction fuel as [|fuel IH]; intros s k (Hk & Hz & Hnz) Hf; [lia|]. cbn [strchr].
  destruct (decide (k = 0)) as [->|Hk0].
  - rewrite Z.add_0_r in Hz. rewrite Hz. exists None. split; [done|]. lia.
  - assert (m s <> 0) as Hs by (specialize (Hnz 0); rewrite Z.add_0_r in Hnz; apply Hnz; lia).
    rewrite (proj2 (ctrue_true _)) by done. destruct (Z.eqb_spec (m s) c) as [E|E].
    + exists (Some s). split; [done|]. split; [lia|]. split; [done|]. lia.
    + destruct (IH (s + 1) (k - 1)) as (r & Er & Hr); [|lia|].
      { split; [lia|]. split; [by replace (s + 1 + (k - 1)) with (s + k) by lia|]. intros i Hi.
        replace (s + 1 + i) with (s + (i + 1)) by lia. apply Hnz. lia. }
      exists r. split; [done|]. destruct r as [a|].
      * destruct Hr as (H1 & H2 & H3). split; [lia|]. split; [done|]. intros x Hx.
        destruct (decide (x = s)) as [->|]; [done|apply H3; lia].
      * intros x Hx. destruct (decide (x = s)) as [->|]; [done|apply Hr; lia].
Qed.

(** [gets] leaves a string of less than [max] characters. *)
Lemma gets_nul buf max : 1 <= max -> always (fun buf' => exists k, 0 <= k < max /\ nul_at buf' 0 k) (gets buf max).
Proof.
  intros Hm. unfold gets.
  cut (forall n i buf, 0 <= i -> i + Z.of_nat n < max -> always (fun buf' => exists k, 0 <= k < max /\ nul_at buf' 0 k) (gets_loop n buf i)).
  { intros H. apply H; lia. }
  clear buf. assert (forall buf i, 0 <= i < max -> exists k, 0 <= k < max /\ nul_at (<[i := 0]> buf) 0 k) as Hz.
  { intros buf i Hi. destruct (nul_at_exists (<[i := 0]> buf) 0 i) as (k & Hk & H); [lia|apply fn_lookup_insert|].
    exists k. split; [lia|done]. }
  induction n as [|n IH]; intros i buf Hi Hn; cbn [gets_loop always]; [apply Hz; lia|].
  intros [cc data]. cbn [mbind prog_bind]. destruct (cc <? 1); [apply Hz; lia|]. case_match; [apply Hz; lia|]. apply IH; lia.
Qed.

(** ** Printing *)

Definition puts (fd : Z) (l : list Z) : prog unit := forP l (putc fd).

#[global] Arguments printint_buf : simpl never.
#[global] Arguments printint : simpl never.
#[global] Arguments printptr : simpl never.
#[global] Arguments digits : simpl never.
#[global] Arguments puts : simpl never.

Lemma puts_cons fd c l : puts fd (c :: l) = Call (Write fd [u8 c]) (fun _ => puts fd l).
Proof. done. Qed.

Lemma puts_bind {A} fd l1 l2 (q : prog A) : (puts fd (l1 ++ l2);; q) = (puts fd l1;; puts fd l2;; q).
Proof.
  induction l1 as [|c l1 IH]; [done|]. cbn [app]. rewrite !puts_cons.
  change (Call (Write fd [u8 c]) (fun _ => puts fd (l1 ++ l2);; q) = Call (Write fd [u8 c]) (fun _ => puts fd l1;; puts fd l2;; q)).
  by rewrite IH.
Qed.

Lemma puts_app fd l1 l2 : puts fd (l1 ++ l2) = (puts fd l1;; puts fd l2).
Proof.
  induction l1 as [|c l1 IH]; [done|]. cbn [app]. rewrite !puts_cons.
  change (Call (Write fd [u8 c]) (fun _ => puts fd (l1 ++ l2)) = Call (Write fd [u8 c]) (fun _ => puts fd l1;; puts fd l2)).
  by rewrite IH.
Qed.

Lemma printptr_puts fd x : printptr fd x =
  puts fd (48 :: 120 :: map (fun i => digits (Z.shiftr (u64 (Z.shiftl x (4 * i))) 60)) (seqZ 0 16)).
Proof. done. Qed.

(** The characters that [vprintf] prints, when each directive has its argument. *)
Fixpoint format (fmt : list Z) (state : bool) (ap : list va) : option (list Z) :=
  match fmt with
  | [] => Some []
  | c :: fmt =>
      if negb state then
        if c =? 37 then format fmt true ap else cons c <$> format fmt false ap
      else
        '(l, ap) ← (if c =? 100 then match ap with va_int x :: ap => Some (rev (printint_buf x 10 true), ap) | _ => None end
          else if c =? 108 then match ap with va_long x :: ap => Some (rev (printint_buf (s32 x) 10 false), ap) | _ => None end
          else if c =? 120 then match ap with va_int x :: ap => Some (rev (printint_buf x 16 false), ap) | _ => None end
          else if c =? 112 then
            match ap with
            | va_long x :: ap => Some (48 :: 120 :: map (fun i => digits (Z.shiftr (u64 (Z.shiftl x (4 * i))) 60)) (seqZ 0 16), ap)
            | _ => None
            end
          else if c =? 115 then match ap with va_str s :: ap => Some (default (chars "(null)") s, ap) | _ => None end
          else if c =? 99 then match ap with va_int x :: ap => Some ([x], ap) | _ => None end
          else if c =? 37 then Some ([c], ap)
          else Some ([37; c], ap));
        app l <$> format fmt false ap
  end.

Lemma vprintf_format fd fmt state ap l : format fmt state ap = Some l -> vprintf_loop fd fmt state ap = puts fd l.
Proof.
  revert state ap l. induction fmt as [|c fmt IH]; intros state ap l; cbn; [by intros [= <-]|].
  destruct state; cbn.
  - repeat case_match; try done; subst; cbn; intros Hf; apply fmap_Some in Hf as (l' & Hl & ->); rewrite (IH _ _ _ Hl), ?printptr_puts;
      unfold printint; fold (puts fd); first [by rewrite puts_app|done].
  - case_match; [apply IH|]. intros (l' & Hl & ->)%fmap_Some. by rewrite (IH _ _ _ Hl).
Qed.

(** Printing, in a system where a program may write and writing changes nothing. *)
Section print.
Context {W : Type} (pre : forall R, sys R -> W -> Prop) (step : forall R, sys R -> W -> R -> W -> Prop).
Context (Hpre : forall fd l w, pre _ (Write fd l) w) (Hstep : forall fd l w r w', step _ (Write fd l) w r w' -> w' = w).

Lemma holds_puts (Q : unit -> W -> Prop) fd l w : Q tt w -> holds pre step Q (puts fd l) w.
Proof. intros HQ. induction l as [|c l IH]; [done|]. split; [apply Hpre|]. intros r w' E. apply Hstep in E. subst w'. exact IH. Qed.

Lemma holds_fprintf (Q : unit -> W -> Prop) fd fmt ap l w :
  format (chars fmt) false ap = Some l -> Q tt w -> holds pre step Q (fprintf fd fmt ap) w.
Proof. intros E HQ. unfold fprintf, vprintf. rewrite (vprintf_format _ _ _ _ _ E). by apply holds_puts. Qed.

Lemma holds_printf (Q : unit -> W -> Prop) fmt ap l w :
  format (chars fmt) false ap = Some l -> Q tt w -> holds pre step Q (printf fmt ap) w.
Proof. apply holds_fprintf. Qed.
End print.

(** ** Numbers *)

Definition number (l : list Z) : Z := foldl (fun n c => n * 10 + (c - 48)) 0 l.

Lemma number_snoc l c : number (l ++ [c]) = number l * 10 + (c - 48).
Proof. unfold number. by rewrite foldl_snoc. Qed.

Definition is_digit (c : Z) : Prop := 48 <= c <= 57.

Lemma digits_dec i : 0 <= i < 10 -> digits i = 48 + i.
Proof.
  intros H. assert (i = 0 \/ i = 1 \/ i = 2 \/ i = 3 \/ i = 4 \/ i = 5 \/ i = 6 \/ i = 7 \/ i = 8 \/ i = 9) as Hi by lia.
  by repeat (destruct Hi as [->|Hi]; [done|]); subst.
Qed.

Lemma printint_number fuel x : 0 <= x < 10 ^ Z.of_nat (S fuel) ->
  number (rev (printint_loop fuel x 10)) = x /\ Forall is_digit (printint_loop fuel x 10).
Proof.
  revert x. induction fuel as [|fuel IH]; intros x Hx; cbn [printint_loop];
    rewrite digits_dec by (apply Z.mod_pos_bound; lia).
  - rewrite Z.mod_small by lia. cbn. unfold number, is_digit. cbn. split; [lia|]. repeat constructor; lia.
  - pose proof (Z.mod_pos_bound x 10). pose proof (Z.div_mod x 10).
    assert (0 <= x / 10 < 10 ^ Z.of_nat (S fuel)) as Hd.
    { split; [apply Z.div_pos; lia|]. apply Z.div_lt_upper_bound; [lia|].
      rewrite <- Z.pow_succ_r by lia. rewrite <- Nat2Z.inj_succ. lia. }
    destruct (Z.eqb_spec (x / 10) 0) as [E|_]; cbn [negb].
    + cbn. unfold number, is_digit. cbn. split; [lia|]. repeat constructor; lia.
    + destruct (IH _ Hd) as [IH1 IH2]. cbn [rev]. rewrite number_snoc, IH1. split; [lia|].
      constructor; [unfold is_digit; lia|done].
Qed.

Lemma printint_length fuel x base k : 1 < base -> 0 <= x < base ^ Z.of_nat (S k) -> (length (printint_loop fuel x base) <= S k)%nat.
Proof.
  intros Hb. revert x k. induction fuel as [|fuel IH]; intros x k Hx; cbn; [lia|].
  destruct (Z.eqb_spec (x / base) 0) as [E|E]; cbn; [lia|].
  destruct k as [|k]; [exfalso; apply E, Z.div_small; lia|].
  specialize (IH (x / base) k). cbn [length] in *. apply le_n_S. apply IH.
  split; [apply Z.div_pos; lia|]. apply Z.div_lt_upper_bound; [lia|]. rewrite <- Z.pow_succ_r by lia.
  rewrite <- Nat2Z.inj_succ. lia.
Qed.

Lemma number_s32 l a b : s32 a = s32 b ->
  s32 (foldl (fun n c => n * 10 + (c - 48)) a l) = s32 (foldl (fun n c => n * 10 + (c - 48)) b l).
Proof.
  revert a b. induction l as [|c l IH]; intros a b E; cbn; [done|]. apply IH, s32_eq.
  apply s32_eq in E as [k ->]. exists (k * 10). lia.
Qed.

(** [atoi] reads the digits in front of the first other character. *)
Lemma atoi_loop_number l fuel m s n :
  Forall is_digit l -> (forall i c, l !! i = Some c -> m (s + Z.of_nat i) = c) -> ~ is_digit (m (s + Z.of_nat (length l))) ->
  (length l < fuel)%nat -> s32 n = n ->
  atoi_loop fuel m s n = Some (s32 (foldl (fun n c => n * 10 + (c - 48)) n l)).
Proof.
  revert fuel s n. induction l as [|c l IH]; intros [|fuel] s n Hd Hm Hend Hf Hn; cbn [length] in *; try lia; cbn [atoi_loop foldl].
  - rewrite Z.add_0_r in Hend. unfold is_digit in Hend.
    destruct (Z.leb_spec 48 (m s)), (Z.leb_spec (m s) 57); cbn; try (exfalso; lia); by rewrite Hn.
  - inversion Hd as [|? ? Hc Hl]; subst. pose proof (Hm O c eq_refl) as Hs. rewrite Z.add_0_r in Hs.
    rewrite Hs. unfold is_digit in Hc. rewrite (proj2 (Z.leb_le 48 c)), (proj2 (Z.leb_le c 57)) by lia. cbn [andb].
    rewrite (IH fuel (s + 1) (s32 (n * 10 + c - 48))).
    + f_equal. apply number_s32. rewrite s32_idem. f_equal. lia.
    + done.
    + intros i x Hi. rewrite <- (Hm (S i) x Hi). f_equal. lia.
    + by replace (s + 1 + Z.of_nat (length l)) with (s + Z.of_nat (S (length l))) by lia.
    + lia.
    + apply s32_idem.
Qed.

Lemma atoi_number l : Forall is_digit l -> atoi (S (length l)) (bytes_of l) 0 = Some (s32 (number l)).
Proof.
  intros Hd. apply atoi_loop_number; [done| | |lia|done].
  - intros i c Hi. by apply bytes_of_lookup.
  - rewrite bytes_of_beyond by lia. unfold is_digit. lia.
Qed.

(** C35: what [printf] prints for %d fits in its buffer.  A number that is not negative
    is printed as its decimal digits, and [atoi] reads it back.  A negative number is
    printed as a minus sign and the digits of its absolute value, which [atoi] reads as
    the absolute value (in 32 bits); but [atoi] knows no sign and reads the whole string
    as 0. *)
Theorem printf_atoi_roundtrip fd n (Hn : - 2 ^ 31 <= n < 2 ^ 31) :
  exists s, vprintf fd "%d" [va_int n] = puts fd s /\ (1 <= length s <= 11)%nat /\
    if n <? 0 then
      exists t, s = 45 :: t /\ Forall is_digit t /\ atoi (S (length t)) (bytes_of t) 0 = Some (s32 (- n)) /\
        atoi (S (length s)) (bytes_of s) 0 = Some 0
    else Forall is_digit s /\ atoi (S (length s)) (bytes_of s) 0 = Some n.
Proof.
  exists (rev (printint_buf n 10 true)). split; [|unfold printint_buf; cbn [andb]].
  { unfold vprintf. rewrite (vprintf_format _ _ _ _ (rev (printint_buf n 10 true) ++ [])); [by rewrite app_nil_r|done]. }
  destruct (Z.ltb_spec n 0) as [Hneg|Hpos].
  - rewrite (u32_small (- n)) by lia. destruct (printint_number 32 (- n)) as [E1 E2]; [lia|].
    pose proof (printint_length 32 (- n) 10 9). rewrite rev_app_distr. cbn [rev app].
    split; [cbn [length]; rewrite rev_length; lia|]. exists (rev (printint_loop 32 (- n) 10)). split; [done|].
    apply Forall_rev in E2. split; [done|]. split; [by rewrite atoi_number, E1|]. reflexivity.
  - rewrite (u32_small n) by lia. destruct (printint_number 32 n) as [E1 E2]; [lia|].
    pose proof (printint_length 32 n 10 9). rewrite app_nil_r, rev_length.
    split; [split; [cbn; lia|lia]|]. apply Forall_rev in E2. split; [done|]. rewrite <- (rev_length (printint_loop 32 n 10)).
    rewrite atoi_number, E1 by done. by rewrite s32_small.
Qed.

Lemma printf_atoi_roundtrip_witness :
  (exists s, vprintf 1 "%d" [va_int 307] = puts 1 s /\ atoi (S (length s)) (bytes_of s) 0 = Some 307) /\
  exists t, vprintf 1 "%d" [va_int (-307)] = puts 1 (45 :: t) /\ atoi (S (length t)) (bytes_of t) 0 = Some 307 /\
    atoi (S (S (length t))) (bytes_of (45 :: t)) 0 = Some 0.
Proof.
  split.
  - destruct (printf_atoi_roundtrip 1 307) as (s & E & _ & _ & H); [lia|]. by exists s.
  - destruct (printf_atoi_roundtrip 1 (-307)) as (s & E & _ & t & -> & _ & H1 & H2); [lia|]. by exists t.
Defined.
