(* ===== verification/Utils.v ===== *)
(** * The small user programs (user/cat.c, wc.c, echo.c, ls.c, init.c, kill.c, ln.c,
      mkdir.c, rm.c, zombie.c)

    [argv] is the list of the arguments, the name of the program first, so that [argc] is
    its length.  A loop that ends when a call says so carries fuel. *)
From S2P Require Export Ulib.

(** ** user/cat.c *)

Fixpoint cat (fuel : nat) (fd : Z) : prog unit :=
  match fuel with
  | O => Nofuel
  | S fuel =>
      '(n, data) ← call (Read fd 512);
      if 0 <? n then
        w ← call (Write 1 (take (Z.to_nat n) data));
        if negb (w =? n) then fprintf 2 (line "cat: write error") [];; exit 1
        else cat fuel fd
      else if n <? 0 then fprintf 2 (line "cat: read error") [];; exit 1
      else Ret tt
  end.

Definition cat_main (fuel : nat) (argv : list (list Z)) : prog unit :=
  if Z.of_nat (length argv) <=? 1 then cat fuel 0;; exit 0 else
  forP (tail argv) (fun arg =>
    fd ← call (Open arg 0);
    if fd <? 0 then fprintf 2 (line "cat: cannot open %s") [va_str (Some arg)];; exit 1
    else cat fuel fd;; call (Close fd);; Ret tt);;
  exit 0.

(** ** user/wc.c *)

(** [strchr(" \r\t\n\v", c)]. *)
Definition is_blank (c : Z) : bool :=
  match strchr 6 (bytes_of [32; 13; 9; 10; 11]) 0 c with Some (Some _) => true | _ => false end.

(** The counters of [wc]: lines, words, characters, and whether in a word. *)
Record counts := Counts { wc_l : Z; wc_w : Z; wc_c : Z; inword : bool }.

Definition count_char (n : counts) (b : Z) : counts :=
  let c := s32 (n.(wc_c) + 1) in
  let l := if b =? 10 then s32 (n.(wc_l) + 1) else n.(wc_l) in
  if is_blank b then Counts l n.(wc_w) c false
  else if negb n.(inword) then Counts l (s32 (n.(wc_w) + 1)) c true
  else Counts l n.(wc_w) c true.

Fixpoint wc_loop (fuel : nat) (fd : Z) (k : counts) : prog (Z * counts) :=
  match fuel with
  | O => Nofuel
  | S fuel =>
      '(n, buf) ← call (Read fd 512);
      if 0 <? n then wc_loop fuel fd (foldl count_char k (take (Z.to_nat n) buf))
      else Ret (n, k)
  end.

Definition wc (fuel : nat) (fd : Z) (name : list Z) : prog unit :=
  '(n, k) ← wc_loop fuel fd (Counts 0 0 0 false);
  if n <? 0 then printf (line "wc: read error") [];; exit 1
  else printf (line "%d %d %d %s") [va_int k.(wc_l); va_int k.(wc_w); va_int k.(wc_c); va_str (Some name)].

Definition wc_main (fuel : nat) (argv : list (list Z)) : prog unit :=
  if Z.of_nat (length argv) <=? 1 then wc fuel 0 [];; exit 0 else
  forP (tail argv) (fun arg =>
    fd ← call (Open arg 0);
    if fd <? 0 then printf (line "wc: cannot open %s") [va_str (Some arg)];; exit 1
    else wc fuel fd arg;; call (Close fd);; Ret tt);;
  exit 0.

(** ** user/echo.c *)

Fixpoint echo_loop (args : list (list Z)) : prog unit :=
  match args with
  | [] => Ret tt
  | arg :: args =>
      call (Write 1 arg);;
      call (Write 1 (match args with [] => [10] | _ => [32] end));;
      echo_loop args
  end.

Definition echo_main (argv : list (list Z)) : prog unit := echo_loop (tail argv);; exit 0.

(** ** user/kill.c, ln.c, mkdir.c, rm.c, zombie.c *)

Definition kill_main (argv : list (list Z)) : prog unit :=
  if Z.of_nat (length argv) <? 2 then fprintf 2 (line "usage: kill pid...") [];; exit 1 else
  forP (tail argv) (fun arg =>
    match atoi (S (length arg)) (bytes_of arg) 0 with
    | Some pid => call (Kill pid);; Ret tt
    | None => Nofuel
    end);;
  exit 0.

Definition ln_main (argv : list (list Z)) : prog unit :=
  match argv with
  | [_; old; new] =>
      r ← call (Link old new);
      (if r <? 0 then fprintf 2 (line "link %s %s: failed") [va_str (Some old); va_str (Some new)] else Ret tt);;
      exit 0
  | _ => fprintf 2 (line "Usage: ln old new") [];; exit 1
  end.

Fixpoint mkdir_loop (args : list (list Z)) : prog unit :=
  match args with
  | [] => Ret tt
  | arg :: args =>
      r ← call (Mkdir arg);
      if r <? 0 then fprintf 2 (line "mkdir: %s failed to create") [va_str (Some arg)]
      else mkdir_loop args
  end.

Definition mkdir_main (argv : list (list Z)) : prog unit :=
  if Z.of_nat (length argv) <? 2 then fprintf 2 (line "Usage: mkdir files...") [];; exit 1 else
  mkdir_loop (tail argv);; exit 0.

Fixpoint rm_loop (args : list (list Z)) : prog unit :=
  match args with
  | [] => Ret tt
  | arg :: args =>
      r ← call (Unlink arg);
      if r <? 0 then fprintf 2 (line "rm: %s failed to delete") [va_str (Some arg)]
      else rm_loop args
  end.

Definition rm_main (argv : list (list Z)) : prog unit :=
  if Z.of_nat (length argv) <? 2 then fprintf 2 (line "Usage: rm files...") [];; exit 1 else
  rm_loop (tail argv);; exit 0.

Definition zombie_main : prog unit :=
  pid ← call Fork;
  (if 0 <? pid then call (Sleep 5);; Ret tt else Ret tt);;
  exit 0.

(** ** user/init.c *)

Definition O_RDWR : Z := 0x002.
Definition CONSOLE : Z := 1.

(** The inner loop: until the shell exits. *)
Fixpoint init_wait (fuel : nat) (pid : Z) : prog unit :=
  match fuel with
  | O => Nofuel
  | S fuel =>
      wpid ← call Wait;
      if wpid =? pid then Ret tt
      else if wpid <? 0 then printf (line "init: wait returned an error") [];; exit 1
      else init_wait fuel pid
  end.

(** The outer loop does not end; [fuel] is the number of shells. *)
Fixpoint init_loop (fuel waits : nat) : prog unit :=
  match fuel with
  | O => Nofuel
  | S fuel =>
      printf (line "init: starting sh") [];;
      pid ← call Fork;
      if pid <? 0 then printf (line "init: fork failed") [];; exit 1
      else if pid =? 0 then
        call (Exec (chars "sh") [chars "sh"]);;
        printf (line "init: exec sh failed") [];;
        exit 1
      else init_wait waits pid;; init_loop fuel waits
  end.

Definition init_main (fuel waits : nat) : prog unit :=
  fd ← call (Open (chars "console") O_RDWR);
  (if fd <? 0 then call (Mknod (chars "console") CONSOLE 0);; call (Open (chars "console") O_RDWR);; Ret tt else Ret tt);;
  call (Dup 0);;
  call (Dup 0);;
  init_loop fuel waits.

(** ** user/ls.c *)

Definition DIRSIZ : nat := 14.

(** The characters after the last slash. *)
Fixpoint after_slash (path : list Z) : list Z :=
  match path with
  | [] => []
  | c :: rest => if bool_decide (47 ∈ rest) then after_slash rest else if c =? 47 then rest else path
  end.

Definition fmtname (path : list Z) : list Z :=
  let p := after_slash path in
  if bool_decide (DIRSIZ <= length p)%nat then p else p ++ replicate (DIRSIZ - length p) 32.

(** The string in an array of characters: up to the first NUL. *)
Fixpoint up_to_nul (l : list Z) : list Z :=
  match l with [] => [] | c :: l => if ctrue c then c :: up_to_nul l else [] end.

(** The loop over the entries of a directory, of 16 bytes each: the inode number and
    the name. *)
Fixpoint ls_dir (fuel : nat) (fd : Z) (path : list Z) : prog unit :=
  match fuel with
  | O => Nofuel
  | S fuel =>
      '(n, de) ← call (Read fd 16);
      if negb (n =? 16) then Ret tt
      else if load16 (bytes_of de) 0 =? 0 then ls_dir fuel fd path
      else
        let buf := path ++ [47] ++ up_to_nul (take DIRSIZ (drop 2 de)) in
        '(r, st) ← stat buf;
        if r <? 0 then printf (line "ls: cannot stat %s") [va_str (Some buf)];; ls_dir fuel fd path
        else
          printf (line "%s %d %d %d")
            [va_str (Some (fmtname buf)); va_int st.(st_type); va_int (s32 st.(st_ino)); va_int (s32 st.(st_size))];;
          ls_dir fuel fd path
  end.

Definition ls (fuel : nat) (path : list Z) : prog unit :=
  fd ← call (Open path 0);
  if fd <? 0 then fprintf 2 (line "ls: cannot open %s") [va_str (Some path)] else
  '(r, st) ← call (Fstat fd);
  if r <? 0 then
    fprintf 2 (line "ls: cannot stat %s") [va_str (Some path)];;
    call (Close fd);;
    Ret tt
  else
    (if (st.(st_type) =? 3) || (st.(st_type) =? 2) then
       printf (line "%s %d %d %l")
         [va_str (Some (fmtname path)); va_int st.(st_type); va_int (s32 st.(st_ino)); va_long st.(st_size)]
     else if st.(st_type) =? 1 then
       if 512 <? Z.of_nat (length path) + 1 + Z.of_nat DIRSIZ + 1 then printf (line "ls: path too long") []
       else ls_dir fuel fd path
     else Ret tt);;
    call (Close fd);;
    Ret tt.

Definition ls_main (fuel : nat) (argv : list (list Z)) : prog unit :=
  if Z.of_nat (length argv) <? 2 then ls fuel [46];; exit 0 else
  forP (tail argv) (ls fuel);; exit 0.

(** ** Shared by the test programs *)

Definition O_RDONLY : Z := 0x000.
Definition O_WRONLY : Z := 0x001.
Definition O_CREATE : Z := 0x200.
Definition O_TRUNC : Z := 0x400.
Definition CREATE_RDWR : Z := Z.lor O_CREATE O_RDWR.

(** Memory with the bytes [l] stored at [a]. *)
Definition put_bytes (m : bytes) (a : Z) (l : list Z) : bytes :=
  fun x => if (a <=? x) && (x <? a + Z.of_nat (length l)) then l !!! Z.to_nat (x - a) else m x.

Definition open_close (path : string) (mode : Z) : prog unit :=
  fd ← call (Open (chars path) mode);
  call (Close fd);;
  Ret tt.

(** [wait(&st)] for a variable that is not initialised: its value afterwards. *)
Definition wait_status : prog (Z * Z) :=
  '(pid, st) ← call Wait_status;
  match st with Some st => Ret (pid, st) | None => Undefined end.

(** ** What [wc] counts *)

Definition blanks : list Z := [32; 13; 9; 10; 11].

Lemma is_blank_spec c : is_blank c = true <-> c ∈ blanks.
Proof.
  unfold is_blank. fold blanks. destruct (strchr_first 6 (bytes_of blanks) 0 c 5) as (r & -> & Hr).
  { split; [lia|]. split; [done|]. intros i Hi H0. pose proof (bytes_of_elem blanks 0) as [_ H]. 
    assert (0 ∈ blanks) as H1 by (apply H; exists (0 + i); cbn; split; [lia|done]).
    unfold blanks in H1. rewrite !elem_of_cons, elem_of_nil in H1. lia. }
  { lia. }
  rewrite bytes_of_elem. change (Z.of_nat (length blanks)) with 5. destruct r as [a|].
  - split; [|done]. intros _. exists a. split; [lia|tauto].
  - split; [done|]. intros (x & Hx & E). destruct (Hr x); [lia|done].
Qed.

(** A word starts at [i]: a character that is not blank, at the beginning or after a blank. *)
Definition word_start (input : list Z) (i : nat) : Prop :=
  (exists c, input !! i = Some c /\ c ∉ blanks) /\ (i = 0%nat \/ exists c, input !! (i - 1)%nat = Some c /\ c ∈ blanks).

#[global] Instance found_dec (input : list Z) i (P : Z -> Prop) `{forall c, Decision (P c)} :
  Decision (exists c, input !! i = Some c /\ P c).
Proof.
  destruct (input !! i) as [c|]; [|right; by intros (c & ? & _)].
  destruct (decide (P c)); [left; by exists c|right]. by intros (c' & [= <-] & ?).
Defined.

#[global] Instance word_start_dec input i : Decision (word_start input i).
Proof. unfold word_start. apply _. Defined.

Definition lines (input : list Z) : nat := length (filter (fun c => c = 10) input).
Definition words (input : list Z) : nat := length (filter (word_start input) (seq 0 (length input))).

Lemma words_snoc input c : words (input ++ [c]) =
  (words input + (if decide (word_start (input ++ [c]) (length input)) then 1 else 0))%nat.
Proof.
  unfold words. rewrite length_app. cbn [length]. rewrite Nat.add_1_r, seq_S, filter_app, length_app, Nat.add_0_l. f_equal.
  - f_equal. apply filter_ext_in. intros i Hi%elem_of_seq. unfold word_start.
    rewrite !lookup_app_l by lia. done.
  - rewrite filter_cons, filter_nil. by case_decide.
Qed.

Lemma lines_snoc input c : lines (input ++ [c]) = (lines input + (if decide (c = 10%Z) then 1 else 0))%nat.
Proof. unfold lines. rewrite filter_app, length_app, filter_cons, filter_nil. by case_decide. Qed.

Lemma word_start_snoc input c : word_start (input ++ [c]) (length input) <->
  is_blank c = false /\ match last input with Some b => is_blank b = true | None => True end.
Proof.
  assert (forall b, is_blank b = false <-> b ∉ blanks) as Hb.
  { intros b. rewrite <- is_blank_spec. by destruct (is_blank b). }
  unfold word_start. rewrite lookup_app_r, Nat.sub_diag, Hb by lia. cbn.
  assert ((exists x, Some c = Some x /\ x ∉ blanks) <-> c ∉ blanks) as ->.
  { split; [by intros (x & [= <-] & ?)|by exists c]. }
  destruct input as [|b input _] using rev_ind; [cbn; tauto|].
  rewrite last_snoc, is_blank_spec, length_app, Nat.add_sub.
  rewrite <- app_assoc, lookup_app_r, Nat.sub_diag by lia. cbn.
  assert ((exists x, Some b = Some x /\ x ∈ blanks) <-> b ∈ blanks) as ->.
  { split; [by intros (x & [= <-] & ?)|by exists b]. }
  split; [|tauto]. intros [H1 [H2|H2]]; [lia|done].
Qed.

(** The counters after the input: its lines, words and characters. *)
Lemma count_input input : Z.of_nat (length input) < 2 ^ 31 ->
  foldl count_char (Counts 0 0 0 false) input =
  Counts (Z.of_nat (lines input)) (Z.of_nat (words input)) (Z.of_nat (length input))
    (match last input with Some c => negb (is_blank c) | None => false end).
Proof.
  induction input as [|c input IH] using rev_ind; intros Hl; [done|].
  rewrite length_app in Hl. cbn in Hl. rewrite foldl_snoc, IH, last_snoc, lines_snoc, words_snoc, length_app by lia. clear IH.
  assert ((lines input <= length input)%nat /\ (words input <= length input)%nat) as [H1 H2].
  { split; [apply length_filter|]. unfold words. etrans; [apply length_filter|]. by rewrite length_seq. }
  pose proof (word_start_snoc input c) as Hw. unfold count_char. cbn [wc_l wc_w wc_c inword].
  rewrite !s32_small by lia. destruct (decide (word_start (input ++ [c]) (length input))) as [Hd|Hd]; rewrite Hw in Hd; cbn [length].
  - destruct Hd as [Hc Hp]. rewrite Hc. destruct (Z.eqb_spec c 10) as [->|Hn]; [done|]. rewrite decide_False by done.
    destruct (last input) as [b|]; [rewrite Hp|]; cbn [negb]; f_equal; lia.
  - destruct (is_blank c) eqn:Hc; cbn [negb].
    + destruct (Z.eqb_spec c 10), (decide (c = 10)); try done; f_equal; lia.
    + destruct (Z.eqb_spec c 10) as [->|Hn]; [done|]. rewrite decide_False by done.
      destruct (last input) as [b|]; [|by destruct Hd]. destruct (is_blank b); [by destruct Hd|]. cbn [negb]. f_equal; lia.
Qed.

(** ** The environment of a program that reads files and prints

    [files] gives the contents of a file, [fds] what is left to read of an open file
    descriptor.  A read returns some of the bytes that are left, at least one when there
    are any: how many is up to [count], by the number of the call. *)
Record world := World { files : list Z -> option (list Z); fds : Z -> option (list Z); calls : nat }.

Inductive uevent := Out (fd : Z) (data : list Z) | Exited (status : Z).

Definition NOFILE : nat := 16.

(** The lowest free descriptor. *)
Definition free_fd (f : Z -> option (list Z)) : option Z :=
  head (filter (fun fd => f fd = None) (seqZ 0 (Z.of_nat NOFILE))).

Section world.
Context (count : nat -> nat -> nat).
Hypothesis count_ok : forall i n, (1 <= n)%nat -> (1 <= count i n <= n)%nat.

Definition handle (R : Type) (e : sys R) (w : world) : ans world uevent R :=
  match e in sys R return ans world uevent R with
  | Exit status => Stop (Exited status)
  | Write fd data => Emit (Out fd data) (Z.of_nat (length data)) w
  | Read fd n =>
      match w.(fds) fd with
      | None => Go (-1, []) w
      | Some input =>
          let k := match Nat.min (Z.to_nat n) (length input) with O => O | S m => count w.(calls) (S m) end in
          Go (Z.of_nat k, take k input) (World w.(files) (<[fd := Some (drop k input)]> w.(fds)) (S w.(calls)))
      end
  | Open path _ =>
      match w.(files) path, free_fd w.(fds) with
      | Some data, Some fd => Go fd (World w.(files) (<[fd := Some data]> w.(fds)) (S w.(calls)))
      | _, _ => Go (-1) w
      end
  | Close fd =>
      match w.(fds) fd with
      | None => Go (-1) w
      | Some _ => Go 0 (World w.(files) (<[fd := None]> w.(fds)) (S w.(calls)))
      end
  | Pipe => Go (-1, (0, 0)) w
  | Wait_status => Go (-1, None) w
  | Store _ _ _ => Go tt w
  | Fstat _ => Go (-1, Stat 0 0 0 0 0) w
  | _ => Go (-1) w
  end.

Notation runs p w := (run handle p w).

Lemma run_puts fd l w : Forall (fun c => 0 <= c < 256) l ->
  runs (puts fd l) w = emits (map (fun c => Out fd [c]) l) (Done tt w).
Proof.
  induction l as [|c l IH]; intros Hl; [done|]. inversion Hl as [|? ? Hc Hl']; subst. rewrite puts_cons.
  change (Node (Out fd [u8 c]) (runs (puts fd l) w) = emits (map (fun c => Out fd [c]) (c :: l)) (Done tt w)).
  by rewrite IH, u8_small.
Qed.

(** What the events send to a descriptor. *)
Definition sent (fd : Z) (l : list uevent) : list Z :=
  concat (map (fun e => match e with Out fd' d => if fd' =? fd then d else [] | Exited _ => [] end) l).

Lemma sent_app fd l1 l2 : sent fd (l1 ++ l2) = sent fd l1 ++ sent fd l2.
Proof. unfold sent. by rewrite map_app, concat_app. Qed.

Lemma sent_chars fd fd' l : sent fd (map (fun c => Out fd' [c]) l) = if fd' =? fd then l else [].
Proof.
  unfold sent. induction l as [|c l IH]; cbn; [by destruct (fd' =? fd)|]. rewrite IH. by destruct (fd' =? fd).
Qed.

Definition same_but (fd : Z) (c : option (list Z)) (w w' : world) : Prop :=
  w'.(files) = w.(files) /\ forall x, w'.(fds) x = if x =? fd then c else w.(fds) x.

(** One [read] of an open descriptor. *)
Lemma read_some fd n w input : 0 <= n -> w.(fds) fd = Some input ->
  exists k w', handle _ (Read fd n) w = Go (Z.of_nat k, take k input) w' /\ (k <= length input)%nat /\ Z.of_nat k <= n /\
    (k = 0%nat -> input = [] \/ n = 0) /\ same_but fd (Some (drop k input)) w w'.
Proof.
  intros Hn Hfd. cbn. rewrite Hfd.
  set (k := match Nat.min (Z.to_nat n) (length input) with O => O | S m => count (calls w) (S m) end).
  exists k. eexists. split; [done|].
  assert ((k <= length input)%nat /\ Z.of_nat k <= n /\ (k = 0%nat -> input = [] \/ n = 0)) as (H1 & H2 & H3).
  { unfold k. destruct (Nat.min (Z.to_nat n) (length input)) as [|m] eqn:E.
    - split; [lia|]. split; [lia|]. intros _. destruct input; [by left|cbn in E; right; lia].
    - pose proof (count_ok (calls w) (S m) ltac:(lia)). split; [lia|]. split; lia. }
  do 3 (split; [done|]). split; [done|]. intros x. cbn. rewrite fn_insert_case.
  destruct (Z.eqb_spec x fd); case_decide; congruence.
Qed.

Lemma read_open fd n w input : 0 < n -> w.(fds) fd = Some input ->
  exists k w', handle _ (Read fd n) w = Go (Z.of_nat k, take k input) w' /\ (k <= length input)%nat /\
    (k = 0%nat <-> input = []) /\ same_but fd (Some (drop k input)) w w'.
Proof.
  intros Hn Hfd. destruct (read_some fd n w input) as (k & w' & E & H1 & H2 & H3 & S); [lia|done|]. exists k, w'.
  do 2 (split; [done|]). split; [|done]. split; [intros ->; destruct (H3 eq_refl); [done|lia]|].
  intros ->. cbn in H1. lia.
Qed.

Lemma same_but_trans fd c c' w w' w'' : same_but fd c w w' -> same_but fd c' w' w'' -> same_but fd c' w w''.
Proof.
  intros [F1 D1] [F2 D2]. split; [congruence|]. intros x. rewrite D2, D1. by destruct (x =? fd).
Qed.

(** [cat] copies what is left of its input to the output. *)
Lemma cat_run fuel fd w input : w.(fds) fd = Some input -> (length input < fuel)%nat ->
  exists evs w', runs (cat fuel fd) w = emits evs (Done tt w') /\ sent 1 evs = input /\ sent 2 evs = [] /\ same_but fd (Some []) w w'.
Proof.
  revert w input. induction fuel as [|fuel IH]; intros w input Hfd Hf; [lia|].
  destruct (read_open fd 512 w input) as (k & w1 & E & Hk & Hk0 & S1); [lia|done|].
  cbn [cat]. unfold call. cbn [mbind prog_bind run]. rewrite E. destruct (Z.ltb_spec 0 (Z.of_nat k)) as [H0|H0].
  - cbn [mbind prog_bind run handle]. rewrite Nat2Z.id, take_take, Nat.min_id, length_take, Nat.min_l, Z.eqb_refl by lia.
    cbn [negb]. destruct (IH w1 (drop k input)) as (evs & w2 & E2 & H1 & H2 & S2).
    { rewrite (proj2 S1). by rewrite Z.eqb_refl. }
    { rewrite length_drop. lia. }
    exists (Out 1 (take k input) :: evs), w2. rewrite E2. split; [done|].
    unfold sent in *. cbn. rewrite H1, H2. split; [apply take_drop|]. split; [done|]. by eapply same_but_trans.
  - assert (k = 0%nat) as -> by lia. assert (input = []) as -> by (by apply Hk0). cbn.
    exists [], w1. split; [done|]. split; [done|]. split; [done|]. done.
Qed.

(** [wc] counts all of its input, however it is cut into reads. *)
Lemma wc_loop_run fuel fd k w input : w.(fds) fd = Some input -> (length input < fuel)%nat ->
  exists w', runs (wc_loop fuel fd k) w = Done (0, foldl count_char k input) w' /\ same_but fd (Some []) w w'.
Proof.
  revert w k input. induction fuel as [|fuel IH]; intros w k input Hfd Hf; [lia|].
  destruct (read_open fd 512 w input) as (n & w1 & E & Hn & Hn0 & S1); [lia|done|].
  cbn [wc_loop]. unfold call. cbn [mbind prog_bind run]. rewrite E. destruct (Z.ltb_spec 0 (Z.of_nat n)) as [H0|H0].
  - rewrite Nat2Z.id, take_take, Nat.min_id.
    destruct (IH w1 (foldl count_char k (take n input)) (drop n input)) as (w2 & E2 & S2).
    { by rewrite (proj2 S1), Z.eqb_refl. }
    { rewrite length_drop. lia. }
    exists w2. rewrite E2, <- foldl_app, take_drop. split; [done|]. by eapply same_but_trans.
  - assert (n = 0%nat) as -> by lia. assert (input = []) as -> by (by apply Hn0). exists w1. done.
Qed.

(** The decimal digits of a number. *)
Definition decimal (n : Z) : list Z := rev (printint_buf n 10 true).

Definition wc_line (name data : list Z) : list Z :=
  decimal (Z.of_nat (lines data)) ++ [32] ++ decimal (Z.of_nat (words data)) ++ [32] ++
  decimal (Z.of_nat (length data)) ++ [32] ++ name ++ [10].

Lemma wc_format k name :
  format (chars (line "%d %d %d %s")) false [va_int k.(wc_l); va_int k.(wc_w); va_int k.(wc_c); va_str (Some name)] =
  Some (decimal k.(wc_l) ++ [32] ++ decimal k.(wc_w) ++ [32] ++ decimal k.(wc_c) ++ [32] ++ name ++ [10]).
Proof. done. Qed.

Lemma printint_char fuel x base : 1 < base <= 16 -> 0 <= x -> Forall (fun c => 0 <= c < 256) (printint_loop fuel x base).
Proof.
  intros Hb. revert x.
  assert (forall i, 0 <= digits i < 256) as Hd.
  { intros i. unfold digits. destruct (nth_in_or_default (Z.to_nat i) (chars "0123456789ABCDEF") 0) as [H| ->]; [|lia].
    assert (Forall (fun c => 0 <= c < 256) (chars "0123456789ABCDEF")) as HF by (cbn; repeat constructor; lia).
    by eapply List.Forall_forall in HF. }
  induction fuel as [|fuel IH]; intros x Hx; cbn; repeat constructor; try apply Hd.
  case_match; [|constructor]. apply IH, Z.div_pos; lia.
Qed.

Lemma decimal_char n : Forall (fun c => 0 <= c < 256) (decimal n).
Proof.
  unfold decimal, printint_buf. apply Forall_rev, Forall_app. split; [|case_match; repeat constructor; lia].
  apply printint_char; [lia|]. case_match; apply u32_bound.
Qed.

Definition char_list (l : list Z) : Prop := Forall (fun c => 0 <= c < 256) l.

Lemma wc_run fuel fd w name input : w.(fds) fd = Some input -> (length input < fuel)%nat ->
  Z.of_nat (length input) < 2 ^ 31 -> char_list name ->
  exists evs w', runs (wc fuel fd name) w = emits evs (Done tt w') /\ sent 1 evs = wc_line name input /\ sent 2 evs = [] /\
    same_but fd (Some []) w w'.
Proof.
  intros Hfd Hf Hl Hname. destruct (wc_loop_run fuel fd (Counts 0 0 0 false) w input Hfd Hf) as (w' & E & S).
  unfold wc. rewrite run_bind, E. cbn [then_]. change (0 <? 0) with false. cbn match. rewrite count_input by done.
  unfold printf, vprintf. rewrite (vprintf_format _ _ _ _ _ (wc_format _ _)). cbn [wc_l wc_w wc_c].
  fold (wc_line name input). assert (char_list (wc_line name input)) as Hc.
  { unfold wc_line, char_list. rewrite !Forall_app.
    repeat split; try apply decimal_char; try done; repeat constructor; lia. }
  exists (map (fun c => Out 1 [c]) (wc_line name input)), w'. split; [by apply run_puts|by rewrite !sent_chars].
Qed.

(** *** A program that treats each of the files it is given *)

Lemma free_fd_ext f g : (forall x, f x = g x) -> free_fd f = free_fd g.
Proof. intros E. unfold free_fd. f_equal. apply filter_ext_in. intros x _. by rewrite E. Qed.

Lemma free_fd_free f fd : free_fd f = Some fd -> f fd = None /\ 0 <= fd < Z.of_nat NOFILE.
Proof.
  unfold free_fd. intros H. apply head_Some_elem_of in H. apply list_elem_of_filter in H as [H1 H2%elem_of_seqZ]. split; [done|lia].
Qed.

(** The outputs, on descriptors 1 and 2, and the exit status: [out] for each file up to
    the first that cannot be opened, for which [msg] goes to descriptor [efd]. *)
Fixpoint files_spec (fs : list Z -> option (list Z)) (out : list Z -> list Z -> list Z) (efd : Z) (msg : list Z -> list Z)
    (args : list (list Z)) : list Z * list Z * Z :=
  match args with
  | [] => ([], [], 0)
  | arg :: args =>
      match fs arg with
      | None => (if efd =? 1 then msg arg else [], if efd =? 2 then msg arg else [], 1)
      | Some data => let '(o1, o2, st) := files_spec fs out efd msg args in (out arg data ++ o1, o2, st)
      end
  end.

Section each.
Context (body : Z -> list Z -> prog unit) (out : list Z -> list Z -> list Z).
Context (report : list Z -> prog unit) (efd : Z) (msg : list Z -> list Z) (good : list Z -> Prop).
Context (fs : list Z -> option (list Z)).
Hypothesis body_ok : forall w fd arg data, w.(fds) fd = Some data -> fs arg = Some data -> good arg ->
  exists evs w' rest, runs (body fd arg) w = emits evs (Done tt w') /\ sent 1 evs = out arg data /\ sent 2 evs = [] /\
    same_but fd (Some rest) w w'.
Hypothesis report_ok : forall arg, good arg -> report arg = puts efd (msg arg) /\ char_list (msg arg).

Definition each (arg : list Z) : prog unit :=
  fd ← call (Open arg 0);
  if fd <? 0 then report arg;; exit 1 else body fd arg;; call (Close fd);; Ret tt.

Lemma each_present w fd arg data : free_fd w.(fds) = Some fd -> w.(files) = fs -> fs arg = Some data -> good arg ->
  exists evs w', runs (each arg) w = emits evs (Done tt w') /\ sent 1 evs = out arg data /\ sent 2 evs = [] /\
    w'.(files) = w.(files) /\ forall x, w'.(fds) x = w.(fds) x.
Proof.
  intros Hfree Hfs Ha Hg. destruct (free_fd_free _ _ Hfree) as [Hn Hr].
  unfold each. rewrite run_bind. unfold call at 1. cbn [run handle]. rewrite Hfs, Ha, Hfree. cbn [then_].
  rewrite (proj2 (Z.ltb_ge fd 0)) by lia.
  set (w1 := World fs (<[fd := Some data]> (fds w)) (S (calls w))).
  destruct (body_ok w1 fd arg data) as (evs & w2 & rest & E & H1 & H2 & F & D); [apply fn_lookup_insert|done|done|].
  rewrite run_bind, E, then_emits. cbn [then_ run mbind prog_bind call handle].
  assert (fds w2 fd = Some rest) as -> by (by rewrite D, Z.eqb_refl).
  eexists evs, _. split; [done|]. split; [done|]. split; [done|]. split; [cbn; by rewrite F|]. intros x. cbn.
  rewrite fn_insert_case. case_decide as Hx; [by subst|]. rewrite D. destruct (Z.eqb_spec x fd); [by subst|].
  cbn. by rewrite fn_lookup_insert_ne.
Qed.

Lemma each_absent {A} w arg (q : prog A) : w.(files) = fs -> fs arg = None -> good arg ->
  runs (each arg;; q) w = emits (map (fun c => Out efd [c]) (msg arg)) (Leaf (Exited 1)).
Proof.
  intros Hfs Ha Hg. rewrite run_bind. unfold each. rewrite run_bind. unfold call at 1. cbn [run handle]. rewrite Hfs, Ha.
  cbn [then_]. change (-1 <? 0) with true. cbn match. destruct (report_ok arg Hg) as [-> Hc].
  rewrite run_bind, (run_puts _ _ _ Hc), then_emits. cbn [then_]. by rewrite then_emits.
Qed.

Lemma each_file args w fd : free_fd w.(fds) = Some fd -> w.(files) = fs -> Forall good args ->
  exists evs st, runs (forP args each;; exit 0 : prog unit) w = emits evs (Leaf (Exited st)) /\
    (sent 1 evs, sent 2 evs, st) = files_spec fs out efd msg args.
Proof.
  revert w. induction args as [|arg args IH]; intros w Hfree Hfs Hg; [by exists [], 0|].
  apply Forall_cons in Hg as [Ha Hg']. cbn [files_spec].
  change (forP (arg :: args) each) with (each arg;; forP args each). destruct (fs arg) as [data|] eqn:E.
  - destruct (each_present w fd arg data Hfree Hfs E Ha) as (evs & w' & E1 & H1 & H2 & F & D).
    destruct (IH w') as (evs' & st & E2 & H3); [by rewrite (free_fd_ext _ (fds w))|congruence|done|].
    exists (evs ++ evs'), st. split.
    + rewrite !run_bind, E1, then_emits. cbn [then_]. by rewrite then_emits, <- run_bind, E2, emits_app.
    + rewrite <- H3. by rewrite !sent_app, H1, H2.
  - exists (map (fun c => Out efd [c]) (msg arg)), 1. split; [|by rewrite !sent_chars].
    rewrite run_bind. rewrite (each_absent w arg (forP args each)) by done. by rewrite then_emits.
Qed.
End each.

Lemma chars_range s : char_list (chars s).
Proof.
  unfold chars, char_list. apply Forall_forall. intros c (a & -> & _)%list_elem_of_fmap.
  pose proof (Ascii.nat_ascii_bounded a). lia.
Qed.
End world.

Definition cat_msg (arg : list Z) : list Z := chars "cat: cannot open " ++ arg ++ [10].
Definition wc_msg (arg : list Z) : list Z := chars "wc: cannot open " ++ arg ++ [10].

(** The [cat] of the files in order, each with its contents, up to the first that
    does not exist: for that one there is a message on descriptor 2 and status 1.
    Reads may return any number of bytes. *)
Theorem cat_correct count fuel argv w fd
  (count_ok : forall i n, (1 <= n)%nat -> (1 <= count i n <= n)%nat)
  (Hfd : free_fd w.(fds) = Some fd) (Hargc : (2 <= length argv)%nat) (Hargs : Forall char_list (tail argv))
  (Hfuel : forall name data, w.(files) name = Some data -> (length data < fuel)%nat) :
  exists evs st, run (handle count) (cat_main fuel argv) w = emits evs (Leaf (Exited st)) /\
    (sent 1 evs, sent 2 evs, st) = files_spec w.(files) (fun _ data => data) 2 cat_msg (tail argv).
Proof.
  unfold cat_main. rewrite (proj2 (Z.leb_gt _ 1)) by lia. cbv iota.
  apply (each_file count (fun fd _ => cat fuel fd) (fun _ data => data)
    (fun arg => fprintf 2 (line "cat: cannot open %s") [va_str (Some arg)]) 2 cat_msg char_list w.(files)) with fd; [| |done..].
  - intros w0 fd0 arg data H1 H2 _. destruct (cat_run count count_ok fuel fd0 w0 data) as (evs & w' & H); [done|by eapply Hfuel|].
    by exists evs, w', [].
  - intros arg Ha. split; [by apply vprintf_format|]. unfold cat_msg, char_list. rewrite !Forall_app.
    split; [apply chars_range|]. split; [done|]. repeat constructor; lia.
Qed.

(** [wc] prints for each file the numbers of its lines, words and bytes and its
    name, whatever the numbers of bytes that the reads return: a word is counted where a
    character that is not blank follows a blank or begins the file, also when a read
    ends within it.  The first file that cannot be opened ends the program with a
    message and status 1. *)
Theorem wc_correct count fuel argv w fd
  (count_ok : forall i n, (1 <= n)%nat -> (1 <= count i n <= n)%nat)
  (Hfd : free_fd w.(fds) = Some fd) (Hargc : (2 <= length argv)%nat) (Hargs : Forall char_list (tail argv))
  (Hfuel : forall name data, w.(files) name = Some data -> (length data < fuel)%nat /\ Z.of_nat (length data) < 2 ^ 31) :
  exists evs st, run (handle count) (wc_main fuel argv) w = emits evs (Leaf (Exited st)) /\
    (sent 1 evs, sent 2 evs, st) = files_spec w.(files) wc_line 1 wc_msg (tail argv).
Proof.
  unfold wc_main. rewrite (proj2 (Z.leb_gt _ 1)) by lia. cbv iota.
  apply (each_file count (fun fd arg => wc fuel fd arg) wc_line
    (fun arg => printf (line "wc: cannot open %s") [va_str (Some arg)]) 1 wc_msg char_list w.(files)) with fd; [| |done..].
  - intros w0 fd0 arg data H1 H2 Ha. destruct (Hfuel arg data H2).
    destruct (wc_run count count_ok fuel fd0 w0 arg data) as (evs & w' & Hw); [done..|]. by exists evs, w', [].
  - intros arg Ha. split; [by apply vprintf_format|]. unfold wc_msg, char_list. rewrite !Forall_app.
    split; [apply chars_range|]. split; [done|]. repeat constructor; lia.
Qed.

(** Two files and a name that is not a file; reads of at most three bytes. *)
Definition demo_files (name : list Z) : option (list Z) :=
  if bool_decide (name = [97]) then Some [104; 105; 32; 121; 111; 10] else if bool_decide (name = [98]) then Some [] else None.
Definition demo_world : world := World demo_files (fun fd => if bool_decide (0 <= fd < 3) then Some [] else None) 0.
Definition demo_count (_ n : nat) : nat := Nat.min n 3.

Lemma demo_files_short name data : demo_files name = Some data -> (length data < 10)%nat.
Proof. unfold demo_files. repeat case_bool_decide; intros [= <-]; cbn; lia. Qed.

Lemma cat_correct_witness : exists evs, run (handle demo_count) (cat_main 10 [[99]; [97]; [98]]) demo_world = emits evs (Leaf (Exited 0)) /\
  sent 1 evs = [104; 105; 32; 121; 111; 10].
Proof.
  destruct (cat_correct demo_count 10 [[99]; [97]; [98]] demo_world 3) as (evs & st & E & H).
  - intros i n Hn. unfold demo_count. lia.
  - reflexivity.
  - cbn. lia.
  - repeat constructor; lia.
  - exact demo_files_short.
  - exists evs. vm_compute in H. injection H as H1 H2 ->. split; [exact E|exact H1].
Defined.

Lemma wc_correct_witness : exists evs, run (handle demo_count) (wc_main 10 [[119]; [97]; [99]]) demo_world = emits evs (Leaf (Exited 1)) /\
  sent 1 evs = chars "1 2 6 a" ++ [10] ++ chars "wc: cannot open c" ++ [10].
Proof.
  destruct (wc_correct demo_count 10 [[119]; [97]; [99]] demo_world 3) as (evs & st & E & H).
  - intros i n Hn. unfold demo_count. lia.
  - reflexivity.
  - cbn. lia.
  - repeat constructor; lia.
  - intros name data Hd. pose proof (demo_files_short _ _ Hd). lia.
  - exists evs. vm_compute in H. vm_compute. injection H as H1 H2 ->. split; [exact E|exact H1].
Defined.
