(* ===== verification/Grind.v ===== *)
(** * The stress test (user/grind.c)

    The generator of random numbers and the endless loop of random system calls.  The
    theorems say that the generator is the one of Park and Miller with its full period,
    and that a round of the loop keeps no descriptor and no child behind. *)
From Stdlib Require Import Znumtheory Zpow_facts.
From stdpp Require Import gmap.
From S2P Require Export Utils.

(** ** Random numbers *)

(** A [long]. *)
Definition s64 (x : Z) : Z := (x + 2 ^ 63) mod 2 ^ 64 - 2 ^ 63.

Lemma s64_small x : - 2 ^ 63 <= x < 2 ^ 63 -> s64 x = x.
Proof. intros. unfold s64. rewrite Z.mod_small; lia. Qed.

(** [do_rand]: the number that it returns and the new value of the context. *)
Definition do_rand (ctx : Z) : Z * Z :=
  let x := s64 (u64 (ctx mod 0x7ffffffe + 1)) in
  let hi := Z.quot x 127773 in
  let lo := Z.rem x 127773 in
  let x := s64 (16807 * lo - 2836 * hi) in
  let x := if x <? 0 then s64 (x + 0x7fffffff) else x in
  let x := s64 (x - 1) in
  (s32 x, u64 x).

(** ** The loop *)

Definition quote : string := String (Ascii.ascii_of_nat 34) EmptyString.

(** A message and the end of the process. *)
Definition die {A} (s : string) (status : Z) : prog A := printf (line s) [];; exit status.
Definition die2 {A} (s : string) (status : Z) : prog A := fprintf 2 (line s) [];; exit status.

(** The variables of [go]: [rand_next], [fd], the static [buf], and [iters]. *)
Record gvars := Gvars { rand_next : Z; g_fd : Z; g_buf : bytes; iters : Z }.

Definition rand (s : gvars) : Z * gvars :=
  let '(r, c) := do_rand s.(rand_next) in (r, Gvars c s.(g_fd) s.(g_buf) s.(iters)).

Definition set_fd (s : gvars) (fd : Z) : gvars := Gvars s.(rand_next) fd s.(g_buf) s.(iters).

(** A child that runs [child], and is waited for. *)
Definition fork_wait (child : prog unit) : prog unit :=
  pid ← call Fork;
  if pid =? 0 then child;; exit 0
  else if pid <? 0 then die "grind: fork failed" 1
  else call Wait;; Ret tt.

(** Action 17. *)
Definition kill_child : prog unit :=
  pid ← call Fork;
  if pid =? 0 then open_close "a" (CREATE_RDWR);; exit 0
  else if pid <? 0 then die "grind: fork failed" 1
  else
    r ← call (Chdir (chars "../grindir/.."));
    if negb (r =? 0) then die "grind: chdir failed" 1
    else call (Kill pid);; call Wait;; Ret tt.

(** Action 19. *)
Definition pipe_child : prog unit :=
  '(r, (fd0, fd1)) ← call Pipe;
  if r <? 0 then die "grind: pipe failed" 1 else
  pid ← call Fork;
  if pid =? 0 then
    call Fork;;
    call Fork;;
    n ← call (Write fd1 (chars "x"));
    (if negb (n =? 1) then printf (line "grind: pipe write failed") [] else Ret tt);;
    '(n, _) ← call (Read fd0 1);
    (if negb (n =? 1) then printf (line "grind: pipe read failed") [] else Ret tt);;
    exit 0
  else if pid <? 0 then die "grind: fork failed" 1
  else call (Close fd0);; call (Close fd1);; call Wait;; Ret tt.

(** Action 21. *)
Definition create_c : prog unit :=
  call (Unlink (chars "c"));;
  fd1 ← call (Open (chars "c") (CREATE_RDWR));
  if fd1 <? 0 then die "grind: create c failed" 1 else
  n ← call (Write fd1 (chars "x"));
  if negb (n =? 1) then die "grind: write c failed" 1 else
  '(r, st) ← call (Fstat fd1);
  if negb (r =? 0) then die "grind: fstat failed" 1 else
  if negb (st.(st_size) =? 1) then printf (line "grind: fstat reports wrong size %d") [va_int (s32 st.(st_size))];; exit 1 else
  if 200 <? st.(st_ino) then printf (line "grind: fstat reports crazy i-number %d") [va_int (s32 st.(st_ino))];; exit 1 else
  call (Close fd1);;
  call (Unlink (chars "c"));;
  Ret tt.

(** The two children of action 22. *)
Definition echo_child (aa bb : Z * Z) : prog unit :=
  call (Close bb.1);;
  call (Close bb.2);;
  call (Close aa.1);;
  call (Close 1);;
  d ← call (Dup aa.2);
  if negb (d =? 1) then die2 "grind: dup failed" 1 else
  call (Close aa.2);;
  call (Exec (chars "grindir/../echo") [chars "echo"; chars "hi"]);;
  die2 "grind: echo: not found" 2.

Definition cat_child (aa bb : Z * Z) : prog unit :=
  call (Close aa.2);;
  call (Close bb.1);;
  call (Close 0);;
  d ← call (Dup aa.1);
  if negb (d =? 0) then die2 "grind: dup failed" 4 else
  call (Close aa.1);;
  call (Close 1);;
  d ← call (Dup bb.2);
  if negb (d =? 1) then die2 "grind: dup failed" 5 else
  call (Close bb.2);;
  call (Exec (chars "/cat") [chars "cat"]);;
  die2 "grind: cat: not found" 6.

(** Action 22: echo hi | cat. *)
Definition pipeline : prog unit :=
  '(r, aa) ← call Pipe;
  if r <? 0 then die2 "grind: pipe failed" 1 else
  '(r, bb) ← call Pipe;
  if r <? 0 then die2 "grind: pipe failed" 1 else
  pid1 ← call Fork;
  if pid1 =? 0 then echo_child aa bb
  else if pid1 <? 0 then die2 "grind: fork failed" 3 else
  pid2 ← call Fork;
  if pid2 =? 0 then cat_child aa bb
  else if pid2 <? 0 then die2 "grind: fork failed" 7 else
  call (Close aa.1);;
  call (Close aa.2);;
  call (Close bb.2);;
  '(_, d0) ← call (Read bb.1 1);
  '(_, d1) ← call (Read bb.1 1);
  '(_, d2) ← call (Read bb.1 1);
  let buf := put_bytes (put_bytes (put_bytes (fun _ => 0) 0 (take 1 d0)) 1 (take 1 d1)) 2 (take 1 d2) in
  call (Close bb.1);;
  '(_, st1) ← wait_status;
  '(_, st2) ← wait_status;
  let s := cstr 4 buf 0 in
  if negb (st1 =? 0) || negb (st2 =? 0) || negb (bool_decide (s = chars "hi" ++ [10])) then
    printf (line ("grind: exec pipeline failed %d %d " +:+ quote +:+ "%s" +:+ quote)) [va_int st1; va_int st2; va_str (Some s)];;
    exit 1
  else Ret tt.

(** The action [what] of a round. *)
Definition action (break0 : Z) (what : Z) (s : gvars) : prog gvars :=
  if what =? 1 then open_close "grindir/../a" CREATE_RDWR;; Ret s
  else if what =? 2 then open_close "grindir/../grindir/../b" CREATE_RDWR;; Ret s
  else if what =? 3 then call (Unlink (chars "grindir/../a"));; Ret s
  else if what =? 4 then
    r ← call (Chdir (chars "grindir"));
    if negb (r =? 0) then die "grind: chdir grindir failed" 1 else
    call (Unlink (chars "../b"));;
    call (Chdir (chars "/"));;
    Ret s
  else if what =? 5 then
    call (Close s.(g_fd));;
    fd ← call (Open (chars "/grindir/../a") CREATE_RDWR);
    Ret (set_fd s fd)
  else if what =? 6 then
    call (Close s.(g_fd));;
    fd ← call (Open (chars "/./grindir/./../b") CREATE_RDWR);
    Ret (set_fd s fd)
  else if what =? 7 then call (Write s.(g_fd) (read_bytes 999 s.(g_buf) 0));; Ret s
  else if what =? 8 then
    '(_, data) ← call (Read s.(g_fd) 999);
    Ret (Gvars s.(rand_next) s.(g_fd) (put_bytes s.(g_buf) 0 (take 999 data)) s.(iters))
  else if what =? 9 then
    call (Mkdir (chars "grindir/../a"));;
    open_close "a/../a/./a" CREATE_RDWR;;
    call (Unlink (chars "a/a"));;
    Ret s
  else if what =? 10 then
    call (Mkdir (chars "/../b"));;
    open_close "grindir/../b/b" CREATE_RDWR;;
    call (Unlink (chars "b/b"));;
    Ret s
  else if what =? 11 then
    call (Unlink (chars "b"));;
    call (Link (chars "../grindir/./../a") (chars "../b"));;
    Ret s
  else if what =? 12 then
    call (Unlink (chars "../grindir/../a"));;
    call (Link (chars ".././b") (chars "/grindir/../a"));;
    Ret s
  else if what =? 13 then fork_wait (Ret tt);; Ret s
  else if what =? 14 then fork_wait (call Fork;; call Fork;; Ret tt);; Ret s
  else if what =? 15 then call (Sbrk 6011);; Ret s
  else if what =? 16 then
    b ← call (Sbrk 0);
    (if break0 <? b then b ← call (Sbrk 0); call (Sbrk (s32 (- (b - break0))));; Ret tt else Ret tt);;
    Ret s
  else if what =? 17 then kill_child;; Ret s
  else if what =? 18 then fork_wait (pid ← call Getpid; call (Kill pid);; Ret tt);; Ret s
  else if what =? 19 then pipe_child;; Ret s
  else if what =? 20 then
    fork_wait (
      call (Unlink (chars "a"));;
      call (Mkdir (chars "a"));;
      call (Chdir (chars "a"));;
      call (Unlink (chars "../a"));;
      call (Open (chars "x") CREATE_RDWR);;
      call (Unlink (chars "x"));;
      Ret tt);;
    Ret s
  else if what =? 21 then create_c;; Ret s
  else if what =? 22 then pipeline;; Ret s
  else Ret s.

(** A round of the loop of [go]. *)
Definition go_round (which_child : bool) (break0 : Z) (s : gvars) : prog gvars :=
  let s := Gvars s.(rand_next) s.(g_fd) s.(g_buf) (u64 (s.(iters) + 1)) in
  (if s.(iters) mod 500 =? 0 then call (Write 1 (if which_child then chars "B" else chars "A"));; Ret tt else Ret tt);;
  let '(r, s) := rand s in
  action break0 (Z.rem r 23) s.

(** The loop does not end; [fuel] is the number of rounds. *)
Fixpoint go_loop (fuel : nat) (which_child : bool) (break0 : Z) (s : gvars) : prog unit :=
  match fuel with
  | O => Nofuel
  | S fuel => s ← go_round which_child break0 s; go_loop fuel which_child break0 s
  end.

Definition go (fuel : nat) (which_child : bool) (rand_next : Z) : prog unit :=
  break0 ← call (Sbrk 0);
  call (Mkdir (chars "grindir"));;
  r ← call (Chdir (chars "grindir"));
  if negb (r =? 0) then die "grind: chdir grindir failed" 1 else
  call (Chdir (chars "/"));;
  go_loop fuel which_child break0 (Gvars rand_next (-1) (fun _ => 0) 0).

Definition iter (fuel : nat) (rand_next : Z) : prog unit :=
  call (Unlink (chars "a"));;
  call (Unlink (chars "b"));;
  pid1 ← call Fork;
  if pid1 <? 0 then die "grind: fork failed" 1
  else if pid1 =? 0 then go fuel false (Z.lxor rand_next 31);; exit 0 else
  pid2 ← call Fork;
  if pid2 <? 0 then die "grind: fork failed" 1
  else if pid2 =? 0 then go fuel true (Z.lxor rand_next 7177);; exit 0 else
  '(_, st1) ← call Wait_status;
  (if negb (default (-1) st1 =? 0) then call (Kill pid1);; call (Kill pid2);; Ret tt else Ret tt);;
  call Wait_status;;
  exit 0.

Fixpoint grind_loop (fuel : nat) (rand_next : Z) : prog unit :=
  match fuel with
  | O => Nofuel
  | S fuel' =>
      pid ← call Fork;
      if pid =? 0 then iter fuel rand_next;; exit 0 else
      (if 0 <? pid then call Wait;; Ret tt else Ret tt);;
      call (Sleep 20);;
      grind_loop fuel' (u64 (rand_next + 1))
  end.

Definition grind_main (fuel : nat) : prog unit := grind_loop fuel 1.

(** ** The generator of Park and Miller *)

Definition M31 : Z := 2 ^ 31 - 1.

Lemma do_rand_value ctx (x := ctx mod 0x7ffffffe + 1) :
  do_rand ctx = (16807 * x mod M31 - 1, 16807 * x mod M31 - 1) /\ 1 <= 16807 * x mod M31 < M31.
Proof.
  assert (1 <= x < M31) as Hx by (unfold x, M31; pose proof (Z.mod_pos_bound ctx 0x7ffffffe); lia).
  unfold do_rand. fold x. rewrite (u64_small x) by (unfold M31 in *; lia). rewrite (s64_small x) by (unfold M31 in *; lia).
  rewrite Z.quot_div_nonneg, Z.rem_mod_nonneg by lia. set (hi := x / 127773). set (lo := x mod 127773).
  assert (x = 127773 * hi + lo) as Ex by (apply Z.div_mod; lia). pose proof (Z.mod_pos_bound x 127773 ltac:(lia)) as Hlo. fold lo in Hlo.
  assert (0 <= hi <= 16807) as Hhi by (unfold M31 in *; lia).
  rewrite (s64_small (16807 * lo - 2836 * hi)) by lia. set (y := if 16807 * lo - 2836 * hi <? 0 then s64 (16807 * lo - 2836 * hi + 0x7fffffff) else 16807 * lo - 2836 * hi).
  assert (y = 16807 * x mod M31 /\ 1 <= y < M31) as [Ey Hy].
  { assert (exists q, 16807 * x = M31 * q + y /\ 0 <= y < M31) as (q & Eq & Hq).
    { unfold y, M31 in *. destruct (Z.ltb_spec (16807 * lo - 2836 * hi) 0) as [Hn|Hn].
      - exists (hi - 1). rewrite s64_small by lia. lia.
      - exists hi. lia. }
    assert (y <> 0) as Hy0.
    { intros E. rewrite E in Eq. assert (M31 | x) as Hd by (apply (Z.gauss _ 16807); [exists q; lia|done]). apply Z.divide_pos_le in Hd; lia. }
    split; [|lia]. by apply (Z.mod_unique_pos _ _ q). }
  rewrite <- Ey. rewrite (s64_small (y - 1)), s32_small, u64_small by (unfold M31 in *; lia). done.
Qed.

(** ** Primality and the order of 7^5 *)

(** No number from [d] on, [fuel] of them, divides [n]. *)
Fixpoint trial (fuel : nat) (n d : Z) : bool :=
  match fuel with O => true | S fuel => negb (n mod d =? 0) && trial fuel n (d + 1) end.

Lemma trial_spec fuel n d : 0 < d -> trial fuel n d = true -> forall e, d <= e < d + Z.of_nat fuel -> ~ (e | n).
Proof.
  revert d. induction fuel as [|fuel IH]; intros d Hd Ht e He; [lia|]. cbn in Ht. apply andb_true_iff in Ht as [H1 H2].
  destruct (decide (e = d)) as [->|N].
  - intros Hm%Z.mod_divide; [|lia]. by rewrite Hm in H1.
  - apply (IH (d + 1)); [lia|done|lia].
Qed.

Lemma trial_prime n fuel : 1 < n -> n < (2 + Z.of_nat fuel) * (2 + Z.of_nat fuel) -> trial fuel n 2 = true -> prime n.
Proof.
  intros Hn Hf Ht. pose proof (trial_spec fuel n 2 ltac:(lia) Ht) as Hno. apply prime_alt. split; [done|]. intros d Hd [q Eq].
  destruct (Z.lt_ge_cases d (2 + Z.of_nat fuel)) as [H1|H1].
  - apply (Hno d); [lia|by exists q].
  - apply (Hno q); [nia|exists d; lia].
Qed.

Lemma M31_prime : prime M31.
Proof. apply (trial_prime _ (Z.to_nat 46341)); [done|done|]. vm_compute. reflexivity. Qed.

(** A divisor of a product of primes that is not 1 is divided by one of them. *)
Lemma divisor_prime qs k : Forall prime qs -> (k | foldr Z.mul 1 qs) -> (forall q, q ∈ qs -> ~ (q | k)) -> (k | 1).
Proof.
  induction qs as [|q qs IH]; intros Hp Hk Hn; [done|]. apply Forall_cons in Hp as [Hq Hp]. apply IH; [done| |].
  - eapply Gauss; [exact Hk|]. apply rel_prime_sym, prime_rel_prime; [done|]. apply Hn. by left.
  - intros r Hr. apply Hn. by right.
Qed.

Definition factors : list Z := [2; 3; 3; 7; 11; 31; 151; 331].

Lemma factors_prime : Forall prime factors.
Proof.
  unfold factors. repeat (constructor; [first [apply (trial_prime _ 0); (lia || reflexivity)|apply (trial_prime _ 4); (lia || reflexivity)|apply (trial_prime _ 17); (lia || reflexivity)]|]).
  constructor.
Qed.

Definition unity (n : Z) : Prop := 16807 ^ n mod M31 = 1.

Lemma unity_test n : unity n <-> Zpow_mod 16807 n M31 = 1.
Proof. unfold unity. by rewrite Zpow_mod_correct. Qed.

Lemma unity_mul n j : 0 <= n -> 0 <= j -> unity n -> unity (n * j).
Proof. unfold unity. intros Hn Hj E. rewrite Z.pow_mul_r, Zpower_mod, E, Z.pow_1_l by done. done. Qed.

Lemma unity_mod m n : 0 < m -> 0 <= n -> unity m -> unity n -> unity (n mod m).
Proof.
  unfold unity. intros Hm Hn E1 E2. rewrite (Z.div_mod n m) in E2 by lia. pose proof (Z.div_pos n m Hn Hm). pose proof (Z.mod_pos_bound n m Hm).
  rewrite Z.pow_add_r, Z.pow_mul_r, Z.mul_mod in E2 by (done || nia). rewrite Zpower_mod, E1, Z.pow_1_l in E2 by done.
  change (1 mod M31) with 1 in E2. by rewrite Z.mul_1_l, Z.mod_mod in E2.
Qed.

Lemma unity_gcd m n : 0 <= m -> 0 <= n -> unity m -> unity n -> unity (Z.gcd m n).
Proof.
  intros Hm. revert n. induction (Z.lt_wf 0 m) as [m _ IH]. intros n Hn H1 H2. destruct (decide (m = 0)) as [->|H0].
  - rewrite Z.gcd_0_l, Z.abs_eq by lia. done.
  - pose proof (Z.mod_pos_bound n m ltac:(lia)). replace (Z.gcd m n) with (Z.gcd (n mod m) m) by (by apply Z.gcd_mod).
    apply IH; [lia|lia|lia|apply unity_mod; [lia|done..]|done].
Qed.

Lemma unity_iff n : 0 <= n -> unity n <-> (M31 - 1 | n).
Proof.
  assert (unity (M31 - 1)) as Hone. { apply unity_test. vm_compute. reflexivity. }
  intros Hn. split.
  - intros Hu. pose proof (unity_gcd n (M31 - 1) Hn ltac:(done) Hu Hone) as Hg. set (g := Z.gcd n (M31 - 1)) in *.
    destruct (Z.gcd_divide_r n (M31 - 1)) as [k Ek]. fold g in Ek. assert (0 <= g) as Hg0 by apply Z.gcd_nonneg. unfold M31 in Ek.
    assert (k | 1) as Hk.
    { apply (divisor_prime factors).
      - apply factors_prime.
      - exists g. cbn. lia.
      - intros q Hq [j Ej]. assert (unity ((M31 - 1) / q)) as Hc.
        { assert (0 < q) as Hq0. { unfold factors in Hq. rewrite !elem_of_cons, elem_of_nil in Hq. lia. }
          replace ((M31 - 1) / q) with (g * j) by (apply Z.div_unique_exact; [lia|unfold M31; rewrite Ek, Ej; ring]).
          apply unity_mul; [exact Hg0|nia|exact Hg]. }
        apply unity_test in Hc. unfold factors in Hq. rewrite !elem_of_cons, elem_of_nil in Hq.
        decompose [or] Hq; try contradiction; subst q; vm_compute in Hc; discriminate Hc. }
    assert (k = 1) as -> by (apply Z.divide_1_r_nonneg; [unfold M31 in *; nia|done]).
    replace (M31 - 1) with g by (unfold M31; lia). apply Z.gcd_divide_l.
  - intros [j ->]. rewrite Z.mul_comm. apply unity_mul; [unfold M31; lia|unfold M31 in *; lia|exact Hone].
Qed.

(** [rand] called [n] times. *)
Definition rands (n : nat) (ctx : Z) : Z := Nat.iter n (fun c => (do_rand c).2) ctx.

Lemma rands_value n s : 0 <= s < M31 - 1 -> rands n s = 16807 ^ Z.of_nat n * (s + 1) mod M31 - 1 /\ 0 <= rands n s < M31 - 1.
Proof.
  intros Hs. induction n as [|n [IH Hb]].
  - change (rands 0 s) with s. change (16807 ^ Z.of_nat 0) with 1. rewrite Z.mul_1_l, Z.mod_small by lia. lia.
  - change (rands (S n) s) with (do_rand (rands n s)).2. destruct (do_rand_value (rands n s)) as [-> Hv]. cbn [snd].
    rewrite (Z.mod_small (rands n s) 0x7ffffffe) in * by exact Hb. split; [|lia]. rewrite IH.
    replace (16807 ^ Z.of_nat n * (s + 1) mod M31 - 1 + 1) with (16807 ^ Z.of_nat n * (s + 1) mod M31) by lia.
    rewrite Z.mul_mod_idemp_r by done. rewrite Nat2Z.inj_succ, Z.pow_succ_r by lia. f_equal. f_equal. lia.
Qed.

(** C38: [do_rand] computes the multiplicative congruential generator with the factor 7^5
    and the modulus 2^31-1, whatever the 64 bits of the context: the division into [hi]
    and [lo] avoids overflow and changes nothing.  Called again and again, it stays in
    its range and comes back to where it started exactly after every 2^31-2 calls: the
    period is the full one. *)
Theorem rand_period s n : 0 <= s < 0x7ffffffe ->
  (forall ctx, let x := ctx mod 0x7ffffffe + 1 in do_rand ctx = (16807 * x mod (2 ^ 31 - 1) - 1, 16807 * x mod (2 ^ 31 - 1) - 1)) /\
  0 <= rands n s < 0x7ffffffe /\ (rands n s = s <-> (0x7ffffffe | Z.of_nat n)).
Proof.
  intros Hs. split; [intros ctx; apply do_rand_value|]. destruct (rands_value n s Hs) as [E Hb]. split; [exact Hb|].
  change 0x7ffffffe with (M31 - 1). rewrite <- unity_iff by lia. rewrite E. unfold unity. split.
  - intros H. assert (M31 | (16807 ^ Z.of_nat n - 1)) as [j Ej].
    { apply (Gauss _ (s + 1)).
      - apply Z.mod_divide; [done|]. replace ((s + 1) * (16807 ^ Z.of_nat n - 1)) with (16807 ^ Z.of_nat n * (s + 1) - (s + 1)) by ring.
        rewrite Zminus_mod. replace (16807 ^ Z.of_nat n * (s + 1) mod M31) with (s + 1) by lia. rewrite (Z.mod_small (s + 1)) by (unfold M31; lia). by rewrite Z.sub_diag.
      - apply prime_rel_prime; [apply M31_prime|]. intros Hd%Z.divide_pos_le; unfold M31 in *; lia. }
    replace (16807 ^ Z.of_nat n) with (1 + j * M31) by lia. by rewrite Z.mod_add.
  - intros H. rewrite Z.mul_mod, H, Z.mul_1_l, Z.mod_mod by done. rewrite Z.mod_small by (unfold M31; lia). lia.
Qed.

Lemma rand_period_witness : rands 1000 1 <> 1.
Proof.
  intros H. destruct (rand_period 1 1000 ltac:(lia)) as (_ & _ & [Hd _]). destruct (Hd H) as [k Hk]. lia.
Defined.

(** ** What a round leaves behind

    The world of a process: its open descriptors and the number of its children.  The
    calls may fail and return any data; a descriptor that is opened was not open; [wait]
    fails exactly when there are no children.  A child starts with the descriptors of
    its parent and without children. *)
Record uproc := Uproc { opened : gset Z; kids : nat }.

Definition fresh_fd (w : uproc) (fd : Z) (w' : uproc) : Prop :=
  (fd = -1 /\ w' = w) \/ (0 <= fd /\ fd ∉ w.(opened) /\ w' = Uproc ({[fd]} ∪ w.(opened)) w.(kids)).

Definition unix (R : Type) (e : sys R) (w : uproc) : R -> uproc -> Prop :=
  match e in sys R return R -> uproc -> Prop with
  | Fork => fun pid w' =>
      (0 < pid /\ w' = Uproc w.(opened) (S w.(kids))) \/ (pid = 0 /\ w' = Uproc w.(opened) 0) \/ (pid = -1 /\ w' = w)
  | Exit _ => fun _ _ => False
  | Wait => fun pid w' =>
      match w.(kids) with O => pid = -1 /\ w' = w | S n => 0 < pid /\ w' = Uproc w.(opened) n end
  | Wait_status => fun r w' =>
      match w.(kids) with O => r = (-1, None) /\ w' = w | S n => 0 < r.1 /\ is_Some r.2 /\ w' = Uproc w.(opened) n end
  | Pipe => fun r w' =>
      (r.1 = -1 /\ w' = w) \/
      (r.1 = 0 /\ exists w1, fresh_fd w r.2.1 w1 /\ fresh_fd w1 r.2.2 w' /\ 0 <= r.2.1 /\ 0 <= r.2.2)
  | Open _ _ => fresh_fd w
  | Dup _ => fresh_fd w
  | Close fd => fun _ w' => w' = Uproc (w.(opened) ∖ {[fd]}) w.(kids)
  | _ => fun _ w' => w' = w
  end.

Definition any_call (R : Type) (e : sys R) (w : uproc) : Prop := True.

Notation safe := (holds any_call unix (fun _ _ => True)).
Notation quiet p w := (holds any_call unix (fun _ w' => w' = w) p w).

Definition fds_ok (w : uproc) : Prop := forall fd, fd ∈ w.(opened) -> 0 <= fd.

Lemma unix_pre : forall fd l w, any_call Z (Write fd l) w.
Proof. done. Qed.
Lemma unix_write : forall fd l w r w', unix Z (Write fd l) w r w' -> w' = w.
Proof. done. Qed.

Lemma holds_die {A} (Q : A -> uproc -> Prop) s n w l : format (chars (line s)) false [] = Some l -> holds any_call unix Q (die s n) w.
Proof. intros E. apply holds_bind. by eapply holds_printf; [apply unix_pre|apply unix_write|exact E|apply holds_exit]. Qed.

Lemma holds_die2 {A} (Q : A -> uproc -> Prop) s n w l : format (chars (line s)) false [] = Some l -> holds any_call unix Q (die2 s n) w.
Proof. intros E. apply holds_bind. by eapply holds_fprintf; [apply unix_pre|apply unix_write|exact E|apply holds_exit]. Qed.

(** A step of a program; the answers of the call by cases. *)
Ltac hcall := let r := fresh "r" in let w' := fresh "w" in let Hs := fresh "Hs" in
  apply holds_call; [exact I|]; intros r w' Hs; cbn in Hs; unfold fresh_fd in Hs; cbn in Hs;
  repeat match type of Hs with _ \/ _ => destruct Hs as [Hs|Hs] end; destruct_and?; simplify_eq.
Ltac hstep :=
  match goal with
  | |- holds _ _ _ (exit _) _ => apply holds_exit; exact I
  | |- holds _ _ _ (die _ _) _ => eapply holds_die; reflexivity
  | |- holds _ _ _ (die2 _ _) _ => eapply holds_die2; reflexivity
  | |- holds _ _ _ (printf _ _) _ => eapply holds_printf; [apply unix_pre|apply unix_write|reflexivity|]
  | |- holds _ _ _ (fprintf _ _ _) _ => eapply holds_fprintf; [apply unix_pre|apply unix_write|reflexivity|]
  | |- holds _ _ _ (_ ≫= _) _ => apply holds_bind
  | |- holds _ _ _ (call _) _ => hcall
  | |- holds _ _ _ (if ?b then _ else _) _ => destruct b eqn:?
  | |- holds _ _ _ (let '(_, _) := ?x in _) _ => destruct x
  | |- holds _ _ _ (Ret _) _ => apply holds_ret
  end; cbn beta iota.

Lemma open_close_quiet path mode w : fds_ok w -> quiet (open_close path mode) w.
Proof.
  intros Hw. unfold open_close. repeat hstep.
  - destruct w as [o k]. f_equal. cbn in *. assert (-1 ∉ o) by (intros H%Hw; lia). set_solver.
  - destruct w as [o k]. cbn in *. f_equal. set_solver.
Qed.

Lemma fork_wait_quiet child w : safe child (Uproc w.(opened) 0) -> quiet (fork_wait child) w.
Proof.
  intros Hc. unfold fork_wait. hstep. hstep.
  - rewrite (proj2 (Z.eqb_neq _ _)), (proj2 (Z.ltb_ge _ _)) by lia. repeat hstep. by destruct w.
  - rewrite Z.eqb_refl. hstep. eapply holds_mono; [exact Hc|]. intros [] w' _. hstep.
  - cbn. hstep.
Qed.

(** The answer of [Fork] in a condition on the pid. *)
Ltac hpid :=
  repeat first [rewrite Z.eqb_refl|progress change (-1 =? 0) with false|progress change (-1 <? 0) with true|progress change (0 <? 0) with false
               |rewrite (proj2 (Z.eqb_neq _ _)) by lia|rewrite (proj2 (Z.ltb_ge _ _)) by lia]; cbv iota.
Ltac same := match goal with |- _ = ?w => destruct w as [o k]; cbn in *; f_equal; set_solver end.

Lemma kill_child_quiet w : fds_ok w -> quiet kill_child w.
Proof.
  intros Hw. unfold kill_child. hstep. hstep; hpid.
  - repeat hstep. same.
  - hstep. eapply holds_mono; [by apply open_close_quiet|]. intros [] w' ->. hstep.
  - hstep.
Qed.

Lemma holds_pipe (Q : Z * (Z * Z) -> uproc -> Prop) w : (forall ab, Q (-1, ab) w) ->
  (forall a b, a ∉ w.(opened) -> b ∉ w.(opened) -> a <> b -> Q (0, (a, b)) (Uproc ({[b]} ∪ ({[a]} ∪ w.(opened))) w.(kids))) -> holds any_call unix Q (call Pipe) w.
Proof.
  intros H1 H2. split; [exact I|]. intros [r [a b]] w'. cbn. intros [[-> ->]|(-> & w1 & [[-> _]|(_ & Ha & ->)] & [[-> _]|(_ & Hb & ->)] & Pa & Pb)]; [apply H1|lia..|].
  cbn in *. apply H2; set_solver.
Qed.

Lemma pipe_child_quiet w : quiet pipe_child w.
Proof.
  unfold pipe_child. hstep. apply holds_pipe; [intros [a b]; hpid; hstep|]. intros a b Ha Hb Hab. hpid. hstep. hstep; hpid.
  - repeat hstep. same.
  - repeat hstep.
  - hstep.
Qed.

Lemma create_c_quiet w : fds_ok w -> quiet create_c w.
Proof.
  intros Hw. unfold create_c. do 4 hstep; hpid; [hstep|]. repeat hstep. same.
Qed.

Lemma echo_child_exits Q aa bb w : holds any_call unix Q (echo_child aa bb) w.
Proof. unfold echo_child. repeat hstep. Qed.

Lemma cat_child_exits Q aa bb w : holds any_call unix Q (cat_child aa bb) w.
Proof. unfold cat_child. repeat hstep. Qed.

Lemma holds_wait_status (Q : Z * Z -> uproc -> Prop) w n : w.(kids) = S n -> (forall pid st, Q (pid, st) (Uproc w.(opened) n)) -> holds any_call unix Q wait_status w.
Proof. intros E HQ. split; [exact I|]. intros [pid st] w'. cbn. rewrite E. intros (_ & [st' E'] & ->). cbn in E'. subst st. apply HQ. Qed.

Lemma pipeline_quiet w : fds_ok w -> quiet pipeline w.
Proof.
  intros Hw. unfold pipeline. hstep. apply holds_pipe; [intros aa; hpid; hstep|]. intros a0 a1 Ha0 Ha1 Ha. hpid.
  hstep. apply holds_pipe; [intros bb; hpid; hstep|]. cbn [opened kids]. intros b0 b1 Hb0 Hb1 Hb. hpid. hstep. hstep; hpid.
  2: apply echo_child_exits.
  2: hstep.
  hstep. hstep; hpid.
  2: apply cat_child_exits.
  2: hstep.
  cbn [fst snd]. do 17 hstep.
  hstep. eapply holds_wait_status; [reflexivity|]. intros _ st1. hstep. eapply holds_wait_status; [reflexivity|]. intros _ st2. cbn beta iota zeta.
  match goal with |- context [cstr 4 ?m 0] => generalize (cstr 4 m 0) end. intros s. repeat hstep. same.
Qed.

(** The descriptors of the loop: those of [base] and [fd]; no child. *)
Definition round_inv (base : gset Z) (s : gvars) (w : uproc) : Prop :=
  (forall fd, fd ∈ base -> 0 <= fd) /\ -1 <= s.(g_fd) /\ (s.(g_fd) ∉ base) /\ w = Uproc (if s.(g_fd) =? -1 then base else {[s.(g_fd)]} ∪ base) 0.

Lemma round_fds_ok base s w : round_inv base s w -> fds_ok w.
Proof. intros (H1 & H2 & H3 & ->) fd. cbn. destruct (Z.eqb_spec s.(g_fd) (-1)); [apply H1|]. intros [->%elem_of_singleton|?%H1]%elem_of_union; lia. Qed.

Lemma reopen_inv base path s w : round_inv base s w ->
  holds any_call unix (round_inv base) (call (Close s.(g_fd));; fd ← call (Open path CREATE_RDWR); Ret (set_fd s fd)) w.
Proof.
  intros (H1 & H2 & H3 & ->). repeat hstep; (split; [done|]); cbn [g_fd set_fd].
  - split; [lia|]. split; [intros H; apply H1 in H; lia|]. f_equal. destruct (Z.eqb_spec (g_fd s) (-1)) as [->|]; set_solver.
  - assert (r0 ∉ base) as Hn by (destruct (g_fd s =? -1); set_solver). split; [lia|]. split; [done|]. rewrite (proj2 (Z.eqb_neq r0 (-1))) by lia.
    f_equal. destruct (Z.eqb_spec (g_fd s) (-1)) as [->|]; set_solver.
Qed.

Lemma action_inv base break0 what s w : round_inv base s w -> holds any_call unix (round_inv base) (action break0 what s) w.
Proof.
  intros Hi. pose proof (round_fds_ok _ _ _ Hi) as Hw.
  assert (forall p : prog unit, quiet p w -> holds any_call unix (round_inv base) (p ≫= fun _ => Ret s) w) as Hq.
  { intros p Hp. apply holds_bind. eapply holds_mono; [exact Hp|]. by intros [] w' ->. }
  unfold action. repeat match goal with |- holds _ _ _ (if what =? ?n then _ else _) _ => destruct (what =? n); [|] end.
  all: try (apply Hq; first [by apply open_close_quiet|by apply kill_child_quiet|apply pipe_child_quiet|by apply create_c_quiet|by apply pipeline_quiet
                            |apply fork_wait_quiet; repeat hstep]; exact I).
  all: try by apply reopen_inv.
  all: repeat (hstep || (eapply holds_mono; [by apply open_close_quiet|intros [] ? ->])); exact Hi.
Qed.

(** C39: Whatever the system answers, a round of the loop of [go] that does not exit leaves
    the process with the descriptors that it had, but for [fd], which is then open
    exactly when it is not -1, and without a child that was not waited for; its children
    exit, and no round uses the status of a failed [wait]. *)
Theorem go_round_clean base which_child break0 s w : round_inv base s w -> holds any_call unix (round_inv base) (go_round which_child break0 s) w.
Proof.
  intros Hi. unfold go_round. cbv zeta. set (s1 := Gvars _ _ _ _). assert (g_fd s1 = g_fd s) as E by reflexivity. clearbody s1.
  assert (holds any_call unix (round_inv base) (let '(r, s2) := rand s1 in action break0 (Z.rem r 23) s2) w) as Ha.
  { unfold rand. destruct (do_rand (rand_next s1)) as [r c]. apply action_inv. unfold round_inv in *. cbn. by rewrite E. }
  apply holds_bind. destruct (iters s1 mod 500 =? 0); [do 3 hstep|hstep]; exact Ha.
Qed.

Lemma go_round_clean_witness :
  holds any_call unix (round_inv {[0; 1; 2]}) (go_round true 0x5000 (Gvars 1 (-1) (fun _ => 0) 0)) (Uproc {[0; 1; 2]} 0).
Proof.
  apply go_round_clean. split; [intros fd Hfd; set_solver by lia|]. split; [done|]. split; [set_solver by lia|done].
Defined.
