(* ===== verification/Grep.v ===== *)
(** * grep (user/grep.c)

    The pattern and a line are C strings, here the lists of their characters before
    the NUL.  The buffer of [grep] is the list of the bytes that it holds between
    rounds.  [match_contains] relates the matcher to the language of the pattern,
    [grep_correct] the program to the lines of the files, however [read] cuts them and
    whatever bytes they hold. *)
From S2P Require Export Utils.

Definition NL : Z := 10.
Definition STAR : Z := 42.
Definition DOT : Z := 46.
Definition DOLLAR : Z := 36.
Definition CARET : Z := 94.

(** ** The matcher *)

(** The loop of [matchstar]; [here] is [matchhere] on the rest of the pattern. *)
Fixpoint star_loop (here : list Z -> bool) (c : Z) (text : list Z) : bool :=
  if here text then true else
  match text with
  | [] => false
  | t :: text => if (t =? c) || (c =? DOT) then star_loop here c text else false
  end.

Fixpoint matchhere (re text : list Z) : bool :=
  match re with
  | [] => true
  | c :: re1 =>
      let tail :=
        if (c =? DOLLAR) && bool_decide (re1 = []) then bool_decide (text = [])
        else match text with
             | [] => false
             | t :: text => if (c =? DOT) || (c =? t) then matchhere re1 text else false
             end in
      match re1 with
      | s :: re2 => if s =? STAR then star_loop (matchhere re2) c text else tail
      | [] => tail
      end
  end.

Definition matchstar (c : Z) (re text : list Z) : bool := star_loop (matchhere re) c text.

(** The loop of [match], which also looks at the empty string. *)
Fixpoint match_from (re text : list Z) : bool :=
  if matchhere re text then true else
  match text with [] => false | _ :: text => match_from re text end.

Definition match_ (re text : list Z) : bool :=
  match re with
  | c :: re1 => if c =? CARET then matchhere re1 text else match_from re text
  | [] => match_from re text
  end.

(** ** The program *)

(** [strchr] (user/ulib.c): the characters before the first [c] and those after it.
    The scan ends at a NUL or at the end of the list. *)
Fixpoint strchr_split (c : Z) (s : list Z) : option (list Z * list Z) :=
  match s with
  | [] => None
  | x :: s =>
      if x =? 0 then None
      else if x =? c then Some ([], s)
      else match strchr_split c s with Some (l, r) => Some (x :: l, r) | None => None end
  end.

(** The inner loop: the lines in the buffer at [p], what is written for them, and the
    bytes that remain.  A round consumes at least one byte. *)
Fixpoint grep_lines (fuel : nat) (pattern p : list Z) : option (list (list Z) * list Z) :=
  match strchr_split NL p with
  | None => Some ([], p)
  | Some (line, rest) =>
      match fuel with
      | O => None
      | S fuel =>
          '(out, p) ← grep_lines fuel pattern rest;
          Some ((if match_ pattern line then [line ++ [NL]] else []) ++ out, p)
      end
  end.

Definition sizeof_buf : Z := 1024.

(** The loop of [grep], with [b] the bytes in the buffer. *)
Fixpoint grep_loop (fuel : nat) (pattern : list Z) (fd : Z) (b : list Z) : prog unit :=
  match fuel with
  | O => Nofuel
  | S fuel =>
      '(n, data) ← call (Read fd (sizeof_buf - Z.of_nat (length b) - 1));
      if 0 <? n then
        let b := b ++ take (Z.to_nat n) data in
        match grep_lines (length b) pattern b with
        | None => Nofuel
        | Some (out, p) => forP out (fun l => call (Write 1 l);; Ret tt);; grep_loop fuel pattern fd p
        end
      else Ret tt
  end.

Definition grep (fuel : nat) (pattern : list Z) (fd : Z) : prog unit := grep_loop fuel pattern fd [].

Definition grep_main (fuel : nat) (argv : list (list Z)) : prog unit :=
  match argv with
  | _ :: pattern :: args =>
      if Z.of_nat (length argv) <=? 2 then grep fuel pattern 0;; exit 0 else
      forP args (fun arg =>
        fd ← call (Open arg 0);
        if fd <? 0 then printf (line "grep: cannot open %s") [va_str (Some arg)];; exit 1
        else grep fuel pattern fd;; call (Close fd);; Ret tt);;
      exit 0
  | _ => fprintf 2 (line "usage: grep pattern [file ...]") [];; exit 1
  end.

(** ** The language of a pattern *)

(** A pattern is a sequence of single characters, any characters, repetitions of one
    of these, and possibly the end of the line. *)
Inductive atom := Lit (c : Z) | Any.
Inductive item := One (a : atom) | Rep (a : atom) | End_.

Definition atom_of (c : Z) : atom := if c =? DOT then Any else Lit c.

Fixpoint items (re : list Z) : list item :=
  match re with
  | [] => []
  | c :: re1 =>
      let tail := if (c =? DOLLAR) && bool_decide (re1 = []) then [End_]
                  else One (atom_of c) :: items re1 in
      match re1 with
      | s :: re2 => if s =? STAR then Rep (atom_of c) :: items re2 else tail
      | [] => tail
      end
  end.

Definition is_atom (a : atom) (c : Z) : Prop := match a with Lit x => c = x | Any => True end.

(** [text] begins with a string of the language. *)
Inductive begins : list item -> list Z -> Prop :=
| begins_nil text : begins [] text
| begins_end : begins [End_] []
| begins_one a c l text : is_atom a c -> begins l text -> begins (One a :: l) (c :: text)
| begins_rep a s l text : Forall (is_atom a) s -> begins l text -> begins (Rep a :: l) (s ++ text).

(** [text] contains a match: at its beginning when the pattern is anchored. *)
Definition contains (re text : list Z) : Prop :=
  match re with
  | c :: re1 => if c =? CARET then begins (items re1) text
                else exists s t, text = s ++ t /\ begins (items re) t
  | [] => exists s t, text = s ++ t /\ begins (items re) t
  end.

Lemma star_loop_spec here c text :
  star_loop here c text = true <-> exists s t, text = s ++ t /\ Forall (is_atom (atom_of c)) s /\ here t = true.
Proof.
  induction text as [|x text IH]; cbn [star_loop].
  - destruct (here []) eqn:E; split; try done.
    + intros _. by exists [], [].
    + intros (s & t & Et & _ & Ht). symmetry in Et. apply app_nil in Et as [-> ->]. congruence.
  - destruct (here (x :: text)) eqn:E.
    { split; [|done]. intros _. by exists [], (x :: text). }
    assert (is_atom (atom_of c) x <-> (x =? c) || (c =? DOT) = true) as Ha.
    { unfold atom_of. rewrite orb_true_iff, !Z.eqb_eq. destruct (Z.eqb_spec c DOT); cbn; tauto. }
    destruct (_ || _).
    + rewrite IH. split; intros (s & t & Et & Hs & Ht).
      * exists (x :: s), t. split; [by rewrite Et|]. split; [|done]. constructor; [by apply Ha|done].
      * destruct s as [|y s]; cbn in Et; [subst; congruence|]. injection Et as -> ->.
        inversion Hs; subst. by exists s, t.
    + split; [done|]. intros (s & t & Et & Hs & Ht). destruct s as [|y s]; cbn in Et; [subst; congruence|].
      injection Et as -> ->. inversion Hs; subst. by apply Ha.
Qed.

Lemma begins_rep_inv a l text :
  begins (Rep a :: l) text <-> exists s t, text = s ++ t /\ Forall (is_atom a) s /\ begins l t.
Proof.
  split; [intros H; inversion H; subst; eauto|]. intros (s & t & -> & Hs & Ht). by constructor.
Qed.

Lemma begins_one_inv a l text :
  begins (One a :: l) text <-> exists c t, text = c :: t /\ is_atom a c /\ begins l t.
Proof.
  split; [intros H; inversion H; subst; eauto|]. intros (c & t & -> & Hc & Ht). by constructor.
Qed.

Lemma matchhere_one c re1 text :
  (forall text, matchhere re1 text = true <-> begins (items re1) text) ->
  (if (c =? DOLLAR) && bool_decide (re1 = []) then bool_decide (text = [])
   else match text with
        | [] => false
        | t :: text => if (c =? DOT) || (c =? t) then matchhere re1 text else false
        end) = true <->
  begins (if (c =? DOLLAR) && bool_decide (re1 = []) then [End_] else One (atom_of c) :: items re1) text.
Proof.
  intros IH. destruct (_ && bool_decide _).
  - rewrite bool_decide_eq_true. split; [intros ->; constructor|]. by inversion 1.
  - rewrite begins_one_inv. destruct text as [|t text]; [split; [done|]; by intros (? & ? & ? & _)|].
    assert (is_atom (atom_of c) t <-> (c =? DOT) || (c =? t) = true) as Ha.
    { unfold atom_of. rewrite orb_true_iff, !Z.eqb_eq. destruct (Z.eqb_spec c DOT); cbn; intuition congruence. }
    destruct (_ || _); [rewrite IH|].
    + split; [intros H; exists t, text; by rewrite Ha|]. by intros (? & ? & [= -> ->] & _ & H).
    + split; [done|]. intros (? & ? & [= -> ->] & H & _). by apply Ha.
Qed.

(** [matchhere] decides whether the text begins with a string of the language. *)
Lemma matchhere_spec n re text : (length re <= n)%nat -> matchhere re text = true <-> begins (items re) text.
Proof.
  revert re text. induction n as [|n IH]; intros re text Hn.
  { destruct re; [|cbn in Hn; lia]. split; [constructor|done]. }
  destruct re as [|c re1]; [split; [constructor|done]|]. cbn in Hn.
  assert (forall text, matchhere re1 text = true <-> begins (items re1) text) as IH1 by (intros; apply IH; lia).
  destruct re1 as [|s re2]; [by apply matchhere_one|]. cbn in Hn.
  change (matchhere (c :: s :: re2) text) with
    (if s =? STAR then star_loop (matchhere re2) c text else
     if (c =? DOLLAR) && bool_decide (s :: re2 = []) then bool_decide (text = [])
     else match text with
          | [] => false
          | t :: text => if (c =? DOT) || (c =? t) then matchhere (s :: re2) text else false
          end).
  change (items (c :: s :: re2)) with
    (if s =? STAR then Rep (atom_of c) :: items re2 else
     if (c =? DOLLAR) && bool_decide (s :: re2 = []) then [End_] else One (atom_of c) :: items (s :: re2)).
  destruct (s =? STAR); [|by apply matchhere_one].
  rewrite star_loop_spec, begins_rep_inv. by setoid_rewrite (fun t => IH re2 t ltac:(lia)).
Qed.

Lemma match_from_spec re text :
  match_from re text = true <-> exists s t, text = s ++ t /\ matchhere re t = true.
Proof.
  induction text as [|x text IH]; cbn [match_from].
  - destruct (matchhere re []) eqn:E; split; try done.
    + intros _. by exists [], [].
    + intros (s & t & Et & Ht). symmetry in Et. apply app_nil in Et as [-> ->]. congruence.
  - destruct (matchhere re (x :: text)) eqn:E.
    + split; [|done]. intros _. by exists [], (x :: text).
    + rewrite IH. split; intros (s & t & Et & Ht).
      * exists (x :: s), t. by rewrite Et.
      * destruct s as [|y s]; cbn in Et; [subst; congruence|]. injection Et as -> ->. by exists s, t.
Qed.

(** The matcher agrees with the language of the pattern. *)
Lemma match_contains re text : match_ re text = true <-> contains re text.
Proof.
  assert (forall r t, matchhere r t = true <-> begins (items r) t) as H by (intros; by eapply matchhere_spec).
  unfold match_, contains. destruct re as [|c re1]; [|destruct (c =? CARET)]; rewrite ?match_from_spec, ?H; try done.
  all: by setoid_rewrite H.
Qed.

(** ** Lines *)

(** The complete lines of the input, and what follows the last newline. *)
Fixpoint split_lines (s : list Z) : list (list Z) * list Z :=
  match s with
  | [] => ([], [])
  | x :: s =>
      let '(ls, r) := split_lines s in
      if x =? NL then ([] :: ls, r)
      else match ls with [] => ([], x :: r) | l :: ls => ((x :: l) :: ls, r) end
  end.

(** What grep should print: the complete lines that match. *)
Definition grep_spec (pattern input : list Z) : list (list Z) :=
  map (fun l => l ++ [NL]) (filter (fun l => match_ pattern l = true) (split_lines input).1).

Lemma split_lines_none s : NL ∉ s -> split_lines s = ([], s).
Proof.
  induction s as [|x s IH]; intros H; [done|]. cbn. apply not_elem_of_cons in H as [Hx Hs].
  rewrite IH by done. by destruct (Z.eqb_spec x NL).
Qed.

Lemma split_lines_line line s :
  NL ∉ line -> split_lines (line ++ NL :: s) = (line :: (split_lines s).1, (split_lines s).2).
Proof.
  induction line as [|x line IH]; intros H; cbn; [by destruct (split_lines s)|].
  apply not_elem_of_cons in H as [Hx Hs]. rewrite IH by done. by destruct (Z.eqb_spec x NL).
Qed.

(** Induction on the lines of the input. *)
Lemma lines_ind (P : list Z -> Prop) :
  (forall s, NL ∉ s -> P s) -> (forall line s, NL ∉ line -> P s -> P (line ++ NL :: s)) -> forall s, P s.
Proof.
  intros H1 H2 s. remember (length s) as n eqn:En. revert s En.
  induction (Nat.lt_wf_0 n) as [n _ IH]. intros s ->.
  destruct (decide (NL ∈ s)) as [Hs|Hs]; [|by apply H1].
  apply list_elem_of_split_l in Hs as (line & t & -> & Hl). apply H2; [done|].
  apply (IH (length t)); [|done]. rewrite length_app. cbn. lia.
Qed.

(** The text before the first NUL, which is all that [strchr] sees. *)
Fixpoint text (s : list Z) : list Z :=
  match s with
  | [] => []
  | x :: s => if x =? 0 then [] else x :: text s
  end.

Lemma text_all s : 0 ∉ s -> text s = s.
Proof.
  induction s as [|x s IH]; intros H; [done|]. apply not_elem_of_cons in H as [Hx Hs]. cbn. rewrite IH by done.
  by destruct (Z.eqb_spec x 0); [congruence|].
Qed.

Lemma text_line line s : 0 ∉ line -> text (line ++ NL :: s) = line ++ NL :: text s.
Proof.
  induction line as [|x line IH]; intros H; [done|]. apply not_elem_of_cons in H as [Hx Hs]. cbn. rewrite IH by done.
  by destruct (Z.eqb_spec x 0); [congruence|].
Qed.

Lemma text_app s t : text (s ++ t) = if decide (0 ∈ s) then text s else s ++ text t.
Proof.
  induction s as [|x s IH]; [done|]. cbn. rewrite IH. destruct (Z.eqb_spec x 0) as [->|N].
  - by rewrite decide_True by left.
  - destruct (decide (0 ∈ s)); [by rewrite decide_True by (by right)|].
    rewrite decide_False; [done|]. by intros [?|?]%elem_of_cons.
Qed.

Lemma text_length s : (length (text s) <= length s)%nat.
Proof. induction s as [|x s IH]; [done|]. cbn. destruct (x =? 0); cbn; lia. Qed.

(** [strchr] for a newline: there is none before the NUL, or the first line is found. *)
Lemma strchr_split_spec s :
  match strchr_split NL s with
  | None => NL ∉ text s
  | Some (line, rest) => s = line ++ NL :: rest /\ NL ∉ line /\ 0 ∉ line
  end.
Proof.
  induction s as [|x s IH]; cbn; [apply not_elem_of_nil|]. destruct (Z.eqb_spec x 0) as [->|N0]; [apply not_elem_of_nil|].
  destruct (Z.eqb_spec x NL) as [->|N]; [split; [done|]; split; apply not_elem_of_nil|].
  destruct (strchr_split NL s) as [[line rest]|].
  - destruct IH as (-> & H1 & H2). split; [done|]. split; apply not_elem_of_cons; done.
  - by apply not_elem_of_cons.
Qed.

(** The lines in the buffer are printed if they match; what remains has no newline, and
    the lines of the buffer and of what may follow it are accounted for. *)
Lemma grep_lines_spec fuel pattern p : (length p <= fuel)%nat ->
  exists q, grep_lines fuel pattern p = Some (grep_spec pattern (text p), q) /\ NL ∉ text q /\ (length q <= length p)%nat /\
    forall t, (split_lines (text (p ++ t))).1 = (split_lines (text p)).1 ++ (split_lines (text (q ++ t))).1.
Proof.
  revert p. induction fuel as [|fuel IH]; intros p Hf; cbn [grep_lines]; pose proof (strchr_split_spec p) as Hs;
    destruct (strchr_split NL p) as [[line rest]|].
  - destruct Hs as (-> & _). rewrite length_app in Hf. cbn in Hf. lia.
  - exists p. unfold grep_spec. by rewrite (split_lines_none _ Hs).
  - destruct Hs as (-> & H1 & H2). rewrite length_app in *. cbn [length] in *.
    destruct (IH rest) as (q & -> & Hq & Hl & Ht); [lia|]. exists q. rewrite text_line by done. unfold grep_spec.
    rewrite split_lines_line by done. cbn [fst snd mbind option_bind]. rewrite filter_cons. split.
    { destruct (match_ pattern line); [rewrite decide_True by done|rewrite decide_False by done]; done. }
    split; [done|]. split; [lia|]. intros t. rewrite <- app_assoc. cbn [app]. rewrite text_line, split_lines_line by done. cbn. by rewrite Ht.
  - exists p. unfold grep_spec. by rewrite (split_lines_none _ Hs).
Qed.

(** ** The program *)

(** The lines before the first one that, with its newline, does not fit the buffer. *)
Fixpoint fitting (ls : list (list Z)) : list (list Z) :=
  match ls with
  | [] => []
  | l :: ls => if Z.of_nat (length l) <=? sizeof_buf - 2 then l :: fitting ls else []
  end.

(** What grep prints for an input: the matching lines among its complete lines, up to
    the first NUL and to the first line of 1023 bytes or more. *)
Definition grep_out (pattern input : list Z) : list Z :=
  concat (map (fun l => l ++ [NL]) (filter (fun l => match_ pattern l = true) (fitting (split_lines (text input)).1))).

Lemma fitting_app a b : Forall (fun l => Z.of_nat (length l) <= sizeof_buf - 2) a -> fitting (a ++ b) = a ++ fitting b.
Proof. induction 1 as [|l a Hl _ IH]; [done|]. cbn. by rewrite IH, (proj2 (Z.leb_le _ _) Hl). Qed.

(** A complete line is shorter than the input. *)
Lemma split_lines_short s : Forall (fun l => (length l < length s)%nat) (split_lines s).1.
Proof.
  induction s as [s Hs|line s Hl IH] using lines_ind; [by rewrite split_lines_none|].
  rewrite split_lines_line by done. cbn. rewrite length_app. cbn [length]. constructor; [lia|].
  eapply Forall_impl; [exact IH|]. cbn. lia.
Qed.

(** The first complete line of an input that begins with a long piece is long. *)
Lemma fitting_long b s : NL ∉ b -> sizeof_buf - 1 <= Z.of_nat (length b) -> fitting (split_lines (b ++ s)).1 = [].
Proof.
  intros Hb Hl. assert (forall l ls r, split_lines (b ++ s) = (l :: ls, r) -> (length b <= length l)%nat) as H.
  { clear Hl. induction b as [|x b IH]; intros l ls r E; [cbn; lia|]. apply not_elem_of_cons in Hb as [Hx Hb].
    cbn in E. destruct (split_lines (b ++ s)) as [[|l' ls'] r']; rewrite (proj2 (Z.eqb_neq x NL)) in E by congruence; [done|].
    injection E as <- <- <-. specialize (IH Hb l' ls' r' eq_refl). cbn. lia. }
  destruct (split_lines (b ++ s)) as [[|l ls] r]; [done|]. specialize (H l ls r eq_refl). cbn [fst fitting].
  by rewrite (proj2 (Z.leb_gt _ _)) by lia.
Qed.

Lemma grep_out_plain pattern input : 0 ∉ input -> Forall (fun l => Z.of_nat (length l) <= sizeof_buf - 2) (split_lines input).1 ->
  grep_out pattern input = concat (grep_spec pattern input).
Proof.
  intros H0 Hs. unfold grep_out, grep_spec. rewrite text_all by done. rewrite <- (app_nil_r (split_lines input).1), fitting_app by done.
  done.
Qed.

Section grep.
Context (count : nat -> nat -> nat).
Hypothesis count_ok : forall i n, (1 <= n)%nat -> (1 <= count i n <= n)%nat.
Notation runs p w := (run (handle count) p w).

Lemma run_writes l w : runs (forP l (fun l => call (Write 1 l);; Ret tt)) w = emits (map (Out 1) l) (Done tt w).
Proof.
  induction l as [|x l IH]; [done|]. change (Node (Out 1 x) (runs (forP l (fun l => call (Write 1 l);; Ret tt)) w) = emits (map (Out 1) (x :: l)) (Done tt w)).
  by rewrite IH.
Qed.

Lemma sent_writes fd l : sent fd (map (Out 1) l) = if 1 =? fd then concat l else [].
Proof. unfold sent. rewrite map_map. destruct (1 =? fd); [by rewrite map_id|]. by induction l. Qed.

(** The buffer has no room left, or the input is at its end: nothing more is printed. *)
Lemma grep_out_end pattern b input : NL ∉ text b ->
  input = [] \/ sizeof_buf - 1 <= Z.of_nat (length b) -> grep_out pattern (b ++ input) = [].
Proof.
  intros Hb H. unfold grep_out. rewrite text_app. destruct (decide (0 ∈ b)) as [H0|H0]; [by rewrite split_lines_none|].
  rewrite text_all in Hb by done. destruct H as [->|H]; [|by rewrite fitting_long].
  cbn. by rewrite app_nil_r, split_lines_none.
Qed.

(** What [grep] writes for the bytes in the buffer and the rest of the input. *)
Lemma grep_run fuel pattern fd b w input : w.(fds) fd = Some input ->
  NL ∉ text b -> Z.of_nat (length b) <= sizeof_buf - 1 -> (length input < fuel)%nat ->
  exists evs w' rest, runs (grep_loop fuel pattern fd b) w = emits evs (Done tt w') /\
    sent 1 evs = grep_out pattern (b ++ input) /\ sent 2 evs = [] /\ same_but fd (Some rest) w w'.
Proof.
  revert w input b. induction fuel as [|fuel IH]; intros w input b Hfd Hb Hlen Hf; [lia|]. cbn [grep_loop].
  destruct (read_some count count_ok fd (sizeof_buf - Z.of_nat (length b) - 1) w input) as (k & w1 & E & Hk & Hkn & Hk0 & S1); [lia|done|].
  unfold call. cbn [mbind prog_bind run]. rewrite E. destruct (Z.ltb_spec 0 (Z.of_nat k)) as [Hp|Hp].
  - rewrite Nat2Z.id, take_take, Nat.min_id. set (g := b ++ take k input) in *.
    assert (b ++ input = g ++ drop k input) as Ei by (unfold g; by rewrite <- app_assoc, take_drop).
    assert (Z.of_nat (length g) <= sizeof_buf - 1) as Hg by (unfold g; rewrite length_app, length_take; lia).
    destruct (grep_lines_spec (length g) pattern g) as (q & -> & Hq & Hql & Ht); [done|].
    destruct (IH w1 (drop k input) q) as (evs & w2 & rest & E2 & H1 & H2 & S2); [|done|lia|rewrite length_drop; lia|].
    { rewrite (proj2 S1). by rewrite Z.eqb_refl. }
    exists (map (Out 1) (grep_spec pattern (text g)) ++ evs), w2, rest. split.
    + rewrite run_bind, run_writes, then_emits. cbn [then_]. by rewrite E2, emits_app.
    + rewrite !sent_app, !sent_writes, H1, H2. split; [|split; [done|by eapply same_but_trans]].
      rewrite Ei. unfold grep_out, grep_spec. rewrite Ht, fitting_app, filter_app, map_app, concat_app; [done|].
      eapply Forall_impl; [apply split_lines_short|]. cbn. intros l Hl. pose proof (text_length g). lia.
  - assert (k = 0%nat) as -> by lia. exists [], w1, input. rewrite grep_out_end; [done|done|].
    destruct (Hk0 eq_refl) as [->|?]; [by left|right]. lia.
Qed.
End grep.

Definition grep_msg (arg : list Z) : list Z := chars "grep: cannot open " ++ arg ++ [10].

(** C31: grep prints, for each file in order, the complete lines that contain a match of
    the pattern, in order and however [read] cuts the file into pieces.  It looks only at
    the lines before the first NUL and before the first line that has 1023 bytes or more,
    which fills its buffer; a file with no NUL and no such line is searched to its end.
    The first file that cannot be opened ends grep with a message and status 1.  Without
    file arguments it does the same for the standard input.  The matcher agrees with the
    language of the pattern. *)
Theorem grep_correct count fuel name pattern args w fd
  (count_ok : forall i n, (1 <= n)%nat -> (1 <= count i n <= n)%nat)
  (Hfd : free_fd w.(fds) = Some fd) (Hchars : Forall char_list args)
  (Hfiles : forall file data, w.(files) file = Some data -> (length data < fuel)%nat) :
  (args <> [] -> exists evs st, run (handle count) (grep_main fuel (name :: pattern :: args)) w = emits evs (Leaf (Exited st)) /\
    (sent 1 evs, sent 2 evs, st) = files_spec w.(files) (fun _ data => grep_out pattern data) 1 grep_msg args) /\
  (forall data, w.(fds) 0 = Some data -> (length data < fuel)%nat ->
    exists evs, run (handle count) (grep_main fuel [name; pattern]) w = emits evs (Leaf (Exited 0)) /\
      sent 1 evs = grep_out pattern data /\ sent 2 evs = []) /\
  (forall data, 0 ∉ data -> Forall (fun l => Z.of_nat (length l) <= 1022) (split_lines data).1 ->
    grep_out pattern data = concat (grep_spec pattern data)) /\
  forall line, match_ pattern line = true <-> contains pattern line.
Proof.
  split; [|split; [|split; [|intros; apply match_contains]]].
  - intros Hargs. unfold grep_main. rewrite (proj2 (Z.leb_gt _ 2)) by (destruct args; [done|cbn; lia]). cbv iota.
    apply (each_file count (fun fd _ => grep fuel pattern fd) (fun _ data => grep_out pattern data)
      (fun arg => printf (line "grep: cannot open %s") [va_str (Some arg)]) 1 grep_msg char_list w.(files)) with fd; [| |done..].
    + intros w0 fd0 arg data H1 H2 _. by apply (grep_run count count_ok fuel pattern fd0 [] w0 data); [|apply not_elem_of_nil| |eapply Hfiles].
    + intros arg Ha. split; [by apply vprintf_format|]. unfold grep_msg, char_list. rewrite !Forall_app.
      split; [apply chars_range|]. split; [done|]. repeat constructor; lia.
  - intros data H1 H2. destruct (grep_run count count_ok fuel pattern 0 [] w data) as (evs & w' & rest & E & S1 & S2 & _);
      [done|apply not_elem_of_nil|done|done|]. exists evs. split; [|done]. unfold grep_main. change (Z.of_nat (length [name; pattern]) <=? 2) with true.
    cbv iota. unfold grep. by rewrite run_bind, E, then_emits.
  - intros data H0 Hs. by apply grep_out_plain.
Qed.

(** ** Instances *)

(** A file "a" with the lines "xab", "abc", "cb", a NUL, and a line that is not looked at. *)
Definition grep_files (name : list Z) : option (list Z) :=
  if bool_decide (name = [97]) then Some [120;97;98;10; 97;98;99;10; 99;98;10; 0; 97;98;10] else None.

(** grep "a*b$" a, with reads of up to three bytes; and the same for the standard input. *)
Lemma grep_correct_witness :
  (exists evs, run (handle demo_count) (grep_main 16 [chars "grep"; [97; 42; 98; 36]; [97]]) (World grep_files (fds demo_world) 0) =
    emits evs (Leaf (Exited 0)) /\ sent 1 evs = [120;97;98;10; 99;98;10]) /\
  exists evs, run (handle demo_count) (grep_main 16 [chars "grep"; [97; 42; 98; 36]])
      (World grep_files (<[0 := Some [98; 10; 99; 10]]> (fds demo_world)) 0) =
    emits evs (Leaf (Exited 0)) /\ sent 1 evs = [98; 10].
Proof.
  assert (forall i n, (1 <= n)%nat -> (1 <= demo_count i n <= n)%nat) as Hc by (unfold demo_count; lia).
  assert (forall file data, grep_files file = Some data -> (length data < 16)%nat) as Hf.
  { unfold grep_files. intros file data. case_bool_decide; [|discriminate]. intros [= <-]. cbn. lia. }
  split.
  - destruct (grep_correct demo_count 16 (chars "grep") [97; 42; 98; 36] [[97]] (World grep_files (fds demo_world) 0) 3) as [H _];
      [exact Hc|reflexivity|repeat constructor; lia|exact Hf|]. destruct H as (evs & st & E & H); [discriminate|].
    exists evs. vm_compute in H. injection H as H1 H2 ->. split; [exact E|exact H1].
  - destruct (grep_correct demo_count 16 (chars "grep") [97; 42; 98; 36] [] (World grep_files (<[0 := Some [98; 10; 99; 10]]> (fds demo_world)) 0) 3)
      as (_ & H & _); [exact Hc|reflexivity|constructor|exact Hf|].
    destruct (H [98; 10; 99; 10]) as (evs & E & S1 & _); [reflexivity|cbn; lia|]. exists evs. split; [exact E|]. rewrite S1. vm_compute. reflexivity.
Defined.
