(* ===== verification/Sh.v ===== *)
(** * The shell: parser (user/sh.c)

    The input line is a byte array, a pointer into it an index; [s] is below [es], the
    index of the terminating NUL.  The nodes of a command are a tree; [argv] and the
    file of a redirection are the two ends of a word in the line, which [nulterminate]
    makes C strings.  The constructors ([execcmd] and the others) take their memory from
    [malloc] and use it without a test; a null pointer is not modelled.  The theorem says that parsing always ends, with a command or a
    syntax error, and that every word of the command is then a string of its own. *)
From S2P Require Export Bytes.
From stdpp Require Export strings.
Open Scope Z_scope.

Definition MAXARGS : nat := 10.
Definition O_RDONLY : Z := 0x000.
Definition O_WRONLY : Z := 0x001.
Definition O_CREATE : Z := 0x200.
Definition O_TRUNC : Z := 0x400.

(** " \t\r\n\v" and "<|>&;()" *)
Definition whitespace : list Z := [32; 9; 13; 10; 11].
Definition symbols : list Z := [60; 124; 62; 38; 59; 40; 41].

(** [strchr(set, c)] is not null. *)
Definition strchr (set : list Z) (c : Z) : bool := existsb (Z.eqb c) set.

Record redir := Redir_ { r_file : Z; r_efile : Z; r_mode : Z; r_fd : Z }.

Inductive cmd :=
| execcmd (argv : list (Z * Z))
| redircmd (c : cmd) (r : redir)
| pipecmd (left right : cmd)
| listcmd (left right : cmd)
| backcmd (c : cmd).

(** The outcome of a parser: a value, [panic], or no fuel. *)
Inductive pres (A : Type) := POk (a : A) | PPanic (msg : string) | PFuel.
#[global] Arguments POk {A}.
#[global] Arguments PPanic {A}.
#[global] Arguments PFuel {A}.

#[global] Instance pres_ret : MRet pres := fun A a => POk a.
#[global] Instance pres_bind : MBind pres := fun A B f m =>
  match m with POk a => f a | PPanic msg => PPanic msg | PFuel => PFuel end.

Section parser.
Context (buf : bytes) (es : Z).

(** [while(s < es && f( *s )) s++] *)
Fixpoint skip_loop (n : nat) (f : Z -> bool) (s : Z) : Z :=
  match n with
  | O => s
  | S n => if f (buf s) then skip_loop n f (s + 1) else s
  end.
Definition skip (f : Z -> bool) (s : Z) : Z := skip_loop (Z.to_nat (es - s)) f s.

(** The token, its ends [q] and [eq], and the new position. *)
Definition gettoken (ps : Z) : Z * Z * Z * Z :=
  let s := skip (strchr whitespace) ps in
  let q := s in
  let c := buf s in
  let '(ret, s) :=
    if c =? 0 then (c, s)
    else if strchr [124; 40; 41; 59; 38; 60] c then (c, s + 1)
    else if c =? 62 then
      if buf (s + 1) =? 62 then (43, s + 1 + 1) else (c, s + 1)
    else (97, skip (fun c => negb (strchr whitespace c) && negb (strchr symbols c)) s) in
  (ret, q, s, skip (strchr whitespace) s).

(** Whether the next character is one of [toks], and the new position. *)
Definition peek (ps : Z) (toks : list Z) : bool * Z :=
  let s := skip (strchr whitespace) ps in
  (negb (buf s =? 0) && strchr toks (buf s), s).

(** The redirections at [ps], in their order. *)
Fixpoint parseredirs (n : nat) (ps : Z) : pres (list redir * Z) :=
  let '(more, ps) := peek ps [60; 62] in
  if more then
    match n with
    | O => PFuel
    | S n =>
        let '(tok, _, _, ps) := gettoken ps in
        let '(tok2, q, eq, ps) := gettoken ps in
        if negb (tok2 =? 97) then PPanic "missing file for redirection" else
        let r := if tok =? 60 then Redir_ q eq O_RDONLY 0
                 else if tok =? 62 then Redir_ q eq (Z.lor (Z.lor O_WRONLY O_CREATE) O_TRUNC) 1
                 else Redir_ q eq (Z.lor O_WRONLY O_CREATE) 1 in
        '(rs, ps) ← parseredirs n ps;
        mret (r :: rs, ps)
    end
  else mret ([], ps).

Definition redirs (ps : Z) : pres (list redir * Z) := parseredirs (Z.to_nat (es - ps)) ps.

(** The loop of [parseexec]: the words and redirections found, after [argc] words. *)
Fixpoint parseargs (n : nat) (argc : nat) (ps : Z) : pres (list (Z * Z) * list redir * Z) :=
  let '(stop, ps) := peek ps [124; 41; 38; 59] in
  if stop then mret ([], [], ps) else
  match n with
  | O => PFuel
  | S n =>
      let '(tok, q, eq, ps) := gettoken ps in
      if tok =? 0 then mret ([], [], ps) else
      if negb (tok =? 97) then PPanic "syntax" else
      let argc := S argc in
      if (MAXARGS <=? argc)%nat then PPanic "too many args" else
      '(rs, ps) ← redirs ps;
      '(argv, rs2, ps) ← parseargs n argc ps;
      mret ((q, eq) :: argv, rs ++ rs2, ps)
  end.

Definition wrap (c : cmd) (rs : list redir) : cmd := foldl redircmd c rs.

(** [while(peek(ps, es, "&"))] of [parseline]. *)
Fixpoint parseback (n : nat) (c : cmd) (ps : Z) : pres (cmd * Z) :=
  let '(more, ps) := peek ps [38] in
  if more then
    match n with
    | O => PFuel
    | S n => let '(_, _, _, ps) := gettoken ps in parseback n (backcmd c) ps
    end
  else mret (c, ps).

Fixpoint parseline (n : nat) (ps : Z) : pres (cmd * Z) :=
  match n with
  | O => PFuel
  | S n =>
      '(c, ps) ← parsepipe n ps;
      '(c, ps) ← parseback (Z.to_nat (es - ps)) c ps;
      let '(more, ps) := peek ps [59] in
      if more then
        let '(_, _, _, ps) := gettoken ps in
        '(c2, ps) ← parseline n ps;
        mret (listcmd c c2, ps)
      else mret (c, ps)
  end
with parsepipe (n : nat) (ps : Z) : pres (cmd * Z) :=
  match n with
  | O => PFuel
  | S n =>
      '(c, ps) ← parseexec n ps;
      let '(more, ps) := peek ps [124] in
      if more then
        let '(_, _, _, ps) := gettoken ps in
        '(c2, ps) ← parsepipe n ps;
        mret (pipecmd c c2, ps)
      else mret (c, ps)
  end
with parseexec (n : nat) (ps : Z) : pres (cmd * Z) :=
  match n with
  | O => PFuel
  | S n =>
      let '(paren, ps) := peek ps [40] in
      if paren then parseblock n ps else
      '(rs, ps) ← redirs ps;
      '(argv, rs2, ps) ← parseargs (Z.to_nat (es - ps) + 1) 0 ps;
      mret (wrap (execcmd argv) (rs ++ rs2), ps)
  end
with parseblock (n : nat) (ps : Z) : pres (cmd * Z) :=
  match n with
  | O => PFuel
  | S n =>
      let '(paren, ps) := peek ps [40] in
      if negb paren then PPanic "parseblock" else
      let '(_, _, _, ps) := gettoken ps in
      '(c, ps) ← parseline n ps;
      let '(close, ps) := peek ps [41] in
      if negb close then PPanic "syntax - missing )" else
      let '(_, _, _, ps) := gettoken ps in
      '(rs, ps) ← redirs ps;
      mret (wrap c rs, ps)
  end.
End parser.

(** [nulterminate]: a NUL after each word of the command. *)
Fixpoint nulterminate (buf : bytes) (c : cmd) : bytes :=
  match c with
  | execcmd argv => foldl (fun m a => <[a.2 := 0]> m) buf argv
  | redircmd c r => <[r.(r_efile) := 0]> (nulterminate buf c)
  | pipecmd l r | listcmd l r => nulterminate (nulterminate buf l) r
  | backcmd c => nulterminate buf c
  end.

(** The line starts at [s]; its length is given by [strlen].  A nesting of calls is at
    most four for each character.  [inr s]: the input from [s] is left over, which is
    printed before the [panic]. *)
Definition parsecmd (fuel : nat) (buf : bytes) (s : Z) : option (pres (cmd * bytes + Z)) :=
  len ← strlen fuel buf s;
  let es := s + len in
  Some (
    '(c, s) ← parseline buf es (4 * Z.to_nat len + 4) s;
    let '(_, s) := peek buf es s [] in
    if negb (s =? es) then mret (inr s) else
    mret (inl (c, nulterminate buf c))).

(** ** What the parser guarantees *)

Definition special (c : Z) : bool := (c =? 0) || strchr whitespace c || strchr symbols c.

Section spec.
Context (buf : bytes) (s0 es : Z).
Hypothesis Hnul : buf es = 0.
Hypothesis Hstr : forall i, s0 <= i < es -> buf i <> 0.

(** [q] and [e] are the ends of a word: a maximal sequence of plain characters, as far
    as its right end goes. *)
Definition word (w : Z * Z) : Prop :=
  s0 <= w.1 < w.2 /\ w.2 <= es /\ (forall i, w.1 <= i < w.2 -> special (buf i) = false) /\ special (buf w.2) = true.

(** The words of a command. *)
Fixpoint words (c : cmd) : list (Z * Z) :=
  match c with
  | execcmd argv => argv
  | redircmd c r => words c ++ [(r.(r_file), r.(r_efile))]
  | pipecmd l r | listcmd l r => words l ++ words r
  | backcmd c => words c
  end.

(** Every command has less than [MAXARGS] arguments, so that [argv] ends with a null;
    what is redirected is descriptor 0 or 1. *)
Fixpoint args_fit (c : cmd) : Prop :=
  match c with
  | execcmd argv => (length argv < MAXARGS)%nat
  | redircmd c r => 0 <= r.(r_fd) <= 1 /\ args_fit c
  | backcmd c => args_fit c
  | pipecmd l r | listcmd l r => args_fit l /\ args_fit r
  end.

Definition redir_ok (r : redir) : Prop := word (r.(r_file), r.(r_efile)) /\ 0 <= r.(r_fd) <= 1.

Definition cmd_ok (c : cmd) : Prop := Forall word (words c) /\ args_fit c.

(** A position in the line. *)
Definition pos (s : Z) : Prop := s0 <= s <= es.

Lemma skip_spec f s : pos s -> let s' := skip buf es f s in
  s <= s' <= es /\ (forall i, s <= i < s' -> f (buf i) = true) /\ (s' < es -> f (buf s') = false).
Proof.
  intros Hs. unfold skip. remember (Z.to_nat (es - s)) as n eqn:En. revert s Hs En.
  induction n as [|n IH]; intros s Hs En; cbn [skip_loop]; unfold pos in *; [split; [lia|split; intros; lia]|].
  destruct (f (buf s)) eqn:E; [|split; [lia|split; [intros; lia|done]]].
  destruct (IH (s + 1)) as (H1 & H2 & H3); [lia|lia|]. split; [lia|]. split; [|done].
  intros i Hi. destruct (decide (i = s)) as [->|]; [done|]. apply H2. lia.
Qed.

Lemma special_plain c : special c = false <-> c <> 0 /\ strchr whitespace c = false /\ strchr symbols c = false.
Proof. unfold special. rewrite !orb_false_iff, Z.eqb_neq. tauto. Qed.

(** The symbols are those of the cases of [gettoken]. *)
Lemma plain_symbols c : strchr [124; 40; 41; 59; 38; 60] c = false -> c <> 62 -> strchr symbols c = false.
Proof.
  unfold strchr. cbn. rewrite !orb_false_iff. intros H Hc. apply Z.eqb_neq in Hc. tauto.
Qed.

Lemma gettoken_spec ps : pos ps ->
  let '(tok, q, e, ps') := gettoken buf es ps in
  ps <= ps' <= es /\ (tok <> 0 \/ ps < es -> ps < ps') /\ (tok = 97 -> word (q, e)).
Proof.
  intros Hs. unfold gettoken. destruct (skip_spec (strchr whitespace) ps Hs) as (A1 & A2 & A3).
  set (s := skip buf es (strchr whitespace) ps) in *. cbn zeta. unfold pos in Hs.
  assert (forall e, s <= e <= es -> let ps' := skip buf es (strchr whitespace) e in e <= ps' <= es) as Hend.
  { intros e He. apply skip_spec. unfold pos. lia. }
  destruct (Z.eqb_spec (buf s) 0) as [E0|E0].
  { specialize (Hend s ltac:(lia)). cbn zeta in Hend. assert (s = es).
    { destruct (decide (s = es)); [done|]. by destruct (Hstr s ltac:(lia)). }
    split; [lia|]. split; [intros [?|?]; [done|lia]|]. congruence. }
  assert (s < es) as Hlt by (destruct (decide (s = es)); [congruence|lia]).
  destruct (strchr [124; 40; 41; 59; 38; 60] (buf s)) eqn:E1.
  { specialize (Hend (s + 1) ltac:(lia)). cbn zeta in Hend. split; [lia|]. split; [lia|]. intros E97. by rewrite E97 in E1. }
  destruct (Z.eqb_spec (buf s) 62) as [E2|E2].
  { destruct (Z.eqb_spec (buf (s + 1)) 62) as [E3|E3].
    - assert (s + 1 < es) by (destruct (decide (s + 1 = es)) as [E|]; [congruence|lia]).
      specialize (Hend (s + 1 + 1) ltac:(lia)). cbn zeta in Hend. split; [lia|]. split; [lia|done].
    - specialize (Hend (s + 1) ltac:(lia)). cbn zeta in Hend. split; [lia|]. split; [lia|]. congruence. }
  destruct (skip_spec (fun c => negb (strchr whitespace c) && negb (strchr symbols c)) s) as (B1 & B2 & B3); [unfold pos; lia|].
  set (e := skip buf es _ s) in *. specialize (Hend e ltac:(lia)). cbn zeta in Hend, B1, B2, B3.
  assert (strchr symbols (buf s) = false) as Hsym by by apply plain_symbols.
  assert (s < e) as Hse.
  { destruct (decide (s = e)) as [E|]; [|lia]. rewrite <- E in B3. specialize (A3 Hlt). rewrite A3, Hsym in B3. by specialize (B3 Hlt). }
  split; [lia|]. split; [lia|]. intros _. split; [cbn; lia|]. split; [cbn; lia|]. cbn [fst snd]. split.
  - intros i Hi. apply special_plain. specialize (B2 i Hi). apply andb_true_iff in B2 as [B4%negb_true_iff B5%negb_true_iff].
    split; [apply Hstr; lia|done].
  - unfold special. destruct (decide (e = es)) as [->|]; [by rewrite Hnul|]. specialize (B3 ltac:(lia)).
    apply andb_false_iff in B3 as [B3%negb_false_iff|B3%negb_false_iff]; rewrite B3; by rewrite ?orb_true_r.
Qed.

Lemma peek_spec ps toks : pos ps ->
  let '(found, ps') := peek buf es ps toks in
  ps <= ps' <= es /\ (found = true -> buf ps' <> 0 /\ ps' < es).
Proof.
  intros Hs. unfold peek. destruct (skip_spec (strchr whitespace) ps Hs) as (A1 & _). split; [done|].
  intros [E%negb_true_iff _]%andb_true_iff. apply Z.eqb_neq in E. split; [done|].
  destruct (decide (skip buf es (strchr whitespace) ps = es)) as [H|]; [congruence|lia].
Qed.

(** The result satisfies [P] or is a [panic]; the fuel is enough. *)
Definition yields {A} (P : A -> Prop) (r : pres A) : Prop :=
  match r with POk a => P a | PPanic _ => True | PFuel => False end.

Lemma yields_bind {A B} (P : A -> Prop) (Q : B -> Prop) (m : pres A) (f : A -> pres B) :
  yields P m -> (forall a, P a -> yields Q (f a)) -> yields Q (m ≫= f).
Proof. destruct m; cbn; auto. Qed.

Lemma yields_mono {A} (P Q : A -> Prop) (m : pres A) : (forall a, P a -> Q a) -> yields P m -> yields Q m.
Proof. destruct m; cbn; auto. Qed.

Lemma parseredirs_spec n ps : pos ps -> es - ps <= Z.of_nat n ->
  yields (fun '(rs, ps') => ps <= ps' <= es /\ Forall redir_ok rs) (parseredirs buf es n ps).
Proof.
  revert ps. induction n as [|n IH]; intros ps Hs Hn; cbn [parseredirs];
    pose proof (peek_spec ps [60; 62] Hs) as Hp; destruct (peek buf es ps [60; 62]) as [[] p1]; destruct Hp as [H1 H2].
  - destruct (H2 eq_refl). lia.
  - split; [done|constructor].
  - destruct (H2 eq_refl) as [_ H3]. unfold pos in *.
    pose proof (gettoken_spec p1 ltac:(unfold pos; lia)) as G1. destruct (gettoken buf es p1) as [[[tok q1] e1] p2].
    destruct G1 as (G1 & G2 & _). specialize (G2 (or_intror H3)).
    pose proof (gettoken_spec p2 ltac:(unfold pos; lia)) as G3. destruct (gettoken buf es p2) as [[[tok2 q] e] p3].
    destruct G3 as (G3 & _ & G4). destruct (Z.eqb_spec tok2 97) as [E|E]; cbn [negb]; [|done].
    eapply yields_bind; [apply IH; [lia|lia]|]. intros [rs p4] [H4 H5]. split; [lia|]. constructor; [|done].
    specialize (G4 E). destruct (tok =? 60), (tok =? 62); (split; [done|cbn; lia]).
  - split; [done|constructor].
Qed.

Lemma parseargs_spec n argc ps : pos ps -> es - ps < Z.of_nat n -> (argc < MAXARGS)%nat ->
  yields (fun '(argv, rs, ps') => ps <= ps' <= es /\ Forall word argv /\ (argc + length argv < MAXARGS)%nat /\
    Forall redir_ok rs) (parseargs buf es n argc ps).
Proof.
  revert argc ps. induction n as [|n IH]; intros argc ps Hs Hn Ha; cbn [parseargs];
    pose proof (peek_spec ps [124; 41; 38; 59] Hs) as Hp; destruct (peek buf es ps _) as [[] p1]; destruct Hp as [H1 _]; unfold pos in *.
  1-3: cbn; try (split; [lia|]; split; [constructor|]; split; [lia|constructor]); lia.
  pose proof (gettoken_spec p1 ltac:(unfold pos; lia)) as G1. destruct (gettoken buf es p1) as [[[tok q] e] p2].
  destruct G1 as (G1 & G2 & G3). destruct (Z.eqb_spec tok 0) as [E0|E0].
  { cbn. split; [lia|]. split; [constructor|]. split; [lia|constructor]. }
  specialize (G2 (or_introl E0)). destruct (Z.eqb_spec tok 97) as [E|E]; cbn [negb]; [|done].
  destruct (Nat.leb_spec MAXARGS (S argc)) as [Hm|Hm]; [done|].
  eapply yields_bind; [apply (parseredirs_spec _ p2); [unfold pos; lia|lia]|]. intros [rs p3] [H3 H4].
  eapply yields_bind; [apply (IH (S argc) p3); [lia|lia|done]|]. intros [[argv rs2] p4] (H5 & H6 & H7 & H8).
  split; [lia|]. split; [constructor; [by apply G3|done]|]. split; [cbn; lia|]. by apply Forall_app.
Qed.

(** The command that a parser returns, and the position after it. *)
Definition parsed (ps : Z) (r : cmd * Z) : Prop := ps <= r.2 <= es /\ cmd_ok r.1.

Lemma parsed_le ps ps' r : ps <= ps' -> parsed ps' r -> parsed ps r.
Proof. intros H [H1 H2]. split; [lia|done]. Qed.

Lemma wrap_ok c rs : cmd_ok c -> Forall redir_ok rs -> cmd_ok (wrap c rs).
Proof.
  revert c. induction rs as [|r rs IH]; intros c [H1 H2] Hr; [done|]. inversion Hr as [|? ? [Hw Hfd] Hrs]; subst. apply IH; [|done].
  split; [|done]. cbn. by apply Forall_app; split; [|constructor].
Qed.

Lemma two_ok (f : cmd -> cmd -> cmd) l r : f = pipecmd \/ f = listcmd -> cmd_ok l -> cmd_ok r -> cmd_ok (f l r).
Proof. intros [->| ->] [H1 H2] [H3 H4]; (split; [by apply Forall_app|done]). Qed.

Lemma parseback_spec n c ps : pos ps -> es - ps <= Z.of_nat n -> cmd_ok c -> yields (parsed ps) (parseback buf es n c ps).
Proof.
  revert c ps. induction n as [|n IH]; intros c ps Hs Hn Hc; cbn [parseback];
    pose proof (peek_spec ps [38] Hs) as Hp; destruct (peek buf es ps [38]) as [[] p1]; destruct Hp as [H1 H2].
  - destruct (H2 eq_refl). lia.
  - split; [done|done].
  - destruct (H2 eq_refl) as [_ H3]. unfold pos in *.
    pose proof (gettoken_spec p1 ltac:(unfold pos; lia)) as G1. destruct (gettoken buf es p1) as [[[tok q1] e1] p2].
    destruct G1 as (G1 & G2 & _). specialize (G2 (or_intror H3)).
    eapply yields_mono; [intros r; apply (parsed_le ps p2); lia|]. apply IH; [lia|lia|done].
  - split; [done|done].
Qed.

(** A token [t] is found and consumed, or not. *)
Lemma peek_token ps t : pos ps -> let '(found, p1) := peek buf es ps [t] in
  pos p1 /\ ps <= p1 /\ (found = true -> let '(_, _, _, p2) := gettoken buf es p1 in pos p2 /\ ps < p2).
Proof.
  intros Hs. pose proof (peek_spec ps [t] Hs) as Hp. destruct (peek buf es ps [t]) as [found p1]. destruct Hp as [H1 H2].
  unfold pos in *. split; [lia|]. split; [lia|]. intros E. destruct (H2 E) as [_ H3].
  pose proof (gettoken_spec p1 ltac:(unfold pos; lia)) as G. destruct (gettoken buf es p1) as [[[tok q1] e1] p2].
  destruct G as (G1 & G2 & _). specialize (G2 (or_intror H3)). lia.
Qed.

(** The parser of what follows a command [c] and the separator [t]. *)
Lemma parse_rest (f : cmd -> cmd -> cmd) (m : Z -> pres (cmd * Z)) t c ps ps0 :
  f = pipecmd \/ f = listcmd -> ps0 <= ps -> pos ps -> cmd_ok c ->
  (forall p, pos p -> ps < p -> yields (parsed p) (m p)) ->
  yields (parsed ps0)
    (let '(more, ps) := peek buf es ps [t] in
     if more then
       let '(_, _, _, ps) := gettoken buf es ps in
       '(c2, ps) ← m ps;
       mret (f c c2, ps)
     else mret (c, ps)).
Proof.
  intros Hf H0 Hs Hc Hm. pose proof (peek_token ps t Hs) as Hp. destruct (peek buf es ps [t]) as [[] p1]; destruct Hp as (H1 & H2 & H3).
  - specialize (H3 eq_refl). destruct (gettoken buf es p1) as [[[tok q1] e1] p2]. destruct H3 as [H3 H4].
    eapply yields_bind; [by apply Hm|]. intros [c2 p3] [H5 H6]. cbn in H5. split; [cbn; lia|]. by apply two_ok.
  - unfold pos in *. split; [cbn; lia|done].
Qed.

Lemma parse_spec n :
  (forall ps, pos ps -> 4 * (es - ps) + 4 <= Z.of_nat n -> yields (parsed ps) (parseline buf es n ps)) /\
  (forall ps, pos ps -> 4 * (es - ps) + 3 <= Z.of_nat n -> yields (parsed ps) (parsepipe buf es n ps)) /\
  (forall ps, pos ps -> 4 * (es - ps) + 2 <= Z.of_nat n -> yields (parsed ps) (parseexec buf es n ps)) /\
  (forall ps, pos ps -> 4 * (es - ps) + 1 <= Z.of_nat n -> yields (parsed ps) (parseblock buf es n ps)).
Proof.
  induction n as [|n (IHl & IHp & IHe & IHb)].
  { unfold pos. repeat split; intros; lia. }
  repeat split; intros ps Hs Hn; cbn [parseline parsepipe parseexec parseblock].
  - eapply yields_bind; [apply IHp; [done|lia]|]. intros [c p1] [H1 H2]. cbn [fst snd] in *. unfold pos in *.
    eapply yields_bind; [apply parseback_spec; [unfold pos; lia|lia|done]|]. intros [c1 p2] [H3 H4]. cbn [fst snd] in *.
    apply (parse_rest listcmd); [by right|lia|unfold pos; lia|done|]. intros p Hp Hlt. apply IHl; [exact Hp|lia].
  - eapply yields_bind; [apply IHe; [done|lia]|]. intros [c p1] [H1 H2]. cbn [fst snd] in *. unfold pos in *.
    apply (parse_rest pipecmd); [by left|lia|unfold pos; lia|done|]. intros p Hp Hlt. apply IHp; [exact Hp|lia].
  - pose proof (peek_token ps 40 Hs) as Hp. destruct (peek buf es ps [40]) as [[] p1]; destruct Hp as (H1 & H2 & _).
    { eapply yields_mono; [intros r; by apply (parsed_le ps p1)|]. apply IHb; [done|lia]. }
    unfold pos in *. eapply yields_bind; [apply (parseredirs_spec _ p1); [unfold pos; lia|lia]|]. intros [rs p2] [H3 H4].
    eapply yields_bind; [apply (parseargs_spec _ 0 p2); [unfold pos; lia|lia|unfold MAXARGS; lia]|].
    intros [[argv rs2] p3] (H5 & H6 & H7 & H8). split; [cbn; lia|]. apply wrap_ok; [by split|by apply Forall_app].
  - pose proof (peek_token ps 40 Hs) as Hp. destruct (peek buf es ps [40]) as [[] p1]; destruct Hp as (H1 & H2 & H3); [|done].
    cbn [negb]. specialize (H3 eq_refl). destruct (gettoken buf es p1) as [[[tok q1] e1] p2]. destruct H3 as [H3 H4].
    eapply yields_bind; [apply IHl; [done|lia]|]. intros [c p3] [H5 H6]. cbn [fst snd] in *. unfold pos in *.
    pose proof (peek_token p3 41 ltac:(unfold pos; lia)) as Hp. destruct (peek buf es p3 [41]) as [[] p4]; destruct Hp as (H7 & H8 & H9); [|done].
    cbn [negb]. specialize (H9 eq_refl). destruct (gettoken buf es p4) as [[[tok4 q4] e4] p5]. destruct H9 as [H9 H10]. unfold pos in *.
    eapply yields_bind; [apply (parseredirs_spec _ p5); [unfold pos; lia|lia]|]. intros [rs p6] [H11 H12].
    split; [cbn; lia|]. by apply wrap_ok.
Qed.
End spec.

Lemma nulterminate_spec buf c i :
  nulterminate buf c i = if decide (i ∈ map snd (words c)) then 0 else buf i.
Proof.
  revert buf. induction c as [argv|c IH r|l IHl r IHr|l IHl r IHr|c IH]; intros buf; cbn [nulterminate words].
  - revert buf. induction argv as [|[q e] argv IH]; intros buf; [done|]. cbn. rewrite IH, fn_insert_case.
    repeat case_decide; set_solver.
  - rewrite fn_insert_case, IH, map_app. cbn. repeat case_decide; set_solver.
  - rewrite IHr, IHl, map_app. repeat case_decide; set_solver.
  - rewrite IHr, IHl, map_app. repeat case_decide; set_solver.
  - apply IH.
Qed.

(** A word is not damaged by the NULs after the others: these replace special
    characters, of which a word has none. *)
Lemma words_terminated buf s es c q e :
  (forall w, w ∈ words c -> word buf s es w) -> (q, e) ∈ words c ->
  s <= q < e /\ e <= es /\ (forall i, q <= i < e -> special (buf i) = false) /\ special (buf e) = true /\
  nul_at (nulterminate buf c) q (e - q) /\ forall i, q <= i < e -> nulterminate buf c i = buf i.
Proof.
  intros Hw Hin. destruct (Hw _ Hin) as (W1 & W2 & W3 & W4). cbn in *.
  assert (forall i, q <= i < e -> nulterminate buf c i = buf i) as Hsame.
  { intros i Hi. rewrite nulterminate_spec. case_decide as He; [|done].
    apply list_elem_of_fmap in He as ([q' e'] & -> & He). destruct (Hw _ He) as (_ & _ & _ & W5).
    cbn in *. by rewrite W3 in W5. }
  do 4 (split; [done|]). split; [|done]. split; [lia|]. split.
  - replace (q + (e - q)) with e by lia. rewrite nulterminate_spec, decide_True; [done|].
    apply list_elem_of_fmap. by exists (q, e).
  - intros i Hi. rewrite Hsame by lia. apply special_plain, W3. lia.
Qed.

Lemma parsecmd_spec fuel buf s k :
  nul_at buf s k -> k < Z.of_nat fuel ->
  exists r, parsecmd fuel buf s = Some r /\
    match r with
    | POk (inl (c, buf')) =>
        args_fit c /\
        (forall q e, (q, e) ∈ words c -> s <= q < e /\ e <= s + k /\
           (forall i, q <= i < e -> special (buf i) = false) /\ special (buf e) = true /\
           nul_at buf' q (e - q) /\ forall i, q <= i < e -> buf' i = buf i) /\
        (forall i, i < s \/ s + k < i -> buf' i = buf i)
    | POk (inr p) => s <= p <= s + k
    | PPanic _ => True
    | PFuel => False
    end.
Proof.
  intros Hk Hf. unfold parsecmd. rewrite (strlen_nul_at fuel buf s k Hk Hf). cbn [mbind option_bind]. eexists. split; [done|].
  destruct Hk as (Hk & Hnul & Hstr). set (es := s + k) in *.
  assert (forall i, s <= i < es -> buf i <> 0) as Hstr'.
  { intros i Hi. replace i with (s + (i - s)) by lia. apply Hstr. lia. }
  destruct (parse_spec buf s es Hnul Hstr' (4 * Z.to_nat k + 4)) as (Hl & _).
  specialize (Hl s ltac:(unfold pos; lia) ltac:(lia)).
  destruct (parseline buf es _ s) as [[c p]|msg|]; [|done|done]. destruct Hl as [Hp [Hw Ha]]. cbn [fst snd] in *.
  cbn [mbind pres_bind]. pose proof (peek_spec buf s es Hnul p [] Hp) as Hpk. destruct (peek buf es p []) as [found p1].
  destruct (p1 =? es); cbn [negb]; [|cbn; lia].
  split; [done|]. rewrite Forall_forall in Hw. split.
  - intros q e Hin. by apply (words_terminated buf s es).
  - intros i Hi. rewrite nulterminate_spec. case_decide as Hin; [|done].
    apply list_elem_of_fmap in Hin as ([q e] & -> & Hin). destruct (Hw _ Hin) as (W1 & W2 & _). cbn in *. lia.
Qed.

(** C32: Parsing a line always ends, with a command, or with a [panic] (after a message
    that shows the rest of the line when something is left over).  In a command
    every word (argument or file name) lies within the line, has no blank and no special
    character in it, and goes up to a blank, a special character or the end of the
    line; after [nulterminate] it is a NUL-terminated string with exactly the characters
    it has in the line.  Nothing outside the line is written, no [argv] is overrun, and only descriptors
    0 and 1 are redirected. *)
Theorem parsecmd_correct fuel buf s k :
  nul_at buf s k -> k < Z.of_nat fuel ->
  exists r, parsecmd fuel buf s = Some r /\
    match r with
    | POk (inl (c, buf')) =>
        args_fit c /\
        (forall q e, (q, e) ∈ words c -> s <= q < e /\ e <= s + k /\
           (forall i, q <= i < e -> special (buf i) = false) /\ special (buf e) = true /\
           nul_at buf' q (e - q) /\ forall i, q <= i < e -> buf' i = buf i) /\
        (forall i, i < s \/ s + k < i -> buf' i = buf i)
    | POk (inr p) => s <= p <= s + k
    | PPanic _ => True
    | PFuel => False
    end.
Proof. apply parsecmd_spec. Qed.

(** ** Instances *)

(** [ab c|(d>e)&] *)
Definition demo_line : bytes := bytes_of [97; 98; 32; 99; 124; 40; 100; 62; 101; 41; 38; 10].

Lemma parsecmd_correct_witness : exists c buf', parsecmd 100 demo_line 0 = Some (POk (inl (c, buf'))) /\ nul_at buf' 0 2.
Proof.
  destruct (parsecmd_correct 100 demo_line 0 12) as (r & E & H).
  - split; [done|]. split; [done|]. intros i Hi.
    assert (forallb (fun i => negb (demo_line (0 + i) =? 0)) (seqZ 0 12) = true) as Hf by (vm_compute; reflexivity).
    rewrite forallb_forall in Hf. apply Z.eqb_neq, negb_true_iff, Hf, list_elem_of_In, elem_of_seqZ. lia.
  - done.
  - assert (match parsecmd 100 demo_line 0 with Some (POk (inl (c, _))) => Some c | _ => None end =
      Some (backcmd (pipecmd (execcmd [(0, 2); (3, 4)]) (redircmd (execcmd [(6, 7)]) (Redir_ 8 9 1537 1))))) as Ec
      by (vm_compute; reflexivity).
    rewrite E in Ec. destruct r as [[[c buf']|]| |]; [|discriminate Ec..]. injection Ec as ->.
    exists (backcmd (pipecmd (execcmd [(0, 2); (3, 4)]) (redircmd (execcmd [(6, 7)]) (Redir_ 8 9 1537 1)))), buf'.
    split; [exact E|]. destruct H as (_ & H & _). apply (H 0 2). by left.
Defined.
