(* ===== verification/ShRun.v ===== *)
(** * The shell: execution (user/sh.c)

    [runcmd] forks and rearranges file descriptors for a parsed command; [main] reads
    lines and runs them.  A pointer to a word of the line is its position in the buffer,
    where [nulterminate] has made it a C string.

    The theorem compares [runcmd] with [denote], the meaning of a command: which programs
    run, with which descriptors, in which processes, and what is waited for. *)
From S2P Require Export Ulib Sh.

Section runcmd.
(** The buffer with the words of the command. *)
Context (buf : bytes).

(** The string of a word: from its first character to the NUL. *)
Definition word_str (w : Z * Z) : list Z := cstr (Z.to_nat (w.2 - w.1)) buf w.1.

Definition panic {A} (s : string) : prog A := fprintf 2 (line "%s") [va_str (Some (chars s))];; exit 1.

Definition fork1 : prog Z :=
  pid ← call Fork;
  if pid =? -1 then panic "fork" else Ret pid.

Fixpoint runcmd (c : cmd) : prog unit :=
  match c with
  | execcmd [] => exit 1
  | execcmd (w :: ws) =>
      call (Exec (word_str w) (map word_str (w :: ws)));;
      fprintf 2 (line "exec %s failed") [va_str (Some (word_str w))];;
      exit 0
  | redircmd c r =>
      let file := word_str (r.(r_file), r.(r_efile)) in
      call (Close r.(r_fd));;
      fd ← call (Open file r.(r_mode));
      (if fd <? 0 then fprintf 2 (line "open %s failed") [va_str (Some file)];; exit 1 else Ret tt);;
      runcmd c;;
      exit 0
  | listcmd lcmd rcmd =>
      pid ← fork1;
      (if pid =? 0 then runcmd lcmd else Ret tt);;
      call Wait;;
      runcmd rcmd;;
      exit 0
  | pipecmd lcmd rcmd =>
      '(r, (p0, p1)) ← call Pipe;
      (if r <? 0 then panic "pipe" else Ret tt);;
      pid ← fork1;
      (if pid =? 0 then
         call (Close 1);;
         call (Dup p1);;
         call (Close p0);;
         call (Close p1);;
         runcmd lcmd
       else Ret tt);;
      pid ← fork1;
      (if pid =? 0 then
         call (Close 0);;
         call (Dup p0);;
         call (Close p0);;
         call (Close p1);;
         runcmd rcmd
       else Ret tt);;
      call (Close p0);;
      call (Close p1);;
      call Wait;;
      call Wait;;
      exit 0
  | backcmd c =>
      pid ← fork1;
      (if pid =? 0 then runcmd c else Ret tt);;
      exit 0
  end.
End runcmd.

(** ** Reading commands *)

Definition getcmd (buf : bytes) (nbuf : Z) : prog (Z * bytes) :=
  call (Write 2 (chars "$ "));;
  let buf := memset buf 0 0 nbuf in
  buf ← gets buf nbuf;
  if buf 0 =? 0 then Ret (-1, buf) else Ret (0, buf).

Definition O_RDWR : Z := 0x002.

(** Descriptors are opened until one is above 2. *)
Fixpoint open_console (fuel : nat) : prog unit :=
  match fuel with
  | O => Nofuel
  | S fuel =>
      fd ← call (Open (chars "console") O_RDWR);
      if 0 <=? fd then if 3 <=? fd then call (Close fd);; Ret tt else open_console fuel
      else Ret tt
  end.

Definition sizeof_buf : Z := 100.

(** What the child does with a line: [runcmd(parsecmd(buf))]. *)
Definition run_line (buf : bytes) : prog unit :=
  match parsecmd (Z.to_nat sizeof_buf) buf 0 with
  | Some (POk (inl (c, buf))) => runcmd buf c
  | Some (POk (inr s)) =>
      fprintf 2 (line "leftovers: %s") [va_str (Some (cstr (Z.to_nat sizeof_buf) buf s))];;
      panic "syntax"
  | Some (PPanic msg) => panic msg
  | Some PFuel | None => Nofuel
  end.

Fixpoint sh_loop (fuel : nat) (buf : bytes) : prog unit :=
  match fuel with
  | O => Nofuel
  | S fuel =>
      '(r, buf) ← getcmd buf sizeof_buf;
      if r <? 0 then Ret tt else
      if (buf 0 =? 99) && (buf 1 =? 100) && (buf 2 =? 32) then
        match strlen (Z.to_nat sizeof_buf) buf 0 with
        | None => Nofuel
        | Some len =>
            let buf := <[len - 1 := 0]> buf in
            let dir := cstr (Z.to_nat sizeof_buf) buf 3 in
            r ← call (Chdir dir);
            (if r <? 0 then fprintf 2 (line "cannot cd %s") [va_str (Some dir)] else Ret tt);;
            sh_loop fuel buf
        end
      else
        pid ← fork1;
        (if pid =? 0 then run_line buf else Ret tt);;
        call Wait;;
        sh_loop fuel buf
  end.

(** [buf] is a static array, zero at the start; 16 descriptors can be opened. *)
Definition sh_main (fuel : nat) : prog unit :=
  open_console 17;;
  sh_loop fuel (fun _ => 0);;
  exit 0.

(** The line that [getcmd] returns is a string that fits in the buffer, as [parsecmd]
    needs it. *)
Lemma getcmd_line buf : always (fun '(_, buf') => exists k, 0 <= k < sizeof_buf /\ nul_at buf' 0 k) (getcmd buf sizeof_buf).
Proof.
  intros w. cbn [mbind prog_bind]. eapply always_bind; [apply gets_nul; unfold sizeof_buf; lia|].
  intros buf' Hb. by destruct (buf' 0 =? 0).
Qed.

(** ** The system that the shell runs on

    A process has a table of descriptors, for objects, and a name: the numbers of the
    forks that lead to it from the shell.  Each pipe has a name as well, that of the
    process that made it with the number of the call. *)
Inductive obj :=
| Inherited (n : Z)
| File (path : list Z) (mode : Z)
| PipeRead (who : list nat) (n : nat)
| PipeWrite (who : list nat) (n : nat).

Record proc := Proc { tbl : list (option obj); who : list nat; made : nat }.

Inductive pevent :=
| Execs (path : list Z) (argv : list (list Z)) (t : list (option obj))
| Exits (status : Z)
| Waits
| Writes (o : obj) (data : list Z).

Definition fd_get (t : list (option obj)) (fd : Z) : option obj :=
  if fd <? 0 then None else mjoin (t !! Z.to_nat fd).

(** The lowest free descriptor. *)
Definition fd_new (t : list (option obj)) : option nat := fst <$> list_find (fun o => o = None) t.

Section system.
(** Which files can be opened and executed, and which forks and pipes succeed. *)
Context (can_open : list Z -> Z -> bool) (can_exec : list Z -> bool) (fork_ok pipe_ok : list nat -> nat -> bool).

Definition serve (R : Type) (e : sys R) (p : proc) : ans proc pevent R :=
  match e in sys R return ans proc pevent R with
  | Fork =>
      if fork_ok p.(who) p.(made)
      then Both 0 (Proc p.(tbl) (p.(made) :: p.(who)) 0) (Z.of_nat p.(made) + 1) (Proc p.(tbl) p.(who) (S p.(made)))
      else Go (-1) p
  | Exit status => Stop (Exits status)
  | Wait => Emit Waits 1 p
  | Pipe =>
      match (if pipe_ok p.(who) p.(made) then fd_new p.(tbl) else None) with
      | None => Go (-1, (0, 0)) p
      | Some a =>
          let t := <[a := Some (PipeRead p.(who) p.(made))]> p.(tbl) in
          match fd_new t with
          | None => Go (-1, (0, 0)) p
          | Some b =>
              Go (0, (Z.of_nat a, Z.of_nat b)) (Proc (<[b := Some (PipeWrite p.(who) p.(made))]> t) p.(who) (S p.(made)))
          end
      end
  | Write fd data =>
      match fd_get p.(tbl) fd with None => Go (-1) p | Some o => Emit (Writes o data) (Z.of_nat (length data)) p end
  | Close fd =>
      match fd_get p.(tbl) fd with
      | None => Go (-1) p
      | Some _ => Go 0 (Proc (<[Z.to_nat fd := None]> p.(tbl)) p.(who) p.(made))
      end
  | Dup fd =>
      match fd_get p.(tbl) fd, fd_new p.(tbl) with
      | Some o, Some n => Go (Z.of_nat n) (Proc (<[n := Some o]> p.(tbl)) p.(who) p.(made))
      | _, _ => Go (-1) p
      end
  | Open path mode =>
      match (if can_open path mode then fd_new p.(tbl) else None) with
      | Some n => Go (Z.of_nat n) (Proc (<[n := Some (File path mode)]> p.(tbl)) p.(who) p.(made))
      | None => Go (-1) p
      end
  | Exec path argv => if can_exec path then Stop (Execs path argv p.(tbl)) else Go (-1) p
  | Read _ _ => Go (-1, []) p
  | Wait_status => Go (-1, None) p
  | Store _ _ _ => Go tt p
  | Fstat _ => Go (-1, Stat 0 0 0 0 0) p
  | _ => Go (-1) p
  end.

(** ** The meaning of a command *)

Notation tree := (ptree proc pevent unit).

(** A message on descriptor 2. *)
Definition say {A} (t : list (option obj)) (s : list Z) (k : ptree proc pevent A) : ptree proc pevent A :=
  match fd_get t 2 with Some o => emits (map (fun c => Writes o [u8 c]) s) k | None => k end.

Definition fails {A} (t : list (option obj)) (s : string) : ptree proc pevent A := say t (chars (line s)) (Leaf (Exits 1)).

Section denote.
Context (buf : bytes).

(** In a process with descriptors [t], name [w] and [n] calls of [fork] and [pipe] so far. *)
Fixpoint denote (c : cmd) (t : list (option obj)) (w : list nat) (n : nat) : tree :=
  match c with
  | execcmd [] => Leaf (Exits 1)
  | execcmd (a :: args) =>
      let path := word_str buf a in
      if can_exec path then Leaf (Execs path (map (word_str buf) (a :: args)) t)
      else say t (chars "exec " ++ path ++ chars (line " failed")) (Leaf (Exits 0))
  | redircmd c r =>
      let file := word_str buf (r.(r_file), r.(r_efile)) in
      if can_open file r.(r_mode) then denote c (<[Z.to_nat r.(r_fd) := Some (File file r.(r_mode))]> t) w n
      else say t (chars "open " ++ file ++ chars (line " failed")) (Leaf (Exits 1))
  | listcmd a b =>
      if fork_ok w n then Split (denote a t (n :: w) 0) (Node Waits (denote b t w (S n))) else fails t "fork"
  | pipecmd a b =>
      if negb (pipe_ok w n) then fails t "pipe"
      else if negb (fork_ok w (S n)) then fails t "fork"
      else
        Split (denote a (<[1%nat := Some (PipeWrite w n)]> t) (S n :: w) 0)
          (if negb (fork_ok w (S (S n))) then fails t "fork"
           else Split (denote b (<[0%nat := Some (PipeRead w n)]> t) (S (S n) :: w) 0)
                  (Node Waits (Node Waits (Leaf (Exits 0)))))
  | backcmd c => if fork_ok w n then Split (denote c t (n :: w) 0) (Leaf (Exits 0)) else fails t "fork"
  end.
End denote.

(** *** Messages and forks *)

Notation runs p w := (run serve p w).

Lemma run_message s p : runs (puts 2 s) p = say p.(tbl) s (Done tt p).
Proof.
  unfold say. induction s as [|c s IH]; [by destruct (fd_get (tbl p) 2)|]. rewrite puts_cons. cbn [run serve].
  destruct (fd_get (tbl p) 2); [|done]. cbn. by rewrite IH.
Qed.

Lemma then_say {A B} t s (k : ptree proc pevent A) (f : A -> proc -> ptree proc pevent B) :
  then_ (say t s k) f = say t s (then_ k f).
Proof. unfold say. destruct (fd_get t 2); [apply then_emits|done]. Qed.

(** A message, then the end of the process. *)
Lemma run_leave {A} fmt ap l st p : format (chars fmt) false ap = Some l ->
  runs (fprintf 2 fmt ap;; exit st : prog A) p = say p.(tbl) l (Leaf (Exits st)).
Proof.
  intros E. rewrite run_bind. unfold fprintf, vprintf. rewrite (vprintf_format _ _ _ _ _ E), run_message, then_say. done.
Qed.

Lemma chars_line s : chars (line s) = chars s ++ [10].
Proof.
  unfold line, chars. induction s as [|c s IH]; [done|].
  change (String c s +:+ nl) with (String c (s +:+ nl)). cbn [String.list_ascii_of_string map app]. by rewrite IH.
Qed.

Lemma run_panic {A} (s : string) p : runs (panic s : prog A) p = fails p.(tbl) s.
Proof. unfold fails. rewrite chars_line. by apply run_leave. Qed.

Lemma then_fails {A B} t s (f : A -> proc -> ptree proc pevent B) : then_ (fails t s) f = fails t s.
Proof. unfold fails. by rewrite then_say. Qed.

Lemma run_fork1 (k : Z -> prog unit) p :
  runs (fork1 ≫= k) p =
  if fork_ok p.(who) p.(made)
  then Split (runs (k 0) (Proc p.(tbl) (p.(made) :: p.(who)) 0)) (runs (k (Z.of_nat p.(made) + 1)) (Proc p.(tbl) p.(who) (S p.(made))))
  else fails p.(tbl) "fork".
Proof.
  rewrite run_bind. unfold fork1. rewrite run_bind. unfold call. cbn [run serve]. destruct (fork_ok _ _).
  - cbn [then_]. rewrite (proj2 (Z.eqb_neq (Z.of_nat (made p) + 1) (-1))) by lia. done.
  - cbn [then_]. change (-1 =? -1) with true. cbv iota. rewrite run_panic. apply then_fails.
Qed.

(** No behaviour of a command returns. *)
Lemma then_denote buf c t w n f : then_ (denote buf c t w n) f = denote buf c t w n.
Proof.
  revert t w n. induction c as [[|a args]|c IH r|a IHa b IHb|a IHa b IHb|c IH]; intros t w n; cbn [denote]; try done.
  - destruct (can_exec _); [done|]. by rewrite then_say.
  - destruct (can_open _ _); [apply IH|]. by rewrite then_say.
  - destruct (pipe_ok w n); cbn [negb]; [|apply then_fails]. destruct (fork_ok w (S n)); cbn [negb]; [|apply then_fails].
    cbn [then_]. rewrite IHa. f_equal. destruct (fork_ok w (S (S n))); cbn [negb]; [|apply then_fails]. cbn. by rewrite IHb.
  - destruct (fork_ok w n); [|apply then_fails]. cbn. by rewrite IHa, IHb.
  - destruct (fork_ok w n); [|apply then_fails]. cbn. by rewrite IH.
Qed.

(** *** Descriptors *)

(** Descriptors 0 to 2 are open, [a] is the lowest free one and [b] the next. *)
Record room (t : list (option obj)) (a b : nat) : Prop := {
  rm_a : t !! a = Some None;
  rm_b : t !! b = Some None;
  rm_lt : (3 <= a < b)%nat;
  rm_open : forall i, (i < b)%nat -> i <> a -> exists o, t !! i = Some (Some o);
}.

Lemma fd_new_at t a : t !! a = Some None -> (forall i, (i < a)%nat -> exists o, t !! i = Some (Some o)) -> fd_new t = Some a.
Proof.
  intros Ha Hb. unfold fd_new. rewrite (proj2 (list_find_Some _ _ a None)); [done|].
  split; [done|]. split; [done|]. intros j y Hj Hlt ->. destruct (Hb j Hlt) as [o Ho]. congruence.
Qed.

Lemma fd_get_lookup t (i : nat) o : t !! i = Some (Some o) -> fd_get t (Z.of_nat i) = Some o.
Proof. intros H. unfold fd_get. rewrite (proj2 (Z.ltb_ge _ 0)), Nat2Z.id, H by lia. done. Qed.

Lemma insert_case (t : list (option obj)) i j x : (i < length t)%nat -> <[i := x]> t !! j = if decide (i = j) then Some x else t !! j.
Proof. intros Hi. case_decide as E; [subst; by apply list_lookup_insert_eq|by apply list_lookup_insert_ne]. Qed.

Lemma room_insert t a b i o : room t a b -> (i < 3)%nat -> room (<[i := Some o]> t) a b.
Proof.
  intros [Ra Rb Rl Ro] Hi. split; [by rewrite list_lookup_insert_ne by lia|by rewrite list_lookup_insert_ne by lia|done|].
  intros j Hj Hne. pose proof (lookup_lt_Some _ _ _ Ra). rewrite insert_case by lia. case_decide; [by eexists|by apply Ro].
Qed.

(** [close(i)] and then [dup] or [open], for a standard descriptor [i]: the new object
    takes its place. *)
Lemma reopen t a b i : room t a b -> (i < 3)%nat -> fd_new (<[i := None]> t) = Some i.
Proof.
  intros [Ra Rb Rl Ro] Hi. pose proof (lookup_lt_Some _ _ _ Ra). apply fd_new_at.
  - by apply list_lookup_insert_eq; lia.
  - intros j Hj. rewrite list_lookup_insert_ne by lia. apply Ro; lia.
Qed.

(** The descriptors of one side of a pipeline. *)
Lemma pipe_side t a b i (x y o : option obj) : room t a b -> (i < 3)%nat ->
  <[b := None]> (<[a := None]> (<[i := o]> (<[i := None]> (<[b := x]> (<[a := y]> t))))) = <[i := o]> t.
Proof.
  intros [Ra Rb Rl Ro] Hi. pose proof (lookup_lt_Some _ _ _ Rb). apply list_eq. intros j.
  rewrite !insert_case by (rewrite ?length_insert; lia). repeat case_decide; try done; subst; try lia; congruence.
Qed.

Lemma run_close {A} (i : nat) (k : prog A) p o : p.(tbl) !! i = Some (Some o) ->
  runs (call (Close (Z.of_nat i));; k) p = runs k (Proc (<[i := None]> p.(tbl)) p.(who) p.(made)).
Proof. intros H. rewrite run_bind. unfold call. cbn [run serve]. by rewrite (fd_get_lookup _ _ _ H), Nat2Z.id. Qed.

(** The child for one side of a pipeline moves the end [src] of the pipe to the standard
    descriptor [i] and closes both ends. *)
Lemma run_side {A} t a b i (src : nat) x y o w n (k : prog A) (T := <[b := Some y]> (<[a := Some x]> t)) :
  room t a b -> (i < 3)%nat -> T !! src = Some (Some o) -> (3 <= src)%nat ->
  runs (call (Close (Z.of_nat i));; call (Dup (Z.of_nat src));; call (Close (Z.of_nat a));; call (Close (Z.of_nat b));; k) (Proc T w n) =
  runs k (Proc (<[i := Some o]> t) w n).
Proof.
  intros R Hi Hsrc Hs. pose proof R as [Ra Rb Rl Ro]. pose proof (lookup_lt_Some _ _ _ Rb) as Hlen.
  assert (length T = length t) as HT by (unfold T; by rewrite !length_insert).
  assert (forall j, T !! j = if decide (b = j) then Some (Some y) else if decide (a = j) then Some (Some x) else t !! j) as HTj.
  { intros j. unfold T. rewrite insert_case by (rewrite length_insert; lia). case_decide; [done|]. apply insert_case. lia. }
  destruct (Ro i ltac:(lia) ltac:(lia)) as [oi Hoi].
  rewrite (run_close i _ (Proc T w n) oi) by (cbn; rewrite HTj, !decide_False by lia; done). cbn [tbl who made].
  rewrite run_bind. unfold call at 1. cbn [run serve tbl who made].
  rewrite (fd_get_lookup _ src o) by (rewrite list_lookup_insert_ne by lia; done).
  rewrite (fd_new_at _ i); [|apply list_lookup_insert_eq; lia|]; last first.
  { intros j Hj. rewrite list_lookup_insert_ne, HTj, !decide_False by lia. apply Ro; lia. }
  cbn [then_ run]. rewrite (run_close a _ _ x); cbn [tbl]; [|rewrite !list_lookup_insert_ne, HTj by lia; rewrite decide_False, decide_True by lia; done].
  cbn [tbl who made].
  rewrite (run_close b _ _ y); cbn [tbl]; [|rewrite !list_lookup_insert_ne, HTj by lia; rewrite decide_True by lia; done].
  cbn [tbl who made]. unfold T. by rewrite (pipe_side t a b i).
Qed.

(** What follows a child that runs a command. *)
Lemma run_child buf c p (k : prog unit) t w n : runs (runcmd buf c) p = denote buf c t w n ->
  runs (runcmd buf c;; k) p = denote buf c t w n.
Proof. intros E. by rewrite run_bind, E, then_denote. Qed.

Lemma run_pipe (k : Z * (Z * Z) -> prog unit) t a b w n : room t a b -> pipe_ok w n = true ->
  runs (call Pipe ≫= k) (Proc t w n) =
  runs (k (0, (Z.of_nat a, Z.of_nat b))) (Proc (<[b := Some (PipeWrite w n)]> (<[a := Some (PipeRead w n)]> t)) w (S n)).
Proof.
  intros [Ra Rb Rl Ro] Hp. pose proof (lookup_lt_Some _ _ _ Rb). rewrite run_bind. unfold call. cbn [run serve who made tbl].
  rewrite Hp, (fd_new_at t a Ra), (fd_new_at _ b); [done| | |].
  - by rewrite list_lookup_insert_ne by lia.
  - intros i Hi. rewrite insert_case by lia. case_decide; [by eexists|]. apply Ro; lia.
  - intros i Hi. apply Ro; lia.
Qed.

Lemma denote_redir buf c t w n a b r : room t a b -> 0 <= r.(r_fd) <= 1 ->
  (forall t, room t a b -> runs (runcmd buf c) (Proc t w n) = denote buf c t w n) ->
  runs (runcmd buf (redircmd c r)) (Proc t w n) = denote buf (redircmd c r) t w n.
Proof.
  intros R Hfd IH. cbn [runcmd denote]. set (file := word_str buf _).
  destruct (rm_open _ _ _ R (Z.to_nat r.(r_fd))) as [o Ho]; [pose proof (rm_lt _ _ _ R); lia..|].
  replace (Close r.(r_fd)) with (Close (Z.of_nat (Z.to_nat r.(r_fd)))) by (f_equal; lia).
  rewrite (run_close _ _ _ o) by done. cbn [tbl who made]. rewrite run_bind. unfold call at 1. cbn [run serve tbl who made].
  destruct (can_open file (r_mode r)); cbn [then_].
  - rewrite (reopen t a b) by (done || lia). cbn [then_]. rewrite (proj2 (Z.ltb_ge _ 0)) by lia.
    rewrite run_bind. cbn [run then_]. rewrite list_insert_insert_eq.
    apply run_child, IH, room_insert; [done|lia].
  - change (-1 <? 0) with true. cbv iota. rewrite run_bind.
    rewrite (run_leave _ _ (chars "open " ++ file ++ chars (line " failed"))) by done. cbn [tbl]. rewrite then_say. cbn [then_].
    unfold say. pose proof (rm_lt _ _ _ R). destruct (rm_open _ _ _ R 2) as [o2 Ho2]; [lia..|].
    rewrite !(fd_get_lookup _ 2 o2); [done|done|]. rewrite list_lookup_insert_ne by lia. done.
Qed.

Lemma denote_pipe buf c1 c2 t w n a b : room t a b ->
  (forall t w n, room t a b -> runs (runcmd buf c1) (Proc t w n) = denote buf c1 t w n) ->
  (forall t w n, room t a b -> runs (runcmd buf c2) (Proc t w n) = denote buf c2 t w n) ->
  runs (runcmd buf (pipecmd c1 c2)) (Proc t w n) = denote buf (pipecmd c1 c2) t w n.
Proof.
  intros R IH1 IH2. pose proof R as [Ra Rb Rl Ro]. pose proof (lookup_lt_Some _ _ _ Rb) as Hb. cbn [runcmd denote].
  destruct (pipe_ok w n) eqn:Ep; cbn [negb]; last first.
  { rewrite run_bind. unfold call at 1. cbn [run serve who made]. rewrite Ep. cbn [then_]. change (-1 <? 0) with true. cbv iota.
    rewrite run_bind, run_panic. apply then_fails. }
  rewrite (run_pipe _ t a b) by done. change (0 <? 0) with false. cbv iota. rewrite run_bind. cbn [run then_].
  set (T := <[b := Some (PipeWrite w n)]> (<[a := Some (PipeRead w n)]> t)).
  assert (T !! a = Some (Some (PipeRead w n)) /\ T !! b = Some (Some (PipeWrite w n))) as [HTa HTb].
  { unfold T. split; [rewrite list_lookup_insert_ne by lia|]; apply list_lookup_insert_eq; rewrite ?length_insert; lia. }
  assert (forall s, fails T s = @fails unit t s) as Hfails.
  { intros s. unfold fails, say. destruct (Ro 2%nat ltac:(lia) ltac:(lia)) as [o2 Ho2].
    rewrite !(fd_get_lookup _ 2 o2); [done|done|]. unfold T. rewrite !list_lookup_insert_ne by lia. done. }
  rewrite run_fork1. cbn [who made tbl]. destruct (fork_ok w (S n)); cbn [negb]; [|apply Hfails]. f_equal.
  - change (0 =? 0) with true. cbv iota. rewrite run_bind.
    rewrite (run_side t a b 1 b _ _ _ _ _ _ R ltac:(lia) HTb ltac:(lia)).
    rewrite IH1 by (apply room_insert; [done|lia]). apply then_denote.
  - rewrite (proj2 (Z.eqb_neq _ 0)) by lia. rewrite run_bind. cbn [run then_]. rewrite run_fork1. cbn [who made tbl].
    destruct (fork_ok w (S (S n))); cbn [negb]; [|apply Hfails]. f_equal.
    + change (0 =? 0) with true. cbv iota. rewrite run_bind.
      rewrite (run_side t a b 0 a _ _ _ _ _ _ R ltac:(lia) HTa ltac:(lia)).
      rewrite IH2 by (apply room_insert; [done|lia]). apply then_denote.
    + rewrite (proj2 (Z.eqb_neq _ 0)) by lia. rewrite run_bind. cbn [run then_].
      rewrite (run_close a _ _ (PipeRead w n)), (run_close b _ _ (PipeWrite w n)); [done| |done].
      cbn [tbl]. by rewrite list_lookup_insert_ne by lia.
Qed.

Lemma runcmd_denote buf c t w n a b : room t a b -> args_fit c -> runs (runcmd buf c) (Proc t w n) = denote buf c t w n.
Proof.
  revert t w n. induction c as [[|x args]|c IH r|c1 IH1 c2 IH2|c1 IH1 c2 IH2|c IH]; intros t w n R Hf; cbn [args_fit] in Hf.
  - done.
  - cbn [runcmd denote]. rewrite run_bind. unfold call at 1. cbn [run serve]. destruct (can_exec _); [done|]. cbn [then_].
    by rewrite (run_leave _ _ (chars "exec " ++ word_str buf x ++ chars (line " failed"))).
  - eapply denote_redir; [done|tauto|]. intros t' R'. apply IH; tauto.
  - eapply denote_pipe; [done|..]; intros; [apply IH1|apply IH2]; tauto.
  - cbn [runcmd denote]. rewrite run_fork1. cbn [who made tbl]. destruct (fork_ok w n); [|done]. f_equal.
    + change (0 =? 0) with true. cbv iota. apply run_child, IH1; tauto.
    + rewrite (proj2 (Z.eqb_neq _ 0)) by lia. rewrite run_bind. cbn [run then_]. rewrite run_bind. unfold call at 1. cbn [run serve then_].
      f_equal. apply run_child, IH2; tauto.
  - cbn [runcmd denote]. rewrite run_fork1. cbn [who made tbl]. destruct (fork_ok w n); [|done]. f_equal.
    + change (0 =? 0) with true. cbv iota. apply run_child, IH; tauto.
    + rewrite (proj2 (Z.eqb_neq _ 0)) by lia. done.
Qed.
End system.

(** A word of the command is the string of its characters in the line. *)
Lemma word_str_read buf buf' q e : nul_at buf' q (e - q) -> (forall i, q <= i < e -> buf' i = buf i) ->
  word_str buf' (q, e) = read_bytes (Z.to_nat (e - q)) buf q.
Proof.
  intros (Hl & Hz & Hnz) Hs. unfold word_str. cbn [fst snd]. remember (Z.to_nat (e - q)) as m eqn:Em.
  revert q Em Hl Hz Hnz Hs. induction m as [|m IH]; intros q Em Hl Hz Hnz Hs; [done|]. cbn [cstr read_bytes].
  assert (buf' q <> 0) as Hq by (specialize (Hnz 0); rewrite Z.add_0_r in Hnz; apply Hnz; lia).
  rewrite (proj2 (ctrue_true _)), (Hs q) by (done || lia). f_equal. apply IH; [lia|lia| |..].
  - by replace (q + 1 + (e - (q + 1))) with (q + (e - q)) by lia.
  - intros i Hi. replace (q + 1 + i) with (q + (i + 1)) by lia. apply Hnz. lia.
  - intros i Hi. apply Hs. lia.
Qed.

(** C33: The process that the shell forks for a line of input behaves as the meaning of
    the command on that line.  Each program is executed with its words as arguments, in
    a process whose standard input and output are what the pipes and redirections of
    the command say, and whose other descriptors are those of the shell: no end of a
    pipe stays open in a process that does not use it.  Processes are waited for as
    the command says.  A line that is not a command, a file that cannot be opened or
    executed, and a failure of [fork] or [pipe] end the process with a message. *)
Theorem run_line_correct can_open can_exec fork_ok pipe_ok buf k t w n a b :
  nul_at buf 0 k -> k < sizeof_buf -> room t a b ->
  exists r, parsecmd (Z.to_nat sizeof_buf) buf 0 = Some r /\
    match r with
    | POk (inl (c, buf')) =>
        run (serve can_open can_exec fork_ok pipe_ok) (run_line buf) (Proc t w n) =
          denote can_open can_exec fork_ok pipe_ok buf' c t w n /\
        forall q e, (q, e) ∈ words c -> word_str buf' (q, e) = read_bytes (Z.to_nat (e - q)) buf q
    | POk (inr s) =>
        run (serve can_open can_exec fork_ok pipe_ok) (run_line buf) (Proc t w n) =
          say t (chars "leftovers: " ++ cstr (Z.to_nat sizeof_buf) buf s ++ [10]) (fails t "syntax")
    | PPanic msg => run (serve can_open can_exec fork_ok pipe_ok) (run_line buf) (Proc t w n) = fails t msg
    | PFuel => False
    end.
Proof.
  intros Hk Hs R. destruct (parsecmd_spec (Z.to_nat sizeof_buf) buf 0 k Hk) as (r & E & H); [lia|].
  exists r. split; [done|]. unfold run_line. rewrite E. destruct r as [[[c buf']|s]|msg|]; [|..|done].
  - destruct H as (Hf & Hw & _). split; [by eapply runcmd_denote|]. intros q e Hin.
    destruct (Hw q e Hin) as (_ & _ & _ & _ & H1 & H2). by apply word_str_read.
  - rewrite run_bind. unfold fprintf, vprintf.
    rewrite (vprintf_format _ _ _ _ (chars "leftovers: " ++ cstr (Z.to_nat sizeof_buf) buf s ++ [10])) by done.
    rewrite run_message, then_say. cbn [then_ tbl]. by rewrite run_panic.
  - by rewrite run_panic.
Qed.

(** The table of a shell with its three descriptors. *)
Definition demo_table : list (option obj) := [Some (Inherited 0); Some (Inherited 1); Some (Inherited 2)] ++ replicate 13 None.

Lemma demo_table_room : room demo_table 3 4.
Proof. split; [done|done|lia|]. intros i Hi Hne. destruct i as [|[|[|[|i]]]]; cbn; eauto; lia. Qed.

(** For [ab c|(d>e)&]: the child exits; its own child waits for the two sides. *)
Lemma run_line_correct_witness :
  run (serve (fun _ _ => true) (fun _ => true) (fun _ _ => true) (fun _ _ => true)) (run_line demo_line) (Proc demo_table [] 0) =
  Split
    (Split (Leaf (Execs [97; 98] [[97; 98]; [99]] (<[1%nat := Some (PipeWrite [0%nat] 0)]> demo_table)))
       (Split (Leaf (Execs [100] [[100]] (<[1%nat := Some (File [101] 1537)]> (<[0%nat := Some (PipeRead [0%nat] 0)]> demo_table))))
          (Node Waits (Node Waits (Leaf (Exits 0))))))
    (Leaf (Exits 0)).
Proof.
  destruct (run_line_correct (fun _ _ => true) (fun _ => true) (fun _ _ => true) (fun _ _ => true) demo_line 12 demo_table [] 0 3 4)
    as (r & E & H).
  - split; [done|]. split; [done|]. intros i Hi.
    assert (forallb (fun i => negb (demo_line (0 + i) =? 0)) (seqZ 0 12) = true) as Hf by (vm_compute; reflexivity).
    rewrite forallb_forall in Hf. apply Z.eqb_neq, negb_true_iff, Hf, list_elem_of_In, elem_of_seqZ. lia.
  - done.
  - exact demo_table_room.
  - assert (match parsecmd (Z.to_nat sizeof_buf) demo_line 0 with
        | Some (POk (inl (c, buf'))) => Some (denote (fun _ _ => true) (fun _ => true) (fun _ _ => true) (fun _ _ => true) buf' c demo_table [] 0)
        | _ => None
        end = Some (denote (fun _ _ => true) (fun _ => true) (fun _ _ => true) (fun _ _ => true) (nulterminate demo_line
          (backcmd (pipecmd (execcmd [(0, 2); (3, 4)]) (redircmd (execcmd [(6, 7)]) (Redir_ 8 9 1537 1)))))
          (backcmd (pipecmd (execcmd [(0, 2); (3, 4)]) (redircmd (execcmd [(6, 7)]) (Redir_ 8 9 1537 1)))) demo_table [] 0)) as Ec
      by (vm_compute; reflexivity).
    rewrite E in Ec. destruct r as [[[c buf']|]| |]; [|discriminate Ec..]. injection Ec as Ec. destruct H as [H _].
    rewrite H, Ec. vm_compute. reflexivity.
Defined.
