(* ===== verification/Uthread.v ===== *)
(** * User-level threads (user/uthread.c, user/uthread.h)

    The table of four threads, the current thread and [started] are the state.  A
    function returns, exits the process, or hands over to another thread ([Uswtch]
    with the two contexts); an access outside the table or through an invalid pointer
    is [Ufault].  The contexts are opaque: [uswtch] is assembly. *)
From S2P Require Export Prelude.

Definition STACK_SIZE : Z := 4000.
Definition MAX_UTHREADS : Z := 4.

Inductive sched_priority := LOW | MEDIUM | HIGH.
Inductive tstate := FREE | RUNNING | RUNNABLE.
#[global] Instance sched_priority_eq_dec : EqDecision sched_priority.
Proof. solve_decision. Defined.
#[global] Instance tstate_eq_dec : EqDecision tstate.
Proof. solve_decision. Defined.

(** The value of an enumeration constant, as [>] compares it. *)
Definition prio (p : sched_priority) : Z := match p with LOW => 0 | MEDIUM => 1 | HIGH => 2 end.

(** The registers of [struct context] that [uthread_create] sets; the others are
    only touched by [uswtch]. *)
Record ucontext := Ucontext { uc_ra : Z; uc_sp : Z }.
Record uthread := Uthread {
  u_id : Z;
  u_top : Z;  (* ustack[STACK_SIZE - 1] *)
  u_state : tstate;
  u_context : ucontext;
  u_priority : sched_priority
}.

Record ustate := Ustate {
  started : bool;
  uthreads_arr : Z -> uthread;
  curr_thread : option Z  (* an index of the table; [None]: null *)
}.

Definition eta_uthread (r : uthread) : uthread := Uthread r.(u_id) r.(u_top) r.(u_state) r.(u_context) r.(u_priority).
#[global] Instance set_u_id : Setter u_id := ltac:(setter eta_uthread u_id).
#[global] Instance set_u_top : Setter u_top := ltac:(setter eta_uthread u_top).
#[global] Instance set_u_state : Setter u_state := ltac:(setter eta_uthread u_state).
#[global] Instance set_u_context : Setter u_context := ltac:(setter eta_uthread u_context).
#[global] Instance set_u_priority : Setter u_priority := ltac:(setter eta_uthread u_priority).
Definition eta_ustate (r : ustate) : ustate := Ustate r.(started) r.(uthreads_arr) r.(curr_thread).
#[global] Instance set_started : Setter started := ltac:(setter eta_ustate started).
#[global] Instance set_uthreads_arr : Setter uthreads_arr := ltac:(setter eta_ustate uthreads_arr).
#[global] Instance set_curr_thread : Setter curr_thread := ltac:(setter eta_ustate curr_thread).

(** What [uswtch] saves into: the context of a thread or [garbageContext]. *)
Inductive saved := ctx_of (i : Z) | garbage.

Inductive ures :=
| Ureturn (r : Z) (s : ustate)
| Uswtch (from : saved) (to : Z) (s : ustate)
| Uexit (status : Z)
| Ufault.

Definition upd_uthread (i : Z) (f : uthread -> uthread) (s : ustate) : ustate :=
  s <| uthreads_arr ::= alter f i |>.

(** ** Creation *)

(** The first free entry. *)
Fixpoint find_free (arr : Z -> uthread) (n : nat) (i : Z) : option Z :=
  match n with
  | O => None
  | S n => if bool_decide ((arr i).(u_state) = FREE) then Some i else find_free arr n (i + 1)
  end.

(** [stack_top i] is the address [&uthreads_arr[i].ustack[STACK_SIZE]]; [exit_addr] that of
    [uthread_exit], of which a [char] keeps the low byte. *)
Definition uthread_create (stack_top : Z -> Z) (exit_addr : Z) (start_func : Z) (priority : sched_priority)
    (s : ustate) : ures :=
  match find_free s.(uthreads_arr) (Z.to_nat MAX_UTHREADS) 0 with
  | None => Ureturn (-1) s
  | Some i =>
      let s := s <| curr_thread := Some i |> in
      let s := upd_uthread i (fun u => u <| u_id := i |>) s in
      let s := upd_uthread i (fun u => u <| u_priority := priority |>) s in
      let s := upd_uthread i (fun u => u <| u_context := Ucontext start_func (stack_top i) |>) s in
      let s := upd_uthread i (fun u => u <| u_top := u8 exit_addr |>) s in
      let s := upd_uthread i (fun u => u <| u_state := RUNNABLE |>) s in
      Ureturn 0 s
  end.

(** ** Choosing the next thread *)

(** The loop of [uthread_yield], [uthread_exit] and [uthread_start_all]: [count] rounds from
    index [i], with the best thread so far.  [None] is an index outside the table. *)
Fixpoint pick (arr : Z -> uthread) (count : nat) (i : Z) (next : option Z) (max : sched_priority)
    : option (option Z) :=
  match count with
  | O => Some next
  | S count =>
      if negb ((0 <=? i) && (i <? MAX_UTHREADS)) then None else
      let u := arr i in
      if bool_decide (u.(u_state) = RUNNABLE) && (prio max <? prio u.(u_priority))
      then pick arr count ((i + 1) mod MAX_UTHREADS) (Some i) u.(u_priority)
      else pick arr count ((i + 1) mod MAX_UTHREADS) next max
  end.

Definition next_thread (s : ustate) (c : Z) : option (option Z) :=
  pick s.(uthreads_arr) (Z.to_nat MAX_UTHREADS) ((s.(uthreads_arr) c).(u_id) + 1) None LOW.

Definition uthread_yield (s : ustate) : ures :=
  match s.(curr_thread) with
  | None => Ufault
  | Some c =>
      match next_thread s c with
      | None => Ufault
      | Some None => Ureturn 0 s
      | Some (Some n) =>
          let s := upd_uthread c (fun u => u <| u_state := RUNNABLE |>) s in
          let s := upd_uthread n (fun u => u <| u_state := RUNNING |>) s in
          Uswtch (ctx_of c) n (s <| curr_thread := Some n |>)
      end
  end.

(** The line that [uthread_exit] prints on entry is not modelled. *)
Definition uthread_exit (s : ustate) : ures :=
  match s.(curr_thread) with
  | None => Ufault
  | Some c =>
      let s := upd_uthread c (fun u => u <| u_state := FREE |>) s in
      match next_thread s c with
      | None => Ufault
      | Some None => Uexit 0
      | Some (Some n) =>
          let s := upd_uthread n (fun u => u <| u_state := RUNNING |>) s in
          Uswtch (ctx_of c) n (s <| curr_thread := Some n |>)
      end
  end.

(** Without a thread to run, [next_thread] is the pointer 1. *)
Definition uthread_start_all (s : ustate) : ures :=
  if s.(started) then Ureturn (-1) s else
  let s := s <| started := true |> in
  match s.(curr_thread) with
  | None => Ufault
  | Some c =>
      match next_thread s c with
      | None | Some None => Ufault
      | Some (Some n) =>
          let s := upd_uthread n (fun u => u <| u_state := RUNNING |>) s in
          Uswtch garbage n (s <| curr_thread := Some n |>)
      end
  end.

Definition uthread_set_priority (priority : sched_priority) (s : ustate) : option (sched_priority * ustate) :=
  match s.(curr_thread) with
  | None => None
  | Some c => Some ((s.(uthreads_arr) c).(u_priority), upd_uthread c (fun u => u <| u_priority := priority |>) s)
  end.

Definition uthread_get_priority (s : ustate) : option sched_priority :=
  match s.(curr_thread) with None => None | Some c => Some (s.(uthreads_arr) c).(u_priority) end.

Definition uthread_self (s : ustate) : option Z := s.(curr_thread).

(** ** What the choice guarantees *)

Definition runnable (arr : Z -> uthread) (i : Z) : Prop := (arr i).(u_state) = RUNNABLE.
#[global] Instance runnable_dec arr i : Decision (runnable arr i) := decide ((arr i).(u_state) = RUNNABLE).
Definition prio_of (arr : Z -> uthread) (i : Z) : Z := prio (arr i).(u_priority).

Definition better (arr : Z -> uthread) (acc : option Z * sched_priority) (i : Z) : option Z * sched_priority :=
  if bool_decide (runnable arr i) && (prio acc.2 <? prio_of arr i) then (Some i, (arr i).(u_priority)) else acc.

Fixpoint orbit (n : nat) (i : Z) : list Z :=
  match n with O => [] | S n => i :: orbit n ((i + 1) mod MAX_UTHREADS) end.

Lemma pick_fold arr n i next max :
  Forall (fun j => 0 <= j < MAX_UTHREADS) (orbit n i) ->
  pick arr n i next max = Some (foldl (better arr) (next, max) (orbit n i)).1.
Proof.
  revert i next max. induction n as [|n IH]; intros i next max H; [done|]. cbn [pick orbit foldl].
  inversion H as [|? ? Hi Hl]; subst. rewrite (proj2 (andb_true_iff _ _)) by (split; [apply Z.leb_le|apply Z.ltb_lt]; lia).
  cbn [negb]. unfold better at 2. cbn [snd]. fold (prio_of arr i).
  replace (bool_decide (runnable arr i)) with (bool_decide ((arr i).(u_state) = RUNNABLE)) by by apply bool_decide_ext.
  destruct (_ && _); by apply IH.
Qed.

(** The best entry of a list: the first one of the highest priority. *)
Lemma fold_best arr l acc : let r := foldl (better arr) acc l in
  prio acc.2 <= prio r.2 /\ (forall i, i ∈ l -> runnable arr i -> prio_of arr i <= prio r.2) /\
  (r = acc \/ exists l1 n l2, l = l1 ++ n :: l2 /\ r = (Some n, (arr n).(u_priority)) /\ runnable arr n /\
     prio acc.2 < prio_of arr n /\ forall j, j ∈ l1 -> runnable arr j -> prio_of arr j < prio_of arr n).
Proof.
  revert acc. induction l as [|i l IH]; intros acc; cbn.
  { split; [lia|]. split; [|by left]. intros i Hi. by apply elem_of_nil in Hi. }
  destruct (IH (better arr acc i)) as (H1 & H2 & H3). set (r := foldl _ _ l) in *.
  unfold better in H1, H3. destruct (bool_decide (runnable arr i)) eqn:Er; cbn [andb] in *.
  - apply bool_decide_eq_true in Er. destruct (Z.ltb_spec (prio acc.2) (prio_of arr i)) as [Hl|Hl]; cbn [snd] in *.
    + fold (prio_of arr i) in H1, H3. split; [lia|]. split.
      { intros j [->|Hj]%elem_of_cons Hr; [done|by apply H2]. }
      right. destruct H3 as [->|(l1 & n & l2 & -> & -> & Hn & Hp & Hj)].
      * exists [], i, l. split; [done|]. split; [done|]. split; [done|]. split; [done|]. intros j Hj. by apply elem_of_nil in Hj.
      * exists (i :: l1), n, l2. split; [done|]. split; [done|]. split; [done|]. split; [lia|].
        intros j [->|Hj']%elem_of_cons Hr; [done|by apply Hj].
    + split; [lia|]. split. { intros j [->|Hj]%elem_of_cons Hr; [lia|by apply H2]. }
      destruct H3 as [->|(l1 & n & l2 & -> & -> & Hn & Hp & Hj)]; [by left|]. right.
      exists (i :: l1), n, l2. split; [done|]. split; [done|]. split; [done|]. split; [done|].
      intros j [->|Hj']%elem_of_cons Hr; [lia|by apply Hj].
  - apply bool_decide_eq_false in Er. split; [lia|]. split.
    { intros j [->|Hj]%elem_of_cons Hr; [done|by apply H2]. }
    destruct H3 as [->|(l1 & n & l2 & -> & -> & Hn & Hp & Hj)]; [by left|]. right.
    exists (i :: l1), n, l2. split; [done|]. split; [done|]. split; [done|]. split; [done|].
    intros j [->|Hj']%elem_of_cons Hr; [done|by apply Hj].
Qed.

(** The state while threads run: the current thread is RUNNING and no other, and each
    thread in use has its index as id. *)
Record uthreads_ok (s : ustate) (c : Z) : Prop := {
  uk_curr : s.(curr_thread) = Some c;
  uk_range : 0 <= c < MAX_UTHREADS;
  uk_id : forall i, 0 <= i < MAX_UTHREADS -> (s.(uthreads_arr) i).(u_state) <> FREE -> (s.(uthreads_arr) i).(u_id) = i;
  uk_run : forall i, 0 <= i < MAX_UTHREADS -> (s.(uthreads_arr) i).(u_state) = RUNNING <-> i = c;
}.

(** Entry [n] is to run next: the highest priority above LOW among the runnable
    threads, and the first of that priority after [c] in circular order. *)
Record elected (arr : Z -> uthread) (c n : Z) : Prop := {
  el_range : 0 <= n < MAX_UTHREADS;
  el_run : runnable arr n;
  el_prio : prio LOW < prio_of arr n;
  el_max : forall i, 0 <= i < MAX_UTHREADS -> runnable arr i -> prio_of arr i <= prio_of arr n;
  el_first : forall i, 0 <= i < MAX_UTHREADS -> runnable arr i -> prio_of arr i = prio_of arr n ->
    (n - c - 1) mod MAX_UTHREADS <= (i - c - 1) mod MAX_UTHREADS;
}.

Lemma orbit_four c : 0 <= c < 3 ->
  Forall (fun j => 0 <= j < MAX_UTHREADS) (orbit 4 (c + 1)) /\
  (forall i, 0 <= i < MAX_UTHREADS -> i ∈ orbit 4 (c + 1)) /\
  forall l1 n l2, orbit 4 (c + 1) = l1 ++ n :: l2 -> forall i, i ∈ n :: l2 ->
    (n - c - 1) mod MAX_UTHREADS <= (i - c - 1) mod MAX_UTHREADS.
Proof.
  intros Hc. assert (c = 0 \/ c = 1 \/ c = 2) as [-> | [-> | ->]] by lia; (split; [by repeat constructor|split]).
  1,3,5: intros i Hi; assert (i = 0 \/ i = 1 \/ i = 2 \/ i = 3) as [-> | [-> | [-> | ->]]] by (unfold MAX_UTHREADS in Hi; lia);
    cbn; set_solver.
  all: cbn; intros l1 n l2 E i Hi; destruct l1 as [|? [|? [|? [|? l1]]]]; simplify_eq/=; try (by destruct l1);
    repeat (apply elem_of_cons in Hi as [->|Hi]; [done|]); by apply elem_of_nil in Hi.
Qed.

(** The choice of [uthread_yield] and [uthread_exit], for a thread other than the last. *)
Lemma next_thread_spec s c : 0 <= c < 3 -> (s.(uthreads_arr) c).(u_id) = c ->
  match next_thread s c with
  | None => False
  | Some None => forall i, 0 <= i < MAX_UTHREADS -> runnable s.(uthreads_arr) i -> (s.(uthreads_arr) i).(u_priority) = LOW
  | Some (Some n) => elected s.(uthreads_arr) c n
  end.
Proof.
  intros Hc Hid. unfold next_thread. rewrite Hid. change (Z.to_nat MAX_UTHREADS) with 4%nat.
  destruct (orbit_four c Hc) as (O1 & O2 & O3). rewrite pick_fold by done.
  destruct (fold_best s.(uthreads_arr) (orbit 4 (c + 1)) (None, LOW)) as (B1 & B2 & B3). cbn zeta in *.
  destruct B3 as [B3|(l1 & n & l2 & El & B3 & Hr & Hp & Hj)]; rewrite B3 in *; cbn [fst snd] in *.
  - intros i Hi Hr. specialize (B2 i (O2 i Hi) Hr). unfold prio_of in B2.
    destruct (u_priority _); [done|cbn in B2; lia..].
  - split; [|done|done| |].
    + rewrite Forall_forall in O1. apply O1. rewrite El. apply elem_of_app. right. by left.
    + intros i Hi Hri. by apply (B2 i (O2 i Hi)).
    + intros i Hi Hri Ep. apply (O3 _ _ _ El). specialize (O2 i Hi). rewrite El in O2.
      apply elem_of_app in O2 as [O2|O2]; [|done]. specialize (Hj i O2 Hri). lia.
Qed.

(** The hand-over from [c] to [n]. *)
Lemma handover_ok s c n st :
  uthreads_ok s c -> elected s.(uthreads_arr) c n -> st <> RUNNING -> st <> FREE ->
  let s' := upd_uthread n (fun u => u <| u_state := RUNNING |>) (upd_uthread c (fun u => u <| u_state := st |>) s)
            <| curr_thread := Some n |> in
  uthreads_ok s' n /\ (s'.(uthreads_arr) c).(u_state) = st /\
  forall i, i <> c -> i <> n -> s'.(uthreads_arr) i = s.(uthreads_arr) i.
Proof.
  intros [H1 H2 H3 H4] [E1 E2 E3 E4 E5] Hst Hfree. assert (n <> c) as Hne.
  { intros ->. pose proof (proj2 (H4 c H2) eq_refl). unfold runnable in E2. congruence. }
  cbn. split; [|split].
  - split; [done|done| |]; intros i Hi; cbn; rewrite !fn_alter_case.
    + destruct (decide (n = i)) as [->|Ni]; [rewrite decide_False by done|destruct (decide (c = i)) as [->|Nc]]; cbn; intros Hf.
      * apply H3; [done|]. unfold runnable in E2. congruence.
      * apply H3; [done|]. by rewrite (proj2 (H4 _ Hi) eq_refl).
      * by apply H3.
    + destruct (decide (n = i)) as [->|Ni]; [done|destruct (decide (c = i)) as [->|Nc]]; cbn; [split; congruence|].
      rewrite H4 by done. split; congruence.
  - rewrite !fn_alter_case. by repeat case_dec; subst.
  - intros i N1 N2. rewrite !fn_alter_case. by repeat case_dec; subst.
Qed.

(** The index after the last thread is outside the table. *)
Lemma next_thread_last s : (s.(uthreads_arr) (MAX_UTHREADS - 1)).(u_id) = MAX_UTHREADS - 1 ->
  next_thread s (MAX_UTHREADS - 1) = None.
Proof. intros E. unfold next_thread. by rewrite E. Qed.

(** C36: [uthread_yield] hands over to the runnable thread of the highest priority, the
    first such after the caller in circular order, keeps the table well formed (one
    running thread, the current one) and leaves the other threads alone.  Threads of
    priority LOW are never chosen: when all runnable threads have it, the call returns.
    The thread in the last entry of the table cannot yield: the search starts outside
    the table. *)
Theorem uthread_yield_correct s c (arr := s.(uthreads_arr)) :
  uthreads_ok s c ->
  if c =? MAX_UTHREADS - 1 then uthread_yield s = Ufault
  else
    (uthread_yield s = Ureturn 0 s /\
     forall i, 0 <= i < MAX_UTHREADS -> runnable arr i -> (arr i).(u_priority) = LOW) \/
    exists n s', uthread_yield s = Uswtch (ctx_of c) n s' /\ elected arr c n /\ uthreads_ok s' n /\
      (s'.(uthreads_arr) c).(u_state) = RUNNABLE /\
      forall i, i <> c -> i <> n -> s'.(uthreads_arr) i = arr i.
Proof.
  intros Hok. pose proof Hok as [H1 H2 H3 H4]. unfold uthread_yield. rewrite H1.
  assert ((arr c).(u_id) = c) as Hid by (apply H3; [done|]; by rewrite (proj2 (H4 c H2) eq_refl)).
  destruct (Z.eqb_spec c (MAX_UTHREADS - 1)) as [->|Hc]; [by rewrite next_thread_last|].
  pose proof (next_thread_spec s c ltac:(unfold MAX_UTHREADS in *; lia) Hid) as Hn.
  destruct (next_thread s c) as [[n|]|]; [|by left|done]. right. eexists n, _. split; [done|]. split; [done|].
  by apply handover_ok.
Qed.

(** [uthread_exit] chooses in the same way, and ends the process when no thread of a
    priority above LOW is runnable. *)
Lemma uthread_exit_spec s c (s1 := upd_uthread c (fun u => u <| u_state := FREE |>) s) :
  s.(curr_thread) = Some c -> 0 <= c < 3 -> (s.(uthreads_arr) c).(u_id) = c ->
  (uthread_exit s = Uexit 0 /\
   forall i, 0 <= i < MAX_UTHREADS -> runnable s1.(uthreads_arr) i -> (s1.(uthreads_arr) i).(u_priority) = LOW) \/
  exists n s', uthread_exit s = Uswtch (ctx_of c) n s' /\ elected s1.(uthreads_arr) c n.
Proof.
  intros H1 Hc Hid. unfold uthread_exit. rewrite H1. fold s1.
  assert ((s1.(uthreads_arr) c).(u_id) = c) as Hid1 by (cbn; by rewrite fn_lookup_alter).
  pose proof (next_thread_spec s1 c Hc Hid1) as Hn. destruct (next_thread s1 c) as [[n|]|]; [|by left|done].
  right. eexists n, _. split; [done|done].
Qed.

(** [uthread_start_all] dereferences the pointer 1 when every thread has priority LOW. *)
Lemma uthread_start_all_low s c :
  s.(started) = false -> s.(curr_thread) = Some c -> 0 <= c < 3 -> (s.(uthreads_arr) c).(u_id) = c ->
  (forall i, 0 <= i < MAX_UTHREADS -> (s.(uthreads_arr) i).(u_priority) = LOW) -> uthread_start_all s = Ufault.
Proof.
  intros H0 H1 Hc Hid Hlow. unfold uthread_start_all. rewrite H0. cbn. rewrite H1.
  change (next_thread _ c) with (next_thread s c).
  pose proof (next_thread_spec s c Hc Hid) as Hn. destruct (next_thread s c) as [[n|]|]; [|done|done].
  pose proof (el_prio _ _ _ Hn) as Hp. unfold prio_of in Hp. rewrite Hlow in Hp by apply (el_range _ _ _ Hn). done.
Qed.

(** ** Instances *)

Definition demo_uthread (st : tstate) (p : sched_priority) (i : Z) : uthread := Uthread i 0 st (Ucontext 0 0) p.

(** Thread 0 runs; threads 1 and 3 are runnable, thread 3 with the higher priority. *)
Definition demo_uthreads : ustate := Ustate true (fun i =>
  demo_uthread (if i =? 0 then RUNNING else if i =? 2 then FREE else RUNNABLE) (if i =? 3 then HIGH else MEDIUM) i) (Some 0).

Lemma uthread_yield_correct_witness : exists s', uthread_yield demo_uthreads = Uswtch (ctx_of 0) 3 s' /\ uthreads_ok s' 3.
Proof.
  destruct (uthread_yield_correct demo_uthreads 0) as [[E _]|(n & s' & E & _ & H & _)].
  - split; [done|done|done|]. intros i Hi. assert (i = 0 \/ i = 1 \/ i = 2 \/ i = 3) as [-> | [-> | [-> | ->]]]
      by (unfold MAX_UTHREADS in Hi; lia); done.
  - discriminate E.
  - exists s'. assert (n = 3) as -> by by injection E. done.
Defined.
