(* ===== verification/Umalloc.v ===== *)
(** * The user-level allocator (user/umalloc.c)

    Headers are addressed in bytes; a header is 16 bytes and sizes count headers.
    [base] is the address of the static header, [freep] the pointer where searches
    start.  The free blocks form a ring in the order of their addresses, through
    [base].  The theorems say that [free] and [malloc] keep the ring, sorted, disjoint
    and with no two adjacent blocks, and move exactly one block between the ring and
    the program. *)
From S2P Require Export Prelude.

Record header := Header { h_ptr : Z; h_size : Z }.
Definition eta_header (r : header) : header := Header r.(h_ptr) r.(h_size).
#[global] Instance set_h_ptr : Setter h_ptr := ltac:(setter eta_header h_ptr).
#[global] Instance set_h_size : Setter h_size := ltac:(setter eta_header h_size).

Definition sizeof_Header : Z := 16.

(** The memory as headers, [freep], and the end of the data segment. *)
Record mstate := Mstate { hp : Z -> header; freep : Z; brk : Z }.
Definition eta_mstate (r : mstate) : mstate := Mstate r.(hp) r.(freep) r.(brk).
#[global] Instance set_hp : Setter hp := ltac:(setter eta_mstate hp).
#[global] Instance set_freep : Setter freep := ltac:(setter eta_mstate freep).
#[global] Instance set_brk : Setter brk := ltac:(setter eta_mstate brk).

Definition upd_hdr (a : Z) (f : header -> header) (s : mstate) : mstate := s <| hp ::= alter f a |>.

(** The end of the block with header [a]: [a + a->s.size]. *)
Definition block_end (h : Z -> header) (a : Z) : Z := a + sizeof_Header * (h a).(h_size).

Section umalloc.
(** The address of [base]; whether the kernel grants [sbrk] of the given number of bytes
    when the data segment ends at the given address. *)
Context (base : Z) (grants : Z -> Z -> bool).

(** The loop of [free]: the block after which [bp] belongs. *)
Fixpoint find_pos (fuel : nat) (h : Z -> header) (bp p : Z) : option Z :=
  let nx := (h p).(h_ptr) in
  if (p <? bp) && (bp <? nx) then Some p
  else if (nx <=? p) && ((p <? bp) || (bp <? nx)) then Some p
  else match fuel with O => None | S fuel => find_pos fuel h bp nx end.

(** [bp] is joined to the block [nx] above it, or linked to it. *)
Definition join_upper (bp nx : Z) (s : mstate) : mstate :=
  if block_end s.(hp) bp =? nx then
    let s := upd_hdr bp (fun x => x <| h_size := u32 (x.(h_size) + (s.(hp) nx).(h_size)) |>) s in
    upd_hdr bp (fun x => x <| h_ptr := (s.(hp) nx).(h_ptr) |>) s
  else upd_hdr bp (fun x => x <| h_ptr := nx |>) s.

(** The block [p] below is joined to [bp], or linked to it. *)
Definition join_lower (p bp : Z) (s : mstate) : mstate :=
  if block_end s.(hp) p =? bp then
    let s := upd_hdr p (fun x => x <| h_size := u32 (x.(h_size) + (s.(hp) bp).(h_size)) |>) s in
    upd_hdr p (fun x => x <| h_ptr := (s.(hp) bp).(h_ptr) |>) s
  else upd_hdr p (fun x => x <| h_ptr := bp |>) s.

(** [free], given the header of the block; [fuel] bounds the steps around the ring. *)
Definition free_block (fuel : nat) (bp : Z) (s : mstate) : option mstate :=
  p ← find_pos fuel s.(hp) bp s.(freep);
  let nx := (s.(hp) p).(h_ptr) in
  let s := join_upper bp nx s in
  let s := join_lower p bp s in
  Some (s <| freep := p |>).

Definition free (fuel : nat) (ap : Z) (s : mstate) : option mstate :=
  free_block fuel (ap - sizeof_Header) s.

(** [sbrk]: the old end of the data segment, or [None] for [(char* )-1]. *)
Definition sbrk (n : Z) (s : mstate) : option Z * mstate :=
  if grants s.(brk) n then (Some s.(brk), s <| brk ::= fun b => b + n |>) else (None, s).

(** The outer [None] is lack of fuel, the inner one a null pointer. *)
Definition morecore (fuel : nat) (nu : Z) (s : mstate) : option (option Z * mstate) :=
  let nu := if nu <? 4096 then 4096 else nu in
  let '(p, s) := sbrk (s32 (nu * sizeof_Header)) s in
  match p with
  | None => Some (None, s)
  | Some p =>
      let s := upd_hdr p (fun x => x <| h_size := nu |>) s in
      s ← free fuel (p + sizeof_Header) s;
      Some (Some s.(freep), s)
  end.

(** The loop of [malloc]: [rounds] bounds its iterations. *)
Fixpoint malloc_loop (rounds fuel : nat) (nunits prevp p : Z) (s : mstate) : option (option Z * mstate) :=
  match rounds with
  | O => None
  | S rounds =>
      let x := s.(hp) p in
      if nunits <=? x.(h_size) then
        let '(p, s) :=
          if x.(h_size) =? nunits then (p, upd_hdr prevp (fun y => y <| h_ptr := x.(h_ptr) |>) s)
          else
            let s := upd_hdr p (fun y => y <| h_size := u32 (y.(h_size) - nunits) |>) s in
            let p := block_end s.(hp) p in
            (p, upd_hdr p (fun y => y <| h_size := nunits |>) s) in
        Some (Some (p + sizeof_Header), s <| freep := prevp |>)
      else if p =? s.(freep) then
        '(r, s) ← morecore fuel nunits s;
        match r with
        | None => Some (None, s)
        | Some p => malloc_loop rounds fuel nunits p (s.(hp) p).(h_ptr) s
        end
      else malloc_loop rounds fuel nunits p x.(h_ptr) s
  end.

Definition units (nbytes : Z) : Z := u32 ((nbytes + sizeof_Header - 1) / sizeof_Header + 1).

Definition malloc (rounds fuel : nat) (nbytes : Z) (s : mstate) : option (option Z * mstate) :=
  let nunits := units nbytes in
  let s :=
    if s.(freep) =? 0 then
      let s := upd_hdr base (fun x => x <| h_ptr := base |>) s in
      let s := s <| freep := base |> in
      upd_hdr base (fun x => x <| h_size := 0 |>) s
    else s in
  let prevp := s.(freep) in
  malloc_loop rounds fuel nunits prevp (s.(hp) prevp).(h_ptr) s.
End umalloc.

(** ** The ring *)

(** From header [a], the headers of the blocks [l] follow, and then [z]. *)
Fixpoint chain (h : Z -> header) (a : Z) (l : list (Z * Z)) (z : Z) : Prop :=
  match l with
  | [] => (h a).(h_ptr) = z
  | (b, n) :: l => (h a).(h_ptr) = b /\ (h b).(h_size) = n /\ chain h b l z
  end.

(** The blocks lie above [lo] in this order, with a gap before each. *)
Fixpoint ordered (lo : Z) (l : list (Z * Z)) : Prop :=
  match l with
  | [] => True
  | (a, n) :: l => lo < a /\ 1 <= n /\ ordered (a + sizeof_Header * n) l
  end.

(** The end of the last block, [lo] if there is none. *)
Fixpoint top (lo : Z) (l : list (Z * Z)) : Z :=
  match l with [] => lo | (a, n) :: l => top (a + sizeof_Header * n) l end.

(** The header of the last block, [a] if there is none; of the first one. *)
Definition end_of (a : Z) (l : list (Z * Z)) : Z := default a (fst <$> last l).
Definition first_of (l : list (Z * Z)) (z : Z) : Z := match l with [] => z | (b, _) :: _ => b end.

Lemma end_of_cons a b n l : end_of a ((b, n) :: l) = end_of b l.
Proof. unfold end_of. rewrite last_cons. by destruct (last l) as [[]|]. Qed.

Lemma end_of_app a l1 l2 : end_of a (l1 ++ l2) = end_of (end_of a l1) l2.
Proof.
  revert a. induction l1 as [|[b n] l1 IH]; intros a; [done|]. cbn [app]. by rewrite !end_of_cons.
Qed.

Lemma end_of_in a l : end_of a l = a \/ end_of a l ∈ map fst l.
Proof.
  revert a. induction l as [|[b n] l IH]; intros a; [by left|]. rewrite end_of_cons. right. cbn.
  destruct (IH b) as [->|H]; [by left|by right].
Qed.

Lemma chain_app h a l1 l2 z :
  chain h a (l1 ++ l2) z <-> chain h a l1 (first_of l2 z) /\ chain h (end_of a l1) l2 z.
Proof.
  revert a. induction l1 as [|[b n] l1 IH]; intros a; cbn [app chain].
  - cbn. destruct l2 as [|[c m] l2]; cbn; tauto.
  - rewrite IH, end_of_cons. tauto.
Qed.

Lemma ordered_app lo l1 l2 : ordered lo (l1 ++ l2) <-> ordered lo l1 /\ ordered (top lo l1) l2.
Proof. revert lo. induction l1 as [|[b n] l1 IH]; intros lo; cbn; [tauto|]. rewrite IH. tauto. Qed.

Lemma top_app lo l1 l2 : top lo (l1 ++ l2) = top (top lo l1) l2.
Proof. revert lo. induction l1 as [|[b n] l1 IH]; intros lo; cbn; [done|]. apply IH. Qed.

Lemma top_le lo l : ordered lo l -> lo <= top lo l.
Proof.
  unfold sizeof_Header. revert lo. induction l as [|[b n] l IH]; intros lo H; cbn in *; [lia|]. unfold sizeof_Header in *.
  destruct H as (H1 & H2 & H3). specialize (IH _ H3). lia.
Qed.

Lemma ordered_range lo l a n : ordered lo l -> (a, n) ∈ l -> lo < a /\ 1 <= n /\ a + sizeof_Header * n <= top lo l.
Proof.
  intros Ho (l1 & l2 & ->)%list_elem_of_split. apply ordered_app in Ho as [H1 (H2 & H3 & H4)].
  pose proof (top_le _ _ H1). rewrite top_app. cbn. pose proof (top_le _ _ H4). lia.
Qed.

Lemma ordered_weaken lo lo' l : lo' <= lo -> ordered lo l -> ordered lo' l.
Proof. destruct l as [|[a n] l]; cbn; [done|]. intros ? (? & ? & ?). split; [lia|done]. Qed.

Lemma ordered_addr lo l a : ordered lo l -> a ∈ map fst l -> lo < a.
Proof. intros Ho ([b n] & -> & Hin)%list_elem_of_fmap. by apply (ordered_range _ _ _ _ Ho) in Hin as (? & _). Qed.

Lemma ordered_nodup lo l : ordered lo l -> NoDup (map fst l) /\ forall x, x <= lo -> x ∉ map fst l.
Proof.
  intros Ho. split; [|intros x Hx Hin; apply (ordered_addr _ _ _ Ho) in Hin; lia].
  revert lo Ho. induction l as [|[a n] l IH]; intros lo Ho; [constructor|]. destruct Ho as (H1 & H2 & H3). constructor; [|by eapply IH].
  intros Hin%(ordered_addr _ _ _ H3). cbn in Hin. unfold sizeof_Header in *. lia.
Qed.

(** The links of a chain whose headers have not changed. *)
Lemma chain_agree h h' a a' l z :
  (h' a').(h_ptr) = (h a).(h_ptr) -> (forall x, x ∈ map fst l -> h' x = h x) -> chain h a l z -> chain h' a' l z.
Proof.
  revert a a'. induction l as [|[b n] l IH]; intros a a' Hp Hl Hc; cbn in *; [congruence|].
  destruct Hc as (H1 & H2 & H3). split; [congruence|]. split; [by rewrite Hl by by left|].
  eapply IH; [|intros; apply Hl; by right|done]. by rewrite Hl by by left.
Qed.

(** A chain whose last header points elsewhere. *)
Lemma chain_relink h h' a l z z' :
  chain h a l z -> NoDup (a :: map fst l) ->
  (h' (end_of a l)).(h_ptr) = z' -> (h' (end_of a l)).(h_size) = (h (end_of a l)).(h_size) ->
  (forall x, x ∈ a :: map fst l -> x <> end_of a l -> h' x = h x) -> chain h' a l z'.
Proof.
  revert a. induction l as [|[b n] l IH]; intros a Hc Hn Hp Hs Hl; cbn in *; [done|]. rewrite end_of_cons in *.
  destruct Hc as (H1 & H2 & H3). apply NoDup_cons in Hn as [Hn1 Hn2].
  assert (a <> end_of b l) as Hne.
  { intros ->. apply Hn1. destruct (end_of_in b l) as [->|?]; [by left|by right]. }
  split; [by rewrite Hl by (by left || done)|]. split.
  - destruct (decide (b = end_of b l)) as [E|N]; [by rewrite E, Hs, <- E|by rewrite Hl by (done || (right; by left))].
  - apply IH; try done. intros x Hx. apply Hl. by right.
Qed.

(** ** Where a block belongs *)

Lemma walk_low h b l a z n lo :
  chain h a l z -> ordered lo l -> a <= lo -> (forall x, x ∈ map fst l -> x < b) ->
  find_pos (length l + n) h b a = find_pos n h b (end_of a l).
Proof.
  revert a lo. induction l as [|[q m] l IH]; intros a lo Hc Ho Ha Hb; [done|]. rewrite end_of_cons.
  destruct Hc as (H1 & H2 & H3), Ho as (O1 & O2 & O3). pose proof (Hb q ltac:(by left)) as Hq.
  cbn [length Nat.add find_pos]. rewrite H1.
  rewrite (proj2 (Z.ltb_ge b q)), (proj2 (Z.leb_gt q a)), andb_false_r by lia. cbn [andb].
  apply (IH q (q + sizeof_Header * m)); [done|done|unfold sizeof_Header; lia|]. intros x Hx. apply Hb. by right.
Qed.

Lemma walk_high h b l a base n lo :
  chain h a l base -> ordered lo l -> b < a <= lo -> base < b ->
  find_pos (S (length l) + n) h b a = find_pos n h b base.
Proof.
  revert a lo. induction l as [|[q m] l IH]; intros a lo Hc Ho Ha Hb; cbn [length Nat.add find_pos].
  - cbn in Hc. rewrite Hc. rewrite (proj2 (Z.ltb_ge a b)), (proj2 (Z.ltb_ge b base)) by lia.
    cbn [andb orb]. by rewrite andb_false_r.
  - destruct Hc as (H1 & H2 & H3), Ho as (O1 & O2 & O3). rewrite H1.
    rewrite (proj2 (Z.ltb_ge a b)), (proj2 (Z.leb_gt q a)) by lia. cbn [andb].
    change (find_pos (S (length l + n)) h b q) with (find_pos (S (length l) + n) h b q).
    apply (IH q (q + sizeof_Header * m)); [done|done|unfold sizeof_Header; lia|done].
Qed.

Lemma walk_stop h b p z base n :
  (h p).(h_ptr) = z -> p < b -> (b < z \/ z = base /\ base <= p) -> find_pos n h b p = Some p.
Proof.
  intros Hp Hb Hz. destruct n; cbn [find_pos]; rewrite Hp, (proj2 (Z.ltb_lt p b)) by lia; cbn [andb orb];
    (destruct Hz as [Hz|[-> Hz]]; [by rewrite (proj2 (Z.ltb_lt b z)) by lia|]);
    (destruct (b <? base); [done|]; by rewrite (proj2 (Z.leb_le base p)) by lia).
Qed.

(** The static header of size zero comes first in the ring. *)
Definition base_end (base : Z) : Z := base + sizeof_Header - 1.

Record ring (base : Z) (s : mstate) (l : list (Z * Z)) : Prop := {
  rg_chain : chain s.(hp) base l base;
  rg_base : (s.(hp) base).(h_size) = 0;
  rg_order : ordered (base_end base) l;
  rg_freep : s.(freep) ∈ base :: map fst l;
  rg_top : top (base_end base) l <= s.(brk);
  rg_range : 0 < base /\ base + sizeof_Header <= s.(brk) <= 2 ^ 36;
}.

Lemma find_pos_spec base s l1 l2 b fuel :
  ring base s (l1 ++ l2) -> base_end base < b -> (forall x, x ∈ map fst l1 -> x < b) -> (forall x, x ∈ map fst l2 -> b < x) ->
  (length (l1 ++ l2) < fuel)%nat -> find_pos fuel s.(hp) b s.(freep) = Some (end_of base l1).
Proof.
  intros [Hc _ Ho Hf _ _] Hb H1 H2 Hlen. rewrite length_app in Hlen. unfold base_end, sizeof_Header in *.
  apply chain_app in Hc as [C1 C2]. apply ordered_app in Ho as [O1 O2].
  assert (end_of base l1 < b) as Hp.
  { destruct (end_of_in base l1) as [->|Hin]; [lia|by apply H1]. }
  assert (forall n, find_pos n s.(hp) b (end_of base l1) = Some (end_of base l1)) as Hstop.
  { intros n. apply (walk_stop _ _ _ (first_of l2 base) base).
    - destruct l2 as [|[q m] l2]; [done|]. by destruct C2.
    - done.
    - destruct l2 as [|[q m] l2]; [right|left; apply H2; by left]. split; [done|].
      destruct (end_of_in base l1) as [->|Hin]; [lia|]. apply (ordered_addr _ _ _ O1) in Hin. lia. }
  assert (forall n, (length l1 <= n)%nat -> find_pos n s.(hp) b base = Some (end_of base l1)) as Hlow.
  { intros n Hn. replace n with (length l1 + (n - length l1))%nat by lia. rewrite <- (Hstop (n - length l1)%nat).
    eapply walk_low; [exact C1|exact O1|lia|done]. }
  rewrite map_app in Hf. apply elem_of_cons in Hf as [->|[Hf|Hf]%elem_of_app]; [apply Hlow; lia|..].
  - apply list_elem_of_fmap in Hf as ([f m] & E & Hin). cbn in E. rewrite E. apply list_elem_of_split in Hin as (u & v & ->).
    rewrite length_app in Hlen. cbn in Hlen. apply chain_app in C1 as [_ (_ & _ & C1)]. apply ordered_app in O1 as [_ (_ & On & O1)].
    rewrite end_of_app, end_of_cons in *. replace fuel with (length v + (fuel - length v))%nat by lia.
    rewrite <- (Hstop (fuel - length v)%nat). eapply walk_low; [exact C1|exact O1|unfold sizeof_Header; lia|].
    intros x Hx. apply H1. rewrite map_app. apply elem_of_app. right. by right.
  - apply list_elem_of_fmap in Hf as ([f m] & E & Hin). cbn in E. rewrite E. apply list_elem_of_split in Hin as (u & v & ->).
    rewrite length_app in Hlen. cbn in Hlen. apply chain_app in C2 as [_ (_ & _ & C2)]. apply ordered_app in O2 as [_ (_ & On & O2)].
    replace fuel with (S (length v) + (fuel - S (length v)))%nat by lia.
    rewrite (walk_high _ _ _ _ base _ _ C2 O2); [apply Hlow; lia| |lia].
    split; [|unfold sizeof_Header; lia]. apply H2. rewrite map_app. apply elem_of_app. right. by left.
Qed.

(** ** free *)

(** The block [b] of [n] units is clear of the free blocks. *)
Definition apart (b n : Z) (l : list (Z * Z)) : Prop :=
  forall a m, (a, m) ∈ l -> a + sizeof_Header * m <= b \/ b + sizeof_Header * n <= a.

(** The addresses in the free blocks. *)
Definition covers (l : list (Z * Z)) (x : Z) : Prop :=
  exists a m, (a, m) ∈ l /\ a <= x < a + sizeof_Header * m.

(** The blocks below and above [b]. *)
Lemma split_blocks lo l b n :
  ordered lo l -> lo < b -> 1 <= n -> apart b n l ->
  exists l1 l2, l = l1 ++ l2 /\ top lo l1 <= b /\ ordered (b + sizeof_Header * n - 1) l2.
Proof.
  unfold apart, sizeof_Header. revert lo. induction l as [|[a m] l IH]; intros lo Ho Hb Hn Ha.
  { exists [], []. cbn. split; [done|]. split; [lia|done]. }
  destruct Ho as (O1 & O2 & O3). unfold sizeof_Header in *. destruct (Ha a m ltac:(by left)) as [H|H].
  - destruct (decide (a + 16 * m = b)) as [E|N].
    + exists [(a, m)], l. split; [done|]. cbn. unfold sizeof_Header. split; [lia|]. rewrite E in O3.
      destruct l as [|[c k] l]; [done|]. destruct O3 as (P1 & P2 & P3). split; [|done].
      destruct (Ha c k ltac:(right; by left)); lia.
    + destruct (IH (a + 16 * m)) as (l1 & l2 & -> & T & O); [done|lia|done|intros; apply Ha; by right|].
      by exists ((a, m) :: l1), l2.
  - exists [], ((a, m) :: l). split; [done|]. cbn. unfold sizeof_Header. split; [lia|]. split; [lia|done].
Qed.

Lemma covers_cons a n l x : covers ((a, n) :: l) x <-> a <= x < a + sizeof_Header * n \/ covers l x.
Proof.
  unfold covers. setoid_rewrite elem_of_cons. split.
  - intros (b & m & [[= -> ->]|H] & Hx); [by left|right; eauto].
  - intros [H|(b & m & Hb & Hx)]; eauto 10.
Qed.

Lemma covers_app l1 l2 x : covers (l1 ++ l2) x <-> covers l1 x \/ covers l2 x.
Proof.
  unfold covers. setoid_rewrite elem_of_app. split; [intros (a & m & [?|?] & ?)|intros [(a & m & ? & ?)|(a & m & ? & ?)]]; eauto 10.
Qed.

(** The block at [b] and those above it, after [join_upper]. *)
Record upper (base b n : Z) (l2 : list (Z * Z)) (s s1 : mstate) (n' : Z) (l2' : list (Z * Z)) : Prop := {
  up_size : (s1.(hp) b).(h_size) = n';
  up_chain : chain s1.(hp) b l2' base;
  up_order : 1 <= n' /\ ordered (b + sizeof_Header * n') l2';
  up_top : top (b + sizeof_Header * n') l2' <= s.(brk);
  up_other : forall x, x <> b -> s1.(hp) x = s.(hp) x;
  up_rest : s1 = s <| hp := s1.(hp) |>;
  up_covers : forall x, covers ((b, n') :: l2') x <-> covers ((b, n) :: l2) x;
  up_len : (length l2' <= length l2)%nat;
}.

Lemma join_upper_spec base p b n l2 s lo :
  chain s.(hp) p l2 base -> ordered lo l2 -> b + sizeof_Header * n <= lo + 1 -> 1 <= n -> top (b + sizeof_Header * n) l2 <= s.(brk) ->
  0 < base < b -> s.(brk) <= 2 ^ 36 -> (s.(hp) b).(h_size) = n ->
  exists n' l2', upper base b n l2 s (join_upper b (first_of l2 base) s) n' l2'.
Proof.
  intros Hc Ho Hlo Hn Ht Hb Hk Es. unfold join_upper, block_end. rewrite Es. unfold sizeof_Header in *.
  assert (forall x, x ∈ map fst l2 -> b + 16 * n <= x) as Hab.
  { intros x Hx. apply (ordered_addr _ _ _ Ho) in Hx. lia. }
  destruct (Z.eqb_spec (b + 16 * n) (first_of l2 base)) as [E|E].
  - destruct l2 as [|[q m] l2]; cbn in E; [lia|]. destruct Hc as (C1 & C2 & C3), Ho as (O1 & O2 & O3).
    exists (n + m), l2. cbn in Ht. unfold sizeof_Header in *.
    pose proof (top_le _ _ O3) as Htl. cbn [first_of] in *.
    assert (q <> b) as Hqb by lia.
    split; cbn.
    + rewrite fn_lookup_alter, fn_lookup_alter. cbn. rewrite Es, C2. apply u32_small. lia.
    + eapply (chain_agree s.(hp) _ q); [|intros x Hx; rewrite !fn_lookup_alter_ne; [done|..]|done].
      * rewrite fn_lookup_alter. cbn. by rewrite fn_lookup_alter_ne by done.
      * specialize (Hab x ltac:(by right)). lia.
      * specialize (Hab x ltac:(by right)). lia.
    + unfold sizeof_Header. split; [lia|]. replace (b + 16 * (n + m)) with (q + 16 * m) by lia. done.
    + unfold sizeof_Header. replace (b + 16 * (n + m)) with (q + 16 * m) by lia. done.
    + intros x Hx. by rewrite !fn_lookup_alter_ne by congruence.
    + done.
    + intros x. rewrite !covers_cons. unfold sizeof_Header. split; [intros [?|?]|intros [?|[?|?]]]; auto; try (left; lia).
      destruct (decide (x < q)); [left; lia|right; left; lia].
    + lia.
  - exists n, l2. split; cbn.
    + by rewrite fn_lookup_alter.
    + eapply (chain_agree s.(hp) _ p); [|intros x Hx; apply fn_lookup_alter_ne; specialize (Hab x Hx); lia|done].
      rewrite fn_lookup_alter. cbn. destruct l2 as [|[q m] l2]; cbn in *; [done|]. by destruct Hc as [-> _].
    + split; [done|]. unfold sizeof_Header. destruct l2 as [|[q m] l2]; [done|]. cbn in *. destruct Ho as (O1 & O2 & O3). split; [lia|done].
    + done.
    + intros x Hx. by rewrite fn_lookup_alter_ne by congruence.
    + done.
    + done.
    + done.
Qed.

(** The ring after [join_lower]. *)
Record joined (base : Z) (l1 l2 : list (Z * Z)) (b n p : Z) (s1 s2 : mstate) (l : list (Z * Z)) : Prop := {
  jn_chain : chain s2.(hp) base l base;
  jn_base : (s2.(hp) base).(h_size) = 0;
  jn_order : ordered (base_end base) l;
  jn_p : p ∈ base :: map fst l;
  jn_top : top (base_end base) l = top (b + sizeof_Header * n) l2;
  jn_other : forall x, x <> p -> s2.(hp) x = s1.(hp) x;
  jn_rest : s2 = s1 <| hp := s2.(hp) |>;
  jn_covers : forall x, covers l x <-> covers l1 x \/ covers ((b, n) :: l2) x;
  jn_len : (length l <= length l1 + 1 + length l2)%nat;
}.

Section lower.
Context (base b n : Z) (l1 l2 : list (Z * Z)) (s : mstate) (z : Z).
Hypothesis (Hc : chain s.(hp) base l1 z) (Ho : ordered (base_end base) l1) (Hb0 : (s.(hp) base).(h_size) = 0).
Hypothesis (Hs : (s.(hp) b).(h_size) = n) (Hc2 : chain s.(hp) b l2 base) (Ho2 : 1 <= n /\ ordered (b + sizeof_Header * n) l2).
Hypothesis (Hbb : base_end base < b) (Ht : top (base_end base) l1 <= b).

Let p := end_of base l1.

Lemma lower_nodes : p < b /\ (p ∉ map fst l2) /\ (b ∉ map fst l1) /\ NoDup (base :: map fst l1) /\ (base ∉ map fst l2).
Proof.
  unfold base_end, sizeof_Header in *. destruct (ordered_nodup _ _ Ho) as [N1 N2].
  assert (forall x, x ∈ map fst l1 -> x < b) as Hl.
  { intros x ([y m] & -> & Hin)%list_elem_of_fmap. apply (ordered_range _ _ _ _ Ho) in Hin as (_ & ? & H). cbn. unfold sizeof_Header in H. lia. }
  assert (p < b) as Hp by (unfold p; destruct (end_of_in base l1) as [->|H]; [lia|by apply Hl]).
  split; [done|]. destruct Ho2 as [Hn Ho3].
  split; [intros H%(ordered_addr _ _ _ Ho3); lia|]. split; [intros H%Hl; lia|].
  split; [constructor; [apply N2; lia|done]|]. intros H%(ordered_addr _ _ _ Ho3). lia.
Qed.

(** [p] is linked to [b]. *)
Lemma lower_link : top (base_end base) l1 <> b \/ l1 = [] ->
  joined base l1 l2 b n p s (upd_hdr p (fun x => x <| h_ptr := b |>) s) (l1 ++ (b, n) :: l2).
Proof.
  intros Hne. destruct lower_nodes as (P1 & P2 & P3 & P4 & P5). destruct Ho2 as [Hn Ho3]. unfold base_end, sizeof_Header in *.
  split.
  - apply chain_app. split.
    + eapply chain_relink; [exact Hc|exact P4|..]; fold p; cbn; rewrite ?fn_lookup_alter; try done.
      intros x _ Hx. by rewrite fn_lookup_alter_ne by congruence.
    + fold p. cbn. rewrite fn_lookup_alter. split; [done|]. rewrite fn_lookup_alter_ne by lia. split; [done|].
      eapply (chain_agree s.(hp) _ b); [by rewrite fn_lookup_alter_ne by lia| |done].
      intros x Hx. rewrite fn_lookup_alter_ne; [done|]. congruence.
  - cbn. rewrite fn_alter_case. case_dec; cbn; congruence.
  - apply ordered_app. split; [done|]. cbn. unfold base_end, sizeof_Header. split; [|done].
    destruct Hne as [Hne| ->]; [lia|cbn; lia].
  - rewrite map_app. unfold p. destruct (end_of_in base l1) as [->|H]; [by left|]. right. apply elem_of_app. by left.
  - by rewrite top_app.
  - intros x Hx. cbn. by rewrite fn_lookup_alter_ne by congruence.
  - done.
  - intros x. by rewrite covers_app.
  - rewrite length_app. cbn. lia.
Qed.

(** [p] is joined with [b]. *)
Lemma lower_join l1a sp : l1 = l1a ++ [(p, sp)] -> top (base_end base) l1 = b -> 0 < base -> top (b + sizeof_Header * n) l2 <= 2 ^ 36 ->
  joined base l1 l2 b n p s
    (let s := upd_hdr p (fun x => x <| h_size := u32 (x.(h_size) + (s.(hp) b).(h_size)) |>) s in
     upd_hdr p (fun x => x <| h_ptr := (s.(hp) b).(h_ptr) |>) s) (l1a ++ (p, sp + n) :: l2).
Proof.
  intros E Htop H0 Hk. destruct lower_nodes as (P1 & P2 & P3 & P4 & P5). destruct Ho2 as [Hn Ho3]. unfold base_end, sizeof_Header in *.
  assert (p ∉ base :: map fst l1a) as Hp.
  { rewrite E, map_app in P4. change (base :: map fst l1a ++ map fst [(p, sp)]) with ((base :: map fst l1a) ++ [p]) in P4.
    apply NoDup_app in P4 as (_ & H & _). intros Hin. apply (H p Hin). by left. }
  pose proof Hc as Hc'. rewrite E in Hc', Ho, Htop. apply chain_app in Hc' as [Ca (Cp & Csz & Cz)]. apply ordered_app in Ho as [Oa (Op & On & _)].
  rewrite top_app in Htop. cbn in Htop. unfold sizeof_Header in *. cbn [first_of] in Ca.
  pose proof (top_le _ _ Ho3). pose proof (top_le _ _ Oa).
  apply not_elem_of_cons in Hp as [Hp1 Hp2].
  split.
  - apply chain_app. split.
    + cbn [first_of]. eapply (chain_agree s.(hp) _ base); [| |exact Ca]; cbn; [by rewrite !fn_lookup_alter_ne by congruence|].
      intros x Hx. rewrite !fn_lookup_alter_ne; [done|congruence..].
    + cbn. rewrite !(fn_alter_case _ _ p p), !decide_True by done. cbn. rewrite (fn_lookup_alter_ne _ _ p b) by lia.
      split.
      * assert (end_of base l1a <> p) as He by (destruct (end_of_in base l1a) as [->|Hin]; congruence).
        by rewrite !fn_lookup_alter_ne by congruence.
      * split; [rewrite Csz, Hs; apply u32_small; lia|].
        eapply (chain_agree s.(hp) _ b); [cbn; by rewrite !fn_lookup_alter| |done].
        intros x Hx. rewrite !fn_lookup_alter_ne; [done|congruence..].
  - cbn. by rewrite !fn_lookup_alter_ne by congruence.
  - apply ordered_app. split; [done|]. cbn. unfold sizeof_Header. split; [done|]. split; [lia|].
    replace (p + 16 * (sp + n)) with (b + 16 * n) by lia. done.
  - right. rewrite map_app. apply elem_of_app. right. by left.
  - rewrite top_app. cbn. unfold sizeof_Header. f_equal. lia.
  - intros x Hx. cbn. by rewrite !fn_lookup_alter_ne by congruence.
  - done.
  - intros x. rewrite E, !covers_app, !covers_cons. unfold sizeof_Header.
    assert (~ covers [] x) as Hnil by (intros (? & ? & Hin & _); by apply elem_of_nil in Hin).
    split; [intros [?|[?|?]]|intros [[?|[?|?]]|[?|?]]]; auto; try done; try (right; left; lia).
    destruct (decide (x < b)); [left; right; left; lia|right; left; lia].
  - rewrite E, !length_app. cbn. lia.
Qed.

Lemma join_lower_spec : 0 < base -> top (b + sizeof_Header * n) l2 <= 2 ^ 36 ->
  exists l, joined base l1 l2 b n p s (join_lower p b s) l.
Proof.
  intros H0 Hk. unfold join_lower, block_end.
  assert (l1 <> [] -> exists l1a m, l1 = l1a ++ [(p, m)] /\ (s.(hp) p).(h_size) = m /\
    top (base_end base) l1 = p + sizeof_Header * m) as Hl.
  { intros Hne. destruct (exists_last Hne) as (l1a & [q m] & El). exists l1a, m.
    assert (p = q) as -> by (unfold p; by rewrite El, end_of_app). split; [done|].
    pose proof Hc as Hc'. rewrite El in Hc' |- *. apply chain_app in Hc' as [_ (_ & Hm & _)]. by rewrite top_app. }
  destruct (Z.eqb_spec (p + sizeof_Header * (s.(hp) p).(h_size)) b) as [E|E].
  - destruct Hl as (l1a & m & El & Hm & Ht1).
    { intros El. unfold p in E. rewrite El in E. cbn in E. rewrite Hb0 in E. unfold base_end, sizeof_Header in *. lia. }
    exists (l1a ++ (p, m + n) :: l2). apply lower_join; [done| |done|done]. by rewrite Ht1, <- Hm.
  - exists (l1 ++ (b, n) :: l2). apply lower_link. destruct (decide (l1 = [])) as [El|Hne]; [by right|left].
    destruct (Hl Hne) as (l1a & m & El & Hm & ->). by rewrite <- Hm.
Qed.
End lower.

(** A block in use: within the heap, apart from the free blocks. *)
Record in_use (base : Z) (s : mstate) (l : list (Z * Z)) (b n : Z) : Prop := {
  iu_size : (s.(hp) b).(h_size) = n;
  iu_n : 1 <= n;
  iu_low : base_end base < b;
  iu_high : b + sizeof_Header * n <= s.(brk);
  iu_apart : apart b n l;
}.

Lemma free_spec base s l b n fuel :
  ring base s l -> in_use base s l b n -> (length l < fuel)%nat ->
  exists s' l', free fuel (b + sizeof_Header) s = Some s' /\ ring base s' l' /\
    (forall x, covers l' x <-> covers l x \/ b <= x < b + sizeof_Header * n) /\ s'.(brk) = s.(brk) /\
    (forall x, x <> b -> x ∉ base :: map fst l -> s'.(hp) x = s.(hp) x) /\ (length l' <= S (length l))%nat.
Proof.
  intros R [Us Un Ul Uh Ua] Hf. pose proof R as [Rc Rb Ro Rf Rt [Rr1 Rr2]].
  destruct (split_blocks _ _ b n Ro Ul Un Ua) as (l1 & l2 & -> & T1 & O2).
  apply ordered_app in Ro as [O1 O2']. apply chain_app in Rc as [C1 C2]. rewrite top_app in Rt.
  assert (forall x, x ∈ map fst l1 -> x < b) as H1.
  { intros x ([y m] & -> & Hin)%list_elem_of_fmap. apply (ordered_range _ _ _ _ O1) in Hin as (_ & ? & H). unfold sizeof_Header in *. cbn. lia. }
  assert (forall x, x ∈ map fst l2 -> b < x) as H2.
  { intros x Hx%(ordered_addr _ _ _ O2). unfold sizeof_Header in *. lia. }
  unfold free, free_block. replace (b + sizeof_Header - sizeof_Header) with b by lia.
  rewrite (find_pos_spec base s l1 l2 b fuel R Ul H1 H2 Hf). cbn [mbind option_bind]. set (p := end_of base l1) in *.
  assert ((s.(hp) p).(h_ptr) = first_of l2 base) as ->.
  { destruct l2 as [|[q m] l2]; [done|]. by destruct C2. }
  assert (top (b + sizeof_Header * n) l2 <= s.(brk)) as Ht2 by (destruct l2 as [|[q m] l2]; done).
  assert (0 < base < b) as Hbb by (unfold base_end, sizeof_Header in *; lia).
  destruct (join_upper_spec base p b n l2 s _ C2 O2 ltac:(lia) Un Ht2 Hbb ltac:(lia) Us) as (n' & l2' & [V1 V2 V3 V4 V5 V6 V7 V8]).
  set (s1 := join_upper b (first_of l2 base) s) in *.
  assert (chain s1.(hp) base l1 (first_of l2 base)) as C1'.
  { eapply (chain_agree s.(hp) _ base); [| |exact C1]; [by rewrite V5 by lia|]. intros x Hx%H1. apply V5. lia. }
  destruct (join_lower_spec base b n' l1 l2' s1 _ C1' O1) as (l' & [J1 J2 J3 J4 J5 J6 J7 J8 J9]); try done; try lia;
    [by rewrite V5 by lia|]. fold p in J1, J2, J4, J6, J7.
  set (s2 := join_lower p b s1) in *. assert (s2.(brk) = s.(brk)) as Eb by (rewrite J7, V6; done).
  exists (s2 <| freep := p |>), l'. split; [done|]. split; [|split; [|split; [done|split; [|rewrite length_app; lia]]]].
  - split; try done; cbn; rewrite ?Eb; [|done]. by rewrite J5.
  - intros x. rewrite J8, V7, covers_cons, covers_app. tauto.
  - intros x N1 N2. cbn. rewrite J6, V5; [done|done|]. intros ->. apply N2. unfold p. rewrite map_app.
    destruct (end_of_in base l1) as [->|Hin]; [by left|]. right. apply elem_of_app. by left.
Qed.

(** ** malloc *)

Lemma chain_end h a l z : chain h a l z -> (h (end_of a l)).(h_ptr) = z.
Proof. revert a. induction l as [|[b n] l IH]; intros a; [done|]. rewrite end_of_cons. intros (_ & _ & H). by apply IH. Qed.

(** The ring seen from one of its headers. *)
Lemma ring_from h base l f :
  chain h base l base -> (h base).(h_size) = 0 -> f ∈ base :: map fst l ->
  exists c1 m c2, (base, 0) :: l = c1 ++ (f, m) :: c2 /\ (h f).(h_size) = m /\ chain h f (c2 ++ c1) f.
Proof.
  intros Hc H0 [->|Hf]%elem_of_cons; [exists [], 0, l; by rewrite app_nil_r|].
  apply list_elem_of_fmap in Hf as ([f' m] & -> & Hin). apply list_elem_of_split in Hin as (u & v & ->).
  exists ((base, 0) :: u), m, v. cbn. apply chain_app in Hc as [C1 (C2 & C3 & C4)]. split; [done|]. split; [done|].
  apply chain_app. split; [done|]. split; [by apply chain_end|]. by split.
Qed.

Section walk.
Context (base : Z) (grants : Z -> Z -> bool).

(** The blocks that are too small are passed over. *)
Lemma malloc_walk rounds fuel nunits prevp s u z :
  chain s.(hp) prevp u z -> (forall a m, (a, m) ∈ u -> m < nunits /\ a <> s.(freep)) ->
  malloc_loop grants (length u + rounds) fuel nunits prevp (s.(hp) prevp).(h_ptr) s =
  malloc_loop grants rounds fuel nunits (end_of prevp u) (s.(hp) (end_of prevp u)).(h_ptr) s.
Proof.
  revert prevp. induction u as [|[b n] u IH]; intros prevp Hc Hu; [done|]. rewrite end_of_cons.
  destruct Hc as (C1 & C2 & C3). destruct (Hu b n ltac:(by left)) as [H1 H2].
  cbn [length Nat.add malloc_loop]. rewrite C1, C2. rewrite (proj2 (Z.leb_gt nunits n)), (proj2 (Z.eqb_neq b s.(freep))) by done.
  apply IH; [done|]. intros a m Hin. apply Hu. by right.
Qed.

(** What an allocation does: one block of the list gives [n] units at [b]. *)
Record allocated (s : mstate) (l : list (Z * Z)) (n : Z) (r : option Z) (s' : mstate) : Prop := {
  al_ring : exists l' b, r = Some (b + sizeof_Header) /\ ring base s' l' /\ in_use base s' l' b n /\
    (forall x, covers l x <-> covers l' x \/ b <= x < b + sizeof_Header * n) /\
    (forall x, x <> b -> ~ (exists m, (x, m) ∈ l) -> x <> base -> s'.(hp) x = s.(hp) x);
  al_brk : s'.(brk) = s.(brk);
}.

Section fit.
Context (s : mstate) (l1 l2 : list (Z * Z)) (a m n : Z) (p := end_of base l1).
Hypothesis (R : ring base s (l1 ++ (a, m) :: l2)) (Hn : 1 <= n <= m).

Lemma fit_nodes : p < a /\ NoDup (base :: map fst l1) /\ (a ∉ map fst l2) /\ (p ∉ map fst l2) /\ (a ∉ map fst l1) /\ base < a /\
  ordered (base_end base) l1 /\ top (base_end base) l1 < a /\ ordered (a + sizeof_Header * m) l2.
Proof.
  destruct R as [_ _ Ro _ _ _]. apply ordered_app in Ro as [O1 (O2 & O3 & O4)]. unfold base_end, sizeof_Header in *.
  destruct (ordered_nodup _ _ O1) as [N1 N2]. pose proof (top_le _ _ O1).
  assert (forall x, x ∈ map fst l1 -> x < a) as Hl.
  { intros x ([y k] & -> & Hin)%list_elem_of_fmap. apply (ordered_range _ _ _ _ O1) in Hin as (_ & ? & Hh). unfold sizeof_Header in Hh. cbn. lia. }
  assert (p < a) as Hp by (unfold p; destruct (end_of_in base l1) as [->|Hin]; [lia|by apply Hl]).
  split; [done|]. split; [constructor; [apply N2; lia|done]|].
  split; [intros Hin%(ordered_addr _ _ _ O4); lia|]. split; [intros Hin%(ordered_addr _ _ _ O4); lia|].
  split; [intros Hin%Hl; lia|]. split; [lia|done].
Qed.

(** The block fits exactly. *)
Lemma fit_exact : m = n ->
  allocated s (l1 ++ (a, m) :: l2) n (Some (a + sizeof_Header))
    (upd_hdr p (fun y => y <| h_ptr := (s.(hp) a).(h_ptr) |>) s <| freep := p |>).
Proof.
  intros Hmn. rewrite <- Hmn. destruct fit_nodes as (P1 & P2 & P3 & P4 & P5 & P6 & O1 & O2 & O3). pose proof R as [Rc Rb Ro Rf Rt Rr].
  apply chain_app in Rc as [C1 (C2 & C3 & C4)]. fold p in C2. rewrite top_app in Rt. cbn in Rt. unfold base_end, sizeof_Header in *.
  split; [|done]. exists (l1 ++ l2), a. split; [done|]. split; [|split; [|split]].
  - split; cbn.
    + apply chain_app. split.
      * eapply chain_relink; [exact C1|exact P2|..]; fold p; cbn; rewrite ?fn_lookup_alter; [|done|].
        -- cbn. destruct l2 as [|[q k] l2']; [done|]. by destruct C4.
        -- intros x _ Hx. by rewrite fn_lookup_alter_ne by congruence.
      * fold p. eapply (chain_agree s.(hp) _ a); [by rewrite fn_lookup_alter| |done].
        intros x Hx. rewrite fn_lookup_alter_ne; [done|]. congruence.
    + rewrite fn_alter_case. case_dec; cbn; congruence.
    + apply ordered_app. split; [done|]. eapply ordered_weaken; [|exact O3]. unfold base_end, sizeof_Header. lia.
    + rewrite map_app. unfold p. destruct (end_of_in base l1) as [->|Hin]; [by left|]. right. apply elem_of_app. by left.
    + rewrite top_app. unfold base_end, sizeof_Header. destruct l2 as [|[q k] l2']; cbn in *; lia.
    + done.
  - split; cbn; try done; try lia.
    + by rewrite fn_lookup_alter_ne by lia.
    + unfold base_end, sizeof_Header. pose proof (top_le _ _ O1). lia.
    + pose proof (top_le _ _ O3). unfold sizeof_Header. lia.
    + intros c k [Hin|Hin]%elem_of_app; unfold sizeof_Header.
      * apply (ordered_range _ _ _ _ O1) in Hin as (_ & _ & Hh). unfold sizeof_Header in Hh. left. lia.
      * apply (ordered_range _ _ _ _ O3) in Hin as (Hh & _). right. lia.
  - intros x. rewrite !covers_app, covers_cons. tauto.
  - intros x N1 N2 N3. cbn. rewrite fn_lookup_alter_ne; [done|]. intros Ex.
    destruct (end_of_in base l1) as [E|Hin]; [unfold p in Ex; congruence|]. apply N2.
    apply list_elem_of_fmap in Hin as ([y k] & E & Hin). exists k. rewrite <- Ex. unfold p. rewrite E. apply elem_of_app. by left.
Qed.

(** The block is cut: its upper part is given away. *)
Lemma fit_cut (b := a + sizeof_Header * (m - n)) : n < m -> s.(brk) <= 2 ^ 36 ->
  allocated s (l1 ++ (a, m) :: l2) n (Some (b + sizeof_Header))
    (let s := upd_hdr a (fun y => y <| h_size := u32 (y.(h_size) - n) |>) s in
     upd_hdr b (fun y => y <| h_size := n |>) s <| freep := p |>).
Proof.
  intros Hlt Hk. destruct fit_nodes as (P1 & P2 & P3 & P4 & P5 & P6 & O1 & O2 & O3). pose proof R as [Rc Rb Ro Rf Rt Rr].
  apply chain_app in Rc as [C1 (C2 & C3 & C4)]. fold p in C2. rewrite top_app in Rt. cbn in Rt. pose proof (top_le _ _ O3) as Ht3.
  pose proof (top_le _ _ O1) as Ht1. unfold base_end, sizeof_Header in *.
  assert (u32 ((s.(hp) a).(h_size) - n) = m - n) as Eu by (rewrite C3; apply u32_small; lia).
  assert (a < b) as Hab by (unfold b; lia).
  assert (forall x, x ∈ map fst l1 -> x <> a /\ x <> b) as N1.
  { intros x ([y k] & -> & Hin)%list_elem_of_fmap. apply (ordered_range _ _ _ _ O1) in Hin as (_ & ? & Hh). unfold sizeof_Header in Hh. cbn. lia. }
  assert (forall x, x ∈ map fst l2 -> x <> a /\ x <> b) as N2.
  { intros x Hx%(ordered_addr _ _ _ O3). unfold b. lia. }
  match goal with |- allocated _ _ _ _ ?t => set (s' := t) end.
  assert (forall x, x <> a -> x <> b -> s'.(hp) x = s.(hp) x) as Ho by (intros; cbn; by rewrite !fn_lookup_alter_ne).
  assert (s'.(hp) a = s.(hp) a <| h_size := m - n |>) as Ea.
  { cbn. rewrite fn_lookup_alter_ne, fn_lookup_alter by lia. by rewrite Eu. }
  assert (s'.(hp) b = s.(hp) b <| h_size := n |>) as Eb.
  { cbn. by rewrite fn_lookup_alter, fn_lookup_alter_ne by lia. }
  split; [|done]. exists (l1 ++ (a, m - n) :: l2), b. split; [done|]. split; [|split; [|split]].
  - split.
    + apply chain_app. split.
      * eapply (chain_agree s.(hp) _ base); [by rewrite Ho by lia| |done]. intros x [? ?]%N1. by apply Ho.
      * fold p. cbn [chain]. split; [by rewrite Ho by lia|]. split; [by rewrite Ea|].
        eapply (chain_agree s.(hp) _ a); [by rewrite Ea| |done]. intros x [? ?]%N2. by apply Ho.
    + by rewrite Ho by lia.
    + apply ordered_app. split; [done|]. cbn. unfold sizeof_Header, base_end. split; [done|]. split; [lia|].
      eapply ordered_weaken; [|exact O3]. lia.
    + change (freep s') with (end_of base l1). rewrite map_app. destruct (end_of_in base l1) as [->|Hin]; [by left|]. right. apply elem_of_app. by left.
    + rewrite top_app. cbn. unfold sizeof_Header. destruct l2 as [|[q k] l2']; cbn in *; lia.
    + done.
  - split; rewrite ?Eb; try done; try (unfold base_end, sizeof_Header, b; cbn; lia).
    intros c k [Hin|[[= -> ->]|Hin]%elem_of_cons]%elem_of_app; unfold sizeof_Header.
    + apply (ordered_range _ _ _ _ O1) in Hin as (_ & _ & Hh). unfold sizeof_Header in Hh. left. lia.
    + left. unfold b. lia.
    + apply (ordered_range _ _ _ _ O3) in Hin as (Hh & _). right. unfold b. lia.
  - intros x. rewrite !covers_app, !covers_cons. unfold sizeof_Header, b. split; intros H; repeat destruct H as [H|H]; auto; try lia.
  - intros x X1 X2 X3. apply Ho; [|done]. intros ->. apply X2. exists m. apply elem_of_app. right. by left.
Qed.
End fit.

(** The loop at a block that fits. *)
Lemma malloc_hit rounds fuel s l1 a m l2 n :
  ring base s (l1 ++ (a, m) :: l2) -> 1 <= n <= m ->
  exists r s', malloc_loop grants (S rounds) fuel n (end_of base l1) a s = Some (r, s') /\
    allocated s (l1 ++ (a, m) :: l2) n r s'.
Proof.
  intros R Hn. pose proof R as [Rc _ Ro _ Rt Rr]. apply chain_app in Rc as [_ (_ & C3 & _)].
  cbn [malloc_loop]. rewrite C3, (proj2 (Z.leb_le n m)) by lia. destruct (Z.eqb_spec m n) as [E|E].
  - eexists _, _. split; [done|]. by apply fit_exact.
  - eexists _, _. split; [done|]. unfold block_end. cbn. rewrite fn_lookup_alter. cbn.
    assert (u32 ((s.(hp) a).(h_size) - n) = m - n) as ->.
    { rewrite C3. apply u32_small. apply ordered_app in Ro as [O1 (O2 & O3 & O4)]. pose proof (top_le _ _ O1).
      rewrite top_app in Rt. cbn in Rt. pose proof (top_le _ _ O4). unfold base_end, sizeof_Header in *. lia. }
    apply fit_cut; [done|done|lia|lia].
Qed.

(** The first block around the ring that fits. *)
Lemma first_fit (l : list (Z * Z)) n : (exists a m, (a, m) ∈ l /\ n <= m) ->
  exists u a m v, l = u ++ (a, m) :: v /\ n <= m /\ forall b k, (b, k) ∈ u -> k < n.
Proof.
  induction l as [|[b k] l IH]; intros (a & m & Hin & Hm); [by apply elem_of_nil in Hin|].
  destruct (decide (n <= k)) as [H|H].
  { exists [], b, k, l. split; [done|]. split; [done|]. intros ? ? Hx. by apply elem_of_nil in Hx. }
  destruct IH as (u & a' & m' & v & -> & H1 & H2).
  { exists a, m. apply elem_of_cons in Hin as [[= -> ->]|Hin]; [lia|done]. }
  exists ((b, k) :: u), a', m', v. split; [done|]. split; [done|].
  intros b' k' [[= -> ->]|Hin']%elem_of_cons; [lia|by eapply H2].
Qed.

(** From the header [f], a block of the ring comes after the block below it. *)
Lemma ring_pred l c1 c2 f mf u a m v :
  (base, 0) :: l = c1 ++ (f, mf) :: c2 -> c2 ++ c1 ++ [(f, mf)] = u ++ (a, m) :: v -> a <> base ->
  exists l1 l2, l = l1 ++ (a, m) :: l2 /\ end_of f u = end_of base l1.
Proof.
  intros E1 E2 Ha. destruct c1 as [|[b0 m0] c1]; cbn in E1; injection E1 as <- <- ->;
    apply app_eq_inv in E2 as [(k & -> & Ek)|(k & -> & Ek)]; destruct k as [|x k]; cbn in Ek;
    injection Ek; try (intros; congruence).
  - intros _ <-. by exists u, k.
  - intros Ek' _. by destruct k.
  - intros _ <-. exists (c1 ++ (f, mf) :: u), k. split; [by rewrite <- app_assoc|]. by rewrite end_of_app, end_of_cons.
  - intros Ek' <-. rewrite end_of_app, end_of_cons.
    apply app_eq_inv in Ek' as [(j & -> & Ej)|(j & -> & Ej)]; destruct j as [|y j]; cbn in Ej; injection Ej.
    + intros _ -> ->. rewrite app_nil_r. by exists k, c2.
    + intros _ <-. exists k, (j ++ (f, mf) :: c2). split; [by rewrite <- app_assoc|done].
    + intros _ -> ->. exists c1, c2. by rewrite app_nil_r.
    + intros Ej' _. by destruct j.
Qed.

(** A search that succeeds. *)
Lemma malloc_fits rounds fuel s l n :
  ring base s l -> 1 <= n -> (exists a m, (a, m) ∈ l /\ n <= m) -> (length l + 1 < rounds)%nat ->
  exists r s', malloc_loop grants rounds fuel n s.(freep) (s.(hp) s.(freep)).(h_ptr) s = Some (r, s') /\ allocated s l n r s'.
Proof.
  intros R Hn Hex Hr. pose proof R as [Rc Rb Ro Rf Rt Rr].
  destruct (ring_from _ _ _ _ Rc Rb Rf) as (c1 & mf & c2 & Ec & Ef & Hc).
  assert (chain s.(hp) s.(freep) (c2 ++ c1 ++ [(s.(freep), mf)]) (s.(hp) s.(freep)).(h_ptr)) as Hc'.
  { rewrite app_assoc. apply chain_app. split; [done|]. split; [by apply chain_end|]. by split. }
  destruct (first_fit (c2 ++ c1 ++ [(s.(freep), mf)]) n) as (u & a & m & v & Eu & Hm & Hu).
  { destruct Hex as (a & m & Hin & Hm). exists a, m. split; [|done].
    assert ((a, m) ∈ (base, 0) :: l) as H by by right. rewrite Ec in H. set_solver. }
  assert (length u < rounds)%nat as Hlen.
  { pose proof (f_equal length Ec) as L1. pose proof (f_equal length Eu) as L2.
    repeat (rewrite length_app in L1 || rewrite length_app in L2). cbn in L1, L2. lia. }
  assert (NoDup (map fst ((base, 0) :: l))) as Hnd.
  { destruct (ordered_nodup _ _ Ro) as [N1 N2]. cbn. constructor; [|done]. apply N2. unfold base_end, sizeof_Header. lia. }
  assert (forall b k, (b, k) ∈ u -> b <> s.(freep)) as Huf.
  { rewrite Ec, map_app in Hnd. cbn in Hnd. apply (NoDup_Permutation_proper _ (map fst (c2 ++ c1 ++ [(s.(freep), mf)]))) in Hnd.
    2: { rewrite !map_app. cbn. solve_Permutation. }
    intros b k Hin ->. rewrite Eu, map_app in Hnd. apply NoDup_app in Hnd as (_ & Hd & _).
    apply (Hd s.(freep)); [apply list_elem_of_fmap; by exists (s.(freep), k)|].
    destruct (@exists_last _ ((a, m) :: v) ltac:(done)) as (w & y & Ew). rewrite Ew, !app_assoc in Eu.
    apply app_inj_tail in Eu as [_ Ey]. rewrite Ew, map_app, <- Ey. apply elem_of_app. right. by left. }
  rewrite Eu in Hc'. apply chain_app in Hc' as [Cu (Ca & Cm & Cv)].
  assert (a <> base) as Hab by (intros ->; rewrite Rb in Cm; lia).
  destruct (ring_pred l c1 c2 _ mf u a m v Ec Eu Hab) as (l1 & l2 & -> & Ep).
  replace rounds with (length u + (rounds - length u))%nat by lia. rewrite (malloc_walk _ _ _ _ _ u _ Cu) by eauto.
  rewrite Ca, Ep. replace (rounds - length u)%nat with (S (rounds - length u - 1)) by lia.
  apply malloc_hit; [done|lia].
Qed.

(** A search without a block that fits comes back to its start. *)
Lemma malloc_none rounds fuel s l n :
  ring base s l -> 1 <= n -> (forall a m, (a, m) ∈ l -> m < n) -> (length l + 1 < rounds)%nat ->
  exists k prevp, (rounds <= k + length l + 1)%nat /\ (1 <= k)%nat /\
    malloc_loop grants rounds fuel n s.(freep) (s.(hp) s.(freep)).(h_ptr) s =
    malloc_loop grants k fuel n prevp s.(freep) s /\ (s.(hp) s.(freep)).(h_size) < n.
Proof.
  intros R Hn Hsm Hr. pose proof R as [Rc Rb Ro Rf Rt Rr].
  destruct (ring_from _ _ _ _ Rc Rb Rf) as (c1 & mf & c2 & Ec & Ef & Hc).
  assert (forall b k, (b, k) ∈ (base, 0) :: l -> k < n) as Hall.
  { intros b k [[= -> ->]|Hin]%elem_of_cons; [lia|by eapply Hsm]. }
  pose proof (f_equal length Ec) as L1. rewrite length_app in L1. cbn in L1.
  assert (NoDup (map fst ((base, 0) :: l))) as Hnd.
  { destruct (ordered_nodup _ _ Ro) as [N1 N2]. cbn. constructor; [|done]. apply N2. unfold base_end, sizeof_Header. lia. }
  rewrite Ec in Hall, Hnd. exists (rounds - length (c2 ++ c1))%nat, (end_of s.(freep) (c2 ++ c1)).
  rewrite length_app. split; [lia|]. split; [lia|]. split; [|rewrite Ef; apply (Hall s.(freep)); set_solver].
  replace rounds with (length (c2 ++ c1) + (rounds - length (c2 ++ c1)))%nat at 1 by (rewrite length_app; lia).
  rewrite (malloc_walk _ _ _ _ _ _ _ Hc); [by rewrite (chain_end _ _ _ _ Hc), length_app|].
  intros b k Hin. split; [apply (Hall b); set_solver|]. intros ->. rewrite map_app in Hnd. cbn in Hnd.
  apply NoDup_app in Hnd as (_ & Hd & Hnd). apply NoDup_cons in Hnd as [Hn2 _].
  apply elem_of_app in Hin as [Hin|Hin]; [apply Hn2|apply (Hd s.(freep)); [|by left]];
    apply list_elem_of_fmap; by exists (s.(freep), k).
Qed.
End walk.

(** Two blocks of a sorted list are the same or have a gap between them. *)
Lemma ordered_sep lo l a m a' m' : ordered lo l -> (a, m) ∈ l -> (a', m') ∈ l ->
  (a, m) = (a', m') \/ a + sizeof_Header * m < a' \/ a' + sizeof_Header * m' < a.
Proof.
  revert lo. induction l as [|[b k] l IH]; intros lo Ho Hin Hin'; [by apply elem_of_nil in Hin|]. destruct Ho as (O1 & O2 & O3).
  apply elem_of_cons in Hin as [E|Hin]; apply elem_of_cons in Hin' as [E'|Hin']; simplify_eq; [by left|..].
  - right. left. by apply (ordered_range _ _ _ _ O3) in Hin' as (? & _).
  - right. right. by apply (ordered_range _ _ _ _ O3) in Hin as (? & _).
  - by eapply IH.
Qed.

(** A stretch of free memory lies within one block. *)
Lemma covers_block lo l b k : ordered lo l -> 1 <= k -> (forall x, b <= x < b + sizeof_Header * k -> covers l x) ->
  exists a m, (a, m) ∈ l /\ k <= m.
Proof.
  unfold sizeof_Header. intros Ho Hk Hc. destruct (Hc b) as (a & m & Hin & Hx); [lia|]. unfold sizeof_Header in Hx. exists a, m. split; [done|].
  destruct (decide (b + 16 * k <= a + 16 * m)); [lia|]. destruct (Hc (a + 16 * m)) as (a' & m' & Hin' & Hx'); [lia|]. unfold sizeof_Header in Hx'.
  pose proof (ordered_range _ _ _ _ Ho Hin) as (_ & ? & _). pose proof (ordered_range _ _ _ _ Ho Hin') as (_ & ? & _).
  destruct (ordered_sep _ _ _ _ _ _ Ho Hin Hin') as [[= -> ->]|[H1|H1]]; unfold sizeof_Header in *; lia.
Qed.

Definition more (n : Z) : Z := if n <? 4096 then 4096 else n.

Lemma morecore_spec base (grants : Z -> Z -> bool) fuel n s l :
  ring base s l -> 1 <= n < 2 ^ 27 -> (grants s.(brk) (more n * sizeof_Header) = true -> s.(brk) + sizeof_Header * more n <= 2 ^ 36) ->
  (length l < fuel)%nat ->
  if grants s.(brk) (more n * sizeof_Header) then
    exists s' l', morecore grants fuel n s = Some (Some s'.(freep), s') /\ ring base s' l' /\
      (forall x, covers l' x <-> covers l x \/ s.(brk) <= x < s'.(brk)) /\ s'.(brk) = s.(brk) + sizeof_Header * more n /\
      (forall x, x <> s.(brk) -> x ∉ base :: map fst l -> s'.(hp) x = s.(hp) x) /\ (length l' <= S (length l))%nat
  else morecore grants fuel n s = Some (None, s).
Proof.
  intros R Hn Hk Hf. unfold morecore, sbrk. fold (more n).
  assert (s32 (more n * sizeof_Header) = more n * sizeof_Header) as -> by (apply s32_small; unfold more, sizeof_Header; destruct (Z.ltb_spec n 4096); lia).
  destruct (grants s.(brk) (more n * sizeof_Header)) eqn:E; [|done].
  specialize (Hk eq_refl). assert (4096 <= more n < 2 ^ 27 /\ n <= more n) as [Hm1 Hm2] by (unfold more; destruct (Z.ltb_spec n 4096); lia).
  unfold sizeof_Header in *. pose proof R as [Rc Rb Ro Rf Rt [Rr1 Rr2]].
  set (s1 := upd_hdr s.(brk) _ _). unfold base_end, sizeof_Header in *.
  assert (forall x, x ∈ base :: map fst l -> s1.(hp) x = s.(hp) x) as Hsame.
  { intros x Hx. cbn. apply fn_lookup_alter_ne. apply elem_of_cons in Hx as [->|([y k] & -> & Hin)%list_elem_of_fmap]; [lia|].
    apply (ordered_range _ _ _ _ Ro) in Hin as (_ & ? & ?). unfold sizeof_Header in *. cbn. lia. }
  assert (ring base s1 l) as R1.
  { split; try done; [|by rewrite Hsame by by left|cbn; unfold base_end, sizeof_Header; lia|cbn; unfold sizeof_Header; lia].
    eapply (chain_agree s.(hp) _ base); [|intros x Hx; apply Hsame; by right|done]. by rewrite Hsame by by left. }
  destruct (free_spec base s1 l s.(brk) (more n) fuel R1) as (s' & l' & Ef & R' & Hc & Hb & Ho & Hl); [|done|].
  { split; cbn; unfold base_end, sizeof_Header; try lia; [by rewrite fn_lookup_alter|].
    intros a m Hin. apply (ordered_range _ _ _ _ Ro) in Hin as (_ & _ & ?). unfold sizeof_Header in *. left. lia. }
  unfold sizeof_Header in Ef. rewrite Ef. cbn [mbind option_bind]. exists s', l'. rewrite Hb. cbn.
  split; [done|]. split; [done|]. split; [|split; [lia|split; [|done]]].
  - intros x. rewrite Hc. unfold sizeof_Header. replace (s.(brk) + more n * 16) with (s.(brk) + 16 * more n) by lia. done.
  - intros x N1 N2. rewrite Ho by done. cbn. by apply fn_lookup_alter_ne.
Qed.

(** ** Blocks in use *)

Lemma in_use_uncovered base s l c k : ring base s l -> in_use base s l c k ->
  forall x, c <= x < c + sizeof_Header * k -> ~ covers l x.
Proof.
  intros R U x Hx (a & m & Hin & Ha). destruct (iu_apart _ _ _ _ _ U a m Hin); lia.
Qed.

(** A block in use stays so when its header and the free memory around it allow it. *)
Lemma in_use_keep base s s' l l' c k :
  in_use base s l c k -> ring base s' l' -> s'.(hp) c = s.(hp) c -> s.(brk) <= s'.(brk) ->
  (forall x, c <= x < c + sizeof_Header * k -> ~ covers l' x) -> in_use base s' l' c k.
Proof.
  intros [U1 U2 U3 U4 U5] R Eh Eb Hc. split; [by rewrite Eh|done|done|lia|].
  intros a m Hin. pose proof (ordered_range _ _ _ _ (rg_order _ _ _ R) Hin) as (_ & Hm & _). unfold sizeof_Header in *.
  destruct (decide (a + 16 * m <= c)) as [|N1]; [by left|]. destruct (decide (c + 16 * k <= a)) as [|N2]; [by right|].
  destruct (Hc (Z.max a c)); [lia|]. exists a, m. split; [done|]. unfold sizeof_Header. lia.
Qed.

(** The header of a block in use is not that of a free block. *)
Lemma in_use_header base s l c k : ring base s l -> in_use base s l c k ->
  (c ∉ base :: map fst l) /\ ~ (exists m, (c, m) ∈ l) /\ c <> base /\ c < s.(brk).
Proof.
  intros R [U1 U2 U3 U4 U5]. unfold base_end, sizeof_Header in *.
  assert (~ (exists m, (c, m) ∈ l)) as Hl.
  { intros [m Hin]. pose proof (ordered_range _ _ _ _ (rg_order _ _ _ R) Hin) as (_ & Hm & _).
    destruct (U5 c m Hin); unfold sizeof_Header in *; lia. }
  split; [|split; [done|lia]]. intros [->|([y m] & -> & Hin)%list_elem_of_fmap]%elem_of_cons; [lia|]. apply Hl. by exists m.
Qed.

Definition disjoint_blocks (b n c k : Z) : Prop := b + sizeof_Header * n <= c \/ c + sizeof_Header * k <= b.

(** What [malloc] has done: a block [b] of [n] units, taken from the free memory and
    from what [sbrk] added; the other blocks in use are not affected. *)
Record malloced (base : Z) (s : mstate) (l : list (Z * Z)) (n : Z) (b : Z) (s' : mstate) (l' : list (Z * Z)) : Prop := {
  ma_ring : ring base s' l';
  ma_use : in_use base s' l' b n;
  ma_brk : s.(brk) <= s'.(brk);
  ma_covers : forall x, covers l x \/ s.(brk) <= x < s'.(brk) <-> covers l' x \/ b <= x < b + sizeof_Header * n;
  ma_other : forall c k, in_use base s l c k -> in_use base s' l' c k /\ disjoint_blocks b n c k;
}.

Lemma allocated_malloced base s l n r s' :
  ring base s l -> 1 <= n -> allocated base s l n r s' -> exists b l', r = Some (b + sizeof_Header) /\ malloced base s l n b s' l'.
Proof.
  intros R Hn [(l' & b & -> & R' & U' & Hc & Ho) Hb]. exists b, l'. split; [done|].
  assert (forall x, b <= x < b + sizeof_Header * n -> covers l x) as Hbl by (intros x Hx; apply Hc; by right).
  split; [done|done|lia| |].
  - intros x. rewrite Hb, Hc. split; [intros [?|?]; [done|lia]|by left].
  - intros c k U. pose proof (in_use_uncovered _ _ _ _ _ R U) as Hun. destruct (in_use_header _ _ _ _ _ R U) as (_ & H2 & H3 & _).
    pose proof (iu_n _ _ _ _ _ U) as Hk. unfold sizeof_Header in *.
    assert (c <> b) as Hcb by (intros ->; apply (Hun b); [lia|]; apply Hbl; lia). split.
    + eapply in_use_keep; [exact U|done|by apply Ho|lia|]. intros x Hx Hx'. apply (Hun x Hx), Hc. by left.
    + unfold disjoint_blocks, sizeof_Header. destruct (decide (b + 16 * n <= c)); [by left|]. destruct (decide (c + 16 * k <= b)); [by right|].
      destruct (Hun (Z.max b c)); [lia|]. apply Hbl. lia.
Qed.

(** The search of [malloc], with [morecore] when no block fits. *)
Lemma malloc_loop_spec base grants rounds fuel n s l :
  ring base s l -> 1 <= n < 2 ^ 27 -> (grants s.(brk) (more n * sizeof_Header) = true -> s.(brk) + sizeof_Header * more n <= 2 ^ 36) ->
  (length l < fuel)%nat -> (2 * length l + 5 < rounds)%nat ->
  exists r s', malloc_loop grants rounds fuel n s.(freep) (s.(hp) s.(freep)).(h_ptr) s = Some (r, s') /\
    match r with
    | Some ap => exists b l', ap = b + sizeof_Header /\ malloced base s l n b s' l'
    | None => s' = s /\ grants s.(brk) (more n * sizeof_Header) = false /\ forall a m, (a, m) ∈ l -> m < n
    end.
Proof.
  intros R Hn Hk Hf Hr. destruct (decide (Exists (fun am => n <= am.2) l)) as [Hex|Hex].
  - apply Exists_exists in Hex as ([a m] & Hin & Hm).
    destruct (malloc_fits base grants rounds fuel s l n R ltac:(lia)) as (r & s' & E & A); [by exists a, m|lia|].
    exists r, s'. split; [done|]. apply (allocated_malloced _ _ _ _ _ _ R) in A as (b & l' & -> & M); [|lia]. by exists b, l'.
  - assert (forall a m, (a, m) ∈ l -> m < n) as Hall.
    { intros a m Hin. destruct (decide (n <= m)); [|lia]. destruct Hex. apply Exists_exists. by exists (a, m). }
    destruct (malloc_none base grants rounds fuel s l n R ltac:(lia) Hall ltac:(lia)) as (k & prevp & Hk1 & Hk2 & -> & Hsz).
    destruct k as [|k]; [lia|]. cbn [malloc_loop]. rewrite (proj2 (Z.leb_gt n _)), Z.eqb_refl by done.
    pose proof (morecore_spec base grants fuel n s l R Hn Hk Hf) as Hm. destruct (grants s.(brk) (more n * sizeof_Header)) eqn:Eg.
    2: { rewrite Hm. cbn. by exists None, s. }
    destruct Hm as (s1 & l1 & -> & R1 & C1 & B1 & O1 & L1). cbn [mbind option_bind].
    assert (n <= more n) as Hmn by (unfold more; destruct (Z.ltb_spec n 4096); lia). unfold sizeof_Header in *.
    destruct (covers_block _ l1 s.(brk) (more n) (rg_order _ _ _ R1)) as (a & m & Hin & Hm); [lia|intros x Hx; apply C1; right; unfold sizeof_Header in *; lia|].
    destruct (malloc_fits base grants k fuel s1 l1 n R1 ltac:(lia)) as (r & s' & E & A); [exists a, m; split; [done|lia]|lia|].
    rewrite E. exists r, s'. split; [done|]. apply (allocated_malloced _ _ _ _ _ _ R1) in A as (b & l' & -> & [M1 M2 M3 M4 M5]); [|lia].
    exists b, l'. split; [done|]. split; [done|done|lia| |].
    + intros x. rewrite <- M4, C1. destruct (decide (x < s1.(brk))); split; intros; intuition lia.
    + intros c j U. apply M5. destruct (in_use_header _ _ _ _ _ R U) as (H1 & _ & H3 & H4). pose proof (iu_n _ _ _ _ _ U).
      pose proof (iu_high _ _ _ _ _ U) as Hh. unfold sizeof_Header in *.
      eapply in_use_keep; [exact U|done|apply O1; [lia|done]|lia|].
      intros x Hx [Hx'|Hx']%C1; [by apply (in_use_uncovered _ _ _ _ _ R U x)|unfold sizeof_Header in *; lia].
Qed.

(** ** A program that uses the allocator *)

(** More fuel does not change a result. *)
Lemma find_pos_mono f f' h bp p r : find_pos f h bp p = Some r -> (f <= f')%nat -> find_pos f' h bp p = Some r.
Proof.
  revert f' p. induction f as [|f IH]; intros f' p H Hf; destruct f' as [|f']; cbn [find_pos] in *; try lia; try done;
    destruct (_ && _); try done; destruct (_ && _); try done. apply IH; [done|lia].
Qed.

Lemma free_mono f f' ap s s' : free f ap s = Some s' -> (f <= f')%nat -> free f' ap s = Some s'.
Proof.
  unfold free, free_block. intros H Hf. apply bind_Some in H as (p & Hp & H). by rewrite (find_pos_mono _ _ _ _ _ _ Hp Hf).
Qed.

Lemma morecore_mono grants f f' nu s r : morecore grants f nu s = Some r -> (f <= f')%nat -> morecore grants f' nu s = Some r.
Proof.
  unfold morecore. intros H Hf. destruct (sbrk _ _ _) as [[p|] s1]; [|done]. apply bind_Some in H as (s2 & H2 & H).
  by rewrite (free_mono _ _ _ _ _ H2 Hf).
Qed.

Lemma malloc_loop_mono grants f f' g g' n prevp p s r :
  malloc_loop grants f g n prevp p s = Some r -> (f <= f')%nat -> (g <= g')%nat -> malloc_loop grants f' g' n prevp p s = Some r.
Proof.
  revert f' prevp p s. induction f as [|f IH]; intros f' prevp p s H Hf Hg; [done|]. destruct f' as [|f']; [lia|].
  cbn [malloc_loop] in *. destruct (n <=? _); [done|]. destruct (p =? _); [|apply IH; [done|lia|done]].
  apply bind_Some in H as ([[q|] s1] & H1 & H); rewrite (morecore_mono _ _ _ _ _ _ H1 Hg); [|done]. cbn. apply IH; [done|lia|done].
Qed.

(** Requests whose size in bytes, with the header, fits the [int] that [sbrk] takes. *)
Definition max_request : Z := 2 ^ 31 - 31.

Lemma units_spec nbytes : 0 <= nbytes < max_request ->
  1 <= units nbytes < 2 ^ 27 /\ nbytes <= sizeof_Header * (units nbytes - 1).
Proof.
  unfold max_request. intros H. unfold units, sizeof_Header. rewrite u32_small; Z.div_mod_to_equations; lia.
Qed.

(** The allocator before its first use. *)
Record fresh (base : Z) (s : mstate) : Prop := {
  fr_freep : s.(freep) = 0;
  fr_range : 0 < base /\ base + sizeof_Header <= s.(brk) <= 2 ^ 36;
}.

Definition start_ring (base : Z) (s : mstate) : mstate :=
  upd_hdr base (fun x => x <| h_size := 0 |>) (upd_hdr base (fun x => x <| h_ptr := base |>) s <| freep := base |>).

Lemma start_ring_ok base s : fresh base s -> ring base (start_ring base s) [].
Proof.
  intros [Hf Hr]. split; cbn; try done.
  - by rewrite !fn_lookup_alter.
  - by rewrite fn_lookup_alter.
  - by left.
  - unfold base_end. lia.
Qed.

(** No two blocks of the list overlap. *)
Fixpoint apart_all (live : list (Z * Z)) : Prop :=
  match live with
  | [] => True
  | (b, n) :: live => (forall c k, (c, k) ∈ live -> disjoint_blocks b n c k) /\ apart_all live
  end.

Lemma apart_all_app l1 l2 : apart_all (l1 ++ l2) <->
  apart_all l1 /\ apart_all l2 /\ forall b n c k, (b, n) ∈ l1 -> (c, k) ∈ l2 -> disjoint_blocks b n c k.
Proof.
  induction l1 as [|[a m] l1 IH]; cbn.
  - split; [|tauto]. intros H. split; [done|]. split; [done|]. intros b n c k Hin. by apply elem_of_nil in Hin.
  - rewrite IH. setoid_rewrite elem_of_app. setoid_rewrite elem_of_cons. split.
    + intros (H1 & H2 & H3 & H4). split; [split; [intros; apply H1; by left|done]|]. split; [done|].
      intros b n c k [[= -> ->]|Hb] Hc; [apply H1; by right|by eapply H4].
    + intros ((H1 & H2) & H3 & H4). split; [|split; [done|split; [done|]]].
      * intros c k [Hc|Hc]; [by apply H1|]. apply (H4 a m); [by left|done].
      * intros b n c k Hb Hc. apply (H4 b n); [by right|done].
Qed.

Section client.
Context (base : Z) (grants : Z -> Z -> bool).
(** The kernel does not let the data segment grow beyond 64 GB. *)
Hypothesis grants_ok : forall a n, grants a n = true -> a + n <= 2 ^ 36.

(** A program allocates, frees, and writes to the memory of its blocks after their
    headers: the allocator and the blocks that the program has. *)
Inductive step : mstate * list (Z * Z) -> mstate * list (Z * Z) -> Prop :=
| step_malloc s live fuel nbytes ap s' :
    0 <= nbytes < max_request -> malloc base grants fuel fuel nbytes s = Some (Some ap, s') ->
    step (s, live) (s', (ap - sizeof_Header, units nbytes) :: live)
| step_null s live fuel nbytes s' :
    0 <= nbytes < max_request -> malloc base grants fuel fuel nbytes s = Some (None, s') -> step (s, live) (s', live)
| step_free s live1 b n live2 fuel s' :
    free fuel (b + sizeof_Header) s = Some s' -> step (s, live1 ++ (b, n) :: live2) (s', live1 ++ live2)
| step_write s live b n x f :
    (b, n) ∈ live -> b + sizeof_Header <= x < b + sizeof_Header * n -> step (s, live) (upd_hdr x f s, live).

Inductive reachable : mstate * list (Z * Z) -> Prop :=
| reach_start s : fresh base s -> reachable (s, [])
| reach_step x y : reachable x -> step x y -> reachable y.

(** The blocks of the program are in use and do not overlap. *)
Definition heap_ok (s : mstate) (l live : list (Z * Z)) : Prop :=
  ring base s l /\ (forall b n, (b, n) ∈ live -> in_use base s l b n) /\ apart_all live.

Lemma malloc_ring s l nbytes fuel : ring base s l -> 0 <= nbytes < max_request -> (2 * length l + 5 < fuel)%nat ->
  exists r s', malloc base grants fuel fuel nbytes s = Some (r, s') /\
    match r with
    | Some ap => exists b l', ap = b + sizeof_Header /\ malloced base s l (units nbytes) b s' l'
    | None => s' = s
    end.
Proof.
  intros R Hn Hf. destruct (units_spec nbytes Hn) as [Hu _]. unfold malloc.
  assert (s.(freep) <> 0) as Hne.
  { intros E. destruct R as [_ _ Ro Rf _ Rr]. rewrite E in Rf. apply elem_of_cons in Rf as [E'|Rf]; [lia|].
    apply (ordered_addr _ _ _ Ro) in Rf. unfold base_end, sizeof_Header in *. lia. }
  rewrite (proj2 (Z.eqb_neq _ _) Hne).
  destruct (malloc_loop_spec base grants fuel fuel (units nbytes) s l R Hu) as (r & s' & E & H); [|lia|lia|].
  { intros Hg%grants_ok. lia. }
  exists r, s'. split; [done|]. destruct r; [done|]. by destruct H.
Qed.

(** The first call sets up the ring. *)
Lemma malloc_fresh s nbytes fuel : fresh base s -> malloc base grants fuel fuel nbytes s = malloc base grants fuel fuel nbytes (start_ring base s).
Proof.
  intros F. unfold malloc. rewrite (fr_freep _ _ F). change (freep (start_ring base s)) with base.
  destruct (Z.eqb_spec base 0) as [E|_]; [destruct (fr_range _ _ F); lia|done].
Qed.

Lemma heap_malloc s l live n b s' l' : heap_ok s l live -> malloced base s l n b s' l' -> heap_ok s' l' ((b, n) :: live).
Proof.
  intros (R & U & A) [M1 M2 M3 M4 M5]. split; [done|]. split; [|split; [|done]].
  - intros c k [[= -> ->]|Hin]%elem_of_cons; [done|]. by apply M5, U.
  - intros c k Hin. by apply M5, U.
Qed.

Lemma heap_free s l live1 b n live2 fuel : heap_ok s l (live1 ++ (b, n) :: live2) -> (length l < fuel)%nat ->
  exists s' l', free fuel (b + sizeof_Header) s = Some s' /\ heap_ok s' l' (live1 ++ live2).
Proof.
  intros (R & U & A) Hf. assert (in_use base s l b n) as Ub by (apply U, elem_of_app; right; by left).
  destruct (free_spec base s l b n fuel R Ub Hf) as (s' & l' & E & R' & Hc & Hb & Ho & _).
  exists s', l'. split; [done|]. apply apart_all_app in A as (A1 & (A2 & A3) & A4). split; [done|]. split.
  - intros c k Hin. assert (disjoint_blocks c k b n) as Hd.
    { apply elem_of_app in Hin as [Hin|Hin]; [apply (A4 c k); [done|by left]|]. unfold disjoint_blocks. destruct (A2 c k Hin); [by right|by left]. }
    assert (in_use base s l c k) as Uc by (apply U; apply elem_of_app in Hin as [?|?]; apply elem_of_app; [by left|right; by right]).
    destruct (in_use_header _ _ _ _ _ R Uc) as (H1 & _). pose proof (iu_n _ _ _ _ _ Uc). pose proof (iu_n _ _ _ _ _ Ub).
    unfold disjoint_blocks, sizeof_Header in *.
    eapply in_use_keep; [exact Uc|done|apply Ho; [lia|done]|lia|].
    intros x Hx [Hx'|Hx']%Hc; [by apply (in_use_uncovered _ _ _ _ _ R Uc x)|]. unfold sizeof_Header in *. lia.
  - apply apart_all_app. split; [done|]. split; [done|]. intros c k c' k' Hin Hin'. apply A4; [done|by right].
Qed.

(** What the program writes to its blocks is no header of the allocator. *)
Lemma heap_write s l live b n x f : heap_ok s l live -> (b, n) ∈ live -> b + sizeof_Header <= x < b + sizeof_Header * n ->
  heap_ok (upd_hdr x f s) l live.
Proof.
  intros (R & U & A) Hin Hx. pose proof (U b n Hin) as Ub.
  assert (forall y, y <> x -> hp (upd_hdr x f s) y = hp s y) as Hh by (intros y Hy; by apply fn_lookup_alter_ne).
  assert (x ∉ base :: map fst l) as Hn.
  { intros [->|([y m] & -> & Hy)%list_elem_of_fmap]%elem_of_cons.
    - pose proof (iu_low _ _ _ _ _ Ub). unfold base_end, sizeof_Header in *. lia.
    - pose proof (ordered_range _ _ _ _ (rg_order _ _ _ R) Hy). cbn in Hx.
      destruct (iu_apart _ _ _ _ _ Ub y m Hy); unfold sizeof_Header in *; lia. }
  assert (ring base (upd_hdr x f s) l) as R'.
  { destruct R as [R1 R2 R3 R4 R5 R6]. apply not_elem_of_cons in Hn as [Hn1 Hn2]. split; [|by rewrite Hh|done..].
    eapply chain_agree; [..|exact R1]; [by rewrite Hh|]. intros y Hy. apply Hh. by intros ->. }
  split; [done|]. split; [|done]. intros c k Hc. pose proof (U c k Hc) as Uc.
  eapply in_use_keep; [exact Uc|done| |done|by apply (in_use_uncovered base s)].
  apply Hh. intros ->. apply list_elem_of_split in Hin as (l1 & l2 & ->). apply apart_all_app in A as (_ & (A2 & _) & A4).
  pose proof (iu_n _ _ _ _ _ Uc). unfold disjoint_blocks, sizeof_Header in *. apply elem_of_app in Hc as [Hc|[[= -> ->]|Hc]%elem_of_cons].
  - destruct (A4 x k b n Hc); [by left|lia..].
  - lia.
  - destruct (A2 x k Hc); lia.
Qed.

(** The invariant of every state of the program. *)
Lemma reachable_ok s live : reachable (s, live) -> (fresh base s /\ live = []) \/ exists l, heap_ok s l live.
Proof.
  intros H. remember (s, live) as x eqn:Ex. revert s live Ex. induction H as [s F|x y Hr IH Hs]; intros s1 live1 Ex; [left; by simplify_eq|].
  assert (forall s live nbytes fuel r s', 0 <= nbytes < max_request -> (fresh base s /\ live = []) \/ (exists l, heap_ok s l live) ->
    malloc base grants fuel fuel nbytes s = Some (r, s') ->
    exists l, match r with Some ap => heap_ok s' l ((ap - sizeof_Header, units nbytes) :: live) | None => heap_ok s' l live end) as Hm.
  { intros s live nbytes fuel r s' Hn Hok E.
    assert (exists s0 l, heap_ok s0 l live /\ malloc base grants fuel fuel nbytes s0 = Some (r, s')) as (s0 & l & Hok0 & E0).
    { destruct Hok as [[F ->]|[l Hok]]; [|by exists s, l]. exists (start_ring base s), []. rewrite <- malloc_fresh by done. split; [|done].
      split; [by apply start_ring_ok|]. split; [intros b n Hin; by apply elem_of_nil in Hin|done]. }
    pose proof Hok0 as (R0 & _).
    destruct (malloc_ring s0 l nbytes (fuel + (2 * length l + 6)) R0 Hn ltac:(lia)) as (r' & s2 & E2 & H2).
    assert (malloc base grants (fuel + (2 * length l + 6)) (fuel + (2 * length l + 6)) nbytes s0 = Some (r, s')) as E3
      by (eapply malloc_loop_mono; [exact E0|lia|lia]).
    rewrite E3 in E2. injection E2 as <- <-. destruct r as [ap|]; [|subst; by exists l].
    destruct H2 as (b & l' & -> & M). exists l'. replace (b + sizeof_Header - sizeof_Header) with b by lia. by eapply heap_malloc. }
  destruct Hs as [s live fuel nbytes ap s' Hn E|s live fuel nbytes s' Hn E|s lv1 b n lv2 fuel s' E|s live b n x f Hin Hx]; injection Ex as <- <-; right.
  - apply (Hm s live nbytes fuel (Some ap)); [done|by apply IH|done].
  - apply (Hm s live nbytes fuel None); [done|by apply IH|done].
  - destruct (IH _ _ eq_refl) as [[_ E0]|[l Hok]]; [by destruct lv1|].
    destruct (heap_free s l lv1 b n lv2 (fuel + S (length l)) Hok ltac:(lia)) as (s2 & l' & E2 & Hok').
    assert (free (fuel + S (length l)) (b + sizeof_Header) s = Some s') as E3 by (eapply free_mono; [exact E|lia]).
    rewrite E3 in E2. injection E2 as <-. by exists l'.
  - destruct (IH _ _ eq_refl) as [[_ ->]|[l Hok]]; [by apply elem_of_nil in Hin|]. exists l. by eapply heap_write.
Qed.

(** The calls that a state of the program admits. *)
Lemma malloc_total s live nbytes : reachable (s, live) -> 0 <= nbytes < max_request ->
  exists fuel r s', malloc base grants fuel fuel nbytes s = Some (r, s') /\
    match r with Some ap => base < ap - sizeof_Header /\ ap + nbytes <= s'.(brk) | None => True end.
Proof.
  intros H Hn. assert (exists s0 l, ring base s0 l /\
    forall fuel, malloc base grants fuel fuel nbytes s = malloc base grants fuel fuel nbytes s0) as (s0 & l & R & Es).
  { destruct (reachable_ok _ _ H) as [[F ->]|(l & R & _)]; [|by exists s, l].
    exists (start_ring base s), []. split; [by apply start_ring_ok|]. intros fuel. by apply malloc_fresh. }
  destruct (malloc_ring s0 l nbytes (2 * length l + 6) R Hn ltac:(lia)) as (r & s' & E & Hr).
  exists (2 * length l + 6)%nat, r, s'. rewrite Es. split; [done|]. destruct r as [ap|]; [|done].
  destruct Hr as (b & l' & -> & [M1 M2 M3 M4 M5]). destruct (units_spec nbytes Hn) as [Hu1 Hu2].
  pose proof (iu_low _ _ _ _ _ M2). pose proof (iu_high _ _ _ _ _ M2). unfold base_end, sizeof_Header in *. lia.
Qed.

Lemma free_total s live b n : reachable (s, live) -> (b, n) ∈ live -> exists fuel s', free fuel (b + sizeof_Header) s = Some s'.
Proof.
  intros H Hin. destruct (reachable_ok _ _ H) as [[_ ->]|[l Hok]]; [by apply elem_of_nil in Hin|].
  apply list_elem_of_split in Hin as (l1 & l2 & ->).
  destruct (heap_free s l l1 b n l2 (S (length l)) Hok ltac:(lia)) as (s' & l' & E & _). by exists (S (length l)), s'.
Qed.
End client.

(** C37: a program that allocates, frees its blocks and writes to them, in any order,
    always has blocks that do not overlap each other, that lie between the static header
    and the end of the data segment, and whose headers hold their sizes.  In every state
    that it reaches, [malloc] returns, with a null pointer or with a block of at least
    the size asked for; and [free] of each of its blocks returns.  The requests are of at
    most [2 ^ 31 - 32] bytes, for which the size that [morecore] asks for is an [int]. *)
Theorem allocator_safe base grants s live
  (grants_ok : forall a n, grants a n = true -> a + n <= 2 ^ 36)
  (H : reachable base grants (s, live)) :
  apart_all live /\
  (forall b n, (b, n) ∈ live -> base < b /\ b + sizeof_Header * n <= s.(brk) /\ (s.(hp) b).(h_size) = n) /\
  (forall nbytes, 0 <= nbytes < max_request -> exists fuel r s', malloc base grants fuel fuel nbytes s = Some (r, s') /\
     match r with
     | Some ap =>
         reachable base grants (s', (ap - sizeof_Header, units nbytes) :: live) /\
         nbytes <= sizeof_Header * (units nbytes - 1) /\ base < ap - sizeof_Header /\ ap + nbytes <= s'.(brk)
     | None => reachable base grants (s', live)
     end) /\
  (forall live1 b n live2, live = live1 ++ (b, n) :: live2 ->
     exists fuel s', free fuel (b + sizeof_Header) s = Some s' /\ reachable base grants (s', live1 ++ live2)).
Proof.
  split; [|split; [|split]].
  - by destruct (reachable_ok _ _ grants_ok _ _ H) as [[_ ->]|(l & _ & _ & A)].
  - intros b n Hin. destruct (reachable_ok _ _ grants_ok _ _ H) as [[_ ->]|(l & _ & U & _)]; [by apply elem_of_nil in Hin|].
    destruct (U b n Hin) as [U1 U2 U3 U4 U5]. unfold base_end, sizeof_Header in *. split; [lia|done].
  - intros nbytes Hn. destruct (malloc_total _ _ grants_ok _ _ nbytes H Hn) as (fuel & r & s' & E & Hr).
    exists fuel, r, s'. split; [done|]. destruct r as [ap|]; [|eapply reach_step; [exact H|by eapply step_null]].
    split; [eapply reach_step; [exact H|by eapply step_malloc]|]. split; [by apply units_spec|done].
  - intros l1 b n l2 ->. destruct (free_total _ _ grants_ok _ _ b n H) as (fuel & s' & E); [apply elem_of_app; right; by left|].
    exists fuel, s'. split; [done|]. eapply reach_step; [exact H|by eapply step_free].
Qed.

(** A program with its data segment in the first 8 KB that has allocated 100 and then
    5000 bytes, in a heap that may grow up to 1 MB. *)
Definition demo_base : Z := 4096.
Definition demo_grants (a n : Z) : bool := a + n <? 2 ^ 20.
Definition demo_heap : mstate := Mstate (fun _ => Header 0 0) 0 8192.

Definition after_malloc (nbytes : Z) (s : mstate) : Z * mstate :=
  match malloc demo_base demo_grants 8 8 nbytes s with Some (Some ap, s') => (ap, s') | _ => (0, s) end.

Lemma after_malloc_reach nbytes s live : 0 <= nbytes < max_request -> (after_malloc nbytes s).1 <> 0 ->
  reachable demo_base demo_grants (s, live) ->
  reachable demo_base demo_grants ((after_malloc nbytes s).2, ((after_malloc nbytes s).1 - sizeof_Header, units nbytes) :: live).
Proof.
  unfold after_malloc. destruct (malloc _ _ _ _ _ _) as [[[ap|] s']|] eqn:E; intros Hn H0 H; [|done..].
  eapply reach_step; [exact H|by eapply step_malloc].
Qed.

Lemma allocator_safe_witness :
  exists s b1 b2, reachable demo_base demo_grants (s, [(b2, units 5000); (b1, units 100)]) /\
    disjoint_blocks b2 (units 5000) b1 (units 100) /\ b1 + sizeof_Header * units 100 <= s.(brk).
Proof.
  pose (x := after_malloc 100 demo_heap). pose (y := after_malloc 5000 x.2).
  assert (reachable demo_base demo_grants (y.2, [(y.1 - sizeof_Header, units 5000); (x.1 - sizeof_Header, units 100)])) as H.
  { apply after_malloc_reach; [unfold max_request; lia|by vm_compute|]. apply after_malloc_reach; [unfold max_request; lia|by vm_compute|].
    apply reach_start. split; [done|]. unfold demo_base, sizeof_Header. cbn. lia. }
  exists y.2, (x.1 - sizeof_Header), (y.1 - sizeof_Header). split; [exact H|].
  destruct (allocator_safe demo_base demo_grants y.2 [(y.1 - sizeof_Header, units 5000); (x.1 - sizeof_Header, units 100)])
    as ((A & _) & B & _).
  - unfold demo_grants. intros a n Ha%Z.ltb_lt. lia.
  - exact H.
  - split; [apply A; by left|]. destruct (B (x.1 - sizeof_Header) (units 100)) as (_ & B2 & _); [right; by left|exact B2].
Defined.

(** A request beyond [max_request] breaks the allocator: for [2 ^ 32 - 1] bytes [morecore]
    asks for [(int)(nu * sizeof(Header)) = 16] bytes, and the block that [malloc] returns
    ends far above the data segment. *)
Lemma malloc_huge (x := after_malloc (2 ^ 32 - 1) demo_heap) :
  x.1 <> 0 /\ x.2.(brk) = demo_heap.(brk) + 16 /\ x.2.(brk) < x.1 + (2 ^ 32 - 1).
Proof. vm_compute. by split; [|split]. Qed.
