(* ===== verification/UserTests.v ===== *)
(** * The tests of the system calls, first part (user/usertests.c)

    Each test is a program of its own process: it returns when it passes, and otherwise
    prints a message and exits with a status.  The global array [buf] is zero when a test
    starts.  A loop without a bound carries fuel. *)
From S2P Require Export Utils.

Definition PGSIZE : Z := 4096.
Definition BSIZE : Z := 1024.
Definition MAXOPBLOCKS : Z := 10.
Definition MAXPATH : Z := 128.
Definition MAXFILE : Z := 12 + 256.
Definition NINODE : Z := 50.
Definition MAXARG : Z := 32.
Definition BUFSZ : Z := (MAXOPBLOCKS + 2) * BSIZE.

Definition SYS_pipe : Z := 4.
Definition SYS_read : Z := 5.
Definition SYS_exec : Z := 7.
Definition SYS_open : Z := 15.
Definition SYS_write : Z := 16.
Definition SYS_unlink : Z := 18.
Definition SYS_link : Z := 19.
Definition SYS_kthread_create : Z := 22.
Definition SYS_kthread_exit : Z := 25.
Definition SYS_kthread_join : Z := 26.

Definition CREATE_WRONLY : Z := Z.lor O_CREATE O_WRONLY.

(** A message and the end of the process with status 1. *)
Definition fail {A} (fmt : string) (args : list va) : prog A := printf (line fmt) args;; exit 1.
Definition name (s : list Z) : va := va_str (Some s).

(** [char c[] = { ... }] as a string. *)
Definition str (l : list Z) : list Z := up_to_nul (map u8 l).

(** The pointer [(char* )-1]. *)
Definition bad_ptr : Z := 0xffffffffffffffff.

(** ** Pointers that are not the program's *)

Definition addrs : list Z := [0x80000000; 0xffffffffffffffff].

Definition copyin (s : list Z) : prog unit :=
  printf (line "in copyin") [];;
  forP addrs (fun addr =>
    printf (line "222in copyin") [];;
    fd ← call (Open (chars "copyin1") CREATE_WRONLY);
    if fd <? 0 then fail "open(copyin1) failed" [] else
    n ← call (Raw SYS_write [Num fd; Num addr; Num 8192]);
    if 0 <=? n then fail "write(fd, %p, 8192) returned %d, not -1" [va_long addr; va_int n] else
    call (Close fd);;
    call (Unlink (chars "copyin1"));;
    n ← call (Raw SYS_write [Num 1; Num addr; Num 8192]);
    if 0 <? n then fail "write(1, %p, 8192) returned %d, not -1 or 0" [va_long addr; va_int n] else
    '(r, (fd0, fd1)) ← call Pipe;
    if r <? 0 then fail "pipe() failed" [] else
    n ← call (Raw SYS_write [Num fd1; Num addr; Num 8192]);
    if 0 <? n then fail "write(pipe, %p, 8192) returned %d, not -1 or 0" [va_long addr; va_int n] else
    call (Close fd0);;
    call (Close fd1);;
    Ret tt).

Definition copyout (s : list Z) : prog unit :=
  forP addrs (fun addr =>
    fd ← call (Open (chars "README") 0);
    if fd <? 0 then fail "open(README) failed" [] else
    n ← call (Raw SYS_read [Num fd; Num addr; Num 8192]);
    if 0 <? n then fail "read(fd, %p, 8192) returned %d, not -1 or 0" [va_long addr; va_int n] else
    call (Close fd);;
    '(r, (fd0, fd1)) ← call Pipe;
    if r <? 0 then fail "pipe() failed" [] else
    n ← call (Write fd1 (chars "x"));
    if negb (n =? 1) then fail "pipe write failed" [] else
    n ← call (Raw SYS_read [Num fd0; Num addr; Num 8192]);
    if 0 <? n then fail "read(pipe, %p, 8192) returned %d, not -1 or 0" [va_long addr; va_int n] else
    call (Close fd0);;
    call (Close fd1);;
    Ret tt).

Definition copyinstr1 (s : list Z) : prog unit :=
  forP addrs (fun addr =>
    fd ← call (Raw SYS_open [Num addr; Num CREATE_WRONLY]);
    if 0 <=? fd then fail "open(%p) returned %d, not -1" [va_long addr; va_int fd] else Ret tt).

Definition copyinstr2 (s : list Z) : prog unit :=
  let b := replicate (Z.to_nat MAXPATH) 120 in
  ret ← call (Unlink b);
  if negb (ret =? -1) then fail "unlink(%s) returned %d, not -1" [name b; va_int ret] else
  fd ← call (Open b CREATE_WRONLY);
  if negb (fd =? -1) then fail "open(%s) returned %d, not -1" [name b; va_int fd] else
  ret ← call (Link b b);
  if negb (ret =? -1) then fail "link(%s, %s) returned %d, not -1" [name b; name b; va_int ret] else
  ret ← call (Exec b [chars "xx"]);
  if negb (ret =? -1) then fail "exec(%s) returned %d, not -1" [name b; va_int fd] else
  pid ← call Fork;
  if pid <? 0 then fail "fork failed" [] else
  if pid =? 0 then
    let big := replicate (Z.to_nat PGSIZE) 120 in
    ret ← call (Exec (chars "echo") [big; big; big]);
    if negb (ret =? -1) then fail "exec(echo, BIG) returned %d, not -1" [va_int fd] else
    exit 747
  else
  '(_, st) ← call Wait_status;
  if negb (default 0 st =? 747) then fail "exec(echo, BIG) succeeded, should have failed" [] else
  Ret tt.

(** The string at an address that is not one of a variable. *)
Fixpoint load_str (fuel : nat) (a : Z) : prog (list Z) :=
  match fuel with
  | O => Nofuel
  | S fuel =>
      c ← call (Load a 1);
      if c =? 0 then Ret [] else rest ← load_str fuel (a + 1); Ret (c :: rest)
  end.

Definition copyinstr3 (fuel : nat) (s : list Z) : prog unit :=
  call (Sbrk 8192);;
  top ← call (Sbrk 0);
  (if negb (top mod PGSIZE =? 0) then call (Sbrk (PGSIZE - top mod PGSIZE));; Ret tt else Ret tt);;
  top ← call (Sbrk 0);
  if negb (top mod PGSIZE =? 0) then fail "oops" [] else
  let b := u64 (top - 1) in
  call (Store b 1 120);;
  ret ← call (Raw SYS_unlink [Num b]);
  if negb (ret =? -1) then l ← load_str fuel b; fail "unlink(%s) returned %d, not -1" [name l; va_int ret] else
  fd ← call (Raw SYS_open [Num b; Num CREATE_WRONLY]);
  if negb (fd =? -1) then l ← load_str fuel b; fail "open(%s) returned %d, not -1" [name l; va_int fd] else
  ret ← call (Raw SYS_link [Num b; Num b]);
  if negb (ret =? -1) then l ← load_str fuel b; fail "link(%s, %s) returned %d, not -1" [name l; name l; va_int ret] else
  ret ← call (Raw SYS_exec [Num b; Vec [Str (chars "xx"); Num 0]]);
  if negb (ret =? -1) then l ← load_str fuel b; fail "exec(%s) returned %d, not -1" [name l; va_int fd] else
  Ret tt.

Definition rwsbrk (s : list Z) : prog unit :=
  a ← call (Sbrk 8192);
  if a =? bad_ptr then fail "sbrk(rwsbrk) failed" [] else
  r ← call (Sbrk (-8192));
  if r =? bad_ptr then fail "sbrk(rwsbrk) shrink failed" [] else
  fd ← call (Open (chars "rwsbrk") CREATE_WRONLY);
  if fd <? 0 then fail "open(rwsbrk) failed" [] else
  n ← call (Raw SYS_write [Num fd; Num (u64 (a + 4096)); Num 1024]);
  if 0 <=? n then fail "write(fd, %p, 1024) returned %d, not -1" [va_long (u64 (a + 4096)); va_int n] else
  call (Close fd);;
  call (Unlink (chars "rwsbrk"));;
  fd ← call (Open (chars "README") O_RDONLY);
  if fd <? 0 then fail "open(rwsbrk) failed" [] else
  n ← call (Raw SYS_read [Num fd; Num (u64 (a + 4096)); Num 10]);
  if 0 <=? n then fail "read(fd, %p, 10) returned %d, not -1" [va_long (u64 (a + 4096)); va_int n] else
  call (Close fd);;
  exit 0.

(** ** Truncation *)

Definition CREATE_TRUNC_WRONLY : Z := Z.lor CREATE_WRONLY O_TRUNC.

Definition truncate1 (s : list Z) : prog unit :=
  call (Unlink (chars "truncfile"));;
  fd1 ← call (Open (chars "truncfile") CREATE_TRUNC_WRONLY);
  call (Write fd1 (chars "abcd"));;
  call (Close fd1);;
  fd2 ← call (Open (chars "truncfile") O_RDONLY);
  '(n, _) ← call (Read fd2 32);
  if negb (n =? 4) then fail "%s: read %d bytes, wanted 4" [name s; va_int n] else
  fd1 ← call (Open (chars "truncfile") (Z.lor O_WRONLY O_TRUNC));
  fd3 ← call (Open (chars "truncfile") O_RDONLY);
  '(n, _) ← call (Read fd3 32);
  if negb (n =? 0) then
    printf (line "aaa fd3=%d") [va_int fd3];;
    fail "%s: read %d bytes, wanted 0" [name s; va_int n]
  else
  '(n, _) ← call (Read fd2 32);
  if negb (n =? 0) then
    printf (line "bbb fd2=%d") [va_int fd2];;
    fail "%s: read %d bytes, wanted 0" [name s; va_int n]
  else
  call (Write fd1 (chars "abcdef"));;
  '(n, _) ← call (Read fd3 32);
  if negb (n =? 6) then fail "%s: read %d bytes, wanted 6" [name s; va_int n] else
  '(n, _) ← call (Read fd2 32);
  if negb (n =? 2) then fail "%s: read %d bytes, wanted 2" [name s; va_int n] else
  call (Unlink (chars "truncfile"));;
  call (Close fd1);;
  call (Close fd2);;
  call (Close fd3);;
  Ret tt.

Definition truncate2 (s : list Z) : prog unit :=
  call (Unlink (chars "truncfile"));;
  fd1 ← call (Open (chars "truncfile") CREATE_TRUNC_WRONLY);
  call (Write fd1 (chars "abcd"));;
  fd2 ← call (Open (chars "truncfile") (Z.lor O_TRUNC O_WRONLY));
  n ← call (Write fd1 (chars "x"));
  if negb (n =? -1) then fail "%s: write returned %d, expected -1" [name s; va_int n] else
  call (Unlink (chars "truncfile"));;
  call (Close fd1);;
  call (Close fd2);;
  Ret tt.

Definition truncate3_child (s : list Z) : prog unit :=
  forP (seqZ 0 100) (fun _ =>
    fd ← call (Open (chars "truncfile") O_WRONLY);
    if fd <? 0 then fail "%s: open failed" [name s] else
    n ← call (Write fd (chars "1234567890"));
    if negb (n =? 10) then fail "%s: write got %d, expected 10" [name s; va_int n] else
    call (Close fd);;
    fd ← call (Open (chars "truncfile") O_RDONLY);
    call (Read fd 32);;
    call (Close fd);;
    Ret tt);;
  exit 0.

Definition truncate3 (s : list Z) : prog unit :=
  open_close "truncfile" CREATE_TRUNC_WRONLY;;
  pid ← call Fork;
  if pid <? 0 then fail "%s: fork failed" [name s] else
  if pid =? 0 then truncate3_child s else
  forP (seqZ 0 150) (fun _ =>
    fd ← call (Open (chars "truncfile") CREATE_TRUNC_WRONLY);
    if fd <? 0 then fail "%s: open failed" [name s] else
    n ← call (Write fd (chars "xxx"));
    if negb (n =? 3) then fail "%s: write got %d, expected 3" [name s; va_int n] else
    call (Close fd);;
    Ret tt);;
  '(_, xstatus) ← wait_status;
  call (Unlink (chars "truncfile"));;
  exit xstatus.

(** ** Directories in use *)

Definition iputtest (s : list Z) : prog unit :=
  r ← call (Mkdir (chars "iputdir"));
  if r <? 0 then fail "%s: mkdir failed" [name s] else
  r ← call (Chdir (chars "iputdir"));
  if r <? 0 then fail "%s: chdir iputdir failed" [name s] else
  r ← call (Unlink (chars "../iputdir"));
  if r <? 0 then fail "%s: unlink ../iputdir failed" [name s] else
  r ← call (Chdir (chars "/"));
  if r <? 0 then fail "%s: chdir / failed" [name s] else
  Ret tt.

Definition exitiputtest (s : list Z) : prog unit :=
  pid ← call Fork;
  if pid <? 0 then fail "%s: fork failed" [name s] else
  if pid =? 0 then
    r ← call (Mkdir (chars "iputdir"));
    if r <? 0 then fail "%s: mkdir failed" [name s] else
    r ← call (Chdir (chars "iputdir"));
    if r <? 0 then fail "%s: child chdir failed" [name s] else
    r ← call (Unlink (chars "../iputdir"));
    if r <? 0 then fail "%s: unlink ../iputdir failed" [name s] else
    exit 0
  else
  '(_, xstatus) ← wait_status;
  exit xstatus.

Definition openiputtest (s : list Z) : prog unit :=
  r ← call (Mkdir (chars "oidir"));
  if r <? 0 then fail "%s: mkdir oidir failed" [name s] else
  pid ← call Fork;
  if pid <? 0 then fail "%s: fork failed" [name s] else
  if pid =? 0 then
    fd ← call (Open (chars "oidir") O_RDWR);
    if 0 <=? fd then fail "%s: open directory for write succeeded" [name s] else
    exit 0
  else
  call (Sleep 1);;
  r ← call (Unlink (chars "oidir"));
  if negb (r =? 0) then fail "%s: unlink failed" [name s] else
  '(_, xstatus) ← wait_status;
  exit xstatus.

(** ** Files *)

Definition opentest (s : list Z) : prog unit :=
  fd ← call (Open (chars "echo") 0);
  if fd <? 0 then fail "%s: open echo failed!" [name s] else
  call (Close fd);;
  fd ← call (Open (chars "doesnotexist") 0);
  if 0 <=? fd then fail "%s: open doesnotexist succeeded!" [name s] else
  Ret tt.

Definition writetest (s : list Z) : prog unit :=
  fd ← call (Open (chars "small") CREATE_RDWR);
  if fd <? 0 then fail "%s: error: creat small failed!" [name s] else
  forP (seqZ 0 100) (fun i =>
    n ← call (Write fd (chars "aaaaaaaaaa"));
    if negb (n =? 10) then fail "%s: error: write aa %d new file failed" [name s; va_int i] else
    n ← call (Write fd (chars "bbbbbbbbbb"));
    if negb (n =? 10) then fail "%s: error: write bb %d new file failed" [name s; va_int i] else
    Ret tt);;
  call (Close fd);;
  fd ← call (Open (chars "small") O_RDONLY);
  if fd <? 0 then fail "%s: error: open small failed!" [name s] else
  '(i, _) ← call (Read fd 2000);
  if negb (i =? 2000) then fail "%s: read failed" [name s] else
  call (Close fd);;
  r ← call (Unlink (chars "small"));
  if r <? 0 then fail "%s: unlink small failed" [name s] else
  Ret tt.

(** The loop of [writebig] that reads the blocks back; [n] blocks so far. *)
Fixpoint writebig_read (fuel : nat) (s : list Z) (fd : Z) (buf : bytes) (n : Z) : prog unit :=
  match fuel with
  | O => Nofuel
  | S fuel =>
      '(i, data) ← call (Read fd BSIZE);
      let buf := put_bytes buf 0 (take (Z.to_nat BSIZE) data) in
      if i =? 0 then
        if n =? MAXFILE - 1 then printf "%s: read only %d blocks from big" [name s; va_int n];; exit 1
        else Ret tt
      else if negb (i =? BSIZE) then fail "%s: read failed %d" [name s; va_int i]
      else if negb (s32 (load32 buf 0) =? n) then
        fail "%s: read content of block %d is %d" [name s; va_int n; va_int (s32 (load32 buf 0))]
      else writebig_read fuel s fd buf (n + 1)
  end.

Definition writebig (fuel : nat) (s : list Z) : prog unit :=
  let buf : bytes := fun _ => 0 in
  fd ← call (Open (chars "big") CREATE_RDWR);
  if fd <? 0 then fail "%s: error: creat big failed!" [name s] else
  forP (seqZ 0 MAXFILE) (fun i =>
    n ← call (Write fd (read_bytes (Z.to_nat BSIZE) (store32 buf 0 i) 0));
    if negb (n =? BSIZE) then fail "%s: error: write big file failed" [name s; va_int i] else
    Ret tt);;
  call (Close fd);;
  fd ← call (Open (chars "big") O_RDONLY);
  if fd <? 0 then fail "%s: error: open big failed!" [name s] else
  writebig_read fuel s fd (store32 buf 0 (MAXFILE - 1)) 0;;
  call (Close fd);;
  r ← call (Unlink (chars "big"));
  if r <? 0 then fail "%s: unlink big failed" [name s] else
  Ret tt.

Definition createtest (s : list Z) : prog unit :=
  forP (seqZ 0 52) (fun i =>
    fd ← call (Open (str [97; 48 + i]) CREATE_RDWR);
    call (Close fd);;
    Ret tt);;
  forP (seqZ 0 52) (fun i => call (Unlink (str [97; 48 + i]));; Ret tt).

Definition dirtest (s : list Z) : prog unit :=
  r ← call (Mkdir (chars "dir0"));
  if r <? 0 then fail "%s: mkdir failed" [name s] else
  r ← call (Chdir (chars "dir0"));
  if r <? 0 then fail "%s: chdir dir0 failed" [name s] else
  r ← call (Chdir (chars ".."));
  if r <? 0 then fail "%s: chdir .. failed" [name s] else
  r ← call (Unlink (chars "dir0"));
  if r <? 0 then fail "%s: unlink dir0 failed" [name s] else
  Ret tt.

(** A child that returns from [exec] with a result that is not negative runs on as the
    parent does. *)
Definition exectest (s : list Z) : prog unit :=
  call (Unlink (chars "echo-ok"));;
  pid ← call Fork;
  if pid <? 0 then fail "%s: fork failed" [name s] else
  (if pid =? 0 then
     call (Close 1);;
     fd ← call (Open (chars "echo-ok") CREATE_WRONLY);
     if fd <? 0 then fail "%s: create failed" [name s] else
     if negb (fd =? 1) then fail "%s: wrong fd" [name s] else
     r ← call (Exec (chars "echo") [chars "echo"; chars "OK"]);
     if r <? 0 then fail "%s: exec echo failed" [name s] else Ret tt
   else Ret tt);;
  '(r, st) ← call Wait_status;
  (if negb (r =? pid) then printf (line "%s: wait failed!") [name s] else Ret tt);;
  match st with
  | None => Undefined
  | Some xstatus =>
      if negb (xstatus =? 0) then exit xstatus else
      fd ← call (Open (chars "echo-ok") O_RDONLY);
      if fd <? 0 then fail "%s: open failed" [name s] else
      '(r, buf) ← call (Read fd 2);
      if negb (r =? 2) then fail "%s: read failed" [name s] else
      call (Unlink (chars "echo-ok"));;
      if bool_decide (take 2 buf = chars "OK") then exit 0
      else fail "%s: wrong output" [name s]
  end.

(** ** Pipes and processes *)

(** The block [n] that the child of [pipe1] writes: [seq++] in a [char]. *)
Definition pipe1_block (n : Z) : list Z := map (fun i => u8 (n * 1033 + i)) (seqZ 0 1033).

Definition pipe1_child (s : list Z) (fd : Z) : prog unit :=
  forP (seqZ 0 5) (fun n =>
    r ← call (Write fd (pipe1_block n));
    if negb (r =? 1033) then fail "%s: pipe1 oops 1" [name s] else Ret tt);;
  exit 0.

(** [(buf[i] & 0xff) != (seq++ & 0xff)] for no [i]. *)
Fixpoint pipe1_check (l : list Z) (seq : Z) : bool :=
  match l with [] => true | c :: l => (Z.land c 0xff =? Z.land seq 0xff) && pipe1_check l (seq + 1) end.

(** The loop of the parent: the total, or [None] after a wrong byte. *)
Fixpoint pipe1_read (fuel : nat) (s : list Z) (fd : Z) (buf : bytes) (seq total cc : Z) : prog (option Z) :=
  match fuel with
  | O => Nofuel
  | S fuel =>
      '(n, data) ← call (Read fd cc);
      if 0 <? n then
        let buf := put_bytes buf 0 (take (Z.to_nat cc) data) in
        if negb (pipe1_check (read_bytes (Z.to_nat n) buf 0) seq) then printf (line "%s: pipe1 oops 2") [name s];; Ret None
        else
          let cc := cc * 2 in
          let cc := if BUFSZ <? cc then BUFSZ else cc in
          pipe1_read fuel s fd buf (seq + n) (total + n) cc
      else Ret (Some total)
  end.

Definition pipe1 (fuel : nat) (s : list Z) : prog unit :=
  '(r, (fd0, fd1)) ← call Pipe;
  if negb (r =? 0) then fail "%s: pipe() failed" [name s] else
  pid ← call Fork;
  if pid =? 0 then call (Close fd0);; pipe1_child s fd1
  else if 0 <? pid then
    call (Close fd1);;
    total ← pipe1_read fuel s fd0 (fun _ => 0) 0 0 1;
    match total with
    | None => Ret tt
    | Some total =>
        if negb (total =? 5 * 1033) then fail "%s: pipe1 oops 3 total %d" [va_int total] else
        call (Close fd0);;
        '(_, xstatus) ← wait_status;
        exit xstatus
    end
  else fail "%s: fork() failed" [name s].

(** [for(;;) ;] makes no call and does not end. *)
Definition spin {A} : prog A := Nofuel.

Fixpoint getpid_loop (fuel : nat) : prog unit :=
  match fuel with O => Nofuel | S fuel => call Getpid;; getpid_loop fuel end.

Definition killstatus (fuel : nat) (s : list Z) : prog unit :=
  forP (seqZ 0 100) (fun _ =>
    pid1 ← call Fork;
    if pid1 <? 0 then fail "%s: fork failed" [name s] else
    if pid1 =? 0 then getpid_loop fuel;; exit 0 else
    call (Sleep 1);;
    call (Kill pid1);;
    '(_, xst) ← wait_status;
    if negb (xst =? -1) then fail "%s: status should be -1" [name s] else Ret tt);;
  exit 0.

Definition preempt (s : list Z) : prog unit :=
  pid1 ← call Fork;
  if pid1 <? 0 then printf "%s: fork failed" [name s];; exit 1 else
  if pid1 =? 0 then spin else
  pid2 ← call Fork;
  if pid2 <? 0 then fail "%s: fork failed" [name s] else
  if pid2 =? 0 then spin else
  '(_, (pfd0, pfd1)) ← call Pipe;
  pid3 ← call Fork;
  if pid3 <? 0 then fail "%s: fork failed" [name s] else
  if pid3 =? 0 then
    call (Close pfd0);;
    n ← call (Write pfd1 (chars "x"));
    (if negb (n =? 1) then printf "%s: preempt write error" [name s] else Ret tt);;
    call (Close pfd1);;
    spin
  else
  call (Close pfd1);;
  '(n, _) ← call (Read pfd0 BUFSZ);
  if negb (n =? 1) then printf "%s: preempt read error" [name s] else
  call (Close pfd0);;
  printf "kill... " [];;
  call (Kill pid1);;
  call (Kill pid2);;
  call (Kill pid3);;
  printf "wait... " [];;
  call Wait;;
  call Wait;;
  call Wait;;
  Ret tt.

Definition exitwait (s : list Z) : prog unit :=
  forP (seqZ 0 100) (fun i =>
    pid ← call Fork;
    if pid <? 0 then fail "%s: fork failed" [name s] else
    if negb (pid =? 0) then
      '(r, st) ← call Wait_status;
      if negb (r =? pid) then fail "%s: wait wrong pid" [name s] else
      match st with
      | None => Undefined
      | Some xstate => if negb (i =? xstate) then fail "%s: wait wrong exit status" [name s] else Ret tt
      end
    else exit i).

Definition reparent (s : list Z) : prog unit :=
  master_pid ← call Getpid;
  forP (seqZ 0 200) (fun _ =>
    pid ← call Fork;
    if pid <? 0 then fail "%s: fork failed" [name s] else
    if negb (pid =? 0) then
      r ← call Wait;
      if negb (r =? pid) then fail "%s: wait wrong pid" [name s] else Ret tt
    else
      pid2 ← call Fork;
      if pid2 <? 0 then call (Kill master_pid);; exit 1 else
      exit 0);;
  exit 0.

Definition twochildren (s : list Z) : prog unit :=
  forP (seqZ 0 1000) (fun _ =>
    pid1 ← call Fork;
    if pid1 <? 0 then fail "%s: fork failed" [name s] else
    if pid1 =? 0 then exit 0 else
    pid2 ← call Fork;
    if pid2 <? 0 then fail "%s: fork failed" [name s] else
    if pid2 =? 0 then exit 0 else
    call Wait;;
    call Wait;;
    Ret tt).

Definition forkfork (s : list Z) : prog unit :=
  forP (seqZ 0 2) (fun _ =>
    pid ← call Fork;
    if pid <? 0 then printf "%s: fork failed" [name s];; exit 1 else
    if pid =? 0 then
      forP (seqZ 0 200) (fun _ =>
        pid1 ← call Fork;
        if pid1 <? 0 then exit 1 else
        if pid1 =? 0 then exit 0 else
        call Wait;;
        Ret tt);;
      exit 0
    else Ret tt);;
  forP (seqZ 0 2) (fun _ =>
    '(_, xstatus) ← wait_status;
    if negb (xstatus =? 0) then printf "%s: fork in child failed" [name s];; exit 1 else Ret tt).

Fixpoint forkforkfork_child (fuel : nat) : prog unit :=
  match fuel with
  | O => Nofuel
  | S fuel =>
      fd ← call (Open (chars "stopforking") 0);
      if 0 <=? fd then exit 0 else
      pid ← call Fork;
      (if pid <? 0 then open_close "stopforking" CREATE_RDWR else Ret tt);;
      forkforkfork_child fuel
  end.

Definition forkforkfork (fuel : nat) (s : list Z) : prog unit :=
  call (Unlink (chars "stopforking"));;
  pid ← call Fork;
  if pid <? 0 then printf "%s: fork failed" [name s];; exit 1 else
  if pid =? 0 then forkforkfork_child fuel;; exit 0 else
  call (Sleep 20);;
  open_close "stopforking" CREATE_RDWR;;
  call Wait;;
  call (Sleep 10);;
  Ret tt.

Definition reparent2 (s : list Z) : prog unit :=
  forP (seqZ 0 800) (fun _ =>
    pid1 ← call Fork;
    if pid1 <? 0 then fail "fork failed" [] else
    if pid1 =? 0 then call Fork;; call Fork;; exit 0 else
    call Wait;;
    Ret tt);;
  exit 0.

(** ** Several processes on the same files *)

(** The loop of [sharedfd] that counts the letters of the file. *)
Fixpoint sharedfd_count (fuel : nat) (fd : Z) (buf : bytes) (nc np : Z) : prog (Z * Z) :=
  match fuel with
  | O => Nofuel
  | S fuel =>
      '(n, data) ← call (Read fd 10);
      if 0 <? n then
        let buf := put_bytes buf 0 (take 10 data) in
        let l := read_bytes 10 buf 0 in
        sharedfd_count fuel fd buf (nc + Z.of_nat (length (filter (fun c => c = 99) l)))
          (np + Z.of_nat (length (filter (fun c => c = 112) l)))
      else Ret (nc, np)
  end.

Definition sharedfd (fuel : nat) (s : list Z) : prog unit :=
  call (Unlink (chars "sharedfd"));;
  fd ← call (Open (chars "sharedfd") CREATE_RDWR);
  if fd <? 0 then printf "%s: cannot open sharedfd for writing" [name s];; exit 1 else
  pid ← call Fork;
  let buf := replicate 10 (if pid =? 0 then 99 else 112) in
  forP (seqZ 0 1000) (fun _ =>
    n ← call (Write fd buf);
    if negb (n =? 10) then fail "%s: write sharedfd failed" [name s] else Ret tt);;
  if pid =? 0 then exit 0 else
  '(_, xstatus) ← wait_status;
  if negb (xstatus =? 0) then exit xstatus else
  call (Close fd);;
  fd ← call (Open (chars "sharedfd") 0);
  if fd <? 0 then fail "%s: cannot open sharedfd for reading" [name s] else
  '(nc, np) ← sharedfd_count fuel fd (bytes_of buf) 0 0;
  call (Close fd);;
  call (Unlink (chars "sharedfd"));;
  if (nc =? 10000) && (np =? 10000) then exit 0
  else fail "%s: nc/np test fails" [name s].

(** The loop of [fourfiles] that reads file [i]: its length. *)
Fixpoint fourfiles_read (fuel : nat) (fd i : Z) (buf : bytes) (total : Z) : prog Z :=
  match fuel with
  | O => Nofuel
  | S fuel =>
      '(n, data) ← call (Read fd BUFSZ);
      if 0 <? n then
        let buf := put_bytes buf 0 (take (Z.to_nat BUFSZ) data) in
        if negb (forallb (fun c => c =? 48 + i) (read_bytes (Z.to_nat n) buf 0)) then fail "wrong char" []
        else fourfiles_read fuel fd i buf (total + n)
      else Ret total
  end.

Definition fourfiles (fuel : nat) (s : list Z) : prog unit :=
  let names := [chars "f0"; chars "f1"; chars "f2"; chars "f3"] in
  forP (imap (fun i f => (Z.of_nat i, f)) names) (fun '(pi, fname) =>
    call (Unlink fname);;
    pid ← call Fork;
    if pid <? 0 then fail "fork failed" [name s] else
    if pid =? 0 then
      fd ← call (Open fname CREATE_RDWR);
      if fd <? 0 then fail "create failed" [name s] else
      forP (seqZ 0 12) (fun _ =>
        n ← call (Write fd (replicate 500 (48 + pi)));
        if negb (n =? 500) then fail "write failed %d" [va_int n] else Ret tt);;
      exit 0
    else Ret tt);;
  forP (seqZ 0 4) (fun _ =>
    '(_, xstatus) ← wait_status;
    if negb (xstatus =? 0) then exit xstatus else Ret tt);;
  forP (imap (fun i f => (Z.of_nat i, f)) names) (fun '(i, fname) =>
    fd ← call (Open fname 0);
    total ← fourfiles_read fuel fd i (fun _ => 0) 0;
    call (Close fd);;
    if negb (total =? 12 * 500) then fail "wrong length %d" [va_int total] else
    call (Unlink fname);;
    Ret tt).

(** The names that child [pi] of [createdelete] makes, and the one that it unlinks
    after file [i]. *)
Definition cd_name (pi i : Z) : list Z := str [112 + pi; 48 + i].

Definition createdelete_child (s : list Z) (pi : Z) : prog unit :=
  forP (seqZ 0 20) (fun i =>
    fd ← call (Open (cd_name pi i) CREATE_RDWR);
    if fd <? 0 then fail "%s: create failed" [name s] else
    call (Close fd);;
    if (0 <? i) && (i mod 2 =? 0) then
      r ← call (Unlink (cd_name pi (i / 2)));
      if r <? 0 then fail "%s: unlink failed" [name s] else Ret tt
    else Ret tt);;
  exit 0.

(** The last loop takes both characters of the name from [i]. *)
Definition createdelete_clean : prog unit :=
  forP (seqZ 0 20) (fun i => forP (seqZ 0 4) (fun _ => call (Unlink (cd_name i i));; Ret tt)).

Definition createdelete (s : list Z) : prog unit :=
  forP (seqZ 0 4) (fun pi =>
    pid ← call Fork;
    if pid <? 0 then fail "fork failed" [name s] else
    if pid =? 0 then createdelete_child s pi else Ret tt);;
  forP (seqZ 0 4) (fun _ =>
    '(_, xstatus) ← wait_status;
    if negb (xstatus =? 0) then exit 1 else Ret tt);;
  forP (seqZ 0 20) (fun i =>
    forP (seqZ 0 4) (fun pi =>
      fd ← call (Open (cd_name pi i) 0);
      if ((i =? 0) || (10 <=? i)) && (fd <? 0) then
        fail "%s: oops createdelete %s didn't exist" [name s; name (cd_name pi i)]
      else if ((1 <=? i) && (i <? 10)) && (0 <=? fd) then
        fail "%s: oops createdelete %s did exist" [name s; name (cd_name pi i)]
      else if 0 <=? fd then call (Close fd);; Ret tt
      else Ret tt));;
  createdelete_clean.
