(* ===== verification/UserTests2.v ===== *)
(** * The tests of the system calls, second part (user/usertests.c)

    Links and directories, large files, memory, and the threads. *)
From S2P Require Export UserTests.
From S2P Require Import Umalloc Uthread.

(** [if(bad){ printf(fmt, s); exit(1); }] *)
Definition expect_not (bad : bool) (fmt : string) (s : list Z) : prog unit := if bad then fail fmt [name s] else Ret tt.

(** ** Links *)

Definition unlinkread (s : list Z) : prog unit :=
  fd ← call (Open (chars "unlinkread") CREATE_RDWR);
  expect_not (fd <? 0) "%s: create unlinkread failed" s;;
  call (Write fd (chars "hello"));;
  call (Close fd);;
  fd ← call (Open (chars "unlinkread") O_RDWR);
  expect_not (fd <? 0) "%s: open unlinkread failed" s;;
  r ← call (Unlink (chars "unlinkread"));
  expect_not (negb (r =? 0)) "%s: unlink unlinkread failed" s;;
  fd1 ← call (Open (chars "unlinkread") CREATE_RDWR);
  call (Write fd1 (chars "yyy"));;
  call (Close fd1);;
  '(n, data) ← call (Read fd BUFSZ);
  (if negb (n =? 5) then printf "%s: unlinkread read failed" [name s];; exit 1 else Ret tt);;
  let buf := put_bytes (fun _ => 0) 0 (take (Z.to_nat BUFSZ) data) in
  expect_not (negb (buf 0 =? 104)) "%s: unlinkread wrong data" s;;
  n ← call (Write fd (read_bytes 10 buf 0));
  expect_not (negb (n =? 10)) "%s: unlinkread write failed" s;;
  call (Close fd);;
  call (Unlink (chars "unlinkread"));;
  Ret tt.

Definition linktest (s : list Z) : prog unit :=
  call (Unlink (chars "lf1"));;
  call (Unlink (chars "lf2"));;
  fd ← call (Open (chars "lf1") CREATE_RDWR);
  expect_not (fd <? 0) "%s: create lf1 failed" s;;
  n ← call (Write fd (chars "hello"));
  expect_not (negb (n =? 5)) "%s: write lf1 failed" s;;
  call (Close fd);;
  r ← call (Link (chars "lf1") (chars "lf2"));
  expect_not (r <? 0) "%s: link lf1 lf2 failed" s;;
  call (Unlink (chars "lf1"));;
  r ← call (Open (chars "lf1") 0);
  expect_not (0 <=? r) "%s: unlinked lf1 but it is still there!" s;;
  fd ← call (Open (chars "lf2") 0);
  expect_not (fd <? 0) "%s: open lf2 failed" s;;
  '(n, _) ← call (Read fd BUFSZ);
  expect_not (negb (n =? 5)) "%s: read lf2 failed" s;;
  call (Close fd);;
  r ← call (Link (chars "lf2") (chars "lf2"));
  expect_not (0 <=? r) "%s: link lf2 lf2 succeeded! oops" s;;
  call (Unlink (chars "lf2"));;
  r ← call (Link (chars "lf2") (chars "lf1"));
  expect_not (0 <=? r) "%s: link non-existent succeeded! oops" s;;
  r ← call (Link (chars ".") (chars "lf1"));
  expect_not (0 <=? r) "%s: link . lf1 succeeded! oops" s.

(** The loop of [concreate] over the directory: which of the files were found ([fa]), and
    how many. *)
Fixpoint concreate_scan (fuel : nat) (s : list Z) (fd : Z) (de : bytes) (fa : Z -> bool) (n : Z) : prog Z :=
  match fuel with
  | O => Nofuel
  | S fuel =>
      '(r, data) ← call (Read fd 16);
      let de := put_bytes de 0 (take 16 data) in
      if 0 <? r then
        if load16 de 0 =? 0 then concreate_scan fuel s fd de fa n
        else if (de 2 =? 67) && (de 4 =? 0) then
          let i := de 3 - 48 in
          if (i <? 0) || (40 <=? i) then fail "%s: concreate weird file %s" [name s; name (cstr 14 de 2)]
          else if fa i then fail "%s: concreate duplicate file %s" [name s; name (cstr 14 de 2)]
          else concreate_scan fuel s fd de (<[i := true]> fa) (n + 1)
        else concreate_scan fuel s fd de fa n
      else Ret n
  end.

(** [f] six times. *)
Definition six (f : prog unit) : prog unit := forP (seqZ 0 6) (fun _ => f).

Definition concreate (fuel : nat) (s : list Z) : prog unit :=
  forP (seqZ 0 40) (fun i =>
    let file := str [67; 48 + i] in
    call (Unlink file);;
    pid ← call Fork;
    (if negb (pid =? 0) && (i mod 3 =? 1) then call (Link (chars "C0") file);; Ret tt
     else if (pid =? 0) && (i mod 5 =? 1) then call (Link (chars "C0") file);; Ret tt
     else
       fd ← call (Open file CREATE_RDWR);
       if fd <? 0 then fail "concreate create %s failed" [name file] else
       call (Close fd);; Ret tt);;
    if pid =? 0 then exit 0 else
    '(_, xstatus) ← wait_status;
    if negb (xstatus =? 0) then exit 1 else Ret tt);;
  fd ← call (Open (chars ".") 0);
  n ← concreate_scan fuel s fd (fun _ => 0) (fun _ => false) 0;
  call (Close fd);;
  expect_not (negb (n =? 40)) "%s: concreate not enough files in directory listing" s;;
  forP (seqZ 0 40) (fun i =>
    let file := str [67; 48 + i] in
    pid ← call Fork;
    expect_not (pid <? 0) "%s: fork failed" s;;
    (if ((i mod 3 =? 0) && (pid =? 0)) || ((i mod 3 =? 1) && negb (pid =? 0))
     then six (fd ← call (Open file 0); call (Close fd);; Ret tt)
     else six (call (Unlink file);; Ret tt));;
    if pid =? 0 then exit 0 else call Wait;; Ret tt).

(** [x] after each step of [linkunlink]. *)
Definition lu_next (x : Z) : Z := u32 (x * 1103515245 + 12345).

Fixpoint linkunlink_loop (n : nat) (x : Z) : prog unit :=
  match n with
  | O => Ret tt
  | S n =>
      let x := lu_next x in
      (if x mod 3 =? 0 then open_close "x" CREATE_RDWR
       else if x mod 3 =? 1 then call (Link (chars "cat") (chars "x"));; Ret tt
       else call (Unlink (chars "x"));; Ret tt);;
      linkunlink_loop n x
  end.

Definition linkunlink (s : list Z) : prog unit :=
  call (Unlink (chars "x"));;
  pid ← call Fork;
  expect_not (pid <? 0) "%s: fork failed" s;;
  linkunlink_loop 100 (if negb (pid =? 0) then 1 else 97);;
  if negb (pid =? 0) then call Wait;; Ret tt else exit 0.

(** ** Directories *)

(** The first half of [subdir] makes the tree dd, dd/ff, dd/dd, dd/dd/ffff. *)
Definition subdir_make (s : list Z) : prog unit :=
  call (Unlink (chars "ff"));;
  r ← call (Mkdir (chars "dd"));
  expect_not (negb (r =? 0)) "%s: mkdir dd failed" s;;
  fd ← call (Open (chars "dd/ff") CREATE_RDWR);
  expect_not (fd <? 0) "%s: create dd/ff failed" s;;
  call (Write fd (chars "ff"));;
  call (Close fd);;
  r ← call (Unlink (chars "dd"));
  expect_not (0 <=? r) "%s: unlink dd (non-empty dir) succeeded!" s;;
  r ← call (Mkdir (chars "/dd/dd"));
  expect_not (negb (r =? 0)) "subdir mkdir dd/dd failed" s;;
  fd ← call (Open (chars "dd/dd/ff") CREATE_RDWR);
  expect_not (fd <? 0) "%s: create dd/dd/ff failed" s;;
  call (Write fd (chars "FF"));;
  call (Close fd);;
  fd ← call (Open (chars "dd/dd/../ff") 0);
  expect_not (fd <? 0) "%s: open dd/dd/../ff failed" s;;
  '(cc, data) ← call (Read fd BUFSZ);
  expect_not (negb (cc =? 2) || negb (bytes_of data 0 =? 102)) "%s: dd/dd/../ff wrong content" s;;
  call (Close fd);;
  r ← call (Link (chars "dd/dd/ff") (chars "dd/dd/ffff"));
  expect_not (negb (r =? 0)) "link dd/dd/ff dd/dd/ffff failed" s;;
  r ← call (Unlink (chars "dd/dd/ff"));
  expect_not (negb (r =? 0)) "%s: unlink dd/dd/ff failed" s;;
  r ← call (Open (chars "dd/dd/ff") O_RDONLY);
  expect_not (0 <=? r) "%s: open (unlinked) dd/dd/ff succeeded" s.

(** Then it walks through it. *)
Definition subdir_walk (s : list Z) : prog unit :=
  r ← call (Chdir (chars "dd"));
  expect_not (negb (r =? 0)) "%s: chdir dd failed" s;;
  r ← call (Chdir (chars "dd/../../dd"));
  expect_not (negb (r =? 0)) "%s: chdir dd/../../dd failed" s;;
  r ← call (Chdir (chars "dd/../../../dd"));
  expect_not (negb (r =? 0)) "chdir dd/../../dd failed" s;;
  r ← call (Chdir (chars "./.."));
  expect_not (negb (r =? 0)) "%s: chdir ./.. failed" s;;
  fd ← call (Open (chars "dd/dd/ffff") 0);
  expect_not (fd <? 0) "%s: open dd/dd/ffff failed" s;;
  '(n, _) ← call (Read fd BUFSZ);
  expect_not (negb (n =? 2)) "%s: read dd/dd/ffff wrong len" s;;
  call (Close fd);;
  r ← call (Open (chars "dd/dd/ff") O_RDONLY);
  expect_not (0 <=? r) "%s: open (unlinked) dd/dd/ff succeeded!" s.

(** Then come the calls that have to fail. *)
Definition subdir_errors (s : list Z) : prog unit :=
  r ← call (Open (chars "dd/ff/ff") CREATE_RDWR);
  expect_not (0 <=? r) "%s: create dd/ff/ff succeeded!" s;;
  r ← call (Open (chars "dd/xx/ff") CREATE_RDWR);
  expect_not (0 <=? r) "%s: create dd/xx/ff succeeded!" s;;
  r ← call (Open (chars "dd") O_CREATE);
  expect_not (0 <=? r) "%s: create dd succeeded!" s;;
  r ← call (Open (chars "dd") O_RDWR);
  expect_not (0 <=? r) "%s: open dd rdwr succeeded!" s;;
  r ← call (Open (chars "dd") O_WRONLY);
  expect_not (0 <=? r) "%s: open dd wronly succeeded!" s;;
  r ← call (Link (chars "dd/ff/ff") (chars "dd/dd/xx"));
  expect_not (r =? 0) "%s: link dd/ff/ff dd/dd/xx succeeded!" s;;
  r ← call (Link (chars "dd/xx/ff") (chars "dd/dd/xx"));
  expect_not (r =? 0) "%s: link dd/xx/ff dd/dd/xx succeeded!" s;;
  r ← call (Link (chars "dd/ff") (chars "dd/dd/ffff"));
  expect_not (r =? 0) "%s: link dd/ff dd/dd/ffff succeeded!" s;;
  r ← call (Mkdir (chars "dd/ff/ff"));
  expect_not (r =? 0) "%s: mkdir dd/ff/ff succeeded!" s;;
  r ← call (Mkdir (chars "dd/xx/ff"));
  expect_not (r =? 0) "%s: mkdir dd/xx/ff succeeded!" s;;
  r ← call (Mkdir (chars "dd/dd/ffff"));
  expect_not (r =? 0) "%s: mkdir dd/dd/ffff succeeded!" s;;
  r ← call (Unlink (chars "dd/xx/ff"));
  expect_not (r =? 0) "%s: unlink dd/xx/ff succeeded!" s;;
  r ← call (Unlink (chars "dd/ff/ff"));
  expect_not (r =? 0) "%s: unlink dd/ff/ff succeeded!" s;;
  r ← call (Chdir (chars "dd/ff"));
  expect_not (r =? 0) "%s: chdir dd/ff succeeded!" s;;
  r ← call (Chdir (chars "dd/xx"));
  expect_not (r =? 0) "%s: chdir dd/xx succeeded!" s.

Definition subdir (s : list Z) : prog unit :=
  subdir_make s;;
  subdir_walk s;;
  subdir_errors s;;
  r ← call (Unlink (chars "dd/dd/ffff"));
  expect_not (negb (r =? 0)) "%s: unlink dd/dd/ff failed" s;;
  r ← call (Unlink (chars "dd/ff"));
  expect_not (negb (r =? 0)) "%s: unlink dd/ff failed" s;;
  r ← call (Unlink (chars "dd"));
  expect_not (r =? 0) "%s: unlink non-empty dd succeeded!" s;;
  r ← call (Unlink (chars "dd/dd"));
  expect_not (r <? 0) "%s: unlink dd/dd failed" s;;
  r ← call (Unlink (chars "dd"));
  expect_not (r <? 0) "%s: unlink dd failed" s.

(** The sizes 499, 970, ... below [BUFSZ]. *)
Definition bigwrite_sizes : list Z := filter (fun sz => sz < BUFSZ) (map (fun k => 499 + 471 * k) (seqZ 0 30)).

Definition bigwrite (s : list Z) : prog unit :=
  call (Unlink (chars "bigwrite"));;
  forP bigwrite_sizes (fun sz =>
    fd ← call (Open (chars "bigwrite") CREATE_RDWR);
    expect_not (fd <? 0) "%s: cannot create bigwrite" s;;
    forP (seqZ 0 2) (fun _ =>
      cc ← call (Write fd (replicate (Z.to_nat sz) 0));
      if negb (cc =? sz) then fail "%s: write(%d) ret %d" [name s; va_int sz; va_int cc] else Ret tt);;
    call (Close fd);;
    call (Unlink (chars "bigwrite"));;
    Ret tt).

(** The loop of [bigfile] that reads half blocks; round [i]. *)
Fixpoint bigfile_read (fuel : nat) (s : list Z) (fd : Z) (buf : bytes) (i total : Z) : prog Z :=
  match fuel with
  | O => Nofuel
  | S fuel =>
      '(cc, data) ← call (Read fd 300);
      let buf := put_bytes buf 0 (take 300 data) in
      if cc <? 0 then fail "%s: read bigfile failed" [name s]
      else if cc =? 0 then Ret total
      else if negb (cc =? 300) then fail "%s: short read bigfile" [name s]
      else if negb (buf 0 =? i / 2) || negb (buf 299 =? i / 2) then fail "%s: read bigfile wrong data" [name s]
      else bigfile_read fuel s fd buf (i + 1) (total + cc)
  end.

Definition bigfile (fuel : nat) (s : list Z) : prog unit :=
  call (Unlink (chars "bigfile.dat"));;
  fd ← call (Open (chars "bigfile.dat") CREATE_RDWR);
  (if fd <? 0 then printf "%s: cannot create bigfile" [name s];; exit 1 else Ret tt);;
  forP (seqZ 0 20) (fun i =>
    n ← call (Write fd (replicate 600 i));
    expect_not (negb (n =? 600)) "%s: write bigfile failed" s);;
  call (Close fd);;
  fd ← call (Open (chars "bigfile.dat") 0);
  expect_not (fd <? 0) "%s: cannot open bigfile" s;;
  total ← bigfile_read fuel s fd (bytes_of (replicate 600 19)) 0 0;
  call (Close fd);;
  expect_not (negb (total =? 20 * 600)) "%s: read bigfile wrong total" s;;
  call (Unlink (chars "bigfile.dat"));;
  Ret tt.

Definition fourteen (s : list Z) : prog unit :=
  r ← call (Mkdir (chars "12345678901234"));
  expect_not (negb (r =? 0)) "%s: mkdir 12345678901234 failed" s;;
  r ← call (Mkdir (chars "12345678901234/123456789012345"));
  expect_not (negb (r =? 0)) "%s: mkdir 12345678901234/123456789012345 failed" s;;
  fd ← call (Open (chars "123456789012345/123456789012345/123456789012345") O_CREATE);
  expect_not (fd <? 0) "%s: create 123456789012345/123456789012345/123456789012345 failed" s;;
  call (Close fd);;
  fd ← call (Open (chars "12345678901234/12345678901234/12345678901234") 0);
  expect_not (fd <? 0) "%s: open 12345678901234/12345678901234/12345678901234 failed" s;;
  call (Close fd);;
  r ← call (Mkdir (chars "12345678901234/12345678901234"));
  expect_not (r =? 0) "%s: mkdir 12345678901234/12345678901234 succeeded!" s;;
  r ← call (Mkdir (chars "123456789012345/12345678901234"));
  expect_not (r =? 0) "%s: mkdir 12345678901234/123456789012345 succeeded!" s;;
  call (Unlink (chars "123456789012345/12345678901234"));;
  call (Unlink (chars "12345678901234/12345678901234"));;
  call (Unlink (chars "12345678901234/12345678901234/12345678901234"));;
  call (Unlink (chars "123456789012345/123456789012345/123456789012345"));;
  call (Unlink (chars "12345678901234/123456789012345"));;
  call (Unlink (chars "12345678901234"));;
  Ret tt.

Definition rmdot (s : list Z) : prog unit :=
  r ← call (Mkdir (chars "dots"));
  expect_not (negb (r =? 0)) "%s: mkdir dots failed" s;;
  r ← call (Chdir (chars "dots"));
  expect_not (negb (r =? 0)) "%s: chdir dots failed" s;;
  r ← call (Unlink (chars "."));
  expect_not (r =? 0) "%s: rm . worked!" s;;
  r ← call (Unlink (chars ".."));
  expect_not (r =? 0) "%s: rm .. worked!" s;;
  r ← call (Chdir (chars "/"));
  expect_not (negb (r =? 0)) "%s: chdir / failed" s;;
  r ← call (Unlink (chars "dots/."));
  expect_not (r =? 0) "%s: unlink dots/. worked!" s;;
  r ← call (Unlink (chars "dots/.."));
  expect_not (r =? 0) "%s: unlink dots/.. worked!" s;;
  r ← call (Unlink (chars "dots"));
  expect_not (negb (r =? 0)) "%s: unlink dots failed!" s.

Definition dirfile (s : list Z) : prog unit :=
  fd ← call (Open (chars "dirfile") O_CREATE);
  expect_not (fd <? 0) "%s: create dirfile failed" s;;
  call (Close fd);;
  r ← call (Chdir (chars "dirfile"));
  expect_not (r =? 0) "%s: chdir dirfile succeeded!" s;;
  fd ← call (Open (chars "dirfile/xx") 0);
  expect_not (0 <=? fd) "%s: create dirfile/xx succeeded!" s;;
  fd ← call (Open (chars "dirfile/xx") O_CREATE);
  expect_not (0 <=? fd) "%s: create dirfile/xx succeeded!" s;;
  r ← call (Mkdir (chars "dirfile/xx"));
  expect_not (r =? 0) "%s: mkdir dirfile/xx succeeded!" s;;
  r ← call (Unlink (chars "dirfile/xx"));
  expect_not (r =? 0) "%s: unlink dirfile/xx succeeded!" s;;
  r ← call (Link (chars "README") (chars "dirfile/xx"));
  expect_not (r =? 0) "%s: link to dirfile/xx succeeded!" s;;
  r ← call (Unlink (chars "dirfile"));
  expect_not (negb (r =? 0)) "%s: unlink dirfile failed!" s;;
  fd ← call (Open (chars ".") O_RDWR);
  expect_not (0 <=? fd) "%s: open . for writing succeeded!" s;;
  fd ← call (Open (chars ".") 0);
  n ← call (Write fd (chars "x"));
  expect_not (0 <? n) "%s: write . succeeded!" s;;
  call (Close fd);;
  Ret tt.

Definition close_if_open (fd : Z) : prog unit := if 0 <=? fd then call (Close fd);; Ret tt else Ret tt.

Definition iref (s : list Z) : prog unit :=
  forP (seqZ 0 (NINODE + 1)) (fun _ =>
    r ← call (Mkdir (chars "irefd"));
    expect_not (negb (r =? 0)) "%s: mkdir irefd failed" s;;
    r ← call (Chdir (chars "irefd"));
    expect_not (negb (r =? 0)) "%s: chdir irefd failed" s;;
    call (Mkdir []);;
    call (Link (chars "README") []);;
    fd ← call (Open [] O_CREATE);
    close_if_open fd;;
    fd ← call (Open (chars "xx") O_CREATE);
    close_if_open fd;;
    call (Unlink (chars "xx"));;
    Ret tt);;
  forP (seqZ 0 (NINODE + 1)) (fun _ =>
    call (Chdir (chars ".."));;
    call (Unlink (chars "irefd"));;
    Ret tt);;
  call (Chdir (chars "/"));;
  Ret tt.

(** ** Forking until it fails *)

(** The loop of [forktest]: the number of children, of at most [more] more. *)
Fixpoint fork_until (more : nat) (n : Z) : prog Z :=
  match more with
  | O => Ret n
  | S more =>
      pid ← call Fork;
      if pid <? 0 then Ret n
      else if pid =? 0 then exit 0
      else fork_until more (n + 1)
  end.

Definition forktest (s : list Z) : prog unit :=
  n ← fork_until 1000 0;
  expect_not (n =? 0) "%s: no fork at all!" s;;
  expect_not (n =? 1000) "%s: fork claimed to work 1000 times!" s;;
  forP (seqZ 0 n) (fun _ => r ← call Wait; expect_not (r <? 0) "%s: wait stopped early" s);;
  r ← call Wait;
  expect_not (negb (r =? -1)) "%s: wait got too many" s.

(** user/forktest.c *)
Definition print (s : string) : prog unit := call (Write 1 (chars (line s)));; Ret tt.

Definition forktest_alone : prog unit :=
  print "fork test";;
  n ← fork_until 1000 0;
  (if n =? 1000 then print "fork claimed to work N times!";; exit 1 else Ret tt);;
  forP (seqZ 0 n) (fun _ => r ← call Wait; if r <? 0 then print "wait stopped early";; exit 1 else Ret tt);;
  r ← call Wait;
  (if negb (r =? -1) then print "wait got too many";; exit 1 else Ret tt);;
  print "fork test OK".

Definition forktest_main : prog unit := forktest_alone;; exit 0.

(** ** Memory *)

Definition TOOMUCH : Z := 1024 * 1024 * 1024.

(** [for(b = a; b < end; b += 4096) *b = v] in at most [n] rounds. *)
Definition touch (a n v : Z) : prog unit := forP (seqZ 0 n) (fun i => call (Store (u64 (a + 4096 * i)) 1 v)).

(** [sbrk(1)] 5000 times: the break afterwards. *)
Fixpoint sbrk_ones (s : list Z) (n : nat) (i a : Z) : prog Z :=
  match n with
  | O => Ret a
  | S n =>
      b ← call (Sbrk 1);
      if negb (b =? a) then fail "%s: sbrk test failed %d %x %x" [name s; va_int i; va_int (s32 a); va_int (s32 b)] else
      call (Store b 1 1);;
      sbrk_ones s n (i + 1) (u64 (b + 1))
  end.

Definition sbrkbasic (s : list Z) : prog unit :=
  pid ← call Fork;
  if pid <? 0 then fail "fork failed in sbrkbasic" [] else
  if pid =? 0 then
    a ← call (Sbrk TOOMUCH);
    if a =? bad_ptr then exit 0 else
    touch a (TOOMUCH / 4096) 99;;
    exit 1
  else
  '(_, xstatus) ← wait_status;
  expect_not (xstatus =? 1) "%s: too much memory allocated!" s;;
  a ← call (Sbrk 0);
  a ← sbrk_ones s 5000 0 a;
  pid ← call Fork;
  expect_not (pid <? 0) "%s: sbrk test fork failed" s;;
  call (Sbrk 1);;
  c ← call (Sbrk 1);
  expect_not (negb (c =? u64 (a + 1))) "%s: sbrk test failed post-fork" s;;
  if pid =? 0 then exit 0 else
  '(_, xstatus) ← wait_status;
  exit xstatus.

Definition BIG : Z := 100 * 1024 * 1024.

Definition sbrkmuch (s : list Z) : prog unit :=
  oldbrk ← call (Sbrk 0);
  a ← call (Sbrk 0);
  p ← call (Sbrk (s32 (BIG - a)));
  expect_not (negb (p =? a)) "%s: sbrk test failed to grow big address space; enough phys mem?" s;;
  eee ← call (Sbrk 0);
  touch a ((eee - a + 4095) / 4096) 1;;
  let lastaddr := BIG - 1 in
  call (Store lastaddr 1 99);;
  a ← call (Sbrk 0);
  c ← call (Sbrk (- PGSIZE));
  expect_not (c =? bad_ptr) "%s: sbrk could not deallocate" s;;
  c ← call (Sbrk 0);
  (if negb (c =? u64 (a - PGSIZE)) then
     fail "%s: sbrk deallocation produced wrong address, a %x c %x" [name s; va_int (s32 a); va_int (s32 c)]
   else Ret tt);;
  a ← call (Sbrk 0);
  c ← call (Sbrk PGSIZE);
  bad ← (if negb (c =? a) then Ret true else b ← call (Sbrk 0); Ret (negb (b =? u64 (a + PGSIZE))));
  (if bad : bool then fail "%s: sbrk re-allocation failed, a %x c %x" [name s; va_int (s32 a); va_int (s32 c)] else Ret tt);;
  v ← call (Load lastaddr 1);
  expect_not (v =? 99) "%s: sbrk de-allocation didn't really deallocate" s;;
  a ← call (Sbrk 0);
  b ← call (Sbrk 0);
  c ← call (Sbrk (s32 (- (b - oldbrk))));
  if negb (c =? a) then fail "%s: sbrk downsize failed, a %x c %x" [name s; va_int (s32 a); va_int (s32 c)] else Ret tt.

Definition KERNBASE : Z := 0x80000000.

(** A child that has to be killed. *)
Definition must_die (s : list Z) (child : prog unit) : prog unit :=
  pid ← call Fork;
  expect_not (pid <? 0) "%s: fork failed" s;;
  if pid =? 0 then child else
  '(_, xstatus) ← wait_status;
  if negb (xstatus =? -1) then exit 1 else Ret tt.

Definition kernmem (s : list Z) : prog unit :=
  forP (map (fun k => KERNBASE + 50000 * k) (seqZ 0 40)) (fun a =>
    must_die s (v ← call (Load a 1); fail "%s: oops could read %x = %x" [name s; va_int (s32 a); va_int v])).

Definition MAXVA : Z := Z.shiftl 1 38.

(** [a] from [MAXVA] by doubling until it is zero in 64 bits. *)
Definition MAXVAplus (s : list Z) : prog unit :=
  forP (map (fun k => Z.shiftl MAXVA k) (seqZ 0 26)) (fun a =>
    must_die s (call (Store a 1 99);; fail "%s: oops wrote %x" [name s; va_int (s32 a)])).

(** [for(;;) sleep(1000)]. *)
Fixpoint sleep_loop (fuel : nat) : prog unit :=
  match fuel with O => Nofuel | S fuel => call (Sleep 1000);; sleep_loop fuel end.

(** The first loop of [sbrkfail]: the pids. *)
Fixpoint sbrkfail_forks (n fuel : nat) (fd0 fd1 : Z) : prog (list Z) :=
  match n with
  | O => Ret []
  | S n =>
      pid ← call Fork;
      (if pid =? 0 then
         b ← call (Sbrk 0);
         call (Sbrk (s32 (BIG - b)));;
         call (Write fd1 (chars "x"));;
         sleep_loop fuel
       else Ret tt);;
      (if negb (pid =? -1) then call (Read fd0 1);; Ret tt else Ret tt);;
      pids ← sbrkfail_forks n fuel fd0 fd1;
      Ret (pid :: pids)
  end.

(** The sum of the characters at [a], [a + PGSIZE], ... *)
Fixpoint sum_pages (n : nat) (a acc : Z) : prog Z :=
  match n with
  | O => Ret acc
  | S n => v ← call (Load (u64 a) 1); sum_pages n (a + PGSIZE) (s32 (acc + v))
  end.

Definition sbrkfail (fuel : nat) (s : list Z) : prog unit :=
  '(r, (fd0, fd1)) ← call Pipe;
  expect_not (negb (r =? 0)) "%s: pipe() failed" s;;
  pids ← sbrkfail_forks 10 fuel fd0 fd1;
  c ← call (Sbrk PGSIZE);
  forP pids (fun pid => if pid =? -1 then Ret tt else call (Kill pid);; call Wait;; Ret tt);;
  expect_not (c =? bad_ptr) "%s: failed sbrk leaked memory" s;;
  pid ← call Fork;
  expect_not (pid <? 0) "%s: fork failed" s;;
  if pid =? 0 then
    a ← call (Sbrk 0);
    call (Sbrk (10 * BIG));;
    n ← sum_pages (Z.to_nat (10 * BIG / PGSIZE)) a 0;
    fail "%s: allocate a lot of memory succeeded %d" [name s; va_int n]
  else
  '(_, xstatus) ← wait_status;
  if negb (xstatus =? -1) && negb (xstatus =? 2) then exit 1 else Ret tt.

Definition sbrkarg (s : list Z) : prog unit :=
  a ← call (Sbrk PGSIZE);
  fd ← call (Open (chars "sbrk") CREATE_WRONLY);
  call (Unlink (chars "sbrk"));;
  expect_not (fd <? 0) "%s: open sbrk failed" s;;
  n ← call (Raw SYS_write [Num fd; Num a; Num PGSIZE]);
  expect_not (n <? 0) "%s: write sbrk failed" s;;
  call (Close fd);;
  a ← call (Sbrk PGSIZE);
  r ← call (Raw SYS_pipe [Num a]);
  expect_not (negb (r =? 0)) "%s: pipe() failed" s.

Definition validatetest (s : list Z) : prog unit :=
  forP (map (fun k => PGSIZE * k) (seqZ 0 (1100 * 1024 / PGSIZE + 1))) (fun p =>
    r ← call (Raw SYS_link [Str (chars "nosuchfile"); Num p]);
    expect_not (negb (r =? -1)) "%s: link should not succeed" s).

(** [uninit] is the array as the kernel has loaded it. *)
Definition bsstest (uninit : bytes) (s : list Z) : prog unit :=
  forP (seqZ 0 10000) (fun i => expect_not (negb (uninit i =? 0)) "%s: bss test failed" s).

Definition bigargtest (s : list Z) : prog unit :=
  call (Unlink (chars "bigarg-ok"));;
  pid ← call Fork;
  if pid =? 0 then
    let arg := chars (line "bigargs test: failed") ++ replicate 199 32 in
    call (Exec (chars "echo") (replicate (Z.to_nat (MAXARG - 1)) arg));;
    fd ← call (Open (chars "bigarg-ok") O_CREATE);
    call (Close fd);;
    exit 0
  else if pid <? 0 then fail "%s: bigargtest: fork failed" [name s] else
  '(_, xstatus) ← wait_status;
  if negb (xstatus =? 0) then exit xstatus else
  fd ← call (Open (chars "bigarg-ok") 0);
  expect_not (fd <? 0) "%s: bigarg test failed!" s;;
  call (Close fd);;
  Ret tt.

(** ** A full disk *)

(** f0000, f0001, ... *)
Definition fsfull_name (n : Z) : list Z :=
  str [102; 48 + n / 1000; 48 + (n mod 1000) / 100; 48 + (n mod 100) / 10; 48 + n mod 10].

Fixpoint fsfull_write (fuel : nat) (fd total : Z) : prog Z :=
  match fuel with
  | O => Nofuel
  | S fuel =>
      cc ← call (Write fd (replicate (Z.to_nat BSIZE) 0));
      if cc <? BSIZE then Ret total else fsfull_write fuel fd (total + cc)
  end.

(** The number of the last file. *)
Fixpoint fsfull_create (fuel : nat) (nfiles : Z) : prog Z :=
  match fuel with
  | O => Nofuel
  | S fuel' =>
      let name1 := fsfull_name nfiles in
      printf (line "writing %s") [name name1];;
      fd ← call (Open name1 CREATE_RDWR);
      if fd <? 0 then printf (line "open %s failed") [name name1];; Ret nfiles else
      total ← fsfull_write fuel fd 0;
      printf (line "wrote %d bytes") [va_int total];;
      call (Close fd);;
      if total =? 0 then Ret nfiles else fsfull_create fuel' (nfiles + 1)
  end.

Definition fsfull (fuel : nat) : prog unit :=
  printf (line "fsfull test") [];;
  nfiles ← fsfull_create fuel 0;
  forP (map (fun k => nfiles - k) (seqZ 0 (nfiles + 1))) (fun n => call (Unlink (fsfull_name n));; Ret tt);;
  printf (line "fsfull test finished") [].

(** ** Bad pointers and breaks *)

Definition argptest (s : list Z) : prog unit :=
  fd ← call (Open (chars "init") O_RDONLY);
  expect_not (fd <? 0) "%s: open failed" s;;
  b ← call (Sbrk 0);
  call (Raw SYS_read [Num fd; Num (u64 (b - 1)); Num (-1)]);;
  call (Close fd);;
  Ret tt.

(** [sp] is the value of the stack pointer. *)
Definition stacktest (sp : Z) (s : list Z) : prog unit :=
  pid ← call Fork;
  if pid =? 0 then
    v ← call (Load (u64 (sp - PGSIZE)) 1);
    fail "%s: stacktest: read below stack %p" [name s; va_long v]
  else if pid <? 0 then fail "%s: fork failed" [name s] else
  '(_, xstatus) ← wait_status;
  if xstatus =? -1 then exit 0 else exit xstatus.

Definition textwrite (s : list Z) : prog unit :=
  pid ← call Fork;
  if pid =? 0 then call (Store 0 4 10);; exit 1
  else if pid <? 0 then fail "%s: fork failed" [name s] else
  '(_, xstatus) ← wait_status;
  if xstatus =? -1 then exit 0 else exit xstatus.

Definition big : Z := 0xeaeb0b5b00002f5e.

Definition pgbug (s : list Z) : prog unit :=
  call (Raw SYS_exec [Num big; Vec [Num 0]]);;
  call (Raw SYS_pipe [Num big]);;
  exit 0.

(** A child that changes the break, and is waited for. *)
Definition break_child (child : prog unit) : prog unit :=
  pid ← call Fork;
  if pid <? 0 then fail "fork failed" [] else
  if pid =? 0 then child;; exit 0 else
  call Wait;;
  Ret tt.

Definition sbrkbugs (s : list Z) : prog unit :=
  break_child (b ← call (Sbrk 0); call (Sbrk (s32 (- s32 b)));; Ret tt);;
  break_child (b ← call (Sbrk 0); call (Sbrk (s32 (- (s32 b - 3500))));; Ret tt);;
  break_child (b ← call (Sbrk 0); call (Sbrk (s32 (10 * 4096 + 2048 - b)));; call (Sbrk (-10));; Ret tt);;
  exit 0.

Definition sbrklast (s : list Z) : prog unit :=
  top ← call (Sbrk 0);
  (if negb (top mod 4096 =? 0) then call (Sbrk (4096 - top mod 4096));; Ret tt else Ret tt);;
  call (Sbrk 4096);;
  call (Sbrk 10);;
  call (Sbrk (-20));;
  top ← call (Sbrk 0);
  let p := u64 (top - 64) in
  call (Store p 1 120);;
  call (Store (u64 (p + 1)) 1 0);;
  fd ← call (Raw SYS_open [Num p; Num CREATE_RDWR]);
  call (Raw SYS_write [Num fd; Num p; Num 1]);;
  call (Close fd);;
  fd ← call (Raw SYS_open [Num p; Num O_RDWR]);
  call (Store p 1 0);;
  call (Raw SYS_read [Num fd; Num p; Num 1]);;
  c ← call (Load p 1);
  if negb (c =? 120) then exit 1 else Ret tt.

Definition sbrk8000 (s : list Z) : prog unit :=
  call (Sbrk (s32 0x80000004));;
  top ← call (Sbrk 0);
  v ← call (Load (u64 (top - 1)) 1);
  call (Store (u64 (top - 1)) 1 (u8 (v + 1))).

Definition badarg (s : list Z) : prog unit :=
  forP (seqZ 0 50000) (fun _ => call (Raw SYS_exec [Str (chars "echo"); Vec [Num 0xffffffff; Num 0]]);; Ret tt);;
  exit 0.

(** ** The allocator *)

Section malloc.
(** The parameters of the allocator (user/umalloc.c), and bounds on its loops. *)
Context (base : Z) (grants : Z -> Z -> bool) (rounds ring : nat).

(** Blocks until there are no more, each with a pointer to the one before. *)
Fixpoint mem_alloc (fuel : nat) (m1 : Z) (h : mstate) : option (Z * mstate) :=
  match fuel with
  | O => None
  | S fuel =>
      '(m2, h) ← malloc base grants rounds ring 10001 h;
      match m2 with
      | None => Some (m1, h)
      | Some m2 => mem_alloc fuel m2 (upd_hdr m2 (fun x => x <| h_ptr := m1 |>) h)
      end
  end.

Fixpoint mem_free (fuel : nat) (m1 : Z) (h : mstate) : option mstate :=
  match fuel with
  | O => None
  | S fuel =>
      if m1 =? 0 then Some h else
      let m2 := (h.(hp) m1).(h_ptr) in
      h ← free ring m1 h;
      mem_free fuel m2 h
  end.

(** Whether the last allocation succeeds. *)
Definition mem_run (fuel : nat) (h : mstate) : option bool :=
  '(m1, h) ← mem_alloc fuel 0 h;
  h ← mem_free fuel m1 h;
  '(m1, h) ← malloc base grants rounds ring (1024 * 20) h;
  match m1 with
  | None => Some false
  | Some m1 => _ ← free ring m1 h; Some true
  end.

Definition mem (fuel : nat) (h : mstate) (s : list Z) : prog unit :=
  pid ← call Fork;
  if pid =? 0 then
    match mem_run fuel h with
    | None => Nofuel
    | Some false => fail "couldn't allocate mem?!!" [name s]
    | Some true => exit 0
    end
  else
    '(_, xstatus) ← wait_status;
    if xstatus =? -1 then exit 0 else exit xstatus.

(** ** Kernel threads *)

Definition kthread_start_func : prog unit :=
  forP (seqZ 0 10) (fun _ => call (Sleep 10);; Ret tt);;
  call (Raw SYS_kthread_exit [Num 0]);;
  fail "kthread_exit failed" [].

(** [start] is the address of [kthread_start_func], which the new threads run.  The second
    test is on [kt_a] as well. *)
Definition klttest (start : Z) (h : mstate) : prog unit :=
  match malloc base grants rounds ring STACK_SIZE h with
  | None => Nofuel
  | Some (stack_a, h) =>
      match malloc base grants rounds ring STACK_SIZE h with
      | None => Nofuel
      | Some (stack_b, h) =>
          let stack_a := default 0 stack_a in
          let stack_b := default 0 stack_b in
          kt_a ← call (Raw SYS_kthread_create [Num start; Num stack_a; Num STACK_SIZE]);
          if kt_a <=? 0 then fail "kthread_create failed" [] else
          kt_b ← call (Raw SYS_kthread_create [Num start; Num stack_b; Num STACK_SIZE]);
          if kt_a <=? 0 then fail "kthread_create failed" [] else
          joined ← call (Raw SYS_kthread_join [Num kt_a; Num 0]);
          if negb (joined =? 0) then fail "kthread_join failed" [] else
          joined ← call (Raw SYS_kthread_join [Num kt_b; Num 0]);
          if negb (joined =? 0) then fail "kthread_join failed" [] else
          match (h ← free ring stack_a h; free ring stack_b h) with
          | None => Nofuel
          | Some _ => Ret tt
          end
      end
  end.
End malloc.

(** ** User-level threads *)

Definition ustate0 : ustate := Ustate false (fun _ => Uthread 0 0 FREE (Ucontext 0 0) LOW) None.

Section threads.
(** The tops of the stacks, and the addresses of [uthread_exit], [uthread_a_start_func] and
    [uthread_b_start_func]. *)
Context (stack_top : Z -> Z) (exit_addr a_addr b_addr : Z).

(** [uthread_create], whose result is not used. *)
Definition create (start_func : Z) (priority : sched_priority) (u : ustate) : option ustate :=
  match uthread_create stack_top exit_addr start_func priority u with Ureturn _ u => Some u | _ => None end.

(** The call of [uthread_exit] by a thread; [next] is what runs after a switch. *)
Definition exit_thread (u : ustate) (next : saved -> Z -> ustate -> prog unit) : prog unit :=
  printf (line "in uthresd exit") [];;
  match uthread_exit u with
  | Uexit status => exit status
  | Uswtch from n u => next from n u
  | Ureturn _ _ => fail "uthread_exit failed" []
  | Ufault => Undefined
  end.

(** The thread [n] from its start, and the threads after it; [x] is the variable that
    they share.  No thread of the test is switched to twice. *)
Fixpoint ult_thread (fuel : nat) (x : sched_priority) (n : Z) (u : ustate) : prog unit :=
  match fuel with
  | O => Nofuel
  | S fuel =>
      let work := forP (seqZ 0 10) (fun _ => call (Sleep 10);; Ret tt) in
      match uthread_get_priority u with
      | None => Undefined
      | Some prio =>
          if (u.(uthreads_arr) n).(u_context).(uc_ra) =? a_addr then
            if negb (bool_decide (x = MEDIUM)) then fail "sched policy failed" [] else
            if negb (bool_decide (prio = LOW)) then fail "uthread_get_priority failed" [] else
            work;;
            exit_thread u (fun _ => ult_thread fuel x)
          else
            work;;
            exit_thread u (fun _ => ult_thread fuel prio)
      end
  end.

Definition ulttest (fuel : nat) : prog unit :=
  match (u ← create a_addr LOW ustate0; create b_addr MEDIUM u) with
  | None => Undefined
  | Some u =>
      match uthread_start_all u with
      | Uswtch _ n u => ult_thread fuel HIGH n u
      | Ureturn _ _ => fail "uthread_start_all failed" []
      | Uexit status => exit status
      | Ufault => Undefined
      end
  end.

(** The thread of priority LOW is never run: the other one runs to its end, and then the
    process exits with status 0, as if the test had passed. *)
Lemma ulttest_skips_low fuel : a_addr <> b_addr ->
  ulttest (S fuel) = (forP (seqZ 0 10) (fun _ => call (Sleep 10);; Ret tt);; printf (line "in uthresd exit") [];; exit 0).
Proof.
  intros N. assert (exists u u', (u ← create a_addr LOW ustate0; create b_addr MEDIUM u) = Some u /\ uthread_start_all u = Uswtch garbage 1 u' /\
    uthread_get_priority u' = Some MEDIUM /\ (u'.(uthreads_arr) 1).(u_context).(uc_ra) = b_addr /\ uthread_exit u' = Uexit 0) as (u & u' & E1 & E2 & E3 & E4 & E5).
  { do 2 eexists. split; [reflexivity|]. split; [reflexivity|]. split; [reflexivity|]. split; reflexivity. }
  unfold ulttest. rewrite E1, E2. cbn [ult_thread]. rewrite E3, E4, (proj2 (Z.eqb_neq b_addr a_addr)) by congruence. unfold exit_thread. by rewrite E5.
Qed.

(** user/tests.c.  A thread starts with the first argument of [uswtch] as its argument:
    the address of the context that was saved, whose first word is its [ra]. *)
Context (saved_ra : saved -> Z).

Fixpoint thread_func (fuel : nat) (from : saved) (n : Z) (u : ustate) : prog unit :=
  match fuel with
  | O => Nofuel
  | S fuel =>
      printf (line "Thread %d started") [va_int (s32 (saved_ra from))];;
      exit_thread u (thread_func fuel)
  end.

(** The arguments 1 and 2 are the priorities. *)
Definition tests_main (fuel : nat) : prog unit :=
  match uthread_create stack_top exit_addr a_addr MEDIUM ustate0 with
  | Ureturn r1 u =>
      if r1 =? -1 then fail "Error creating thread" [] else
      match uthread_create stack_top exit_addr a_addr HIGH u with
      | Ureturn r2 u =>
          if r2 =? -1 then fail "Error creating thread" [] else
          match uthread_start_all u with
          | Uswtch from n u => thread_func fuel from n u
          | Ureturn _ _ => printf (line "Main thread resumed") []
          | Uexit status => exit status
          | Ufault => Undefined
          end
      | _ => Undefined
      end
  | _ => Undefined
  end.
End threads.
