(* ===== verification/UserTestsRun.v ===== *)
(** * The slow tests and the driver (user/usertests.c, user/stressfs.c)

    The theorem says when the driver reports that all tests have passed. *)
From S2P Require Export UserTests2.
From S2P Require Import Umalloc.

(** ** The slow tests *)

Definition bd_name (i : Z) : list Z := str [120; 48 + i / 64; 48 + i mod 64].

Definition bigdir (s : list Z) : prog unit :=
  call (Unlink (chars "bd"));;
  fd ← call (Open (chars "bd") O_CREATE);
  expect_not (fd <? 0) "%s: bigdir create failed" s;;
  call (Close fd);;
  forP (seqZ 0 500) (fun i =>
    r ← call (Link (chars "bd") (bd_name i));
    if negb (r =? 0) then fail "%s: bigdir link(bd, %s) failed" [name s; name (bd_name i)] else Ret tt);;
  call (Unlink (chars "bd"));;
  forP (seqZ 0 500) (fun i =>
    r ← call (Unlink (bd_name i));
    if negb (r =? 0) then printf "%s: bigdir unlink failed" [name s];; exit 1 else Ret tt).

Definition manywrites_child (s : list Z) (ci : Z) : prog unit :=
  let name1 := str [98; 97 + ci] in
  call (Unlink name1);;
  forP (seqZ 0 30) (fun _ =>
    forP (seqZ 0 (ci + 1)) (fun _ =>
      fd ← call (Open name1 CREATE_RDWR);
      if fd <? 0 then fail "%s: cannot create %s" [name s; name name1] else
      cc ← call (Write fd (replicate (Z.to_nat BUFSZ) 0));
      if negb (cc =? BUFSZ) then fail "%s: write(%d) ret %d" [name s; va_int BUFSZ; va_int cc] else
      call (Close fd);;
      Ret tt);;
    call (Unlink name1);;
    Ret tt);;
  call (Unlink name1);;
  exit 0.

Definition manywrites (s : list Z) : prog unit :=
  forP (seqZ 0 4) (fun ci =>
    pid ← call Fork;
    if pid <? 0 then fail "fork failed" [] else
    if pid =? 0 then manywrites_child s ci else Ret tt);;
  forP (seqZ 0 4) (fun _ =>
    '(_, st) ← call Wait_status;
    if negb (default 0 st =? 0) then exit (default 0 st) else Ret tt);;
  exit 0.

Definition badwrite (s : list Z) : prog unit :=
  call (Unlink (chars "junk"));;
  forP (seqZ 0 600) (fun _ =>
    fd ← call (Open (chars "junk") CREATE_WRONLY);
    if fd <? 0 then fail "open junk failed" [] else
    call (Raw SYS_write [Num fd; Num 0xffffffffff; Num 1]);;
    call (Close fd);;
    call (Unlink (chars "junk"));;
    Ret tt);;
  fd ← call (Open (chars "junk") CREATE_WRONLY);
  if fd <? 0 then fail "open junk failed" [] else
  n ← call (Write fd (chars "x"));
  if negb (n =? 1) then fail "write failed" [] else
  call (Close fd);;
  call (Unlink (chars "junk"));;
  exit 0.

(** Pages until [sbrk] fails, each of them written to. *)
Fixpoint execout_grow (fuel : nat) : prog unit :=
  match fuel with
  | O => Nofuel
  | S fuel =>
      a ← call (Sbrk 4096);
      if a =? bad_ptr then Ret tt else
      call (Store (u64 (a + 4096 - 1)) 1 1);;
      execout_grow fuel
  end.

Definition execout (fuel : nat) (s : list Z) : prog unit :=
  forP (seqZ 0 15) (fun avail =>
    pid ← call Fork;
    if pid <? 0 then fail "fork failed" []
    else if pid =? 0 then
      execout_grow fuel;;
      forP (seqZ 0 avail) (fun _ => call (Sbrk (-4096));; Ret tt);;
      call (Close 1);;
      call (Exec (chars "echo") [chars "echo"; chars "x"]);;
      exit 0
    else call Wait;; Ret tt);;
  exit 0.

Definition CREATE_RDWR_TRUNC : Z := Z.lor CREATE_RDWR O_TRUNC.
Definition big_name (i : Z) : list Z := str [98; 105; 103; 48 + i].
Definition zz_name (i : Z) : list Z := str [122; 122; 48 + i / 32; 48 + i mod 32].

(** Up to [n] blocks; whether a write failed.  [junk] is the contents of the array of the
    test, which is not initialised. *)
Fixpoint diskfull_write (junk : list Z) (n : nat) (fd : Z) : prog bool :=
  match n with
  | O => Ret false
  | S n =>
      r ← call (Write fd junk);
      if negb (r =? BSIZE) then call (Close fd);; Ret true else diskfull_write junk n fd
  end.

(** Large files until the disk is full: [fi] at the end. *)
Fixpoint diskfull_files (junk : list Z) (fuel : nat) (s : list Z) (fi : Z) : prog Z :=
  match fuel with
  | O => Nofuel
  | S fuel =>
      call (Unlink (big_name fi));;
      fd ← call (Open (big_name fi) CREATE_RDWR_TRUNC);
      if fd <? 0 then printf (line "%s: could not create file %s") [name s; name (big_name fi)];; Ret fi else
      full ← diskfull_write junk (Z.to_nat MAXFILE) fd;
      call (Close fd);;
      if full : bool then Ret (fi + 1) else diskfull_files junk fuel s (fi + 1)
  end.

(** Empty files [zz..] from [i] on, [n] of them, until one cannot be created. *)
Fixpoint zz_create (n : nat) (i : Z) : prog unit :=
  match n with
  | O => Ret tt
  | S n =>
      call (Unlink (zz_name i));;
      fd ← call (Open (zz_name i) CREATE_RDWR_TRUNC);
      if fd <? 0 then Ret tt else
      call (Close fd);;
      zz_create n (i + 1)
  end.

(** The message of the [mkdir] has a directive without an argument. *)
Definition diskfull (junk : list Z) (fuel : nat) (s : list Z) : prog unit :=
  call (Unlink (chars "diskfulldir"));;
  fi ← diskfull_files junk fuel s 0;
  zz_create 128 0;;
  r ← call (Mkdir (chars "diskfulldir"));
  (if r =? 0 then printf (line "%s: mkdir(diskfulldir) unexpectedly succeeded!") [] else Ret tt);;
  call (Unlink (chars "diskfulldir"));;
  forP (seqZ 0 128) (fun i => call (Unlink (zz_name i));; Ret tt);;
  forP (seqZ 0 fi) (fun i => call (Unlink (big_name i));; Ret tt).

Definition outofinodes (s : list Z) : prog unit :=
  zz_create (32 * 32) 0;;
  forP (seqZ 0 (32 * 32)) (fun i => call (Unlink (zz_name i));; Ret tt).

(** ** The driver *)

(** [struct test]: the function and its name. *)
Definition test : Type := (list Z -> prog unit) * list Z.

Definition run (f : list Z -> prog unit) (s : list Z) : prog bool :=
  printf "test %s: " [name s];;
  pid ← call Fork;
  if pid <? 0 then fail "runtest: fork error" [] else
  if pid =? 0 then f s;; exit 0 else
  '(_, xstatus) ← wait_status;
  (if negb (xstatus =? 0) then printf (line "FAILED") [] else printf (line "OK") []);;
  Ret (xstatus =? 0).

(** Whether a test failed. *)
Fixpoint runtests (tests : list test) (justone : option (list Z)) : prog bool :=
  match tests with
  | [] => Ret false
  | t :: tests =>
      if match justone with None => true | Some s => bool_decide (t.2 = s) end then
        ok ← run t.1 t.2;
        if negb ok then printf (line "SOME TESTS FAILED") [];; Ret true
        else runtests tests justone
      else runtests tests justone
  end.

(** The child of [countfree] writes a character for each page that it gets. *)
Fixpoint countfree_child (fuel : nat) (fd : Z) : prog unit :=
  match fuel with
  | O => Nofuel
  | S fuel =>
      a ← call (Sbrk 4096);
      if a =? bad_ptr then Ret tt else
      call (Store (u64 (a + 4096 - 1)) 1 1);;
      r ← call (Write fd (chars "x"));
      if negb (r =? 1) then fail "write() failed in countfree()" [] else
      countfree_child fuel fd
  end.

Fixpoint countfree_read (fuel : nat) (fd n : Z) : prog Z :=
  match fuel with
  | O => Nofuel
  | S fuel =>
      '(cc, _) ← call (Read fd 1);
      if cc <? 0 then fail "read() failed in countfree()" []
      else if cc =? 0 then Ret n
      else countfree_read fuel fd (n + 1)
  end.

Definition countfree (fuel : nat) : prog Z :=
  '(r, (fd0, fd1)) ← call Pipe;
  if r <? 0 then fail "pipe() failed in countfree()" [] else
  pid ← call Fork;
  if pid <? 0 then fail "fork failed in countfree()" [] else
  if pid =? 0 then call (Close fd0);; countfree_child fuel fd1;; exit 0 else
  call (Close fd1);;
  n ← countfree_read fuel fd0 0;
  call (Close fd0);;
  call Wait;;
  Ret n.

(** ** The lists of tests *)

Section tests.
(** Bounds on the loops; the stack pointer; the array [uninit]; an array that is not
    initialised; the parameters of the allocator and its state; the addresses of the
    functions of the threads. *)
Context (fuel : nat) (sp : Z) (uninit : bytes) (junk : list Z).
Context (base : Z) (grants : Z -> Z -> bool) (rounds ring : nat) (h : mstate).
Context (stack_top : Z -> Z) (exit_addr a_addr b_addr start : Z).

Definition quicktests : list test := map (fun t => (t.1, chars t.2)) [
  (copyin, "copyin"); (copyout, "copyout"); (copyinstr1, "copyinstr1"); (copyinstr2, "copyinstr2");
  (copyinstr3 fuel, "copyinstr3"); (rwsbrk, "rwsbrk"); (truncate1, "truncate1"); (truncate2, "truncate2");
  (truncate3, "truncate3"); (openiputtest, "openiput"); (exitiputtest, "exitiput"); (iputtest, "iput");
  (opentest, "opentest"); (writetest, "writetest"); (writebig fuel, "writebig"); (createtest, "createtest");
  (dirtest, "dirtest"); (exectest, "exectest"); (pipe1 fuel, "pipe1"); (killstatus fuel, "killstatus");
  (preempt, "preempt"); (exitwait, "exitwait"); (reparent, "reparent"); (twochildren, "twochildren");
  (forkfork, "forkfork"); (forkforkfork fuel, "forkforkfork"); (reparent2, "reparent2");
  (mem base grants rounds ring fuel h, "mem"); (sharedfd fuel, "sharedfd"); (fourfiles fuel, "fourfiles");
  (createdelete, "createdelete"); (unlinkread, "unlinkread"); (linktest, "linktest"); (concreate fuel, "concreate");
  (linkunlink, "linkunlink"); (subdir, "subdir"); (bigwrite, "bigwrite"); (bigfile fuel, "bigfile");
  (fourteen, "fourteen"); (rmdot, "rmdot"); (dirfile, "dirfile"); (iref, "iref"); (forktest, "forktest");
  (sbrkbasic, "sbrkbasic"); (sbrkmuch, "sbrkmuch"); (kernmem, "kernmem"); (MAXVAplus, "MAXVAplus");
  (sbrkfail fuel, "sbrkfail"); (sbrkarg, "sbrkarg"); (validatetest, "validatetest"); (bsstest uninit, "bsstest");
  (bigargtest, "bigargtest"); (argptest, "argptest"); (stacktest sp, "stacktest"); (textwrite, "textwrite");
  (pgbug, "pgbug"); (sbrkbugs, "sbrkbugs"); (sbrklast, "sbrklast"); (sbrk8000, "sbrk8000"); (badarg, "badarg");
  (fun _ => ulttest stack_top exit_addr a_addr b_addr fuel, "ulttest");
  (fun _ => klttest base grants rounds ring start h, "klttest")].

Definition slowtests : list test := map (fun t => (t.1, chars t.2)) [
  (bigdir, "bigdir"); (manywrites, "manywrites"); (badwrite, "badwrite"); (execout fuel, "execout");
  (diskfull junk fuel, "diskfull"); (outofinodes, "outofinodes")].
End tests.

Section driver.
Context (quicktests slowtests : list test).

(** A round of [drivetests]: whether it ends with failure. *)
Definition drive_round (fuel : nat) (quick : bool) (continuous : Z) (justone : option (list Z)) : prog bool :=
  printf (line "usertests starting") [];;
  free0 ← countfree fuel;
  failed ← runtests quicktests justone;
  if failed && negb (continuous =? 2) then Ret true else
  failed ← (if negb quick then
              (if justone then Ret tt else printf (line "usertests slow tests starting") []);;
              runtests slowtests justone
            else Ret false);
  if failed && negb (continuous =? 2) then Ret true else
  free1 ← countfree fuel;
  if free1 <? free0 then
    printf (line "FAILED -- lost some free pages %d (out of %d)") [va_int free1; va_int free0];;
    Ret (negb (continuous =? 2))
  else Ret false.

Fixpoint drivetests (rounds fuel : nat) (quick : bool) (continuous : Z) (justone : option (list Z)) : prog bool :=
  match rounds with
  | O => Nofuel
  | S rounds =>
      failed ← drive_round fuel quick continuous justone;
      if failed : bool then Ret true
      else if ctrue continuous then drivetests rounds fuel quick continuous justone
      else Ret false
  end.

Definition usertests_main (rounds fuel : nat) (argv : list (list Z)) : prog unit :=
  let go quick continuous justone :=
    failed ← drivetests rounds fuel quick continuous justone;
    if failed : bool then exit 1 else
    printf (line "ALL TESTS PASSED") [];;
    exit 0 in
  match argv with
  | [] | [_] => go false 0 None
  | [_; a] =>
      if bool_decide (a = chars "-q") then go true 0 None
      else if bool_decide (a = chars "-c") then go false 1 None
      else if bool_decide (a = chars "-C") then go false 2 None
      else if negb (bool_decide (head a = Some 45)) then go false 0 (Some a)
      else fail "Usage: usertests [-c] [-C] [-q] [testname]" []
  | _ => fail "Usage: usertests [-c] [-C] [-q] [testname]" []
  end.
End driver.

(** ** user/stressfs.c *)

(** The loop of forks: the value of [i] after it. *)
Fixpoint stress_forks (n : nat) (i : Z) : prog Z :=
  match n with
  | O => Ret i
  | S n => pid ← call Fork; if 0 <? pid then Ret i else stress_forks n (i + 1)
  end.

Definition stressfs_main : prog unit :=
  printf (line "stressfs starting") [];;
  i ← stress_forks 4 0;
  printf (line "write %d") [va_int i];;
  let path := chars "stressfs" ++ [u8 (48 + i)] in
  fd ← call (Open path CREATE_RDWR);
  forP (seqZ 0 20) (fun _ => call (Write fd (replicate 512 97));; Ret tt);;
  call (Close fd);;
  printf (line "read") [];;
  fd ← call (Open path O_RDONLY);
  forP (seqZ 0 20) (fun _ => call (Read fd 512);; Ret tt);;
  call (Close fd);;
  call Wait;;
  exit 0.

(** ** When the driver reports success

    What the process of the driver has seen: the statuses of the tests, the numbers of
    pages that [countfree] counted, the characters it has read for the next one, and
    whether a call has failed; [avail] bounds the characters to come. *)
Record dworld := Dworld { got : list Z; counts : list Z; nread : Z; trouble : bool; avail : nat }.

Definition dsys (R : Type) (e : sys R) (w : dworld) : R -> dworld -> Prop :=
  let failed := Dworld w.(got) w.(counts) w.(nread) true w.(avail) in
  match e in sys R return R -> dworld -> Prop with
  | Exit _ => fun _ _ => False
  | Fork => fun pid w' => (0 < pid /\ w' = w) \/ (pid < 0 /\ w' = failed)
  | Pipe => fun r w' => (0 <= r.1 /\ w' = w) \/ (r.1 < 0 /\ w' = failed)
  | Wait_status => fun r w' => exists st, r.2 = Some st /\ w' = Dworld (w.(got) ++ [st]) w.(counts) w.(nread) w.(trouble) w.(avail)
  | Wait => fun _ w' => w' = Dworld w.(got) (w.(counts) ++ [w.(nread)]) 0 w.(trouble) w.(avail)
  | Read _ _ => fun r w' =>
      (r.1 < 0 /\ w' = failed) \/ (r.1 = 0 /\ w' = w) \/
      (0 < r.1 /\ exists n, w.(avail) = S n /\ w' = Dworld w.(got) w.(counts) (w.(nread) + 1) w.(trouble) n)
  | _ => fun _ w' => w' = w
  end.

(** The tests that the arguments ask for. *)
Definition chosen (quick slow : list test) (argv : list (list Z)) : list test :=
  match argv with
  | [_; a] => if bool_decide (a = chars "-q") then quick else filter (fun t => t.2 = a) (quick ++ slow)
  | _ => quick ++ slow
  end.

(** Every test has ended with status 0, and no page was lost. *)
Definition passed (tests : list test) (w : dworld) : Prop :=
  length w.(got) = length tests /\ Forall (fun st => st = 0) w.(got) /\
  exists free0 free1, w.(counts) = [free0; free1] /\ free0 <= free1.

Definition verdict (tests : list test) (R : Type) (e : sys R) (w : dworld) : Prop :=
  match e with
  | Exit n => (n = 0 /\ passed tests w) \/ (n = 1 /\ (w.(trouble) = true \/ ~ passed tests w))
  | _ => True
  end.

Section verdict.
Context (tests : list test).
Notation dholds := (holds (verdict tests) dsys).

Lemma d_pre : forall fd l w, verdict tests Z (Write fd l) w.
Proof. done. Qed.
Lemma d_write : forall fd l w r w', dsys Z (Write fd l) w r w' -> w' = w.
Proof. done. Qed.

Lemma d_printf (Q : unit -> dworld -> Prop) fmt ap l w : format (chars fmt) false ap = Some l -> Q tt w -> dholds Q (printf fmt ap) w.
Proof. apply holds_printf; [apply d_pre|apply d_write]. Qed.

Lemma d_fail {A} (Q : A -> dworld -> Prop) fmt l w : format (chars (line fmt)) false [] = Some l -> w.(trouble) = true -> dholds Q (fail fmt []) w.
Proof. intros E Ht. apply holds_bind. eapply d_printf; [exact E|]. apply holds_exit. right. by split; [|left]. Qed.

Lemma countfree_read_spec fuel fd n w : (w.(avail) < fuel)%nat -> w.(nread) = n ->
  dholds (fun n' w' => exists a, (a <= w.(avail))%nat /\ w' = Dworld w.(got) w.(counts) n' w.(trouble) a) (countfree_read fuel fd n) w.
Proof.
  revert n w. induction fuel as [|fuel IH]; intros n w Hf Hn; [lia|]. cbn [countfree_read]. apply holds_bind, holds_call; [done|].
  intros [cc data] w' [[H1 ->]|[[H1 ->]|(H1 & a & Ha & ->)]]; cbn [fst] in H1.
  - rewrite (proj2 (Z.ltb_lt _ _)) by lia. by eapply d_fail.
  - subst cc. change (0 <? 0) with false. change (0 =? 0) with true. cbv iota. apply holds_ret. exists w.(avail). split; [done|]. destruct w. cbn in *. by subst.
  - rewrite (proj2 (Z.ltb_ge _ _)), (proj2 (Z.eqb_neq _ _)) by lia. eapply holds_mono; [apply IH; cbn; lia|]. cbn. intros n' w' (a' & Ha' & ->). exists a'. split; [lia|done].
Qed.

Lemma countfree_spec fuel w : (w.(avail) < fuel)%nat -> w.(nread) = 0 ->
  dholds (fun n w' => exists a, (a <= w.(avail))%nat /\ w' = Dworld w.(got) (w.(counts) ++ [n]) 0 w.(trouble) a) (countfree fuel) w.
Proof.
  intros Hf Hn. unfold countfree. apply holds_bind, holds_call; [done|]. intros [r [fd0 fd1]] w' [[H1 ->]|[H1 ->]]; cbn [fst] in H1.
  2: { rewrite (proj2 (Z.ltb_lt _ _)) by lia. by eapply d_fail. }
  rewrite (proj2 (Z.ltb_ge _ _)) by lia. apply holds_bind, holds_call; [done|]. intros pid w' [[H2 ->]|[H2 ->]].
  2: { rewrite (proj2 (Z.ltb_lt _ _)) by lia. by eapply d_fail. }
  rewrite (proj2 (Z.ltb_ge _ _)), (proj2 (Z.eqb_neq _ _)) by lia. apply holds_bind, holds_call; [done|]. intros _ w' ->.
  apply holds_bind. eapply holds_mono; [by apply countfree_read_spec|]. intros n w' (a & Ha & ->). apply holds_bind, holds_call; [done|]. intros _ w' ->.
  apply holds_bind, holds_call; [done|]. intros _ w' ->. apply holds_ret. cbn. by exists a.
Qed.

Lemma run_spec f s w :
  dholds (fun ok w' => exists st, ok = (st =? 0) /\ w' = Dworld (w.(got) ++ [st]) w.(counts) w.(nread) w.(trouble) w.(avail)) (run f s) w.
Proof.
  unfold run. apply holds_bind. eapply d_printf; [reflexivity|]. apply holds_bind, holds_call; [done|]. intros pid w' [[H ->]|[H ->]].
  2: { rewrite (proj2 (Z.ltb_lt _ _)) by lia. by eapply d_fail. }
  rewrite (proj2 (Z.ltb_ge _ _)), (proj2 (Z.eqb_neq _ _)) by lia. apply holds_bind. unfold wait_status. apply holds_bind, holds_call; [done|].
  intros [r o] w' (st & E & ->). cbn [snd] in E. subst o. apply holds_ret. apply holds_bind.
  destruct (st =? 0) eqn:E; (eapply d_printf; [reflexivity|]); apply holds_ret; by exists st.
Qed.

Definition selected (l : list test) (justone : option (list Z)) : list test :=
  match justone with None => l | Some s => filter (fun t => t.2 = s) l end.

Lemma runtests_spec l justone w :
  dholds (fun (failed : bool) w' => exists sts, w' = Dworld (w.(got) ++ sts) w.(counts) w.(nread) w.(trouble) w.(avail) /\
    if failed then ~ Forall (fun st => st = 0) sts else length sts = length (selected l justone) /\ Forall (fun st => st = 0) sts) (runtests l justone) w.
Proof.
  assert (forall w, w = Dworld (w.(got) ++ []) w.(counts) w.(nread) w.(trouble) w.(avail)) as Hid by (intros []; cbn; by rewrite app_nil_r).
  revert w. induction l as [|t l IH]; intros w; cbn [runtests].
  { apply holds_ret. exists []. split; [apply Hid|]. by destruct justone. }
  destruct (match justone with None => true | Some s => bool_decide (t.2 = s) end) eqn:Es.
  - assert (length (selected (t :: l) justone) = S (length (selected l justone))) as El.
    { destruct justone as [s|]; [|done]. apply bool_decide_eq_true in Es. unfold selected. by rewrite filter_cons, decide_True. }
    apply holds_bind. eapply holds_mono; [apply run_spec|]. intros ok w' (st & -> & ->). destruct (Z.eqb_spec st 0) as [->|Hn]; cbn [negb].
    + eapply holds_mono; [apply IH|]. cbn. intros failed w' (sts & -> & H). exists (0 :: sts). rewrite <- app_assoc. split; [done|].
      destruct failed; [by intros [_ ?]%Forall_cons|]. rewrite El. cbn. destruct H as [-> H]. by split; [|constructor].
    + apply holds_bind. eapply d_printf; [reflexivity|]. apply holds_ret. exists [st]. split; [done|]. by intros [? _]%Forall_cons.
  - eapply holds_mono; [apply IH|]. intros failed w' (sts & -> & H). exists sts. split; [done|]. destruct justone as [s|]; [|done].
    apply bool_decide_eq_false in Es. unfold selected in *. by rewrite filter_cons, decide_False.
Qed.

Lemma drive_round_spec quick slow fuel (q : bool) justone w : (w.(avail) < fuel)%nat -> w = Dworld [] [] 0 false w.(avail) ->
  tests = selected (if q then quick else quick ++ slow) justone ->
  dholds (fun (failed : bool) w' => w'.(trouble) = false /\ if failed then ~ passed tests w' else passed tests w') (drive_round quick slow fuel q 0 justone) w.
Proof.
  intros Hf -> Et. cbn [avail] in Hf. unfold drive_round. apply holds_bind. eapply d_printf; [reflexivity|].
  apply holds_bind. eapply holds_mono; [by apply countfree_spec|]. intros f0 w' (a & Ha & ->). cbn [got counts trouble avail] in *.
  apply holds_bind. eapply holds_mono; [apply runtests_spec|]. intros failed w' (sts & -> & H). cbn [got counts trouble avail nread app] in *.
  destruct failed; cbn [andb].
  { apply holds_ret. split; [done|]. intros (_ & Hz & _). by apply H. }
  destruct H as [Hl Hz]. apply holds_bind.
  assert (length (selected (if q then quick else quick ++ slow) justone) = (length (selected quick justone) + if q then 0 else length (selected slow justone))%nat) as Hlen.
  { destruct q; [lia|]. destruct justone; unfold selected; by rewrite ?filter_app, length_app. }
  assert (dholds (fun (failed : bool) w' => exists sts', w' = Dworld (sts ++ sts') [f0] 0 false a /\
    if failed then ~ Forall (fun st => st = 0) sts' else length sts' = (if q then 0 else length (selected slow justone))%nat /\ Forall (fun st => st = 0) sts')
    (if negb q then (if justone then Ret tt else printf (line "usertests slow tests starting") []);; runtests slow justone else Ret false) (Dworld sts [f0] 0 false a)) as Hs.
  { destruct q; cbn [negb].
    - apply holds_ret. exists []. by rewrite app_nil_r.
    - apply holds_bind. assert (dholds (fun _ w' => w' = Dworld sts [f0] 0 false a) (if justone then Ret tt else printf (line "usertests slow tests starting") []) (Dworld sts [f0] 0 false a)) as Hp.
      { destruct justone; [by apply holds_ret|]. by eapply d_printf. }
      eapply holds_mono; [exact Hp|]. intros [] w' ->. eapply holds_mono; [apply runtests_spec|]. by intros failed w'. }
  eapply holds_mono; [exact Hs|]. intros failed w' (sts' & -> & H). destruct failed; cbn [andb].
  { apply holds_ret. split; [done|]. intros (_ & Hz' & _). apply Forall_app in Hz' as [_ ?]. by apply H. }
  destruct H as [Hl' Hz']. apply holds_bind. eapply holds_mono; [apply countfree_spec; [cbn; lia|done]|]. intros f1 w' (a' & Ha' & ->). cbn [got counts trouble avail app] in *.
  destruct (Z.ltb_spec f1 f0).
  - apply holds_bind. eapply d_printf; [reflexivity|]. apply holds_ret. split; [done|]. intros (_ & _ & g0 & g1 & [= <- <-] & Hle). lia.
  - apply holds_ret. split; [done|]. split; [|split].
    + cbn [got]. rewrite length_app, Hl, Hl', Et, Hlen. lia.
    + by apply Forall_app.
    + by exists f0, f1.
Qed.
End verdict.

(** C40: Without options, with [-q] or with the name of a test, [usertests] exits with status
    0 exactly when every test that it was asked to run has ended with status 0 and
    [countfree] has counted at the end at least as many pages as at the beginning; it
    exits with 1 otherwise, or when a call of its own has failed, and it does not return.
    With the name of a test that does not exist it therefore reports success. *)
Theorem usertests_verdict quick slow fuel argv n (tests := chosen quick slow argv) : (n < fuel)%nat ->
  match argv with [] | [_] => True | [_; a] => a = chars "-q" \/ head a <> Some 45 | _ => False end ->
  holds (verdict tests) dsys (fun _ _ => False) (usertests_main quick slow 1 fuel argv) (Dworld [] [] 0 false n).
Proof.
  intros Hf Ha.
  assert (forall (q : bool) justone, tests = selected (if q then quick else quick ++ slow) justone ->
    holds (verdict tests) dsys (fun (_ : unit) _ => False) (failed ← drivetests quick slow 1 fuel q 0 justone; if failed : bool then exit 1 else printf (line "ALL TESTS PASSED") [];; exit 0)
      (Dworld [] [] 0 false n)) as Hgo.
  { intros q justone Et. apply holds_bind. cbn [drivetests]. apply holds_bind. eapply holds_mono; [by apply drive_round_spec|]. intros failed w [Ht Hp].
    destruct failed; change (ctrue 0) with false; cbv iota; apply holds_ret.
    - apply holds_exit. right. split; [done|by right].
    - apply holds_bind. eapply d_printf; [reflexivity|]. apply holds_exit. by left. }
  destruct argv as [|p [|a [|]]]; [apply (Hgo false None); reflexivity|apply (Hgo false None); reflexivity| |contradiction].
  unfold tests, chosen in *. cbn [usertests_main]. destruct (bool_decide_reflect (a = chars "-q")) as [E|N].
  - apply (Hgo true None). reflexivity.
  - destruct Ha as [?|Hh]; [contradiction|].
    rewrite (bool_decide_eq_false_2 (head a = Some 45)) by exact Hh. rewrite !bool_decide_eq_false_2 by (intros E; subst a; apply Hh; reflexivity). cbn [negb]. apply (Hgo false (Some a)). reflexivity.
Qed.

Lemma usertests_verdict_witness :
  holds (verdict [(opentest, chars "opentest")]) dsys (fun _ _ => False)
    (usertests_main [(opentest, chars "opentest"); (dirtest, chars "dirtest")] [(bigdir, chars "bigdir")] 1 10 [chars "usertests"; chars "opentest"])
    (Dworld [] [] 0 false 5).
Proof.
  apply (usertests_verdict [(opentest, chars "opentest"); (dirtest, chars "dirtest")] [(bigdir, chars "bigdir")] 10 [chars "usertests"; chars "opentest"] 5).
  - lia.
  - right. discriminate.
Defined.
