(* ===== verification/State.v ===== *)
(** * The state of the kernel and the monad its functions run in

    The structs of the kernel headers as records, the global variables as one
    record [kstate], and the monad [M] in which every kernel function is
    written.  Pointers to objects of a static table are the index of the object
    ([struct proc *] is a [nat], [struct kthread *] a pair), pointers into
    allocated memory are addresses.  A null pointer is [None] (or 0 for an
    address). *)
From S2P Require Export Bytes.

(** ** Parameters of kernel/param.h, kernel/memlayout.h and kernel/riscv.h *)

Definition NPROC : nat := 64.
Definition NKT : nat := 10.
Definition NCPU : nat := 8.
Definition NOFILE : nat := 16.
Definition NFILE : nat := 100.
Definition NINODE : nat := 50.
Definition NDEV : Z := 10.
Definition ROOTDEV : Z := 1.
Definition MAXARG : nat := 32.
Definition MAXOPBLOCKS : Z := 10.
Definition LOGSIZE : Z := MAXOPBLOCKS * 3.
Definition NBUF : nat := 30.
Definition FSSIZE : Z := 2000.
Definition MAXPATH : Z := 128.

Definition PGSIZE : Z := 4096.
Definition PGSHIFT : Z := 12.
Definition PGROUNDUP (sz : Z) : Z := Z.land (u64 (sz + PGSIZE - 1)) (Z.lnot (PGSIZE - 1)).
Definition PGROUNDDOWN (a : Z) : Z := Z.land a (Z.lnot (PGSIZE - 1)).
Definition PTE_V : Z := 1.
Definition PTE_R : Z := 2.
Definition PTE_W : Z := 4.
Definition PTE_X : Z := 8.
Definition PTE_U : Z := 16.
Definition PA2PTE (pa : Z) : Z := u64 (Z.shiftl (Z.shiftr pa 12) 10).
Definition PTE2PA (pte : Z) : Z := u64 (Z.shiftl (Z.shiftr pte 10) 12).
Definition PTE_FLAGS (pte : Z) : Z := Z.land pte 0x3FF.
Definition PXMASK : Z := 0x1FF.
Definition PXSHIFT (level : Z) : Z := PGSHIFT + 9 * level.
Definition PX (level va : Z) : Z := Z.land (Z.shiftr va (PXSHIFT level)) PXMASK.
Definition MAXVA : Z := 2 ^ 38.
Definition SSTATUS_SIE : Z := 2 ^ 1.

Definition UART0 : Z := 0x10000000.
Definition UART0_IRQ : Z := 10.
Definition VIRTIO0 : Z := 0x10001000.
Definition VIRTIO0_IRQ : Z := 1.
Definition PLIC : Z := 0x0c000000.
Definition KERNBASE : Z := 0x80000000.
Definition PHYSTOP : Z := KERNBASE + 128 * 1024 * 1024.
Definition TRAMPOLINE : Z := MAXVA - PGSIZE.
Definition KSTACK (p : Z) : Z := TRAMPOLINE - (p + 1) * 2 * PGSIZE.
(** [sizeof(struct trapframe)]: 36 registers of 8 bytes. *)
Definition sizeof_trapframe : Z := 36 * 8.
Definition TRAPFRAME (kt_idx : Z) : Z := TRAMPOLINE - PGSIZE + kt_idx * sizeof_trapframe.

(** Addresses fixed by the linker script: parameters of the model. *)
Class KernelImage := {
  k_end : Z;          (* [end]: first address after the kernel *)
  k_etext : Z;        (* [etext]: end of the kernel code *)
  k_trampoline : Z;   (* [trampoline] of trampoline.S *)
  k_uservec : Z;
  k_userret : Z;
  k_kernelvec : Z;
  k_forkret : Z;
  k_usertrap : Z;
}.

(** What kernel.ld guarantees about them. *)
Class KernelImageOk `{KernelImage} := {
  k_end_bound : KERNBASE <= k_end < PHYSTOP;
  k_etext_bound : KERNBASE <= k_etext <= k_end;
  k_trampoline_page : k_trampoline mod PGSIZE = 0 /\ 0 < k_trampoline < PHYSTOP;
}.

(** ** Enumerations and pointers *)

Inductive procstate := UNUSED | USED | ZOMBIE.
Inductive threadstate :=
  UNUSED_t | USED_t | SLEEPING_t | RUNNABLE_t | RUNNING_t | ZOMBIE_t.
Inductive ftype := FD_NONE | FD_PIPE | FD_INODE | FD_DEVICE.

#[export] Instance procstate_eq_dec : EqDecision procstate.
Proof. solve_decision. Defined.
#[export] Instance threadstate_eq_dec : EqDecision threadstate.
Proof. solve_decision. Defined.
#[export] Instance ftype_eq_dec : EqDecision ftype.
Proof. solve_decision. Defined.

(** [struct kthread *]: thread [k] of process [p]. *)
Abbreviation kptr := (nat * nat)%type.

(** [struct sleeplock *]: the lock of a buffer or of an inode. *)
Inductive slptr := buf_slock (b : nat) | inode_slock (i : nat).

(** [struct spinlock *]: every spinlock of the kernel by the object it is in. *)
Inductive lockptr :=
| pid_lock | wait_lock | p_lock (p : nat) | alloc_lock (p : nat) | t_lock (kt : kptr)
| kmem_lock | tickslock | ftable_lock | itable_lock | bcache_lock | log_lock
| cons_lock | uart_tx_lock | vdisk_lock | pr_lock | pipe_lock (pi : Z)
| sl_lk (l : slptr).

(** The channels ([void *]) that the kernel sleeps on. *)
Inductive chan :=
| chan_proc (p : nat) | chan_kthread (kt : kptr) | chan_ticks | chan_log
| chan_nread (pi : Z) | chan_nwrite (pi : Z) | chan_cons_r | chan_uart_tx_r
| chan_sleeplock (l : slptr) | chan_disk_free | chan_buf (b : nat).

(** Addresses that the virtio driver hands to the device. *)
Inductive daddr := DNull | DOp (i : Z) | DData (b : nat) | DStatus (i : Z).

(** Entries of [devsw]: the console is the only driver. *)
Inductive devsw_entry := dev_none | dev_console.

#[export] Instance slptr_eq_dec : EqDecision slptr.
Proof. solve_decision. Defined.
#[export] Instance lockptr_eq_dec : EqDecision lockptr.
Proof. solve_decision. Defined.
#[export] Instance chan_eq_dec : EqDecision chan.
Proof. solve_decision. Defined.
#[export] Instance daddr_eq_dec : EqDecision daddr.
Proof. solve_decision. Defined.

(** ** Structs *)

(** [struct context] of kthread.h. *)
Record context := Context_ {
  c_ra : Z;
  c_sp : Z;
  c_s0 : Z;
  c_s1 : Z;
  c_s2 : Z;
  c_s3 : Z;
  c_s4 : Z;
  c_s5 : Z;
  c_s6 : Z;
  c_s7 : Z;
  c_s8 : Z;
  c_s9 : Z;
  c_s10 : Z;
  c_s11 : Z
}.
Definition eta_context (r : context) : context :=
  Context_ r.(c_ra) r.(c_sp) r.(c_s0) r.(c_s1) r.(c_s2) r.(c_s3) r.(c_s4) r.(c_s5)
    r.(c_s6) r.(c_s7) r.(c_s8) r.(c_s9) r.(c_s10) r.(c_s11).
#[export] Instance set_c_ra : Setter c_ra := ltac:(setter eta_context c_ra).
#[export] Instance set_c_sp : Setter c_sp := ltac:(setter eta_context c_sp).
#[export] Instance set_c_s0 : Setter c_s0 := ltac:(setter eta_context c_s0).
#[export] Instance set_c_s1 : Setter c_s1 := ltac:(setter eta_context c_s1).
#[export] Instance set_c_s2 : Setter c_s2 := ltac:(setter eta_context c_s2).
#[export] Instance set_c_s3 : Setter c_s3 := ltac:(setter eta_context c_s3).
#[export] Instance set_c_s4 : Setter c_s4 := ltac:(setter eta_context c_s4).
#[export] Instance set_c_s5 : Setter c_s5 := ltac:(setter eta_context c_s5).
#[export] Instance set_c_s6 : Setter c_s6 := ltac:(setter eta_context c_s6).
#[export] Instance set_c_s7 : Setter c_s7 := ltac:(setter eta_context c_s7).
#[export] Instance set_c_s8 : Setter c_s8 := ltac:(setter eta_context c_s8).
#[export] Instance set_c_s9 : Setter c_s9 := ltac:(setter eta_context c_s9).
#[export] Instance set_c_s10 : Setter c_s10 := ltac:(setter eta_context c_s10).
#[export] Instance set_c_s11 : Setter c_s11 := ltac:(setter eta_context c_s11).

(** [struct spinlock] of spinlock.h. *)
Record spinlock := Spinlock {
  lk_locked : Z;  (* is the lock held? *)
  lk_name : string;
  lk_cpu : option nat  (* the cpu holding the lock *)
}.
Definition eta_spinlock (r : spinlock) : spinlock :=
  Spinlock r.(lk_locked) r.(lk_name) r.(lk_cpu).
#[export] Instance set_lk_locked : Setter lk_locked := ltac:(setter eta_spinlock
    lk_locked).
#[export] Instance set_lk_name : Setter lk_name := ltac:(setter eta_spinlock lk_name).
#[export] Instance set_lk_cpu : Setter lk_cpu := ltac:(setter eta_spinlock lk_cpu).

(** [struct cpu] of kthread.h. *)
Record cpu := Cpu {
  c_kthread : option kptr;  (* the thread running on this cpu, or null *)
  c_context : context;  (* swtch() here to enter scheduler() *)
  c_noff : Z;  (* depth of push_off() nesting *)
  c_intena : Z  (* were interrupts enabled before push_off()? *)
}.
Definition eta_cpu (r : cpu) : cpu :=
  Cpu r.(c_kthread) r.(c_context) r.(c_noff) r.(c_intena).
#[export] Instance set_c_kthread : Setter c_kthread := ltac:(setter eta_cpu c_kthread).
#[export] Instance set_c_context : Setter c_context := ltac:(setter eta_cpu c_context).
#[export] Instance set_c_noff : Setter c_noff := ltac:(setter eta_cpu c_noff).
#[export] Instance set_c_intena : Setter c_intena := ltac:(setter eta_cpu c_intena).

(** [struct kthread] of kthread.h; its [t_lock] is the lock [t_lock kt]. *)
Record kthread := Kthread {
  kt_state : threadstate;
  kt_chan : option chan;  (* if non-zero, sleeping on chan *)
  kt_killed : Z;
  kt_xstate : Z;
  kt_tid : Z;
  kt_process : option nat;
  kt_context : context;
  kt_kstack : Z;  (* virtual address of kernel stack *)
  kt_trapframe : Z  (* address of its trapframe, 0 if none *)
}.
Definition eta_kthread (r : kthread) : kthread :=
  Kthread r.(kt_state) r.(kt_chan) r.(kt_killed) r.(kt_xstate) r.(kt_tid)
    r.(kt_process) r.(kt_context) r.(kt_kstack) r.(kt_trapframe).
#[export] Instance set_kt_state : Setter kt_state := ltac:(setter eta_kthread kt_state).
#[export] Instance set_kt_chan : Setter kt_chan := ltac:(setter eta_kthread kt_chan).
#[export] Instance set_kt_killed : Setter kt_killed := ltac:(setter eta_kthread
    kt_killed).
#[export] Instance set_kt_xstate : Setter kt_xstate := ltac:(setter eta_kthread
    kt_xstate).
#[export] Instance set_kt_tid : Setter kt_tid := ltac:(setter eta_kthread kt_tid).
#[export] Instance set_kt_process : Setter kt_process := ltac:(setter eta_kthread
    kt_process).
#[export] Instance set_kt_context : Setter kt_context := ltac:(setter eta_kthread
    kt_context).
#[export] Instance set_kt_kstack : Setter kt_kstack := ltac:(setter eta_kthread
    kt_kstack).
#[export] Instance set_kt_trapframe : Setter kt_trapframe := ltac:(setter eta_kthread
    kt_trapframe).

(** [struct proc] of proc.h; its locks are [p_lock p] and [alloc_lock p]. *)
Record proc := Proc {
  p_state : procstate;
  p_killed : Z;
  p_xstate : Z;
  p_pid : Z;
  p_kthread : nat -> kthread;  (* kthread[NKT] *)
  p_base_trapframes : Z;
  p_parent : option nat;
  p_sz : Z;
  p_pagetable : Z;
  p_ofile : nat -> option nat;  (* ofile[NOFILE] *)
  p_cwd : option nat;
  p_name : bytes;  (* name[16] *)
  p_counter : Z  (* next thread id *)
}.
Definition eta_proc (r : proc) : proc :=
  Proc r.(p_state) r.(p_killed) r.(p_xstate) r.(p_pid) r.(p_kthread)
    r.(p_base_trapframes) r.(p_parent) r.(p_sz) r.(p_pagetable) r.(p_ofile) r.(p_cwd)
    r.(p_name) r.(p_counter).
#[export] Instance set_p_state : Setter p_state := ltac:(setter eta_proc p_state).
#[export] Instance set_p_killed : Setter p_killed := ltac:(setter eta_proc p_killed).
#[export] Instance set_p_xstate : Setter p_xstate := ltac:(setter eta_proc p_xstate).
#[export] Instance set_p_pid : Setter p_pid := ltac:(setter eta_proc p_pid).
#[export] Instance set_p_kthread : Setter p_kthread := ltac:(setter eta_proc p_kthread).
#[export] Instance set_p_base_trapframes : Setter p_base_trapframes := ltac:(setter
    eta_proc p_base_trapframes).
#[export] Instance set_p_parent : Setter p_parent := ltac:(setter eta_proc p_parent).
#[export] Instance set_p_sz : Setter p_sz := ltac:(setter eta_proc p_sz).
#[export] Instance set_p_pagetable : Setter p_pagetable := ltac:(setter eta_proc
    p_pagetable).
#[export] Instance set_p_ofile : Setter p_ofile := ltac:(setter eta_proc p_ofile).
#[export] Instance set_p_cwd : Setter p_cwd := ltac:(setter eta_proc p_cwd).
#[export] Instance set_p_name : Setter p_name := ltac:(setter eta_proc p_name).
#[export] Instance set_p_counter : Setter p_counter := ltac:(setter eta_proc p_counter).

(** [struct file] of file.h. *)
Record file := File {
  f_type : ftype;
  f_ref : Z;
  f_readable : Z;
  f_writable : Z;
  f_pipe : Z;
  f_ip : option nat;
  f_off : Z;
  f_major : Z
}.
Definition eta_file (r : file) : file :=
  File r.(f_type) r.(f_ref) r.(f_readable) r.(f_writable) r.(f_pipe) r.(f_ip) r.(f_off)
    r.(f_major).
#[export] Instance set_f_type : Setter f_type := ltac:(setter eta_file f_type).
#[export] Instance set_f_ref : Setter f_ref := ltac:(setter eta_file f_ref).
#[export] Instance set_f_readable : Setter f_readable := ltac:(setter eta_file
    f_readable).
#[export] Instance set_f_writable : Setter f_writable := ltac:(setter eta_file
    f_writable).
#[export] Instance set_f_pipe : Setter f_pipe := ltac:(setter eta_file f_pipe).
#[export] Instance set_f_ip : Setter f_ip := ltac:(setter eta_file f_ip).
#[export] Instance set_f_off : Setter f_off := ltac:(setter eta_file f_off).
#[export] Instance set_f_major : Setter f_major := ltac:(setter eta_file f_major).

(** [struct pipe] of pipe.c, at its page address; its lock is [pipe_lock]. *)
Record pipe := Pipe {
  pi_data : bytes;  (* data[PIPESIZE] *)
  pi_nread : Z;  (* number of bytes read *)
  pi_nwrite : Z;  (* number of bytes written *)
  pi_readopen : Z;
  pi_writeopen : Z
}.
Definition eta_pipe (r : pipe) : pipe :=
  Pipe r.(pi_data) r.(pi_nread) r.(pi_nwrite) r.(pi_readopen) r.(pi_writeopen).
#[export] Instance set_pi_data : Setter pi_data := ltac:(setter eta_pipe pi_data).
#[export] Instance set_pi_nread : Setter pi_nread := ltac:(setter eta_pipe pi_nread).
#[export] Instance set_pi_nwrite : Setter pi_nwrite := ltac:(setter eta_pipe pi_nwrite).
#[export] Instance set_pi_readopen : Setter pi_readopen := ltac:(setter eta_pipe
    pi_readopen).
#[export] Instance set_pi_writeopen : Setter pi_writeopen := ltac:(setter eta_pipe
    pi_writeopen).

(** [struct sleeplock] of sleeplock.h; its spinlock is [sl_lk l]. *)
Record sleeplock := Sleeplock {
  sl_locked : Z;
  sl_name : string;
  sl_pid : Z
}.
Definition eta_sleeplock (r : sleeplock) : sleeplock :=
  Sleeplock r.(sl_locked) r.(sl_name) r.(sl_pid).
#[export] Instance set_sl_locked : Setter sl_locked := ltac:(setter eta_sleeplock
    sl_locked).
#[export] Instance set_sl_name : Setter sl_name := ltac:(setter eta_sleeplock sl_name).
#[export] Instance set_sl_pid : Setter sl_pid := ltac:(setter eta_sleeplock sl_pid).

(** [struct buf] of buf.h; index [NBUF] is [bcache.head]. *)
Record buf := Buf {
  b_valid : Z;
  b_disk : Z;
  b_dev : Z;
  b_blockno : Z;
  b_lock : sleeplock;
  b_refcnt : Z;
  b_prev : nat;
  b_next : nat;
  b_data : bytes  (* data[BSIZE] *)
}.
Definition eta_buf (r : buf) : buf :=
  Buf r.(b_valid) r.(b_disk) r.(b_dev) r.(b_blockno) r.(b_lock) r.(b_refcnt) r.(b_prev)
    r.(b_next) r.(b_data).
#[export] Instance set_b_valid : Setter b_valid := ltac:(setter eta_buf b_valid).
#[export] Instance set_b_disk : Setter b_disk := ltac:(setter eta_buf b_disk).
#[export] Instance set_b_dev : Setter b_dev := ltac:(setter eta_buf b_dev).
#[export] Instance set_b_blockno : Setter b_blockno := ltac:(setter eta_buf b_blockno).
#[export] Instance set_b_lock : Setter b_lock := ltac:(setter eta_buf b_lock).
#[export] Instance set_b_refcnt : Setter b_refcnt := ltac:(setter eta_buf b_refcnt).
#[export] Instance set_b_prev : Setter b_prev := ltac:(setter eta_buf b_prev).
#[export] Instance set_b_next : Setter b_next := ltac:(setter eta_buf b_next).
#[export] Instance set_b_data : Setter b_data := ltac:(setter eta_buf b_data).

(** [struct log] of log.c with its [struct logheader] inlined. *)
Record log := Log {
  lg_start : Z;
  lg_size : Z;
  lg_outstanding : Z;
  lg_committing : Z;
  lg_dev : Z;
  lh_n : Z;  (* lh.n *)
  lh_block : Z -> Z  (* lh.block[LOGSIZE] *)
}.
Definition eta_log (r : log) : log :=
  Log r.(lg_start) r.(lg_size) r.(lg_outstanding) r.(lg_committing) r.(lg_dev) r.(lh_n)
    r.(lh_block).
#[export] Instance set_lg_start : Setter lg_start := ltac:(setter eta_log lg_start).
#[export] Instance set_lg_size : Setter lg_size := ltac:(setter eta_log lg_size).
#[export] Instance set_lg_outstanding : Setter lg_outstanding := ltac:(setter eta_log
    lg_outstanding).
#[export] Instance set_lg_committing : Setter lg_committing := ltac:(setter eta_log
    lg_committing).
#[export] Instance set_lg_dev : Setter lg_dev := ltac:(setter eta_log lg_dev).
#[export] Instance set_lh_n : Setter lh_n := ltac:(setter eta_log lh_n).
#[export] Instance set_lh_block : Setter lh_block := ltac:(setter eta_log lh_block).

(** [struct superblock] of fs.h. *)
Record superblock := Superblock {
  sb_magic : Z;
  sb_size : Z;
  sb_nblocks : Z;
  sb_ninodes : Z;
  sb_nlog : Z;
  sb_logstart : Z;
  sb_inodestart : Z;
  sb_bmapstart : Z
}.
Definition eta_superblock (r : superblock) : superblock :=
  Superblock r.(sb_magic) r.(sb_size) r.(sb_nblocks) r.(sb_ninodes) r.(sb_nlog)
    r.(sb_logstart) r.(sb_inodestart) r.(sb_bmapstart).
#[export] Instance set_sb_magic : Setter sb_magic := ltac:(setter eta_superblock
    sb_magic).
#[export] Instance set_sb_size : Setter sb_size := ltac:(setter eta_superblock sb_size).
#[export] Instance set_sb_nblocks : Setter sb_nblocks := ltac:(setter eta_superblock
    sb_nblocks).
#[export] Instance set_sb_ninodes : Setter sb_ninodes := ltac:(setter eta_superblock
    sb_ninodes).
#[export] Instance set_sb_nlog : Setter sb_nlog := ltac:(setter eta_superblock sb_nlog).
#[export] Instance set_sb_logstart : Setter sb_logstart := ltac:(setter eta_superblock
    sb_logstart).
#[export] Instance set_sb_inodestart : Setter sb_inodestart := ltac:(setter
    eta_superblock sb_inodestart).
#[export] Instance set_sb_bmapstart : Setter sb_bmapstart := ltac:(setter
    eta_superblock sb_bmapstart).

(** [struct inode] of file.h. *)
Record inode := Inode {
  i_dev : Z;
  i_inum : Z;
  i_ref : Z;
  i_lock : sleeplock;
  i_valid : Z;
  i_type : Z;
  i_major : Z;
  i_minor : Z;
  i_nlink : Z;
  i_size : Z;
  i_addrs : Z -> Z  (* addrs[NDIRECT+1] *)
}.
Definition eta_inode (r : inode) : inode :=
  Inode r.(i_dev) r.(i_inum) r.(i_ref) r.(i_lock) r.(i_valid) r.(i_type) r.(i_major)
    r.(i_minor) r.(i_nlink) r.(i_size) r.(i_addrs).
#[export] Instance set_i_dev : Setter i_dev := ltac:(setter eta_inode i_dev).
#[export] Instance set_i_inum : Setter i_inum := ltac:(setter eta_inode i_inum).
#[export] Instance set_i_ref : Setter i_ref := ltac:(setter eta_inode i_ref).
#[export] Instance set_i_lock : Setter i_lock := ltac:(setter eta_inode i_lock).
#[export] Instance set_i_valid : Setter i_valid := ltac:(setter eta_inode i_valid).
#[export] Instance set_i_type : Setter i_type := ltac:(setter eta_inode i_type).
#[export] Instance set_i_major : Setter i_major := ltac:(setter eta_inode i_major).
#[export] Instance set_i_minor : Setter i_minor := ltac:(setter eta_inode i_minor).
#[export] Instance set_i_nlink : Setter i_nlink := ltac:(setter eta_inode i_nlink).
#[export] Instance set_i_size : Setter i_size := ltac:(setter eta_inode i_size).
#[export] Instance set_i_addrs : Setter i_addrs := ltac:(setter eta_inode i_addrs).

(** The [cons] struct of console.c. *)
Record console := Console {
  cons_buf : bytes;
  cons_r : Z;
  cons_w : Z;
  cons_e : Z
}.
Definition eta_console (r : console) : console :=
  Console r.(cons_buf) r.(cons_r) r.(cons_w) r.(cons_e).
#[export] Instance set_cons_buf : Setter cons_buf := ltac:(setter eta_console cons_buf).
#[export] Instance set_cons_r : Setter cons_r := ltac:(setter eta_console cons_r).
#[export] Instance set_cons_w : Setter cons_w := ltac:(setter eta_console cons_w).
#[export] Instance set_cons_e : Setter cons_e := ltac:(setter eta_console cons_e).

(** The transmit buffer of uart.c. *)
Record uart_tx := UartTx {
  tx_buf : bytes;
  tx_w : Z;
  tx_r : Z
}.
Definition eta_uart_tx (r : uart_tx) : uart_tx :=
  UartTx r.(tx_buf) r.(tx_w) r.(tx_r).
#[export] Instance set_tx_buf : Setter tx_buf := ltac:(setter eta_uart_tx tx_buf).
#[export] Instance set_tx_w : Setter tx_w := ltac:(setter eta_uart_tx tx_w).
#[export] Instance set_tx_r : Setter tx_r := ltac:(setter eta_uart_tx tx_r).

(** [struct virtq_desc] of virtio.h. *)
Record virtq_desc := VirtqDesc {
  d_addr : daddr;
  d_len : Z;
  d_flags : Z;
  d_next : Z
}.
Definition eta_virtq_desc (r : virtq_desc) : virtq_desc :=
  VirtqDesc r.(d_addr) r.(d_len) r.(d_flags) r.(d_next).
#[export] Instance set_d_addr : Setter d_addr := ltac:(setter eta_virtq_desc d_addr).
#[export] Instance set_d_len : Setter d_len := ltac:(setter eta_virtq_desc d_len).
#[export] Instance set_d_flags : Setter d_flags := ltac:(setter eta_virtq_desc d_flags).
#[export] Instance set_d_next : Setter d_next := ltac:(setter eta_virtq_desc d_next).

(** [struct virtio_blk_req] of virtio.h. *)
Record virtio_blk_req := VirtioBlkReq {
  rq_type : Z;
  rq_reserved : Z;
  rq_sector : Z
}.
Definition eta_virtio_blk_req (r : virtio_blk_req) : virtio_blk_req :=
  VirtioBlkReq r.(rq_type) r.(rq_reserved) r.(rq_sector).
#[export] Instance set_rq_type : Setter rq_type := ltac:(setter eta_virtio_blk_req
    rq_type).
#[export] Instance set_rq_reserved : Setter rq_reserved := ltac:(setter
    eta_virtio_blk_req rq_reserved).
#[export] Instance set_rq_sector : Setter rq_sector := ltac:(setter eta_virtio_blk_req
    rq_sector).

(** [struct disk] of virtio_disk.c with its three queues. *)
Record vdisk := Vdisk {
  vd_desc : Z -> virtq_desc;
  vd_avail_idx : Z;
  vd_avail_ring : Z -> Z;
  vd_used_dev_idx : Z;  (* used->idx, written by the device *)
  vd_used_ring : Z -> Z;  (* used->ring[].id *)
  vd_free : Z -> Z;
  vd_used_idx : Z;
  vd_info_b : Z -> option nat;
  vd_info_status : Z -> Z;
  vd_ops : Z -> virtio_blk_req
}.
Definition eta_vdisk (r : vdisk) : vdisk :=
  Vdisk r.(vd_desc) r.(vd_avail_idx) r.(vd_avail_ring) r.(vd_used_dev_idx)
    r.(vd_used_ring) r.(vd_free) r.(vd_used_idx) r.(vd_info_b) r.(vd_info_status)
    r.(vd_ops).
#[export] Instance set_vd_desc : Setter vd_desc := ltac:(setter eta_vdisk vd_desc).
#[export] Instance set_vd_avail_idx : Setter vd_avail_idx := ltac:(setter eta_vdisk
    vd_avail_idx).
#[export] Instance set_vd_avail_ring : Setter vd_avail_ring := ltac:(setter eta_vdisk
    vd_avail_ring).
#[export] Instance set_vd_used_dev_idx : Setter vd_used_dev_idx := ltac:(setter
    eta_vdisk vd_used_dev_idx).
#[export] Instance set_vd_used_ring : Setter vd_used_ring := ltac:(setter eta_vdisk
    vd_used_ring).
#[export] Instance set_vd_free : Setter vd_free := ltac:(setter eta_vdisk vd_free).
#[export] Instance set_vd_used_idx : Setter vd_used_idx := ltac:(setter eta_vdisk
    vd_used_idx).
#[export] Instance set_vd_info_b : Setter vd_info_b := ltac:(setter eta_vdisk
    vd_info_b).
#[export] Instance set_vd_info_status : Setter vd_info_status := ltac:(setter eta_vdisk
    vd_info_status).
#[export] Instance set_vd_ops : Setter vd_ops := ltac:(setter eta_vdisk vd_ops).

(** The supervisor registers of a hart that trap.c uses, [sstatus] apart. *)
Record csr := Csr {
  r_sepc : Z;
  r_scause : Z;
  r_stval : Z;
  r_satp : Z;
  r_stvec : Z;
  r_sip : Z
}.
Definition eta_csr (r : csr) : csr :=
  Csr r.(r_sepc) r.(r_scause) r.(r_stval) r.(r_satp) r.(r_stvec) r.(r_sip).
#[export] Instance set_r_sepc : Setter r_sepc := ltac:(setter eta_csr r_sepc).
#[export] Instance set_r_scause : Setter r_scause := ltac:(setter eta_csr r_scause).
#[export] Instance set_r_stval : Setter r_stval := ltac:(setter eta_csr r_stval).
#[export] Instance set_r_satp : Setter r_satp := ltac:(setter eta_csr r_satp).
#[export] Instance set_r_stvec : Setter r_stvec := ltac:(setter eta_csr r_stvec).
#[export] Instance set_r_sip : Setter r_sip := ltac:(setter eta_csr r_sip).

(** The devices: state that the kernel reads and writes through registers. *)
Record hardware := Hardware {
  hw_disk : Z -> bytes;  (* contents of each disk block *)
  hw_writes : list (Z * bytes);  (* the block writes so far, latest first *)
  hw_uart_in : list Z;  (* bytes waiting in the UART receiver *)
  hw_uart_out : list Z;  (* bytes sent, latest first *)
  hw_uart_idle : list bool;  (* successive answers of LSR_TX_IDLE, then idle *)
  hw_uart_reg : Z -> Z;  (* control registers; 8 and 9 are the divisor *)
  hw_plic : list Z;  (* interrupts the PLIC will hand out *)
  hw_plic_reg : Z -> Z;  (* PLIC registers, by address *)
  hw_virtio_reg : Z -> Z  (* virtio registers, by offset *)
}.
Definition eta_hardware (r : hardware) : hardware :=
  Hardware r.(hw_disk) r.(hw_writes) r.(hw_uart_in) r.(hw_uart_out)
    r.(hw_uart_idle) r.(hw_uart_reg) r.(hw_plic) r.(hw_plic_reg)
    r.(hw_virtio_reg).
#[export] Instance set_hw_disk : Setter hw_disk := ltac:(setter eta_hardware hw_disk).
#[export] Instance set_hw_writes : Setter hw_writes := ltac:(setter eta_hardware
    hw_writes).
#[export] Instance set_hw_uart_in : Setter hw_uart_in := ltac:(setter eta_hardware
    hw_uart_in).
#[export] Instance set_hw_uart_out : Setter hw_uart_out := ltac:(setter eta_hardware
    hw_uart_out).
#[export] Instance set_hw_uart_idle : Setter hw_uart_idle := ltac:(setter eta_hardware
    hw_uart_idle).
#[export] Instance set_hw_uart_reg : Setter hw_uart_reg := ltac:(setter eta_hardware
    hw_uart_reg).
#[export] Instance set_hw_plic : Setter hw_plic := ltac:(setter eta_hardware hw_plic).
#[export] Instance set_hw_plic_reg : Setter hw_plic_reg := ltac:(setter eta_hardware
    hw_plic_reg).
#[export] Instance set_hw_virtio_reg : Setter hw_virtio_reg := ltac:(setter eta_hardware
    hw_virtio_reg).

(** The global variables of the kernel other than locks and cpus. *)
Record kdata := Kdata {
  mem : bytes;  (* physical memory *)
  freelist : Z;  (* kmem.freelist *)
  procs : nat -> proc;  (* proc[NPROC] *)
  initproc : option nat;
  nextpid : Z;
  first : Z;  (* forkret: first *)
  ticks : Z;
  ftable : nat -> file;  (* ftable.file[NFILE] *)
  devsw : Z -> devsw_entry;  (* devsw[NDEV] *)
  pipes : Z -> pipe;
  bufs : nat -> buf;  (* bcache.buf and bcache.head *)
  klog : log;
  sb : superblock;
  itable : nat -> inode;  (* itable.inode[NINODE] *)
  cons : console;
  uart : uart_tx;
  disk : vdisk;
  panicked : Z;
  pr_locking : Z;
  kernel_pagetable : Z;
  csrs : nat -> csr;  (* per hart *)
  started : Z;  (* main.c: hart 0 has booted *)
  hw : hardware
}.
Definition eta_kdata (r : kdata) : kdata :=
  Kdata r.(mem) r.(freelist) r.(procs) r.(initproc) r.(nextpid) r.(first) r.(ticks)
    r.(ftable) r.(devsw) r.(pipes) r.(bufs) r.(klog) r.(sb) r.(itable) r.(cons)
    r.(uart) r.(disk) r.(panicked) r.(pr_locking) r.(kernel_pagetable) r.(csrs)
    r.(started) r.(hw).
#[export] Instance set_mem : Setter mem := ltac:(setter eta_kdata mem).
#[export] Instance set_freelist : Setter freelist := ltac:(setter eta_kdata freelist).
#[export] Instance set_procs : Setter procs := ltac:(setter eta_kdata procs).
#[export] Instance set_initproc : Setter initproc := ltac:(setter eta_kdata initproc).
#[export] Instance set_nextpid : Setter nextpid := ltac:(setter eta_kdata nextpid).
#[export] Instance set_first : Setter first := ltac:(setter eta_kdata first).
#[export] Instance set_ticks : Setter ticks := ltac:(setter eta_kdata ticks).
#[export] Instance set_ftable : Setter ftable := ltac:(setter eta_kdata ftable).
#[export] Instance set_devsw : Setter devsw := ltac:(setter eta_kdata devsw).
#[export] Instance set_pipes : Setter pipes := ltac:(setter eta_kdata pipes).
#[export] Instance set_bufs : Setter bufs := ltac:(setter eta_kdata bufs).
#[export] Instance set_klog : Setter klog := ltac:(setter eta_kdata klog).
#[export] Instance set_sb : Setter sb := ltac:(setter eta_kdata sb).
#[export] Instance set_itable : Setter itable := ltac:(setter eta_kdata itable).
#[export] Instance set_cons : Setter cons := ltac:(setter eta_kdata cons).
#[export] Instance set_uart : Setter uart := ltac:(setter eta_kdata uart).
#[export] Instance set_disk : Setter disk := ltac:(setter eta_kdata disk).
#[export] Instance set_panicked : Setter panicked := ltac:(setter eta_kdata panicked).
#[export] Instance set_pr_locking : Setter pr_locking := ltac:(setter eta_kdata
    pr_locking).
#[export] Instance set_kernel_pagetable : Setter kernel_pagetable := ltac:(setter
    eta_kdata kernel_pagetable).
#[export] Instance set_csrs : Setter csrs := ltac:(setter eta_kdata csrs).
#[export] Instance set_started : Setter started := ltac:(setter eta_kdata started).
#[export] Instance set_hw : Setter hw := ltac:(setter eta_kdata hw).

(** Locks, cpus and interrupt enables. *)
Record lockst := Lockst {
  hartid : nat;  (* tp: the hart that executes *)
  locks : lockptr -> spinlock;
  cpus : nat -> cpu;  (* cpus[NCPU] *)
  sstatus : nat -> Z  (* sstatus of each hart *)
}.
Definition eta_lockst (r : lockst) : lockst :=
  Lockst r.(hartid) r.(locks) r.(cpus) r.(sstatus).
#[export] Instance set_hartid : Setter hartid := ltac:(setter eta_lockst hartid).
#[export] Instance set_locks : Setter locks := ltac:(setter eta_lockst locks).
#[export] Instance set_cpus : Setter cpus := ltac:(setter eta_lockst cpus).
#[export] Instance set_sstatus : Setter sstatus := ltac:(setter eta_lockst sstatus).

(** The machine state of the kernel. *)
Record kstate := Kstate {
  dat : kdata;
  lks : lockst
}.
Definition eta_kstate (r : kstate) : kstate :=
  Kstate r.(dat) r.(lks).
#[export] Instance set_dat : Setter dat := ltac:(setter eta_kstate dat).
#[export] Instance set_lks : Setter lks := ltac:(setter eta_kstate lks).

(** ** Accessors of nested tables *)

(** [proc[p]] and [proc[p].kthread[k]]. *)
Definition the_kt (d : kdata) (kt : kptr) : kthread := (d.(procs) kt.1).(p_kthread) kt.2.
Definition upd_proc (p : nat) (f : proc -> proc) (d : kdata) : kdata :=
  d <| procs ::= alter f p |>.
Definition upd_kt (kt : kptr) (f : kthread -> kthread) (d : kdata) : kdata :=
  upd_proc kt.1 (fun pr => pr <| p_kthread ::= alter f kt.2 |>) d.
Definition upd_file (i : nat) (f : file -> file) (d : kdata) : kdata :=
  d <| ftable ::= alter f i |>.
Definition upd_pipe (pi : Z) (f : pipe -> pipe) (d : kdata) : kdata :=
  d <| pipes ::= alter f pi |>.
Definition upd_buf (b : nat) (f : buf -> buf) (d : kdata) : kdata :=
  d <| bufs ::= alter f b |>.
Definition upd_inode (i : nat) (f : inode -> inode) (d : kdata) : kdata :=
  d <| itable ::= alter f i |>.
Definition the_slock (d : kdata) (l : slptr) : sleeplock :=
  match l with
  | buf_slock b => (d.(bufs) b).(b_lock)
  | inode_slock i => (d.(itable) i).(i_lock)
  end.
Definition upd_slock (l : slptr) (f : sleeplock -> sleeplock) (d : kdata) : kdata :=
  match l with
  | buf_slock b => upd_buf b (fun x => x <| b_lock ::= f |>) d
  | inode_slock i => upd_inode i (fun x => x <| i_lock ::= f |>) d
  end.

(** ** The zero-initialised state of the C globals *)

Definition context0 : context := Context_ 0 0 0 0 0 0 0 0 0 0 0 0 0 0.
Definition spinlock0 : spinlock := Spinlock 0 "" None.
Definition cpu0 : cpu := Cpu None context0 0 0.
Definition kthread0 : kthread := Kthread UNUSED_t None 0 0 0 None context0 0 0.
Definition proc0 : proc :=
  Proc UNUSED 0 0 0 (fun _ => kthread0) 0 None 0 0 (fun _ => None) None (fun _ => 0) 0.
Definition file0 : file := File FD_NONE 0 0 0 0 None 0 0.
Definition pipe0 : pipe := Pipe (fun _ => 0) 0 0 0 0.
Definition sleeplock0 : sleeplock := Sleeplock 0 "" 0.
Definition buf0 : buf := Buf 0 0 0 0 sleeplock0 0 0 0 (fun _ => 0).
Definition log0 : log := Log 0 0 0 0 0 0 (fun _ => 0).
Definition superblock0 : superblock := Superblock 0 0 0 0 0 0 0 0.
Definition inode0 : inode := Inode 0 0 0 sleeplock0 0 0 0 0 0 0 (fun _ => 0).
Definition console0 : console := Console (fun _ => 0) 0 0 0.
Definition uart0 : uart_tx := UartTx (fun _ => 0) 0 0.
Definition vdesc0 : virtq_desc := VirtqDesc DNull 0 0 0.
Definition blkreq0 : virtio_blk_req := VirtioBlkReq 0 0 0.
Definition vdisk0 : vdisk :=
  Vdisk (fun _ => vdesc0) 0 (fun _ => 0) 0 (fun _ => 0) (fun _ => 0) 0 (fun _ => None)
    (fun _ => 0) (fun _ => blkreq0).
Definition csr0 : csr := Csr 0 0 0 0 0 0.
Definition hardware0 : hardware :=
  Hardware (fun _ _ => 0) [] [] [] [] (fun _ => 0) [] (fun _ => 0) (fun _ => 0).
Definition kdata0 : kdata :=
  Kdata (fun _ => 0) 0 (fun _ => proc0) None 1 1 0 (fun _ => file0) (fun _ => dev_none)
    (fun _ => pipe0) (fun _ => buf0) log0 superblock0 (fun _ => inode0) console0 uart0
    vdisk0 0 0 0 (fun _ => csr0) 0 hardware0.
Definition lockst0 : lockst :=
  Lockst 0 (fun _ => spinlock0) (fun _ => cpu0) (fun _ => 0).
Definition kstate0 : kstate := Kstate kdata0 lockst0.

(** ** Outcomes and the kernel monad

    A kernel function runs on one hart until it returns ([Ret]), panics, spins
    on a lock that another hart holds ([Spin], with the state in which it waits),
    dereferences a null pointer ([Fault]), runs out of the fuel of an unbounded
    loop ([Diverge]), or gives up the cpu in [swtch].  In the last case the
    outcome carries the state at the switch and the rest of the function, to be
    resumed in the state in which the scheduler switches back: the places where
    other threads run are explicit. *)

Inductive res (A : Type) : Type :=
| Ret (a : A) (s : kstate)
| Panic (msg : string)
| Spin (s : kstate) (lk : lockptr)
| Fault
| Diverge
| Swtch (s : kstate) (k : kstate -> res A).
#[global] Arguments Ret {A} a s.
#[global] Arguments Panic {A} msg.
#[global] Arguments Spin {A} s lk.
#[global] Arguments Fault {A}.
#[global] Arguments Diverge {A}.
#[global] Arguments Swtch {A} s k.

Definition M (A : Type) : Type := kstate -> res A.

Fixpoint rbind {A B} (r : res A) (f : A -> kstate -> res B) : res B :=
  match r with
  | Ret a s => f a s
  | Panic m => Panic m
  | Spin s l => Spin s l
  | Fault => Fault
  | Diverge => Diverge
  | Swtch s k => Swtch s (fun s' => rbind (k s') f)
  end.

#[export] Instance M_ret : MRet M := fun A a s => Ret a s.
#[export] Instance M_bind : MBind M := fun A B f m s => rbind (m s) (fun a s' => f a s').

Definition panic {A} (msg : string) : M A := fun _ => Panic msg.
Definition fault {A} : M A := fun _ => Fault.
Definition diverge {A} : M A := fun _ => Diverge.

(** Read and write the data part of the state. *)
Definition getd {A} (f : kdata -> A) : M A := fun s => Ret (f s.(dat)) s.
Definition modd (f : kdata -> kdata) : M unit := fun s => Ret tt (s <| dat ::= f |>).
(** Read and write the lock part. *)
Definition getl {A} (f : lockst -> A) : M A := fun s => Ret (f s.(lks)) s.
Definition modl (f : lockst -> lockst) : M unit := fun s => Ret tt (s <| lks ::= f |>).

Definition when (b : bool) (m : M unit) : M unit := if b then m else mret tt.

(** A dereference of a pointer that may be null. *)
Definition deref {A} (o : option A) : M A :=
  match o with Some a => mret a | None => fault end.

(** A loop over a table that may leave early with a result. *)
Fixpoint scanM {I R} (l : list I) (f : I -> M (option R)) : M (option R) :=
  match l with
  | [] => mret None
  | i :: l => r ← f i; match r with Some _ => mret r | None => scanM l f end
  end.

(** A loop over a table without early exit. *)
Fixpoint forM {I} (l : list I) (f : I -> M unit) : M unit :=
  match l with
  | [] => mret tt
  | i :: l => f i;; forM l f
  end.

(** The index lists of the static tables. *)
Definition all_procs : list nat := seq 0 NPROC.
Definition all_kts : list nat := seq 0 NKT.
Definition all_files : list nat := seq 0 NFILE.
Definition all_inodes : list nat := seq 0 NINODE.

(** ** Running a function

    [runs m s Q]: started in [s], [m] returns without giving up the cpu, and its
    result and final state satisfy [Q]. *)

Definition runs {A} (m : M A) (s : kstate) (Q : A -> kstate -> Prop) : Prop :=
  match m s with Ret a s' => Q a s' | _ => False end.

(** [panics m s msg]: [m] ends in [panic(msg)]. *)
Definition panics {A} (m : M A) (s : kstate) (msg : string) : Prop := m s = Panic msg.

(** [yields m s Q]: [m] runs to its first context switch, in a state (and with a
    rest of the function) that satisfies [Q]. *)
Definition yields {A} (m : M A) (s : kstate)
    (Q : kstate -> (kstate -> res A) -> Prop) : Prop :=
  match m s with Swtch s' k => Q s' k | _ => False end.

(** Unfold the monad on a concrete state. *)
Ltac mcbn :=
  unfold mbind, M_bind, mret, M_ret, getd, modd, getl, modl, when, panic; cbn.

#[global] Arguments modd f !s / : simpl nomatch.
#[global] Arguments all_procs : simpl never.
#[global] Arguments all_kts : simpl never.
#[global] Arguments all_files : simpl never.
#[global] Arguments all_inodes : simpl never.
