(* ===== verification/Paging.v ===== *)
(** * Arithmetic of addresses and page-table entries (kernel/riscv.h, memlayout.h)

    The macros are defined in State.v; here are their arithmetic readings, used
    by the page allocator, the page tables and the memory layout theorems. *)
From S2P Require Export State.

Lemma land_lnot_page a : Z.land a (Z.lnot (PGSIZE - 1)) = a / PGSIZE * PGSIZE.
Proof.
  change (PGSIZE - 1) with (Z.ones 12). rewrite <- Z.ldiff_land.
  rewrite Z.ldiff_ones_r by lia. rewrite Z.shiftl_mul_pow2, Z.shiftr_div_pow2 by lia. done.
Qed.

Lemma PGROUNDDOWN_spec a : PGROUNDDOWN a = a / PGSIZE * PGSIZE.
Proof. apply land_lnot_page. Qed.

Lemma PGROUNDUP_spec a :
  0 <= a < 2 ^ 64 - PGSIZE -> PGROUNDUP a = (a + PGSIZE - 1) / PGSIZE * PGSIZE.
Proof.
  intros. unfold PGROUNDUP. rewrite land_lnot_page, u64_small; [done|].
  unfold PGSIZE in *. lia.
Qed.

(** Rounding up gives the least page boundary at or above the address. *)
Lemma PGROUNDUP_bound a :
  0 <= a < 2 ^ 64 - PGSIZE ->
  PGROUNDUP a mod PGSIZE = 0 /\ a <= PGROUNDUP a < a + PGSIZE.
Proof.
  intros. rewrite PGROUNDUP_spec by done. unfold PGSIZE in *.
  Z.div_mod_to_equations. lia.
Qed.

Lemma PGROUNDDOWN_bound a :
  PGROUNDDOWN a mod PGSIZE = 0 /\ PGROUNDDOWN a <= a < PGROUNDDOWN a + PGSIZE.
Proof. rewrite PGROUNDDOWN_spec. unfold PGSIZE. Z.div_mod_to_equations. lia. Qed.

Lemma PGROUNDDOWN_aligned a : a mod PGSIZE = 0 -> PGROUNDDOWN a = a.
Proof. rewrite PGROUNDDOWN_spec. unfold PGSIZE. Z.div_mod_to_equations. lia. Qed.

Lemma PGROUNDUP_aligned a :
  0 <= a < 2 ^ 64 - PGSIZE -> a mod PGSIZE = 0 -> PGROUNDUP a = a.
Proof.
  intros. pose proof (PGROUNDUP_bound a H). unfold PGSIZE in *.
  Z.div_mod_to_equations. lia.
Qed.

(** ** Page-table entries *)

Lemma PA2PTE_spec pa : 0 <= pa < 2 ^ 64 -> PA2PTE pa = pa / PGSIZE * 2 ^ 10.
Proof.
  intros. unfold PA2PTE. rewrite Z.shiftl_mul_pow2, Z.shiftr_div_pow2 by lia.
  apply u64_small. unfold PGSIZE. Z.div_mod_to_equations. lia.
Qed.

Lemma land_low a b n : 0 <= n -> a mod 2 ^ n = 0 -> 0 <= b < 2 ^ n -> Z.land a b = 0.
Proof.
  intros Hn Ha Hb. apply Z.bits_inj'. intros i Hi. rewrite Z.land_spec, Z.bits_0.
  destruct (decide (i < n)).
  - rewrite <- (Z.mod_pow2_bits_low a n i) by done. by rewrite Ha, Z.bits_0.
  - replace b with (b mod 2 ^ n) by (by apply Z.mod_small).
    rewrite (Z.mod_pow2_bits_high b n i) by lia. apply andb_false_r.
Qed.

Lemma lor_low a b n : 0 <= n -> a mod 2 ^ n = 0 -> 0 <= b < 2 ^ n -> Z.lor a b = a + b.
Proof. intros. rewrite <- Z.add_lor_land, (land_low a b n) by done. lia. Qed.

Lemma lor_bound a b n : 0 <= n -> 0 <= a < 2 ^ n -> 0 <= b < 2 ^ n -> 0 <= Z.lor a b < 2 ^ n.
Proof.
  intros Hn Ha Hb. split; [apply Z.lor_nonneg; lia|].
  rewrite <- (Z.mod_small a (2 ^ n)), <- (Z.mod_small b (2 ^ n)) by done.
  rewrite <- !Z.land_ones by done. rewrite <- Z.land_lor_distr_l, Z.land_ones by done.
  apply Z.mod_pos_bound. lia.
Qed.

(** The entry for a page: the page number above ten flag bits. *)
Definition mk_pte (pa perm : Z) : Z := Z.lor (Z.lor (PA2PTE pa) perm) PTE_V.

Lemma mk_pte_spec pa perm :
  0 <= pa < 2 ^ 64 -> 0 <= perm < 2 ^ 10 ->
  mk_pte pa perm = pa / PGSIZE * 2 ^ 10 + Z.lor perm PTE_V /\
  0 <= Z.lor perm PTE_V < 2 ^ 10.
Proof.
  intros Hpa Hp. unfold mk_pte. rewrite <- Z.lor_assoc.
  assert (0 <= Z.lor perm PTE_V < 2 ^ 10) by (apply lor_bound; unfold PTE_V; lia).
  split; [|done]. rewrite PA2PTE_spec by done. apply lor_low with 10; [lia| |done].
  apply Z_mod_mult.
Qed.

Lemma mk_pte_bound pa perm :
  0 <= pa < 2 ^ 56 -> 0 <= perm < 2 ^ 10 -> 0 <= mk_pte pa perm < 2 ^ 64.
Proof.
  intros. destruct (mk_pte_spec pa perm) as [-> ?]; [lia..|]. unfold PGSIZE.
  Z.div_mod_to_equations. lia.
Qed.

(** The address stored in an entry is read back. *)
Lemma PTE2PA_mk_pte pa perm :
  0 <= pa < 2 ^ 56 -> pa mod PGSIZE = 0 -> 0 <= perm < 2 ^ 10 ->
  PTE2PA (mk_pte pa perm) = pa.
Proof.
  intros Hpa Hm Hp. destruct (mk_pte_spec pa perm) as [-> Hf]; [lia..|].
  unfold PTE2PA. rewrite Z.shiftr_div_pow2, Z.shiftl_mul_pow2 by lia.
  rewrite Z.div_add_l by lia. rewrite (Z.div_small (Z.lor _ _)) by done.
  unfold PGSIZE in *. rewrite u64_small; Z.div_mod_to_equations; lia.
Qed.

Lemma PTE_FLAGS_mk_pte pa perm :
  0 <= pa < 2 ^ 64 -> 0 <= perm < 2 ^ 10 -> PTE_FLAGS (mk_pte pa perm) = Z.lor perm PTE_V.
Proof.
  intros Hpa Hp. destruct (mk_pte_spec pa perm) as [-> Hf]; [lia..|].
  unfold PTE_FLAGS. change 0x3FF with (Z.ones 10). rewrite Z.land_ones by lia.
  rewrite Z.add_comm, Z_mod_plus_full. by apply Z.mod_small.
Qed.

Lemma pte_land_flags pte f : 0 <= f < 2 ^ 10 -> Z.land pte f = Z.land (PTE_FLAGS pte) f.
Proof.
  intros Hf. unfold PTE_FLAGS. change 0x3FF with (Z.ones 10).
  rewrite <- Z.land_assoc, (Z.land_comm (Z.ones 10)), (Z.land_ones f) by lia.
  by rewrite Z.mod_small.
Qed.

Lemma mk_pte_valid pa perm : Z.land (mk_pte pa perm) PTE_V <> 0.
Proof.
  intros H. apply (f_equal (fun z => Z.testbit z 0)) in H.
  unfold mk_pte in H. rewrite Z.land_spec, Z.lor_spec in H.
  change (Z.testbit PTE_V 0) with true in H. by rewrite orb_true_r in H.
Qed.

Lemma PTE_FLAGS_bound pte : 0 <= PTE_FLAGS pte < 2 ^ 10.
Proof.
  unfold PTE_FLAGS. change 0x3FF with (Z.ones 10). rewrite Z.land_ones by lia.
  apply Z.mod_pos_bound. lia.
Qed.

Lemma PTE_FLAGS_valid pte :
  Z.land pte PTE_V <> 0 -> Z.lor (PTE_FLAGS pte) PTE_V = PTE_FLAGS pte.
Proof.
  intros H. rewrite (pte_land_flags pte) in H by (unfold PTE_V; lia).
  apply Z.bits_inj'. intros n Hn. rewrite Z.lor_spec.
  destruct (decide (n = 0)) as [->|].
  - destruct (Z.testbit (PTE_FLAGS pte) 0) eqn:E; [done|]. destruct H.
    change PTE_V with (Z.ones 1). rewrite Z.land_ones, <- Z.bit0_mod by lia. by rewrite E.
  - change PTE_V with (2 ^ 0). rewrite Z.pow2_bits_false by lia. apply orb_false_r.
Qed.

(** ** Indices of a virtual address *)

Lemma PX_spec level va : 0 <= level -> PX level va = va / 2 ^ (12 + 9 * level) mod 512.
Proof.
  intros. unfold PX, PXSHIFT, PXMASK, PGSHIFT. change 0x1FF with (Z.ones 9).
  rewrite Z.land_ones, Z.shiftr_div_pow2 by lia. done.
Qed.

Lemma PX_bound level va : 0 <= level -> 0 <= PX level va < 512.
Proof. intros. rewrite PX_spec by done. apply Z.mod_pos_bound. lia. Qed.

(** A page-aligned address below [MAXVA] is its three indices. *)
Lemma PX_decompose va :
  0 <= va < MAXVA -> va mod PGSIZE = 0 ->
  va = PX 2 va * 2 ^ 30 + PX 1 va * 2 ^ 21 + PX 0 va * 2 ^ 12.
Proof.
  intros Hva Hm. rewrite !PX_spec by lia. unfold MAXVA, PGSIZE in *.
  change (12 + 9 * 2) with 30. change (12 + 9 * 1) with 21. change (12 + 9 * 0) with 12.
  Z.div_mod_to_equations. lia.
Qed.

Lemma PX_inj va va' :
  0 <= va < MAXVA -> 0 <= va' < MAXVA -> va mod PGSIZE = 0 -> va' mod PGSIZE = 0 ->
  PX 2 va = PX 2 va' -> PX 1 va = PX 1 va' -> PX 0 va = PX 0 va' -> va = va'.
Proof.
  intros. rewrite (PX_decompose va), (PX_decompose va') by done. congruence.
Qed.
