(* ===== verification/Spinlock.v ===== *)
(** * Spinlocks, interrupt nesting and the evaluation judgement

    kernel/spinlock.c and the [sstatus] accessors of kernel/riscv.h, and the
    judgement [evals] that the other components use to state what a function
    does to the kernel's data while it takes and releases locks. *)
From S2P Require Export State.

(** ** kernel/riscv.h: interrupt enable *)

Definition r_sstatus : M Z := getl (fun l => l.(sstatus) l.(hartid)).
Definition w_sstatus (x : Z) : M unit :=
  modl (fun l => l <| sstatus ::= <[l.(hartid) := x]> |>).
Definition intr_on : M unit :=
  x ← r_sstatus; w_sstatus (Z.lor x SSTATUS_SIE).
Definition intr_off : M unit :=
  x ← r_sstatus; w_sstatus (Z.land x (Z.lnot SSTATUS_SIE)).
Definition intr_get : M Z :=
  x ← r_sstatus; mret (cbool (ctrue (Z.land x SSTATUS_SIE))).

(** ** kernel/proc.c: cpuid, mycpu *)

Definition cpuid : M nat := getl hartid.
Definition mycpu : M nat := id ← cpuid; mret id.

Definition upd_cpu (c : nat) (f : cpu -> cpu) (l : lockst) : lockst :=
  l <| cpus ::= alter f c |>.
Definition upd_lock (lk : lockptr) (f : spinlock -> spinlock) (l : lockst) : lockst :=
  l <| locks ::= alter f lk |>.

(** ** kernel/spinlock.c *)

Definition initlock (lk : lockptr) (name : string) : M unit :=
  modl (upd_lock lk (fun _ => Spinlock 0 name None)).

Definition push_off : M unit :=
  old ← intr_get;
  intr_off;;
  c ← mycpu;
  noff ← getl (fun l => (l.(cpus) c).(c_noff));
  when (noff =? 0) (modl (upd_cpu c (fun x => x <| c_intena := old |>)));;
  modl (upd_cpu c (fun x => x <| c_noff ::= fun n => n + 1 |>)).

Definition pop_off : M unit :=
  c ← mycpu;
  i ← intr_get;
  if ctrue i then panic "pop_off - interruptible" else
  noff ← getl (fun l => (l.(cpus) c).(c_noff));
  if noff <? 1 then panic "pop_off" else
  modl (upd_cpu c (fun x => x <| c_noff ::= fun n => n - 1 |>));;
  noff ← getl (fun l => (l.(cpus) c).(c_noff));
  intena ← getl (fun l => (l.(cpus) c).(c_intena));
  when ((noff =? 0) && ctrue intena) intr_on.

Definition holding (lk : lockptr) : M Z :=
  l ← getl (fun l => l.(locks) lk);
  c ← mycpu;
  mret (cbool (ctrue l.(lk_locked) && bool_decide (l.(lk_cpu) = Some c))).

(** The spin loop of [acquire] on a lock that another hart holds. *)
Definition spin {A} (lk : lockptr) : M A := fun s => Spin s lk.

(** [__sync_lock_test_and_set(&lk->locked, 1)]: an atomic swap. *)
Definition sync_lock_test_and_set (lk : lockptr) : M Z :=
  old ← getl (fun l => (l.(locks) lk).(lk_locked));
  modl (upd_lock lk (fun x => x <| lk_locked := 1 |>));;
  mret old.

(** [acquire] in the steps that other harts can observe: up to the swap, the
    swap, and the record of the holder. *)
Definition acquire_enter (lk : lockptr) : M unit :=
  push_off;;
  h ← holding lk;
  if ctrue h then panic "acquire" else mret tt.

Definition acquire_own (lk : lockptr) : M unit :=
  c ← mycpu;
  modl (upd_lock lk (fun x => x <| lk_cpu := Some c |>)).

Definition acquire (lk : lockptr) : M unit :=
  acquire_enter lk;;
  old ← sync_lock_test_and_set lk;
  if ctrue old then spin lk else acquire_own lk.

(** [release] likewise: up to the clearing of the holder, then the store that
    frees the lock and [pop_off]. *)
Definition release_disown (lk : lockptr) : M unit :=
  h ← holding lk;
  if negb (ctrue h) then panic "release" else
  modl (upd_lock lk (fun x => x <| lk_cpu := None |>)).

Definition sync_lock_release (lk : lockptr) : M unit :=
  modl (upd_lock lk (fun x => x <| lk_locked := 0 |>)).

Definition release (lk : lockptr) : M unit :=
  release_disown lk;;
  sync_lock_release lk;;
  pop_off.

(** ** What a lock state looks like while this hart holds some locks *)

(** A lock that nobody holds. *)
Definition lfree (l : lockst) (lk : lockptr) : Prop :=
  (l.(locks) lk).(lk_locked) = 0 /\ (l.(locks) lk).(lk_cpu) = None.

Definition cur_cpu (l : lockst) : cpu := l.(cpus) l.(hartid).
Definition cur_sstatus (l : lockst) : Z := l.(sstatus) l.(hartid).
Definition sie (x : Z) : Z := cbool (ctrue (Z.land x SSTATUS_SIE)).

(** The bookkeeping invariant of push_off/pop_off: with a positive depth
    interrupts are off. *)
Definition ready (l : lockst) : Prop :=
  0 <= (cur_cpu l).(c_noff) /\
  (0 < (cur_cpu l).(c_noff) -> Z.land (cur_sstatus l) SSTATUS_SIE = 0).

(** [lstate L l0 l]: [l] is the lock state [l0] in which this hart has moreover
    acquired the locks [L].  The saved interrupt flag is left unspecified where
    it is dead (depth 0). *)
Record lstate (L : list lockptr) (l0 l : lockst) : Prop := {
  ls_ready : ready l0;
  ls_hart : l.(hartid) = l0.(hartid);
  ls_nodup : NoDup L;
  ls_free : forall lk, lk ∈ L -> lfree l0 lk;
  ls_out : forall lk, lk ∉ L -> l.(locks) lk = l0.(locks) lk;
  ls_in : forall lk, lk ∈ L ->
    l.(locks) lk = Spinlock 1 (l0.(locks) lk).(lk_name) (Some l0.(hartid));
  ls_cpus : forall h, h <> l0.(hartid) -> l.(cpus) h = l0.(cpus) h;
  ls_ssts : forall h, h <> l0.(hartid) -> l.(sstatus) h = l0.(sstatus) h;
  ls_kthread : (cur_cpu l).(c_kthread) = (cur_cpu l0).(c_kthread);
  ls_context : (cur_cpu l).(c_context) = (cur_cpu l0).(c_context);
  ls_noff : (cur_cpu l).(c_noff) = (cur_cpu l0).(c_noff) + Z.of_nat (length L);
  ls_sst : cur_sstatus l =
    match L with
    | [] => cur_sstatus l0
    | _ => Z.land (cur_sstatus l0) (Z.lnot SSTATUS_SIE)
    end;
  ls_intena : 0 < (cur_cpu l).(c_noff) ->
    (cur_cpu l).(c_intena) =
      if (cur_cpu l0).(c_noff) =? 0 then sie (cur_sstatus l0) else (cur_cpu l0).(c_intena);
}.

(** ** The evaluation judgement

    [evals l0 L d m a L' d']: on a hart that holds the locks [L] on top of the
    lock state [l0], and with kernel data [d], the function [m] returns [a]
    without giving up the cpu, holding [L'], with kernel data [d']. *)

Definition evals {A} (l0 : lockst) (L : list lockptr) (d : kdata) (m : M A)
    (a : A) (L' : list lockptr) (d' : kdata) : Prop :=
  forall s, lstate L l0 s.(lks) -> s.(dat) = d ->
    exists s', m s = Ret a s' /\ lstate L' l0 s'.(lks) /\ s'.(dat) = d'.

(** [m] panics with [msg]. *)
Definition evals_panic {A} (l0 : lockst) (L : list lockptr) (d : kdata) (m : M A)
    (msg : string) : Prop :=
  forall s, lstate L l0 s.(lks) -> s.(dat) = d -> m s = Panic msg.

(** [m] gives up the cpu holding [L'] with kernel data [d'], and then
    continues as [k]. *)
Definition evals_swtch {A} (l0 : lockst) (L : list lockptr) (d : kdata) (m : M A)
    (L' : list lockptr) (d' : kdata) (P : (kstate -> res A) -> Prop) : Prop :=
  forall s, lstate L l0 s.(lks) -> s.(dat) = d ->
    exists s' k, m s = Swtch s' k /\ lstate L' l0 s'.(lks) /\ s'.(dat) = d' /\ P k.

(** A lock that another hart holds or is just taking. *)
Definition ltaken (l : lockst) (lk : lockptr) : Prop :=
  (l.(locks) lk).(lk_locked) = 1 /\ (l.(locks) lk).(lk_cpu) <> Some l.(hartid).

(** [m] waits for [lk], which another hart holds, with kernel data [d'] and while it holds
    exactly the locks [L']. *)
Definition evals_spin {A} (l0 : lockst) (L : list lockptr) (d : kdata) (m : M A)
    (lk : lockptr) (L' : list lockptr) (d' : kdata) : Prop :=
  forall s, lstate L l0 s.(lks) -> s.(dat) = d ->
    exists s', m s = Spin s' lk /\ s'.(dat) = d' /\
      (forall x, x ∉ L' -> s'.(lks).(locks) x = l0.(locks) x) /\
      (forall x, x ∈ L' -> s'.(lks).(locks) x = Spinlock 1 (l0.(locks) x).(lk_name) (Some l0.(hartid))).

(** ** The effect of push_off, pop_off, acquire and release *)

Record pushed (l l' : lockst) : Prop := {
  pu_hart : l'.(hartid) = l.(hartid);
  pu_locks : l'.(locks) = l.(locks);
  pu_cpus : forall h, h <> l.(hartid) -> l'.(cpus) h = l.(cpus) h;
  pu_ssts : forall h, h <> l.(hartid) -> l'.(sstatus) h = l.(sstatus) h;
  pu_kthread : (cur_cpu l').(c_kthread) = (cur_cpu l).(c_kthread);
  pu_context : (cur_cpu l').(c_context) = (cur_cpu l).(c_context);
  pu_noff : (cur_cpu l').(c_noff) = (cur_cpu l).(c_noff) + 1;
  pu_sst : cur_sstatus l' = Z.land (cur_sstatus l) (Z.lnot SSTATUS_SIE);
  pu_intena : (cur_cpu l').(c_intena) =
    if (cur_cpu l).(c_noff) =? 0 then sie (cur_sstatus l) else (cur_cpu l).(c_intena);
}.

Lemma push_off_ok d l :
  exists l', push_off (Kstate d l) = Ret tt (Kstate d l') /\ pushed l l'.
Proof.
  unfold push_off, intr_get, intr_off, r_sstatus, w_sstatus, mycpu, cpuid, when.
  mcbn. case_match; cbn; eexists; (split; [done|]); split; cbn;
    unfold cur_cpu, cur_sstatus in *; cbn; intros;
    rewrite ?fn_lookup_insert, ?fn_lookup_alter, ?fn_lookup_insert_ne,
      ?fn_lookup_alter_ne by done; cbn; rewrite ?fn_lookup_alter; try done.
  all: by match goal with H : (_ =? _) = _ |- _ => rewrite H end.
Qed.

Record popped (l l' : lockst) : Prop := {
  po_hart : l'.(hartid) = l.(hartid);
  po_locks : l'.(locks) = l.(locks);
  po_cpus : forall h, h <> l.(hartid) -> l'.(cpus) h = l.(cpus) h;
  po_ssts : forall h, h <> l.(hartid) -> l'.(sstatus) h = l.(sstatus) h;
  po_kthread : (cur_cpu l').(c_kthread) = (cur_cpu l).(c_kthread);
  po_context : (cur_cpu l').(c_context) = (cur_cpu l).(c_context);
  po_noff : (cur_cpu l').(c_noff) = (cur_cpu l).(c_noff) - 1;
  po_intena : (cur_cpu l').(c_intena) = (cur_cpu l).(c_intena);
  po_sst : cur_sstatus l' =
    if ((cur_cpu l).(c_noff) =? 1) && ctrue (cur_cpu l).(c_intena)
    then Z.lor (cur_sstatus l) SSTATUS_SIE else cur_sstatus l;
}.

Lemma pop_off_ok d l :
  Z.land (cur_sstatus l) SSTATUS_SIE = 0 -> 1 <= (cur_cpu l).(c_noff) ->
  exists l', pop_off (Kstate d l) = Ret tt (Kstate d l') /\ popped l l'.
Proof.
  intros Hs Hn. unfold cur_sstatus, cur_cpu in *.
  unfold pop_off, intr_get, intr_on, r_sstatus, w_sstatus, mycpu, cpuid, when.
  mcbn. rewrite Hs. mcbn. rewrite (proj2 (Z.ltb_ge _ _)) by done. mcbn.
  rewrite fn_lookup_alter. cbn.
  replace (c_noff (cpus l (hartid l)) - 1 =? 0)
    with (c_noff (cpus l (hartid l)) =? 1) by zcases.
  case_match; cbn; eexists; (split; [done|]); split; cbn;
    unfold cur_cpu, cur_sstatus in *; cbn; intros;
    rewrite ?fn_lookup_insert, ?fn_lookup_alter, ?fn_lookup_insert_ne,
      ?fn_lookup_alter_ne by done; cbn; try done.
  all: by match goal with H : (_ && _) = _ |- _ => rewrite H end.
Qed.

(** ** The interrupt-enable bit *)

Lemma sie_clear x : Z.land (Z.land x (Z.lnot SSTATUS_SIE)) SSTATUS_SIE = 0.
Proof.
  rewrite <- Z.land_assoc, (Z.land_comm (Z.lnot _)), Z.land_lnot_diag. apply Z.land_0_r.
Qed.

Lemma sie_clear_twice x :
  Z.land (Z.land x (Z.lnot SSTATUS_SIE)) (Z.lnot SSTATUS_SIE)
  = Z.land x (Z.lnot SSTATUS_SIE).
Proof. by rewrite <- Z.land_assoc, Z.land_diag. Qed.

Lemma sie_off x : Z.land x SSTATUS_SIE = 0 -> Z.land x (Z.lnot SSTATUS_SIE) = x.
Proof.
  intros H. rewrite <- Z.ldiff_land. apply Z.bits_inj'. intros n Hn.
  rewrite Z.ldiff_spec. apply (f_equal (fun z => Z.testbit z n)) in H.
  rewrite Z.land_spec, Z.bits_0 in H. destruct (Z.testbit x n); [|done].
  cbn in *. by rewrite H.
Qed.

Lemma testbit_SIE n : Z.testbit SSTATUS_SIE n = bool_decide (n = 1).
Proof.
  unfold SSTATUS_SIE. destruct (decide (0 <= n)).
  - rewrite Z.pow2_bits_eqb by lia. case_bool_decide; subst; [done|].
    by apply Z.eqb_neq.
  - rewrite Z.testbit_neg_r by lia. by rewrite bool_decide_eq_false_2 by lia.
Qed.

Lemma sie_restore x :
  Z.land x SSTATUS_SIE <> 0 -> Z.lor (Z.land x (Z.lnot SSTATUS_SIE)) SSTATUS_SIE = x.
Proof.
  intros H. assert (Z.testbit x 1 = true) as Hb.
  { destruct (Z.testbit x 1) eqn:E; [done|]. destruct H. apply Z.bits_inj'.
    intros n Hn. rewrite Z.land_spec, testbit_SIE, Z.bits_0.
    case_bool_decide; subst; [by rewrite E|]. apply andb_false_r. }
  apply Z.bits_inj'. intros n Hn.
  rewrite Z.lor_spec, Z.land_spec, Z.lnot_spec, testbit_SIE by done.
  case_bool_decide; subst; [by rewrite Hb|]. cbn. by rewrite andb_true_r, orb_false_r.
Qed.

(** ** Lemmas on lock states *)

#[export] Instance lstate_perm : Proper ((≡ₚ) ==> (=) ==> (=) ==> iff) lstate.
Proof.
  assert (forall L L' l0 l, L ≡ₚ L' -> lstate L l0 l -> lstate L' l0 l) as H.
  { intros L L' l0 l HL []; split; auto.
    - by rewrite <- HL.
    - intros lk Hlk. apply ls_free0. by rewrite HL.
    - intros lk Hlk. apply ls_out0. by rewrite HL.
    - intros lk Hlk. apply ls_in0. by rewrite HL.
    - by rewrite <- (Permutation_length HL).
    - rewrite ls_sst0. destruct L, L'; try done.
      + by apply Permutation_nil_cons in HL.
      + symmetry in HL. by apply Permutation_nil_cons in HL. }
  intros L L' HL l0 ? <- l ? <-. split; apply H; done.
Qed.

Lemma lstate_refl l : ready l -> lstate [] l l.
Proof.
  intros Hr. split; try done; try set_solver; try (cbn; lia).
  - constructor.
  - intros. by rewrite (proj2 (Z.eqb_neq _ _)) by lia.
Qed.

Lemma lstate_noff L l0 l : lstate L l0 l -> 0 <= (cur_cpu l0).(c_noff).
Proof. intros []. by destruct ls_ready0. Qed.

Lemma lstate_lfree L l0 l lk : lstate L l0 l -> lk ∉ L -> lfree l0 lk -> lfree l lk.
Proof. intros [] HL. unfold lfree. by rewrite ls_out0. Qed.

Lemma acquire_lstate d L l0 l lk :
  lstate L l0 l -> lk ∉ L -> lfree l0 lk ->
  exists l', acquire lk (Kstate d l) = Ret tt (Kstate d l') /\ lstate (lk :: L) l0 l'.
Proof.
  intros Hl HL Hf. pose proof (lstate_lfree _ _ _ _ Hl HL Hf) as [Hk Hc].
  destruct (push_off_ok d l) as (l1 & Hp & []). destruct Hl.
  unfold acquire, acquire_enter. mcbn. rewrite Hp. cbn.
  unfold holding, mycpu, cpuid. mcbn. rewrite pu_locks0, Hk. cbn.
  unfold sync_lock_test_and_set, acquire_own, mycpu, cpuid. mcbn.
  rewrite pu_locks0, Hk. cbn. eexists. split; [done|]. cbn.
  assert (hartid l1 = hartid l0) as Hh by congruence.
  split; cbn; unfold cur_cpu, cur_sstatus in *; cbn in *; rewrite ?Hh in *; try done.
  - by constructor.
  - intros lk' [->|?]%elem_of_cons; auto.
  - intros lk' [??]%not_elem_of_cons. rewrite !fn_lookup_alter_ne by done.
    rewrite pu_locks0. auto.
  - intros lk' Hlk'. destruct (decide (lk = lk')) as [<-|].
    + rewrite !fn_lookup_alter. cbn. rewrite pu_locks0. by rewrite ls_out0.
    + rewrite !fn_lookup_alter_ne by done. rewrite pu_locks0. apply ls_in0.
      by apply elem_of_cons in Hlk' as [->|].
  - intros h Hne. rewrite pu_cpus0 by congruence. auto.
  - intros h Hne. rewrite pu_ssts0 by congruence. auto.
  - by rewrite pu_kthread0.
  - by rewrite pu_context0.
  - rewrite pu_noff0, ls_noff0. cbn. lia.
  - rewrite pu_sst0, ls_sst0. destruct L; [done|]. apply sie_clear_twice.
  - intros _. rewrite pu_intena0, ls_noff0, ls_sst0.
    destruct ls_ready0 as [Hn0 _]. unfold cur_cpu in Hn0.
    destruct L as [|x L]; cbn [length] in *.
    + replace (c_noff (cpus l0 (hartid l0)) + Z.of_nat 0)
        with (c_noff (cpus l0 (hartid l0))) by lia.
      destruct (Z.eqb_spec (c_noff (cpus l0 (hartid l0))) 0) as [E|E]; [done|].
      rewrite ls_intena0 by lia. done.
    + rewrite (proj2 (Z.eqb_neq _ _)) by lia. rewrite ls_intena0 by lia. done.
Qed.

Lemma release_lstate d L L' l0 l lk :
  L ≡ₚ lk :: L' -> lstate L l0 l ->
  exists l', release lk (Kstate d l) = Ret tt (Kstate d l') /\ lstate L' l0 l'.
Proof.
  intros HL Hl. rewrite HL in Hl. destruct Hl.
  assert (lk ∈ lk :: L') as Hin by set_solver.
  pose proof (ls_in0 lk Hin) as Hk. destruct (ls_free0 lk Hin) as [Hf1 Hf2].
  destruct ls_ready0 as [Hn0 Hoff]. cbn [length] in ls_noff0.
  unfold release, release_disown, holding, mycpu, cpuid. mcbn. rewrite Hk. cbn.
  rewrite ls_hart0, bool_decide_eq_true_2 by done. cbn.
  unfold sync_lock_release. mcbn.
  set (l1 := upd_lock lk (fun x => x <| lk_locked := 0 |>)
               (upd_lock lk (fun x => x <| lk_cpu := None |>) l)).
  change (rset lks _ (rset lks _ _)) with (Kstate d l1).
  destruct (pop_off_ok d l1) as (l' & Hp & []).
  { change (cur_sstatus l1) with (cur_sstatus l). rewrite ls_sst0. apply sie_clear. }
  { change (cur_cpu l1) with (cur_cpu l). lia. }
  change (cur_sstatus l1) with (cur_sstatus l) in *.
  change (cur_cpu l1) with (cur_cpu l) in *. change (hartid l1) with (hartid l) in *.
  change (cpus l1) with (cpus l) in *. change (sstatus l1) with (sstatus l) in *.
  eexists. split; [exact Hp|].
  assert (forall lk', lk' <> lk -> locks l' lk' = locks l lk') as Hother.
  { intros lk' ?. rewrite po_locks0. cbn. by rewrite !fn_lookup_alter_ne. }
  apply NoDup_cons in ls_nodup0 as [Hni Hnd].
  split; try done; try (by congruence).
  - intros lk' ?. apply ls_free0. by right.
  - intros lk' Hlk'. destruct (decide (lk' = lk)) as [->|].
    + rewrite po_locks0. cbn. rewrite !fn_lookup_alter, Hk. cbn.
      destruct (locks l0 lk); cbn in *. by rewrite Hf1, Hf2.
    + rewrite Hother by done. apply ls_out0. by apply not_elem_of_cons.
  - intros lk' Hlk'. rewrite Hother by (by intros ->). apply ls_in0. by right.
  - intros h ?. rewrite po_cpus0 by congruence. auto.
  - intros h ?. rewrite po_ssts0 by congruence. auto.
  - rewrite po_noff0. lia.
  - rewrite po_sst0, ls_sst0. rewrite ls_noff0. rewrite ls_intena0 by lia.
    destruct L' as [|x L']; cbn [length].
    + destruct (decide (c_noff (cur_cpu l0) = 0)) as [E|E].
      * rewrite E. cbn. unfold sie. destruct (ctrue (Z.land _ _)) eqn:C; cbn.
        -- apply sie_restore. by apply ctrue_true.
        -- apply sie_off. by apply ctrue_false.
      * rewrite (proj2 (Z.eqb_neq _ 1)) by lia. cbn. apply sie_off, Hoff. lia.
    + by rewrite (proj2 (Z.eqb_neq _ 1)) by lia.
  - intros. rewrite po_intena0. apply ls_intena0. lia.
Qed.

(** [push_off] followed by [pop_off] leaves the lock state as it was. *)
Lemma lstate_off L l0 l :
  lstate L l0 l -> 0 < (cur_cpu l).(c_noff) -> Z.land (cur_sstatus l) SSTATUS_SIE = 0.
Proof.
  intros [] Hn. rewrite ls_sst0. destruct L; [|apply sie_clear].
  apply ls_ready0. cbn in *. lia.
Qed.

Lemma lstate_noff_pos L l0 l : lstate L l0 l -> 0 <= (cur_cpu l).(c_noff).
Proof. intros []. destruct ls_ready0. rewrite ls_noff0. lia. Qed.

Lemma push_pop_lstate L l0 l l1 l2 :
  lstate L l0 l -> pushed l l1 -> popped l1 l2 -> lstate L l0 l2.
Proof.
  intros Hl [] []. pose proof (lstate_off _ _ _ Hl) as Hoff.
  assert (hartid l1 = hartid l) as Hh by done.
  pose proof (lstate_noff_pos _ _ _ Hl) as Hn.
  assert (cur_sstatus l2 = cur_sstatus l) as Es.
  { rewrite po_sst0, pu_sst0, pu_noff0, pu_intena0.
    destruct (decide (c_noff (cur_cpu l) = 0)) as [E|E].
    - rewrite E. cbn. unfold sie. destruct (ctrue (Z.land _ _)) eqn:C; cbn.
      + apply sie_restore. by apply ctrue_true.
      + apply sie_off. by apply ctrue_false.
    - rewrite (proj2 (Z.eqb_neq _ 1)) by lia. cbn. apply sie_off, Hoff. lia. }
  destruct Hl. split; try done; try congruence.
  - intros lk ?. rewrite po_locks0, pu_locks0. auto.
  - intros lk ?. rewrite po_locks0, pu_locks0. auto.
  - intros h ?. rewrite po_cpus0, pu_cpus0 by congruence. auto.
  - intros h ?. rewrite po_ssts0, pu_ssts0 by congruence. auto.
  - rewrite po_noff0, pu_noff0, ls_noff0. lia.
  - intros Hp. rewrite po_intena0, pu_intena0. rewrite po_noff0, pu_noff0 in Hp.
    rewrite (proj2 (Z.eqb_neq _ 0)) by lia. apply ls_intena0. lia.
Qed.

(** ** Rules of the judgement *)

Section rules.
Context (l0 : lockst).

Lemma ev_ret {A} (a : A) L d : evals l0 L d (mret a) a L d.
Proof. intros s Hl Hd. by exists s. Qed.

Lemma ev_bind {A B} (m : M A) (f : A -> M B) L d a L1 d1 b L2 d2 :
  evals l0 L d m a L1 d1 -> evals l0 L1 d1 (f a) b L2 d2 ->
  evals l0 L d (m ≫= f) b L2 d2.
Proof.
  intros H1 H2 s Hl Hd. destruct (H1 s Hl Hd) as (s1 & E1 & Hl1 & Hd1).
  destruct (H2 s1 Hl1 Hd1) as (s2 & E2 & ?). exists s2. split; [|done].
  unfold mbind, M_bind. by rewrite E1.
Qed.

Lemma ev_bind_panic {A B} (m : M A) (f : A -> M B) L d a L1 d1 msg :
  evals l0 L d m a L1 d1 -> evals_panic l0 L1 d1 (f a) msg ->
  evals_panic l0 L d (m ≫= f) msg.
Proof.
  intros H1 H2 s Hl Hd. destruct (H1 s Hl Hd) as (s1 & E1 & Hl1 & Hd1).
  unfold mbind, M_bind. rewrite E1. by apply H2.
Qed.

Lemma ev_panic_bind {A B} (m : M A) (f : A -> M B) L d msg :
  evals_panic l0 L d m msg -> evals_panic l0 L d (m ≫= f) msg.
Proof. intros H s Hl Hd. unfold mbind, M_bind. by rewrite (H s Hl Hd). Qed.

Lemma ev_panic {A} L d msg : evals_panic l0 L d (@panic A msg) msg.
Proof. by intros s ??. Qed.

Lemma ev_bind_swtch {A B} (m : M A) (f : A -> M B) L d a L1 d1 L2 d2 P :
  evals l0 L d m a L1 d1 -> evals_swtch l0 L1 d1 (f a) L2 d2 P ->
  evals_swtch l0 L d (m ≫= f) L2 d2 P.
Proof.
  intros H1 H2 s Hl Hd. destruct (H1 s Hl Hd) as (s1 & E1 & Hl1 & Hd1).
  destruct (H2 s1 Hl1 Hd1) as (s2 & k & E2 & ?). exists s2, k. split; [|done].
  unfold mbind, M_bind. by rewrite E1.
Qed.

Lemma ev_swtch_bind {A B} (m : M A) (f : A -> M B) L d L1 d1 P :
  evals_swtch l0 L d m L1 d1 (fun k => P (fun s => rbind (k s) f)) ->
  evals_swtch l0 L d (m ≫= f) L1 d1 P.
Proof.
  intros H s Hl Hd. destruct (H s Hl Hd) as (s1 & k & E & ? & ? & ?).
  exists s1, (fun s => rbind (k s) f). unfold mbind, M_bind. by rewrite E.
Qed.

Lemma ev_bind_spin {A B} (m : M A) (f : A -> M B) L d a L1 d1 lk L2 d2 :
  evals l0 L d m a L1 d1 -> evals_spin l0 L1 d1 (f a) lk L2 d2 ->
  evals_spin l0 L d (m ≫= f) lk L2 d2.
Proof.
  intros H1 H2 s Hl Hd. destruct (H1 s Hl Hd) as (s1 & E1 & Hl1 & Hd1).
  destruct (H2 s1 Hl1 Hd1) as (s2 & E2 & ?). exists s2. split; [|done].
  unfold mbind, M_bind. by rewrite E1.
Qed.

Lemma ev_spin_bind {A B} (m : M A) (f : A -> M B) L d lk L1 d1 :
  evals_spin l0 L d m lk L1 d1 -> evals_spin l0 L d (m ≫= f) lk L1 d1.
Proof.
  intros H s Hl Hd. destruct (H s Hl Hd) as (s1 & E & ?). exists s1. split; [|done].
  unfold mbind, M_bind. by rewrite E.
Qed.

Lemma ev_getd {A} (f : kdata -> A) L d : evals l0 L d (getd f) (f d) L d.
Proof. intros s Hl <-. by exists s. Qed.

Lemma ev_modd f L d : evals l0 L d (modd f) tt L (f d).
Proof. intros [d' l] Hl [= <-]. by eexists. Qed.

Lemma ev_deref {A} (a : A) L d : evals l0 L d (deref (Some a)) a L d.
Proof. apply ev_ret. Qed.

Lemma ev_acquire lk L d :
  lk ∉ L -> lfree l0 lk -> evals l0 L d (acquire lk) tt (lk :: L) d.
Proof.
  intros ?? [d' l] Hl [= <-].
  destruct (acquire_lstate d' L l0 l lk) as (l' & E & ?); [done..|].
  rewrite E. by eexists.
Qed.

Lemma ev_release lk L L' d :
  L ≡ₚ lk :: L' -> evals l0 L d (release lk) tt L' d.
Proof.
  intros ? [d' l] Hl [= <-].
  destruct (release_lstate d' L L' l0 l lk) as (l' & E & ?); [done..|].
  rewrite E. by eexists.
Qed.

(** Taking a lock that another hart holds waits for it. *)
Lemma ev_acquire_taken lk L d : lk ∉ L -> ltaken l0 lk -> evals_spin l0 L d (acquire lk) lk L d.
Proof.
  intros Hin [Hk Hc] [d' l] Hl [= <-]. destruct (push_off_ok d' l) as (l1 & Hp & []).
  destruct Hl. cbn in *. unfold acquire, acquire_enter. mcbn. rewrite Hp. cbn.
  unfold holding, mycpu, cpuid. mcbn. rewrite pu_locks0, ls_out0, Hk by done. cbn.
  rewrite bool_decide_eq_false_2 by congruence. cbn. unfold sync_lock_test_and_set. mcbn.
  rewrite pu_locks0, ls_out0, Hk by done. cbn. eexists. split; [done|]. cbn. split; [done|]. rewrite pu_locks0.
  split; intros x Hx; (destruct (decide (lk = x)) as [<-|]; [|by rewrite fn_lookup_alter_ne; auto]); [|done].
  rewrite fn_lookup_alter, ls_out0 by done. revert Hk. destruct (locks l0 lk). cbn. by intros ->.
Qed.

(** Taking a lock that this hart already holds panics. *)
Lemma ev_acquire_held lk L d : lk ∈ L -> evals_panic l0 L d (acquire lk) "acquire".
Proof.
  intros Hin [d' l] Hl [= <-]. destruct (push_off_ok d' l) as (l1 & Hp & []).
  destruct Hl. unfold acquire, acquire_enter. mcbn. cbn in Hp. rewrite Hp. cbn.
  unfold holding, mycpu, cpuid. mcbn. rewrite pu_locks0, ls_in0 by done. cbn.
  rewrite bool_decide_eq_true_2; [done|]. cbn in *. congruence.
Qed.

(** Releasing a lock that this hart does not hold panics. *)
Lemma ev_release_free lk L d :
  lk ∉ L -> lfree l0 lk -> evals_panic l0 L d (release lk) "release".
Proof.
  intros Hin [Hf _] [d' l] Hl [= <-]. destruct Hl. cbn in *.
  unfold release, release_disown, holding, mycpu, cpuid. mcbn.
  by rewrite ls_out0, Hf by done.
Qed.

Lemma ev_holding lk L d : lk ∈ L -> evals l0 L d (holding lk) 1 L d.
Proof.
  intros Hin [d' l] Hl [= <-]. exists (Kstate d' l). split; [|done]. destruct Hl. cbn in *.
  unfold holding, mycpu, cpuid. mcbn. rewrite ls_in0 by done. cbn.
  by rewrite ls_hart0, bool_decide_eq_true_2.
Qed.

Lemma ev_holding_not lk L d : lk ∉ L -> lfree l0 lk -> evals l0 L d (holding lk) 0 L d.
Proof.
  intros Hin [Hf _] [d' l] Hl [= <-]. exists (Kstate d' l). split; [|done]. destruct Hl. cbn in *.
  unfold holding, mycpu, cpuid. mcbn. by rewrite ls_out0, Hf.
Qed.

(** The nesting depth counts the locks, and with a positive depth interrupts are off. *)
Lemma ev_mycpu_noff L d :
  evals l0 L d (c ← mycpu; getl (fun l => (l.(cpus) c).(c_noff)))
    ((cur_cpu l0).(c_noff) + Z.of_nat (length L)) L d.
Proof.
  intros [d' l] Hl [= <-]. exists (Kstate d' l). split; [|done].
  rewrite <- (ls_noff _ _ _ Hl). done.
Qed.

Lemma ev_intr_get_off L d : L <> [] -> evals l0 L d intr_get 0 L d.
Proof.
  intros HL [d' l] Hl [= <-]. exists (Kstate d' l). split; [|done].
  unfold intr_get, r_sstatus. mcbn. change (sstatus l (hartid l)) with (cur_sstatus l).
  rewrite (lstate_off L l0 l Hl); [done|]. cbn in Hl.
  rewrite (ls_noff _ _ _ Hl). pose proof (proj1 (ls_ready _ _ _ Hl)).
  destruct L; [done|cbn; lia].
Qed.

Lemma ev_when (b : bool) (m : M unit) L d d' :
  (b = true -> evals l0 L d m tt L d') -> (b = false -> d' = d) ->
  evals l0 L d (when b m) tt L d'.
Proof. destruct b; intros H1 H2; [by apply H1|]. rewrite H2 by done. apply ev_ret. Qed.

(** The pointer to the running thread is not affected by locks. *)
Lemma lstate_cur_kthread L l :
  lstate L l0 l -> (cur_cpu l).(c_kthread) = (cur_cpu l0).(c_kthread).
Proof. by intros []. Qed.

(** A loop that leaves the locks alone folds its effect on the data. *)
Lemma ev_forM {I} (l : list I) (f : I -> M unit) (g : I -> kdata -> kdata) L d :
  (forall i d, i ∈ l -> evals l0 L d (f i) tt L (g i d)) ->
  evals l0 L d (forM l f) tt L (foldl (fun d i => g i d) d l).
Proof.
  revert d. induction l as [|i l IH]; intros d H; cbn [forM foldl]; [apply ev_ret|].
  eapply ev_bind; [apply H; by left|]. apply IH. intros. apply H. by right.
Qed.

(** A loop that keeps a property of the data. *)
Lemma ev_forM_inv {I} (P : kdata -> Prop) (l : list I) (f : I -> M unit) L d :
  (forall j d, j ∈ l -> P d -> exists d', P d' /\ evals l0 L d (f j) tt L d') -> P d ->
  exists d', P d' /\ evals l0 L d (forM l f) tt L d'.
Proof.
  intros H. revert d. induction l as [|j l IH]; intros d HP; cbn [forM]; [exists d; split; [done|apply ev_ret]|].
  destruct (H j d) as (d1 & HP1 & H1); [by left|done|]. destruct IH with (d := d1) as (d' & HP' & H'); [intros; apply H; [by right|done]|done|].
  exists d'. split; [done|]. by eapply ev_bind.
Qed.

(** A loop that waits for a lock at [i]. *)
Lemma ev_forM_spin {I} (P : kdata -> Prop) (l1 l2 : list I) i (f : I -> M unit) lk L d :
  (forall j d, j ∈ l1 -> P d -> exists d', P d' /\ evals l0 L d (f j) tt L d') ->
  (forall d, P d -> exists d', P d' /\ evals_spin l0 L d (f i) lk L d') -> P d ->
  exists d', P d' /\ evals_spin l0 L d (forM (l1 ++ i :: l2) f) lk L d'.
Proof.
  intros H1 H2. revert d. induction l1 as [|j l1 IH]; intros d HP; cbn [forM app].
  - destruct (H2 d HP) as (d' & HP' & H). exists d'. split; [done|]. by apply ev_spin_bind.
  - destruct (H1 j d) as (d1 & HP1 & H); [by left|done|]. destruct IH with (d := d1) as (d' & HP' & H'); [intros; apply H1; [by right|done]|done|].
    exists d'. split; [done|]. by eapply ev_bind_spin.
Qed.

(** A scan that finds nothing in [l1] and stops at [i]. *)
Lemma ev_scan_found {I R} (l1 l2 : list I) i (f : I -> M (option R)) r L L' d d' :
  (forall j, j ∈ l1 -> evals l0 L d (f j) None L d) ->
  evals l0 L d (f i) (Some r) L' d' ->
  evals l0 L d (scanM (l1 ++ i :: l2) f) (Some r) L' d'.
Proof.
  intros H1 Hi. induction l1 as [|j l1 IH]; cbn [scanM app].
  - eapply ev_bind; [apply Hi|]. apply ev_ret.
  - eapply ev_bind; [apply H1; by left|]. apply IH. intros. apply H1. by right.
Qed.

Lemma ev_scan_none {I R} (l : list I) (f : I -> M (option R)) L d :
  (forall j, j ∈ l -> evals l0 L d (f j) None L d) ->
  evals l0 L d (scanM l f) None L d.
Proof.
  intros H. induction l as [|j l IH]; cbn [scanM]; [apply ev_ret|].
  eapply ev_bind; [apply H; by left|]. apply IH. intros. apply H. by right.
Qed.
End rules.

(** ** Automation for the judgement *)

Lemma evals_eq {A} l0 L d (m : M A) a L' d' a2 L2 d2 :
  evals l0 L d m a L' d' -> a = a2 -> L' = L2 -> d' = d2 ->
  evals l0 L d m a2 L2 d2.
Proof. by intros ? <- <- <-. Qed.

(** [lk ∉ L] for a list of explicit locks on top of an abstract one. *)
Ltac notin :=
  repeat first [ assumption | apply not_elem_of_nil
               | apply not_elem_of_cons; split; [try congruence|] ]; try done.

(** One step of symbolic evaluation. *)
Ltac ev1 :=
  cbn beta iota;
  lazymatch goal with
  | |- evals _ _ _ (mret _) _ _ _ => apply ev_ret
  | |- evals _ _ _ (M_ret _ _) _ _ _ => apply ev_ret
  | |- evals _ _ _ (_ ≫= _) _ _ _ => eapply ev_bind
  | |- evals _ _ _ (getd _) _ _ _ => apply ev_getd
  | |- evals _ _ _ (modd _) _ _ _ => apply ev_modd
  | |- evals _ _ _ (deref (Some _)) _ _ _ => apply ev_deref
  | |- evals _ _ _ (acquire _) _ _ _ => apply ev_acquire; [notin|try assumption]
  | |- evals _ _ _ (release _) _ _ _ => eapply ev_release; reflexivity
  | |- evals_panic _ _ _ (panic _) _ => apply ev_panic
  end.
Ltac ev := repeat ev1.

(** ** Mutual exclusion

    Several harts take and release one lock.  Their steps interleave at the
    granularity of the accesses to the lock; [Mutex.step] runs one of the parts
    of [acquire] and [release] on some hart. *)

Module Mutex.

Inductive pc := Out | Entered | Swapped | Held | Disowned | Freed.

#[export] Instance pc_eq_dec : EqDecision pc.
Proof. solve_decision. Defined.

(** The section of the code in which the hart owns the lock. *)
Definition in_cs (p : pc) : bool :=
  match p with Swapped | Held | Disowned => true | _ => false end.

Record sys := Sys { sys_k : kstate; sys_pc : nat -> pc }.

(** Execute on hart [h]. *)
Definition on_hart (h : nat) (k : kstate) : kstate :=
  k <| lks ::= fun l => l <| hartid := h |> |>.

Inductive step (lk : lockptr) : sys -> sys -> Prop :=
| step_enter h k k' p :
    p h = Out -> acquire_enter lk (on_hart h k) = Ret tt k' ->
    step lk (Sys k p) (Sys k' (<[h := Entered]> p))
| step_retry h k k' p old :
    p h = Entered -> sync_lock_test_and_set lk (on_hart h k) = Ret old k' ->
    ctrue old = true -> step lk (Sys k p) (Sys k' p)
| step_swap h k k' p old :
    p h = Entered -> sync_lock_test_and_set lk (on_hart h k) = Ret old k' ->
    ctrue old = false -> step lk (Sys k p) (Sys k' (<[h := Swapped]> p))
| step_own h k k' p :
    p h = Swapped -> acquire_own lk (on_hart h k) = Ret tt k' ->
    step lk (Sys k p) (Sys k' (<[h := Held]> p))
| step_disown h k k' p :
    p h = Held -> release_disown lk (on_hart h k) = Ret tt k' ->
    step lk (Sys k p) (Sys k' (<[h := Disowned]> p))
| step_free h k k' p :
    p h = Disowned -> sync_lock_release lk (on_hart h k) = Ret tt k' ->
    step lk (Sys k p) (Sys k' (<[h := Freed]> p))
| step_pop h k k' p :
    p h = Freed -> pop_off (on_hart h k) = Ret tt k' ->
    step lk (Sys k p) (Sys k' (<[h := Out]> p)).

(** Initially the lock is free and no hart is inside [acquire] or [release]. *)
Definition initial (lk : lockptr) (x : sys) : Prop :=
  lfree x.(sys_k).(lks) lk /\ forall h, x.(sys_pc) h = Out.

(** [lk->locked] says whether some hart owns the lock, [lk->cpu] which one once
    it has recorded itself. *)
Definition inv (lk : lockptr) (x : sys) : Prop :=
  exists owner : option nat,
    (forall h, in_cs (x.(sys_pc) h) = true <-> owner = Some h) /\
    (x.(sys_k).(lks).(locks) lk).(lk_locked) = match owner with Some _ => 1 | None => 0 end /\
    (x.(sys_k).(lks).(locks) lk).(lk_cpu) =
      match owner with
      | Some h => if decide (x.(sys_pc) h = Held) then Some h else None
      | None => None
      end.

Lemma holding_eq lk h k :
  holding lk (on_hart h k) =
    Ret (cbool (ctrue (k.(lks).(locks) lk).(lk_locked) &&
                bool_decide ((k.(lks).(locks) lk).(lk_cpu) = Some h))) (on_hart h k).
Proof. done. Qed.

Lemma enter_locks lk h k k' :
  acquire_enter lk (on_hart h k) = Ret tt k' -> k'.(lks).(locks) = k.(lks).(locks).
Proof.
  unfold acquire_enter. mcbn. destruct k as [d l].
  destruct (push_off_ok d (l <| hartid := h |>)) as (l1 & Hp & []). cbn in Hp.
  change (on_hart h (Kstate d l)) with (Kstate d (l <| hartid := h |>)).
  rewrite Hp. cbn. unfold holding, mycpu, cpuid. mcbn.
  case_goal; [done|]. cbn. by intros [= <-].
Qed.

Lemma pop_locks h k k' : pop_off (on_hart h k) = Ret tt k' -> k'.(lks).(locks) = k.(lks).(locks).
Proof.
  destruct k as [d l]. unfold pop_off, intr_get, r_sstatus, mycpu, cpuid. mcbn.
  case_goal; [done|]. case_goal; [done|]. mcbn.
  case_goal; cbn; unfold intr_on, r_sstatus, w_sstatus; mcbn; by intros [= <-].
Qed.

Lemma inv_same lk k k' p p' :
  k'.(lks).(locks) = k.(lks).(locks) ->
  (forall h, in_cs (p' h) = in_cs (p h)) -> (forall h, p' h = Held <-> p h = Held) ->
  inv lk (Sys k p) -> inv lk (Sys k' p').
Proof.
  intros Hl Hp Hh (o & H1 & H2 & H3). exists o. cbn in *. rewrite Hl. split; [|split].
  - intros h. by rewrite Hp.
  - done.
  - rewrite H3. destruct o as [h|]; [|done]. specialize (Hh h).
    repeat case_dec; tauto.
Qed.

Lemma inv_step lk x y : inv lk x -> step lk x y -> inv lk y.
Proof.
  intros Hi Hs. inversion Hs as [h k k' p Hp E|h k k' p old Hp E Ho|h k k' p old Hp E Ho
    |h k k' p Hp E|h k k' p Hp E|h k k' p Hp E|h k k' p Hp E]; subst.
  - eapply inv_same; [by eapply enter_locks| | |done]; intros h'; rewrite fn_insert_case;
      case_dec; subst; rewrite ?Hp; done.
  - unfold sync_lock_test_and_set in E. revert E. mcbn. intros [= Hold <-].
    destruct Hi as (o & H1 & H2 & H3). exists o. cbn in *.
    rewrite fn_lookup_alter. cbn. split; [done|]. split; [|done].
    rewrite H2 in Hold. destruct o; [done|]. by subst.
  - unfold sync_lock_test_and_set in E. revert E. mcbn. intros [= Hold <-].
    destruct Hi as (o & H1 & H2 & H3). cbn in *. destruct o; [by subst; rewrite H2 in Ho|].
    exists (Some h). cbn. rewrite fn_lookup_alter. cbn. split; [|split; [done|]].
    + intros h'. rewrite fn_insert_case. case_dec; subst; cbn; [done|].
      rewrite H1. split; congruence.
    + rewrite fn_lookup_insert, H3. by rewrite decide_False.
  - unfold acquire_own, mycpu, cpuid in E. revert E. mcbn. intros [= <-].
    destruct Hi as (o & H1 & H2 & H3). cbn in *.
    assert (o = Some h) as -> by (apply H1; by rewrite Hp).
    exists (Some h). cbn. rewrite fn_lookup_alter. cbn. split; [|split; [done|]].
    + intros h'. rewrite fn_insert_case. case_dec; subst; cbn; [done|]. by rewrite H1.
    + rewrite fn_lookup_insert. by rewrite decide_True.
  - revert E. unfold release_disown. mcbn. rewrite holding_eq. cbn.
    case_goal; [done|]. intros [= <-]. destruct Hi as (o & H1 & H2 & H3). cbn in *.
    assert (o = Some h) as -> by (apply H1; by rewrite Hp).
    exists (Some h). cbn. rewrite fn_lookup_alter. cbn. split; [|split; [done|]].
    + intros h'. rewrite fn_insert_case. case_dec; subst; cbn; [done|]. by rewrite H1.
    + rewrite fn_lookup_insert. by rewrite decide_False.
  - unfold sync_lock_release in E. revert E. mcbn. intros [= <-].
    destruct Hi as (o & H1 & H2 & H3). cbn in *.
    assert (o = Some h) as -> by (apply H1; by rewrite Hp).
    exists None. cbn. rewrite fn_lookup_alter. cbn. split; [|split; [done|]].
    + intros h'. rewrite fn_insert_case. case_dec; subst; cbn; [done|]. rewrite H1.
      split; congruence.
    + rewrite H3. by rewrite decide_False by (by rewrite Hp).
  - eapply inv_same; [by eapply pop_locks| | |done]; intros h'; rewrite fn_insert_case;
      case_dec; subst; rewrite ?Hp; done.
Qed.

Lemma inv_initial lk x : initial lk x -> inv lk x.
Proof.
  intros [[H1 H2] Hp]. exists None. split; [|done]. intros h. by rewrite Hp.
Qed.

Lemma inv_reachable lk x y : initial lk x -> rtc (step lk) x y -> inv lk y.
Proof. intros Hi%inv_initial. induction 1; eauto using inv_step. Qed.

(** C1: Two harts are never both inside the critical section of a lock. *)
Theorem mutual_exclusion lk x y h1 h2 :
  initial lk x -> rtc (step lk) x y ->
  in_cs (y.(sys_pc) h1) = true -> in_cs (y.(sys_pc) h2) = true -> h1 = h2.
Proof.
  intros Hi Hr H1 H2. destruct (inv_reachable _ _ _ Hi Hr) as (o & Ho & _).
  apply Ho in H1, H2. congruence.
Qed.

(** Hart 0 takes the lock while hart 1 spins on it. *)
Definition demo_contention (lk : lockptr) (x y : sys) : Prop :=
  initial lk x /\ rtc (step lk) x y /\ y.(sys_pc) 0%nat = Held /\ y.(sys_pc) 1%nat = Entered.

Lemma demo_contention_run :
  demo_contention kmem_lock (Sys kstate0 (fun _ => Out))
    (Sys (match acquire_enter kmem_lock (on_hart 0 kstate0) with
          | Ret _ k =>
              match acquire_enter kmem_lock (on_hart 1 k) with
              | Ret _ k =>
                  match sync_lock_test_and_set kmem_lock (on_hart 0 k) with
                  | Ret _ k =>
                      match sync_lock_test_and_set kmem_lock (on_hart 1 k) with
                      | Ret _ k =>
                          match acquire_own kmem_lock (on_hart 0 k) with
                          | Ret _ k => k | _ => kstate0 end
                      | _ => kstate0 end
                  | _ => kstate0 end
              | _ => kstate0 end
          | _ => kstate0 end)
       (<[0%nat := Held]> (<[0%nat := Swapped]> (<[1%nat := Entered]>
          (<[0%nat := Entered]> (fun _ => Out)))))).
Proof.
  split; [done|]. split; [|done].
  eapply rtc_l; [by apply (step_enter _ 0%nat)|]. eapply rtc_l; [by apply (step_enter _ 1%nat)|].
  eapply rtc_l; [by eapply (step_swap _ 0%nat)|]. eapply rtc_l; [by eapply (step_retry _ 1%nat)|].
  eapply rtc_l; [by apply (step_own _ 0%nat)|]. apply rtc_refl.
Qed.

Lemma mutual_exclusion_witness :
  exists x y, demo_contention kmem_lock x y /\
    forall h, in_cs (y.(sys_pc) h) = true -> h = 0%nat.
Proof.
  eexists _, _. split; [apply demo_contention_run|]. intros h Hh.
  destruct demo_contention_run as (Hi & Hr & _).
  eapply (mutual_exclusion kmem_lock _ _ h 0%nat Hi Hr Hh). reflexivity.
Defined.

(** The sanity checks of [acquire] and [release] never fire: a hart outside of
    the lock passes the check of [acquire], a hart that holds it the check of
    [release]. *)
Theorem checks_pass lk x y h :
  initial lk x -> rtc (step lk) x y ->
  (y.(sys_pc) h = Out -> ~ panics (acquire_enter lk) (on_hart h y.(sys_k)) "acquire") /\
  (y.(sys_pc) h = Held -> ~ panics (release_disown lk) (on_hart h y.(sys_k)) "release").
Proof.
  intros Hi Hr. destruct (inv_reachable _ _ _ Hi Hr) as (o & Ho & Hl & Hc).
  destruct y as [[d l] p]. cbn in *. unfold panics. split; intros Hp.
  - unfold acquire_enter. mcbn.
    destruct (push_off_ok d (l <| hartid := h |>)) as (l1 & E & []). cbn in E.
    change (on_hart h (Kstate d l)) with (Kstate d (l <| hartid := h |>)). rewrite E. cbn.
    unfold holding, mycpu, cpuid. mcbn. rewrite pu_locks0, pu_hart0. cbn. rewrite Hc, Hl.
    destruct o as [h'|]; [|done]. destruct (decide (p h' = Held)) as [Hh|Hh]; cbn; [|done].
    rewrite bool_decide_eq_false_2; [done|]. intros [= ->]. congruence.
  - unfold release_disown. mcbn. rewrite holding_eq. cbn. rewrite Hc, Hl.
    assert (o = Some h) as -> by (apply Ho; by rewrite Hp).
    rewrite decide_True by done. by rewrite bool_decide_eq_true_2.
Qed.

Lemma checks_pass_witness :
  exists x y, demo_contention kmem_lock x y /\
    ~ panics (release_disown kmem_lock) (on_hart 0 y.(sys_k)) "release".
Proof.
  eexists _, _. split; [apply demo_contention_run|].
  destruct demo_contention_run as (Hi & Hr & _).
  apply (checks_pass kmem_lock _ _ 0%nat Hi Hr). reflexivity.
Defined.

End Mutex.
