(* ===== verification/Kalloc.v ===== *)
(** * The physical page allocator (kernel/kalloc.c)

    The free list is threaded through the free pages themselves: [freelist] is
    the address of the first free page, the first eight bytes of a free page are
    the address of the next.  [kmem_inv d l] says that the list is [l]. *)
From S2P Require Export Spinlock Paging.

Section kalloc.
Context `{KI : KernelImage}.

Definition kfree (pa : Z) : M unit :=
  if negb (pa mod PGSIZE =? 0) || (pa <? k_end) || (PHYSTOP <=? pa)
  then panic "kfree" else
  (* Fill with junk to catch dangling refs. *)
  modd (fun d => d <| mem ::= fun m => memset m pa 1 PGSIZE |>);;
  let r := pa in
  acquire kmem_lock;;
  modd (fun d => d <| mem ::= fun m => store64 m r d.(freelist) |>);;
  modd (fun d => d <| freelist := r |>);;
  release kmem_lock.

Definition kalloc : M Z :=
  acquire kmem_lock;;
  r ← getd freelist;
  when (ctrue r) (modd (fun d => d <| freelist := load64 d.(mem) r |>));;
  release kmem_lock;;
  when (ctrue r) (modd (fun d => d <| mem ::= fun m => memset m r 5 PGSIZE |>));;
  mret r.

(** [fuel] bounds the iterations; [freerange] gives one per page of the range. *)
Fixpoint freerange_loop (fuel : nat) (p pa_end : Z) : M unit :=
  if p + PGSIZE <=? pa_end then
    match fuel with
    | O => diverge
    | S fuel => kfree p;; freerange_loop fuel (p + PGSIZE) pa_end
    end
  else mret tt.

Definition freerange (pa_start pa_end : Z) : M unit :=
  let p := PGROUNDUP pa_start in
  freerange_loop (Z.to_nat ((pa_end - p) / PGSIZE)) p pa_end.

Definition kinit : M unit :=
  initlock kmem_lock "kmem";;
  freerange k_end PHYSTOP.

(** ** The free list *)

(** A page that the allocator may hand out. *)
Definition page_ok (p : Z) : Prop := p mod PGSIZE = 0 /\ k_end <= p < PHYSTOP.

Fixpoint is_freelist (m : bytes) (head : Z) (l : list Z) : Prop :=
  match l with
  | [] => head = 0
  | p :: l => head = p /\ page_ok p /\ is_freelist m (load64 m p) l
  end.

Definition kmem_inv (d : kdata) (l : list Z) : Prop :=
  is_freelist d.(mem) d.(freelist) l /\ NoDup l.

(** Memory outside of the page [p] is the same. *)
Definition same_outside (p : Z) (m m' : bytes) : Prop :=
  forall x, x < p \/ p + PGSIZE <= x -> m' x = m x.

(** The data after [kfree pa] and after [kalloc] returned [p]. *)
Definition kfree_d (pa : Z) (d : kdata) : kdata :=
  d <| mem := store64 (memset d.(mem) pa 1 PGSIZE) pa d.(freelist) |>
    <| freelist := pa |>.
Definition kalloc_d (p : Z) (d : kdata) : kdata :=
  d <| freelist := load64 d.(mem) p |> <| mem := memset d.(mem) p 5 PGSIZE |>.

(** The pages from [p] on, [n] of them. *)
Definition page_seq (p : Z) (n : nat) : list Z :=
  (fun i => p + Z.of_nat i * PGSIZE) <$> seq 0 n.

(** ** Lemmas *)

Lemma page_seq_S p n : page_seq p (S n) = p :: page_seq (p + PGSIZE) n.
Proof.
  unfold page_seq. cbn [seq fmap list_fmap]. f_equal; [lia|].
  rewrite <- seq_shift, <- list_fmap_compose. apply list_fmap_ext. intros. cbn. lia.
Qed.

Lemma pages_disjoint p q :
  p mod PGSIZE = 0 -> q mod PGSIZE = 0 -> p <> q ->
  p + PGSIZE <= q \/ q + PGSIZE <= p.
Proof. unfold PGSIZE. intros. Z.div_mod_to_equations. lia. Qed.

Context {KIok : KernelImageOk}.

Lemma page_ok_pos p : page_ok p -> 0 < p < 2 ^ 64.
Proof.
  intros [_ ?]. pose proof k_end_bound. unfold PHYSTOP, KERNBASE in *. lia.
Qed.

Lemma same_outside_refl p m : same_outside p m m.
Proof. by intros x ?. Qed.

Lemma is_freelist_same m m' head l p :
  p mod PGSIZE = 0 -> same_outside p m m' -> p ∉ l ->
  is_freelist m head l -> is_freelist m' head l.
Proof.
  intros Hp Hm. revert head. induction l as [|q l IH]; intros head Hn; [done|].
  cbn. intros (-> & Hq & Hl). apply not_elem_of_cons in Hn as [Hpq Hn].
  split; [done|]. split; [done|].
  assert (load64 m' q = load64 m q) as ->; [|by apply IH].
  apply load64_ext. intros i Hi. apply Hm.
  destruct Hq as [Hq _]. pose proof (pages_disjoint p q Hp Hq Hpq).
  unfold PGSIZE in *. lia.
Qed.

Lemma is_freelist_ok m head l : is_freelist m head l -> Forall page_ok l.
Proof.
  revert head. induction l as [|p l IH]; intros head; [constructor|].
  intros (-> & ? & ?). constructor; eauto.
Qed.

Lemma kfree_mem_outside pa d : same_outside pa d.(mem) (kfree_d pa d).(mem).
Proof.
  intros x Hx. cbn. rewrite store64_out, memset_out; unfold PGSIZE in *; [done|lia..].
Qed.

Lemma kfree_inv pa d l :
  page_ok pa -> pa ∉ l -> kmem_inv d l -> kmem_inv (kfree_d pa d) (pa :: l).
Proof.
  intros Hp Hn [Hl Hd]. split; [|by constructor]. split; [done|]. split; [done|].
  assert (0 <= freelist d < 2 ^ 64) as Hf.
  { destruct l as [|q l]; cbn in Hl; [lia|]. destruct Hl as (-> & Hq & _).
    pose proof (page_ok_pos q Hq). lia. }
  replace (load64 (mem (kfree_d pa d)) pa) with (freelist d)
    by (cbn; by rewrite load64_store64).
  destruct Hp as [Hp _].
  eapply is_freelist_same; [exact Hp|apply kfree_mem_outside|done|done].
Qed.

Lemma kalloc_mem_outside p d : same_outside p d.(mem) (kalloc_d p d).(mem).
Proof. intros x Hx. cbn. by rewrite memset_out. Qed.

Lemma kalloc_inv p d l : kmem_inv d (p :: l) -> kmem_inv (kalloc_d p d) l.
Proof.
  intros [(Hf & [Hp _] & Hl) Hd]. apply NoDup_cons in Hd as [Hn Hd]. split; [|done].
  eapply is_freelist_same; [exact Hp|apply kalloc_mem_outside|done|done].
Qed.

Section eval.
Context (l0 : lockst) (L : list lockptr).
Context (Hk : kmem_lock ∉ L) (Hfree : lfree l0 kmem_lock).

Lemma ev_kfree pa d : page_ok pa -> evals l0 L d (kfree pa) tt L (kfree_d pa d).
Proof.
  intros [Hm Hb]. unfold kfree. rewrite Hm.
  rewrite (proj2 (Z.ltb_ge _ _)), (proj2 (Z.leb_gt _ _)) by lia. cbn. ev.
Qed.

Lemma ev_kfree_bad pa d : ~ page_ok pa -> evals_panic l0 L d (kfree pa) "kfree".
Proof.
  intros H. unfold kfree. unfold page_ok in H.
  destruct (Z.eqb_spec (pa mod PGSIZE) 0), (Z.ltb_spec pa k_end),
    (Z.leb_spec PHYSTOP pa); cbn [negb orb]; try apply ev_panic. exfalso. apply H. lia.
Qed.

Lemma ev_kalloc_none d : kmem_inv d [] -> evals l0 L d kalloc 0 L d.
Proof.
  intros [Hl _]. cbn in Hl. unfold kalloc. eapply evals_eq.
  { ev. all: rewrite Hl; cbn; ev. } all: done.
Qed.

Lemma ev_kalloc_some p d l :
  kmem_inv d (p :: l) -> evals l0 L d kalloc p L (kalloc_d p d).
Proof.
  intros [(Hl & Hp & _) _]. unfold kalloc. eapply evals_eq.
  { ev. all: rewrite Hl, (proj2 (ctrue_true _)) by (apply page_ok_pos in Hp; lia);
      cbn; ev. } all: done.
Qed.

Lemma ev_freerange_loop n p pa_end d l :
  n = Z.to_nat ((pa_end - p) / PGSIZE) ->
  p mod PGSIZE = 0 -> k_end <= p -> pa_end <= PHYSTOP ->
  kmem_inv d l -> (forall q, q ∈ l -> q < p) ->
  exists m f, let d' := d <| mem := m |> <| freelist := f |> in
    evals l0 L d (freerange_loop n p pa_end) tt L d' /\
    kmem_inv d' (reverse (page_seq p n) ++ l).
Proof.
  revert p d l. induction n as [|n IH]; intros p d l Hn Hp Hlo Hhi Hinv Hlt;
    cbn [freerange_loop].
  - exists (mem d), (freelist d). split; [|by destruct d].
    rewrite (proj2 (Z.leb_gt _ _)).
    { eapply evals_eq; [apply ev_ret|done..|by destruct d]. }
    unfold PGSIZE in *. Z.div_mod_to_equations. lia.
  - assert (p + PGSIZE <= pa_end) as Hle
      by (unfold PGSIZE in *; Z.div_mod_to_equations; lia).
    rewrite (proj2 (Z.leb_le _ _)) by done.
    assert (page_ok p) as Hok by (split; [done|unfold PGSIZE in *; lia]).
    destruct (IH (p + PGSIZE) (kfree_d p d) (p :: l)) as (m & f & Hev & Hinv').
    { unfold PGSIZE in *. Z.div_mod_to_equations. lia. }
    { unfold PGSIZE in *. Z.div_mod_to_equations. lia. }
    { unfold PGSIZE. lia. } { done. }
    { apply kfree_inv; [done| |done]. intros Hin. apply Hlt in Hin. lia. }
    { intros q [->|Hq]%elem_of_cons; [unfold PGSIZE; lia|].
      apply Hlt in Hq. unfold PGSIZE. lia. }
    exists m, f. split.
    + eapply ev_bind; [by apply ev_kfree|]. exact Hev.
    + rewrite page_seq_S, reverse_cons, <- (assoc_L (++)). exact Hinv'.
Qed.
End eval.

(** After [kinit] the allocator owns every whole page between the end of the
    kernel and PHYSTOP, each exactly once. *)
Theorem kinit_spec l0 d s :
  ready l0 -> s = Kstate (d <| freelist := 0 |>) l0 ->
  exists s', kinit s = Ret tt s' /\
    kmem_inv s'.(dat)
      (reverse (page_seq (PGROUNDUP k_end)
                  (Z.to_nat ((PHYSTOP - PGROUNDUP k_end) / PGSIZE)))).
Proof.
  intros Hr ->. pose proof k_end_bound as Hb. unfold kinit.
  set (l1 := upd_lock kmem_lock (fun _ => Spinlock 0 "kmem" None) l0).
  destruct (PGROUNDUP_bound k_end) as [Hm Hle].
  { unfold PHYSTOP, KERNBASE, PGSIZE in *. lia. }
  edestruct (ev_freerange_loop l1 []) with (d := d <| freelist := 0 |>) (l := @nil Z)
    as (m & f & Hev & Hinv); [apply not_elem_of_nil| | reflexivity | exact Hm | lia
    | reflexivity | by split; [|constructor] | intros q Hq; by apply elem_of_nil in Hq |].
  { unfold lfree. cbn. by rewrite fn_lookup_alter. }
  destruct (Hev (Kstate (d <| freelist := 0 |>) l1)) as (s' & E & _ & Hd); [|done|].
  { by apply lstate_refl. }
  exists s'. split.
  - unfold freerange, initlock. mcbn. exact E.
  - rewrite Hd. by rewrite app_nil_r in Hinv.
Qed.
End kalloc.
