(* ===== verification/Vm.v ===== *)
(** * Virtual memory (kernel/vm.c)

    Page tables live in physical memory: a page-table page is 512 little-endian
    64-bit entries.  A [pagetable_t] is the physical address of the root page, a
    [pte_t *] the address of an entry.  The functions are those of vm.c; loops
    over pages carry a fuel that counts the pages. *)
From S2P Require Export Kalloc.

Section vm.
Context `{KI : KernelImage}.

(** Read and write a 64-bit word of physical memory. *)
Definition ld (a : Z) : M Z := getd (fun d => load64 d.(mem) a).
Definition st (a v : Z) : M unit := modd (fun d => d <| mem ::= fun m => store64 m a v |>).
Definition kmemset (a c n : Z) : M unit :=
  modd (fun d => d <| mem ::= fun m => memset m a c n |>).
Definition kmemmove (dst src n : Z) : M unit :=
  modd (fun d => d <| mem ::= fun m => memmove m dst src n |>).
(** [memmove] into physical memory from another kernel object. *)
Definition kmemmove_from (dst : Z) (sm : bytes) (src n : Z) : M unit :=
  modd (fun d => d <| mem ::= fun m => memmove_across m dst sm src n |>).

(** The loop of [walk]: one level of the tree for each element. *)
Fixpoint walk_levels (levels : list Z) (pagetable va : Z) (alloc : bool) : M Z :=
  match levels with
  | [] => mret (pagetable + 8 * PX 0 va)
  | level :: levels =>
      let pte := pagetable + 8 * PX level va in
      v ← ld pte;
      if ctrue (Z.land v PTE_V) then walk_levels levels (PTE2PA v) va alloc
      else if negb alloc then mret 0 else
      pagetable' ← kalloc;
      if pagetable' =? 0 then mret 0 else
      kmemset pagetable' 0 PGSIZE;;
      st pte (Z.lor (PA2PTE pagetable') PTE_V);;
      walk_levels levels pagetable' va alloc
  end.

Definition walk (pagetable va : Z) (alloc : bool) : M Z :=
  if MAXVA <=? va then panic "walk" else walk_levels [2; 1] pagetable va alloc.

Definition walkaddr (pagetable va : Z) : M Z :=
  if MAXVA <=? va then mret 0 else
  pte ← walk pagetable va false;
  if pte =? 0 then mret 0 else
  v ← ld pte;
  if Z.land v PTE_V =? 0 then mret 0 else
  if Z.land v PTE_U =? 0 then mret 0 else
  mret (PTE2PA v).

(** [fuel] counts the pages between [a] and [last]; where [last] wrapped below [a]
    it is so large that [walk] panics first. *)
Fixpoint mappages_loop (fuel : nat) (pagetable a last pa perm : Z) : M Z :=
  pte ← walk pagetable a true;
  if pte =? 0 then mret (-1) else
  v ← ld pte;
  if ctrue (Z.land v PTE_V) then panic "mappages: remap" else
  st pte (Z.lor (Z.lor (PA2PTE pa) perm) PTE_V);;
  if a =? last then mret 0 else
  match fuel with
  | O => diverge
  | S fuel => mappages_loop fuel pagetable (u64 (a + PGSIZE)) last (u64 (pa + PGSIZE)) perm
  end.

Definition mappages (pagetable va size pa perm : Z) : M Z :=
  if size =? 0 then panic "mappages: size" else
  let a := PGROUNDDOWN va in
  let last := PGROUNDDOWN (u64 (va + size - 1)) in
  mappages_loop (Z.to_nat (u64 (last - a) / PGSIZE)) pagetable a last pa perm.

Definition kvmmap (kpgtbl va pa sz perm : Z) : M unit :=
  r ← mappages kpgtbl va sz pa perm;
  if negb (r =? 0) then panic "kvmmap" else mret tt.

(** [n] is the number of pages left. *)
Fixpoint uvmunmap_loop (n : nat) (pagetable a : Z) (do_free : bool) : M unit :=
  match n with
  | O => mret tt
  | S n =>
      pte ← walk pagetable a false;
      if pte =? 0 then panic "uvmunmap: walk" else
      v ← ld pte;
      if Z.land v PTE_V =? 0 then panic "uvmunmap: not mapped" else
      if PTE_FLAGS v =? PTE_V then panic "uvmunmap: not a leaf" else
      when do_free (kfree (PTE2PA v));;
      st pte 0;;
      uvmunmap_loop n pagetable (u64 (a + PGSIZE)) do_free
  end.

Definition uvmunmap (pagetable va npages : Z) (do_free : bool) : M unit :=
  if negb (va mod PGSIZE =? 0) then panic "uvmunmap: not aligned" else
  let stop := u64 (va + npages * PGSIZE) in
  uvmunmap_loop (Z.to_nat ((stop - va) / PGSIZE)) pagetable va do_free.

Definition uvmcreate : M Z :=
  pagetable ← kalloc;
  if pagetable =? 0 then mret 0 else
  kmemset pagetable 0 PGSIZE;;
  mret pagetable.

Definition uvmfirst (pagetable : Z) (src : bytes) (sz : Z) : M unit :=
  if PGSIZE <=? sz then panic "uvmfirst: more than a page" else
  mem ← kalloc;
  kmemset mem 0 PGSIZE;;
  mappages pagetable 0 PGSIZE mem (Z.lor (Z.lor (Z.lor PTE_W PTE_R) PTE_X) PTE_U);;
  kmemmove_from mem src 0 sz.

Definition uvmdealloc (pagetable oldsz newsz : Z) : M Z :=
  if oldsz <=? newsz then mret oldsz else
  when (PGROUNDUP newsz <? PGROUNDUP oldsz)
    (let npages := s32 ((PGROUNDUP oldsz - PGROUNDUP newsz) / PGSIZE) in
     uvmunmap pagetable (PGROUNDUP newsz) npages true);;
  mret newsz.

Fixpoint uvmalloc_loop (fuel : nat) (pagetable oldsz a newsz xperm : Z) : M Z :=
  if negb (a <? newsz) then mret newsz else
  match fuel with
  | O => diverge
  | S fuel =>
      mem ← kalloc;
      if mem =? 0 then uvmdealloc pagetable a oldsz;; mret 0 else
      kmemset mem 0 PGSIZE;;
      r ← mappages pagetable a PGSIZE mem (Z.lor (Z.lor PTE_R PTE_U) xperm);
      if negb (r =? 0) then kfree mem;; uvmdealloc pagetable a oldsz;; mret 0
      else uvmalloc_loop fuel pagetable oldsz (u64 (a + PGSIZE)) newsz xperm
  end.

Definition uvmalloc (pagetable oldsz newsz xperm : Z) : M Z :=
  if newsz <? oldsz then mret oldsz else
  let oldsz := PGROUNDUP oldsz in
  uvmalloc_loop (Z.to_nat ((newsz - oldsz) / PGSIZE + 1)) pagetable oldsz oldsz newsz xperm.

(** The recursion of [freewalk] descends one level at a time: [depth] bounds it. *)
Fixpoint freewalk (depth : nat) (pagetable : Z) : M unit :=
  match depth with
  | O => diverge
  | S depth =>
      forM (seq 0 512) (fun i =>
        pte ← ld (pagetable + 8 * Z.of_nat i);
        if ctrue (Z.land pte PTE_V) &&
           (Z.land pte (Z.lor (Z.lor PTE_R PTE_W) PTE_X) =? 0)
        then
          freewalk depth (PTE2PA pte);;
          st (pagetable + 8 * Z.of_nat i) 0
        else if ctrue (Z.land pte PTE_V) then panic "freewalk: leaf" else mret tt);;
      kfree pagetable
  end.

Definition uvmfree (pagetable sz : Z) : M unit :=
  when (0 <? sz) (uvmunmap pagetable 0 (PGROUNDUP sz / PGSIZE) true);;
  freewalk 3 pagetable.

Fixpoint uvmcopy_loop (fuel : nat) (old new i sz : Z) : M Z :=
  if negb (i <? sz) then mret 0 else
  match fuel with
  | O => diverge
  | S fuel =>
      pte ← walk old i false;
      if pte =? 0 then panic "uvmcopy: pte should exist" else
      v ← ld pte;
      if Z.land v PTE_V =? 0 then panic "uvmcopy: page not present" else
      let pa := PTE2PA v in
      let flags := PTE_FLAGS v in
      mem ← kalloc;
      if mem =? 0 then uvmunmap new 0 (i / PGSIZE) true;; mret (-1) else
      kmemmove mem pa PGSIZE;;
      r ← mappages new i PGSIZE mem flags;
      if negb (r =? 0) then
        kfree mem;; uvmunmap new 0 (i / PGSIZE) true;; mret (-1)
      else uvmcopy_loop fuel old new (u64 (i + PGSIZE)) sz
  end.

Definition uvmcopy (old new sz : Z) : M Z :=
  uvmcopy_loop (Z.to_nat (sz / PGSIZE + 1)) old new 0 sz.

Definition uvmclear (pagetable va : Z) : M unit :=
  pte ← walk pagetable va false;
  if pte =? 0 then panic "uvmclear" else
  v ← ld pte;
  st pte (Z.land v (Z.lnot PTE_U)).

(** Each iteration of the copy loops moves at least one byte: [len] is fuel. *)
Fixpoint copyout_loop (fuel : nat) (pagetable dstva : Z) (sm : bytes) (src len : Z) : M Z :=
  if negb (0 <? len) then mret 0 else
  match fuel with
  | O => diverge
  | S fuel =>
      let va0 := PGROUNDDOWN dstva in
      pa0 ← walkaddr pagetable va0;
      if pa0 =? 0 then mret (-1) else
      let n := PGSIZE - (dstva - va0) in
      let n := if len <? n then len else n in
      kmemmove_from (pa0 + (dstva - va0)) sm src n;;
      copyout_loop fuel pagetable (u64 (va0 + PGSIZE)) sm (src + n) (len - n)
  end.

Definition copyout (pagetable dstva : Z) (sm : bytes) (src len : Z) : M Z :=
  copyout_loop (Z.to_nat len) pagetable dstva sm src len.

(** [copyin] returns the code and the destination object with the bytes read. *)
Fixpoint copyin_loop (fuel : nat) (pagetable : Z) (dm : bytes) (dst srcva len : Z)
    : M (Z * bytes) :=
  if negb (0 <? len) then mret (0, dm) else
  match fuel with
  | O => diverge
  | S fuel =>
      let va0 := PGROUNDDOWN srcva in
      pa0 ← walkaddr pagetable va0;
      if pa0 =? 0 then mret (-1, dm) else
      let n := PGSIZE - (srcva - va0) in
      let n := if len <? n then len else n in
      m ← getd mem;
      let dm := memmove_across dm dst m (pa0 + (srcva - va0)) n in
      copyin_loop fuel pagetable dm (dst + n) (u64 (va0 + PGSIZE)) (len - n)
  end.

Definition copyin (pagetable : Z) (dm : bytes) (dst srcva len : Z) : M (Z * bytes) :=
  copyin_loop (Z.to_nat len) pagetable dm dst srcva len.

(** The inner loop of [copyinstr]: copies until a NUL byte or [n] bytes.  It
    returns whether a NUL was met, the destination, and the counters. *)
Fixpoint copyinstr_page (n : nat) (m : bytes) (p : Z) (dm : bytes) (dst max : Z)
    : bool * bytes * Z * Z :=
  match n with
  | O => (false, dm, dst, max)
  | S n =>
      if m p =? 0 then (true, <[dst := 0]> dm, dst, max)
      else copyinstr_page n m (p + 1) (<[dst := m p]> dm) (dst + 1) (max - 1)
  end.

Fixpoint copyinstr_loop (fuel : nat) (pagetable : Z) (dm : bytes) (dst srcva max : Z)
    : M (Z * bytes) :=
  if negb (0 <? max) then mret (-1, dm) else
  match fuel with
  | O => diverge
  | S fuel =>
      let va0 := PGROUNDDOWN srcva in
      pa0 ← walkaddr pagetable va0;
      if pa0 =? 0 then mret (-1, dm) else
      let n := PGSIZE - (srcva - va0) in
      let n := if max <? n then max else n in
      m ← getd mem;
      let '(got_null, dm, dst, max) :=
        copyinstr_page (Z.to_nat n) m (pa0 + (srcva - va0)) dm dst max in
      if got_null : bool then mret (0, dm)
      else copyinstr_loop fuel pagetable dm dst (u64 (va0 + PGSIZE)) max
  end.

Definition copyinstr (pagetable : Z) (dm : bytes) (dst srcva max : Z) : M (Z * bytes) :=
  copyinstr_loop (Z.to_nat max) pagetable dm dst srcva max.
End vm.
