(* ===== verification/PageTable.v ===== *)
(** * Page tables as finite maps: the correctness of kernel/vm.c

    A page table is a tree of pages in physical memory.  [tbl m root π] is the
    page-table page that the indices [π] lead to, [vlookup m root va] the entry
    that translates [va], [pt_wf] the invariant that the tree is a tree and
    shares no page with the free list.  The theorems say that [walk], [mappages]
    and [uvmunmap] implement lookup, insertion and deletion of a finite map from
    page addresses to entries. *)
From S2P Require Export Vm.

Section pagetable.
Context `{KI : KernelImage}.

Definition entry (m : bytes) (pt i : Z) : Z := load64 m (pt + 8 * i).

Definition valid_pte (v : Z) : option Z :=
  if ctrue (Z.land v PTE_V) then Some v else None.

(** The table that entry [i] of the table [pt] points to. *)
Definition sub (m : bytes) (pt i : Z) : option Z := PTE2PA <$> valid_pte (entry m pt i).

Fixpoint tbl (m : bytes) (pt : Z) (π : list Z) : option Z :=
  match π with
  | [] => Some pt
  | i :: π => p ← sub m pt i; tbl m p π
  end.

Definition is_path (π : list Z) : Prop :=
  (length π <= 2)%nat /\ Forall (fun i => 0 <= i < 512) π.

(** The address of the entry for [va], and the entry itself if it is valid. *)
Definition pte_of (m : bytes) (root va : Z) : option Z :=
  (fun p => p + 8 * PX 0 va) <$> tbl m root [PX 2 va; PX 1 va].
Definition vlookup (m : bytes) (root va : Z) : option Z :=
  a ← pte_of m root va; valid_pte (load64 m a).

Definition in_tree (m : bytes) (root p : Z) : Prop :=
  exists π, is_path π /\ tbl m root π = Some p.

Record pt_wf (m : bytes) (root : Z) (fl : list Z) : Prop := {
  wf_ok : forall p, in_tree m root p -> page_ok p;
  wf_free : forall p, in_tree m root p -> p ∉ fl;
  wf_inj : forall π π' p, is_path π -> is_path π' ->
    tbl m root π = Some p -> tbl m root π' = Some p -> π = π';
}.

(** [m'] extends the tree of [m] with pages of the free list [fl], without any
    effect on the translation of addresses. *)
Record pt_ext (root : Z) (m : bytes) (fl : list Z) (m' : bytes) (fl' : list Z) : Prop := {
  pe_wf : pt_wf m' root fl';
  pe_fl : exists used, fl = used ++ fl';
  pe_lookup : forall va, vlookup m' root va = vlookup m root va;
  pe_tree : forall p, in_tree m' root p -> in_tree m root p \/ p ∈ fl;
  pe_keep : forall p, in_tree m root p -> in_tree m' root p;
  pe_used : forall p, p ∈ fl -> p ∈ fl' \/ in_tree m' root p;
  pe_frame : forall p, p mod PGSIZE = 0 -> p ∉ fl -> ~ in_tree m root p ->
    forall i, 0 <= i < PGSIZE -> m' (p + i) = m (p + i);
}.

(** ** Paths *)

Lemma tbl_snoc m pt π i : tbl m pt (π ++ [i]) = p ← tbl m pt π; sub m p i.
Proof.
  revert pt. induction π as [|j π IH]; intros pt; cbn.
  - by destruct (sub m pt i).
  - destruct (sub m pt j); cbn; [apply IH|done].
Qed.

Lemma is_path_nil : is_path [].
Proof. split; [cbn; lia|constructor]. Qed.

Lemma is_path_snoc π i : is_path (π ++ [i]) -> is_path π /\ (length π <= 1)%nat /\ 0 <= i < 512.
Proof.
  intros [Hl Hf]. rewrite length_app in Hl. cbn in Hl.
  apply Forall_app in Hf as [? Hi]. apply Forall_inv in Hi. repeat split; try done; lia.
Qed.

Lemma is_path_px va : is_path [PX 2 va; PX 1 va].
Proof. split; [cbn; lia|]. repeat constructor; by apply PX_bound. Qed.

(** A change of memory that touches, of all the entries of the tree, only the
    one at path [π0], moves only the tables below [π0]. *)
Lemma tbl_frame m m' root π0 :
  (forall π p j, is_path π -> tbl m root π = Some p -> 0 <= j < 512 ->
     π ++ [j] <> π0 -> entry m' p j = entry m p j) ->
  forall π, is_path π -> ~ (π0 `prefix_of` π) -> tbl m' root π = tbl m root π.
Proof.
  intros Hm π. induction π as [|j π IH] using rev_ind; intros Hp Hn; [done|].
  destruct (is_path_snoc _ _ Hp) as (Hp' & _ & Hj).
  rewrite !tbl_snoc, IH; [|done|].
  - destruct (tbl m root π) as [p|] eqn:E; [|done]. cbn. unfold sub.
    rewrite (Hm π p j); [done..|]. intros <-. by apply Hn.
  - intros H. apply Hn. by apply prefix_app_r.
Qed.

Lemma prefix_length_lt (π0 π : list Z) : (length π < length π0)%nat -> ~ (π0 `prefix_of` π).
Proof. intros ? ?%prefix_length. lia. Qed.

(** Addresses of entries in different pages, or of different entries. *)
Lemma entry_same m m' pt j :
  (forall x, pt + 8 * j <= x < pt + 8 * j + 8 -> m' x = m x) -> entry m' pt j = entry m pt j.
Proof. intros H. apply load64_ext. intros. apply H. lia. Qed.

Lemma sub_zero m pt i : entry m pt i = 0 -> sub m pt i = None.
Proof. unfold sub. by intros ->. Qed.

Lemma valid_mk_pte pa perm : valid_pte (mk_pte pa perm) = Some (mk_pte pa perm).
Proof.
  unfold valid_pte. by rewrite (proj2 (ctrue_true _)) by apply mk_pte_valid.
Qed.

Lemma vlookup_path m root va :
  vlookup m root va =
    p ← tbl m root [PX 2 va; PX 1 va]; valid_pte (entry m p (PX 0 va)).
Proof. unfold vlookup, pte_of. by destruct (tbl m root _). Qed.

Lemma in_tree_root m root : in_tree m root root.
Proof. exists []. split; [apply is_path_nil|done]. Qed.

Context {KIok : KernelImageOk}.

(** ** Writing a leaf entry *)

Section leaf.
Context (m : bytes) (root va v p : Z) (fl : list Z).
Context (Hwf : pt_wf m root fl).
Context (Hp : tbl m root [PX 2 va; PX 1 va] = Some p).
Context (Hv : 0 <= v < 2 ^ 64).
Let m' := store64 m (p + 8 * PX 0 va) v.

Lemma leaf_entry π q j :
  is_path π -> tbl m root π = Some q -> 0 <= j < 512 ->
  π ++ [j] <> [PX 2 va; PX 1 va; PX 0 va] -> entry m' q j = entry m q j.
Proof.
  intros Hπ Hq Hj Hne. unfold entry, m'.
  pose proof (PX_bound 0 va ltac:(done)) as Hb.
  destruct (decide (q = p)) as [->|Hqp].
  - rewrite (wf_inj _ _ _ Hwf _ _ _ Hπ (is_path_px va) Hq Hp) in Hne.
    assert (j <> PX 0 va) by (intros ->; by apply Hne).
    apply load64_store64_ne. lia.
  - apply load64_store64_ne.
    assert (page_ok q) as [Mq _] by (eapply wf_ok; [done|by exists π]).
    assert (page_ok p) as [Mp _] by (eapply wf_ok; [done|by eexists; split; [apply is_path_px|]]).
    pose proof (pages_disjoint q p Mq Mp Hqp). unfold PGSIZE in *. lia.
Qed.

Lemma leaf_tbl π : is_path π -> tbl m' root π = tbl m root π.
Proof.
  intros Hπ. eapply (tbl_frame m m' root [PX 2 va; PX 1 va; PX 0 va]);
    [apply leaf_entry|done|]. apply prefix_length_lt. destruct Hπ. cbn. lia.
Qed.

Lemma leaf_in_tree q : in_tree m' root q <-> in_tree m root q.
Proof. split; intros (π & Hπ & E); exists π; (split; [done|]); by rewrite leaf_tbl in *. Qed.

Lemma leaf_wf : pt_wf m' root fl.
Proof.
  split.
  - intros q Hq%leaf_in_tree. by eapply wf_ok.
  - intros q Hq%leaf_in_tree. by eapply wf_free.
  - intros π π' q Hπ Hπ'. rewrite !leaf_tbl by done. by eapply wf_inj.
Qed.

Lemma leaf_lookup_eq : vlookup m' root va = valid_pte v.
Proof.
  rewrite vlookup_path, leaf_tbl by apply is_path_px. rewrite Hp. cbn. unfold entry, m'.
  by rewrite load64_store64.
Qed.

Lemma leaf_lookup_ne va' :
  0 <= va < MAXVA -> 0 <= va' < MAXVA -> va mod PGSIZE = 0 -> va' mod PGSIZE = 0 ->
  va' <> va -> vlookup m' root va' = vlookup m root va'.
Proof.
  intros. rewrite !vlookup_path, leaf_tbl by apply is_path_px.
  destruct (tbl m root [PX 2 va'; PX 1 va']) as [q|] eqn:Hq; [|done]. cbn.
  f_equal. eapply leaf_entry; [apply is_path_px|done|by apply PX_bound|].
  intros [= E2 E1 E0]. by destruct (PX_inj va' va).
Qed.

Lemma leaf_frame q i :
  q mod PGSIZE = 0 -> ~ in_tree m root q -> 0 <= i < PGSIZE -> m' (q + i) = m (q + i).
Proof.
  intros Mq Hq Hi. unfold m'.
  assert (in_tree m root p) as Ht by (eexists; split; [apply is_path_px|done]).
  destruct (wf_ok _ _ _ Hwf p Ht) as [Mp _].
  pose proof (pages_disjoint q p Mq Mp ltac:(congruence)).
  pose proof (PX_bound 0 va ltac:(done)).
  apply store64_out. unfold PGSIZE in *. lia.
Qed.
End leaf.

(** ** Adding a page-table page *)

Section add.
Context (m m' : bytes) (root p q i : Z) (π : list Z) (fl : list Z).
Context (Hwf : pt_wf m root (q :: fl)) (Hnd : NoDup (q :: fl)) (Hq : page_ok q).
Context (Hπ : is_path π) (Hlen : (length π <= 1)%nat) (Hi : 0 <= i < 512).
Context (Hp : tbl m root π = Some p) (Hnone : sub m p i = None).
Context (Hm1 : entry m' p i = mk_pte q 0).
Context (Hm2 : forall j, 0 <= j < 512 -> entry m' q j = 0).
Context (Hm3 : forall x, (x < q \/ q + PGSIZE <= x) ->
  (x < p + 8 * i \/ p + 8 * i + 8 <= x) -> m' x = m x).

Lemma add_page p' : in_tree m root p' -> page_ok p' /\ (p' + PGSIZE <= q \/ q + PGSIZE <= p').
Proof.
  intros Hp'. pose proof (wf_ok _ _ _ Hwf _ Hp') as Hok. split; [done|].
  pose proof (wf_free _ _ _ Hwf _ Hp') as Hf. apply not_elem_of_cons in Hf as [Hne _].
  apply pages_disjoint; [apply Hok|apply Hq|done].
Qed.

Lemma add_entry π' p' j :
  is_path π' -> tbl m root π' = Some p' -> 0 <= j < 512 -> π' ++ [j] <> π ++ [i] ->
  entry m' p' j = entry m p' j.
Proof.
  intros Hπ' Hp' Hj Hne. apply entry_same. intros x Hx.
  destruct (add_page p') as [[Mp' _] Hd]; [by exists π'|].
  apply Hm3; [unfold PGSIZE in *; lia|].
  destruct (decide (p' = p)) as [->|Hpp].
  - rewrite (wf_inj _ _ _ Hwf _ _ _ Hπ' Hπ Hp' Hp) in Hne.
    assert (j <> i) by (intros ->; by apply Hne). lia.
  - destruct (add_page p) as [[Mp _] _]; [by exists π|].
    pose proof (pages_disjoint p' p Mp' Mp Hpp). unfold PGSIZE in *. lia.
Qed.

Lemma add_tbl π' :
  is_path π' -> ~ ((π ++ [i]) `prefix_of` π') -> tbl m' root π' = tbl m root π'.
Proof. apply tbl_frame. apply add_entry. Qed.

Lemma add_tbl_new : tbl m' root (π ++ [i]) = Some q.
Proof.
  rewrite tbl_snoc, add_tbl, Hp; [|done|].
  - cbn. unfold sub. rewrite Hm1, valid_mk_pte. cbn. f_equal.
    pose proof (page_ok_pos _ Hq). destruct Hq as [Mq Bq].
    apply PTE2PA_mk_pte; [|done|lia]. unfold PHYSTOP, KERNBASE in *. lia.
  - apply prefix_length_lt. rewrite length_app. cbn. lia.
Qed.

Lemma add_tbl_below j π' : 0 <= j < 512 -> tbl m' root ((π ++ [i]) ++ j :: π') = None.
Proof.
  intros Hj. rewrite (assoc_L (++) _ [j] π' : (π ++ [i]) ++ j :: π' = _).
  assert (tbl m' root ((π ++ [i]) ++ [j]) = None) as E.
  { rewrite tbl_snoc, add_tbl_new. cbn. apply sub_zero. by apply Hm2. }
  revert E. generalize ((π ++ [i]) ++ [j]). clear. intros π0.
  generalize root as r. induction π0 as [|k π0 IH]; intros r; cbn; [done|].
  destruct (sub m' r k); cbn; [apply IH|done].
Qed.

(** A path of the new tree is the new node or a path of the old tree. *)
Lemma add_tbl_inv π' p' :
  is_path π' -> tbl m' root π' = Some p' ->
  (π' = π ++ [i] /\ p' = q) \/ tbl m root π' = Some p'.
Proof.
  intros Hπ' E. destruct (decide ((π ++ [i]) `prefix_of` π')) as [[k ->]|Hn].
  - destruct k as [|j k].
    + rewrite app_nil_r, add_tbl_new in E. left. rewrite app_nil_r. split; congruence.
    + rewrite add_tbl_below in E; [done|]. destruct Hπ' as [_ Hf].
      apply Forall_app in Hf as [_ Hf]. by apply Forall_inv in Hf.
  - right. by rewrite <- add_tbl.
Qed.

Lemma add_path : is_path (π ++ [i]).
Proof.
  destruct Hπ as [_ Hf]. split; [rewrite length_app; cbn; lia|].
  apply Forall_app. split; [done|]. by apply Forall_singleton.
Qed.

Lemma add_old π' : (π ++ [i]) `prefix_of` π' -> tbl m root π' = None.
Proof.
  intros [k ->]. rewrite <- (assoc_L (++)). revert Hp. clear -Hnone. generalize root as r.
  induction π as [|j π' IH]; intros r; cbn.
  - intros [= ->]. by rewrite Hnone.
  - destruct (sub m r j); cbn; [apply IH|done].
Qed.

Lemma add_wf : pt_wf m' root fl.
Proof.
  apply NoDup_cons in Hnd as [Hqf _]. split.
  - intros p' (π' & Hπ' & E). apply add_tbl_inv in E as [[_ ->]|E]; [done| |done].
    eapply wf_ok; [done|by exists π'].
  - intros p' (π' & Hπ' & E). apply add_tbl_inv in E as [[_ ->]|E]; [done| |done].
    pose proof (wf_free _ _ _ Hwf p' ltac:(by exists π')) as Hf.
    by apply not_elem_of_cons in Hf as [_ ?].
  - assert (forall π', is_path π' -> tbl m root π' <> Some q) as Hno.
    { intros π' ? E. pose proof (wf_free _ _ _ Hwf q ltac:(by exists π')) as Hf.
      by apply not_elem_of_cons in Hf as [? _]. }
    intros π1 π2 p' H1 H2 E1 E2.
    apply add_tbl_inv in E1 as [[-> ->]|E1]; [| |done];
    apply add_tbl_inv in E2 as [[-> E2]|E2]; try done.
    + by destruct (Hno π2).
    + subst. by destruct (Hno π1).
    + by eapply wf_inj.
Qed.

Lemma add_lookup va : vlookup m' root va = vlookup m root va.
Proof.
  rewrite !vlookup_path. pose proof (is_path_px va) as Hpx.
  destruct (decide ((π ++ [i]) `prefix_of` [PX 2 va; PX 1 va])) as [Hpre|Hpre].
  - rewrite (add_old _ Hpre).
    destruct (tbl m' root [PX 2 va; PX 1 va]) as [p'|] eqn:E; [|done]. cbn.
    apply add_tbl_inv in E as [[_ ->]|E]; [|by rewrite add_old in E|done].
    by rewrite Hm2 by (by apply PX_bound).
  - rewrite (add_tbl _ Hpx Hpre).
    destruct (tbl m root [PX 2 va; PX 1 va]) as [p'|] eqn:E; [|done]. cbn.
    rewrite (add_entry _ _ _ Hpx E); [done|by apply PX_bound|].
    intros Heq%(f_equal length). rewrite !length_app in Heq. cbn in Heq. lia.
Qed.

Lemma add_ext : pt_ext root m (q :: fl) m' fl.
Proof.
  split.
  - apply add_wf.
  - by exists [q].
  - apply add_lookup.
  - intros p' (π' & Hπ' & E). apply add_tbl_inv in E as [[_ ->]|E]; [right; by left|left|done].
    by exists π'.
  - intros p' (π' & Hπ' & E). exists π'. split; [done|]. rewrite add_tbl; [done..|].
    intros Hpre. by rewrite add_old in E.
  - intros p' [->|?]%elem_of_cons; [right|by left]. exists (π ++ [i]). split; [apply add_path|apply add_tbl_new].
  - intros p' Mp' Hf Ht j Hj. apply not_elem_of_cons in Hf as [Hne _]. apply Hm3.
    + destruct Hq as [Mq _]. pose proof (pages_disjoint p' q Mp' Mq Hne). lia.
    + assert (p' <> p) as Hne' by (intros ->; apply Ht; by exists π).
      destruct (add_page p) as [[Mp _] _]; [by exists π|].
      pose proof (pages_disjoint p' p Mp' Mp Hne'). unfold PGSIZE in *. lia.
Qed.
End add.

Lemma pt_ext_refl root m fl : pt_wf m root fl -> pt_ext root m fl m fl.
Proof. intros H. split; try done; [by exists []|by left|by left]. Qed.

Lemma pt_ext_trans root m1 fl1 m2 fl2 m3 fl3 :
  pt_ext root m1 fl1 m2 fl2 -> pt_ext root m2 fl2 m3 fl3 -> pt_ext root m1 fl1 m3 fl3.
Proof.
  intros [W1 [u1 ->] L1 T1 K1 U1 F1] [W2 [u2 ->] L2 T2 K2 U2 F2]. split; [done| | | | | |].
  - exists (u1 ++ u2). by rewrite (assoc_L (++)).
  - intros va. by rewrite L2.
  - intros p [Hp|Hp]%T2; [by apply T1|]. right. apply elem_of_app. by right.
  - auto.
  - intros p [Hp|Hp]%U1; [by apply U2|right; auto].
  - intros p Mp Hf Ht i Hi. rewrite F2; [by apply F1|done| | |done].
    + intros Hin. apply Hf. apply elem_of_app. by right.
    + intros [?|?]%T1; tauto.
Qed.

(** ** walk, walkaddr and mappages *)

(** The kernel data with other memory and free list. *)
Definition with_mem (d : kdata) (m : bytes) (f : Z) : kdata :=
  d <| mem := m |> <| freelist := f |>.

Lemma kmem_inv_store d fl a v p :
  kmem_inv d fl -> p mod PGSIZE = 0 -> p ∉ fl -> p <= a -> a + 8 <= p + PGSIZE ->
  kmem_inv (d <| mem := store64 (mem d) a v |>) fl.
Proof.
  intros [Hl Hn] Hp Hf H1 H2. split; [|done]. cbn.
  eapply is_freelist_same; [exact Hp| |done|done].
  intros x Hx. apply store64_out. lia.
Qed.

Lemma entry_in_page p i : 0 <= i < 512 -> p <= p + 8 * i /\ p + 8 * i + 8 <= p + PGSIZE.
Proof. unfold PGSIZE. lia. Qed.

Section eval.
Context (l0 : lockst) (L : list lockptr).
Context (Hk : kmem_lock ∉ L) (Hfree : lfree l0 kmem_lock).

Lemma ev_ld a d : evals l0 L d (ld a) (load64 d.(mem) a) L d.
Proof. apply ev_getd. Qed.
Lemma ev_st a v d :
  evals l0 L d (st a v) tt L (d <| mem := store64 d.(mem) a v |>).
Proof. eapply evals_eq; [apply ev_modd|done..]. Qed.
Lemma ev_kmemset a c n d :
  evals l0 L d (kmemset a c n) tt L (d <| mem := memset d.(mem) a c n |>).
Proof. eapply evals_eq; [apply ev_modd|done..]. Qed.

Lemma ev_kmemmove dst src n d :
  evals l0 L d (kmemmove dst src n) tt L (d <| mem := memmove d.(mem) dst src n |>).
Proof. eapply evals_eq; [apply ev_modd|done..]. Qed.

Lemma ev_walk_noalloc root va d :
  va < MAXVA ->
  evals l0 L d (walk root va false) (default 0 (pte_of d.(mem) root va)) L d.
Proof.
  intros Hva. unfold walk. rewrite (proj2 (Z.leb_gt _ _)) by done.
  unfold pte_of. cbn [walk_levels tbl]. unfold sub, valid_pte, entry.
  eapply ev_bind; [apply ev_ld|]. cbn beta.
  destruct (ctrue (Z.land (load64 (mem d) (root + 8 * PX 2 va)) PTE_V)); [|apply ev_ret].
  eapply ev_bind; [apply ev_ld|]. cbn -[PX].
  destruct (ctrue _); apply ev_ret.
Qed.

(** One level of an allocating walk where the entry is valid. *)
Lemma ev_walk_level_valid level levels p va r d d' :
  ctrue (Z.land (entry d.(mem) p (PX level va)) PTE_V) = true ->
  evals l0 L d (walk_levels levels (PTE2PA (entry d.(mem) p (PX level va))) va true) r L d' ->
  evals l0 L d (walk_levels (level :: levels) p va true) r L d'.
Proof.
  intros Hval H. cbn [walk_levels]. eapply ev_bind; [apply ev_ld|]. cbn beta.
  fold (entry (mem d) p (PX level va)). by rewrite Hval.
Qed.

(** One level where it is not, and no page is left. *)
Lemma ev_walk_level_nomem level levels p va d :
  ctrue (Z.land (entry d.(mem) p (PX level va)) PTE_V) = false -> kmem_inv d [] ->
  evals l0 L d (walk_levels (level :: levels) p va true) 0 L d.
Proof.
  intros Hval Hinv. cbn [walk_levels]. eapply ev_bind; [apply ev_ld|]. cbn beta.
  fold (entry (mem d) p (PX level va)). rewrite Hval. cbn [negb].
  eapply ev_bind; [by apply ev_kalloc_none|]. apply ev_ret.
Qed.

(** The memory after the page [q] has been made the table below entry [i] of [p]. *)
Definition new_table (m : bytes) (p i q : Z) : bytes :=
  store64 (memset (memset m q 5 PGSIZE) q 0 PGSIZE) (p + 8 * i) (mk_pte q 0).

Lemma ev_walk_level_new level levels p va q fl r d d' :
  ctrue (Z.land (entry d.(mem) p (PX level va)) PTE_V) = false -> kmem_inv d (q :: fl) ->
  evals l0 L (with_mem d (new_table d.(mem) p (PX level va) q) (load64 d.(mem) q))
    (walk_levels levels q va true) r L d' ->
  evals l0 L d (walk_levels (level :: levels) p va true) r L d'.
Proof.
  intros Hval Hinv H. cbn [walk_levels]. eapply ev_bind; [apply ev_ld|]. cbn beta.
  fold (entry (mem d) p (PX level va)). rewrite Hval. cbn [negb].
  eapply ev_bind; [by eapply ev_kalloc_some|]. cbn beta.
  assert (0 < q) as Hq.
  { destruct Hinv as [Hq%is_freelist_ok _]. apply Forall_inv in Hq.
    apply page_ok_pos in Hq. lia. }
  rewrite (proj2 (Z.eqb_neq _ _)) by lia.
  eapply ev_bind; [apply ev_kmemset|]. eapply ev_bind; [apply ev_st|].
  unfold new_table, mk_pte in H. by rewrite Z.lor_0_r in H.
Qed.

(** A new table extends the tree. *)
Lemma new_table_ext root π p i q fl d :
  pt_wf d.(mem) root (q :: fl) -> kmem_inv d (q :: fl) ->
  is_path π -> (length π <= 1)%nat -> 0 <= i < 512 -> tbl d.(mem) root π = Some p ->
  sub d.(mem) p i = None ->
  let m' := new_table d.(mem) p i q in
  pt_ext root d.(mem) (q :: fl) m' fl /\ tbl m' root (π ++ [i]) = Some q /\
  kmem_inv (with_mem d m' (load64 d.(mem) q)) fl.
Proof.
  intros Hwf Hinv Hπ Hlen Hi Hp Hnone m'.
  pose proof (is_freelist_ok _ _ _ (proj1 Hinv)) as Hq. apply Forall_inv in Hq.
  assert (in_tree (mem d) root p) as Ht by (by exists π).
  pose proof (wf_ok _ _ _ Hwf _ Ht) as Hpok.
  pose proof (wf_free _ _ _ Hwf _ Ht) as Hpf. apply not_elem_of_cons in Hpf as [Hpq Hpfl].
  pose proof (pages_disjoint p q (proj1 Hpok) (proj1 Hq) Hpq) as Hdis.
  destruct (entry_in_page p i Hi) as [Hin1 Hin2]. pose proof (proj2 Hinv) as Hnd.
  assert (entry m' p i = mk_pte q 0) as Hm1.
  { unfold entry, m', new_table. apply load64_store64, mk_pte_bound; [|lia].
    pose proof (page_ok_pos q Hq). destruct Hq as [_ Bq]. unfold PHYSTOP, KERNBASE in Bq. lia. }
  assert (forall j, 0 <= j < 512 -> entry m' q j = 0) as Hm2.
  { intros j Hj. unfold entry, m', new_table.
    rewrite load64_store64_ne by (unfold PGSIZE in *; lia).
    apply load_zero. intros x Hx. apply memset_in. unfold PGSIZE. lia. }
  assert (forall x, (x < q \/ q + PGSIZE <= x) ->
    (x < p + 8 * i \/ p + 8 * i + 8 <= x) -> m' x = mem d x) as Hm3.
  { intros x ??. unfold m', new_table. by rewrite store64_out, !memset_out. }
  split; [by eapply add_ext|]. split; [by eapply add_tbl_new|].
  destruct (kalloc_inv _ _ _ Hinv) as [Hl ?]. split; [|done]. cbn in *.
  apply is_freelist_same with (m := memset (memset (mem d) q 5 PGSIZE) q 0 PGSIZE) (p := p);
    [apply Hpok| |done|].
  { intros x Hx. apply store64_out. lia. }
  eapply is_freelist_same; [apply Hq| | |exact Hl].
  - intros x Hx. by rewrite memset_out.
  - by apply NoDup_cons in Hnd as [? _].
Qed.

Lemma ev_walk_level level levels root π p va d fl :
  0 <= level -> pt_wf d.(mem) root fl -> kmem_inv d fl ->
  is_path π -> (length π <= 1)%nat -> tbl d.(mem) root π = Some p ->
  (fl = [] /\ evals l0 L d (walk_levels (level :: levels) p va true) 0 L d) \/
  exists m f fl' p',
    pt_ext root d.(mem) fl m fl' /\ kmem_inv (with_mem d m f) fl' /\
    tbl m root (π ++ [PX level va]) = Some p' /\ (length fl <= S (length fl'))%nat /\
    forall r d', evals l0 L (with_mem d m f) (walk_levels levels p' va true) r L d' ->
      evals l0 L d (walk_levels (level :: levels) p va true) r L d'.
Proof.
  intros Hlv Hwf Hinv Hπ Hlen Hp. pose proof (PX_bound level va Hlv) as Hi.
  destruct (ctrue (Z.land (entry (mem d) p (PX level va)) PTE_V)) eqn:Hval.
  - right. exists (mem d), (freelist d), fl, (PTE2PA (entry (mem d) p (PX level va))).
    split; [by apply pt_ext_refl|]. split; [by destruct d|]. split.
    { rewrite tbl_snoc, Hp. cbn. unfold sub, valid_pte. by rewrite Hval. }
    split; [lia|]. intros r d' H. apply ev_walk_level_valid; [done|]. by destruct d.
  - destruct fl as [|q fl]; [left; split; [done|by apply ev_walk_level_nomem]|].
    assert (sub (mem d) p (PX level va) = None) as Hn
      by (unfold sub, valid_pte; by rewrite Hval).
    destruct (new_table_ext root π p (PX level va) q fl d) as (He & Ht & Hinv'); [done..|].
    right. do 4 eexists. split; [exact He|]. split; [exact Hinv'|]. split; [exact Ht|].
    split; [done|]. intros r d'. by eapply ev_walk_level_new.
Qed.

(** An allocating walk extends the tree and returns the address of the entry,
    or 0 when the allocator has run out of pages; it takes two pages at most. *)
Lemma ev_walk_alloc root va d fl :
  va < MAXVA -> pt_wf d.(mem) root fl -> kmem_inv d fl ->
  exists r m f fl', let d' := with_mem d m f in
    evals l0 L d (walk root va true) r L d' /\
    pt_ext root d.(mem) fl m fl' /\ kmem_inv d' fl' /\ (length fl <= 2 + length fl')%nat /\
    ((r = 0 /\ fl' = [] /\ (length fl < 2)%nat) \/ pte_of m root va = Some r).
Proof.
  intros Hva Hwf Hinv. unfold walk. rewrite (proj2 (Z.leb_gt _ _)) by done.
  destruct (ev_walk_level 2 [1] root [] root va d fl)
    as [[-> H]|(m1 & f1 & fl1 & p1 & He1 & Hi1 & Ht1 & Hn1 & H1)];
    [done..|apply is_path_nil|cbn; lia|done| |].
  { exists 0, (mem d), (freelist d), []. split; [by destruct d|].
    split; [by apply pt_ext_refl|]. split; [by destruct d|]. split; [cbn; lia|left; cbn; auto with lia]. }
  destruct (ev_walk_level 1 [] root [PX 2 va] p1 va (with_mem d m1 f1) fl1)
    as [[-> H]|(m2 & f2 & fl2 & p2 & He2 & Hi2 & Ht2 & Hn2 & H2)];
    [done|apply He1|done| |cbn; lia|done| |].
  { split; [cbn; lia|]. by apply Forall_singleton, PX_bound. }
  - exists 0, m1, f1, []. split; [by apply H1|]. split; [done|]. split; [done|]. cbn in Hn1 |- *. split; [lia|left; auto with lia].
  - exists (p2 + 8 * PX 0 va), m2, f2, fl2. split.
    { apply H1, H2. eapply evals_eq; [apply ev_ret|done..]. }
    split; [by eapply pt_ext_trans|]. split; [done|]. split; [lia|]. right.
    unfold pte_of. by rewrite (Ht2 : tbl m2 root [PX 2 va; PX 1 va] = _).
Qed.

(** *** mappages *)

(** [m'] maps in addition the [k] pages from [a] to the [k] frames from [pa]. *)
Record pt_map (root : Z) (m : bytes) (fl : list Z) (m' : bytes) (fl' : list Z)
    (a : Z) (k : nat) (pa perm : Z) : Prop := {
  pm_wf : pt_wf m' root fl';
  pm_fl : exists used, fl = used ++ fl';
  pm_lookup : forall va, 0 <= va < MAXVA -> va mod PGSIZE = 0 ->
    vlookup m' root va =
      if decide (a <= va < a + Z.of_nat k * PGSIZE) then Some (mk_pte (pa + (va - a)) perm)
      else vlookup m root va;
  pm_tree : forall p, in_tree m' root p -> in_tree m root p \/ p ∈ fl;
  pm_keep : forall p, in_tree m root p -> in_tree m' root p;
  pm_used : forall p, p ∈ fl -> p ∈ fl' \/ in_tree m' root p;
  pm_frame : forall p, p mod PGSIZE = 0 -> p ∉ fl -> ~ in_tree m root p ->
    forall i, 0 <= i < PGSIZE -> m' (p + i) = m (p + i);
}.

Lemma pt_map_zero root m fl m' fl' a pa perm :
  pt_ext root m fl m' fl' -> pt_map root m fl m' fl' a 0 pa perm.
Proof.
  intros []. split; try done. intros va _ _. rewrite decide_False by lia. done.
Qed.

Lemma pte_of_tbl m root va a :
  pte_of m root va = Some a ->
  exists p, tbl m root [PX 2 va; PX 1 va] = Some p /\ a = p + 8 * PX 0 va.
Proof. unfold pte_of. intros (p & -> & ?)%fmap_Some. eauto. Qed.

Lemma pt_map_step root m fl m1 fl1 m' fl' a k pa perm r :
  0 <= a < MAXVA -> a mod PGSIZE = 0 -> 0 <= pa < 2 ^ 56 -> 0 <= perm < 2 ^ 10 ->
  pt_ext root m fl m1 fl1 -> pte_of m1 root a = Some r ->
  pt_map root (store64 m1 r (mk_pte pa perm)) fl1 m' fl' (a + PGSIZE) k (pa + PGSIZE) perm ->
  pt_map root m fl m' fl' a (S k) pa perm.
Proof.
  intros Ha Hal Hpa Hperm [W1 [u ->] L1 T1 K1 U1 F1] (p & Hp & ->)%pte_of_tbl [W2 [u' ->] L2 T2 K2 U2 F2].
  assert (0 <= mk_pte pa perm < 2 ^ 64) as Hb by (by apply mk_pte_bound).
  split; [done| | | | | |].
  - exists (u ++ u'). by rewrite (assoc_L (++)).
  - intros va Hva Hval. rewrite L2 by done. unfold PGSIZE in *.
    destruct (decide (va = a)) as [->|Hne].
    + rewrite decide_False, decide_True by lia. erewrite leaf_lookup_eq by done.
      rewrite Z.sub_diag, Z.add_0_r. apply valid_mk_pte.
    + erewrite leaf_lookup_ne by done. rewrite L1.
      destruct (decide (a + 4096 <= va < a + 4096 + Z.of_nat k * 4096)).
      * rewrite decide_True by lia. do 2 f_equal. lia.
      * rewrite decide_False; [done|]. Z.div_mod_to_equations. lia.
  - intros q [Hq|Hq]%T2; [|right; apply elem_of_app; by right].
    apply T1. by eapply leaf_in_tree.
  - intros q Hq%K1. apply K2. by eapply leaf_in_tree.
  - intros q [Hq|Hq]%U1; [by apply U2|right]. apply K2. by eapply leaf_in_tree.
  - intros q Mq Hf Ht i Hi.
    assert (~ in_tree m1 root q) as Ht1 by (intros [?|?]%T1; tauto).
    rewrite F2; [|done| | |done].
    + rewrite (leaf_frame m1 root a _ p _ W1 Hp) by done. by apply F1.
    + intros Hin. apply Hf, elem_of_app. by right.
    + intros Hq. by apply (leaf_in_tree m1 root a _ p _ W1 Hp) in Hq.
Qed.

(** One iteration of the loop of [mappages]. *)
Lemma ev_mappages_iter n root a last pa perm d fl :
  0 <= a < MAXVA -> pt_wf d.(mem) root fl -> kmem_inv d fl ->
  vlookup d.(mem) root a = None ->
  (exists m f, evals l0 L d (mappages_loop n root a last pa perm) (-1) L (with_mem d m f) /\
     pt_ext root d.(mem) fl m [] /\ kmem_inv (with_mem d m f) [] /\ (length fl < 2)%nat) \/
  exists m f fl' r, let m' := store64 m r (mk_pte pa perm) in
    pt_ext root d.(mem) fl m fl' /\ pte_of m root a = Some r /\
    kmem_inv (with_mem d m' f) fl' /\ (length fl <= 2 + length fl')%nat /\
    forall x d',
      evals l0 L (with_mem d m' f)
        (if a =? last then mret 0 else
         match n with
         | O => diverge
         | S n => mappages_loop n root (u64 (a + PGSIZE)) last (u64 (pa + PGSIZE)) perm
         end) x L d' ->
      evals l0 L d (mappages_loop n root a last pa perm) x L d'.
Proof.
  intros Ha Hwf Hinv Hun.
  destruct (ev_walk_alloc root a d fl) as (r & m & f & fl' & Hw & He & Hi & Hn & Hr);
    [lia|done..|].
  destruct Hr as [(-> & -> & Hn0)|Hr].
  { left. exists m, f. split; [|done]. destruct n; cbn [mappages_loop];
      (eapply ev_bind; [exact Hw|apply ev_ret]). }
  right. destruct (pte_of_tbl _ _ _ _ Hr) as (p & Hp & Er).
  assert (in_tree m root p) as Ht by (eexists; split; [apply is_path_px|done]).
  pose proof (wf_ok _ _ _ (pe_wf _ _ _ _ _ He) p Ht) as Hpok.
  pose proof (wf_free _ _ _ (pe_wf _ _ _ _ _ He) p Ht) as Hpf.
  pose proof (PX_bound 0 a ltac:(done)) as Hb.
  pose proof (entry_in_page p (PX 0 a) Hb) as [Hin1 Hin2].
  pose proof (page_ok_pos _ Hpok) as Hp0.
  assert (ctrue (Z.land (load64 m r) PTE_V) = false) as Hnv.
  { pose proof (pe_lookup _ _ _ _ _ He a) as Hl. rewrite Hun in Hl. unfold vlookup in Hl.
    rewrite Hr in Hl. cbn in Hl. unfold valid_pte in Hl. by destruct (ctrue _). }
  exists m, f, fl', r. split; [done|]. split; [done|]. split.
  { subst r. exact (kmem_inv_store (with_mem d m f) _ _ _ _ Hi (proj1 Hpok) Hpf Hin1 Hin2). }
  split; [done|]. intros x d' H. assert ((r =? 0) = false) as Hr0 by (apply Z.eqb_neq; lia).
  destruct n; cbn [mappages_loop]; (eapply ev_bind; [exact Hw|]); cbn beta; rewrite Hr0;
    (eapply ev_bind; [apply ev_ld|]); cbn beta;
    change (mem (with_mem d m f)) with m; rewrite Hnv;
    (eapply ev_bind; [apply ev_st|]); exact H.
Qed.

Lemma ev_mappages_loop n root a pa perm d fl :
  a mod PGSIZE = 0 -> 0 <= a -> a + Z.of_nat n * PGSIZE < MAXVA ->
  0 <= pa -> pa + Z.of_nat n * PGSIZE < 2 ^ 56 -> 0 <= perm < 2 ^ 10 ->
  pt_wf d.(mem) root fl -> kmem_inv d fl ->
  (forall va, a <= va <= a + Z.of_nat n * PGSIZE -> va mod PGSIZE = 0 ->
     vlookup d.(mem) root va = None) ->
  exists r m f fl' k, let d' := with_mem d m f in
    evals l0 L d (mappages_loop n root a (a + Z.of_nat n * PGSIZE) pa perm) r L d' /\
    pt_map root d.(mem) fl m fl' a k pa perm /\ kmem_inv d' fl' /\
    (length fl <= 2 * S n + length fl')%nat /\
    ((r = 0 /\ k = S n) \/ (r = -1 /\ (k <= n)%nat /\ fl' = [] /\ (length fl < 2 * S n)%nat)).
Proof.
  revert a pa d fl. induction n as [|n IH]; intros a pa d fl Hal Ha Hlast Hpa Hpl Hperm
    Hwf Hinv Hun.
  all: assert (0 <= a < MAXVA) as Har by (unfold PGSIZE in *; lia).
  all: assert (0 <= pa < 2 ^ 56) as Hpr by (unfold PGSIZE in *; lia).
  all: match goal with |- context [mappages_loop ?n] =>
    destruct (ev_mappages_iter n root a (a + Z.of_nat n * PGSIZE) pa perm d fl) as
    [(m & f & Hev & He & Hi & Hn1)|(m & f & fl1 & r & He & Hr & Hi & Hn1 & Hev)];
    [done|done|done|apply Hun; [unfold PGSIZE; lia|done]| |] end.
  1, 3: exists (-1), m, f, [], 0%nat; split; [exact Hev|]; split; [by apply pt_map_zero|];
    split; [done|split; [lia|right; repeat split; lia]].
  - exists 0, (store64 m r (mk_pte pa perm)), f, fl1, 1%nat. split.
    { apply Hev. rewrite (proj2 (Z.eqb_eq _ _)) by lia. apply ev_ret. }
    split; [|split; [done|split; [lia|by left]]]. eapply pt_map_step; [done..|].
    apply pt_map_zero, pt_ext_refl.
    destruct (pte_of_tbl _ _ _ _ Hr) as (p & Hp & ->). eapply leaf_wf; [apply He|done].
  - set (m1 := store64 m r (mk_pte pa perm)) in *.
    assert (pt_map root (mem d) fl m1 fl1 a 1 pa perm) as Hm1.
    { eapply pt_map_step; [done..|]. apply pt_map_zero, pt_ext_refl.
      destruct (pte_of_tbl _ _ _ _ Hr) as (p & Hp & ->). eapply leaf_wf; [apply He|done]. }
    destruct (IH (a + PGSIZE) (pa + PGSIZE) (with_mem d m1 f) fl1)
      as (x & m' & f' & fl' & k & Hev' & Hm' & Hi' & Hn' & Hx); try done.
    1-5: unfold PGSIZE in *; Z.div_mod_to_equations; lia.
    { apply Hm1. }
    { intros va Hva Hvl. change (mem (with_mem d m1 f)) with m1. destruct Hm1. unfold PGSIZE in *. rewrite pm_lookup0 by (first [done|lia]).
      rewrite decide_False by lia. apply Hun; [lia|done]. }
    exists x, m', f', fl', (S k). split.
    { apply Hev. rewrite (proj2 (Z.eqb_neq _ _)) by (unfold PGSIZE; lia).
      rewrite !u64_small by (unfold PGSIZE, MAXVA in *; lia).
      replace (a + Z.of_nat (S n) * PGSIZE) with (a + PGSIZE + Z.of_nat n * PGSIZE) by lia.
      exact Hev'. }
    split; [by eapply pt_map_step|]. split; [exact Hi'|]. split; [lia|].
    destruct Hx as [[-> ->]|(-> & ? & -> & ?)]; [by left|right; repeat split; lia].
Qed.

(** *** uvmunmap *)

(** A change inside a page that is not a page-table page is invisible to the tree. *)
Lemma tbl_outside m m' root fl q π :
  pt_wf m root fl -> q mod PGSIZE = 0 -> ~ in_tree m root q -> same_outside q m m' ->
  is_path π -> tbl m' root π = tbl m root π.
Proof.
  intros Hwf Hq Ht Hs Hπ. apply (tbl_frame m m' root [-1]); [|done|].
  - intros π' p j Hπ' Hp Hj _. apply entry_same. intros x Hx. apply Hs.
    assert (in_tree m root p) as Hin by (by exists π').
    pose proof (wf_ok _ _ _ Hwf p Hin) as [Mp _].
    pose proof (pages_disjoint p q Mp Hq ltac:(congruence)). unfold PGSIZE in *. lia.
  - intros [k ->]. destruct Hπ as [_ Hf]. apply Forall_inv in Hf. lia.
Qed.

Lemma in_tree_outside m m' root fl q p :
  pt_wf m root fl -> q mod PGSIZE = 0 -> ~ in_tree m root q -> same_outside q m m' ->
  in_tree m' root p <-> in_tree m root p.
Proof.
  intros. split; intros (π & Hπ & E); exists π; (split; [done|]);
    by rewrite (tbl_outside m m' root fl q) in * by done.
Qed.

Lemma vlookup_outside m m' root fl q va :
  pt_wf m root fl -> q mod PGSIZE = 0 -> ~ in_tree m root q -> same_outside q m m' ->
  vlookup m' root va = vlookup m root va.
Proof.
  intros Hwf Hq Ht Hs. rewrite !vlookup_path.
  rewrite (tbl_outside m m' root fl q) by (done || apply is_path_px).
  destruct (tbl m root [PX 2 va; PX 1 va]) as [p|] eqn:E; [|done]. cbn -[PX]. f_equal.
  apply entry_same. intros x Hx. apply Hs.
  assert (in_tree m root p) as Hin by (eexists; split; [apply is_path_px|done]).
  pose proof (wf_ok _ _ _ Hwf p Hin) as [Mp _]. pose proof (PX_bound 0 va ltac:(done)).
  pose proof (pages_disjoint p q Mp Hq ltac:(congruence)). unfold PGSIZE in *. lia.
Qed.

Lemma pt_wf_outside m m' root fl fl' q :
  pt_wf m root fl -> q mod PGSIZE = 0 -> ~ in_tree m root q -> same_outside q m m' ->
  (forall p, in_tree m root p -> p ∉ fl') -> pt_wf m' root fl'.
Proof.
  intros Hwf Hq Ht Hs Hf. split.
  - intros p Hp. apply (in_tree_outside m m' root fl q p) in Hp; [|done..]. by eapply wf_ok.
  - intros p Hp. apply (in_tree_outside m m' root fl q p) in Hp; [|done..]. by apply Hf.
  - intros π π' p Hπ Hπ'. rewrite !(tbl_outside m m' root fl q) by done. by eapply wf_inj.
Qed.

Lemma PTE2PA_aligned v : PTE2PA v mod PGSIZE = 0.
Proof.
  unfold PTE2PA, u64, PGSIZE. rewrite Z.shiftl_mul_pow2 by lia.
  change (2 ^ 64) with (2 ^ 52 * 2 ^ 12). rewrite Z.mul_mod_distr_r by lia.
  apply Z_mod_mult.
Qed.

(** [mappages] on a page-aligned address: either every page of the range is
    mapped to consecutive frames and nothing else changes, or the allocator ran
    out of page-table pages and a prefix of the range is mapped. *)
Lemma ev_mappages root va size pa perm d fl (n := (va + size - 1) / PGSIZE - va / PGSIZE) :
  0 < size -> 0 <= va -> va + size <= MAXVA ->
  0 <= pa -> pa + n * PGSIZE < 2 ^ 56 -> 0 <= perm < 2 ^ 10 ->
  pt_wf d.(mem) root fl -> kmem_inv d fl ->
  (forall a, PGROUNDDOWN va <= a < va + size -> a mod PGSIZE = 0 ->
     vlookup d.(mem) root a = None) ->
  exists r m f fl' k, let d' := with_mem d m f in
    evals l0 L d (mappages root va size pa perm) r L d' /\
    pt_map root d.(mem) fl m fl' (PGROUNDDOWN va) k pa perm /\ kmem_inv d' fl' /\
    Z.of_nat (length fl) <= 2 * (n + 1) + Z.of_nat (length fl') /\
    ((r = 0 /\ Z.of_nat k = n + 1) \/ (r = -1 /\ Z.of_nat k <= n /\ fl' = [] /\ Z.of_nat (length fl) < 2 * (n + 1))).
Proof.
  intros Hsz Hva Hmax Hpa Hpl Hperm Hwf Hinv Hun. unfold mappages.
  rewrite (proj2 (Z.eqb_neq _ _)) by lia.
  rewrite (u64_small (va + size - 1)) by (unfold MAXVA in *; lia).
  rewrite !PGROUNDDOWN_spec in *.
  assert (0 <= n) as Hn by (unfold n, PGSIZE; Z.div_mod_to_equations; lia).
  assert ((va + size - 1) / PGSIZE * PGSIZE = va / PGSIZE * PGSIZE + Z.of_nat (Z.to_nat n) * PGSIZE)
    as E by (rewrite Z2Nat.id by done; unfold n; lia).
  rewrite E. rewrite Z.add_simpl_l, Z2Nat.id, u64_small, Z.div_mul by
    (unfold n, PGSIZE, MAXVA in *; Z.div_mod_to_equations; lia).
  destruct (ev_mappages_loop (Z.to_nat n) root (va / PGSIZE * PGSIZE) pa perm d fl)
    as (r & m & f & fl' & k & Hev & Hm & Hi & Hlen & Hr); try done.
  1-4: rewrite ?Z2Nat.id by done; unfold n, PGSIZE, MAXVA in *; Z.div_mod_to_equations; lia.
  { intros a Ha Hal. apply Hun; [|done]. rewrite Z2Nat.id in Ha by done.
    unfold n, PGSIZE in *. Z.div_mod_to_equations. lia. }
  rewrite Z2Nat.id in Hev by done.
  exists r, m, f, fl', k. split; [exact Hev|]. split; [done|]. split; [done|]. split; [lia|].
  destruct Hr as [[-> ->]|(-> & ? & -> & ?)]; [left|right]; repeat split; lia.
Qed.
End eval.
End pagetable.
