(* ===== verification/UserMem.v ===== *)
(** * User address spaces: the contract of vm.c towards the rest of the kernel

    [vread] is the byte that a user address holds.  [uspace m root sz fl] says
    that the page table [root] gives a process the addresses below [sz], each
    page backed by a frame of its own.  The theorems state what copyin, copyout,
    uvmunmap, uvmdealloc, uvmalloc and uvmcopy do to such a space. *)
From S2P Require Export PageTable.

Section usermem.
Context `{KI : KernelImage}.

(** The frame behind a page that user code may access. *)
Definition upage (m : bytes) (root va : Z) : option Z :=
  pte ← vlookup m root va;
  if Z.land pte PTE_U =? 0 then None else Some (PTE2PA pte).

(** The physical address of a user address, and the byte it holds. *)
Definition uaddr (m : bytes) (root va : Z) : option Z :=
  if decide (va < MAXVA) then
    (fun p => p + va mod PGSIZE) <$> upage m root (PGROUNDDOWN va)
  else None.
Definition vread (m : bytes) (root va : Z) : option Z := m <$> uaddr m root va.

(** [uown m root own fl]: the page table [root] maps each page of [own] to a
    frame of its own, outside of the free list and of the page tables; user code
    can access no other page. *)
Record uown (m : bytes) (root : Z) (own : Z -> Prop) (fl : list Z) : Prop := {
  us_wf : pt_wf m root fl;
  us_dom : forall va, own va -> 0 <= va < MAXVA /\ va mod PGSIZE = 0;
  us_map : forall va, own va ->
    exists pte, vlookup m root va = Some pte /\ PTE_FLAGS pte <> PTE_V /\
      page_ok (PTE2PA pte) /\ (PTE2PA pte ∉ fl) /\ ~ in_tree m root (PTE2PA pte);
  us_inj : forall va va' pte pte', own va -> own va' ->
    vlookup m root va = Some pte -> vlookup m root va' = Some pte' ->
    PTE2PA pte = PTE2PA pte' -> va = va';
  us_top : forall va p, 0 <= va < MAXVA -> va mod PGSIZE = 0 ->
    upage m root va = Some p -> own va;
}.

(** The pages of a process of size [sz]. *)
Definition below (sz va : Z) : Prop := 0 <= va < sz /\ va mod PGSIZE = 0.
Definition uspace (m : bytes) (root sz : Z) (fl : list Z) : Prop :=
  sz <= MAXVA /\ uown m root (below sz) fl.

(** The physical pages of an address space: its page tables and its frames. *)
Definition pages_of (m : bytes) (root : Z) (own : Z -> Prop) (p : Z) : Prop :=
  in_tree m root p \/
  exists va pte, own va /\ vlookup m root va = Some pte /\ PTE2PA pte = p.

(** The pages that are free or belong to an address space.  An operation that keeps this set
    neither loses a page nor takes one of somebody else. *)
Definition pool (m : bytes) (root : Z) (own : Z -> Prop) (fl : list Z) (p : Z) : Prop :=
  p ∈ fl \/ pages_of m root own p.

(** Only pages of [P] have changed. *)
Definition only_pages (P : Z -> Prop) (m m' : bytes) : Prop :=
  forall p i, p mod PGSIZE = 0 -> ~ P p -> 0 <= i < PGSIZE -> m' (p + i) = m (p + i).

Context {KIok : KernelImageOk}.

Lemma only_trans (P Q : Z -> Prop) m1 m2 m3 :
  only_pages P m1 m2 -> only_pages Q m2 m3 -> (forall p, Q p -> P p) -> only_pages P m1 m3.
Proof. intros H1 H2 HQ p i Mp Hp Hi. rewrite H2 by auto. by apply H1. Qed.

Lemma only_outside (P : Z -> Prop) q m m' : q mod PGSIZE = 0 -> same_outside q m m' -> P q -> only_pages P m m'.
Proof.
  intros Mq Hs Hq p i Mp Hp Hi. apply Hs. assert (p <> q) as Hne by (by intros ->).
  pose proof (pages_disjoint p q Mp Mq Hne). lia.
Qed.

Lemma pool_ext m root (own own' : Z -> Prop) fl p :
  (forall va, own va <-> own' va) -> pool m root own fl p <-> pool m root own' fl p.
Proof. intros H. unfold pool, pages_of. by setoid_rewrite H. Qed.

(** The page tables and the free list exchange pages, the frames are the same. *)
Lemma pool_same m m' root own fl fl' :
  (forall p, p ∈ fl \/ in_tree m root p <-> p ∈ fl' \/ in_tree m' root p) ->
  (forall va, own va -> vlookup m' root va = vlookup m root va) ->
  forall p, pool m' root own fl' p <-> pool m root own fl p.
Proof.
  intros Ht Hl p. unfold pool, pages_of. pose proof (Ht p) as Hp.
  split; (intros [H|[H|(va & pte & Ho & E & Eq)]];
    [| |right; right; exists va, pte; rewrite ?Hl in * by done; done]); tauto.
Qed.

(** A frame [q] is mapped at [a]. *)
Lemma pool_map m m' root own own' fl fl' a pte q :
  (forall p, p ∈ fl \/ in_tree m root p <-> p ∈ fl' \/ in_tree m' root p) ->
  (forall va, own va -> vlookup m' root va = vlookup m root va) ->
  (forall va, own' va <-> own va \/ va = a) -> vlookup m' root a = Some pte -> PTE2PA pte = q ->
  forall p, pool m' root own' fl' p <-> p = q \/ pool m root own fl p.
Proof.
  intros Ht Hl Ho Ea Eq p. rewrite <- (pool_same m m' root own fl fl' Ht Hl p). unfold pool, pages_of. setoid_rewrite Ho. split.
  - intros [?|[?|(va & pte' & [Hva| ->] & E & E')]]; [tauto|tauto| |left; congruence].
    right. right. right. eauto.
  - intros [->|[?|[?|(va & pte' & Hva & E)]]]; [|tauto|tauto|]; right; right; [exists a, pte|exists va, pte']; auto.
Qed.

(** The frame [q] of [a] is unmapped and freed. *)
Lemma pool_unmap m m' root own fl a pte :
  (forall va, own va -> va <> a -> vlookup m' root va = vlookup m root va) ->
  (forall p, in_tree m' root p <-> in_tree m root p) -> own a -> vlookup m root a = Some pte ->
  forall p, pool m' root (fun va => own va /\ ~ (a = va)) (PTE2PA pte :: fl) p <-> pool m root own fl p.
Proof.
  intros Hl Ht Ha Ea p. unfold pool, pages_of. rewrite Ht, elem_of_cons. split.
  - intros [[->|?]|[?|(va & pte' & [Hva Hne] & E)]]; [|tauto|tauto|]; right; right; [by exists a, pte|].
    exists va, pte'. rewrite Hl in E by auto. tauto.
  - intros [?|[?|(va & pte' & Hva & E & <-)]]; [tauto|tauto|]. destruct (decide (va = a)) as [->|Hne].
    + left. left. congruence.
    + right. right. exists va, pte'. rewrite Hl by done. auto.
Qed.

Lemma upage_vlookup m root va p :
  upage m root va = Some p -> exists pte, vlookup m root va = Some pte /\ p = PTE2PA pte.
Proof.
  unfold upage. destruct (vlookup m root va) as [pte|]; [|done]. cbn.
  case_goal; [done|]. intros [= <-]. eauto.
Qed.

Lemma uown_upage m root own fl va p :
  uown m root own fl -> 0 <= va < MAXVA -> va mod PGSIZE = 0 ->
  upage m root va = Some p -> page_ok p /\ (p ∉ fl) /\ ~ in_tree m root p.
Proof.
  intros Hu Hva Hal Hp. pose proof (us_top _ _ _ _ Hu va p Hva Hal Hp).
  destruct (us_map _ _ _ _ Hu va) as (pte & Hl & _ & ?); [done|].
  apply upage_vlookup in Hp as (pte' & Hl' & ->). by simplify_eq.
Qed.

Lemma uaddr_decompose va i :
  0 <= i -> va mod PGSIZE + i < PGSIZE ->
  PGROUNDDOWN (va + i) = PGROUNDDOWN va /\ (va + i) mod PGSIZE = va mod PGSIZE + i.
Proof. rewrite !PGROUNDDOWN_spec. unfold PGSIZE. intros. Z.div_mod_to_equations. lia. Qed.

Section eval.
Context (l0 : lockst) (L : list lockptr).

Lemma ev_walkaddr root va d fl :
  pt_wf d.(mem) root fl -> 0 <= va ->
  evals l0 L d (walkaddr root va)
    (if decide (va < MAXVA) then default 0 (upage d.(mem) root va) else 0) L d.
Proof.
  intros Hwf Hva. unfold walkaddr. destruct (Z.leb_spec MAXVA va) as [Hm|Hm].
  { rewrite decide_False by lia. apply ev_ret. }
  rewrite decide_True by lia.
  eapply ev_bind; [by apply ev_walk_noalloc|]. cbn beta.
  unfold upage, vlookup. destruct (pte_of (mem d) root va) as [a|] eqn:Ha; [|apply ev_ret].
  cbn [default mbind option_bind]. unfold id.
  destruct (pte_of_tbl _ _ _ _ Ha) as (p & Hp & ->).
  assert (in_tree (mem d) root p) as Ht by (eexists; split; [apply is_path_px|done]).
  pose proof (page_ok_pos _ (wf_ok _ _ _ Hwf _ Ht)). pose proof (PX_bound 0 va ltac:(done)).
  rewrite (proj2 (Z.eqb_neq (p + _) 0)) by lia.
  eapply ev_bind; [apply ev_ld|]. cbn beta. unfold valid_pte, ctrue.
  destruct (Z.land _ PTE_V =? 0); cbn; [apply ev_ret|].
  destruct (Z.land _ PTE_U =? 0); cbn; apply ev_ret.
Qed.

(** The number of bytes that an iteration of the copy loops moves. *)
Definition chunk (va len : Z) : Z :=
  let n := PGSIZE - (va - PGROUNDDOWN va) in if len <? n then len else n.

Lemma chunk_spec va len :
  0 < len -> 0 < chunk va len <= len /\
  va mod PGSIZE + chunk va len <= PGSIZE /\
  (chunk va len = len \/ PGROUNDDOWN va + PGSIZE = va + chunk va len) /\
  va - PGROUNDDOWN va = va mod PGSIZE.
Proof.
  intros. unfold chunk. rewrite PGROUNDDOWN_spec. unfold PGSIZE.
  destruct (Z.ltb_spec len (4096 - (va - va / 4096 * 4096)));
    Z.div_mod_to_equations; lia.
Qed.

Lemma uaddr_chunk m root va len :
  0 < len -> 0 <= va -> forall i, 0 <= i < chunk va len ->
  uaddr m root (va + i) =
    (fun p => p + (va mod PGSIZE + i)) <$>
      (if decide (PGROUNDDOWN va < MAXVA) then upage m root (PGROUNDDOWN va) else None).
Proof.
  intros Hlen Hva i Hi. destruct (chunk_spec va len Hlen) as (_ & Hcp & _).
  destruct (uaddr_decompose va i) as [E1 E2]; [lia..|].
  pose proof (PGROUNDDOWN_bound (va + i)) as Hb. rewrite E1 in Hb.
  unfold uaddr. rewrite E1, E2.
  rewrite (decide_ext (va + i < MAXVA) (PGROUNDDOWN va < MAXVA)).
  - case_dec; [|done]. by destruct (upage _ _ _).
  - unfold MAXVA, PGSIZE in *. Z.div_mod_to_equations. lia.
Qed.

(** [copyin]: the destination receives the bytes at the user addresses, up to the
    first that is not mapped; only then does the call fail. *)
Lemma ev_copyin_loop fuel root dm dst srcva len d fl :
  pt_wf d.(mem) root fl ->
  (forall va p, 0 <= va < MAXVA -> va mod PGSIZE = 0 ->
     upage d.(mem) root va = Some p -> p <> 0) ->
  0 <= srcva -> (0 < len -> srcva + len <= 2 ^ 63) -> len <= Z.of_nat fuel ->
  exists r dm' k, evals l0 L d (copyin_loop fuel root dm dst srcva len) (r, dm') L d /\
    0 <= k <= Z.max 0 len /\
    (forall i, 0 <= i < k -> vread d.(mem) root (srcva + i) = Some (dm' (dst + i))) /\
    (forall x, x < dst \/ dst + k <= x -> dm' x = dm x) /\
    ((r = 0 /\ k = Z.max 0 len) \/ (r = -1 /\ k < len /\ vread d.(mem) root (srcva + k) = None)).
Proof.
  intros Hwf Hnz. revert dm dst srcva len.
  induction fuel as [|fuel IH]; intros dm dst srcva len Hs Hmax Hfuel; cbn [copyin_loop].
  { rewrite (proj2 (Z.ltb_ge _ _)) by lia. exists 0, dm, 0. split; [apply ev_ret|].
    split; [lia|]. split; [lia|]. split; [done|]. left. lia. }
  destruct (Z.ltb_spec 0 len) as [Hlen|Hlen]; cbn [negb].
  2: { exists 0, dm, 0. split; [apply ev_ret|]. repeat split; try lia; try done; left; lia. }
  destruct (chunk_spec srcva len Hlen) as (Hc & Hcp & Hcn & Hoff).
  destruct (PGROUNDDOWN_bound srcva) as [Hal Hpd].
  assert (0 <= PGROUNDDOWN srcva) as Hpd0
    by (unfold PGSIZE in *; Z.div_mod_to_equations; lia).
  pose proof (uaddr_chunk (mem d) root srcva len Hlen Hs) as Hread.
  fold (chunk srcva len). rewrite Hoff.
  set (pg := if decide (PGROUNDDOWN srcva < MAXVA)
             then upage (mem d) root (PGROUNDDOWN srcva) else None) in *.
  assert (evals l0 L d (walkaddr root (PGROUNDDOWN srcva)) (default 0 pg) L d) as Hw.
  { eapply evals_eq; [by eapply ev_walkaddr|unfold pg; by case_dec|done..]. }
  destruct pg as [p|] eqn:Hpg; cbn in Hw.
  2: { exists (-1), dm, 0. split; [eapply ev_bind; [exact Hw|apply ev_ret]|].
       split; [lia|]. split; [lia|]. split; [done|]. right. split; [done|]. split; [lia|].
       unfold vread. by rewrite Hread by lia. }
  assert (p <> 0) as Hp.
  { unfold pg in Hpg. destruct (decide _); [|done]. by eapply Hnz in Hpg. }
  set (n := chunk srcva len) in *.
  destruct (IH (memmove_across dm dst (mem d) (p + srcva mod PGSIZE) n) (dst + n)
    (u64 (PGROUNDDOWN srcva + PGSIZE)) (len - n)) as (r & dm' & k & Hev & Hk & Hin & Hout & Hr).
  1-3: rewrite ?u64_small by (unfold PGSIZE in *; lia); destruct Hcn; unfold PGSIZE in *; lia.
  exists r, dm', (n + k). split; [|split; [|split; [|split]]].
  - eapply ev_bind; [exact Hw|]. cbn beta. rewrite (proj2 (Z.eqb_neq _ _)) by done.
    eapply ev_bind; [apply ev_getd|]. exact Hev.
  - lia.
  - intros i Hi. destruct (decide (i < n)) as [Hin'|Hin'].
    + unfold vread. rewrite Hread by lia. cbn. f_equal. rewrite Hout by lia.
      rewrite memmove_across_spec by lia. zcases. f_equal. lia.
    + specialize (Hin (i - n) ltac:(lia)). rewrite u64_small in Hin by (unfold PGSIZE in *; lia).
      replace (PGROUNDDOWN srcva + PGSIZE + (i - n)) with (srcva + i) in Hin by lia.
      rewrite Hin. do 2 f_equal. lia.
  - intros x Hx. rewrite Hout by lia. rewrite memmove_across_spec by lia. zcases.
  - destruct Hr as [[-> ->]|(-> & Hkl & Hno)]; [left; split; [done|lia]|right].
    split; [done|]. split; [lia|]. rewrite u64_small in Hno by (unfold PGSIZE in *; lia).
    rewrite <- Hno. f_equal. lia.
Qed.

(** *** copyout *)

Lemma uaddr_outside m m' root fl q va :
  pt_wf m root fl -> q mod PGSIZE = 0 -> ~ in_tree m root q -> same_outside q m m' ->
  uaddr m' root va = uaddr m root va.
Proof.
  intros. unfold uaddr, upage. case_dec; [|done].
  by rewrite (vlookup_outside m m' root fl q) by done.
Qed.

Lemma uown_outside m m' root own fl q :
  uown m root own fl -> q mod PGSIZE = 0 -> ~ in_tree m root q -> same_outside q m m' ->
  uown m' root own fl.
Proof.
  intros [Hwf Hdom Hmap Hinj Htop] Hq Ht Hs.
  assert (forall va, vlookup m' root va = vlookup m root va) as Hv
    by (intros; by eapply vlookup_outside).
  split.
  - eapply pt_wf_outside; [done..|]. by eapply wf_free.
  - done.
  - intros va Hva. rewrite Hv. destruct (Hmap va Hva) as (pte & ? & ? & ? & ? & Hn).
    exists pte. do 4 (split; [done|]). intros Hin. apply Hn.
    by apply (in_tree_outside m m' root fl q).
  - intros va va' pte pte' ??. rewrite !Hv. by apply Hinj.
  - intros va p ??. unfold upage. rewrite Hv. by apply Htop.
Qed.

(** Two user addresses with the same physical address are equal. *)
Lemma uaddr_inj m root own fl va va' x :
  uown m root own fl -> 0 <= va -> 0 <= va' ->
  uaddr m root va = Some x -> uaddr m root va' = Some x -> va = va'.
Proof.
  intros Hu H0 H0' H1 H2. unfold uaddr in *.
  destruct (decide (va < MAXVA)); [|done]. destruct (decide (va' < MAXVA)); [|done].
  apply fmap_Some in H1 as (p & Hp & ->). apply fmap_Some in H2 as (p' & Hp' & Hx).
  destruct (PGROUNDDOWN_bound va) as [Ha1 Ha2]. destruct (PGROUNDDOWN_bound va') as [Hb1 Hb2].
  assert (0 <= PGROUNDDOWN va < MAXVA) as Ra by (unfold PGSIZE in *; Z.div_mod_to_equations; lia).
  assert (0 <= PGROUNDDOWN va' < MAXVA) as Rb by (unfold PGSIZE in *; Z.div_mod_to_equations; lia).
  destruct (uown_upage _ _ _ _ _ _ Hu Ra Ha1 Hp) as [[Mp _] _].
  destruct (uown_upage _ _ _ _ _ _ Hu Rb Hb1 Hp') as [[Mp' _] _].
  pose proof (us_top _ _ _ _ Hu _ _ Ra Ha1 Hp).
  pose proof (us_top _ _ _ _ Hu _ _ Rb Hb1 Hp').
  pose proof (Z.mod_pos_bound va PGSIZE ltac:(done)).
  pose proof (Z.mod_pos_bound va' PGSIZE ltac:(done)).
  assert (p = p') as <-.
  { destruct (decide (p = p')) as [|Hne]; [done|].
    pose proof (pages_disjoint p p' Mp Mp' Hne). lia. }
  apply upage_vlookup in Hp as (pte & Hl & ->). apply upage_vlookup in Hp' as (pte' & Hl' & E).
  pose proof (us_inj _ _ _ _ Hu (PGROUNDDOWN va) (PGROUNDDOWN va') _ _
    ltac:(done) ltac:(done) Hl Hl' E).
  rewrite (Z.div_mod va PGSIZE), (Z.div_mod va' PGSIZE) by done.
  rewrite !PGROUNDDOWN_spec in *. lia.
Qed.

Lemma ev_copyout_loop fuel root dstva sm src len d own fl :
  uown d.(mem) root own fl ->
  0 <= dstva -> (0 < len -> dstva + len <= 2 ^ 63) -> len <= Z.of_nat fuel ->
  exists r m k, evals l0 L d (copyout_loop fuel root dstva sm src len) r L (d <| mem := m |>) /\
    uown m root own fl /\ (forall va, uaddr m root va = uaddr d.(mem) root va) /\
    0 <= k <= Z.max 0 len /\
    (forall i, 0 <= i < k -> vread m root (dstva + i) = Some (sm (src + i))) /\
    (forall x, (forall i, 0 <= i < k -> uaddr d.(mem) root (dstva + i) <> Some x) ->
       m x = d.(mem) x) /\
    ((r = 0 /\ k = Z.max 0 len) \/
     (r = -1 /\ k < len /\ uaddr d.(mem) root (dstva + k) = None)).
Proof.
  revert dstva src len d.
  induction fuel as [|fuel IH]; intros dstva src len d Hu Hs Hmax Hfuel; cbn [copyout_loop].
  { rewrite (proj2 (Z.ltb_ge _ _)) by lia. exists 0, (mem d), 0.
    split; [eapply evals_eq; [apply ev_ret|done..|by destruct d]|].
    do 5 (split; [first [done|lia]|]). left. lia. }
  destruct (Z.ltb_spec 0 len) as [Hlen|Hlen]; cbn [negb].
  2: { exists 0, (mem d), 0. split; [eapply evals_eq; [apply ev_ret|done..|by destruct d]|].
       do 5 (split; [first [done|lia]|]). left. lia. }
  destruct (chunk_spec dstva len Hlen) as (Hc & Hcp & Hcn & Hoff).
  destruct (PGROUNDDOWN_bound dstva) as [Hal Hpd].
  assert (0 <= PGROUNDDOWN dstva) as Hpd0
    by (unfold PGSIZE in *; Z.div_mod_to_equations; lia).
  pose proof (uaddr_chunk (mem d) root dstva len Hlen Hs) as Hread.
  fold (chunk dstva len). rewrite Hoff.
  set (pg := if decide (PGROUNDDOWN dstva < MAXVA)
             then upage (mem d) root (PGROUNDDOWN dstva) else None) in *.
  assert (evals l0 L d (walkaddr root (PGROUNDDOWN dstva)) (default 0 pg) L d) as Hw.
  { eapply evals_eq; [eapply ev_walkaddr; [apply Hu|done]|unfold pg; by case_dec|done..]. }
  destruct pg as [p|] eqn:Hpg; cbn in Hw.
  2: { exists (-1), (mem d), 0. split.
       { eapply ev_bind; [exact Hw|]. eapply evals_eq; [apply ev_ret|done..|by destruct d]. }
       do 5 (split; [first [done|lia]|]). right. split; [done|]. split; [lia|].
       by rewrite Hread by lia. }
  assert (page_ok p /\ (p ∉ fl) /\ ~ in_tree (mem d) root p) as (Hpok & Hpf & Hpt).
  { unfold pg in Hpg. destruct (decide _); [|done]. by eapply uown_upage in Hpg. }
  pose proof (page_ok_pos _ Hpok). pose proof (Z.mod_pos_bound dstva PGSIZE ltac:(done)).
  set (n := chunk dstva len) in *.
  set (m1 := memmove_across (mem d) (p + dstva mod PGSIZE) sm src n).
  assert (same_outside p (mem d) m1) as Hs1.
  { intros x Hx. unfold m1. rewrite memmove_across_spec by lia. zcases. }
  assert (forall va, uaddr m1 root va = uaddr (mem d) root va) as Hua.
  { intros va. eapply uaddr_outside; [apply Hu|apply Hpok|done|done]. }
  destruct (IH (u64 (PGROUNDDOWN dstva + PGSIZE)) (src + n) (len - n) (d <| mem := m1 |>))
    as (r & m' & k & Hev & Hu' & Ha' & Hk & Hin & Hout & Hr).
  { eapply uown_outside; [done|apply Hpok|done|done]. }
  1-3: rewrite ?u64_small by (unfold PGSIZE in *; lia); destruct Hcn; unfold PGSIZE in *; lia.
  rewrite u64_small in * by (unfold PGSIZE in *; lia). cbn [mem] in *.
  change (mem (d <| mem := m1 |>)) with m1 in *.
  assert (forall j, 0 <= j < k -> PGROUNDDOWN dstva + PGSIZE + j = dstva + (n + j)) as Hj
    by lia.
  exists r, m', (n + k). split; [|split; [done|split; [|split; [lia|split; [|split]]]]].
  - eapply ev_bind; [exact Hw|]. cbn beta. rewrite (proj2 (Z.eqb_neq _ _)) by lia.
    eapply ev_bind; [apply ev_modd|]. exact Hev.
  - intros va. by rewrite Ha', Hua.
  - intros i Hi. destruct (decide (i < n)) as [Hin'|Hin'].
    + unfold vread. rewrite Ha', Hua, Hread by lia. cbn. f_equal.
      rewrite Hout; [unfold m1; rewrite memmove_across_spec by lia; zcases; f_equal; lia|].
      intros j Hjk E. rewrite Hua, Hj in E by lia.
      pose proof (Hread i ltac:(lia)) as Hri. cbn in Hri.
      assert (dstva + (n + j) = dstva + i); [|lia].
      eapply uaddr_inj; [exact Hu|lia|lia|exact E|exact Hri].
    + specialize (Hin (i - n) ltac:(lia)). rewrite Hj in Hin by lia.
      replace (dstva + i) with (dstva + (n + (i - n))) by lia. rewrite Hin. do 2 f_equal. lia.
  - intros x Hx. rewrite Hout.
    + unfold m1. rewrite memmove_across_spec by lia.
      destruct (Z.leb_spec (p + dstva mod PGSIZE) x); [|done].
      destruct (Z.ltb_spec x (p + dstva mod PGSIZE + n)); [|done].
      destruct (Hx (x - (p + dstva mod PGSIZE))); [lia|].
      rewrite Hread by lia. cbn. f_equal. lia.
    + intros j Hjk. rewrite Hua, Hj by lia. apply Hx. lia.
  - destruct Hr as [[-> ->]|(-> & Hkl & Hno)]; [left; split; [done|lia]|right].
    split; [done|]. split; [lia|]. rewrite Hua in Hno. rewrite <- Hno. f_equal. lia.
Qed.

(** *** uvmunmap and uvmdealloc *)

Context (Hk : kmem_lock ∉ L) (Hfree : lfree l0 kmem_lock).

(** [m'] is [m] without the pages [gone], whose frames [qs] are free again. *)
Record unmapped (root : Z) (m m' : bytes) (gone : Z -> Prop) (qs : list Z) : Prop := {
  un_lookup : forall va, 0 <= va < MAXVA -> va mod PGSIZE = 0 -> ~ gone va ->
    vlookup m' root va = vlookup m root va;
  un_gone : forall va, 0 <= va < MAXVA -> va mod PGSIZE = 0 -> gone va ->
    vlookup m' root va = None;
  un_tree : forall p, in_tree m' root p <-> in_tree m root p;
  un_frame : forall p, p mod PGSIZE = 0 -> p ∉ qs -> ~ in_tree m root p ->
    forall i, 0 <= i < PGSIZE -> m' (p + i) = m (p + i);
}.

Lemma valid_pte_Some v pte : valid_pte v = Some pte -> v = pte /\ ctrue (Z.land v PTE_V) = true.
Proof. unfold valid_pte. destruct (ctrue _); [|done]. by intros [= ->]. Qed.

Lemma vlookup_pte_of m root va pte :
  vlookup m root va = Some pte ->
  exists p, tbl m root [PX 2 va; PX 1 va] = Some p /\
    pte_of m root va = Some (p + 8 * PX 0 va) /\ load64 m (p + 8 * PX 0 va) = pte /\
    ctrue (Z.land pte PTE_V) = true.
Proof.
  unfold vlookup, pte_of. destruct (tbl m root _) as [p|]; [|done].
  cbn -[PX]. intros [<- ?]%valid_pte_Some. by exists p.
Qed.

(** Look up the entry of a mapped page and continue with it. *)
Lemma ev_walk_leaf {A} root va d pte fl e1 e2 (k : Z -> M A) x d' :
  pt_wf d.(mem) root fl -> va < MAXVA -> vlookup d.(mem) root va = Some pte ->
  (forall a, tbl d.(mem) root [PX 2 va; PX 1 va] = Some a ->
     evals l0 L d (k pte) x L d') ->
  evals l0 L d
    (a ← walk root va false;
     if a =? 0 then panic e1 else
     v ← ld a; if Z.land v PTE_V =? 0 then panic e2 else k v) x L d'.
Proof.
  intros Hwf Hva Hl Hk'. destruct (vlookup_pte_of _ _ _ _ Hl) as (p & Hp & Hpte & Hld & Hval).
  eapply ev_bind; [by apply ev_walk_noalloc|]. rewrite Hpte. cbn [default from_option]. unfold id.
  assert (in_tree (mem d) root p) as Hpt by (eexists; split; [apply is_path_px|done]).
  pose proof (page_ok_pos _ (wf_ok _ _ _ Hwf p Hpt)). pose proof (PX_bound 0 va ltac:(done)).
  rewrite (proj2 (Z.eqb_neq (p + _) 0)) by lia.
  eapply ev_bind; [apply ev_ld|]. cbn beta. rewrite Hld. unfold ctrue in Hval.
  destruct (Z.land pte PTE_V =? 0); [done|]. by eapply Hk'.
Qed.

#[export] Instance uown_proper :
  Proper ((=) ==> (=) ==> pointwise_relation _ iff ==> (=) ==> iff) uown.
Proof.
  assert (forall m root own own' fl, pointwise_relation _ iff own own' ->
    uown m root own fl -> uown m root own' fl) as H.
  { intros m root own own' fl Ho []. split; try done.
    - intros va Hva. apply us_dom0. by apply Ho.
    - intros va Hva. apply us_map0. by apply Ho.
    - intros va va' pte pte' ??. apply us_inj0; by apply Ho.
    - intros va p ???. apply Ho. by eapply us_top0. }
  intros m ? <- root ? <- own own' Ho fl ? <-. split; apply H; [done|].
  intros va. by symmetry.
Qed.

Lemma only_unmapped root m m' own own' gone qs fl :
  unmapped root m m' gone qs -> (forall p, pool m' root own' (qs ++ fl) p <-> pool m root own fl p) ->
  only_pages (pool m root own fl) m m'.
Proof.
  intros Hun Hpl p i Mp Hp Hi. apply (un_frame _ _ _ _ _ Hun); [done| | |done].
  - intros Hq. apply Hp, Hpl. left. apply elem_of_app. by left.
  - intros Ht. apply Hp. right. by left.
Qed.

(** Unmapping pages gives up their ownership and frees their frames. *)
Lemma uown_unmapped root m m' own gone qs fl :
  uown m root own fl -> pt_wf m' root (qs ++ fl) -> unmapped root m m' gone qs ->
  (forall va, Decision (gone va)) ->
  (forall q, q ∈ qs -> exists va pte, own va /\ gone va /\ vlookup m root va = Some pte /\
     PTE2PA pte = q) ->
  uown m' root (fun va => own va /\ ~ gone va) (qs ++ fl).
Proof.
  intros [Hwf Hdom Hmap Hinj Htop] Hwf' [Hl Hg Ht Hf] Hdec Hqs. split; [done|..].
  - intros va [? _]. by apply Hdom.
  - intros va [Hva Hn]. destruct (Hdom va Hva). rewrite Hl by done.
    destruct (Hmap va Hva) as (pte & E & ? & ? & ? & Hnt).
    exists pte. split; [done|]. split; [done|]. split; [done|]. rewrite Ht. split; [|done].
    intros [Hq|?]%elem_of_app; [|done].
    apply Hqs in Hq as (va' & pte' & Hva' & Hg' & E' & Eq).
    rewrite (Hinj va' va pte' pte) in Hg' by done. done.
  - intros va va' pte pte' [Hva Hn] [Hva' Hn'].
    destruct (Hdom va Hva), (Hdom va' Hva'). rewrite !Hl by done. by apply Hinj.
  - intros va p Hva Hal Hp. unfold upage in Hp. destruct (decide (gone va)).
    + by rewrite Hg in Hp.
    + rewrite Hl in Hp by done. split; [|done]. by eapply Htop.
Qed.

(** The data after one iteration that frees the frame of [pte]. *)
Lemma unmap_one root own fl d a pte p :
  uown d.(mem) root own fl -> kmem_inv d fl -> own a -> vlookup d.(mem) root a = Some pte ->
  tbl d.(mem) root [PX 2 a; PX 1 a] = Some p ->
  let q := PTE2PA pte in
  let m' := store64 (kfree_d q d).(mem) (p + 8 * PX 0 a) 0 in
  page_ok q /\ pt_wf m' root (q :: fl) /\ kmem_inv (with_mem d m' q) (q :: fl) /\
  unmapped root d.(mem) m' (eq a) [q].
Proof.
  intros Hu Hinv Ha Hl Hp q m'. set (m1 := (kfree_d q d).(mem)) in *.
  destruct (us_map _ _ _ _ Hu a Ha) as (pte' & Hl' & _ & Hq & Hqf & Hqt).
  simplify_eq. fold q in Hq, Hqf, Hqt.
  pose proof (us_wf _ _ _ _ Hu) as Hwf. destruct (us_dom _ _ _ _ Hu a Ha) as [Hra Hal].
  pose proof (kfree_mem_outside q d) as Hs. fold m1 in Hs.
  assert (pt_wf m1 root (q :: fl)) as Hwf1.
  { eapply pt_wf_outside; [done|apply Hq|done|done|].
    intros p' Hp'. apply not_elem_of_cons. split; [congruence|by eapply wf_free]. }
  assert (tbl m1 root [PX 2 a; PX 1 a] = Some p) as Hp1.
  { rewrite <- Hp. eapply tbl_outside; [done|apply Hq|done|done|apply is_path_px]. }
  assert (in_tree m1 root p) as Hpt by (eexists; split; [apply is_path_px|done]).
  pose proof (wf_ok _ _ _ Hwf1 p Hpt) as Hpok. pose proof (wf_free _ _ _ Hwf1 p Hpt) as Hpf.
  pose proof (entry_in_page p (PX 0 a) ltac:(by apply PX_bound)) as [Hin1 Hin2].
  assert (forall p', in_tree m1 root p' <-> in_tree (mem d) root p') as Ht1
    by (intros; eapply in_tree_outside; [done|apply Hq|done|done]).
  split; [done|]. split; [by eapply leaf_wf|]. split.
  { exact (kmem_inv_store (kfree_d q d) _ _ 0 p (kfree_inv _ _ _ Hq Hqf Hinv)
      (proj1 Hpok) Hpf Hin1 Hin2). }
  split.
  - intros va Hva Hval Hne. unfold m'.
    rewrite (leaf_lookup_ne m1 root a 0 p _ Hwf1 Hp1) by done.
    eapply vlookup_outside; [done|apply Hq|done|done].
  - intros va _ _ <-. unfold m'. by rewrite (leaf_lookup_eq m1 root a 0 p _ Hwf1 Hp1).
  - intros p'. unfold m'. by rewrite (leaf_in_tree m1 root a 0 p _ Hwf1 Hp1).
  - intros p' Mp' Hne Hnt i Hi. unfold m'.
    rewrite (leaf_frame m1 root a 0 p _ Hwf1 Hp1); [|done|by rewrite Ht1|done].
    apply Hs. assert (p' <> q) as Hne' by (intros ->; apply Hne; by left).
    pose proof (pages_disjoint p' q Mp' (proj1 Hq) Hne'). lia.
Qed.

Lemma unmapped_trans root m1 m2 m3 g1 g2 q1 q2 :
  (forall va, Decision (g1 va)) -> (forall va, Decision (g2 va)) ->
  unmapped root m1 m2 g1 q1 -> unmapped root m2 m3 g2 q2 ->
  unmapped root m1 m3 (fun va => g1 va \/ g2 va) (q2 ++ q1).
Proof.
  intros D1 D2 [L1 G1 T1 F1] [L2 G2 T2 F2]. split.
  - intros va ?? Hn. rewrite L2, L1 by tauto. done.
  - intros va ?? Hg. destruct (D2 va); [by apply G2|]. rewrite L2 by done. apply G1; tauto.
  - intros p. by rewrite T2, T1.
  - intros p ? Hn Ht i Hi. rewrite F2, F1; try done.
    + intros Hin. apply Hn, elem_of_app. by right.
    + intros Hin. apply Hn, elem_of_app. by left.
    + by rewrite T1.
Qed.

(** A page taken from the free list belongs to no address space. *)
Lemma uown_take root m m' own q fl :
  uown m root own (q :: fl) -> page_ok q -> same_outside q m m' ->
  uown m' root own fl /\ ~ in_tree m root q /\
  (forall va, vlookup m' root va = vlookup m root va) /\
  (forall p, in_tree m' root p <-> in_tree m root p) /\
  (forall va pte, own va -> vlookup m root va = Some pte -> PTE2PA pte <> q).
Proof.
  intros Hu [Mq Bq] Hs. pose proof (us_wf _ _ _ _ Hu) as Hwf.
  assert (~ in_tree m root q) as Hqt.
  { intros Ht%(wf_free _ _ _ Hwf). apply Ht. by left. }
  assert (forall va pte, own va -> vlookup m root va = Some pte ->
    PTE2PA pte ∉ q :: fl) as Hown.
  { intros va pte Hva Hl. destruct (us_map _ _ _ _ Hu va Hva) as (? & ? & _ & _ & ? & _).
    by simplify_eq. }
  assert (uown m root own fl) as Hu'.
  { destruct Hu. split; try done.
    - destruct us_wf0 as [? Hf ?]. split; try done. intros p Hp%Hf.
      by apply not_elem_of_cons in Hp as [_ ?].
    - intros va Hva. destruct (us_map0 va Hva) as (pte & ? & ? & ? & Hn & ?).
      exists pte. apply not_elem_of_cons in Hn as [_ ?]. done. }
  split; [by eapply uown_outside|]. split; [done|]. split; [|split].
  - intros va. eapply vlookup_outside; [apply Hu'|done..].
  - intros p. eapply in_tree_outside; [apply Hu'|done..].
  - intros va pte Hva Hl. pose proof (Hown va pte Hva Hl) as Hn.
    by apply not_elem_of_cons in Hn as [? _].
Qed.

(** The bytes of the pages of [own] are the same in [m'] as in [m]. *)
Definition keeps (root : Z) (own : Z -> Prop) (m m' : bytes) : Prop :=
  forall va, 0 <= va -> own (PGROUNDDOWN va) -> vread m' root va = vread m root va.

Lemma keeps_intro root own m m' :
  (forall va, own va -> vlookup m' root va = vlookup m root va) ->
  (forall va pte i, own va -> vlookup m root va = Some pte -> 0 <= i < PGSIZE ->
     m' (PTE2PA pte + i) = m (PTE2PA pte + i)) ->
  keeps root own m m'.
Proof.
  intros Hl Hm va Hva Ho. unfold vread, uaddr, upage. case_dec; [|done].
  rewrite Hl by done. destruct (vlookup m root _) as [pte|] eqn:E; [|done]. cbn.
  case_goal; [done|]. cbn. f_equal. eapply Hm; [done..|]. by apply Z.mod_pos_bound.
Qed.

Lemma keeps_refl root own m : keeps root own m m.
Proof. by intros va. Qed.

Lemma keeps_trans root own m1 m2 m3 :
  keeps root own m1 m2 -> keeps root own m2 m3 -> keeps root own m1 m3.
Proof. intros H1 H2 va ??. by rewrite H2, H1. Qed.

Lemma keeps_mono root (own own' : Z -> Prop) m m' :
  (forall va, own' va -> own va) -> keeps root own m m' -> keeps root own' m m'.
Proof. intros Ho H va ??. apply H; auto. Qed.

Lemma keeps_map root own m m' fl fl' a k q perm :
  uown m root own fl -> pt_map root m fl m' fl' a k q perm ->
  (forall va, own va -> ~ a <= va < a + Z.of_nat k * PGSIZE) -> keeps root own m m'.
Proof.
  intros Hu [Wf Hfl Hl Ht _ _ Hf] Hna. apply keeps_intro.
  - intros va Hva. destruct (us_dom _ _ _ _ Hu va Hva). rewrite Hl by done.
    by rewrite decide_False by auto.
  - intros va pte i Hva E Hi. destruct (us_map _ _ _ _ Hu va Hva) as (? & E' & _ & Hq & ? & ?).
    simplify_eq. apply Hf; [apply Hq|done..].
Qed.

Lemma keeps_take root own m m' q fl :
  uown m root own (q :: fl) -> page_ok q -> same_outside q m m' -> keeps root own m m'.
Proof.
  intros Hu Hq Hs. destruct (uown_take _ _ _ _ _ _ Hu Hq Hs) as (_ & _ & Hv & _ & Hne).
  apply keeps_intro; [auto|]. intros va pte i Hva E Hi. apply Hs.
  destruct Hq as [Mq _]. pose proof (PTE2PA_aligned pte) as Mp.
  pose proof (pages_disjoint _ q Mp Mq (Hne _ _ Hva E)). lia.
Qed.

Lemma keeps_unmapped root (own own' gone : Z -> Prop) m m' qs fl :
  uown m root own fl -> unmapped root m m' gone qs ->
  (forall va, own' va -> own va /\ ~ gone va) ->
  (forall q, q ∈ qs -> exists va pte, own va /\ gone va /\ vlookup m root va = Some pte /\
     PTE2PA pte = q) ->
  keeps root own' m m'.
Proof.
  intros Hu [Hl _ _ Hf] Ho Hqs. apply keeps_intro.
  - intros va [Hva Hg]%Ho. destruct (us_dom _ _ _ _ Hu va Hva). by apply Hl.
  - intros va pte i [Hva Hg]%Ho E Hi.
    destruct (us_map _ _ _ _ Hu va Hva) as (? & E' & _ & Hq & ? & ?). simplify_eq.
    apply Hf; [apply Hq| |done|done].
    intros (va' & pte' & Hva' & Hg' & El & Eq)%Hqs. apply Hg.
    by rewrite (us_inj _ _ _ _ Hu va va' pte pte') by done.
Qed.
(** The page addresses of a range. *)
Definition in_range (a b va : Z) : Prop := a <= va < b /\ va mod PGSIZE = 0.
#[export] Instance in_range_dec a b va : Decision (in_range a b va) := _.

Lemma in_range_step a b va :
  a mod PGSIZE = 0 -> a + PGSIZE <= b ->
  in_range a b va <-> a = va \/ in_range (a + PGSIZE) b va.
Proof.
  unfold in_range, PGSIZE. intros. split; [|intros [<-|?]; split; lia].
  intros [? Hm]. destruct (decide (a = va)); [by left|right]. split; [|done].
  Z.div_mod_to_equations. lia.
Qed.

Lemma unmapped_ext root m m' g g' qs :
  (forall va, g va <-> g' va) -> unmapped root m m' g qs -> unmapped root m m' g' qs.
Proof.
  intros Hg []. split; try done.
  - intros va ?? Hn. apply un_lookup0; try done. by rewrite Hg.
  - intros va ?? Hn. apply un_gone0; try done. by rewrite Hg.
Qed.

Lemma ev_uvmunmap_loop n root a d own fl :
  uown d.(mem) root own fl -> kmem_inv d fl ->
  a mod PGSIZE = 0 -> 0 <= a -> a + Z.of_nat n * PGSIZE <= MAXVA ->
  (forall va, in_range a (a + Z.of_nat n * PGSIZE) va -> own va) ->
  let gone := in_range a (a + Z.of_nat n * PGSIZE) in
  exists m f qs, let d' := with_mem d m f in
    evals l0 L d (uvmunmap_loop n root a true) tt L d' /\
    kmem_inv d' (qs ++ fl) /\ length qs = n /\
    uown m root (fun va => own va /\ ~ gone va) (qs ++ fl) /\
    unmapped root d.(mem) m gone qs /\
    (forall q, q ∈ qs -> exists va pte, own va /\ gone va /\
       vlookup d.(mem) root va = Some pte /\ PTE2PA pte = q) /\
    (forall p, pool m root (fun va => own va /\ ~ gone va) (qs ++ fl) p <-> pool d.(mem) root own fl p).
Proof.
  revert a d own fl. induction n as [|n IH]; intros a d own fl Hu Hinv Hal Ha Hmax Hown gone.
  { exists (mem d), (freelist d), []. split; [|split; [|split; [done|split]]].
    - eapply evals_eq; [apply ev_ret|done..|by destruct d].
    - by destruct d.
    - eapply uown_proper; [done|done| |done|exact Hu]. intros va. unfold gone, in_range.
      intuition lia.
    - split; [|split; [intros q Hq; by apply elem_of_nil in Hq|]].
      + split; try done. intros va _ _. unfold gone, in_range. lia.
      + intros p. apply pool_ext. intros va. unfold gone, in_range. intuition lia. }
  assert (own a) as Hoa by (apply Hown; unfold in_range, PGSIZE in *; lia).
  destruct (us_map _ _ _ _ Hu a Hoa) as (pte & Hl & Hfl & Hq & Hqf & Hqt).
  destruct (vlookup_pte_of _ _ _ _ Hl) as (p & Hp & Hpte & Hld & Hval).
  destruct (unmap_one root own fl d a pte p) as (_ & Hwf1 & Hinv1 & Hun1); [done..|].
  set (m1 := store64 _ _ 0) in *. set (d1 := with_mem d m1 (PTE2PA pte)) in *.
  assert (uown m1 root (fun va => own va /\ ~ (a = va)) (PTE2PA pte :: fl)) as Hu1.
  { apply (uown_unmapped root (mem d) m1 own (eq a) [PTE2PA pte]); [done..|apply _|].
    intros q ->%list_elem_of_singleton. by exists a, pte. }
  destruct (IH (a + PGSIZE) d1 (fun va => own va /\ ~ (a = va)) (PTE2PA pte :: fl))
    as (m & f & qs & Hev & Hinv2 & Hlen & Hu2 & Hun2 & Hqs & Hpool); [done|done|..].
  1-3: unfold PGSIZE in *; Z.div_mod_to_equations; lia.
  { intros va Hva. split; [apply Hown; unfold in_range, PGSIZE in *; lia|].
    unfold in_range, PGSIZE in *. lia. }
  replace (a + PGSIZE + Z.of_nat n * PGSIZE) with (a + Z.of_nat (S n) * PGSIZE) in * by lia.
  assert (forall va, (a = va \/ in_range (a + PGSIZE) (a + Z.of_nat (S n) * PGSIZE) va) <-> gone va)
    as Hgone by (intros; symmetry; apply in_range_step; [done|unfold PGSIZE; lia]).
  exists m, f, (qs ++ [PTE2PA pte]). rewrite <- (assoc_L (++)). cbn [app].
  split; [|split; [exact Hinv2|split; [by rewrite length_app, Hlen, Nat.add_1_r|split]]].
  - cbn [uvmunmap_loop]. eapply ev_bind; [apply ev_walk_noalloc; unfold PGSIZE in *; lia|].
    rewrite Hpte. cbn [default from_option]. unfold id.
    pose proof (us_wf _ _ _ _ Hu) as Hwf.
    assert (in_tree (mem d) root p) as Hpt by (eexists; split; [apply is_path_px|done]).
    pose proof (page_ok_pos _ (wf_ok _ _ _ Hwf p Hpt)). pose proof (PX_bound 0 a ltac:(done)).
    rewrite (proj2 (Z.eqb_neq (p + _) 0)) by lia.
    eapply ev_bind; [apply ev_ld|]. cbn beta. rewrite Hld. unfold ctrue in Hval.
    destruct (Z.land pte PTE_V =? 0); [done|].
    rewrite (proj2 (Z.eqb_neq _ _)) by done. cbn [when].
    eapply ev_bind; [by apply ev_kfree|]. eapply ev_bind; [apply ev_st|].
    rewrite u64_small by (unfold PGSIZE, MAXVA in *; lia). exact Hev.
  - eapply uown_proper; [done|done| |done|exact Hu2]. intros va. rewrite <- Hgone. tauto.
  - split.
    { eapply unmapped_ext; [exact Hgone|].
      eapply unmapped_trans; [apply _|apply _|exact Hun1|exact Hun2]. }
    split.
    + intros q [Hin| ->%list_elem_of_singleton]%elem_of_app.
      * apply Hqs in Hin as (va & pte' & [Hva Hne] & Hg & E & Eq). exists va, pte'.
        destruct (us_dom _ _ _ _ Hu va Hva). split; [done|].
        split; [apply Hgone; by right|]. split; [|done].
        by rewrite <- (un_lookup _ _ _ _ _ Hun1) by done.
      * exists a, pte. split; [done|]. split; [apply Hgone; by left|done].
    + intros p'. change (mem d1) with m1 in Hpool. rewrite <- (pool_unmap (mem d) m1 root own fl a pte), <- Hpool; [|..|done|done].
      * apply pool_ext. intros va. rewrite <- Hgone. tauto.
      * intros va Hva Hne. destruct (us_dom _ _ _ _ Hu va Hva). apply (un_lookup _ _ _ _ _ Hun1); [done..|by intros ->].
      * apply Hun1.
Qed.

Lemma PGROUNDUP_mono a b :
  0 <= a <= b -> b < 2 ^ 64 - PGSIZE -> PGROUNDUP a <= PGROUNDUP b.
Proof.
  intros. rewrite !PGROUNDUP_spec by lia. unfold PGSIZE in *. Z.div_mod_to_equations. lia.
Qed.

Lemma below_range newsz oldsz va :
  0 <= newsz <= oldsz -> oldsz <= MAXVA ->
  below newsz va <-> below oldsz va /\ ~ in_range (PGROUNDUP newsz) (PGROUNDUP oldsz) va.
Proof.
  intros H1 H2. pose proof (PGROUNDUP_bound newsz) as B1. pose proof (PGROUNDUP_bound oldsz) as B2.
  unfold below, in_range, MAXVA, PGSIZE in *.
  destruct B1 as [Ma Ba]; [lia|]. destruct B2 as [Mb Bb]; [lia|].
  Z.div_mod_to_equations. lia.
Qed.

Lemma uown_below root m own own' fl :
  uown m root own fl -> (forall va, own va <-> own' va) -> uown m root own' fl.
Proof. intros Hu Ho. by eapply (uown_proper m m eq_refl root root eq_refl own own' Ho). Qed.

Lemma ev_uvmdealloc root oldsz newsz d fl :
  uspace d.(mem) root oldsz fl -> kmem_inv d fl -> 0 <= newsz -> newsz <= oldsz ->
  exists m f qs, let d' := with_mem d m f in
    evals l0 L d (uvmdealloc root oldsz newsz) newsz L d' /\
    kmem_inv d' (qs ++ fl) /\ uspace m root newsz (qs ++ fl) /\
    Z.of_nat (length qs) = (PGROUNDUP oldsz - PGROUNDUP newsz) / PGSIZE /\
    unmapped root d.(mem) m (in_range (PGROUNDUP newsz) (PGROUNDUP oldsz)) qs /\
    keeps root (below newsz) d.(mem) m /\
    (forall p, pool m root (below newsz) (qs ++ fl) p <-> pool d.(mem) root (below oldsz) fl p).
Proof.
  intros [Hmax Hu] Hinv H0 Hle. unfold uvmdealloc.
  destruct (PGROUNDUP_bound newsz) as [Mn Bn]; [unfold MAXVA, PGSIZE in *; lia|].
  destruct (PGROUNDUP_bound oldsz) as [Mo Bo]; [unfold MAXVA, PGSIZE in *; lia|].
  pose proof (PGROUNDUP_mono newsz oldsz ltac:(lia) ltac:(unfold MAXVA, PGSIZE in *; lia)) as Hmono.
  assert (PGROUNDUP oldsz <= MAXVA) as Hro
    by (unfold MAXVA, PGSIZE in *; Z.div_mod_to_equations; lia).
  pose proof (fun va => below_range newsz oldsz va ltac:(lia) Hmax) as Hbr.
  destruct (Z.ltb_spec (PGROUNDUP newsz) (PGROUNDUP oldsz)) as [Hlt|Hge].
  - rewrite (proj2 (Z.leb_gt _ _)) by (destruct (decide (newsz = oldsz)); [subst|]; lia).
    set (k := Z.to_nat ((PGROUNDUP oldsz - PGROUNDUP newsz) / PGSIZE)).
    assert (PGROUNDUP newsz + Z.of_nat k * PGSIZE = PGROUNDUP oldsz) as Ek.
    { unfold k. unfold PGSIZE in *. Z.div_mod_to_equations. lia. }
    destruct (ev_uvmunmap_loop k root (PGROUNDUP newsz) d (below oldsz) fl)
      as (m & f & qs & Hev & Hinv' & Hlen & Hu' & Hun & Hqs & Hpool); try done; [lia|lia|..].
    { rewrite Ek. unfold in_range, below, PGSIZE in *. intros va ?. Z.div_mod_to_equations. lia. }
    rewrite Ek in *. exists m, f, qs.
    split; [|split; [done|split; [|split; [|split; [done|split]]]]].
    + cbn [when]. eapply ev_bind; [|apply ev_ret]. unfold uvmunmap.
      rewrite Mn. cbn [Z.eqb negb].
      replace (s32 _) with (Z.of_nat k).
      * rewrite Ek, u64_small by (unfold MAXVA, PGSIZE in *; lia). exact Hev.
      * rewrite s32_small by (unfold MAXVA, PGSIZE in *; Z.div_mod_to_equations; lia).
        unfold k, PGSIZE in *. Z.div_mod_to_equations. lia.
    + split; [lia|]. eapply uown_below; [exact Hu'|]. intros va. by rewrite Hbr.
    + unfold k, PGSIZE in *. Z.div_mod_to_equations. lia.
    + eapply keeps_unmapped; [exact Hu|exact Hun|by apply Hbr|exact Hqs].
    + intros p. rewrite <- Hpool. apply pool_ext. intros va. by rewrite Hbr.
  - exists (mem d), (freelist d), []. split; [|split; [|split; [|split; [|split; [|split]]]]].
    + destruct (Z.leb_spec oldsz newsz); cbn [when].
      * assert (oldsz = newsz) as -> by lia. eapply evals_eq; [apply ev_ret|done..|by destruct d].
      * eapply ev_bind; [apply ev_ret|]. eapply evals_eq; [apply ev_ret|done..|by destruct d].
    + by destruct d.
    + split; [lia|]. eapply uown_below; [exact Hu|]. intros va. rewrite Hbr.
      unfold in_range. intuition lia.
    + replace (PGROUNDUP oldsz - PGROUNDUP newsz) with 0 by lia. done.
    + split; try done. intros va _ _. unfold in_range. lia.
    + apply keeps_refl.
    + intros p. apply pool_ext. intros va. rewrite Hbr. unfold in_range. intuition lia.
Qed.

(** *** uvmalloc *)

(** Mapping a page to a frame that nobody uses extends the space by that page. *)
Lemma uown_map root m m' own fl fl' a q perm :
  uown m root own fl -> pt_map root m fl m' fl' a 1 q perm ->
  0 <= a < MAXVA -> a mod PGSIZE = 0 -> ~ own a ->
  page_ok q -> q ∉ fl -> ~ in_tree m root q ->
  (forall va pte, own va -> vlookup m root va = Some pte -> PTE2PA pte <> q) ->
  0 <= perm < 2 ^ 10 -> Z.lor perm PTE_V <> PTE_V ->
  uown m' root (fun va => own va \/ va = a) fl'.
Proof.
  intros [Hwf Hdom Hmap Hinj Htop] [Wf [used ->] Hl Ht _ _ Hf] Ha Hal Hna Hq Hqf Hqt Hqo Hperm Hflag.
  assert (PTE2PA (mk_pte q perm) = q) as Epa.
  { pose proof (page_ok_pos q Hq). destruct Hq as [Mq Bq]. apply PTE2PA_mk_pte; [|done|done].
    unfold PHYSTOP, KERNBASE in Bq. lia. }
  assert (forall va, 0 <= va < MAXVA -> va mod PGSIZE = 0 ->
    vlookup m' root va = if decide (va = a) then Some (mk_pte q perm) else vlookup m root va) as Hl'.
  { intros va Hva Hval. rewrite Hl by done. destruct (decide (va = a)) as [->|Hne].
    - rewrite decide_True by (unfold PGSIZE; lia). do 2 f_equal. lia.
    - rewrite decide_False; [done|]. unfold PGSIZE in *. Z.div_mod_to_equations. lia. }
  assert (forall va, own va -> va <> a) as Hne by (by intros va ? ->).
  split; [done|..].
  - intros va [?| ->]; [by apply Hdom|done].
  - intros va [Hva| ->].
    + destruct (Hdom va Hva). rewrite Hl' by done. rewrite decide_False by auto.
      destruct (Hmap va Hva) as (pte & ? & ? & ? & Hnf & Hnt). exists pte.
      rewrite not_elem_of_app in Hnf. destruct Hnf as [Hnu Hnf].
      do 4 (split; [done|]). intros [?|[?|?]%elem_of_app]%Ht; done.
    + rewrite Hl', decide_True by done. exists (mk_pte q perm). rewrite Epa.
      split; [done|]. split; [|split; [done|split]].
      * rewrite PTE_FLAGS_mk_pte; [done| |done]. pose proof (page_ok_pos q Hq). lia.
      * rewrite not_elem_of_app in Hqf. by destruct Hqf.
      * by intros [?|?]%Ht.
  - intros va va' pte pte' Hva Hva'.
    assert (forall x, own x \/ x = a -> 0 <= x < MAXVA /\ x mod PGSIZE = 0) as Hd
      by (intros x [?| ->]; auto).
    destruct (Hd _ Hva), (Hd _ Hva'). rewrite !Hl' by done.
    repeat case_dec; subst; intros E1 E2 Eq; simplify_eq; try done.
    + destruct Hva' as [Hva'|]; [|done]. rewrite Epa in Eq. by destruct (Hqo va' pte').
    + destruct Hva as [Hva|]; [|done]. rewrite Epa in Eq. by destruct (Hqo va pte).
    + destruct Hva as [Hva|], Hva' as [Hva'|]; try done. by eapply Hinj.
  - intros va p Hva Hval. unfold upage. rewrite Hl' by done. case_dec; [by right|].
    intros Hp. left. by eapply Htop.
Qed.


Lemma below_step a va :
  a mod PGSIZE = 0 -> 0 <= a -> below (a + PGSIZE) va <-> below a va \/ va = a.
Proof.
  unfold below, PGSIZE. intros. split; [|intros [?|?]; Z.div_mod_to_equations; lia].
  intros [? Hm]. destruct (decide (va = a)); [by right|left]. split; [|done].
  Z.div_mod_to_equations. lia.
Qed.

(** A successful iteration: a fresh page of memory with contents [c] is mapped at
    [a], the first address above the space. *)
Lemma ev_map_fresh root a q perm d m1 fl (d1 := d <| mem := m1 |>) :
  uspace m1 root a fl -> kmem_inv d1 fl -> 0 <= a -> a + PGSIZE <= MAXVA -> a mod PGSIZE = 0 ->
  vlookup m1 root a = None -> page_ok q -> q ∉ fl -> ~ in_tree m1 root q ->
  (forall va pte, below a va -> vlookup m1 root va = Some pte -> PTE2PA pte <> q) ->
  0 <= perm < 2 ^ 10 -> Z.lor perm PTE_V <> PTE_V ->
  exists r m f fl', let d' := with_mem d m f in
    evals l0 L d1 (mappages root a PGSIZE q perm) r L d' /\ kmem_inv d' fl' /\
    keeps root (below a) m1 m /\ (forall i, 0 <= i < PGSIZE -> m (q + i) = m1 (q + i)) /\
    (exists used, fl = used ++ fl') /\
    (forall p, in_tree m root p -> in_tree m1 root p \/ p ∈ fl) /\
    (forall p, p mod PGSIZE = 0 -> p ∉ fl -> ~ in_tree m1 root p ->
      forall i, 0 <= i < PGSIZE -> m (p + i) = m1 (p + i)) /\
    (forall va, 0 <= va < MAXVA -> va mod PGSIZE = 0 -> va <> a ->
      vlookup m root va = vlookup m1 root va) /\ (length fl <= 2 + length fl')%nat /\
    (forall p, p ∈ fl \/ in_tree m1 root p <-> p ∈ fl' \/ in_tree m root p) /\
    ((r = 0 /\ uspace m root (a + PGSIZE) fl' /\ vlookup m root a = Some (mk_pte q perm)) \/
     (r = -1 /\ uspace m root a fl' /\ vlookup m root a = None /\ fl' = [] /\ (length fl < 2)%nat)).
Proof.
  intros [Hmax Hu] Hinv Ha Htop Hal Hun Hq Hqf Hqt Hqo Hperm Hflag.
  destruct (ev_mappages l0 L Hk Hfree root a PGSIZE q perm d1 fl)
    as (r & m & f & fl' & k & Hev & Hm & Hi & Hlen & Hr).
  { done. } { done. } { done. }
  { apply page_ok_pos in Hq. lia. }
  { destruct Hq as [_ Bq]. unfold PHYSTOP, KERNBASE, PGSIZE in *.
    Z.div_mod_to_equations. lia. }
  { done. } { apply Hu. } { done. }
  { intros va Hva Hval. rewrite (PGROUNDDOWN_aligned a) in Hva by done.
    assert (va = a) as -> by (unfold PGSIZE in *; Z.div_mod_to_equations; lia). done. }
  rewrite PGROUNDDOWN_aligned in Hm by done.
  assert ((a + PGSIZE - 1) / PGSIZE - a / PGSIZE = 0) as E0
    by (unfold PGSIZE in *; Z.div_mod_to_equations; lia).
  rewrite E0 in Hr, Hlen.
  assert (Z.of_nat k <= 1) as Hk1 by lia.
  exists r, m, f, fl'. split; [exact Hev|]. split; [exact Hi|].
  split; [eapply keeps_map; [exact Hu|exact Hm|]; unfold below, PGSIZE; lia|].
  split; [intros i Hii; apply (pm_frame _ _ _ _ _ _ _ _ _ Hm q); [apply Hq|done..]|].
  split; [apply Hm|]. split; [apply Hm|]. split; [apply Hm|]. split.
  { intros va Hva Hval Hne. rewrite (pm_lookup _ _ _ _ _ _ _ _ _ Hm) by done.
    rewrite decide_False; [done|]. unfold PGSIZE in *. Z.div_mod_to_equations. lia. }
  split; [lia|]. assert (0 <= a < MAXVA) as Hra by (unfold PGSIZE in *; lia). split.
  { destruct Hm as [_ [used ->] _ Ht Hkeep Hused _]. intros p. split; [intros [?%Hused|?%Hkeep]; tauto|].
    intros [?|[?|?]%Ht]; [left; apply elem_of_app; by right|tauto..]. }
  destruct Hr as [[-> E]|(-> & E & -> & Hshort)]; [left|right].
  - assert (k = 1%nat) as -> by lia. split; [done|]. split.
    + split; [done|]. eapply uown_below.
      * eapply uown_map; [exact Hu|exact Hm|..]; try done. unfold below. lia.
      * intros va. by rewrite below_step.
    + rewrite (pm_lookup _ _ _ _ _ _ _ _ _ Hm) by done.
      rewrite decide_True by (unfold PGSIZE; lia). do 2 f_equal. lia.
  - assert (k = 0%nat) as -> by lia.
    assert (forall va, 0 <= va < MAXVA -> va mod PGSIZE = 0 ->
      vlookup m root va = vlookup m1 root va) as Hl.
    { intros va ??. rewrite (pm_lookup _ _ _ _ _ _ _ _ _ Hm) by done.
      by rewrite decide_False by lia. }
    split; [done|]. split; [|split; [by rewrite Hl|split; [done|lia]]]. split; [done|].
    destruct Hu as [Hwf Hdom Hmap Hinj Htp]. split; [apply Hm|done|..].
    + intros va Hva. destruct (Hdom va Hva). rewrite Hl by done.
      destruct (Hmap va Hva) as (pte & ? & ? & ? & Hnf & Hnt). exists pte.
      do 3 (split; [done|]). split; [apply not_elem_of_nil|].
      by intros [?|?]%(pm_tree _ _ _ _ _ _ _ _ _ Hm).
    + intros va va' pte pte' Hva Hva'. destruct (Hdom va Hva), (Hdom va' Hva').
      rewrite !Hl by done. by apply Hinj.
    + intros va p ??. unfold upage. rewrite Hl by done. by apply Htp.
Qed.

(** A page fresh from [kalloc] and filled with [m1]'s bytes is ready to be mapped. *)
Lemma take_fresh root a d q fl m1 :
  uspace d.(mem) root a (q :: fl) -> kmem_inv d (q :: fl) -> same_outside q d.(mem) m1 ->
  let d1 := (kalloc_d q d) <| mem := m1 |> in
  uspace m1 root a fl /\ kmem_inv d1 fl /\ page_ok q /\ (q ∉ fl) /\ ~ in_tree m1 root q /\
  (forall va, vlookup m1 root va = vlookup d.(mem) root va) /\
  (forall va pte, below a va -> vlookup m1 root va = Some pte -> PTE2PA pte <> q) /\
  keeps root (below a) d.(mem) m1 /\
  (forall p, in_tree m1 root p <-> in_tree d.(mem) root p) /\
  (forall p, pool d.(mem) root (below a) (q :: fl) p <-> p = q \/ pool m1 root (below a) fl p).
Proof.
  intros [Hmax Hu] Hinv Hs d1.
  pose proof (is_freelist_ok _ _ _ (proj1 Hinv)) as Hq. apply Forall_inv in Hq.
  pose proof (proj2 Hinv) as Hnd. apply NoDup_cons in Hnd as [Hqf _].
  destruct (uown_take _ _ _ _ _ _ Hu Hq Hs) as (Hu1 & Hqt & Hv & Ht & Hqo).
  split; [done|]. split.
  { destruct (kalloc_inv _ _ _ Hinv) as [Hl ?]. split; [|done]. cbn.
    eapply is_freelist_same; [apply Hq| |done|exact Hl].
    intros x Hx. cbn. by rewrite Hs, memset_out. }
  split; [done|]. split; [done|]. split; [by rewrite Ht|]. split; [done|]. split.
  - intros va pte. rewrite Hv. apply Hqo.
  - split; [by eapply keeps_take|]. split; [done|]. intros p. rewrite (pool_same d.(mem) m1 root (below a) fl fl); [unfold pool; rewrite elem_of_cons; tauto| |auto].
    intros x. by rewrite Ht.
Qed.

(** A page that no address space uses can be freed. *)
Lemma uown_give root m m' own q fl :
  uown m root own fl -> q mod PGSIZE = 0 -> same_outside q m m' -> ~ in_tree m root q ->
  (forall va pte, own va -> vlookup m root va = Some pte -> PTE2PA pte <> q) ->
  uown m' root own (q :: fl) /\ keeps root own m m' /\
  (forall p, pool m' root own (q :: fl) p <-> p = q \/ pool m root own fl p).
Proof.
  intros Hu Mq Hs Hqt Hqo.
  assert (uown m root own (q :: fl)) as Hu'.
  { destruct Hu. split; try done.
    - destruct us_wf0 as [? Hf ?]. split; try done. intros p Hp. apply not_elem_of_cons.
      split; [congruence|auto].
    - intros va Hva. destruct (us_map0 va Hva) as (pte & E & ? & ? & Hn & ?).
      exists pte. do 3 (split; [done|]). split; [|done]. apply not_elem_of_cons.
      split; [by eapply Hqo|done]. }
  assert (forall va, vlookup m' root va = vlookup m root va) as Hv by (intros va; eapply vlookup_outside; [apply Hu|done..]).
  split; [by eapply uown_outside|]. split; [apply keeps_intro; [auto|]|].
  - intros va pte i Hva E Hi. apply Hs. pose proof (PTE2PA_aligned pte) as Mp.
    pose proof (pages_disjoint _ q Mp Mq (Hqo _ _ Hva E)). lia.
  - intros p. rewrite <- (pool_same m m' root own fl fl); [unfold pool; rewrite elem_of_cons; tauto| |auto].
    intros x. rewrite (in_tree_outside m m' root fl q x); [done|apply Hu|done..].
Qed.

(** The error path of uvmalloc. *)
Lemma ev_dealloc_fail root a base m d fl :
  uspace m root a fl -> kmem_inv (d <| mem := m |>) fl -> 0 <= base <= a ->
  exists m' f' fl', evals l0 L (d <| mem := m |>) (uvmdealloc root a base;; mret 0) 0 L
      (with_mem d m' f') /\
    kmem_inv (with_mem d m' f') fl' /\ uspace m' root base fl' /\
    keeps root (below base) m m' /\ (forall p, pool m' root (below base) fl' p <-> pool m root (below a) fl p) /\
    only_pages (pool m root (below a) fl) m m'.
Proof.
  intros Hu Hi Hb. destruct (ev_uvmdealloc root a base (d <| mem := m |>) fl)
    as (m' & f' & qs & Hev & Hi' & Hu' & _ & Hun & Hkeep & Hpool); [done..|lia|lia|].
  exists m', f', (qs ++ fl). split; [|do 4 (split; [done|]); by eapply only_unmapped]. eapply ev_bind; [exact Hev|apply ev_ret].
Qed.

(** A page of zeroes that is mapped for user access reads as zeroes. *)
Lemma vread_zero_page m root a q perm :
  0 <= a -> a + PGSIZE <= MAXVA -> a mod PGSIZE = 0 -> page_ok q -> 0 <= perm < 2 ^ 10 ->
  Z.land perm PTE_U <> 0 -> vlookup m root a = Some (mk_pte q perm) ->
  (forall i, 0 <= i < PGSIZE -> m (q + i) = 0) ->
  forall va, a <= va < a + PGSIZE -> vread m root va = Some 0.
Proof.
  intros Ha Hmax Hal Hq Hperm HU Hl Hz va Hva.
  assert (PGROUNDDOWN va = a) as E.
  { rewrite PGROUNDDOWN_spec. unfold PGSIZE in *. Z.div_mod_to_equations. lia. }
  unfold vread, uaddr. rewrite decide_True by lia. rewrite E. unfold upage. rewrite Hl. cbn.
  pose proof (page_ok_pos _ Hq) as H0. destruct Hq as [Mq Bq].
  rewrite pte_land_flags, PTE_FLAGS_mk_pte by (unfold PTE_U; lia).
  rewrite Z.land_lor_distr_l, (Z.lor_0_r _ : Z.lor _ (Z.land PTE_V PTE_U) = _).
  rewrite (proj2 (Z.eqb_neq _ _)) by done. cbn.
  rewrite PTE2PA_mk_pte; [|unfold PHYSTOP, KERNBASE in Bq; lia|done|done].
  f_equal. apply Hz. by apply Z.mod_pos_bound.
Qed.

Lemma uvmalloc_perm xperm (perm := Z.lor (Z.lor PTE_R PTE_U) xperm) :
  0 <= xperm < 2 ^ 10 ->
  0 <= perm < 2 ^ 10 /\ Z.lor perm PTE_V <> PTE_V /\ Z.land perm PTE_U <> 0.
Proof.
  intros Hx. split; [apply lor_bound; [lia|done|done]|]. split.
  - intros E%(f_equal (fun z => Z.testbit z 1)). unfold perm in E.
    rewrite !Z.lor_spec in E. done.
  - intros E%(f_equal (fun z => Z.testbit z 4)). unfold perm in E.
    rewrite Z.land_spec, !Z.lor_spec in E. done.
Qed.

(** The frame of an entry. *)
Lemma frame_of_pte q perm : page_ok q -> 0 <= perm < 2 ^ 10 -> PTE2PA (mk_pte q perm) = q.
Proof.
  intros Hq Hperm. pose proof (page_ok_pos q Hq). apply PTE2PA_mk_pte; [destruct Hq as [_ B]; unfold PHYSTOP, KERNBASE in B; lia|apply Hq|done].
Qed.

(** One iteration of the loop of uvmalloc: it fails and gives the space back, or
    adds a page of zeroes. *)
Lemma ev_uvmalloc_iter fuel root base a newsz xperm d fl :
  uspace d.(mem) root a fl -> kmem_inv d fl ->
  0 <= base <= a -> a mod PGSIZE = 0 -> a < newsz -> a + PGSIZE <= MAXVA ->
  0 <= xperm < 2 ^ 10 -> vlookup d.(mem) root a = None ->
  (exists m f fl', let d' := with_mem d m f in
     evals l0 L d (uvmalloc_loop (S fuel) root base a newsz xperm) 0 L d' /\
     kmem_inv d' fl' /\ uspace m root base fl' /\ keeps root (below base) d.(mem) m /\ (length fl < 3)%nat /\
     (forall p, pool m root (below base) fl' p <-> pool d.(mem) root (below a) fl p) /\
     only_pages (pool d.(mem) root (below a) fl) d.(mem) m) \/
  (exists m f fl', let d' := with_mem d m f in
     kmem_inv d' fl' /\ uspace m root (a + PGSIZE) fl' /\ keeps root (below a) d.(mem) m /\
     (length fl <= 3 + length fl')%nat /\
     (forall va, a <= va < a + PGSIZE -> vread m root va = Some 0) /\
     (forall va, 0 <= va < MAXVA -> va mod PGSIZE = 0 -> va <> a ->
        vlookup m root va = vlookup d.(mem) root va) /\
     (forall p, pool m root (below (a + PGSIZE)) fl' p <-> pool d.(mem) root (below a) fl p) /\
     only_pages (pool d.(mem) root (below a) fl) d.(mem) m /\
     forall x d'', evals l0 L d' (uvmalloc_loop fuel root base (a + PGSIZE) newsz xperm) x L d'' ->
       evals l0 L d (uvmalloc_loop (S fuel) root base a newsz xperm) x L d'').
Proof.
  intros Hu Hinv Hb Hal Hlt Hmax Hx Hun. cbn [uvmalloc_loop].
  rewrite (proj2 (Z.ltb_lt _ _)) by done. cbn [negb].
  destruct (uvmalloc_perm xperm Hx) as (Hperm & Hflag & HU).
  set (perm := Z.lor (Z.lor PTE_R PTE_U) xperm) in *.
  assert (forall va, below base va -> below a va) as Hmono by (unfold below; lia).
  destruct fl as [|q fl].
  { left. destruct (ev_dealloc_fail root a base (mem d) d []) as (m' & f' & fl' & Hev & Hi' & Hu' & Hk' & Hpl' & Hop');
      [done|by destruct d|done|].
    exists m', f', fl'. split; [|split; [done|split; [done|split; [done|split; [cbn; lia|by split]]]]].
    eapply ev_bind; [by apply ev_kalloc_none|]. cbn beta iota. by destruct d. }
  set (m1 := memset (memset (mem d) q 5 PGSIZE) q 0 PGSIZE).
  destruct (take_fresh root a d q fl m1) as (Hu1 & Hi1 & Hq & Hqf & Hqt & Hv1 & Hqo & Hk1 & _ & Hpl1);
    [done|done| |].
  { intros x Hx'. unfold m1. by rewrite !memset_out. }
  assert (only_pages (pool d.(mem) root (below a) (q :: fl)) d.(mem) m1) as Hop1.
  { apply (only_outside _ q); [apply Hq|intros x Hx'; unfold m1; by rewrite !memset_out|left; by left]. }
  destruct (ev_map_fresh root a q perm (kalloc_d q d) m1 fl)
    as (r & m2 & f2 & fl2 & Hev2 & Hi2 & Hk2 & Hz2 & [used ->] & Ht2 & Hf2 & Hl2 & Hn2 & Hpl2 & Hr2); try done.
  1: lia. 1: by rewrite Hv1.
  assert (only_pages (pool d.(mem) root (below a) (q :: used ++ fl2)) d.(mem) m2) as Hop2.
  { eapply only_trans; [exact Hop1| |intros p Hp; apply Hpl1; right; exact Hp].
    intros p i Mp Hp. apply Hf2; [done|intros H; apply Hp; by left|intros H; apply Hp; right; by left]. }
  destruct Hr2 as [(-> & Hu2 & Hla)|(-> & Hu2 & Hla & -> & Hshort)]; [right|left].
  - exists m2, f2, fl2. split; [done|]. split; [done|]. split; [by eapply keeps_trans|].
    split; [cbn in *; lia|]. split.
    { eapply vread_zero_page; try done; [lia|]. intros i Hi. rewrite Hz2 by done.
      apply memset_in. lia. }
    split; [intros va ???; by rewrite Hl2, Hv1|]. split.
    { intros p. rewrite Hpl1. eapply (pool_map m1 m2 root (below a)); [exact Hpl2| | |exact Hla|].
      - intros va Hva. destruct (us_dom _ _ _ _ (proj2 Hu1) va Hva). apply Hl2; [done..|unfold below in Hva; lia].
      - intros va. apply below_step; [done|lia].
      - by apply frame_of_pte. }
    split; [done|]. intros x d'' H. eapply ev_bind; [by eapply ev_kalloc_some|]. cbn beta.
    rewrite (proj2 (Z.eqb_neq q 0)) by (apply page_ok_pos in Hq; lia).
    eapply ev_bind; [apply ev_kmemset|]. eapply ev_bind; [exact Hev2|]. cbn beta iota.
    rewrite u64_small by (unfold MAXVA, PGSIZE in *; lia). exact H.
  - assert (forall va pte, below a va -> vlookup m2 root va = Some pte -> PTE2PA pte <> q) as Hqo2.
    { intros va pte Hva. destruct (us_dom _ _ _ _ (proj2 Hu2) va Hva).
      rewrite Hl2 by (try done; unfold below in Hva; lia). by apply Hqo. }
    destruct (uown_give root m2 (kfree_d q (with_mem d m2 f2)).(mem) (below a) q [])
      as (Hu3 & Hk3 & Hpl3); [apply Hu2|apply Hq|apply (kfree_mem_outside q (with_mem d m2 f2))| |done|].
    { by intros [?|?]%Ht2. }
    pose proof (kfree_inv q _ _ Hq (not_elem_of_nil q) Hi2) as Hi3.
    destruct (ev_dealloc_fail root a base (kfree_d q (with_mem d m2 f2)).(mem)
      (kfree_d q (with_mem d m2 f2)) [q]) as (m' & f' & fl' & Hev & Hi' & Hu' & Hk' & Hpl' & Hop');
      [split; [apply Hu2|exact Hu3]|exact Hi3|done|].
    exists m', f', fl'. split; [|split; [exact Hi'|split; [exact Hu'|split; [|split; [cbn in *; lia|]]]]].
    + eapply ev_bind; [by eapply ev_kalloc_some|]. cbn beta.
      rewrite (proj2 (Z.eqb_neq q 0)) by (apply page_ok_pos in Hq; lia).
      eapply ev_bind; [apply ev_kmemset|]. eapply ev_bind; [exact Hev2|]. cbn beta iota.
      eapply ev_bind; [by apply ev_kfree|]. exact Hev.
    + eapply keeps_trans; [|exact Hk']. eapply keeps_mono; [exact Hmono|].
      eapply keeps_trans; [by eapply keeps_trans|exact Hk3].
    + assert (forall p, pool (kfree_d q (with_mem d m2 f2)).(mem) root (below a) [q] p <-> pool (mem d) root (below a) (q :: used ++ []) p) as Hpl4.
      { intros p. rewrite Hpl3, Hpl1. rewrite (pool_same m1 m2 root (below a) (used ++ []) []); [done|exact Hpl2|].
        intros va Hva. destruct (us_dom _ _ _ _ (proj2 Hu1) va Hva). apply Hl2; [done..|unfold below in Hva; lia]. }
      split; [intros p; by rewrite Hpl', Hpl4|]. eapply only_trans; [|exact Hop'|intros p; apply Hpl4].
      eapply only_trans; [exact Hop2| |intros p Hp; exact Hp].
      apply (only_outside _ q); [apply Hq|apply (kfree_mem_outside q (with_mem d m2 f2))|left; by left].
Qed.

Lemma ev_uvmalloc_loop fuel root base a newsz xperm d fl :
  uspace d.(mem) root a fl -> kmem_inv d fl ->
  0 <= base <= a -> a mod PGSIZE = 0 ->
  0 <= newsz <= MAXVA -> a <= PGROUNDUP newsz -> 0 <= xperm < 2 ^ 10 ->
  PGROUNDUP newsz - a <= Z.of_nat fuel * PGSIZE ->
  (forall va, in_range a newsz va -> vlookup d.(mem) root va = None) ->
  exists r m f fl', let d' := with_mem d m f in
    evals l0 L d (uvmalloc_loop fuel root base a newsz xperm) r L d' /\ kmem_inv d' fl' /\
    keeps root (below base) d.(mem) m /\ only_pages (pool d.(mem) root (below a) fl) d.(mem) m /\
    ((r = newsz /\ uspace m root (PGROUNDUP newsz) fl' /\ keeps root (below a) d.(mem) m /\
      (forall va, a <= va < PGROUNDUP newsz -> vread m root va = Some 0) /\
      (forall p, pool m root (below (PGROUNDUP newsz)) fl' p <-> pool d.(mem) root (below a) fl p)) \/
     (r = 0 /\ uspace m root base fl' /\ Z.of_nat (length fl) < 3 * ((PGROUNDUP newsz - a) / PGSIZE) /\
      (forall p, pool m root (below base) fl' p <-> pool d.(mem) root (below a) fl p))).
Proof.
  intros Hu Hinv Hb Hal Hn Hle Hx. revert a d fl Hu Hinv Hb Hal Hle.
  destruct (PGROUNDUP_bound newsz) as [Mn Bn]; [unfold MAXVA, PGSIZE in *; lia|].
  assert (PGROUNDUP newsz <= MAXVA) as Hmax
    by (unfold MAXVA, PGSIZE in *; Z.div_mod_to_equations; lia).
  induction fuel as [|fuel IH]; intros a d fl Hu Hinv Hb Hal Hle Hfuel Hun;
    destruct (Z.ltb_spec a newsz) as [Hlt|Hge].
  { unfold PGSIZE in *. lia. }
  1, 3: assert (a = PGROUNDUP newsz) as -> by (unfold PGSIZE in *; Z.div_mod_to_equations; lia);
    exists newsz, (mem d), (freelist d), fl;
    (split; [cbn [uvmalloc_loop]; rewrite (proj2 (Z.ltb_ge _ _)) by done;
             eapply evals_eq; [apply ev_ret|done..|by destruct d]|]);
    (split; [by destruct d|]); (split; [apply keeps_refl|]); (split; [by intros p|]); left; (split; [done|]);
    (split; [done|]); (split; [apply keeps_refl|]); (split; [lia|done]).
  assert (a + PGSIZE <= PGROUNDUP newsz) as Hstep
    by (unfold PGSIZE in *; Z.div_mod_to_equations; lia).
  destruct (ev_uvmalloc_iter fuel root base a newsz xperm d fl) as
    [(m & f & fl' & Hev & Hi & Hu' & Hkp & Hn1 & Hpl & Hop)|(m & f & fl1 & Hi & Hu1 & Hk1 & Hn1 & Hz1 & Hl1 & Hpl & Hop & Hrun)];
    try done; [lia|apply Hun; by split; [lia|]|..].
  { exists 0, m, f, fl'. split; [exact Hev|]. split; [done|]. split; [done|]. split; [done|right]. split; [done|]. split; [done|]. split; [|done].
    clear -Hn1 Hstep Hal Mn. unfold PGSIZE in *. Z.div_mod_to_equations. lia. }
  destruct (IH (a + PGSIZE) (with_mem d m f) fl1)
    as (r & m' & f' & fl' & Hev & Hi' & Hk' & Hop' & Hr); try done.
  1-3: unfold PGSIZE in *; Z.div_mod_to_equations; lia.
  { intros va [Hva Hval]. change (mem (with_mem d m f)) with m.
    rewrite Hl1 by (try done; unfold PGSIZE in *; lia). apply Hun. split; [unfold PGSIZE in *; lia|done]. }
  exists r, m', f', fl'. split; [by apply Hrun|]. split; [done|]. split.
  { eapply keeps_trans; [|exact Hk']. eapply keeps_mono; [|exact Hk1]. unfold below. lia. }
  split; [eapply only_trans; [exact Hop|exact Hop'|intros p; apply Hpl]|].
  change (mem (with_mem d m f)) with m in Hr. destruct Hr as [(-> & Hu' & Hka & Hz & Hpl')|(-> & Hu' & Hn' & Hpl')]; [left|right].
  2:{ split; [done|]. split; [done|]. split; [clear -Hn1 Hn' Hal Mn; unfold PGSIZE in *; Z.div_mod_to_equations; lia|]. intros p. by rewrite Hpl', Hpl. }
  split; [done|]. split; [done|]. split.
  { eapply keeps_trans; [exact Hk1|]. eapply keeps_mono; [|exact Hka]. unfold below, PGSIZE. lia. }
  split; [|intros p; by rewrite Hpl', Hpl].
  intros va Hva. destruct (decide (va < a + PGSIZE)); [|apply Hz; lia].
  destruct (PGROUNDDOWN_bound va) as [Ma Ba].
  rewrite (Hka va); [apply Hz1; lia|lia|]. split; [|done].
  unfold PGSIZE in *. Z.div_mod_to_equations. lia.
Qed.

(** [uvmalloc]: on success the space reaches up to [newsz], the new pages read as
    zeroes; on failure it is what it was.  The old bytes are kept either way. *)
Lemma ev_uvmalloc root oldsz newsz xperm d fl :
  uspace d.(mem) root oldsz fl -> kmem_inv d fl ->
  0 <= oldsz -> oldsz <= newsz -> newsz <= MAXVA -> 0 <= xperm < 2 ^ 10 ->
  (forall va, in_range (PGROUNDUP oldsz) newsz va -> vlookup d.(mem) root va = None) ->
  exists r m f fl', let d' := with_mem d m f in
    evals l0 L d (uvmalloc root oldsz newsz xperm) r L d' /\ kmem_inv d' fl' /\
    keeps root (below oldsz) d.(mem) m /\ only_pages (pool d.(mem) root (below oldsz) fl) d.(mem) m /\
    ((r = newsz /\ uspace m root newsz fl' /\
      (forall va, PGROUNDUP oldsz <= va < PGROUNDUP newsz -> vread m root va = Some 0) /\
      (forall p, pool m root (below newsz) fl' p <-> pool d.(mem) root (below oldsz) fl p)) \/
     (r = 0 /\ uspace m root oldsz fl' /\ Z.of_nat (length fl) < 3 * ((PGROUNDUP newsz - PGROUNDUP oldsz) / PGSIZE) /\
      (forall p, pool m root (below oldsz) fl' p <-> pool d.(mem) root (below oldsz) fl p))).
Proof.
  intros [Hmax Hu] Hi H0 Hle Hnm Hx Hun. unfold uvmalloc.
  rewrite (proj2 (Z.ltb_ge _ _)) by done.
  destruct (PGROUNDUP_bound oldsz) as [Mo Bo]; [unfold MAXVA, PGSIZE in *; lia|].
  destruct (PGROUNDUP_bound newsz) as [Mn Bn]; [unfold MAXVA, PGSIZE in *; lia|].
  pose proof (PGROUNDUP_mono oldsz newsz ltac:(lia) ltac:(unfold MAXVA, PGSIZE in *; lia)) as Hmono.
  assert (forall sz va, 0 <= sz <= MAXVA -> below (PGROUNDUP sz) va <-> below sz va) as Hup.
  { intros sz va Hsz. destruct (PGROUNDUP_bound sz) as [Ms Bs]; [unfold MAXVA, PGSIZE in *; lia|].
    unfold below, PGSIZE in *. Z.div_mod_to_equations. lia. }
  destruct (ev_uvmalloc_loop (Z.to_nat ((newsz - PGROUNDUP oldsz) / PGSIZE + 1)) root
    (PGROUNDUP oldsz) (PGROUNDUP oldsz) newsz xperm d fl)
    as (r & m & f & fl' & Hev & Hi' & Hk' & Hop & Hr); try done; [|lia|lia|..].
  { split; [unfold MAXVA, PGSIZE in *; Z.div_mod_to_equations; lia|].
    eapply uown_below; [exact Hu|]. intros va. by rewrite Hup by lia. }
  { unfold PGSIZE in *. Z.div_mod_to_equations. lia. }
  exists r, m, f, fl'. split; [done|]. split; [done|]. split.
  { eapply keeps_mono; [|exact Hk']. intros va. by rewrite Hup by lia. }
  assert (forall m own fl sz p, 0 <= sz <= MAXVA -> (forall va, own va <-> below (PGROUNDUP sz) va) ->
    pool m root own fl p <-> pool m root (below sz) fl p) as Hpe by (intros m0 own0 fl0 sz p Hsz Ho; apply pool_ext; intros va; rewrite Ho; by apply Hup).
  split; [eapply only_trans; [by intros p|exact Hop|intros p; by rewrite (Hpe (mem d) (below (PGROUNDUP oldsz)) fl oldsz p) by (done || lia)]|].
  destruct Hr as [(-> & [? Hu'] & _ & Hz & Hpl)|(-> & [? Hu'] & Hn & Hpl)]; [left|right].
  - split; [done|]. split; [|split; [done|]].
    + split; [done|]. eapply uown_below; [exact Hu'|]. intros va. by rewrite Hup by lia.
    + intros p. rewrite <- (Hpe m (below (PGROUNDUP newsz))), Hpl by (done || lia). apply Hpe; [lia|done].
  - split; [done|]. split; [|split; [done|]].
    + split; [done|]. eapply uown_below; [exact Hu'|]. intros va. by rewrite Hup by lia.
    + intros p. rewrite <- (Hpe m (below (PGROUNDUP oldsz))), Hpl by (done || lia). apply Hpe; [lia|done].
Qed.

(** *** Separate address spaces *)

Lemma pages_of_ok m root own fl p :
  uown m root own fl -> pages_of m root own p -> page_ok p /\ p ∉ fl.
Proof.
  intros Hu [Hp|(va & pte & Hva & E & <-)].
  - split; [eapply wf_ok|eapply wf_free]; try done; apply Hu.
  - destruct (us_map _ _ _ _ Hu va Hva) as (? & ? & _ & ? & ? & _). by simplify_eq.
Qed.

(** An address space only depends on its own pages. *)
Lemma uown_agree m m' root own fl fl' :
  uown m root own fl ->
  (forall p i, pages_of m root own p -> 0 <= i < PGSIZE -> m' (p + i) = m (p + i)) ->
  (forall p, pages_of m root own p -> p ∉ fl') ->
  uown m' root own fl' /\ keeps root own m m' /\
  (forall va, vlookup m' root va = vlookup m root va) /\
  (forall p, pages_of m' root own p <-> pages_of m root own p).
Proof.
  intros [Hwf Hdom Hmap Hinj Htop] Hm Hf.
  assert (forall p j, in_tree m root p -> 0 <= j < 512 -> entry m' p j = entry m p j) as He.
  { intros p j Hp Hj. apply entry_same. intros x Hx. replace x with (p + (x - p)) by lia.
    apply Hm; [by left|unfold PGSIZE; lia]. }
  assert (forall π, is_path π -> tbl m' root π = tbl m root π) as Ht.
  { intros π Hπ. apply (tbl_frame m m' root [-1]); [|done|].
    - intros π' p j Hπ' Hp Hj _. apply He; [by exists π'|done].
    - intros [k ->]. destruct Hπ as [_ Hπ]. apply Forall_inv in Hπ. lia. }
  assert (forall p, in_tree m' root p <-> in_tree m root p) as Htree.
  { intros p. split; intros (π & Hπ & E); exists π; (split; [done|]); by rewrite Ht in *. }
  assert (forall va, vlookup m' root va = vlookup m root va) as Hv.
  { intros va. rewrite !vlookup_path, Ht by apply is_path_px.
    destruct (tbl m root [PX 2 va; PX 1 va]) as [p|] eqn:E; [|done]. cbn -[PX]. f_equal.
    apply He; [eexists; split; [apply is_path_px|done]|by apply PX_bound]. }
  split; [|split; [|split]].
  - split; [|done|..].
    + destruct Hwf as [Wok Wf Winj]. split.
      * intros p Hp%Htree. auto.
      * intros p Hp%Htree. apply Hf. by left.
      * intros π π' p Hπ Hπ'. rewrite !Ht by done. by apply Winj.
    + intros va Hva. rewrite Hv. destruct (Hmap va Hva) as (pte & E & ? & ? & ? & ?).
      exists pte. rewrite Htree. do 3 (split; [done|]). split; [|done]. apply Hf. right. eauto.
    + intros va va' pte pte' ??. rewrite !Hv. by apply Hinj.
    + intros va p ??. unfold upage. rewrite Hv. by apply Htop.
  - apply keeps_intro; [auto|]. intros va pte i Hva E Hi. apply Hm; [right; eauto|done].
  - done.
  - intros p. unfold pages_of. rewrite Htree. by setoid_rewrite Hv.
Qed.

(** *** uvmcopy *)

(** A page mapped with the flags and the bytes of another reads like it. *)
Lemma vread_copy_page m m' root root' a q pte :
  0 <= a -> a + PGSIZE <= MAXVA -> a mod PGSIZE = 0 -> page_ok q ->
  vlookup m root a = Some pte -> vlookup m' root' a = Some (mk_pte q (PTE_FLAGS pte)) ->
  (forall i, 0 <= i < PGSIZE -> m' (q + i) = m (PTE2PA pte + i)) ->
  forall va, a <= va < a + PGSIZE -> vread m' root' va = vread m root va.
Proof.
  intros Ha Hmax Hal Hq Hl Hl' Hc va Hva.
  assert (PGROUNDDOWN va = a) as E.
  { rewrite PGROUNDDOWN_spec. unfold PGSIZE in *. Z.div_mod_to_equations. lia. }
  assert (0 <= PTE_FLAGS pte < 2 ^ 10) as Hf.
  { unfold PTE_FLAGS. change 0x3FF with (Z.ones 10). rewrite Z.land_ones by lia.
    apply Z.mod_pos_bound. lia. }
  unfold vread, uaddr. rewrite !decide_True by lia. rewrite E. unfold upage. rewrite Hl, Hl'. cbn.
  pose proof (page_ok_pos _ Hq) as H0. destruct Hq as [Mq Bq].
  rewrite (pte_land_flags (mk_pte _ _)), PTE_FLAGS_mk_pte by (unfold PTE_U; lia).
  rewrite Z.land_lor_distr_l, (Z.lor_0_r _ : Z.lor _ (Z.land PTE_V PTE_U) = _).
  rewrite <- pte_land_flags by (unfold PTE_U; lia).
  case_goal; [done|]. cbn.
  rewrite PTE2PA_mk_pte; [|unfold PHYSTOP, KERNBASE in Bq; lia|done|done].
  f_equal. apply Hc. by apply Z.mod_pos_bound.
Qed.

Section copy.
Context (old new : Z) (own : Z -> Prop).

(** The parent's space, the child's space up to [i], and their separation. *)
Record copying (m : bytes) (i : Z) (fl : list Z) : Prop := {
  cp_old : uown m old own fl;
  cp_new : uspace m new i fl;
  cp_dis : forall p, pages_of m old own p -> ~ pages_of m new (below i) p;
}.

(** Steps that leave the parent's pages alone. *)
Lemma copying_step m i fl m' i' fl' :
  copying m i fl -> uspace m' new i' fl' ->
  (forall p j, pages_of m old own p -> 0 <= j < PGSIZE -> m' (p + j) = m (p + j)) ->
  (forall p, p ∈ fl' -> p ∈ fl \/ pages_of m new (below i) p) ->
  (forall p, pages_of m' new (below i') p -> p ∈ fl \/ pages_of m new (below i) p) ->
  copying m' i' fl' /\ keeps old own m m' /\
  (forall va, vlookup m' old va = vlookup m old va).
Proof.
  intros [Ho Hn Hd] Hn' Hm Hf Hp.
  destruct (uown_agree m m' old own fl fl' Ho Hm) as (Ho' & Hk' & Hv & Hpg).
  { intros p Hop [?|?]%Hf; [|by destruct (Hd p)].
    by destruct (pages_of_ok _ _ _ _ _ Ho Hop). }
  split; [|done]. split; [done|done|]. intros p Hop%Hpg [?|?]%Hp; [|by destruct (Hd p)].
  by destruct (pages_of_ok _ _ _ _ _ Ho Hop).
Qed.

(** The error path of uvmcopy: the child's pages are freed again. *)
Lemma ev_uvmcopy_fail m i d fl :
  copying m i fl -> kmem_inv (d <| mem := m |>) fl -> 0 <= i -> i mod PGSIZE = 0 ->
  exists m' f' fl', let d' := with_mem d m' f' in
    evals l0 L (d <| mem := m |>) (uvmunmap new 0 (i / PGSIZE) true;; mret (-1)) (-1) L d' /\
    kmem_inv d' fl' /\ copying m' 0 fl' /\ keeps old own m m' /\
    (forall va, vlookup m' old va = vlookup m old va) /\
    (forall p, pool m' new (below 0) fl' p <-> pool m new (below i) fl p) /\
    only_pages (pool m new (below i) fl) m m'.
Proof.
  intros Hc Hi H0 Hal. pose proof (cp_new _ _ _ Hc) as [Hmax Hu].
  assert (0 + Z.of_nat (Z.to_nat (i / PGSIZE)) * PGSIZE = i) as E
    by (unfold PGSIZE in *; Z.div_mod_to_equations; lia).
  destruct (ev_uvmunmap_loop (Z.to_nat (i / PGSIZE)) new 0 (d <| mem := m |>) (below i) fl)
    as (m' & f' & qs & Hev & Hi' & _ & Hu' & Hun & Hqs & Hpl); try done; [lia|by rewrite E|].
  rewrite E in *. change (mem (d <| mem := m |>)) with m in *.
  destruct (copying_step m i fl m' 0 (qs ++ fl)) as (Hc' & Hk' & Hv').
  - done.
  - split; [done|]. eapply uown_below; [exact Hu'|]. intros va. unfold below, in_range. lia.
  - intros p j Hp Hj. pose proof (cp_old _ _ _ Hc) as Ho.
    destruct (pages_of_ok _ _ _ _ _ Ho Hp) as [[Mp _] _].
    assert (~ pages_of m new (below i) p) as Hnp by (by apply (cp_dis _ _ _ Hc)).
    apply (un_frame _ _ _ _ _ Hun); [done| |intros ?; apply Hnp; by left|done].
    intros (va & pte & Hva & _ & El & Eq)%Hqs. apply Hnp. right. eauto.
  - intros p [(va & pte & Hva & _ & El & Eq)%Hqs|?]%elem_of_app; [right; right; eauto|by left].
  - intros p [Hp|(va & pte & Hva & _)]; [right; left; by apply (un_tree _ _ _ _ _ Hun)|].
    unfold below in Hva. lia.
  - exists m', f', (qs ++ fl). split.
    2:{ split; [done|]. split; [done|]. split; [done|]. split; [done|]. split; [|by eapply only_unmapped].
      intros p. rewrite <- Hpl. apply pool_ext. intros va. unfold below, in_range. lia. }
    eapply ev_bind; [|apply ev_ret]. unfold uvmunmap. cbn [Z.eqb negb].
    replace (0 + i / PGSIZE * PGSIZE) with i by (unfold PGSIZE in *; Z.div_mod_to_equations; lia).
    rewrite u64_small, Z.sub_0_r by (unfold MAXVA in *; lia). exact Hev.
Qed.

(** The child has grown from [i] to [i'] with pages of the free list; no other page has
    changed, except for its page tables. *)
Record grown (m : bytes) (i : Z) (fl : list Z) (m' : bytes) (i' : Z) (fl' : list Z) : Prop := {
  gr_used : exists used, fl = used ++ fl';
  gr_tree : forall p, in_tree m' new p -> in_tree m new p \/ p ∈ fl;
  gr_pages : forall p, pages_of m' new (below i') p -> p ∈ fl \/ pages_of m new (below i) p;
  gr_frame : forall p j, p mod PGSIZE = 0 -> p ∉ fl -> ~ in_tree m new p -> 0 <= j < PGSIZE -> m' (p + j) = m (p + j);
}.

Lemma grown_refl m i fl : grown m i fl m i fl.
Proof. split; [by exists []|by left|by right|done]. Qed.

Lemma grown_trans m1 i1 fl1 m2 i2 fl2 m3 i3 fl3 : grown m1 i1 fl1 m2 i2 fl2 -> grown m2 i2 fl2 m3 i3 fl3 -> grown m1 i1 fl1 m3 i3 fl3.
Proof.
  intros [[u1 ->] A2 A3 A4] [[u2 ->] B2 B3 B4]. split.
  - exists (u1 ++ u2). by rewrite (assoc_L (++)).
  - intros p [Hp|Hp]%B2; [by apply A2|right; apply elem_of_app; by right].
  - intros p [Hp|Hp]%B3; [left; apply elem_of_app; by right|by apply A3].
  - intros p j Mp Hf Ht Hj. rewrite B4; [by apply A4|done| | |done].
    + intros Hin. apply Hf, elem_of_app. by right.
    + intros [?|?]%A2; done.
Qed.

(** The pages of the child after one page has been mapped. *)
Lemma map_pages m m1 m2 i i' q fl pte :
  (forall p, in_tree m1 new p <-> in_tree m new p) ->
  (forall va, vlookup m1 new va = vlookup m new va) ->
  (forall p, in_tree m2 new p -> in_tree m1 new p \/ p ∈ fl) ->
  (forall va, below i' va -> below i va \/ va = i) ->
  (forall va, below i va -> vlookup m2 new va = vlookup m1 new va) ->
  (below i' i -> vlookup m2 new i = Some pte /\ PTE2PA pte = q) ->
  forall p, pages_of m2 new (below i') p -> p ∈ q :: fl \/ pages_of m new (below i) p.
Proof.
  intros Ht1 Hv1 Ht2 Hb Hv2 Hi p [Hp|(va & pte' & Hva & E & <-)].
  - apply Ht2 in Hp as [Hp|Hp]; [right; left; by apply Ht1|left; by right].
  - destruct (Hb va Hva) as [Hva'| ->].
    + right. right. exists va, pte'. split; [done|]. by rewrite <- Hv1, <- Hv2.
    + destruct (Hi Hva) as [E' <-]. simplify_eq. left. by left.
Qed.

(** The child's page is allocated, filled and mapped: the parent does not notice. *)
Lemma copying_map m m1 m2 i i' q fl fl' pte :
  copying m i (q :: fl) -> page_ok q -> same_outside q m m1 ->
  (forall p, in_tree m1 new p <-> in_tree m new p) ->
  (forall va, vlookup m1 new va = vlookup m new va) ->
  uspace m2 new i' fl' -> (forall p, p ∈ fl' -> p ∈ q :: fl) ->
  (forall p, in_tree m2 new p -> in_tree m1 new p \/ p ∈ fl) ->
  (forall p, p mod PGSIZE = 0 -> p <> q -> p ∉ fl -> ~ in_tree m1 new p ->
     forall j, 0 <= j < PGSIZE -> m2 (p + j) = m1 (p + j)) ->
  (forall va, below i' va -> below i va \/ va = i) ->
  (forall va, below i va -> vlookup m2 new va = vlookup m1 new va) ->
  (below i' i -> vlookup m2 new i = Some pte /\ PTE2PA pte = q) ->
  copying m2 i' fl' /\ keeps old own m m2 /\
  (forall va, vlookup m2 old va = vlookup m old va).
Proof.
  intros Hc Hq Hs Ht1 Hv1 Hn2 Hfl Ht2 Hf2 Hb Hv2 Hi. eapply copying_step; [done|done|..].
  - intros p j Hp Hj. pose proof (cp_old _ _ _ Hc) as Ho.
    destruct (pages_of_ok _ _ _ _ _ Ho Hp) as [[Mp _] [Hpq Hpf]%not_elem_of_cons].
    assert (~ in_tree m1 new p) as Hnt.
    { rewrite Ht1. intros ?. apply (cp_dis _ _ _ Hc p); [done|by left]. }
    rewrite Hf2 by done. apply Hs. destruct Hq as [Mq _].
    pose proof (pages_disjoint p q Mp Mq Hpq). lia.
  - intros p ?. left. auto.
  - by eapply map_pages.
Qed.

Lemma ev_uvmcopy_iter fuel i sz d fl :
  copying d.(mem) i fl -> kmem_inv d fl -> 0 <= i -> i mod PGSIZE = 0 -> i < sz ->
  i + PGSIZE <= MAXVA -> own i -> vlookup d.(mem) new i = None ->
  (exists m f fl', let d' := with_mem d m f in
     evals l0 L d (uvmcopy_loop (S fuel) old new i sz) (-1) L d' /\ kmem_inv d' fl' /\
     copying m 0 fl' /\ keeps old own d.(mem) m /\ (length fl < 3)%nat /\
     (forall p, pool m new (below 0) fl' p <-> pool d.(mem) new (below i) fl p) /\
     only_pages (pool d.(mem) new (below i) fl) d.(mem) m) \/
  (exists m f fl', let d' := with_mem d m f in
     kmem_inv d' fl' /\ (length fl <= 3 + length fl')%nat /\ copying m (i + PGSIZE) fl' /\ keeps old own d.(mem) m /\
     keeps new (below i) d.(mem) m /\
     (forall va, i <= va < i + PGSIZE -> vread m new va = vread d.(mem) old va) /\
     (forall va, 0 <= va < MAXVA -> va mod PGSIZE = 0 -> va <> i ->
        vlookup m new va = vlookup d.(mem) new va) /\
     grown d.(mem) i fl m (i + PGSIZE) fl' /\
     (forall p, pool m new (below (i + PGSIZE)) fl' p <-> pool d.(mem) new (below i) fl p) /\
     only_pages (pool d.(mem) new (below i) fl) d.(mem) m /\
     forall x d'', evals l0 L d' (uvmcopy_loop fuel old new (i + PGSIZE) sz) x L d'' ->
       evals l0 L d (uvmcopy_loop (S fuel) old new i sz) x L d'').
Proof.
  intros Hc Hinv H0 Hal Hlt Hmax Hown Hun.
  pose proof (cp_old _ _ _ Hc) as Ho. pose proof (cp_new _ _ _ Hc) as Hn.
  destruct (us_map _ _ _ _ Ho i Hown) as (pte & Hl & Hfl & Hpa & Hpf & Hpt).
  assert (forall va, below i va -> below (i + PGSIZE) va) as Hmono by (unfold below, PGSIZE; lia).
  destruct fl as [|q fl].
  { left. destruct (ev_uvmcopy_fail (mem d) i d []) as (m' & f' & fl' & Hev & Hi' & Hc' & Hk' & _ & Hpl' & Hop');
      [done|by destruct d|done..|].
    exists m', f', fl'. split; [|split; [done|split; [done|split; [done|split; [cbn; lia|by split]]]]]. cbn [uvmcopy_loop].
    rewrite (proj2 (Z.ltb_lt _ _)) by done. cbn [negb].
    eapply ev_walk_leaf; [apply Ho|unfold PGSIZE in *; lia|done|].
    intros _ _. eapply ev_bind; [by apply ev_kalloc_none|]. cbn beta iota. by destruct d. }
  set (m1 := memmove (memset (mem d) q 5 PGSIZE) q (PTE2PA pte) PGSIZE).
  destruct (take_fresh new i d q fl m1)
    as (Hu1 & Hi1 & Hq & Hqf & Hqt & Hv1 & Hqo & Hk1 & Ht1 & Hpl1); [done|done| |].
  { intros x Hx. unfold m1. rewrite memmove_spec by done.
    destruct (Z.leb_spec q x), (Z.ltb_spec x (q + PGSIZE)); cbn [andb]; try lia; by rewrite memset_out. }
  assert (same_outside q (mem d) m1) as Hs1.
  { intros x Hx. unfold m1. rewrite memmove_spec by done.
    destruct (Z.leb_spec q x), (Z.ltb_spec x (q + PGSIZE)); cbn [andb]; try lia; by rewrite memset_out. }
  assert (0 <= PTE_FLAGS pte < 2 ^ 10) as Hfb by apply PTE_FLAGS_bound.
  destruct (ev_map_fresh new i q (PTE_FLAGS pte) (kalloc_d q d) m1 fl)
    as (r & m2 & f2 & fl2 & Hev2 & Hi2 & Hk2 & Hz2 & [used ->] & Ht2 & Hf2 & Hl2 & Hn2 & Hpl2 & Hr2); try done.
  { by rewrite Hv1. }
  { rewrite PTE_FLAGS_valid; [done|]. apply vlookup_pte_of in Hl as (_ & _ & _ & _ & Hv).
    by apply ctrue_true. }
  assert (forall x d'', evals l0 L (with_mem d m2 f2)
      (if negb (r =? 0) then kfree q;; uvmunmap new 0 (i / PGSIZE) true;; mret (-1)
       else uvmcopy_loop fuel old new (u64 (i + PGSIZE)) sz) x L d'' ->
    evals l0 L d (uvmcopy_loop (S fuel) old new i sz) x L d'') as Hrun.
  { intros x d'' H. cbn [uvmcopy_loop]. rewrite (proj2 (Z.ltb_lt _ _)) by done. cbn [negb].
    eapply ev_walk_leaf; [apply Ho|unfold PGSIZE in *; lia|done|]. intros _ _.
    eapply ev_bind; [by eapply ev_kalloc_some|]. cbn beta.
    rewrite (proj2 (Z.eqb_neq q 0)) by (apply page_ok_pos in Hq; lia).
    eapply ev_bind; [apply ev_kmemmove|]. change (mem (kalloc_d q d)) with (memset (mem d) q 5 PGSIZE).
    fold m1. eapply ev_bind; [exact Hev2|]. exact H. }
  assert (forall j, 0 <= j < PGSIZE -> m1 (q + j) = mem d (PTE2PA pte + j)) as Hcont.
  { intros j Hj. unfold m1. rewrite memmove_spec by done.
    destruct (Z.leb_spec q (q + j)), (Z.ltb_spec (q + j) (q + PGSIZE)); cbn [andb]; try lia.
    replace (PTE2PA pte + (q + j - q)) with (PTE2PA pte + j) by lia. apply memset_out.
    apply not_elem_of_cons in Hpf as [Hne _].
    pose proof (pages_disjoint _ _ (proj1 Hpa) (proj1 Hq) Hne). lia. }
  assert (only_pages (pool d.(mem) new (below i) (q :: used ++ fl2)) d.(mem) m2) as Hop2.
  { eapply only_trans; [apply (only_outside _ q); [apply Hq|exact Hs1|left; by left]| |intros p Hp; apply Hpl1; right; exact Hp].
    intros p j Mp Hp. apply Hf2; [done|intros H; apply Hp; by left|intros H; apply Hp; right; by left]. }
  destruct Hr2 as [(-> & Hu2 & Hla)|(-> & Hu2 & Hla & -> & Hshort)]; [right|left].
  - exists m2, f2, fl2. split; [done|]. split; [cbn in *; lia|].
    destruct (copying_map (mem d) m1 m2 i (i + PGSIZE) q (used ++ fl2) fl2 (mk_pte q (PTE_FLAGS pte)))
      as (Hc2 & Hko & Hvo); try done.
    { intros p Hp. right. apply elem_of_app. by right. }
    { intros p Mp _. by apply Hf2. }
    { intros va Hva. by apply below_step in Hva. }
    { intros va Hva. destruct (us_dom _ _ _ _ (proj2 Hn) va Hva).
      apply Hl2; [done|done|unfold below in Hva; lia]. }
    { intros _. split; [done|]. pose proof (page_ok_pos q Hq).
      apply PTE2PA_mk_pte; [destruct Hq as [_ B]; unfold PHYSTOP, KERNBASE in B; lia|apply Hq|done]. }
    split; [done|]. split; [done|]. split; [by eapply keeps_trans|]. split.
    { eapply vread_copy_page; try done. intros j Hj. rewrite Hz2 by done. by apply Hcont. }
    split; [intros va ???; by rewrite Hl2, Hv1|].
    split.
    { split; [by exists (q :: used)|intros p [?%Ht1|?]%Ht2; [by left|right; by right]| |].
      - eapply (map_pages _ m1 m2 i (i + PGSIZE) q _ (mk_pte q (PTE_FLAGS pte))); try done.
        + intros va Hva. by apply below_step in Hva.
        + intros va Hva. destruct (us_dom _ _ _ _ (proj2 Hn) va Hva). apply Hl2; [done|done|unfold below in Hva; lia].
        + intros _. split; [done|]. pose proof (page_ok_pos q Hq).
          apply PTE2PA_mk_pte; [destruct Hq as [_ B]; unfold PHYSTOP, KERNBASE in B; lia|apply Hq|done].
      - intros p j Mp [Hpq Hpu]%not_elem_of_cons Hpt' Hj. rewrite Hf2 by (try done; by rewrite Ht1). apply Hs1.
        pose proof (pages_disjoint p q Mp (proj1 Hq) Hpq). lia. }
    split.
    { intros p. rewrite Hpl1. eapply (pool_map m1 m2 new (below i)); [exact Hpl2| | |exact Hla|by apply frame_of_pte].
      - intros va Hva. destruct (us_dom _ _ _ _ (proj2 Hn) va Hva). apply Hl2; [done..|unfold below in Hva; lia].
      - intros va. by apply below_step. }
    split; [done|]. intros x d'' H. apply Hrun. cbn [Z.eqb negb].
    rewrite u64_small by (unfold MAXVA, PGSIZE in *; lia). exact H.
  - set (m3 := (kfree_d q (with_mem d m2 f2)).(mem)).
    pose proof (kfree_mem_outside q (with_mem d m2 f2)) as Hs3.
    assert (forall va pte, below i va -> vlookup m2 new va = Some pte -> PTE2PA pte <> q) as Hqo2.
    { intros va pte' Hva. destruct (us_dom _ _ _ _ (proj2 Hn) va Hva).
      rewrite Hl2 by (try done; unfold below in Hva; lia). by apply Hqo. }
    assert (~ in_tree m2 new q) as Hqt2 by (by intros [?|?]%Ht2).
    destruct (uown_give new m2 m3 (below i) q []) as (Hu3 & Hk3 & Hpl3);
      [apply Hu2|apply Hq|exact Hs3|done|done|].
    destruct (copying_map (mem d) m1 m3 i i q (used ++ []) [q] 0) as (Hc3 & Hko & Hvo); try done.
    { split; [apply Hu2|done]. }
    { intros p ->%list_elem_of_singleton. by left. }
    { intros p Hp. apply Ht2.
      apply (in_tree_outside m2 m3 new [] q); [apply Hu2|apply Hq|done..]. }
    { intros p Mp Hpq Hpu Hpt1 j Hj. rewrite <- Hf2 by done. apply Hs3.
      pose proof (pages_disjoint p q Mp (proj1 Hq) Hpq). cbn. lia. }
    { intros va Hva. by left. }
    { intros va Hva. destruct (us_dom _ _ _ _ (proj2 Hn) va Hva).
      rewrite <- Hl2 by (try done; unfold below in Hva; lia).
      eapply vlookup_outside; [apply Hu2|apply Hq|done..]. }
    { unfold below. lia. }
    destruct (ev_uvmcopy_fail m3 i (kfree_d q (with_mem d m2 f2)) [q])
      as (m' & f' & fl' & Hev & Hi' & Hc' & Hk' & _ & Hpl' & Hop'); [done| |done..|].
    { exact (kfree_inv q _ _ Hq (not_elem_of_nil q) Hi2). }
    exists m', f', fl'. split; [|split; [exact Hi'|split; [done|split; [by eapply keeps_trans|split; [cbn in *; lia|]]]]].
    2:{ assert (forall p, pool m3 new (below i) [q] p <-> pool (mem d) new (below i) (q :: used ++ []) p) as Hpl4.
      { intros p. rewrite Hpl3, Hpl1. rewrite (pool_same m1 m2 new (below i) (used ++ []) []); [done|exact Hpl2|].
        intros va Hva. destruct (us_dom _ _ _ _ (proj2 Hn) va Hva). apply Hl2; [done..|unfold below in Hva; lia]. }
      split; [intros p; by rewrite Hpl', Hpl4|]. eapply only_trans; [|exact Hop'|intros p; apply Hpl4].
      eapply only_trans; [exact Hop2| |intros p Hp; exact Hp]. apply (only_outside _ q); [apply Hq|exact Hs3|left; by left]. }
    apply Hrun. cbn [Z.eqb negb]. eapply ev_bind; [by apply ev_kfree|]. exact Hev.
Qed.

Lemma ev_uvmcopy_loop fuel i sz d fl :
  copying d.(mem) i fl -> kmem_inv d fl -> 0 <= i -> i mod PGSIZE = 0 ->
  0 <= sz <= MAXVA -> i <= PGROUNDUP sz -> PGROUNDUP sz - i <= Z.of_nat fuel * PGSIZE ->
  (forall va, below sz va -> own va) ->
  (forall va, in_range i sz va -> vlookup d.(mem) new va = None) ->
  (forall va, 0 <= va < i -> vread d.(mem) new va = vread d.(mem) old va) ->
  exists r m f fl', let d' := with_mem d m f in
    evals l0 L d (uvmcopy_loop fuel old new i sz) r L d' /\ kmem_inv d' fl' /\
    keeps old own d.(mem) m /\ only_pages (pool d.(mem) new (below i) fl) d.(mem) m /\
    ((r = 0 /\ copying m (PGROUNDUP sz) fl' /\ grown d.(mem) i fl m (PGROUNDUP sz) fl' /\
      (forall va, 0 <= va < PGROUNDUP sz -> vread m new va = vread m old va) /\
      forall p, pool m new (below (PGROUNDUP sz)) fl' p <-> pool d.(mem) new (below i) fl p) \/
     (r = -1 /\ copying m 0 fl' /\ Z.of_nat (length fl) < 3 * ((PGROUNDUP sz - i) / PGSIZE) /\
      forall p, pool m new (below 0) fl' p <-> pool d.(mem) new (below i) fl p)).
Proof.
  intros Hc Hinv H0 Hal Hsz Hle Hfuel Hown. revert i d fl Hc Hinv H0 Hal Hle Hfuel.
  destruct (PGROUNDUP_bound sz) as [Ms Bs]; [unfold MAXVA, PGSIZE in *; lia|].
  assert (PGROUNDUP sz <= MAXVA) as Hmax
    by (unfold MAXVA, PGSIZE in *; Z.div_mod_to_equations; lia).
  induction fuel as [|fuel IH]; intros i d fl Hc Hinv H0 Hal Hle Hfuel Hun Heq;
    destruct (Z.ltb_spec i sz) as [Hlt|Hge].
  { unfold PGSIZE in *. lia. }
  1, 3: assert (i = PGROUNDUP sz) as -> by (unfold PGSIZE in *; Z.div_mod_to_equations; lia);
    exists 0, (mem d), (freelist d), fl;
    (split; [cbn [uvmcopy_loop]; rewrite (proj2 (Z.ltb_ge _ _)) by done;
             eapply evals_eq; [apply ev_ret|done..|by destruct d]|]);
    (split; [by destruct d|]); (split; [apply keeps_refl|]); (split; [by intros p|]); left; (split; [done|]); (split; [done|]); (split; [apply grown_refl|by split]).
  assert (i + PGSIZE <= PGROUNDUP sz) as Hstep
    by (unfold PGSIZE in *; Z.div_mod_to_equations; lia).
  destruct (ev_uvmcopy_iter fuel i sz d fl) as
    [(m & f & fl' & Hev & Hi & Hc' & Hkp & Hn1 & Hpl & Hop)|(m & f & fl1 & Hi & Hn1 & Hc1 & Hko & Hkn & Hr1 & Hl1 & Hg1 & Hpl & Hop & Hrun)];
    try done; [lia|apply Hown; by split|apply Hun; by split; [lia|]|..].
  { exists (-1), m, f, fl'. split; [exact Hev|]. split; [done|]. split; [done|]. split; [done|right]. split; [done|]. split; [done|]. split; [|done].
    clear -Hn1 Hstep Hal Ms. unfold PGSIZE in *. Z.div_mod_to_equations. lia. }
  assert (forall va, 0 <= va < PGROUNDUP sz -> own (PGROUNDDOWN va)) as Hownd.
  { intros va Hva. apply Hown. destruct (PGROUNDDOWN_bound va) as [Ma Ba]. split; [|done].
    unfold PGSIZE in *. Z.div_mod_to_equations. lia. }
  destruct (IH (i + PGSIZE) (with_mem d m f) fl1)
    as (r & m' & f' & fl' & Hev & Hi' & Hk' & Hop' & Hr); try done.
  1-3: unfold PGSIZE in *; Z.div_mod_to_equations; lia.
  { intros va [Hva Hval]. change (mem (with_mem d m f)) with m.
    rewrite Hl1 by (try done; unfold PGSIZE in *; lia).
    apply Hun. split; [unfold PGSIZE in *; lia|done]. }
  { intros va Hva. change (mem (with_mem d m f)) with m. rewrite (Hko va) by (auto with lia).
    destruct (decide (i <= va)); [apply Hr1; lia|].
    destruct (PGROUNDDOWN_bound va) as [Ma Ba].
    rewrite (Hkn va); [apply Heq; lia|lia|]. split; [|done].
    unfold PGSIZE in *. Z.div_mod_to_equations. lia. }
  exists r, m', f', fl'. split; [by apply Hrun|]. split; [done|]. split; [by eapply keeps_trans|].
  split; [eapply only_trans; [exact Hop|exact Hop'|intros p; apply Hpl]|].
  change (mem (with_mem d m f)) with m in Hr. destruct Hr as [(-> & Hc' & Hg' & Hr & Hpl')|(-> & Hc' & Hn' & Hpl')]; [left|right]; (split; [done|]); (split; [done|]).
  - split; [by eapply grown_trans|]. split; [done|]. intros p. by rewrite Hpl', Hpl.
  - split; [clear -Hn1 Hn' Hal Ms; unfold PGSIZE in *; Z.div_mod_to_equations; lia|]. intros p. by rewrite Hpl', Hpl.
Qed.

(** [uvmcopy]: on success the child sees at every address below [sz] what the
    parent sees, through frames of its own; on failure it owns nothing.  Either
    way the parent's memory is what it was. *)
Lemma ev_uvmcopy sz d fl :
  copying d.(mem) 0 fl -> kmem_inv d fl -> 0 <= sz <= MAXVA ->
  (forall va, below sz va -> own va) ->
  (forall va, below sz va -> vlookup d.(mem) new va = None) ->
  exists r m f fl', let d' := with_mem d m f in
    evals l0 L d (uvmcopy old new sz) r L d' /\ kmem_inv d' fl' /\ keeps old own d.(mem) m /\
    only_pages (pool d.(mem) new (below 0) fl) d.(mem) m /\
    ((r = 0 /\ copying m (PGROUNDUP sz) fl' /\ grown d.(mem) 0 fl m (PGROUNDUP sz) fl' /\
      (forall va, 0 <= va < PGROUNDUP sz -> vread m new va = vread m old va) /\
      forall p, pool m new (below (PGROUNDUP sz)) fl' p <-> pool d.(mem) new (below 0) fl p) \/
     (r = -1 /\ copying m 0 fl' /\ Z.of_nat (length fl) < 3 * (PGROUNDUP sz / PGSIZE) /\
      forall p, pool m new (below 0) fl' p <-> pool d.(mem) new (below 0) fl p)).
Proof.
  intros Hc Hi Hsz Hown Hun.
  destruct (PGROUNDUP_bound sz) as [Ms Bs]; [unfold MAXVA, PGSIZE in *; lia|].
  assert (PGROUNDUP sz - 0 <= Z.of_nat (Z.to_nat (sz / PGSIZE + 1)) * PGSIZE) as Hfuel
    by (unfold PGSIZE in *; Z.div_mod_to_equations; lia).
  pose proof (ev_uvmcopy_loop _ 0 sz d fl Hc Hi ltac:(lia) eq_refl Hsz ltac:(lia) Hfuel Hown Hun
    ltac:(lia)) as H. by rewrite Z.sub_0_r in H.
Qed.
End copy.
End eval.
End usermem.
