(* ===== verification/Demo.v ===== *)
(** * Concrete states for evaluation

    A kernel image with plausible linker addresses, an idle lock state, memory
    with a few free pages, and an empty page table: the inputs on which the
    theorems are instantiated. *)
From S2P Require Export UserMem.

Definition demo_image : KernelImage := {|
  k_end := 0x80022000; k_etext := 0x80008000; k_trampoline := 0x80007000;
  k_uservec := 0x80007000; k_userret := 0x8000709c; k_kernelvec := 0x80005e00;
  k_forkret := 0x80001a00; k_usertrap := 0x80002800 |}.

Lemma demo_image_ok : @KernelImageOk demo_image.
Proof. by split; cbn. Qed.

(** All locks free, nothing running, interrupts off at depth 0. *)
Lemma demo_ready : ready lockst0.
Proof. by split. Qed.

Lemma demo_lfree lk : lfree lockst0 lk.
Proof. done. Qed.

Section demo.
#[local] Existing Instance demo_image.
#[local] Existing Instance demo_image_ok.

(** The pages from 0x87000000 on, [n] of them. *)
Definition demo_pages (n : nat) : list Z := page_seq 0x87000000 n.

Lemma demo_pages_ok n : (n <= 256)%nat -> Forall page_ok (demo_pages n).
Proof.
  intros Hn. apply Forall_forall. unfold demo_pages, page_seq. intros p Hp.
  apply list_elem_of_fmap in Hp as (i & -> & Hi%elem_of_seq).
  split; [unfold PGSIZE; Z.div_mod_to_equations; lia|].
  unfold PHYSTOP, KERNBASE, PGSIZE. cbn. lia.
Qed.

Lemma demo_pages_nodup n : NoDup (demo_pages n).
Proof.
  apply NoDup_fmap; [|apply NoDup_seq]. intros i j. unfold PGSIZE. lia.
Qed.

(** The data of a kernel whose allocator owns the pages [l]. *)
Definition demo_data (l : list Z) : kdata := foldr kfree_d kdata0 l.

Lemma demo_data_inv l : Forall page_ok l -> NoDup l -> kmem_inv (demo_data l) l.
Proof.
  induction l as [|p l IH]; intros Hok Hnd; cbn.
  - by split; [|constructor].
  - apply Forall_cons in Hok as [??]. apply NoDup_cons in Hnd as [??].
    apply kfree_inv; auto.
Qed.

(** Memory outside of the pages is zero. *)
Lemma demo_data_zero l x :
  (forall p, p ∈ l -> x < p \/ p + PGSIZE <= x) -> (demo_data l).(mem) x = 0.
Proof.
  induction l as [|p l IH]; intros Hx; [done|]. cbn -[kfree_d].
  rewrite kfree_mem_outside by (apply Hx; by left). apply IH. intros. apply Hx. by right.
Qed.
End demo.

(** ** An empty address space *)

Section empty.
Context `{KI : KernelImage}.

Lemma tbl_zero m root π :
  (forall i, 0 <= i < PGSIZE -> m (root + i) = 0) -> is_path π ->
  tbl m root π = match π with [] => Some root | _ => None end.
Proof.
  intros Hz [_ Hπ]. destruct π as [|i π]; [done|]. cbn. rewrite sub_zero; [done|].
  apply Forall_inv in Hπ. apply load_zero. intros x Hx.
  replace x with (root + (x - root)) by lia. apply Hz. unfold PGSIZE. lia.
Qed.

Lemma pt_wf_zero m root fl :
  (forall i, 0 <= i < PGSIZE -> m (root + i) = 0) -> page_ok root -> root ∉ fl ->
  pt_wf m root fl.
Proof.
  intros Hz Hr Hf. split.
  - intros p (π & Hπ & E). rewrite tbl_zero in E by done. destruct π; [|done]. by simplify_eq.
  - intros p (π & Hπ & E). rewrite tbl_zero in E by done. destruct π; [|done]. by simplify_eq.
  - intros π π' p Hπ Hπ'. rewrite !tbl_zero by done. by destruct π, π'.
Qed.

Lemma vlookup_zero m root va :
  (forall i, 0 <= i < PGSIZE -> m (root + i) = 0) -> vlookup m root va = None.
Proof. intros Hz. by rewrite vlookup_path, tbl_zero by (done || apply is_path_px). Qed.

Lemma uspace_zero m root fl :
  (forall i, 0 <= i < PGSIZE -> m (root + i) = 0) -> page_ok root -> root ∉ fl ->
  uspace m root 0 fl.
Proof.
  intros Hz Hr Hf. split; [unfold MAXVA; lia|]. split.
  - by apply pt_wf_zero.
  - unfold below. lia.
  - unfold below. lia.
  - unfold below. lia.
  - intros va p _ _. unfold upage. by rewrite vlookup_zero.
Qed.
End empty.
