(* ===== verification/VmSpec.v ===== *)
(** * What kernel/kalloc.c and kernel/vm.c guarantee

    The theorems of the memory components, each with an instance on a concrete
    kernel state: the allocator never hands out a page twice, page tables are
    finite maps, user copies move exactly the bytes that the page tables say, and
    growing, shrinking and copying an address space keep its invariant. *)
From S2P Require Export Demo.

Section theorems.
Context `{KI : KernelImage} {KIok : KernelImageOk}.
Context (l0 : lockst) (L : list lockptr).

(** A call of [kalloc] removes a page from the free list, fills it with the byte
    5 and touches nothing else, or returns 0 when the list is empty. *)
Theorem kalloc_correct d fl :
  kmem_lock ∉ L -> lfree l0 kmem_lock -> kmem_inv d fl ->
  exists r d', evals l0 L d kalloc r L d' /\
    match fl with
    | [] => r = 0 /\ d' = d
    | p :: fl' => r = p /\ page_ok p /\ (p ∉ fl') /\ kmem_inv d' fl' /\
        same_outside p d.(mem) d'.(mem) /\
        (forall i, 0 <= i < PGSIZE -> d'.(mem) (p + i) = 5) /\
        d' = d <| mem := d'.(mem) |> <| freelist := d'.(freelist) |>
    end.
Proof.
  intros Hk Hf Hinv. destruct fl as [|p fl].
  - exists 0, d. split; [by apply ev_kalloc_none|done].
  - exists p, (kalloc_d p d). split; [by eapply ev_kalloc_some|].
    pose proof (is_freelist_ok _ _ _ (proj1 Hinv)) as Hp. apply Forall_inv in Hp.
    pose proof (proj2 Hinv) as Hnd. apply NoDup_cons in Hnd as [Hn _].
    do 3 (split; [done|]). split; [by apply kalloc_inv|]. split; [apply kalloc_mem_outside|].
    split; [|done]. intros i Hi. cbn. rewrite memset_in by lia. done.
Qed.

(** Freeing a page that is in range and not already free puts it at the head of
    the list and overwrites nothing but that page; any other address panics. *)
Theorem kfree_correct pa d fl :
  kmem_lock ∉ L -> lfree l0 kmem_lock -> kmem_inv d fl -> pa ∉ fl ->
  (page_ok pa -> exists d', evals l0 L d (kfree pa) tt L d' /\ kmem_inv d' (pa :: fl) /\
     same_outside pa d.(mem) d'.(mem)) /\
  (~ page_ok pa -> evals_panic l0 L d (kfree pa) "kfree").
Proof.
  intros Hk Hf Hinv Hn. split.
  - intros Hp. exists (kfree_d pa d). split; [by apply ev_kfree|].
    split; [by apply kfree_inv|apply kfree_mem_outside].
  - by apply ev_kfree_bad.
Qed.

(** [mappages] on any range below [MAXVA] whose pages are unmapped: it returns 0
    and the page table then maps each page of the range to consecutive frames with
    the given permissions and every other page as before, or it returns -1, having
    used up the allocator, with a prefix of the range mapped; two free pages for each page
    of the range are enough. *)
Theorem mappages_correct root va size pa perm d fl (n := (va + size - 1) / PGSIZE - va / PGSIZE) :
  kmem_lock ∉ L -> lfree l0 kmem_lock ->
  0 < size -> 0 <= va -> va + size <= MAXVA ->
  0 <= pa -> pa + n * PGSIZE < 2 ^ 56 -> 0 <= perm < 2 ^ 10 ->
  pt_wf d.(mem) root fl -> kmem_inv d fl ->
  (forall a, PGROUNDDOWN va <= a < va + size -> a mod PGSIZE = 0 ->
     vlookup d.(mem) root a = None) ->
  exists r m f fl' k, let d' := with_mem d m f in
    evals l0 L d (mappages root va size pa perm) r L d' /\
    pt_map root d.(mem) fl m fl' (PGROUNDDOWN va) k pa perm /\ kmem_inv d' fl' /\
    Z.of_nat (length fl) <= 2 * (n + 1) + Z.of_nat (length fl') /\
    ((r = 0 /\ Z.of_nat k = n + 1) \/ (r = -1 /\ Z.of_nat k <= n /\ fl' = [] /\ Z.of_nat (length fl) < 2 * (n + 1))).
Proof. intros Hk Hf. by apply ev_mappages. Qed.

(** [walk] without allocation returns the address of the entry for [va], or 0
    where a page-table page is missing; at or above [MAXVA] it panics. *)
Theorem walk_correct root va d :
  (va < MAXVA ->
   evals l0 L d (walk root va false) (default 0 (pte_of d.(mem) root va)) L d) /\
  (MAXVA <= va -> evals_panic l0 L d (walk root va false) "walk").
Proof.
  split; [by apply ev_walk_noalloc|]. intros H. unfold walk.
  rewrite (proj2 (Z.leb_le _ _)) by done. apply ev_panic.
Qed.

(** C3: [copyin] reads exactly the bytes at the user addresses into the destination
    and leaves the rest of it alone; it fails at the first unmapped address. *)
Theorem copyin_correct root dm dst srcva len d own fl :
  uown d.(mem) root own fl -> 0 <= srcva -> 0 <= len -> srcva + len <= 2 ^ 63 ->
  exists r dm' k, evals l0 L d (copyin root dm dst srcva len) (r, dm') L d /\
    (forall i, 0 <= i < k -> vread d.(mem) root (srcva + i) = Some (dm' (dst + i))) /\
    (forall x, x < dst \/ dst + k <= x -> dm' x = dm x) /\
    ((r = 0 /\ k = len) \/
     (r = -1 /\ 0 <= k < len /\ vread d.(mem) root (srcva + k) = None)).
Proof.
  intros Hu Hs Hl Hmax.
  destruct (ev_copyin_loop l0 L (Z.to_nat len) root dm dst srcva len d fl)
    as (r & dm' & k & Hev & Hk & Hin & Hout & Hr); [apply Hu| |done|done|lia|].
  { intros va p Hva Hal Hp. destruct (uown_upage _ _ _ _ _ _ Hu Hva Hal Hp) as [Hok _].
    apply page_ok_pos in Hok. lia. }
  exists r, dm', k. split; [exact Hev|]. split; [done|]. split; [done|].
  destruct Hr as [[-> ->]|(-> & ? & ?)]; [left|right]; repeat split; try done; lia.
Qed.

(** [copyout] writes exactly the bytes of the source at the user addresses: they
    read back, the translation of every address is unchanged, and no other byte of
    memory changes.  It fails at the first unmapped address. *)
Theorem copyout_correct root dstva sm src len d own fl :
  uown d.(mem) root own fl -> 0 <= dstva -> 0 <= len -> dstva + len <= 2 ^ 63 ->
  exists r m k, evals l0 L d (copyout root dstva sm src len) r L (d <| mem := m |>) /\
    uown m root own fl /\ (forall va, uaddr m root va = uaddr d.(mem) root va) /\
    (forall i, 0 <= i < k -> vread m root (dstva + i) = Some (sm (src + i))) /\
    (forall x, (forall i, 0 <= i < k -> uaddr d.(mem) root (dstva + i) <> Some x) ->
       m x = d.(mem) x) /\
    ((r = 0 /\ k = len) \/
     (r = -1 /\ 0 <= k < len /\ uaddr d.(mem) root (dstva + k) = None)).
Proof.
  intros Hu Hs Hl Hmax.
  destruct (ev_copyout_loop l0 L (Z.to_nat len) root dstva sm src len d own fl)
    as (r & m & k & Hev & Hu' & Ha & Hk & Hin & Hout & Hr); [done|done|done|lia|].
  exists r, m, k. split; [exact Hev|]. do 4 (split; [done|]).
  destruct Hr as [[-> ->]|(-> & ? & ?)]; [left|right]; repeat split; try done; lia.
Qed.

(** C4: Growing a process: the new pages read as zeroes and the old bytes are kept;
    when memory runs out the space is what it was and 0 is returned, which happens only
    with fewer free pages than three for each new page.  No page is lost: those that are
    free or belong to the process afterwards are those that were before (the tables that a
    failed call has made stay in the page table), and no other page is written. *)
Theorem uvmalloc_correct root oldsz newsz xperm d fl :
  kmem_lock ∉ L -> lfree l0 kmem_lock ->
  uspace d.(mem) root oldsz fl -> kmem_inv d fl ->
  0 <= oldsz -> oldsz <= newsz -> newsz <= MAXVA -> 0 <= xperm < 2 ^ 10 ->
  (forall va, in_range (PGROUNDUP oldsz) newsz va -> vlookup d.(mem) root va = None) ->
  exists r m f fl', let d' := with_mem d m f in
    evals l0 L d (uvmalloc root oldsz newsz xperm) r L d' /\ kmem_inv d' fl' /\
    keeps root (below oldsz) d.(mem) m /\ only_pages (pool d.(mem) root (below oldsz) fl) d.(mem) m /\
    ((r = newsz /\ uspace m root newsz fl' /\
      (forall va, PGROUNDUP oldsz <= va < PGROUNDUP newsz -> vread m root va = Some 0) /\
      (forall p, pool m root (below newsz) fl' p <-> pool d.(mem) root (below oldsz) fl p)) \/
     (r = 0 /\ uspace m root oldsz fl' /\ Z.of_nat (length fl) < 3 * ((PGROUNDUP newsz - PGROUNDUP oldsz) / PGSIZE) /\
      (forall p, pool m root (below oldsz) fl' p <-> pool d.(mem) root (below oldsz) fl p))).
Proof. intros Hk Hf. by apply ev_uvmalloc. Qed.

(** Shrinking a process frees exactly the frames of the pages it gives up, and
    the remaining bytes are kept. *)
Theorem uvmdealloc_correct root oldsz newsz d fl :
  kmem_lock ∉ L -> lfree l0 kmem_lock ->
  uspace d.(mem) root oldsz fl -> kmem_inv d fl -> 0 <= newsz -> newsz <= oldsz ->
  exists m f qs, let d' := with_mem d m f in
    evals l0 L d (uvmdealloc root oldsz newsz) newsz L d' /\
    kmem_inv d' (qs ++ fl) /\ uspace m root newsz (qs ++ fl) /\
    Z.of_nat (length qs) = (PGROUNDUP oldsz - PGROUNDUP newsz) / PGSIZE /\
    keeps root (below newsz) d.(mem) m.
Proof.
  intros Hk Hf Hu Hinv H0 Hle.
  destruct (ev_uvmdealloc l0 L Hk Hf root oldsz newsz d fl)
    as (m & f & qs & ? & ? & ? & ? & _ & ? & _); try done. by exists m, f, qs.
Qed.

(** C5: Copying an address space (fork): on success the child reads at every address
    below [sz] what the parent reads, through frames that the parent does not use;
    on failure it owns nothing, which happens only with fewer free pages than three for
    each page of the parent.  The parent's bytes are kept either way.  No page is lost:
    those that are free or belong to the child afterwards are those that were before (after
    a failure the child has page tables only), and no other page is written. *)
Theorem uvmcopy_correct old new own sz d fl :
  kmem_lock ∉ L -> lfree l0 kmem_lock ->
  copying old new own d.(mem) 0 fl -> kmem_inv d fl -> 0 <= sz <= MAXVA ->
  (forall va, below sz va -> own va) ->
  (forall va, below sz va -> vlookup d.(mem) new va = None) ->
  exists r m f fl', let d' := with_mem d m f in
    evals l0 L d (uvmcopy old new sz) r L d' /\ kmem_inv d' fl' /\ keeps old own d.(mem) m /\
    only_pages (pool d.(mem) new (below 0) fl) d.(mem) m /\
    ((r = 0 /\ copying old new own m (PGROUNDUP sz) fl' /\ grown new d.(mem) 0 fl m (PGROUNDUP sz) fl' /\
      (forall va, 0 <= va < PGROUNDUP sz -> vread m new va = vread m old va) /\
      forall p, pool m new (below (PGROUNDUP sz)) fl' p <-> pool d.(mem) new (below 0) fl p) \/
     (r = -1 /\ copying old new own m 0 fl' /\ Z.of_nat (length fl) < 3 * (PGROUNDUP sz / PGSIZE) /\
      forall p, pool m new (below 0) fl' p <-> pool d.(mem) new (below 0) fl p)).
Proof. intros Hk Hf. by apply ev_uvmcopy. Qed.
End theorems.

(** ** Instances *)

Section witnesses.
#[local] Existing Instance demo_image.
#[local] Existing Instance demo_image_ok.

Definition demo_root : Z := 0x86000000.
Definition demo_root2 : Z := 0x86001000.
Definition demo_d : kdata := demo_data (demo_pages 8).

Lemma demo_d_inv : kmem_inv demo_d (demo_pages 8).
Proof. apply demo_data_inv; [apply demo_pages_ok; lia|apply demo_pages_nodup]. Qed.

Lemma demo_low_zero x : x < 0x87000000 -> demo_d.(mem) x = 0.
Proof.
  intros Hx. apply demo_data_zero. intros p Hp. unfold demo_pages, page_seq in Hp.
  apply list_elem_of_fmap in Hp as (i & -> & _). unfold PGSIZE. lia.
Qed.

Lemma demo_not_free p : p < 0x87000000 -> p ∉ demo_pages 8.
Proof.
  intros Hp Hin. unfold demo_pages, page_seq in Hin.
  apply list_elem_of_fmap in Hin as (i & -> & _). unfold PGSIZE in *. lia.
Qed.

Lemma demo_root_zero i : 0 <= i < PGSIZE -> demo_d.(mem) (demo_root + i) = 0.
Proof. intros. apply demo_low_zero. unfold demo_root, PGSIZE in *. lia. Qed.

Lemma demo_root_ok : page_ok demo_root.
Proof. by split. Qed.

Lemma demo_uspace : uspace demo_d.(mem) demo_root 0 (demo_pages 8).
Proof.
  apply uspace_zero; [apply demo_root_zero|apply demo_root_ok|by apply demo_not_free].
Qed.

Lemma kalloc_correct_witness :
  exists r d', evals lockst0 [] demo_d kalloc r [] d' /\ r = 0x87000000.
Proof.
  destruct (kalloc_correct lockst0 [] demo_d (demo_pages 8)) as (r & d' & Hev & Hr & _);
    [apply not_elem_of_nil|apply demo_lfree|apply demo_d_inv|].
  exists r, d'. split; [exact Hev|exact Hr].
Defined.

Lemma kfree_correct_witness :
  exists d', evals lockst0 [] demo_d (kfree demo_root) tt [] d' /\
    kmem_inv d' (demo_root :: demo_pages 8).
Proof.
  destruct (kfree_correct lockst0 [] demo_root demo_d (demo_pages 8)) as [H _];
    [apply not_elem_of_nil|apply demo_lfree|apply demo_d_inv|by apply demo_not_free|].
  destruct (H demo_root_ok) as (d' & ? & ? & _). by exists d'.
Defined.

(** One page of a process, obtained by running [uvmalloc]. *)
Definition ret_val {A} (r : res A) : option A := match r with Ret a _ => Some a | _ => None end.

Lemma demo_grow_value :
  ret_val (uvmalloc demo_root 0 PGSIZE PTE_W (Kstate demo_d lockst0)) = Some PGSIZE.
Proof. vm_compute. reflexivity. Qed.

Lemma demo_grown : exists m f fl, let d := with_mem demo_d m f in
  kmem_inv d fl /\ uspace m demo_root PGSIZE fl /\
  forall va, 0 <= va < PGSIZE -> vread m demo_root va = Some 0.
Proof.
  destruct (ev_uvmalloc lockst0 [] (not_elem_of_nil _) (demo_lfree _) demo_root 0 PGSIZE PTE_W
    demo_d (demo_pages 8)) as (r & m & f & fl & Hev & Hi & _ & _ & Hr);
    [apply demo_uspace|apply demo_d_inv|done..| |].
  { intros va _. apply vlookup_zero, demo_root_zero. }
  exists m, f, fl. split; [done|].
  destruct (Hev (Kstate demo_d lockst0)) as (s' & E & _); [apply lstate_refl, demo_ready|done|].
  pose proof demo_grow_value as Hv. rewrite E in Hv. injection Hv as ->. clear E.
  destruct Hr as [(_ & Hu & Hz & _)|[? _]]; [|done]. split; [exact Hu|exact Hz].
Qed.

Lemma mappages_correct_witness :
  exists m f fl', let d' := with_mem demo_d m f in
    evals lockst0 [] demo_d (mappages demo_root 0x1000 0x2000 0x86004000 PTE_R) 0 [] d' /\
    pt_map demo_root demo_d.(mem) (demo_pages 8) m fl' 0x1000 2 0x86004000 PTE_R /\ kmem_inv d' fl'.
Proof.
  destruct (mappages_correct lockst0 [] demo_root 0x1000 0x2000 0x86004000 PTE_R demo_d (demo_pages 8))
    as (r & m & f & fl' & k & Hev & Hm & Hi & _ & [[-> Hk]|(_ & _ & _ & Hn)]);
    [apply not_elem_of_nil|apply demo_lfree|done..| |apply demo_d_inv| | |].
  - apply pt_wf_zero; [apply demo_root_zero|apply demo_root_ok|by apply demo_not_free].
  - intros a _ _. apply vlookup_zero, demo_root_zero.
  - change (Z.of_nat k = 2) in Hk. assert (k = 2%nat) as -> by lia. by exists m, f, fl'.
  - done.
Defined.

Lemma copyin_correct_witness :
  exists d r dm', evals lockst0 [] d (copyin demo_root (fun _ => 7) 0 10 20) (r, dm') [] d /\
    (r = 0 -> dm' 3 = 0).
Proof.
  destruct demo_grown as (m & f & fl & Hi & [Hm Hu] & Hz). exists (with_mem demo_d m f).
  destruct (copyin_correct lockst0 [] demo_root (fun _ => 7) 0 10 20 (with_mem demo_d m f)
    (below PGSIZE) fl) as (r & dm' & k & Hev & Hin & _ & Hr); [exact Hu|lia|lia|lia|].
  exists r, dm'. split; [exact Hev|]. intros ->. destruct Hr as [[_ ->]|[? _]]; [|done].
  specialize (Hin 3 ltac:(lia)). change (mem (with_mem demo_d m f)) with m in Hin.
  rewrite Hz in Hin by (unfold PGSIZE; lia). by injection Hin.
Defined.

Lemma copyout_correct_witness :
  exists d r m', evals lockst0 [] d (copyout demo_root 10 (fun _ => 9) 0 20) r [] (d <| mem := m' |>) /\
    (r = 0 -> vread m' demo_root 12 = Some 9).
Proof.
  destruct demo_grown as (m & f & fl & Hi & [Hm Hu] & Hz). exists (with_mem demo_d m f).
  destruct (copyout_correct lockst0 [] demo_root 10 (fun _ => 9) 0 20 (with_mem demo_d m f)
    (below PGSIZE) fl) as (r & m' & k & Hev & _ & _ & Hin & _ & Hr); [exact Hu|lia|lia|lia|].
  exists r, m'. split; [exact Hev|]. intros ->. destruct Hr as [[_ ->]|[? _]]; [|done].
  exact (Hin 2 ltac:(lia)).
Defined.

Lemma uvmalloc_correct_witness :
  exists m f fl', let d' := with_mem demo_d m f in
    evals lockst0 [] demo_d (uvmalloc demo_root 0 PGSIZE PTE_W) PGSIZE [] d' /\ kmem_inv d' fl' /\
    vread m demo_root 5 = Some 0.
Proof.
  destruct (uvmalloc_correct lockst0 [] demo_root 0 PGSIZE PTE_W demo_d (demo_pages 8))
    as (r & m & f & fl' & Hev & Hi & _ & _ & Hr);
    [apply not_elem_of_nil|apply demo_lfree|apply demo_uspace|apply demo_d_inv|done..| |].
  { intros va _. apply vlookup_zero, demo_root_zero. }
  destruct Hr as [(-> & _ & Hz & _)|(_ & _ & Hn & _)]; [|done]. exists m, f, fl'.
  split; [exact Hev|]. split; [exact Hi|]. by apply Hz.
Defined.

Lemma uvmdealloc_correct_witness :
  exists d m f (qs : list Z), evals lockst0 [] d (uvmdealloc demo_root PGSIZE 0) 0 [] (with_mem d m f) /\
    length qs = 1%nat.
Proof.
  destruct demo_grown as (m & f & fl & Hi & Hu & _). exists (with_mem demo_d m f).
  destruct (uvmdealloc_correct lockst0 [] demo_root PGSIZE 0 (with_mem demo_d m f) fl)
    as (m' & f' & qs & Hev & _ & _ & Hl & _);
    [apply not_elem_of_nil|apply demo_lfree|exact Hu|exact Hi|done..|].
  exists m', f', qs. split; [exact Hev|]. change (Z.of_nat (length qs) = 1) in Hl. lia.
Defined.

(** A process with one page of eight free pages, and another empty page table. *)
Lemma demo_parent : exists m f fl, let d := with_mem demo_d m f in
  kmem_inv d fl /\ copying demo_root demo_root2 (below PGSIZE) m 0 fl /\ (5 <= length fl)%nat /\
  (forall va, vlookup m demo_root2 va = None) /\ forall va, 0 <= va < PGSIZE -> vread m demo_root va = Some 0.
Proof.
  destruct (ev_uvmalloc_iter lockst0 [] (not_elem_of_nil _) (demo_lfree _) 0 demo_root 0 0 PGSIZE PTE_W demo_d (demo_pages 8))
    as [(m & f & fl & _ & _ & _ & _ & Hn & _)|(m & f & fl & Hi & Hu & _ & Hn & Hz & _ & Hpl & Hop & _)];
    [apply demo_uspace|apply demo_d_inv|done..|apply vlookup_zero, demo_root_zero|cbn in Hn; lia|].
  assert (~ pool demo_d.(mem) demo_root (below 0) (demo_pages 8) demo_root2) as Hno.
  { intros [Hf|[(π & Hπ & E)|(va & _ & Hva & _)]]; [by apply demo_not_free in Hf| |unfold below in Hva; lia].
    rewrite tbl_zero in E by (done || apply demo_root_zero). destruct π; discriminate E. }
  assert (forall i, 0 <= i < PGSIZE -> m (demo_root2 + i) = 0) as Hzero.
  { intros i Hi0. rewrite Hop by done. apply demo_low_zero. unfold demo_root2, PGSIZE in *. lia. }
  assert (forall p, in_tree m demo_root2 p -> p = demo_root2) as Ht2.
  { intros p (π & Hπ & E). rewrite tbl_zero in E by done. destruct π; [by injection E|discriminate E]. }
  exists m, f, fl. split; [exact Hi|]. split; [split|split; [cbn in Hn; lia|split; [intros va; by apply vlookup_zero|exact Hz]]].
  - apply Hu.
  - apply uspace_zero; [exact Hzero|by split|]. intros Hin. apply Hno, Hpl. by left.
  - intros p Hp [->%Ht2|(va & _ & Hva & _)]; [|unfold below in Hva; lia]. apply Hno, Hpl. by right.
Qed.

Lemma uvmcopy_correct_witness :
  exists d m f fl', evals lockst0 [] d (uvmcopy demo_root demo_root2 PGSIZE) 0 [] (with_mem d m f) /\
    kmem_inv (with_mem d m f) fl' /\ forall va, 0 <= va < PGSIZE -> vread m demo_root2 va = Some 0.
Proof.
  destruct demo_parent as (m0 & f0 & fl & Hi & Hc & Hlen & Hnone & Hz).
  destruct (uvmcopy_correct lockst0 [] demo_root demo_root2 (below PGSIZE) PGSIZE (with_mem demo_d m0 f0) fl)
    as (r & m & f & fl' & Hev & Hi' & Hk & _ & Hr).
  - apply not_elem_of_nil.
  - apply demo_lfree.
  - exact Hc.
  - exact Hi.
  - done.
  - done.
  - intros va _. apply Hnone.
  - destruct Hr as [(-> & _ & _ & Hr & _)|(_ & _ & Hn & _)]; [|change (PGROUNDUP PGSIZE / PGSIZE) with 1 in Hn; lia].
    exists (with_mem demo_d m0 f0), m, f, fl'. split; [exact Hev|]. split; [exact Hi'|]. intros va Hva.
    rewrite Hr by exact Hva. rewrite Hk; [by apply Hz|lia|]. destruct (PGROUNDDOWN_bound va) as [M B]. split; [unfold PGSIZE in *; Z.div_mod_to_equations; lia|exact M].
Defined.

Lemma kinit_spec_witness :
  exists s', kinit kstate0 = Ret tt s' /\
    kmem_inv s'.(dat)
      (reverse (page_seq (PGROUNDUP k_end)
                  (Z.to_nat ((PHYSTOP - PGROUNDUP k_end) / PGSIZE)))).
Proof. apply (kinit_spec lockst0 kdata0); [apply demo_ready|reflexivity]. Defined.
End witnesses.
