(* ===== verification/Sched.v ===== *)
(** * Threads, sleep and wakeup (kernel/proc.c, kernel/kthread.c)

    The part of proc.c that every other component calls: the current thread and
    process, context switches, [sleep] and [wakeup], [kill], and the copies to
    and from a user or kernel address.

    [swtch] saves the registers of the caller in a [struct context] and loads
    another.  In the model the saved context is the rest of the function, carried
    by the outcome [Swtch]; [kt_context] holds what the C code itself stores in
    the struct (the entry point and stack of a new thread). *)
From S2P Require Export UserMem.

(** The kernel's waiting loops ([while(cond) sleep(...)]) have no bound: each
    function that contains one takes the number of rounds it may go through
    before the model gives up with [Diverge]. *)
Class WaitFuel := wait_fuel : nat.

(** [swtch] of swtch.S, seen from the caller. *)
Definition swtch : M unit := fun s => Swtch s (fun s' => Ret tt s').

(** ** The current thread *)

Definition mykthread : M (option kptr) :=
  push_off;;
  c ← mycpu;
  kthread ← getl (fun l => (l.(cpus) c).(c_kthread));
  pop_off;;
  mret kthread.

Definition myproc : M (option nat) :=
  push_off;;
  c ← mycpu;
  kthread ← getl (fun l => (l.(cpus) c).(c_kthread));
  p ← match kthread with
      | Some kt => getd (fun d => (the_kt d kt).(kt_process))
      | None => mret None
      end;
  pop_off;;
  mret p.

(** Fields of the thread table. *)
Definition t_get {A} (kt : kptr) (f : kthread -> A) : M A := getd (fun d => f (the_kt d kt)).
Definition t_set (kt : kptr) (f : kthread -> kthread) : M unit := modd (upd_kt kt f).
Definition p_get {A} (p : nat) (f : proc -> A) : M A := getd (fun d => f (d.(procs) p)).
Definition p_set (p : nat) (f : proc -> proc) : M unit := modd (upd_proc p f).

(** ** Context switches *)

Definition sched : M unit :=
  t ← mykthread;
  t ← deref t;
  h ← holding (t_lock t);
  if negb (ctrue h) then panic "sched p->lock" else
  c ← mycpu;
  noff ← getl (fun l => (l.(cpus) c).(c_noff));
  if negb (noff =? 1) then panic "sched locks" else
  state ← t_get t kt_state;
  if bool_decide (state = RUNNING_t) then panic "sched running" else
  i ← intr_get;
  if ctrue i then panic "sched interruptible" else
  c ← mycpu;
  intena ← getl (fun l => (l.(cpus) c).(c_intena));
  swtch;;
  c ← mycpu;
  modl (upd_cpu c (fun x => x <| c_intena := intena |>)).

Definition yield : M unit :=
  p ← myproc;
  p ← deref p;
  acquire (t_lock (p, 0%nat));;
  t_set (p, 0%nat) (fun t => t <| kt_state := RUNNABLE_t |>);;
  sched;;
  release (t_lock (p, 0%nat)).

Definition sleep (ch : chan) (lk : lockptr) : M unit :=
  kt ← mykthread;
  kt ← deref kt;
  acquire (t_lock kt);;
  release lk;;
  t_set kt (fun t => t <| kt_chan := Some ch |>);;
  t_set kt (fun t => t <| kt_state := SLEEPING_t |>);;
  sched;;
  t_set kt (fun t => t <| kt_chan := None |>);;
  release (t_lock kt);;
  acquire lk.

Definition wakeup (ch : option chan) : M unit :=
  forM all_procs (fun p =>
    forM all_kts (fun k =>
      let kt := (p, k) in
      me ← mykthread;
      when (negb (bool_decide (Some kt = me)))
        (acquire (t_lock kt);;
         state ← t_get kt kt_state;
         c ← t_get kt kt_chan;
         when (bool_decide (state = SLEEPING_t) && bool_decide (c = ch))
           (t_set kt (fun t => t <| kt_state := RUNNABLE_t |>));;
         release (t_lock kt)))).

(** The per-cpu scheduler: the two loops over the table, and [fuel] rounds of the
    infinite loop around them. *)
Definition scheduler_thread (c : nat) (kt : kptr) : M unit :=
  acquire (t_lock kt);;
  state ← t_get kt kt_state;
  when (bool_decide (state = RUNNABLE_t))
    (t_set kt (fun t => t <| kt_state := RUNNING_t |>);;
     modl (upd_cpu c (fun x => x <| c_kthread := Some kt |>));;
     swtch;;
     modl (upd_cpu c (fun x => x <| c_kthread := None |>)));;
  release (t_lock kt).

Definition scheduler_round (c : nat) : M unit :=
  intr_on;;
  forM all_procs (fun p =>
    state ← p_get p p_state;
    when (bool_decide (state = USED))
      (forM all_kts (fun k => scheduler_thread c (p, k)))).

Fixpoint scheduler_loop (fuel : nat) (c : nat) : M unit :=
  match fuel with
  | O => diverge
  | S fuel => scheduler_round c;; scheduler_loop fuel c
  end.

Definition scheduler (fuel : nat) : M unit :=
  c ← mycpu;
  modl (upd_cpu c (fun x => x <| c_kthread := None |>));;
  scheduler_loop fuel c.

(** ** kill *)

Definition kill (pid : Z) : M Z :=
  r ← scanM all_procs (fun p =>
    acquire (p_lock p);;
    pid' ← p_get p p_pid;
    if pid' =? pid then
      p_set p (fun x => x <| p_killed := 1 |>);;
      forM all_kts (fun k =>
        acquire (t_lock (p, k));;
        state ← t_get (p, k) kt_state;
        when (bool_decide (state = SLEEPING_t))
          (t_set (p, k) (fun t => t <| kt_state := RUNNABLE_t |>));;
        release (t_lock (p, k)));;
      release (p_lock p);;
      mret (Some 0)
    else
      release (p_lock p);;
      mret None);
  mret (default (-1) r).

Definition setkilled (p : nat) : M unit :=
  acquire (p_lock p);;
  p_set p (fun x => x <| p_killed := 1 |>);;
  release (p_lock p).

Definition killed (p : nat) : M Z :=
  acquire (p_lock p);;
  k ← p_get p p_killed;
  release (p_lock p);;
  mret k.

(** ** Copies to and from a user or kernel address

    A [uint64] argument together with its flag: a user virtual address, a
    physical address (loadseg reads into page frames), or a kernel object such as
    a local struct, in which case the object's bytes are passed along. *)

Inductive cptr := uva (a : Z) | kva (a : Z) | kobj (a : Z).

Definition cptr_add (p : cptr) (n : Z) : cptr :=
  match p with uva a => uva (u64 (a + n)) | kva a => kva (a + n) | kobj a => kobj (a + n) end.

Section copies.
Context `{KI : KernelImage}.

(** Returns the code and the destination object [dm], filled if [dst] is in it. *)
Definition either_copyout (dst : cptr) (dm : bytes) (sm : bytes) (src len : Z)
    : M (Z * bytes) :=
  p ← myproc;
  match dst with
  | uva a =>
      p ← deref p;
      pt ← p_get p p_pagetable;
      r ← copyout pt a sm src len;
      mret (r, dm)
  | kva a => kmemmove_from a sm src len;; mret (0, dm)
  | kobj a => mret (0, memmove_across dm a sm src len)
  end.

(** Reads from the source object [sm] if [src] is in it. *)
Definition either_copyin (dm : bytes) (dst : Z) (src : cptr) (sm : bytes) (len : Z)
    : M (Z * bytes) :=
  p ← myproc;
  match src with
  | uva a =>
      p ← deref p;
      pt ← p_get p p_pagetable;
      copyin pt dm dst a len
  | kva a => m ← getd mem; mret (0, memmove_across dm dst m a len)
  | kobj a => mret (0, memmove_across dm dst sm a len)
  end.
End copies.

(** ** Bulk updates of the thread table

    [kts_map g d d']: [d'] is [d] in which each thread [kt] has been updated by
    [g kt] and nothing else has changed. *)

Record kts_map (g : kptr -> kthread -> kthread) (d d' : kdata) : Prop := {
  km_kt : forall kt, the_kt d' kt = g kt (the_kt d kt);
  km_proc : forall p, exists f, d'.(procs) p = d.(procs) p <| p_kthread := f |>;
  km_rest : d' = d <| procs := d'.(procs) |>;
}.

Lemma kts_map_refl g d : (forall kt, g kt (the_kt d kt) = the_kt d kt) -> kts_map g d d.
Proof.
  intros Hg. split; [by intros; rewrite Hg| |by destruct d].
  intros p. exists (p_kthread (procs d p)). by destruct (procs d p).
Qed.

Lemma kts_map_trans g1 g2 g d1 d2 d3 :
  kts_map g1 d1 d2 -> kts_map g2 d2 d3 ->
  (forall kt, g kt (the_kt d1 kt) = g2 kt (g1 kt (the_kt d1 kt))) -> kts_map g d1 d3.
Proof.
  intros [K1 P1 R1] [K2 P2 R2] Hg. split.
  - intros kt. by rewrite K2, K1, Hg.
  - intros p. destruct (P1 p) as [f1 E1], (P2 p) as [f2 E2]. exists f2. by rewrite E2, E1.
  - rewrite R2, R1. by destruct d1.
Qed.

Lemma kts_map_ext g g' d d' :
  kts_map g d d' -> (forall kt, g' kt (the_kt d kt) = g kt (the_kt d kt)) -> kts_map g' d d'.
Proof. intros [] Hg. split; try done. intros kt. by rewrite Hg. Qed.

Lemma the_kt_upd kt kt' f d :
  the_kt (upd_kt kt f d) kt' = if decide (kt = kt') then f (the_kt d kt) else the_kt d kt'.
Proof.
  destruct kt as [p k], kt' as [p' k']. unfold the_kt, upd_kt, upd_proc. cbn.
  rewrite fn_alter_case. destruct (decide (p = p')) as [->|].
  - cbn. rewrite fn_alter_case. repeat case_dec; congruence.
  - by rewrite decide_False by congruence.
Qed.

Lemma kts_map_upd kt f d :
  kts_map (fun kt' t => if decide (kt = kt') then f t else t) d (upd_kt kt f d).
Proof.
  split.
  - intros kt'. rewrite the_kt_upd. case_dec; congruence.
  - intros p. unfold upd_kt, upd_proc. cbn. rewrite fn_alter_case. case_dec; [subst|].
    + by eexists.
    + exists (p_kthread (procs d p)). by destruct (procs d p).
  - by destruct d.
Qed.

(** A sequence of updates of one thread. *)
Definition kt_map1 (kt : kptr) (f : kthread -> kthread) : kdata -> kdata -> Prop :=
  kts_map (fun kt' t => if decide (kt = kt') then f t else t).

Lemma kt_map1_upd kt f d : kt_map1 kt f d (upd_kt kt f d).
Proof. apply kts_map_upd. Qed.

Lemma kt_map1_ext kt f f' d d' :
  kt_map1 kt f d d' -> (forall t, f' t = f t) -> kt_map1 kt f' d d'.
Proof. intros H Hf. eapply kts_map_ext; [exact H|]. intros kt'. cbn. by rewrite Hf. Qed.

Lemma kt_map1_trans kt f g d d' :
  kt_map1 kt f d d' -> kt_map1 kt (fun t => g (f t)) d (upd_kt kt g d').
Proof.
  intros H. eapply kts_map_trans; [exact H|apply kts_map_upd|]. intros kt'. cbn. by case_dec.
Qed.

(** A loop over the threads [ks] of a process, or over a list of threads. *)
Lemma kts_map_fold (step : kptr -> kdata -> kdata) (g : kptr -> kthread -> kthread) l d :
  NoDup l ->
  (forall kt d, kt ∈ l -> kts_map (fun kt' t => if decide (kt = kt') then g kt t else t) d (step kt d)) ->
  kts_map (fun kt t => if decide (kt ∈ l) then g kt t else t) d
    (foldl (fun d kt => step kt d) d l).
Proof.
  revert d. induction l as [|kt l IH]; intros d Hnd Hs; cbn [foldl].
  - apply kts_map_refl. intros kt. by rewrite decide_False by apply not_elem_of_nil.
  - apply NoDup_cons in Hnd as [Hn Hnd].
    eapply kts_map_trans; [apply Hs; by left|apply IH; [done|]; intros; apply Hs; by right|].
    intros kt'. cbn. destruct (decide (kt = kt')) as [<-|Hne].
    + by rewrite (decide_False (P := kt ∈ l)), decide_True by (done || by left).
    + destruct (decide (kt' ∈ l)); [rewrite decide_True by (by right)|rewrite decide_False]; [done|done|].
      rewrite elem_of_cons. intros [?|?]; congruence.
Qed.

(** The threads of the table, in the order the kernel scans them. *)
Definition all_threads : list kptr := all_procs ≫= fun p => pair p <$> all_kts.
Definition valid_kt (kt : kptr) : Prop := (kt.1 < NPROC)%nat /\ (kt.2 < NKT)%nat.
#[export] Instance valid_kt_dec kt : Decision (valid_kt kt) := _.

Lemma elem_of_all_threads kt : kt ∈ all_threads <-> valid_kt kt.
Proof.
  unfold all_threads, valid_kt, all_procs, all_kts. rewrite list_elem_of_bind.
  setoid_rewrite list_elem_of_fmap. setoid_rewrite elem_of_seq. destruct kt as [p k]. cbn. split.
  - intros (p' & (k' & [= -> ->] & ?) & ?). lia.
  - intros [??]. exists p. split; [exists k; split; [done|lia]|lia].
Qed.

Lemma NoDup_all_threads : NoDup all_threads.
Proof. by apply (bool_decide_unpack _); vm_compute. Qed.

Lemma foldl_threads (step : kptr -> kdata -> kdata) d ps ks :
  foldl (fun d p => foldl (fun d k => step (p, k) d) d ks) d ps =
  foldl (fun d kt => step kt d) d (ps ≫= fun p => pair p <$> ks).
Proof.
  revert d. induction ps as [|p ps IH]; intros d; [done|]. cbn. rewrite IH, foldl_app.
  f_equal. clear. revert d. induction ks; intros d; cbn; auto.
Qed.

(** ** Evaluation of the current thread and process *)

Section eval.
Context (l0 : lockst) (L : list lockptr).

(** The thread that runs on this hart. *)
Definition running : option kptr := (cur_cpu l0).(c_kthread).

Lemma ev_mykthread d : evals l0 L d mykthread running L d.
Proof.
  intros [d' l] Hl [= <-]. cbn in Hl. destruct (push_off_ok d' l) as (l1 & E1 & P1).
  destruct (pop_off_ok d' l1) as (l2 & E2 & P2).
  { rewrite (pu_sst _ _ P1). apply sie_clear. }
  { rewrite (pu_noff _ _ P1). pose proof (lstate_noff_pos _ _ _ Hl). cbn in *. lia. }
  exists (Kstate d' l2). unfold mykthread, mycpu, cpuid. mcbn. cbn in E1. rewrite E1. cbn.
  rewrite E2. cbn. split; [|split; [by eapply push_pop_lstate|done]].
  f_equal. change (c_kthread (cur_cpu l1) = running).
  by rewrite (pu_kthread _ _ P1), (ls_kthread _ _ _ Hl).
Qed.

Lemma ev_myproc d p kt :
  running = Some kt -> (the_kt d kt).(kt_process) = Some p ->
  evals l0 L d myproc (Some p) L d.
Proof.
  intros Hr Hp [d' l] Hl [= <-]. cbn in Hl. destruct (push_off_ok d' l) as (l1 & E1 & P1).
  destruct (pop_off_ok d' l1) as (l2 & E2 & P2).
  { rewrite (pu_sst _ _ P1). apply sie_clear. }
  { rewrite (pu_noff _ _ P1). pose proof (lstate_noff_pos _ _ _ Hl). cbn in *. lia. }
  exists (Kstate d' l2). unfold myproc, mycpu, cpuid. mcbn. cbn in E1. rewrite E1. cbn.
  assert (c_kthread (cpus l1 (hartid l1)) = Some kt) as ->.
  { rewrite <- Hr. change (c_kthread (cur_cpu l1) = running).
    by rewrite (pu_kthread _ _ P1), (ls_kthread _ _ _ Hl). }
  mcbn. rewrite E2. cbn. rewrite Hp. split; [done|split; [by eapply push_pop_lstate|done]].
Qed.

Lemma ev_t_get {A} kt (f : kthread -> A) d : evals l0 L d (t_get kt f) (f (the_kt d kt)) L d.
Proof. apply ev_getd. Qed.
Lemma ev_t_set kt f d : evals l0 L d (t_set kt f) tt L (upd_kt kt f d).
Proof. apply ev_modd. Qed.
Lemma ev_p_get {A} p (f : proc -> A) d : evals l0 L d (p_get p f) (f (d.(procs) p)) L d.
Proof. apply ev_getd. Qed.
Lemma ev_p_set p f d : evals l0 L d (p_set p f) tt L (upd_proc p f d).
Proof. apply ev_modd. Qed.
End eval.

(** Symbolic evaluation with the accessors of the tables. *)
Ltac tev1 :=
  cbn beta iota;
  lazymatch goal with
  | |- evals _ _ _ (t_get _ _) _ _ _ => apply ev_t_get
  | |- evals _ _ _ (t_set _ _) _ _ _ => apply ev_t_set
  | |- evals _ _ _ (p_get _ _) _ _ _ => apply ev_p_get
  | |- evals _ _ _ (p_set _ _) _ _ _ => apply ev_p_set
  | |- evals _ _ _ mykthread _ _ _ => apply ev_mykthread
  | |- _ => ev1
  end.
Ltac tev := repeat tev1.

(** ** wakeup *)

Definition wake_d (me : option kptr) (ch : option chan) (kt : kptr) (d : kdata) : kdata :=
  if bool_decide (Some kt = me) then d
  else if bool_decide ((the_kt d kt).(kt_state) = SLEEPING_t) && bool_decide ((the_kt d kt).(kt_chan) = ch)
  then upd_kt kt (fun t => t <| kt_state := RUNNABLE_t |>) d else d.

(** What [wakeup ch] does to a thread. *)
Definition woken (me : option kptr) (ch : option chan) (kt : kptr) (t : kthread) : kthread :=
  if decide (valid_kt kt /\ Some kt <> me /\ t.(kt_state) = SLEEPING_t /\ t.(kt_chan) = ch)
  then t <| kt_state := RUNNABLE_t |> else t.

(** The body of the loop of [wakeup]. *)
Definition wake_one (ch : option chan) (kt : kptr) : M unit :=
  me ← mykthread;
  when (negb (bool_decide (Some kt = me)))
    (acquire (t_lock kt);;
     state ← t_get kt kt_state;
     c ← t_get kt kt_chan;
     when (bool_decide (state = SLEEPING_t) && bool_decide (c = ch))
       (t_set kt (fun t => t <| kt_state := RUNNABLE_t |>));;
     release (t_lock kt)).

Lemma ev_wake_one l0 L d ch kt :
  (Some kt <> running l0 -> (t_lock kt ∉ L) /\ lfree l0 (t_lock kt)) ->
  evals l0 L d (wake_one ch kt) tt L (wake_d (running l0) ch kt d).
Proof.
  intros Hlk. unfold wake_one. eapply evals_eq.
  { tev1. { tev1. } cbn beta. apply ev_when with (d' := wake_d (running l0) ch kt d).
    - intros Hne%negb_true_iff. apply bool_decide_eq_false in Hne. destruct (Hlk Hne) as [Hl Hf].
      unfold wake_d. rewrite bool_decide_eq_false_2 by done. tev.
      apply ev_when; intros E; rewrite E; [tev1|done].
    - intros Hn%negb_false_iff. unfold wake_d. by rewrite Hn. }
  all: done.
Qed.

Lemma ev_wakeup l0 L d ch :
  (forall kt, valid_kt kt -> Some kt <> running l0 -> (t_lock kt ∉ L) /\ lfree l0 (t_lock kt)) ->
  exists d', evals l0 L d (wakeup ch) tt L d' /\ kts_map (woken (running l0) ch) d d'.
Proof.
  intros Hlk. exists (foldl (fun d kt => wake_d (running l0) ch kt d) d all_threads). split.
  - unfold all_threads. rewrite <- foldl_threads. unfold wakeup.
    apply ev_forM. intros p d1 Hp. apply ev_forM. intros k d2 Hk. apply ev_wake_one. apply Hlk.
    apply elem_of_all_threads. unfold all_threads. apply list_elem_of_bind. exists p. split; [|done]. apply list_elem_of_fmap. eauto.
  - eapply kts_map_ext.
    + apply (kts_map_fold (wake_d (running l0) ch) (woken (running l0) ch));
        [apply NoDup_all_threads|].
      intros kt d1 Hv%elem_of_all_threads. unfold wake_d.
      repeat case_goal; repeat b2p.
      * apply kts_map_refl. intros kt'. case_dec; [subst|done]. unfold woken.
        rewrite decide_False; [done|]. intros (_ & ? & _). done.
      * eapply kts_map_ext; [apply kts_map_upd|]. intros kt'. cbn. case_dec; [subst|done].
        unfold woken. by rewrite decide_True.
      * apply kts_map_refl. intros kt'. case_dec; [subst|done]. unfold woken.
        rewrite decide_False; [done|]. intros (_ & _ & E1 & E2). b2p.
        by rewrite !bool_decide_eq_true_2 in *.
    + intros kt. cbn. unfold woken. repeat case_dec; try done.
      exfalso. apply n. apply elem_of_all_threads. by destruct a.
Qed.

(** ** sched and sleep *)

(** The interrupt state that a switch must find on the hart that resumes the
    thread: the scheduler's, with no lock but the thread's own. *)
Definition resumable (l0 l1 : lockst) : Prop :=
  (cur_cpu l1).(c_noff) = 0 /\ sie (cur_sstatus l1) = sie (cur_sstatus l0).

Lemma ev_sched l0 kt d :
  running l0 = Some kt -> (cur_cpu l0).(c_noff) = 0 -> (the_kt d kt).(kt_state) <> RUNNING_t ->
  evals_swtch l0 [t_lock kt] d sched [t_lock kt] d
    (fun k => forall l1 d2, resumable l0 l1 ->
       evals l1 [t_lock kt] d2 k tt [t_lock kt] d2).
Proof.
  intros Hr Hn Hs. unfold sched.
  eapply ev_bind_swtch; [apply ev_mykthread|]. cbn beta. rewrite Hr.
  eapply ev_bind_swtch; [apply ev_deref|]. cbn beta.
  eapply ev_bind_swtch; [apply ev_holding; by left|]. cbn beta iota.
  intros [d' l] Hl [= <-]. cbn in Hl. unfold mycpu, cpuid, t_get. mcbn.
  change (cpus l (hartid l)) with (cur_cpu l).
  pose proof (ls_noff _ _ _ Hl) as En. rewrite Hn in En.
  change (c_noff (cur_cpu l) = 1) in En. rewrite En. cbn.
  rewrite bool_decide_eq_false_2 by done. mcbn.
  unfold intr_get, r_sstatus. mcbn. change (sstatus l (hartid l)) with (cur_sstatus l).
  rewrite (lstate_off _ _ _ Hl) by lia. cbn.
  do 2 eexists. split; [done|]. split; [exact Hl|]. split; [done|].
  intros l1 d2 [Hn1 Hs1] [d3 l3] Hl3 [= <-]. cbn in Hl3. cbn.
  eexists. split; [done|]. split; [|done]. cbn.
  pose proof (ls_intena _ _ _ Hl) as Hi. rewrite En, Hn in Hi. cbn in Hi.
  change (cpus l (hartid l)) with (cur_cpu l). rewrite Hi by lia.
  assert (forall h, h <> hartid l1 ->
    alter (fun x => x <| c_intena := sie (cur_sstatus l0) |>) (hartid l3) (cpus l3) h = cpus l3 h) as Ho.
  { intros h Hh. rewrite fn_lookup_alter_ne; [done|]. rewrite (ls_hart _ _ _ Hl3). congruence. }
  destruct Hl3. split; try done; unfold cur_cpu in *; cbn in *.
  - intros h Hh. rewrite Ho by done. auto.
  - by rewrite fn_lookup_alter.
  - by rewrite fn_lookup_alter.
  - by rewrite fn_lookup_alter.
  - intros _. rewrite fn_lookup_alter. cbn. rewrite Hn1, Hs1. done.
Qed.

(** The data at the switch inside [sleep]. *)
Definition asleep_d (kt : kptr) (ch : chan) (d : kdata) : kdata :=
  upd_kt kt (fun t => t <| kt_state := SLEEPING_t |>)
    (upd_kt kt (fun t => t <| kt_chan := Some ch |>) d).

Lemma the_kt_asleep kt ch d :
  the_kt (asleep_d kt ch d) kt = the_kt d kt <| kt_chan := Some ch |> <| kt_state := SLEEPING_t |>.
Proof. unfold asleep_d. by rewrite !the_kt_upd, !decide_True. Qed.

(** A thread that sleeps with only [lk] held gives up the cpu marked SLEEPING on
    [ch], with [lk] released and its own lock held; once resumed it holds [lk]
    again and sleeps on nothing. *)
Lemma ev_sleep l0 kt ch lk d :
  running l0 = Some kt -> (cur_cpu l0).(c_noff) = 0 ->
  lk <> t_lock kt -> lfree l0 (t_lock kt) ->
  evals_swtch l0 [lk] d (sleep ch lk) [t_lock kt] (asleep_d kt ch d)
    (fun k => forall l1 d2, resumable l0 l1 -> lfree l1 lk ->
       evals l1 [t_lock kt] d2 k tt [lk] (upd_kt kt (fun t => t <| kt_chan := None |>) d2)).
Proof.
  intros Hr Hn Hne Hf. unfold sleep.
  eapply ev_bind_swtch; [apply ev_mykthread|]. cbn beta. rewrite Hr.
  eapply ev_bind_swtch; [apply ev_deref|]. cbn beta.
  eapply ev_bind_swtch; [apply ev_acquire; [notin|done]|].
  eapply ev_bind_swtch; [apply (ev_release l0 lk _ [t_lock kt]); constructor|].
  eapply ev_bind_swtch; [apply ev_t_set|]. eapply ev_bind_swtch; [apply ev_t_set|].
  apply ev_swtch_bind. fold (asleep_d kt ch d).
  intros s Hl Hd. edestruct (ev_sched l0 kt (asleep_d kt ch d)) as (s' & k & E & Hl' & Hd' & Hk);
    [done|done| |exact Hl|exact Hd|].
  { by rewrite the_kt_asleep. }
  exists s', k. split; [exact E|]. split; [done|]. split; [done|].
  intros l1 d2 Hres Hlk. change (evals l1 [t_lock kt] d2 (@mbind M _ _ _ (fun _ =>
    t_set kt (fun t => t <| kt_chan := None |>);; release (t_lock kt);; acquire lk) k) tt [lk]
    (upd_kt kt (fun t => t <| kt_chan := None |>) d2)).
  eapply ev_bind; [by apply Hk|]. tev.
Qed.

(** While another hart holds the lock of the thread, [sleep] waits for it and still holds
    [lk]. *)
Lemma ev_sleep_waits l0 kt ch lk d :
  running l0 = Some kt -> lk <> t_lock kt -> ltaken l0 (t_lock kt) ->
  evals_spin l0 [lk] d (sleep ch lk) (t_lock kt) [lk] d.
Proof.
  intros Hr Hne Ht. unfold sleep.
  eapply ev_bind_spin; [apply ev_mykthread|]. cbn beta. rewrite Hr.
  eapply ev_bind_spin; [apply ev_deref|]. cbn beta.
  apply ev_spin_bind, ev_acquire_taken; [notin|done].
Qed.

(** While another hart holds the lock of a thread, [wakeup] does not pass it. *)
Lemma ev_wakeup_waits l0 L d ch kt :
  valid_kt kt -> Some kt <> running l0 -> t_lock kt ∉ L -> ltaken l0 (t_lock kt) ->
  (forall kt', valid_kt kt' -> kt' <> kt -> Some kt' <> running l0 -> (t_lock kt' ∉ L) /\ lfree l0 (t_lock kt')) ->
  exists d', the_kt d' kt = the_kt d kt /\ evals_spin l0 L d (wakeup ch) (t_lock kt) L d'.
Proof.
  intros Hv Hne Hl Ht Hfree. destruct kt as [p k]. destruct Hv as [Hp Hk]. cbn in Hp, Hk.
  assert (forall n i, (i < n)%nat -> exists l2, seq 0 n = seq 0 i ++ i :: l2) as Hseq.
  { intros n i Hi. exists (seq (S i) (n - S i)). rewrite <- (Nat.add_0_l i) at 2. change (0 + i :: seq (S i) (n - S i))%nat with (seq (0 + i) (S (n - S i))).
    rewrite <- seq_app. f_equal. lia. }
  assert (forall kt' d', valid_kt kt' -> kt' <> (p, k) -> the_kt d' (p, k) = the_kt d (p, k) ->
    exists d2, the_kt d2 (p, k) = the_kt d (p, k) /\ evals l0 L d' (wake_one ch kt') tt L d2) as Hone.
  { intros kt' d' Hv Hn Hd. exists (wake_d (running l0) ch kt' d'). split; [|apply ev_wake_one; intros; by apply Hfree].
    rewrite <- Hd. unfold wake_d. repeat case_goal; try done. by rewrite the_kt_upd, decide_False. }
  unfold wakeup. unfold all_procs at 1. destruct (Hseq NPROC p Hp) as [lp ->].
  apply (ev_forM_spin l0 (fun d' => the_kt d' (p, k) = the_kt d (p, k))); [| |done].
  - intros p' d1 Hp'%elem_of_seq Hd1. apply (ev_forM_inv l0 (fun d' => the_kt d' (p, k) = the_kt d (p, k))); [|done].
    intros k' d2 Hk'%elem_of_seq Hd2. apply Hone; [split; cbn; lia|intros [=]; lia|done].
  - intros d1 Hd1. unfold all_kts. destruct (Hseq NKT k Hk) as [lk ->].
    apply (ev_forM_spin l0 (fun d' => the_kt d' (p, k) = the_kt d (p, k))); [| |done].
    + intros k' d2 Hk'%elem_of_seq Hd2. apply Hone; [split; cbn; lia|intros [=]; lia|done].
    + intros d2 Hd2. exists d2. split; [done|]. eapply ev_bind_spin; [apply ev_mykthread|]. cbn beta.
      rewrite bool_decide_eq_false_2 by done. cbn [negb when]. by apply ev_spin_bind, ev_acquire_taken.
Qed.

(** With another lock held besides [lk], [sleep] panics. *)
Lemma ev_sleep_locks l0 kt ch lk L d :
  running l0 = Some kt -> L <> [] -> lk ∉ L -> t_lock kt ∉ lk :: L -> lfree l0 (t_lock kt) ->
  evals_panic l0 (lk :: L) d (sleep ch lk) "sched locks".
Proof.
  intros Hr HL Hlk Hnt Hf. unfold sleep.
  eapply ev_bind_panic; [apply ev_mykthread|]. cbn beta. rewrite Hr.
  eapply ev_bind_panic; [apply ev_deref|]. cbn beta.
  eapply ev_bind_panic; [by apply ev_acquire|].
  eapply ev_bind_panic; [apply (ev_release l0 lk _ (t_lock kt :: L)); constructor|].
  eapply ev_bind_panic; [apply ev_t_set|]. eapply ev_bind_panic; [apply ev_t_set|].
  apply ev_panic_bind. unfold sched.
  eapply ev_bind_panic; [apply ev_mykthread|]. cbn beta. rewrite Hr.
  eapply ev_bind_panic; [apply ev_deref|]. cbn beta.
  eapply ev_bind_panic; [apply ev_holding; by left|]. cbn beta iota.
  intros [d' l] Hl [= ->]. cbn in Hl. unfold mycpu, cpuid. mcbn.
  change (cpus l (hartid l)) with (cur_cpu l). rewrite (ls_noff _ _ _ Hl).
  pose proof (proj1 (ls_ready _ _ _ Hl)). rewrite (proj2 (Z.eqb_neq _ _)); [done|].
  destruct L; [done|cbn; lia].
Qed.

(** [yield] takes the lock of thread 0 of the process whichever thread runs: a
    thread other than the first panics in [sched]. *)
Lemma ev_yield_other l0 p k d :
  running l0 = Some (p, k) -> k <> 0%nat -> (the_kt d (p, k)).(kt_process) = Some p ->
  lfree l0 (t_lock (p, 0%nat)) -> lfree l0 (t_lock (p, k)) ->
  evals_panic l0 [] d yield "sched p->lock".
Proof.
  intros Hr Hk Hp Hf Hfk. unfold yield.
  eapply ev_bind_panic; [by eapply ev_myproc|]. cbn beta.
  eapply ev_bind_panic; [apply ev_deref|]. cbn beta.
  eapply ev_bind_panic; [apply ev_acquire; [notin|done]|].
  eapply ev_bind_panic; [apply ev_t_set|].
  apply ev_panic_bind. unfold sched.
  eapply ev_bind_panic; [apply ev_mykthread|]. cbn beta. rewrite Hr.
  eapply ev_bind_panic; [apply ev_deref|]. cbn beta.
  eapply ev_bind_panic; [apply ev_holding_not; [notin|done]|]. cbn beta iota. apply ev_panic.
Qed.

(** Thread 0 gives up the cpu RUNNABLE, holding its own lock. *)
Lemma ev_yield_first l0 p d :
  running l0 = Some (p, 0%nat) -> (the_kt d (p, 0%nat)).(kt_process) = Some p ->
  (cur_cpu l0).(c_noff) = 0 -> lfree l0 (t_lock (p, 0%nat)) ->
  evals_swtch l0 [] d yield [t_lock (p, 0%nat)]
    (upd_kt (p, 0%nat) (fun t => t <| kt_state := RUNNABLE_t |>) d)
    (fun k => forall l1 d2, resumable l0 l1 -> evals l1 [t_lock (p, 0%nat)] d2 k tt [] d2).
Proof.
  intros Hr Hp Hn Hf. unfold yield.
  eapply ev_bind_swtch; [by eapply ev_myproc|]. cbn beta.
  eapply ev_bind_swtch; [apply ev_deref|]. cbn beta.
  eapply ev_bind_swtch; [apply ev_acquire; [notin|done]|].
  eapply ev_bind_swtch; [apply ev_t_set|].
  apply ev_swtch_bind.
  intros s Hl Hd. edestruct (ev_sched l0 (p, 0%nat)
    (upd_kt (p, 0%nat) (fun t => t <| kt_state := RUNNABLE_t |>) d)) as (s' & k & E & Hl' & Hd' & Hk);
    [done|done| |exact Hl|exact Hd|].
  { by rewrite the_kt_upd, decide_True. }
  exists s', k. split; [exact E|]. split; [done|]. split; [done|].
  intros l1 d2 Hres. change (evals l1 [t_lock (p, 0%nat)] d2 (@mbind M _ _ _ (fun _ =>
    release (t_lock (p, 0%nat))) k) tt [] d2).
  eapply ev_bind; [by apply Hk|]. tev.
Qed.

(** ** scheduler *)

(** The lock state with [kt] as the thread that runs on this hart. *)
Definition set_running (kt : option kptr) (l : lockst) : lockst :=
  upd_cpu l.(hartid) (fun x => x <| c_kthread := kt |>) l.

Lemma lstate_set_running L l0 l kt :
  lstate L l0 l -> lstate L (set_running kt l0) (set_running kt l).
Proof.
  intros []. assert (hartid l = hartid l0) as Hh by done.
  split; unfold ready, cur_cpu, cur_sstatus, set_running in *; cbn in *; rewrite ?Hh in *;
    rewrite ?fn_lookup_alter; try done.
  intros h Hne. rewrite !fn_lookup_alter_ne by done. auto.
Qed.

(** The scheduler switches to a RUNNABLE thread with the thread's lock held, the
    thread marked RUNNING and recorded in its cpu. *)
Lemma scheduler_thread_runs l0 kt d s :
  lstate [] l0 s.(lks) -> s.(dat) = d -> lfree l0 (t_lock kt) ->
  (the_kt d kt).(kt_state) = RUNNABLE_t ->
  exists s' k, scheduler_thread l0.(hartid) kt s = Swtch s' k /\
    lstate [t_lock kt] (set_running (Some kt) l0) s'.(lks) /\
    s'.(dat) = upd_kt kt (fun t => t <| kt_state := RUNNING_t |>) d.
Proof.
  intros Hl Hd Hf Hs. unfold scheduler_thread.
  destruct (ev_acquire l0 (t_lock kt) [] d) with (s := s) as ([d1 l1] & E1 & Hl1 & Hd1);
    [notin|done..|]. cbn in Hl1, Hd1. subst d1.
  unfold mbind, M_bind. rewrite E1. cbn. rewrite Hs. cbn.
  do 2 eexists. split; [done|]. cbn. split; [|done].
  pose proof (ls_hart _ _ _ Hl1) as Hh. rewrite <- Hh. by apply lstate_set_running.
Qed.

(** It passes over any other thread. *)
Lemma ev_scheduler_skip l0 kt d :
  lfree l0 (t_lock kt) -> (the_kt d kt).(kt_state) <> RUNNABLE_t ->
  evals l0 [] d (scheduler_thread l0.(hartid) kt) tt [] d.
Proof.
  intros Hf Hs. unfold scheduler_thread. tev1. { tev1. } tev1. { tev1. }
  rewrite bool_decide_eq_false_2 by done. cbn [when]. tev.
Qed.

(** ** kill *)

Lemma first_match {I} (P : I -> Prop) `{forall i, Decision (P i)} (l : list I) :
  (forall i, i ∈ l -> ~ P i) \/
  exists l1 i l2, l = l1 ++ i :: l2 /\ P i /\ forall j, j ∈ l1 -> ~ P j.
Proof.
  induction l as [|i l IH].
  - left. intros i Hi. by apply elem_of_nil in Hi.
  - destruct (decide (P i)) as [Hp|Hp].
    + right. exists [], i, l. split; [done|]. split; [done|]. intros j Hj. by apply elem_of_nil in Hj.
    + destruct IH as [IH|(l1 & j & l2 & -> & Hj & IH)].
      * left. intros j [->|?]%elem_of_cons; auto.
      * right. exists (i :: l1), j, l2. split; [done|]. split; [done|].
        intros j' [->|?]%elem_of_cons; auto.
Qed.

(** Wake a thread whatever it sleeps on. *)
Definition roused (t : kthread) : kthread :=
  if decide (t.(kt_state) = SLEEPING_t) then t <| kt_state := RUNNABLE_t |> else t.

Definition rouse_d (kt : kptr) (d : kdata) : kdata :=
  if bool_decide ((the_kt d kt).(kt_state) = SLEEPING_t)
  then upd_kt kt (fun t => t <| kt_state := RUNNABLE_t |>) d else d.

Lemma rouse_map kt d :
  kts_map (fun kt' t => if decide (kt = kt') then roused t else t) d (rouse_d kt d).
Proof.
  unfold rouse_d. case_goal; b2p.
  - eapply kts_map_ext; [apply kts_map_upd|]. intros kt'. cbn. case_dec; [subst|done].
    unfold roused. by rewrite decide_True.
  - apply kts_map_refl. intros kt'. case_dec; [subst|done]. unfold roused. by rewrite decide_False.
Qed.

Definition kts_of (p : nat) : list kptr := pair p <$> all_kts.

Lemma NoDup_kts_of p : NoDup (kts_of p).
Proof.
  apply NoDup_fmap; [intros ??; congruence|apply NoDup_seq].
Qed.

Lemma elem_of_kts_of p kt : kt ∈ kts_of p <-> kt.1 = p /\ (kt.2 < NKT)%nat.
Proof.
  unfold kts_of, all_kts. rewrite list_elem_of_fmap. setoid_rewrite elem_of_seq.
  destruct kt as [p' k]. cbn. split.
  - intros (k' & [= -> ->] & ?). lia.
  - intros [-> ?]. exists k. split; [done|lia].
Qed.

Lemma foldl_kts (step : kptr -> kdata -> kdata) d p :
  foldl (fun d k => step (p, k) d) d all_kts = foldl (fun d kt => step kt d) d (kts_of p).
Proof. unfold kts_of. generalize all_kts. intros ks. revert d. induction ks; intros d; cbn; auto. Qed.

Section kill.
Context (l0 : lockst) (L : list lockptr).
Context (Hp : forall p, (p < NPROC)%nat -> (p_lock p ∉ L) /\ lfree l0 (p_lock p)).
Context (Ht : forall kt, valid_kt kt -> (t_lock kt ∉ L) /\ lfree l0 (t_lock kt)).

(** The process killed by [kill pid] is the first with that pid. *)
Lemma ev_kill_found pid d l1 p l2 :
  all_procs = l1 ++ p :: l2 -> (forall q, q ∈ l1 -> (d.(procs) q).(p_pid) <> pid) ->
  (d.(procs) p).(p_pid) = pid ->
  exists d', evals l0 L d (kill pid) 0 L d' /\
    kts_map (fun kt t => if decide (kt ∈ kts_of p) then roused t else t)
      (upd_proc p (fun x => x <| p_killed := 1 |>) d) d'.
Proof.
  intros Hl Hn Hpid. set (d1 := upd_proc p (fun x => x <| p_killed := 1 |>) d).
  exists (foldl (fun d k => rouse_d (p, k) d) d1 all_kts). split.
  - assert (forall q, q ∈ l1 ++ p :: l2 -> (q < NPROC)%nat) as Hlt.
    { rewrite <- Hl. unfold all_procs. intros q Hq. apply elem_of_seq in Hq. lia. }
    unfold kill. rewrite Hl. eapply ev_bind.
    + apply ev_scan_found with (r := 0).
      * intros q Hq. destruct (Hp q); [apply Hlt, elem_of_app; by left|]. tev1. { tev1. }
        tev1. { tev1. } cbn beta. rewrite (proj2 (Z.eqb_neq _ _)) by auto. tev.
      * destruct (Hp p); [apply Hlt, elem_of_app; right; by left|]. tev1. { tev1. }
        tev1. { tev1. } cbn beta. rewrite (proj2 (Z.eqb_eq _ _)) by done. tev1. { tev1. }
        tev1.
        { apply ev_forM. intros k d2 Hk. destruct (Ht (p, k)) as [Hnk Hfk].
          { split; [apply Hlt, elem_of_app; right; by left|].
            unfold all_kts in Hk. apply elem_of_seq in Hk. cbn. lia. }
          tev1. { tev1. } tev1. { tev1. } tev1.
          { apply ev_when with (d' := rouse_d (p, k) d2); unfold rouse_d; intros E; rewrite E; [tev1|done]. }
          tev. }
        tev.
    + apply ev_ret.
  - rewrite foldl_kts. apply (kts_map_fold rouse_d (fun _ => roused)); [apply NoDup_kts_of|].
    intros kt d2 _. apply rouse_map.
Qed.

Lemma ev_kill_none pid d :
  (forall q, (q < NPROC)%nat -> (d.(procs) q).(p_pid) <> pid) ->
  evals l0 L d (kill pid) (-1) L d.
Proof.
  intros Hn. unfold kill. eapply ev_bind; [apply ev_scan_none|apply ev_ret].
  intros q Hq. unfold all_procs in Hq. apply elem_of_seq in Hq. destruct (Hp q); [lia|].
  tev1. { tev1. } tev1. { tev1. } cbn beta. rewrite (proj2 (Z.eqb_neq _ _)) by (apply Hn; lia). tev.
Qed.
End kill.
