(* ===== verification/Kthread.v ===== *)
(** * Kernel threads (kernel/kthread.c)

    Allocation, creation, killing and joining of the threads of a process.  The
    trapframes of a process are an array in the page [p_base_trapframes];
    a [struct trapframe *] is an address, its fields 64-bit words at the offsets
    of kthread.h. *)
From S2P Require Export Sched.

(** Offsets in [struct trapframe]. *)
Definition tf_kernel_satp : Z := 0.
Definition tf_kernel_sp : Z := 8.
Definition tf_kernel_trap : Z := 16.
Definition tf_epc : Z := 24.
Definition tf_kernel_hartid : Z := 32.
Definition tf_sp : Z := 48.
Definition tf_a0 : Z := 112.
Definition tf_a1 : Z := 120.
Definition tf_a2 : Z := 128.
Definition tf_a3 : Z := 136.
Definition tf_a4 : Z := 144.
Definition tf_a5 : Z := 152.
Definition tf_a7 : Z := 168.

Section kthread.
Context `{KI : KernelImage}.

(** Access to a field of the trapframe of a thread; a null trapframe faults. *)
Definition tf_get (kt : kptr) (off : Z) : M Z :=
  tf ← t_get kt kt_trapframe;
  if tf =? 0 then fault else ld (tf + off).
Definition tf_set (kt : kptr) (off v : Z) : M unit :=
  tf ← t_get kt kt_trapframe;
  if tf =? 0 then fault else st (tf + off) v.

Definition kthreadinit (p : nat) : M unit :=
  initlock (alloc_lock p) "aloc_thread";;
  forM all_kts (fun k =>
    initlock (t_lock (p, k)) "thread_lock";;
    t_set (p, k) (fun t => t <| kt_state := UNUSED_t |>);;
    t_set (p, k) (fun t => t <| kt_process := Some p |>);;
    t_set (p, k) (fun t => t <| kt_kstack := KSTACK (Z.of_nat (p * NKT + k)) |>)).

Definition alloctid (p : nat) : M Z :=
  acquire (alloc_lock p);;
  tid ← p_get p p_counter;
  p_set p (fun x => x <| p_counter := s32 (tid + 1) |>);;
  release (alloc_lock p);;
  mret tid.

Definition get_kthread_trapframe (p : nat) (kt : kptr) : M Z :=
  base ← p_get p p_base_trapframes;
  mret (base + Z.of_nat kt.2 * sizeof_trapframe).

Definition allockthread (p : nat) : M (option kptr) :=
  scanM all_kts (fun k =>
    let kt := (p, k) in
    acquire (t_lock kt);;
    state ← t_get kt kt_state;
    if bool_decide (state = UNUSED_t) then
      tid ← alloctid p;
      t_set kt (fun t => t <| kt_tid := tid |>);;
      t_set kt (fun t => t <| kt_state := USED_t |>);;
      t_set kt (fun t => t <| kt_process := Some p |>);;
      tf ← get_kthread_trapframe p kt;
      t_set kt (fun t => t <| kt_trapframe := tf |>);;
      t_set kt (fun t => t <| kt_context := context0 |>);;
      t_set kt (fun t => t <| kt_context ::= fun c => c <| c_ra := k_forkret |> |>);;
      t_set kt (fun t => t <| kt_context ::= fun c => c <| c_sp := t.(kt_kstack) + PGSIZE |> |>);;
      mret (Some kt)
    else
      release (t_lock kt);;
      mret None).

(** [memset(&t->context, 0, sizeof(&t->context))] clears the eight bytes of a
    pointer: the first register of the context. *)
Definition freethread (t : kptr) : M unit :=
  t_set t (fun x => x <| kt_chan := None |>);;
  t_set t (fun x => x <| kt_killed := 0 |>);;
  t_set t (fun x => x <| kt_xstate := 0 |>);;
  t_set t (fun x => x <| kt_state := UNUSED_t |>);;
  t_set t (fun x => x <| kt_tid := 0 |>);;
  t_set t (fun x => x <| kt_process := None |>);;
  t_set t (fun x => x <| kt_trapframe := 0 |>);;
  t_set t (fun x => x <| kt_context ::= fun c => c <| c_ra := 0 |> |>);;
  release (t_lock t).

Definition kthread_create (start_func stack stack_size : Z) : M Z :=
  p ← myproc;
  p ← deref p;
  t ← allockthread p;
  match t with
  | None => mret (-1)
  | Some t =>
      tf_set t tf_epc start_func;;
      tf_set t tf_sp (u64 (stack + stack_size));;
      t_set t (fun x => x <| kt_state := RUNNABLE_t |>);;
      release (t_lock t);;
      t_get t kt_tid
  end.

Definition kthread_kill (ktid : Z) : M Z :=
  p ← myproc;
  p ← deref p;
  r ← scanM all_kts (fun k =>
    let kt := (p, k) in
    acquire (t_lock kt);;
    tid ← t_get kt kt_tid;
    if tid =? ktid then
      t_set kt (fun t => t <| kt_killed := 1 |>);;
      state ← t_get kt kt_state;
      when (bool_decide (state = SLEEPING_t))
        (t_set kt (fun t => t <| kt_state := RUNNABLE_t |>));;
      release (t_lock kt);;
      mret (Some 0)
    else
      release (t_lock kt);;
      mret None);
  mret (default (-1) r).

Definition t_killed (t : kptr) : M Z :=
  acquire (t_lock t);;
  k ← t_get t kt_killed;
  release (t_lock t);;
  mret k.

Definition if_last_thread (kt : kptr) : M Z :=
  p ← myproc;
  p ← deref p;
  r ← scanM all_kts (fun k =>
    let t := (p, k) in
    if bool_decide (t = kt) then mret None else
    acquire (t_lock t);;
    state ← t_get t kt_state;
    if bool_decide (state <> UNUSED_t) && bool_decide (state <> ZOMBIE_t) then
      release (t_lock t);;
      mret (Some 0)
    else
      release (t_lock t);;
      mret None);
  mret (default 1 r).

(** The search loop of [kthread_join]: the last match wins. *)
Fixpoint join_search (ks : list nat) (p : nat) (ktid : Z) (found : option kptr)
    : M (option kptr) :=
  match ks with
  | [] => mret found
  | k :: ks =>
      acquire (t_lock (p, k));;
      tid ← t_get (p, k) kt_tid;
      release (t_lock (p, k));;
      join_search ks p ktid (if tid =? ktid then Some (p, k) else found)
  end.

(** The bytes of an [int] in memory. *)
Definition int_bytes (v : Z) : bytes := store32 (fun _ => 0) 0 (u32 v).

(** The waiting loop; [fuel] bounds the number of times it sleeps. *)
Fixpoint join_loop (fuel : nat) (p : nat) (t : kptr) (status : Z) : M Z :=
  state ← t_get t kt_state;
  if bool_decide (state = ZOMBIE_t) then
    acquire (t_lock t);;
    failed ←
      (if ctrue status then
         q ← t_get t kt_process;
         q ← deref q;
         pt ← p_get q p_pagetable;
         x ← t_get t kt_xstate;
         r ← copyout pt status (int_bytes x) 0 4;
         mret (r <? 0)
       else mret false);
    if failed : bool then
      release (t_lock t);;
      release (p_lock p);;
      mret (-1)
    else
      freethread t;;
      release (p_lock p);;
      mret 0
  else
    sleep (chan_kthread t) (p_lock p);;
    match fuel with
    | O => diverge
    | S fuel => join_loop fuel p t status
    end.

Definition kthread_join `{WF : WaitFuel} (ktid status : Z) : M Z :=
  p ← myproc;
  p ← deref p;
  t ← join_search all_kts p ktid None;
  match t with
  | None => mret (-1)
  | Some t =>
      acquire (p_lock p);;
      join_loop wait_fuel p t status
  end.
End kthread.
