(* ===== verification/KthreadSpec.v ===== *)
(** * Specifications of kernel/kthread.c

    Functional behaviour of the thread operations, the freshness of thread ids,
    and the layout of kernel stacks and trapframes. *)
From S2P Require Export Kthread.

(** ** Memory layout (memlayout.h) *)

(** The kernel stack of thread [k] of process [p]. *)
Definition kstack_of (kt : kptr) : Z := KSTACK (Z.of_nat (kt.1 * NKT + kt.2)).

Lemma kstack_of_inj kt kt' :
  valid_kt kt -> valid_kt kt' -> kt <> kt' ->
  kstack_of kt + 2 * PGSIZE <= kstack_of kt' \/ kstack_of kt' + 2 * PGSIZE <= kstack_of kt.
Proof.
  destruct kt as [p k], kt' as [p' k']. unfold valid_kt, kstack_of, KSTACK, NKT. cbn.
  intros [??] [??] Hne.
  assert (p * 10 + k <> p' * 10 + k')%nat; [|unfold PGSIZE; lia].
  intros E. apply Hne. f_equal; lia.
Qed.

Lemma kstack_of_bound kt :
  valid_kt kt -> PHYSTOP < kstack_of kt /\ kstack_of kt + PGSIZE < TRAMPOLINE /\
    kstack_of kt mod PGSIZE = 0.
Proof.
  destruct kt as [p k]. unfold valid_kt, kstack_of, KSTACK, TRAMPOLINE, MAXVA, NPROC, NKT, PHYSTOP, KERNBASE.
  cbn. intros [??]. unfold PGSIZE. repeat split; try lia.
  apply Z.mod_divide; [done|]. exists (2 ^ 26 - 1 - (Z.of_nat (p * 10 + k) + 1) * 2). lia.
Qed.

(** The trapframes of the threads of a process lie in one page and are disjoint. *)
Lemma trapframes_fit k :
  (k < NKT)%nat -> 0 <= Z.of_nat k * sizeof_trapframe /\
    Z.of_nat k * sizeof_trapframe + sizeof_trapframe <= PGSIZE.
Proof. unfold NKT, sizeof_trapframe, PGSIZE. lia. Qed.

Section spec.
Context `{KI : KernelImage}.

(** ** allockthread *)

(** The thread as [allockthread] leaves it. *)
Definition new_thread (p k : nat) (d : kdata) (t : kthread) : kthread :=
  t <| kt_tid := (d.(procs) p).(p_counter) |> <| kt_state := USED_t |>
    <| kt_process := Some p |>
    <| kt_trapframe := (d.(procs) p).(p_base_trapframes) + Z.of_nat k * sizeof_trapframe |>
    <| kt_context := context0 <| c_ra := k_forkret |> <| c_sp := t.(kt_kstack) + PGSIZE |> |>.

Record alloc_effect (p k : nat) (d d' : kdata) : Prop := {
  ae_kt : forall kt, the_kt d' kt =
    if decide (kt = (p, k)) then new_thread p k d (the_kt d kt) else the_kt d kt;
  ae_proc : forall q, exists f, d'.(procs) q = d.(procs) q
    <| p_kthread := f |>
    <| p_counter := if decide (q = p) then s32 ((d.(procs) p).(p_counter) + 1)
                    else (d.(procs) q).(p_counter) |>;
  ae_rest : d' = d <| procs := d'.(procs) |>;
}.

Lemma alloc_effect_intro p k d d' f :
  let d1 := upd_proc p (fun x => x <| p_counter := s32 ((d.(procs) p).(p_counter) + 1) |>) d in
  kt_map1 (p, k) f d1 d' ->
  f (the_kt d (p, k)) = new_thread p k d (the_kt d (p, k)) -> alloc_effect p k d d'.
Proof.
  intros d1 [K P R] Hf.
  assert (forall kt, the_kt d1 kt = the_kt d kt) as Hd1.
  { intros kt. unfold d1, the_kt, upd_proc. cbn. rewrite fn_alter_case. by case_dec; [subst|]. }
  split.
  - intros kt. rewrite K, Hd1. repeat case_dec; congruence.
  - intros q. destruct (P q) as [g E]. exists g. rewrite E. unfold d1, upd_proc. cbn.
    rewrite fn_alter_case. repeat case_dec; try congruence; [subst|]; by destruct (procs d q).
  - rewrite R. by destruct d.
Qed.

Lemma ev_alloctid l0 L p d :
  alloc_lock p ∉ L -> lfree l0 (alloc_lock p) ->
  evals l0 L d (alloctid p) (d.(procs) p).(p_counter) L
    (upd_proc p (fun x => x <| p_counter := s32 ((d.(procs) p).(p_counter) + 1) |>) d).
Proof. intros. unfold alloctid. tev. Qed.

Section eval.
Context (l0 : lockst) (L : list lockptr).
Context (p : nat) (Ha : alloc_lock p ∉ L) (Hfa : lfree l0 (alloc_lock p)).
Context (Ht : forall k, (k < NKT)%nat -> (t_lock (p, k) ∉ L) /\ lfree l0 (t_lock (p, k))).

Lemma ev_allockthread_found d l1 k l2 :
  all_kts = l1 ++ k :: l2 -> (forall j, j ∈ l1 -> (the_kt d (p, j)).(kt_state) <> UNUSED_t) ->
  (the_kt d (p, k)).(kt_state) = UNUSED_t ->
  exists d', evals l0 L d (allockthread p) (Some (p, k)) (t_lock (p, k) :: L) d' /\
    alloc_effect p k d d'.
Proof.
  intros Hl Hn Hk.
  assert (forall q, q ∈ l1 ++ k :: l2 -> (q < NKT)%nat) as Hlt.
  { rewrite <- Hl. unfold all_kts. intros q Hq. apply elem_of_seq in Hq. lia. }
  eexists. split.
  - unfold allockthread. rewrite Hl. apply ev_scan_found with (r := (p, k)).
    + intros j Hj. destruct (Ht j); [apply Hlt, elem_of_app; by left|]. tev1. { tev1. }
      tev1. { tev1. } cbn beta. rewrite bool_decide_eq_false_2 by auto. tev.
    + destruct (Ht k); [apply Hlt, elem_of_app; right; by left|]. tev1. { tev1. }
      tev1. { tev1. } cbn beta. rewrite bool_decide_eq_true_2 by done.
      eapply ev_bind; [apply ev_alloctid; [notin|done]|]. unfold get_kthread_trapframe. tev.
  - eapply alloc_effect_intro.
    + do 6 (eapply kt_map1_trans). apply kt_map1_upd.
    + unfold new_thread, upd_proc, upd_kt. cbn. by rewrite !fn_lookup_alter.
Qed.

Lemma ev_allockthread_none d :
  (forall k, (k < NKT)%nat -> (the_kt d (p, k)).(kt_state) <> UNUSED_t) ->
  evals l0 L d (allockthread p) None L d.
Proof.
  intros Hn. unfold allockthread. apply ev_scan_none. intros k Hk.
  unfold all_kts in Hk. apply elem_of_seq in Hk. destruct (Ht k); [lia|].
  tev1. { tev1. } tev1. { tev1. } cbn beta. rewrite bool_decide_eq_false_2 by (apply Hn; lia). tev.
Qed.

(** ** kthread_kill *)

(** The thread killed is the first of the process with that id. *)
Lemma ev_kthread_kill_found ktid d me l1 k l2 :
  running l0 = Some me -> (the_kt d me).(kt_process) = Some p ->
  all_kts = l1 ++ k :: l2 -> (forall j, j ∈ l1 -> (the_kt d (p, j)).(kt_tid) <> ktid) ->
  (the_kt d (p, k)).(kt_tid) = ktid ->
  exists d', evals l0 L d (kthread_kill ktid) 0 L d' /\
    kts_map (fun kt t => if decide ((p, k) = kt) then roused (t <| kt_killed := 1 |>) else t) d d'.
Proof.
  intros Hr Hp Hl Hn Hk.
  assert (forall q, q ∈ l1 ++ k :: l2 -> (q < NKT)%nat) as Hlt.
  { rewrite <- Hl. unfold all_kts. intros q Hq. apply elem_of_seq in Hq. lia. }
  set (d1 := upd_kt (p, k) (fun t => t <| kt_killed := 1 |>) d).
  exists (rouse_d (p, k) d1). split.
  - unfold kthread_kill. tev1. { by eapply ev_myproc. } tev1. { tev1. } rewrite Hl. cbn beta.
    eapply ev_bind; [apply ev_scan_found with (r := 0)|apply ev_ret].
    + intros j Hj. destruct (Ht j); [apply Hlt, elem_of_app; by left|]. tev1. { tev1. }
      tev1. { tev1. } cbn beta. rewrite (proj2 (Z.eqb_neq _ _)) by auto. tev.
    + destruct (Ht k); [apply Hlt, elem_of_app; right; by left|]. tev1. { tev1. }
      tev1. { tev1. } cbn beta. rewrite (proj2 (Z.eqb_eq _ _)) by done.
      tev1. { tev1. } tev1. { tev1. } tev1.
      { apply ev_when with (d' := rouse_d (p, k) d1); unfold rouse_d, d1; intros E; rewrite E; [tev1|done]. }
      tev.
  - eapply kts_map_trans; [apply kts_map_upd|apply rouse_map|]. intros kt. cbn. by case_dec.
Qed.

Lemma ev_kthread_kill_none ktid d me :
  running l0 = Some me -> (the_kt d me).(kt_process) = Some p ->
  (forall k, (k < NKT)%nat -> (the_kt d (p, k)).(kt_tid) <> ktid) ->
  evals l0 L d (kthread_kill ktid) (-1) L d.
Proof.
  intros Hr Hp Hn. unfold kthread_kill. tev1. { by eapply ev_myproc. } tev1. { tev1. }
  eapply ev_bind; [apply ev_scan_none|apply ev_ret]. intros k Hk.
  unfold all_kts in Hk. apply elem_of_seq in Hk. destruct (Ht k); [lia|].
  tev1. { tev1. } tev1. { tev1. } cbn beta. rewrite (proj2 (Z.eqb_neq _ _)) by (apply Hn; lia). tev.
Qed.

(** ** if_last_thread *)

Definition live (t : kthread) : bool :=
  bool_decide (t.(kt_state) <> UNUSED_t) && bool_decide (t.(kt_state) <> ZOMBIE_t).

Lemma ev_if_last_thread d me kt :
  running l0 = Some me -> (the_kt d me).(kt_process) = Some p ->
  evals l0 L d (if_last_thread kt)
    (if decide (Exists (fun k => (p, k) <> kt /\ live (the_kt d (p, k)) = true) all_kts)
     then 0 else 1) L d.
Proof.
  intros Hr Hp. unfold if_last_thread. tev1. { by eapply ev_myproc. } tev1. { tev1. } cbn beta.
  assert (forall q, q ∈ all_kts -> (q < NKT)%nat) as Hlt.
  { unfold all_kts. intros q Hq. apply elem_of_seq in Hq. lia. }
  destruct (first_match (fun k => (p, k) <> kt /\ live (the_kt d (p, k)) = true) all_kts)
    as [Hn|(l1 & k & l2 & Hl & [Hne Hlive] & Hn)].
  - rewrite decide_False by (rewrite Exists_exists; intros (k & ? & ?); by eapply Hn).
    eapply ev_bind; [apply ev_scan_none|apply ev_ret]. intros k Hk. specialize (Hn k Hk).
    case_bool_decide; [tev1|]. destruct (Ht k); [auto|]. tev1. { tev1. } tev1. { tev1. }
    cbn beta. fold (live (the_kt d (p, k))). destruct (live (the_kt d (p, k))); [tauto|]. tev.
  - rewrite decide_True.
    2: { rewrite Exists_exists. exists k. split; [|done]. rewrite Hl. apply elem_of_app. right. by left. }
    rewrite Hl in *. eapply ev_bind; [apply ev_scan_found with (r := 0)|apply ev_ret].
    + intros j Hj. specialize (Hn j Hj). case_bool_decide; [tev1|].
      destruct (Ht j); [apply Hlt, elem_of_app; by left|]. tev1. { tev1. } tev1. { tev1. }
      cbn beta. fold (live (the_kt d (p, j))). destruct (live (the_kt d (p, j))); [tauto|]. tev.
    + rewrite bool_decide_eq_false_2 by done.
      destruct (Ht k); [apply Hlt, elem_of_app; right; by left|]. tev1. { tev1. } tev1. { tev1. }
      cbn beta. fold (live (the_kt d (p, k))). rewrite Hlive. tev.
Qed.
End eval.

(** ** freethread and kthread_join *)

(** The thread slot as [freethread] leaves it. *)
Definition freed_thread (t : kthread) : kthread :=
  t <| kt_chan := None |> <| kt_killed := 0 |> <| kt_xstate := 0 |> <| kt_state := UNUSED_t |>
    <| kt_tid := 0 |> <| kt_process := None |> <| kt_trapframe := 0 |>
    <| kt_context ::= fun c => c <| c_ra := 0 |> |>.

Lemma ev_freethread l0 L L' t d :
  L ≡ₚ t_lock t :: L' ->
  exists d', evals l0 L d (freethread t) tt L' d' /\ kt_map1 t freed_thread d d'.
Proof.
  intros HL. eexists. split.
  - unfold freethread. do 8 (tev1; [tev1|]). by apply ev_release.
  - eapply kt_map1_ext; [do 7 (eapply kt_map1_trans); apply kt_map1_upd|done].
Qed.

(** The thread that [kthread_join] finds for an id: the last one that has it. *)
Definition join_target (d : kdata) (p : nat) (ktid : Z) (ks : list nat) (found : option kptr)
    : option kptr :=
  foldl (fun acc k => if (the_kt d (p, k)).(kt_tid) =? ktid then Some (p, k) else acc) found ks.

Lemma ev_join_search l0 L p ktid d ks found :
  (forall k, k ∈ ks -> (t_lock (p, k) ∉ L) /\ lfree l0 (t_lock (p, k))) ->
  evals l0 L d (join_search ks p ktid found) (join_target d p ktid ks found) L d.
Proof.
  revert found. induction ks as [|k ks IH]; intros found Hk; cbn [join_search join_target foldl].
  - apply ev_ret.
  - destruct (Hk k) as [Hn Hf]; [by left|]. tev1. { tev1. } tev1. { tev1. } tev1. { tev1. }
    apply IH. intros. apply Hk. by right.
Qed.

Lemma join_target_None d p ktid ks found :
  join_target d p ktid ks found = None <->
  found = None /\ forall k, k ∈ ks -> (the_kt d (p, k)).(kt_tid) <> ktid.
Proof.
  unfold join_target. revert found.
  induction ks as [|k ks IH]; intros found; cbn [foldl].
  - split; [intros ->; split; [done|]; intros k Hk; by apply elem_of_nil in Hk|by intros [-> _]].
  - rewrite IH. destruct (Z.eqb_spec (the_kt d (p, k)).(kt_tid) ktid) as [E|E].
    + split; [by intros []|]. intros [_ H]. destruct (H k); [by left|done].
    + split.
      * intros [-> H]. split; [done|]. intros j [->|?]%elem_of_cons; auto.
      * intros [-> H]. split; [done|]. intros j Hj. apply H. by right.
Qed.

Lemma join_target_Some d p ktid ks found t :
  join_target d p ktid ks found = Some t ->
  found = Some t \/ exists k, k ∈ ks /\ t = (p, k) /\ (the_kt d t).(kt_tid) = ktid.
Proof.
  unfold join_target. revert found.
  induction ks as [|k ks IH]; intros found H; cbn [foldl] in H; [by left|].
  apply IH in H as [H|(k' & ? & ? & ?)].
  - destruct (Z.eqb_spec (the_kt d (p, k)).(kt_tid) ktid); [|by left].
    right. exists k. split; [by left|]. by simplify_eq.
  - right. exists k'. split; [by right|done].
Qed.

Section join.
Context `{WF : WaitFuel} (l0 : lockst) (p : nat) (me : kptr) (d : kdata).
Context (Hr : running l0 = Some me) (Hp : (the_kt d me).(kt_process) = Some p).
Context (Hfp : lfree l0 (p_lock p)).
Context (Ht : forall k, (k < NKT)%nat -> lfree l0 (t_lock (p, k))).

Lemma join_search_locks k :
  k ∈ all_kts -> (t_lock (p, k) ∉ @nil lockptr) /\ lfree l0 (t_lock (p, k)).
Proof.
  intros Hk. split; [apply not_elem_of_nil|]. apply Ht. unfold all_kts in Hk.
  apply elem_of_seq in Hk. lia.
Qed.

Lemma ev_kthread_join_none ktid status :
  (forall k, (k < NKT)%nat -> (the_kt d (p, k)).(kt_tid) <> ktid) ->
  evals l0 [] d (kthread_join ktid status) (-1) [] d.
Proof.
  intros Hn. unfold kthread_join. tev1. { by eapply ev_myproc. } tev1. { tev1. }
  tev1. { apply ev_join_search, join_search_locks. }
  rewrite (proj2 (join_target_None d p ktid all_kts None)); [apply ev_ret|].
  split; [done|]. intros k Hk. apply Hn. unfold all_kts in Hk. apply elem_of_seq in Hk. lia.
Qed.

(** Joining a zombie copies its exit status out, if asked to, and frees it. *)
Lemma ev_kthread_join_zombie ktid status t q r d1 :
  join_target d p ktid all_kts None = Some t -> (the_kt d t).(kt_state) = ZOMBIE_t ->
  (the_kt d t).(kt_process) = Some q ->
  (status <> 0 ->
   evals l0 [t_lock t; p_lock p] d
     (copyout (d.(procs) q).(p_pagetable) status (int_bytes (the_kt d t).(kt_xstate)) 0 4)
     r [t_lock t; p_lock p] d1) ->
  (status = 0 -> r = 0 /\ d1 = d) ->
  exists d', evals l0 [] d (kthread_join ktid status) (if r <? 0 then -1 else 0) [] d' /\
    if r <? 0 then d' = d1 else kt_map1 t freed_thread d1 d'.
Proof.
  intros Htgt Hz Hq Hout H0.
  destruct (join_target_Some _ _ _ _ _ _ Htgt) as [?|(k & Hk & -> & Htid)]; [done|].
  unfold all_kts in Hk. apply elem_of_seq in Hk.
  destruct (ev_freethread l0 [t_lock (p, k); p_lock p] [p_lock p] (p, k) d1) as (d2 & Hev & Hm);
    [done|].
  exists (if r <? 0 then d1 else d2). split; [|by destruct (r <? 0)].
  unfold kthread_join. tev1. { by eapply ev_myproc. } tev1. { tev1. }
  tev1. { apply ev_join_search, join_search_locks. }
  cbn beta. rewrite Htgt. tev1. { tev1. }
  assert (evals l0 [p_lock p] d (join_loop wait_fuel p (p, k) status) (if r <? 0 then -1 else 0) []
    (if r <? 0 then d1 else d2)) as H; [|exact H].
  assert (lfree l0 (t_lock (p, k))) as Hfk by (apply Ht; lia).
  destruct wait_fuel; cbn [join_loop]; (tev1; [tev1|]); cbn beta; rewrite bool_decide_eq_true_2 by done;
    (tev1; [tev1|]); (eapply ev_bind with (a := r <? 0) (d1 := d1) (L1 := [t_lock (p, k); p_lock p]);
     [destruct (ctrue status) eqn:Es;
       [apply ctrue_true in Es; (tev1; [tev1|]); cbn beta; rewrite Hq; (tev1; [tev1|]);
        (tev1; [tev1|]); (tev1; [tev1|]); (tev1; [by apply Hout|]); apply ev_ret
       |apply ctrue_false in Es; destruct (H0 Es) as [-> ->]; apply ev_ret]
     |destruct (r <? 0); [tev|(tev1; [exact Hev|]); tev]]).
Qed.

(** A thread that joins itself goes to sleep on itself. *)
Lemma ev_kthread_join_self ktid status :
  (cur_cpu l0).(c_noff) = 0 -> join_target d p ktid all_kts None = Some me ->
  (the_kt d me).(kt_state) <> ZOMBIE_t ->
  evals_swtch l0 [] d (kthread_join ktid status) [t_lock me]
    (asleep_d me (chan_kthread me) d) (fun _ => True).
Proof.
  intros Hn Htgt Hz.
  destruct (join_target_Some _ _ _ _ _ _ Htgt) as [?|(k & Hk & E & Htid)]; [done|].
  unfold all_kts in Hk. apply elem_of_seq in Hk.
  unfold kthread_join. eapply ev_bind_swtch; [by eapply ev_myproc|]. cbn beta.
  eapply ev_bind_swtch; [apply ev_deref|]. cbn beta.
  eapply ev_bind_swtch; [apply ev_join_search, join_search_locks|].
  cbn beta. rewrite Htgt. eapply ev_bind_swtch; [apply ev_acquire; [notin|done]|].
  assert (lfree l0 (t_lock me)) as Hfk by (rewrite E; apply Ht; lia).
  assert (evals_swtch l0 [p_lock p] d (sleep (chan_kthread me) (p_lock p)) [t_lock me]
    (asleep_d me (chan_kthread me) d) (fun _ => True)) as Hs.
  { intros s Hl Hd. destruct (ev_sleep l0 me (chan_kthread me) (p_lock p) d) with (s := s)
      as (s' & k' & ? & ? & ? & _); try done. by exists s', k'. }
  destruct wait_fuel; cbn [join_loop]; (eapply ev_bind_swtch; [apply ev_t_get|]); cbn beta;
    rewrite bool_decide_eq_false_2 by done; apply ev_swtch_bind; exact Hs.
Qed.
End join.

(** ** kthread_create *)

Lemma ev_tf_set l0 L kt off v d :
  (the_kt d kt).(kt_trapframe) <> 0 ->
  evals l0 L d (tf_set kt off v) tt L
    (d <| mem := store64 d.(mem) ((the_kt d kt).(kt_trapframe) + off) v |>).
Proof.
  intros H. unfold tf_set. tev1. { tev1. } cbn beta. rewrite (proj2 (Z.eqb_neq _ _)) by done.
  apply ev_st.
Qed.

(** A created thread is RUNNABLE at [start_func] on the top of the given stack. *)
Lemma ev_kthread_create_found l0 p me d l1 k l2 start_func stack stack_size :
  running l0 = Some me -> (the_kt d me).(kt_process) = Some p ->
  lfree l0 (alloc_lock p) -> (forall k, (k < NKT)%nat -> lfree l0 (t_lock (p, k))) ->
  0 < (d.(procs) p).(p_base_trapframes) ->
  all_kts = l1 ++ k :: l2 -> (forall j, j ∈ l1 -> (the_kt d (p, j)).(kt_state) <> UNUSED_t) ->
  (the_kt d (p, k)).(kt_state) = UNUSED_t ->
  let tf := (d.(procs) p).(p_base_trapframes) + Z.of_nat k * sizeof_trapframe in
  exists d1 d', evals l0 [] d (kthread_create start_func stack stack_size)
      (d.(procs) p).(p_counter) [] d' /\
    alloc_effect p k d d1 /\
    d' = upd_kt (p, k) (fun t => t <| kt_state := RUNNABLE_t |>)
      (d1 <| mem := store64 (store64 d.(mem) (tf + tf_epc) start_func)
                      (tf + tf_sp) (u64 (stack + stack_size)) |>).
Proof.
  intros Hr Hp Hfa Hft Hb Hl Hn Hk tf.
  destruct (ev_allockthread_found l0 [] p) with (d := d) (l1 := l1) (k := k) (l2 := l2)
    as (d1 & Hev & He); try done.
  { apply not_elem_of_nil. } { intros j Hj. split; [apply not_elem_of_nil|by apply Hft]. }
  assert (the_kt d1 (p, k) = new_thread p k d (the_kt d (p, k))) as Ek
    by (rewrite (ae_kt _ _ _ _ He); by rewrite decide_True).
  assert ((the_kt d1 (p, k)).(kt_trapframe) = tf) as Etf by (by rewrite Ek).
  assert (tf <> 0) as Htf by (unfold tf, sizeof_trapframe; lia).
  assert (mem d1 = mem d) as Em by (by rewrite (ae_rest _ _ _ _ He)).
  assert ((the_kt d1 (p, k)).(kt_tid) = (procs d p).(p_counter)) as Etid by (by rewrite Ek).
  exists d1. eexists. split; [|split; [exact He|reflexivity]].
  unfold kthread_create. tev1. { by eapply ev_myproc. } tev1. { tev1. }
  tev1. { exact Hev. } cbn beta iota.
  tev1. { apply ev_tf_set. by rewrite Etf. } tev1.
  { apply ev_tf_set. change (kt_trapframe (the_kt d1 (p, k)) <> 0). by rewrite Etf. }
  tev1. { tev1. } tev1. { tev1. }
  eapply evals_eq; [apply ev_t_get| |done|].
  - rewrite the_kt_upd, decide_True by done. exact Etid.
  - f_equal. change (the_kt (d1 <| mem := _ |>) (p, k)) with (the_kt d1 (p, k)).
    change (mem (d1 <| mem := ?m |>)) with m. by rewrite Etf, Em.
Qed.

(** ** Thread ids *)

(** The ids of the used threads of [p] are below the counter and distinct. *)
Definition tids_ok (d : kdata) (p : nat) : Prop :=
  0 < (d.(procs) p).(p_counter) /\
  forall k, (k < NKT)%nat -> (the_kt d (p, k)).(kt_state) <> UNUSED_t ->
    0 < (the_kt d (p, k)).(kt_tid) < (d.(procs) p).(p_counter) /\
    forall k', (k' < NKT)%nat -> (the_kt d (p, k')).(kt_state) <> UNUSED_t ->
      (the_kt d (p, k')).(kt_tid) = (the_kt d (p, k)).(kt_tid) -> k' = k.

Lemma tids_ok_alloc p k d d' :
  tids_ok d p -> (d.(procs) p).(p_counter) < 2 ^ 31 - 1 -> alloc_effect p k d d' ->
  (the_kt d (p, k)).(kt_state) = UNUSED_t -> tids_ok d' p.
Proof.
  intros [H0 Hi] Hmax [K P R] Hk.
  assert ((procs d' p).(p_counter) = (procs d p).(p_counter) + 1) as Ec.
  { destruct (P p) as [f ->]. cbn. rewrite decide_True by done. apply s32_small. lia. }
  split; [lia|]. rewrite Ec. intros j Hj. rewrite !K.
  destruct (decide ((p, j) = (p, k))) as [E|E]; cbn.
  - intros _. split; [lia|]. intros j' Hj'. rewrite K.
    destruct (decide ((p, j') = (p, k))); [congruence|].
    intros Hu Htid. destruct (Hi j' Hj' Hu). lia.
  - intros Hu. destruct (Hi j Hj Hu) as [Hb Hd]. split; [lia|]. intros j' Hj'. rewrite K.
    destruct (decide ((p, j') = (p, k))); cbn; [intros _ Htid; lia|]. auto.
Qed.
End spec.
