(* ===== verification/ThreadSpec.v ===== *)
(** * What the scheduler and the thread operations guarantee

    Theorems on sleep and wakeup, the scheduler, kill, and the thread operations
    of kthread.c, with instances on a process with two threads. *)
From S2P Require Export KthreadSpec Demo.

(** C2: [sleep] gives up [lk] only when it holds the lock of the thread: while another hart
    has that lock, it waits for it with [lk] still held and nothing changed.  It keeps the
    lock of the thread, alone, until it gives up the cpu marked SLEEPING on [ch]; a [wakeup]
    of another hart that starts in the meantime waits for that lock, and one that finds it
    free makes the sleeping thread RUNNABLE.  Once resumed, the thread returns from [sleep]
    with [lk] held again. *)
Theorem no_lost_wakeup l0 kt ch lk d :
  running l0 = Some kt -> (cur_cpu l0).(c_noff) = 0 -> valid_kt kt -> lk <> t_lock kt ->
  (ltaken l0 (t_lock kt) -> evals_spin l0 [lk] d (sleep ch lk) (t_lock kt) [lk] d) /\
  (lfree l0 (t_lock kt) ->
   evals_swtch l0 [lk] d (sleep ch lk) [t_lock kt] (asleep_d kt ch d)
     (fun k => forall l1 d2, resumable l0 l1 -> lfree l1 lk ->
        evals l1 [t_lock kt] d2 k tt [lk] (upd_kt kt (fun t => t <| kt_chan := None |>) d2))) /\
  forall l1 L d2,
    running l1 <> Some kt -> t_lock kt ∉ L ->
    (forall kt', valid_kt kt' -> kt' <> kt -> Some kt' <> running l1 -> (t_lock kt' ∉ L) /\ lfree l1 (t_lock kt')) ->
    (ltaken l1 (t_lock kt) ->
     exists d3, the_kt d3 kt = the_kt d2 kt /\ evals_spin l1 L d2 (wakeup (Some ch)) (t_lock kt) L d3) /\
    (lfree l1 (t_lock kt) -> the_kt d2 kt = the_kt (asleep_d kt ch d) kt ->
     exists d3, evals l1 L d2 (wakeup (Some ch)) tt L d3 /\ (the_kt d3 kt).(kt_state) = RUNNABLE_t).
Proof.
  intros Hr Hn Hv Hne. split; [by apply ev_sleep_waits|]. split; [by apply ev_sleep|].
  intros l1 L d2 Hr1 Hl Hfree. split; [intros Ht; by apply ev_wakeup_waits|]. intros Hf Hkt.
  destruct (ev_wakeup l1 L d2 (Some ch)) as (d3 & Hev & [K _ _]).
  { intros kt' Hv' Hr'. destruct (decide (kt' = kt)) as [->|]; [done|by apply Hfree]. }
  exists d3. split; [done|]. rewrite K, Hkt, the_kt_asleep. unfold woken. by rewrite decide_True.
Qed.

(** [wakeup] makes exactly the threads that sleep on the channel RUNNABLE, the
    caller excepted; it changes nothing else in the kernel. *)
Theorem wakeup_exact l0 L d ch :
  (forall kt, valid_kt kt -> Some kt <> running l0 -> (t_lock kt ∉ L) /\ lfree l0 (t_lock kt)) ->
  exists d', evals l0 L d (wakeup ch) tt L d' /\ kts_map (woken (running l0) ch) d d'.
Proof. apply ev_wakeup. Qed.

(** A thread may only sleep with a single spinlock held: with another one the
    kernel panics instead of switching away with it. *)
Theorem sleep_holding_locks_panics l0 kt ch lk L d :
  running l0 = Some kt -> L <> [] -> lk ∉ L -> t_lock kt ∉ lk :: L -> lfree l0 (t_lock kt) ->
  evals_panic l0 (lk :: L) d (sleep ch lk) "sched locks".
Proof. apply ev_sleep_locks. Qed.

(** The scheduler dispatches a thread exactly when it is RUNNABLE: it switches to
    it with the thread's lock held, the thread RUNNING and recorded as the one the
    cpu runs; any other thread it passes over without a change. *)
Theorem scheduler_dispatch l0 kt d :
  lfree l0 (t_lock kt) ->
  ((the_kt d kt).(kt_state) = RUNNABLE_t ->
   forall s, lstate [] l0 s.(lks) -> s.(dat) = d ->
     exists s' k, scheduler_thread l0.(hartid) kt s = Swtch s' k /\
       lstate [t_lock kt] (set_running (Some kt) l0) s'.(lks) /\
       s'.(dat) = upd_kt kt (fun t => t <| kt_state := RUNNING_t |>) d) /\
  ((the_kt d kt).(kt_state) <> RUNNABLE_t ->
   evals l0 [] d (scheduler_thread l0.(hartid) kt) tt [] d).
Proof.
  intros Hf. split.
  - intros Hs s Hl Hd. by apply scheduler_thread_runs.
  - by apply ev_scheduler_skip.
Qed.

(** [kill pid] marks the first process with that pid and rouses its sleeping
    threads, or returns -1 without a change when there is none. *)
Theorem kill_correct l0 L d pid :
  (forall p, (p < NPROC)%nat -> (p_lock p ∉ L) /\ lfree l0 (p_lock p)) ->
  (forall kt, valid_kt kt -> (t_lock kt ∉ L) /\ lfree l0 (t_lock kt)) ->
  (exists p d', (p < NPROC)%nat /\ (d.(procs) p).(p_pid) = pid /\
     evals l0 L d (kill pid) 0 L d' /\
     kts_map (fun kt t => if decide (kt ∈ kts_of p) then roused t else t)
       (upd_proc p (fun x => x <| p_killed := 1 |>) d) d') \/
  ((forall p, (p < NPROC)%nat -> (d.(procs) p).(p_pid) <> pid) /\
   evals l0 L d (kill pid) (-1) L d).
Proof.
  intros Hp Ht.
  destruct (first_match (fun q => (d.(procs) q).(p_pid) = pid) all_procs)
    as [Hn|(l1 & p & l2 & Hl & Hpid & Hn)].
  - assert (forall q, (q < NPROC)%nat -> (d.(procs) q).(p_pid) <> pid) as Hn'.
    { intros q Hq. apply Hn. apply elem_of_seq. lia. }
    right. split; [done|]. by apply ev_kill_none.
  - left. destruct (ev_kill_found l0 L Hp Ht pid d l1 p l2) as (d' & Hev & Hm); [done..|].
    exists p, d'. split; [|done].
    assert (p ∈ all_procs) as Hin by (rewrite Hl; apply elem_of_app; right; by left).
    apply elem_of_seq in Hin. lia.
Qed.

(** C7: [yield] locks and reschedules thread 0 of the process.  Called by thread 0 it
    gives up the cpu RUNNABLE and returns when it is scheduled again; called by any
    other thread of the process (the timer interrupt does so) the kernel panics. *)
Theorem yield_only_first_thread l0 p k d :
  running l0 = Some (p, k) -> (the_kt d (p, k)).(kt_process) = Some p ->
  (cur_cpu l0).(c_noff) = 0 ->
  lfree l0 (t_lock (p, 0%nat)) -> lfree l0 (t_lock (p, k)) ->
  (k = 0%nat ->
   evals_swtch l0 [] d yield [t_lock (p, 0%nat)]
     (upd_kt (p, 0%nat) (fun t => t <| kt_state := RUNNABLE_t |>) d)
     (fun c => forall l1 d2, resumable l0 l1 -> evals l1 [t_lock (p, 0%nat)] d2 c tt [] d2)) /\
  (k <> 0%nat -> evals_panic l0 [] d yield "sched p->lock").
Proof.
  intros Hr Hp Hn Hf0 Hfk. split.
  - intros ->. by apply ev_yield_first.
  - intros Hk. by eapply ev_yield_other.
Qed.

Section threads.
Context `{KI : KernelImage} `{WF : WaitFuel}.

(** C8: [kthread_create] starts a new thread of the calling process, with a fresh id
    that it returns, at [start_func] with its stack pointer at the top of the stack
    it was given. *)
Theorem kthread_create_correct l0 p me d k start_func stack stack_size :
  running l0 = Some me -> (the_kt d me).(kt_process) = Some p ->
  lfree l0 (alloc_lock p) -> (forall k, (k < NKT)%nat -> lfree l0 (t_lock (p, k))) ->
  0 < (d.(procs) p).(p_base_trapframes) -> (k < NKT)%nat ->
  (forall j, (j < k)%nat -> (the_kt d (p, j)).(kt_state) <> UNUSED_t) ->
  (the_kt d (p, k)).(kt_state) = UNUSED_t ->
  exists d', evals l0 [] d (kthread_create start_func stack stack_size)
      (d.(procs) p).(p_counter) [] d' /\
    let t := the_kt d' (p, k) in
    t.(kt_state) = RUNNABLE_t /\ t.(kt_tid) = (d.(procs) p).(p_counter) /\
    t.(kt_process) = Some p /\
    t.(kt_context) = context0 <| c_ra := k_forkret |>
                       <| c_sp := (the_kt d (p, k)).(kt_kstack) + PGSIZE |> /\
    load64 d'.(mem) (t.(kt_trapframe) + tf_epc) = u64 start_func /\
    load64 d'.(mem) (t.(kt_trapframe) + tf_sp) = u64 (stack + stack_size) /\
    forall kt, kt <> (p, k) -> the_kt d' kt = the_kt d kt.
Proof.
  intros Hr Hp Hfa Hft Hb Hk Hn Hun.
  assert (all_kts = seq 0 k ++ k :: seq (S k) (NKT - S k)) as Hl.
  { unfold all_kts.
    replace NKT with (k + S (NKT - S k))%nat at 1 by lia. by rewrite seq_app. }
  destruct (ev_kthread_create_found l0 p me d (seq 0 k) k (seq (S k) (NKT - S k))
    start_func stack stack_size) as (d1 & d' & Hev & [K P R] & Ed); [done..| |done|].
  { intros j Hj%elem_of_seq. apply Hn. lia. }
  exists d'. split; [exact Hev|]. set (tf := _ + _ * _) in *.
  assert (the_kt d' (p, k) = new_thread p k d (the_kt d (p, k)) <| kt_state := RUNNABLE_t |>) as Et.
  { rewrite Ed, the_kt_upd, decide_True by done.
    change (the_kt (d1 <| mem := _ |>) (p, k)) with (the_kt d1 (p, k)).
    by rewrite K, decide_True. }
  rewrite Et. cbn -[tf_epc tf_sp]. do 4 (split; [done|]). fold tf.
  assert (mem d' = store64 (store64 (mem d) (tf + tf_epc) start_func) (tf + tf_sp)
    (u64 (stack + stack_size))) as Em by (by rewrite Ed).
  rewrite Em. split; [|split].
  - rewrite load64_store64_ne by (unfold tf_epc, tf_sp; lia). apply load64_store64_wrap.
  - apply load64_store64, u64_bound.
  - intros kt Hne. rewrite Ed, the_kt_upd, decide_False by congruence.
    change (the_kt (d1 <| mem := _ |>) kt) with (the_kt d1 kt). by rewrite K, decide_False.
Qed.

(** C9: Joining a thread that has exited copies its status out and frees its slot. *)
Theorem kthread_join_zombie l0 p me d ktid status t q r d1 :
  running l0 = Some me -> (the_kt d me).(kt_process) = Some p -> lfree l0 (p_lock p) ->
  (forall k, (k < NKT)%nat -> lfree l0 (t_lock (p, k))) ->
  join_target d p ktid all_kts None = Some t -> (the_kt d t).(kt_state) = ZOMBIE_t ->
  (the_kt d t).(kt_process) = Some q ->
  (status <> 0 ->
   evals l0 [t_lock t; p_lock p] d
     (copyout (d.(procs) q).(p_pagetable) status (int_bytes (the_kt d t).(kt_xstate)) 0 4)
     r [t_lock t; p_lock p] d1) ->
  (status = 0 -> r = 0 /\ d1 = d) ->
  exists d', evals l0 [] d (kthread_join ktid status) (if r <? 0 then -1 else 0) [] d' /\
    if r <? 0 then d' = d1 else kt_map1 t freed_thread d1 d'.
Proof. intros Hr Hp Hfp Hft. by eapply ev_kthread_join_zombie. Qed.

(** C10: A thread that joins its own id, as exit and exec do when the process has
    another live thread, goes to sleep on itself: it waits on a channel that only
    its own [kthread_exit] wakes. *)
Theorem kthread_join_self_sleeps l0 p me d ktid status :
  running l0 = Some me -> (the_kt d me).(kt_process) = Some p -> lfree l0 (p_lock p) ->
  (forall k, (k < NKT)%nat -> lfree l0 (t_lock (p, k))) -> (cur_cpu l0).(c_noff) = 0 ->
  join_target d p ktid all_kts None = Some me -> (the_kt d me).(kt_state) <> ZOMBIE_t ->
  evals_swtch l0 [] d (kthread_join ktid status) [t_lock me]
    (asleep_d me (chan_kthread me) d) (fun _ => True).
Proof. intros. by eapply ev_kthread_join_self. Qed.

(** [allockthread] takes the first unused thread of the process, initialises it to
    start in [forkret] on its own kernel stack with its own trapframe, and gives it
    an id that no other thread of the process has; it returns with the thread's
    lock held.  With no unused thread it returns 0 and changes nothing. *)
Theorem allockthread_correct l0 L p d :
  alloc_lock p ∉ L -> lfree l0 (alloc_lock p) ->
  (forall k, (k < NKT)%nat -> (t_lock (p, k) ∉ L) /\ lfree l0 (t_lock (p, k))) ->
  tids_ok d p -> (d.(procs) p).(p_counter) < 2 ^ 31 - 1 ->
  (exists k d', (k < NKT)%nat /\ (the_kt d (p, k)).(kt_state) = UNUSED_t /\
     evals l0 L d (allockthread p) (Some (p, k)) (t_lock (p, k) :: L) d' /\
     alloc_effect p k d d' /\ tids_ok d' p) \/
  ((forall k, (k < NKT)%nat -> (the_kt d (p, k)).(kt_state) <> UNUSED_t) /\
   evals l0 L d (allockthread p) None L d).
Proof.
  intros Ha Hfa Ht Hi Hmax.
  destruct (first_match (fun k => (the_kt d (p, k)).(kt_state) = UNUSED_t) all_kts)
    as [Hn|(l1 & k & l2 & Hl & Hk & Hn)].
  - assert (forall k, (k < NKT)%nat -> (the_kt d (p, k)).(kt_state) <> UNUSED_t) as Hn'.
    { intros k Hk. apply Hn, elem_of_seq. lia. }
    right. split; [done|]. by apply ev_allockthread_none.
  - left. destruct (ev_allockthread_found l0 L p Ha Hfa Ht d l1 k l2) as (d' & Hev & He); [done..|].
    assert (k ∈ all_kts) as Hin by (rewrite Hl; apply elem_of_app; right; by left).
    apply elem_of_seq in Hin. exists k, d'. split; [lia|]. do 3 (split; [done|]).
    by eapply tids_ok_alloc.
Qed.

(** The stacks that [kthreadinit] assigns are page-aligned, above physical memory
    and below the trampoline, and two of them are always at least two pages apart:
    between any two there is an unmapped guard page.  The trapframes of the [NKT]
    threads of a process are disjoint and fit in the one page below the trampoline
    that proc_pagetable maps. *)
Theorem thread_layout kt kt' :
  valid_kt kt -> valid_kt kt' ->
  (PHYSTOP < kstack_of kt /\ kstack_of kt + PGSIZE < TRAMPOLINE /\ kstack_of kt mod PGSIZE = 0) /\
  (kt <> kt' -> kstack_of kt + 2 * PGSIZE <= kstack_of kt' \/
                kstack_of kt' + 2 * PGSIZE <= kstack_of kt) /\
  (TRAPFRAME 0 <= TRAPFRAME (Z.of_nat kt.2) /\
   TRAPFRAME (Z.of_nat kt.2) + sizeof_trapframe <= TRAMPOLINE) /\
  (kt.2 <> kt'.2 -> TRAPFRAME (Z.of_nat kt.2) + sizeof_trapframe <= TRAPFRAME (Z.of_nat kt'.2) \/
                    TRAPFRAME (Z.of_nat kt'.2) + sizeof_trapframe <= TRAPFRAME (Z.of_nat kt.2)).
Proof.
  intros Hv Hv'. split; [by apply kstack_of_bound|]. split; [by apply kstack_of_inj|].
  destruct Hv as [_ Hk]. destruct (trapframes_fit kt.2 Hk). unfold TRAPFRAME.
  split; [lia|]. intros Hne. unfold sizeof_trapframe in *. lia.
Qed.
End threads.

(** ** Instances: process 1 with two running threads *)

Section witnesses.
#[local] Existing Instance demo_image.
#[local] Instance demo_fuel : WaitFuel := 3%nat.

Definition demo_thread (st : threadstate) (tid : Z) : kthread :=
  kthread0 <| kt_state := st |> <| kt_tid := tid |> <| kt_process := Some 1%nat |>.

Definition demo_proc : proc :=
  proc0 <| p_state := USED |> <| p_pid := 7 |> <| p_counter := 4 |>
    <| p_base_trapframes := 0x86002000 |>
    <| p_kthread := <[0%nat := demo_thread RUNNING_t 1]> (<[1%nat := demo_thread RUNNABLE_t 2]>
         (<[2%nat := demo_thread ZOMBIE_t 3]> (fun _ => kthread0))) |>.

Definition demo_threads : kdata := kdata0 <| procs := <[1%nat := demo_proc]> (fun _ => proc0) |>.

(** The lock state of a hart that runs [kt] with all locks free. *)
Definition demo_run (kt : kptr) : lockst := set_running (Some kt) lockst0.

Lemma demo_run_free kt lk : lfree (demo_run kt) lk.
Proof. done. Qed.

(** The other hart holds the lock of the thread (1, 0). *)
Definition demo_taken : lockst := upd_lock (t_lock (1, 0)%nat) (fun _ => Spinlock 1 EmptyString (Some 1%nat)) (demo_run (1, 0)%nat).

Lemma no_lost_wakeup_witness :
  evals_swtch (demo_run (1, 0)%nat) [log_lock] demo_threads (sleep chan_log log_lock)
    [t_lock (1, 0)%nat] (asleep_d (1, 0)%nat chan_log demo_threads)
    (fun k => forall l1 d2, resumable (demo_run (1, 0)%nat) l1 -> lfree l1 log_lock ->
       evals l1 [t_lock (1, 0)%nat] d2 k tt [log_lock]
         (upd_kt (1, 0)%nat (fun t => t <| kt_chan := None |>) d2)) /\
  evals_spin demo_taken [log_lock] demo_threads (sleep chan_log log_lock) (t_lock (1, 0)%nat) [log_lock] demo_threads.
Proof.
  assert (valid_kt (1, 0)%nat) as Hv by (split; cbn; unfold NPROC, NKT; lia).
  split.
  - apply (no_lost_wakeup (demo_run (1, 0)%nat) (1, 0)%nat chan_log log_lock demo_threads);
      [reflexivity|reflexivity|exact Hv|discriminate|apply demo_run_free].
  - apply (no_lost_wakeup demo_taken (1, 0)%nat chan_log log_lock demo_threads);
      [reflexivity|reflexivity|exact Hv|discriminate|split; [reflexivity|discriminate]].
Defined.

Lemma wakeup_exact_witness :
  exists d', evals (demo_run (1, 0)%nat) [] demo_threads (wakeup None) tt [] d' /\
    kts_map (woken (Some (1, 0)%nat) None) demo_threads d'.
Proof.
  apply (wakeup_exact (demo_run (1, 0)%nat) [] demo_threads None).
  intros kt _ _. split; [apply not_elem_of_nil|apply demo_run_free].
Defined.

Lemma sleep_holding_locks_panics_witness :
  evals_panic (demo_run (1, 0)%nat) [log_lock; tickslock] demo_threads (sleep chan_log log_lock)
    "sched locks".
Proof.
  apply (sleep_holding_locks_panics (demo_run (1, 0)%nat) (1, 0)%nat); [reflexivity|discriminate| | |done].
  - by apply (bool_decide_unpack _).
  - by apply (bool_decide_unpack _).
Defined.

Lemma scheduler_dispatch_witness :
  (exists s' k, scheduler_thread 0 (1, 1)%nat (Kstate demo_threads lockst0) = Swtch s' k /\
     s'.(dat) = upd_kt (1, 1)%nat (fun t => t <| kt_state := RUNNING_t |>) demo_threads) /\
  evals lockst0 [] demo_threads (scheduler_thread 0 (1, 2)%nat) tt [] demo_threads.
Proof.
  split.
  - destruct (scheduler_dispatch lockst0 (1, 1)%nat demo_threads (demo_lfree _)) as [H _].
    destruct (H eq_refl (Kstate demo_threads lockst0)) as (s' & k & ? & _ & ?);
      [apply lstate_refl, demo_ready|reflexivity|]. by exists s', k.
  - destruct (scheduler_dispatch lockst0 (1, 2)%nat demo_threads (demo_lfree _)) as [_ H].
    by apply H.
Defined.

Lemma kill_correct_witness :
  (exists p d', (p < NPROC)%nat /\ (demo_threads.(procs) p).(p_pid) = 7 /\
     evals lockst0 [] demo_threads (kill 7) 0 [] d' /\
     kts_map (fun kt t => if decide (kt ∈ kts_of p) then roused t else t)
       (upd_proc p (fun x => x <| p_killed := 1 |>) demo_threads) d') \/
  ((forall p, (p < NPROC)%nat -> (demo_threads.(procs) p).(p_pid) <> 7) /\
   evals lockst0 [] demo_threads (kill 7) (-1) [] demo_threads).
Proof.
  apply (kill_correct lockst0 [] demo_threads 7); intros; split;
    (apply not_elem_of_nil || apply demo_lfree).
Defined.

Lemma yield_only_first_thread_witness :
  evals_panic (demo_run (1, 1)%nat) [] demo_threads yield "sched p->lock".
Proof.
  apply (yield_only_first_thread (demo_run (1, 1)%nat) 1 1 demo_threads);
    [reflexivity|reflexivity|reflexivity|apply demo_run_free|apply demo_run_free|discriminate].
Defined.

Lemma kthread_create_correct_witness :
  exists d', evals (demo_run (1, 0)%nat) [] demo_threads (kthread_create 0x1000 0x5000 4000) 4 [] d' /\
    (the_kt d' (1, 3)%nat).(kt_state) = RUNNABLE_t.
Proof.
  destruct (kthread_create_correct (demo_run (1, 0)%nat) 1 (1, 0)%nat demo_threads 3 0x1000 0x5000 4000)
    as (d' & Hev & Hs & _);
    [reflexivity|reflexivity|apply demo_run_free|intros; apply demo_run_free|reflexivity
    |unfold NKT; lia| |reflexivity|].
  - intros j Hj. destruct j as [|[|[|?]]]; [discriminate..|lia].
  - exists d'. split; [exact Hev|exact Hs].
Defined.

Lemma kthread_join_zombie_witness :
  exists d', evals (demo_run (1, 0)%nat) [] demo_threads (kthread_join 3 0) 0 [] d' /\
    kt_map1 (1, 2)%nat freed_thread demo_threads d'.
Proof.
  apply (kthread_join_zombie (demo_run (1, 0)%nat) 1 (1, 0)%nat demo_threads 3 0 (1, 2)%nat 1 0 demo_threads);
    [reflexivity|reflexivity|apply demo_run_free|intros; apply demo_run_free|reflexivity
    |reflexivity|reflexivity|by intros []|done].
Defined.

Lemma kthread_join_self_sleeps_witness :
  evals_swtch (demo_run (1, 0)%nat) [] demo_threads (kthread_join 1 0) [t_lock (1, 0)%nat]
    (asleep_d (1, 0)%nat (chan_kthread (1, 0)%nat) demo_threads) (fun _ => True).
Proof.
  apply (kthread_join_self_sleeps (demo_run (1, 0)%nat) 1 (1, 0)%nat demo_threads 1 0);
    [reflexivity|reflexivity|apply demo_run_free|intros; apply demo_run_free|reflexivity
    |reflexivity|discriminate].
Defined.

Lemma demo_tids_ok : tids_ok demo_threads 1.
Proof.
  split; [done|]. intros k Hk Hu.
  assert (forall j, (the_kt demo_threads (1, j)%nat).(kt_state) <> UNUSED_t -> (j < 3)%nat) as H3.
  { intros j Hj. destruct j as [|[|[|j]]]; [lia..|]. by destruct Hj. }
  apply H3 in Hu. split; [by destruct k as [|[|[|?]]]; [| | |lia]|].
  intros k' _ Hu'%H3 E. destruct k as [|[|[|?]]], k' as [|[|[|?]]]; try lia; discriminate E.
Qed.

Lemma allockthread_correct_witness :
  (exists k d', (k < NKT)%nat /\ (the_kt demo_threads (1, k)%nat).(kt_state) = UNUSED_t /\
     evals lockst0 [] demo_threads (allockthread 1) (Some (1, k)%nat) [t_lock (1, k)%nat] d' /\
     alloc_effect 1 k demo_threads d' /\ tids_ok d' 1) \/
  ((forall k, (k < NKT)%nat -> (the_kt demo_threads (1, k)%nat).(kt_state) <> UNUSED_t) /\
   evals lockst0 [] demo_threads (allockthread 1) None [] demo_threads).
Proof.
  apply (allockthread_correct lockst0 [] 1 demo_threads); [apply not_elem_of_nil|apply demo_lfree| |
    apply demo_tids_ok|reflexivity].
  intros k _. split; [apply not_elem_of_nil|apply demo_lfree].
Defined.

Lemma thread_layout_witness :
  kstack_of (1, 0)%nat + 2 * PGSIZE <= kstack_of (0, 9)%nat \/
  kstack_of (0, 9)%nat + 2 * PGSIZE <= kstack_of (1, 0)%nat.
Proof.
  destruct (thread_layout (1, 0)%nat (0, 9)%nat) as (_ & H & _);
    [split; cbn; unfold NPROC, NKT; lia..|]. by apply H.
Defined.
End witnesses.
