(* ===== verification/Sleeplock.v ===== *)
(** * Sleeping locks (kernel/sleeplock.c) *)
From S2P Require Export Kthread.

Section sleeplock.
Context `{WF : WaitFuel}.

Definition initsleeplock (lk : slptr) (name : string) : M unit :=
  initlock (sl_lk lk) "sleep lock";;
  modd (upd_slock lk (fun x => x <| sl_name := name |>));;
  modd (upd_slock lk (fun x => x <| sl_locked := 0 |>));;
  modd (upd_slock lk (fun x => x <| sl_pid := 0 |>)).

Fixpoint acquiresleep_wait (fuel : nat) (lk : slptr) : M unit :=
  locked ← getd (fun d => (the_slock d lk).(sl_locked));
  if ctrue locked then
    sleep (chan_sleeplock lk) (sl_lk lk);;
    match fuel with
    | O => diverge
    | S fuel => acquiresleep_wait fuel lk
    end
  else mret tt.

(** [myproc()->pid]. *)
Definition mypid : M Z :=
  p ← myproc;
  p ← deref p;
  p_get p p_pid.

Definition acquiresleep (lk : slptr) : M unit :=
  acquire (sl_lk lk);;
  acquiresleep_wait wait_fuel lk;;
  modd (upd_slock lk (fun x => x <| sl_locked := 1 |>));;
  pid ← mypid;
  modd (upd_slock lk (fun x => x <| sl_pid := pid |>));;
  release (sl_lk lk).

Definition releasesleep (lk : slptr) : M unit :=
  acquire (sl_lk lk);;
  modd (upd_slock lk (fun x => x <| sl_locked := 0 |>));;
  modd (upd_slock lk (fun x => x <| sl_pid := 0 |>));;
  wakeup (Some (chan_sleeplock lk));;
  release (sl_lk lk).

Definition holdingsleep (lk : slptr) : M Z :=
  acquire (sl_lk lk);;
  x ← getd (fun d => the_slock d lk);
  r ← (if ctrue x.(sl_locked) then
         pid ← mypid; mret (cbool (x.(sl_pid) =? pid))
       else mret 0);
  release (sl_lk lk);;
  mret r.
End sleeplock.
