(* ===== verification/Post.v ===== *)
(** * Postconditions

    [posts l0 L d m Q] is the judgement [evals] with a postcondition in place of a
    result: on a hart that holds [L], with kernel data [d], [m] returns without
    giving up the cpu and its result, the locks it leaves held and the data satisfy
    [Q].  It suits the functions whose effect is not a function of their input
    state, because they wake whatever threads are asleep, or pick a buffer. *)
From S2P Require Export Kthread.

Definition posts {A} (l0 : lockst) (L : list lockptr) (d : kdata) (m : M A)
    (Q : A -> list lockptr -> kdata -> Prop) : Prop :=
  forall s, lstate L l0 s.(lks) -> s.(dat) = d ->
    exists a s' L', m s = Ret a s' /\ lstate L' l0 s'.(lks) /\ Q a L' s'.(dat).

(** The locks are those held before. *)
Definition pst {A} (l0 : lockst) (L : list lockptr) (d : kdata) (m : M A)
    (Q : A -> kdata -> Prop) : Prop :=
  posts l0 L d m (fun a L' d' => L' = L /\ Q a d').

Section rules.
Context (l0 : lockst).

Lemma po_evals {A} L d (m : M A) a L' d' (Q : A -> list lockptr -> kdata -> Prop) :
  evals l0 L d m a L' d' -> Q a L' d' -> posts l0 L d m Q.
Proof. intros H HQ s Hl Hd. destruct (H s Hl Hd) as (s' & E & Hl' & <-). by exists a, s', L'. Qed.

Lemma po_mono {A} L d (m : M A) (Q Q' : A -> list lockptr -> kdata -> Prop) :
  posts l0 L d m Q -> (forall a L' d', Q a L' d' -> Q' a L' d') -> posts l0 L d m Q'.
Proof.
  intros H HQ s Hl Hd. destruct (H s Hl Hd) as (a & s' & L' & ? & ? & ?).
  exists a, s', L'. auto.
Qed.

Lemma po_call {A} L d (m : M A) (R : A -> kdata -> Prop) (Q : A -> list lockptr -> kdata -> Prop) :
  pst l0 L d m R -> (forall a d', R a d' -> Q a L d') -> posts l0 L d m Q.
Proof. intros H HQ. eapply po_mono; [exact H|]. intros a L' d' [-> ?]. by apply HQ. Qed.

Lemma po_ret {A} L d (a : A) (Q : A -> list lockptr -> kdata -> Prop) :
  Q a L d -> posts l0 L d (mret a) Q.
Proof. apply po_evals, ev_ret. Qed.

Lemma po_bind {A B} (m : M A) (f : A -> M B) L d (Q : B -> list lockptr -> kdata -> Prop) :
  posts l0 L d m (fun a L1 d1 => posts l0 L1 d1 (f a) Q) -> posts l0 L d (m ≫= f) Q.
Proof.
  intros H s Hl Hd. destruct (H s Hl Hd) as (a & s1 & L1 & E & Hl1 & HQ).
  destruct (HQ s1 Hl1 eq_refl) as (b & s2 & L2 & E2 & ?). exists b, s2, L2.
  split; [|done]. unfold mbind, M_bind. by rewrite E.
Qed.

(** The calls of a sequence can be grouped. *)
Lemma po_group {A B C} (m : M A) (f : A -> M B) (g : B -> M C) L d (Q : C -> list lockptr -> kdata -> Prop) :
  posts l0 L d ((m ≫= f) ≫= g) Q -> posts l0 L d (m ≫= fun a => f a ≫= g) Q.
Proof.
  intros H s Hl Hd. destruct (H s Hl Hd) as (c & s' & L' & E & HQ). exists c, s', L'. split; [|done].
  unfold mbind, M_bind in *. destruct (m s); cbn in *; try done.
Qed.

Lemma po_ungroup {A B C} (m : M A) (f : A -> M B) (g : B -> M C) L d (Q : C -> list lockptr -> kdata -> Prop) :
  posts l0 L d (m ≫= fun a => f a ≫= g) Q -> posts l0 L d ((m ≫= f) ≫= g) Q.
Proof.
  intros H s Hl Hd. destruct (H s Hl Hd) as (c & s' & L' & E & HQ). exists c, s', L'. split; [|done].
  unfold mbind, M_bind in *. destruct (m s); cbn in *; try done.
Qed.

Lemma po_bind_panic {A B} (m : M A) (f : A -> M B) L d msg (R : A -> kdata -> Prop) :
  pst l0 L d m R -> (forall a d', R a d' -> evals_panic l0 L d' (f a) msg) ->
  evals_panic l0 L d (m ≫= f) msg.
Proof.
  intros H1 H2 s Hl Hd. destruct (H1 s Hl Hd) as (a & s' & L' & E & Hl' & -> & HR).
  unfold mbind, M_bind. rewrite E. by apply (H2 a (dat s')).
Qed.

Lemma po_getd {A} (f : kdata -> A) L d (Q : A -> list lockptr -> kdata -> Prop) :
  Q (f d) L d -> posts l0 L d (getd f) Q.
Proof. apply po_evals, ev_getd. Qed.

Lemma po_modd f L d (Q : unit -> list lockptr -> kdata -> Prop) :
  Q tt L (f d) -> posts l0 L d (modd f) Q.
Proof. apply po_evals, ev_modd. Qed.

Lemma po_deref {A} (a : A) L d (Q : A -> list lockptr -> kdata -> Prop) :
  Q a L d -> posts l0 L d (deref (Some a)) Q.
Proof. apply po_evals, ev_deref. Qed.

Lemma po_acquire lk L d (Q : unit -> list lockptr -> kdata -> Prop) :
  lk ∉ L -> lfree l0 lk -> Q tt (lk :: L) d -> posts l0 L d (acquire lk) Q.
Proof. intros ??. by apply po_evals, ev_acquire. Qed.

Lemma po_release lk L L' d (Q : unit -> list lockptr -> kdata -> Prop) :
  L ≡ₚ lk :: L' -> Q tt L' d -> posts l0 L d (release lk) Q.
Proof. intros ?. by apply po_evals, ev_release. Qed.

Lemma po_mykthread L d (Q : option kptr -> list lockptr -> kdata -> Prop) :
  Q (running l0) L d -> posts l0 L d mykthread Q.
Proof. apply po_evals, ev_mykthread. Qed.

Lemma po_myproc L d p kt (Q : option nat -> list lockptr -> kdata -> Prop) :
  running l0 = Some kt -> (the_kt d kt).(kt_process) = Some p -> Q (Some p) L d ->
  posts l0 L d myproc Q.
Proof. intros ??. by eapply po_evals, ev_myproc. Qed.

Lemma po_when (b : bool) (m : M unit) L d (Q : unit -> list lockptr -> kdata -> Prop) :
  (b = true -> posts l0 L d m Q) -> (b = false -> Q tt L d) -> posts l0 L d (when b m) Q.
Proof. destruct b; intros H1 H2; [by apply H1|]. by apply po_ret, H2. Qed.

(** A loop with an invariant indexed by the elements done. *)
Lemma po_scanM {I R} (f : I -> M (option R)) L (Inv : list I -> kdata -> Prop) (Q : R -> kdata -> Prop) l :
  (forall i l' d, Inv (i :: l') d ->
     pst l0 L d (f i) (fun r d' => match r with Some x => Q x d' | None => Inv l' d' end)) ->
  forall d, Inv l d -> pst l0 L d (scanM l f) (fun r d' => match r with Some x => Q x d' | None => Inv [] d' end).
Proof.
  intros Hf. induction l as [|i l IH]; intros d HI; cbn [scanM]; [by apply po_ret|].
  apply po_bind. eapply po_call; [by apply Hf|]. intros [x|] d' H; [by apply po_ret|]. by apply IH.
Qed.

Lemma po_forM {I} (l : list I) (f : I -> M unit) L (Inv : list I -> kdata -> Prop) d :
  Inv [] d ->
  (forall done i rest d1, l = done ++ i :: rest -> Inv done d1 ->
     pst l0 L d1 (f i) (fun _ d2 => Inv (done ++ [i]) d2)) ->
  pst l0 L d (forM l f) (fun _ d' => Inv l d').
Proof.
  intros H0 Hstep.
  assert (forall rest done d1, l = done ++ rest -> Inv done d1 ->
    pst l0 L d1 (forM rest f) (fun _ d' => Inv l d')) as H.
  { induction rest as [|i rest IH]; intros dn d1 El Hi; cbn [forM].
    - apply po_ret. rewrite app_nil_r in El. by subst.
    - apply po_bind. eapply po_call; [by apply (Hstep dn i rest)|]. intros [] d2 Hi2.
      apply (IH (dn ++ [i])); [by rewrite <- app_assoc|done]. }
  by apply (H l []).
Qed.

(** [evals] is the case of a single possible result. *)
Lemma pst_evals {A} L d (m : M A) a d' :
  evals l0 L d m a L d' -> pst l0 L d m (fun a' d'' => a' = a /\ d'' = d').
Proof. intros H. by eapply po_evals. Qed.
End rules.

(** One step of symbolic evaluation against a postcondition. *)
Ltac po1 :=
  cbn beta iota;
  lazymatch goal with
  | |- pst _ _ _ _ _ => unfold pst
  | |- posts _ _ _ (mret _) _ => apply po_ret
  | |- posts _ _ _ (M_ret _ _) _ => apply po_ret
  | |- posts _ _ _ (_ ≫= _) _ => apply po_bind
  | |- posts _ _ _ (getd _) _ => apply po_getd
  | |- posts _ _ _ (modd _) _ => apply po_modd
  | |- posts _ _ _ (t_get _ _) _ => apply po_getd
  | |- posts _ _ _ (t_set _ _) _ => apply po_modd
  | |- posts _ _ _ (p_get _ _) _ => apply po_getd
  | |- posts _ _ _ (p_set _ _) _ => apply po_modd
  | |- posts _ _ _ (deref (Some _)) _ => apply po_deref
  | |- posts _ _ _ (acquire _) _ => apply po_acquire; [notin|try assumption|]
  | |- posts _ _ _ (release _) _ => eapply po_release; [reflexivity|]
  | |- posts _ _ _ mykthread _ => apply po_mykthread
  end.
Ltac po := repeat po1.

(** ** Wakeups

    [woke d d']: [d'] is [d] in which some sleeping threads have become runnable. *)

Record woke (d d' : kdata) : Prop := {
  wk_rest : d' = d <| procs := d'.(procs) |>;
  wk_proc : forall p, exists f, d'.(procs) p = d.(procs) p <| p_kthread := f |>;
  wk_kt : forall kt, the_kt d' kt = the_kt d kt \/
    (the_kt d kt).(kt_state) = SLEEPING_t /\
    the_kt d' kt = the_kt d kt <| kt_state := RUNNABLE_t |>;
}.

#[export] Instance woke_preorder : PreOrder woke.
Proof.
  split.
  - intros d. split; [by destruct d| |by left]. intros p. exists (p_kthread (procs d p)).
    by destruct (procs d p).
  - intros d1 d2 d3 [R1 P1 K1] [R2 P2 K2]. split.
    + rewrite R2, R1. by destruct d1.
    + intros p. destruct (P1 p) as [f1 E1], (P2 p) as [f2 E2]. exists f2. by rewrite E2, E1.
    + intros kt. destruct (K1 kt) as [E1|[S1 E1]], (K2 kt) as [E2|[S2 E2]];
        rewrite E1 in *; [by left|by right|by right|done].
Qed.

Lemma woke_process d d' kt : woke d d' -> (the_kt d' kt).(kt_process) = (the_kt d kt).(kt_process).
Proof. intros [_ _ K]. destruct (K kt) as [->|[_ ->]]; done. Qed.

Lemma woke_pid d d' p : woke d d' -> (d'.(procs) p).(p_pid) = (d.(procs) p).(p_pid).
Proof. intros [_ P _]. by destruct (P p) as [f ->]. Qed.

Lemma woke_kts_map me ch d d' : kts_map (woken me ch) d d' -> woke d d'.
Proof.
  intros [K P R]. split; [done|done|]. intros kt. rewrite K. unfold woken. case_dec; [right|by left].
  tauto.
Qed.

(** Updates of anything but the processes commute with wakeups. *)
Lemma woke_upd (f : kdata -> kdata) d d' :
  (forall x P, f (x <| procs := P |>) = f x <| procs := P |>) -> (forall x, (f x).(procs) = x.(procs)) ->
  woke d d' -> woke (f d) (f d').
Proof.
  intros Hc Hp [R P K]. split.
  - rewrite Hp. rewrite R at 1. by rewrite Hc.
  - intros p. by rewrite !Hp.
  - intros kt. unfold the_kt in *. by rewrite !Hp.
Qed.

(** The thread locks are free for [wakeup]. *)
Definition tlocks_free (l0 : lockst) (L : list lockptr) : Prop :=
  forall kt, valid_kt kt -> Some kt <> running l0 -> (t_lock kt ∉ L) /\ lfree l0 (t_lock kt).

Lemma po_wakeup l0 L d ch (Q : unit -> list lockptr -> kdata -> Prop) :
  tlocks_free l0 L -> (forall d', woke d d' -> Q tt L d') -> posts l0 L d (wakeup ch) Q.
Proof.
  intros Hf HQ. destruct (ev_wakeup l0 L d ch Hf) as (d' & Hev & Hk).
  eapply po_evals; [exact Hev|]. by eapply HQ, woke_kts_map.
Qed.

(** ** Effects on the file system state

    [fsame d d']: nothing has changed but buffers, log and devices, and threads
    that were woken. *)
Definition fsame (d d' : kdata) : Prop :=
  woke (d <| bufs := d'.(bufs) |> <| klog := d'.(klog) |> <| hw := d'.(hw) |>) d'.

#[export] Instance fsame_preorder : PreOrder fsame.
Proof.
  split.
  - intros d. unfold fsame. by destruct d.
  - intros d1 d2 d3 H1 H2. unfold fsame in *.
    apply (woke_upd (fun x => x <| bufs := d3.(bufs) |> <| klog := d3.(klog) |> <| hw := d3.(hw) |>))
      in H1; [|done..]. by etrans.
Qed.

Lemma woke_fsame d d' : woke d d' -> fsame d d'.
Proof.
  intros H. unfold fsame. replace (d <| bufs := _ |> <| klog := _ |> <| hw := _ |>) with d; [done|].
  rewrite (wk_rest _ _ H). by destruct d.
Qed.

(** The fields that [fsame] and [woke] keep. *)
Lemma fsame_upd (f : kdata -> kdata) d :
  f d = d <| bufs := (f d).(bufs) |> <| klog := (f d).(klog) |> <| hw := (f d).(hw) |> ->
  fsame d (f d).
Proof. intros E. unfold fsame. by rewrite <- E. Qed.

Lemma fsame_process d d' kt :
  fsame d d' -> (the_kt d' kt).(kt_process) = (the_kt d kt).(kt_process).
Proof. intros H. by rewrite (woke_process _ _ _ H). Qed.

Lemma fsame_pid d d' p : fsame d d' -> (d'.(procs) p).(p_pid) = (d.(procs) p).(p_pid).
Proof. intros H. by rewrite (woke_pid _ _ _ H). Qed.

Lemma fsame_sb d d' : fsame d d' -> d'.(sb) = d.(sb).
Proof. intros H. by rewrite (wk_rest _ _ H). Qed.

Lemma tlocks_free_cons l0 L lk :
  (forall kt, lk <> t_lock kt) -> tlocks_free l0 L -> tlocks_free l0 (lk :: L).
Proof.
  intros Hn Hf kt Hv Hr. destruct (Hf kt Hv Hr) as [Hk Hl]. split; [|done].
  apply not_elem_of_cons. split; [by intros E; apply (Hn kt)|done].
Qed.
