(* ===== verification/SleeplockSpec.v ===== *)
(** * What kernel/sleeplock.c guarantees *)
From S2P Require Export Post Sleeplock.

(** The fields of a sleep lock held by process [pid], and of a free one. *)
Definition sl_taken (pid : Z) (x : sleeplock) : sleeplock :=
  x <| sl_locked := 1 |> <| sl_pid := pid |>.
Definition sl_freed (x : sleeplock) : sleeplock := x <| sl_locked := 0 |> <| sl_pid := 0 |>.

Lemma the_slock_upd l l' f d :
  the_slock (upd_slock l f d) l' = if decide (l = l') then f (the_slock d l) else the_slock d l'.
Proof.
  destruct l as [b|i], l' as [b'|i']; cbn; rewrite ?fn_alter_case; repeat case_dec; subst;
    try congruence; done.
Qed.

Lemma upd_slock_procs l f d : (upd_slock l f d).(procs) = d.(procs).
Proof. by destruct l. Qed.

Lemma the_kt_upd_slock l f d kt : the_kt (upd_slock l f d) kt = the_kt d kt.
Proof. unfold the_kt. by rewrite upd_slock_procs. Qed.

(** The state in which the calling process [p] has taken the lock, and in which
    the lock is free again. *)
Definition take_d (lk : slptr) (pid : Z) (d : kdata) : kdata :=
  upd_slock lk (fun x => x <| sl_pid := pid |>) (upd_slock lk (fun x => x <| sl_locked := 1 |>) d).
Definition free_d (lk : slptr) (d : kdata) : kdata :=
  upd_slock lk (fun x => x <| sl_pid := 0 |>) (upd_slock lk (fun x => x <| sl_locked := 0 |>) d).

Lemma the_slock_take lk pid d lk' :
  the_slock (take_d lk pid d) lk' =
    if decide (lk = lk') then sl_taken pid (the_slock d lk) else the_slock d lk'.
Proof. unfold take_d. rewrite !the_slock_upd. repeat case_dec; congruence || done. Qed.

Lemma the_slock_free lk d lk' :
  the_slock (free_d lk d) lk' =
    if decide (lk = lk') then sl_freed (the_slock d lk) else the_slock d lk'.
Proof. unfold free_d. rewrite !the_slock_upd. repeat case_dec; congruence || done. Qed.

Section eval.
Context `{WF : WaitFuel} (l0 : lockst) (L : list lockptr) (kt : kptr) (p : nat).
Hypothesis Hrun : running l0 = Some kt.

Lemma ev_mypid d :
  (the_kt d kt).(kt_process) = Some p -> evals l0 L d mypid (d.(procs) p).(p_pid) L d.
Proof.
  intros Hp. unfold mypid. ev1. { by eapply ev_myproc. } cbn beta. ev1. { ev1. } apply ev_p_get.
Qed.

Context (lk : slptr).
Hypothesis Hlk : sl_lk lk ∉ L.
Hypothesis Hfree : lfree l0 (sl_lk lk).

Lemma ev_acquiresleep d :
  (the_kt d kt).(kt_process) = Some p -> (the_slock d lk).(sl_locked) = 0 ->
  evals l0 L d (acquiresleep lk) tt L (take_d lk (d.(procs) p).(p_pid) d).
Proof.
  intros Hp H0. unfold acquiresleep. ev1. { ev1. } cbn beta. ev1.
  { destruct wait_fuel; cbn [acquiresleep_wait]; (ev1; [ev1|]); cbn beta; rewrite H0; cbn; ev1. }
  cbn beta. ev1. { ev1. } cbn beta. ev1.
  { unfold mypid. ev1. { eapply ev_myproc; [done|]. by rewrite the_kt_upd_slock. } cbn beta.
    ev1. { ev1. } apply ev_p_get. }
  cbn beta. rewrite upd_slock_procs. ev1. { ev1. } cbn beta. ev1.
Qed.

(** A lock that is taken: the thread goes to sleep on it. *)
Lemma ev_acquiresleep_held d :
  L = [] -> (cur_cpu l0).(c_noff) = 0 -> lfree l0 (t_lock kt) ->
  (the_slock d lk).(sl_locked) <> 0 ->
  evals_swtch l0 L d (acquiresleep lk) [t_lock kt] (asleep_d kt (chan_sleeplock lk) d) (fun _ => True).
Proof.
  intros -> Hn Hf Hl. unfold acquiresleep.
  eapply ev_bind_swtch; [by ev1|]. cbn beta. apply ev_swtch_bind.
  assert (ctrue (the_slock d lk).(sl_locked) = true) as C by by apply ctrue_true.
  destruct wait_fuel; cbn [acquiresleep_wait]; (eapply ev_bind_swtch; [ev1|]); cbn beta;
    rewrite C; apply ev_swtch_bind; intros s Hs Hd;
    destruct (ev_sleep l0 kt (chan_sleeplock lk) (sl_lk lk) d Hrun Hn ltac:(done) Hf s Hs Hd)
      as (s' & k & E & ? & ? & _); by exists s', k.
Qed.

Lemma ev_holdingsleep d :
  (the_kt d kt).(kt_process) = Some p ->
  evals l0 L d (holdingsleep lk)
    (cbool (ctrue (the_slock d lk).(sl_locked) && ((the_slock d lk).(sl_pid) =? (d.(procs) p).(p_pid))))
    L d.
Proof.
  intros Hp. unfold holdingsleep. ev1. { ev1. } cbn beta. ev1. { ev1. } cbn beta.
  destruct (ctrue (the_slock d lk).(sl_locked)); cbn [andb].
  - ev1. { ev1. { unfold mypid. ev1. { by eapply ev_myproc. } cbn beta. ev1. { ev1. } apply ev_p_get. }
      cbn beta. ev1. }
    cbn beta. ev1. { ev1. } cbn beta. ev1.
  - ev1. { ev1. } cbn beta. ev1. { ev1. } cbn beta. ev1.
Qed.

Lemma po_releasesleep d (Q : unit -> list lockptr -> kdata -> Prop) :
  tlocks_free l0 L -> (forall d', woke (free_d lk d) d' -> Q tt L d') ->
  posts l0 L d (releasesleep lk) Q.
Proof.
  intros Ht HQ. unfold releasesleep. po. apply po_wakeup.
  { by apply tlocks_free_cons. }
  intros d' Hw. po. apply HQ. exact Hw.
Qed.
End eval.
