(* ===== verification/Uart.v ===== *)
(** * The UART and the interrupt controller (kernel/uart.c, kernel/plic.c)

    The 16550a UART is seen through its registers.  [hw_uart_in] holds the bytes
    waiting to be received, [hw_uart_out] the bytes sent so far (latest first) and
    [hw_uart_idle] the successive answers of the device to "can you take another
    byte?"; once these are used up the device is always idle. *)
From S2P Require Export Sleeplock.

Definition upd_hw (f : hardware -> hardware) (d : kdata) : kdata := d <| hw ::= f |>.

(** ** Registers *)

Definition RHR : Z := 0.
Definition THR : Z := 0.
Definition IER : Z := 1.
Definition IER_RX_ENABLE : Z := Z.shiftl 1 0.
Definition IER_TX_ENABLE : Z := Z.shiftl 1 1.
Definition FCR : Z := 2.
Definition FCR_FIFO_ENABLE : Z := Z.shiftl 1 0.
Definition FCR_FIFO_CLEAR : Z := Z.shiftl 3 1.
Definition LCR : Z := 3.
Definition LCR_EIGHT_BITS : Z := Z.shiftl 3 0.
Definition LCR_BAUD_LATCH : Z := Z.shiftl 1 7.
Definition LSR : Z := 5.
Definition LSR_TX_IDLE : Z := Z.shiftl 1 5.

Definition hw_idle (h : hardware) : bool :=
  match h.(hw_uart_idle) with [] => true | b :: _ => b end.
Definition lsr_bits (h : hardware) : Z :=
  Z.lor (match h.(hw_uart_in) with [] => 0 | _ => 1 end)
        (if hw_idle h then LSR_TX_IDLE else 0).

(** Reading [RHR] takes the next received byte; reading [LSR] consumes one answer
    of the device. *)
Definition ReadReg (reg : Z) : M Z :=
  if reg =? RHR then
    c ← getd (fun d => hd 0 d.(hw).(hw_uart_in));
    modd (upd_hw (fun h => h <| hw_uart_in ::= tail |>));;
    mret c
  else if reg =? LSR then
    x ← getd (fun d => lsr_bits d.(hw));
    modd (upd_hw (fun h => h <| hw_uart_idle ::= tail |>));;
    mret x
  else getd (fun d => d.(hw).(hw_uart_reg) reg).

(** While the baud latch is set, registers 0 and 1 are the divisor. *)
Definition write_reg (reg v : Z) (h : hardware) : hardware :=
  if Z.testbit (h.(hw_uart_reg) LCR) 7 && (reg <? 2) then
    h <| hw_uart_reg ::= <[8 + reg := u8 v]> |>
  else if reg =? THR then h <| hw_uart_out ::= (fun l => u8 v :: l) |>
  else h <| hw_uart_reg ::= <[reg := u8 v]> |>.
Definition WriteReg (reg v : Z) : M unit := modd (upd_hw (write_reg reg v)).

(** ** uart.c *)

Definition UART_TX_BUF_SIZE : Z := 32.

Definition tx_set (f : uart_tx -> uart_tx) : M unit := modd (fun d => d <| uart ::= f |>).

Definition uartinit : M unit :=
  WriteReg IER 0x00;;
  WriteReg LCR LCR_BAUD_LATCH;;
  WriteReg 0 0x03;;
  WriteReg 1 0x00;;
  WriteReg LCR LCR_EIGHT_BITS;;
  WriteReg FCR (Z.lor FCR_FIFO_ENABLE FCR_FIFO_CLEAR);;
  WriteReg IER (Z.lor IER_TX_ENABLE IER_RX_ENABLE);;
  initlock uart_tx_lock "uart".

(** The loop of [uartstart] sends one byte per round. *)
Fixpoint uartstart_loop (fuel : nat) : M unit :=
  u ← getd uart;
  if u.(tx_w) =? u.(tx_r) then mret tt else
  lsr ← ReadReg LSR;
  if Z.land lsr LSR_TX_IDLE =? 0 then mret tt else
  match fuel with
  | O => diverge
  | S fuel =>
      u ← getd uart;
      let c := u.(tx_buf) (u.(tx_r) mod UART_TX_BUF_SIZE) in
      tx_set (fun u => u <| tx_r ::= fun n => u64 (n + 1) |>);;
      wakeup (Some chan_uart_tx_r);;
      WriteReg THR c;;
      uartstart_loop fuel
  end.

Definition uartstart : M unit :=
  u ← getd uart;
  uartstart_loop (Z.to_nat (u64 (u.(tx_w) - u.(tx_r)))).

Section uartputc.
Context `{WF : WaitFuel}.

Fixpoint uartputc_wait (fuel : nat) : M unit :=
  u ← getd uart;
  if u.(tx_w) =? u64 (u.(tx_r) + UART_TX_BUF_SIZE) then
    sleep chan_uart_tx_r uart_tx_lock;;
    match fuel with
    | O => diverge
    | S fuel => uartputc_wait fuel
    end
  else mret tt.

Definition uartputc (c : Z) : M unit :=
  acquire uart_tx_lock;;
  pan ← getd panicked;
  if ctrue pan then diverge else
  uartputc_wait wait_fuel;;
  tx_set (fun u => u <| tx_buf ::= <[u.(tx_w) mod UART_TX_BUF_SIZE := u8 c]> |>);;
  tx_set (fun u => u <| tx_w ::= fun n => u64 (n + 1) |>);;
  uartstart;;
  release uart_tx_lock.
End uartputc.

(** Spin until the transmitter is idle: at most one round per pending answer. *)
Fixpoint uart_spin (fuel : nat) : M unit :=
  lsr ← ReadReg LSR;
  if Z.land lsr LSR_TX_IDLE =? 0 then
    match fuel with O => diverge | S fuel => uart_spin fuel end
  else mret tt.

Definition uartputc_sync (c : Z) : M unit :=
  push_off;;
  pan ← getd panicked;
  if ctrue pan then diverge else
  n ← getd (fun d => length d.(hw).(hw_uart_idle));
  uart_spin n;;
  WriteReg THR c;;
  pop_off.

Definition uartgetc : M Z :=
  lsr ← ReadReg LSR;
  if ctrue (Z.land lsr 0x01) then ReadReg RHR else mret (-1).

(** ** plic.c *)

Definition PLIC_SENABLE (hart : Z) : Z := PLIC + 0x2080 + hart * 0x100.
Definition PLIC_SPRIORITY (hart : Z) : Z := PLIC + 0x201000 + hart * 0x2000.
Definition PLIC_SCLAIM (hart : Z) : Z := PLIC + 0x201004 + hart * 0x2000.

Definition plic_write (a v : Z) : M unit :=
  modd (upd_hw (fun h => h <| hw_plic_reg ::= <[a := u32 v]> |>)).

Definition plicinit : M unit :=
  plic_write (PLIC + UART0_IRQ * 4) 1;;
  plic_write (PLIC + VIRTIO0_IRQ * 4) 1.

Definition plicinithart : M unit :=
  hart ← cpuid;
  plic_write (PLIC_SENABLE (Z.of_nat hart))
    (Z.lor (Z.shiftl 1 UART0_IRQ) (Z.shiftl 1 VIRTIO0_IRQ));;
  plic_write (PLIC_SPRIORITY (Z.of_nat hart)) 0.

(** Reading the claim register takes the next pending interrupt (0: none). *)
Definition plic_claim : M Z :=
  _ ← cpuid;
  irq ← getd (fun d => hd 0 d.(hw).(hw_plic));
  modd (upd_hw (fun h => h <| hw_plic ::= tail |>));;
  mret (s32 irq).

Definition plic_complete (irq : Z) : M unit :=
  hart ← cpuid;
  plic_write (PLIC_SCLAIM (Z.of_nat hart)) irq.
