(* ===== verification/Console.v ===== *)
(** * The console and kernel printf (kernel/console.c, kernel/printf.c)

    Also [uartintr] of uart.c, which calls the console, and [procdump] of proc.c,
    which the console calls.  [char] is unsigned on RISC-V. *)
From S2P Require Export Uart.

(** ** Sending one character *)

Definition BACKSPACE : Z := 0x100.
Definition C_ (x : Z) : Z := x - 0x40.

Definition consputc (c : Z) : M unit :=
  if c =? BACKSPACE then uartputc_sync 8;; uartputc_sync 32;; uartputc_sync 8
  else uartputc_sync c.

(** ** printf.c *)

Definition digit (x : Z) : Z := nth (Z.to_nat x) (chars "0123456789abcdef") 0.

(** The do-while loop: the digits in the order they are stored in [buf]. *)
Fixpoint printint_digits (fuel : nat) (x base : Z) : list Z :=
  let c := digit (x mod base) in
  let x := x / base in
  match fuel with
  | O => [c]
  | S fuel => c :: (if negb (x =? 0) then printint_digits fuel x base else [])
  end.

(** The contents of [buf] before it is printed backwards.  32 rounds are enough
    for a 32-bit number in base 2 or more. *)
Definition printint_buf (xx base : Z) (sign : bool) : list Z :=
  let sign := sign && (xx <? 0) in
  let x := if sign then u32 (- xx) else u32 xx in
  printint_digits 32 x base ++ (if sign then [45] else []).

Definition printint (xx base : Z) (sign : bool) : M unit :=
  forM (rev (printint_buf xx base sign)) consputc.

Definition printptr (x : Z) : M unit :=
  consputc 48;;
  consputc 120;;
  forM (seqZ 0 16) (fun i => consputc (digit (Z.shiftr (u64 (Z.shiftl x (4 * i))) 60))).

(** The arguments of [printf]. *)
Inductive va := va_int (x : Z) | va_ptr (x : Z) | va_str (s : option (list Z)).

(** The loop over [fmt]; [ap] holds the arguments not yet used.  Taking an
    argument that was not passed is undefined behaviour. *)
Fixpoint printf_loop (fmt : list Z) (ap : list va) : M unit :=
  match fmt with
  | [] => mret tt
  | c :: fmt =>
      if negb (c =? 37) then consputc c;; printf_loop fmt ap else
      match fmt with
      | [] => mret tt
      | c :: fmt =>
          if c =? 100 then
            match ap with
            | va_int x :: ap => printint x 10 true;; printf_loop fmt ap
            | _ => fault
            end
          else if c =? 120 then
            match ap with
            | va_int x :: ap => printint x 16 true;; printf_loop fmt ap
            | _ => fault
            end
          else if c =? 112 then
            match ap with
            | va_ptr x :: ap => printptr x;; printf_loop fmt ap
            | _ => fault
            end
          else if c =? 115 then
            match ap with
            | va_str s :: ap =>
                forM (default (chars "(null)") s) consputc;; printf_loop fmt ap
            | _ => fault
            end
          else if c =? 37 then consputc 37;; printf_loop fmt ap
          else consputc 37;; consputc c;; printf_loop fmt ap
      end
  end.

Definition printf (fmt : string) (ap : list va) : M unit :=
  locking ← getd pr_locking;
  when (ctrue locking) (acquire pr_lock);;
  printf_loop (chars fmt) ap;;
  when (ctrue locking) (release pr_lock).

Definition printfinit : M unit :=
  initlock pr_lock "pr";;
  modd (fun d => d <| pr_locking := 1 |>).

(** What [panic] does before it stops the machine (the model's outcome [Panic]
    stands for the loop it ends in). *)
Definition panic_prints (s : string) : M unit :=
  modd (fun d => d <| pr_locking := 0 |>);;
  printf "panic: " [];;
  printf s [];;
  printf nl [];;
  modd (fun d => d <| panicked := 1 |>).

(** ** procdump of proc.c *)

Definition state_name (s : procstate) : string :=
  match s with UNUSED => "unused" | USED => "used" | ZOMBIE => "zombie" end.

Definition procdump : M unit :=
  printf nl [];;
  forM all_procs (fun p =>
    x ← p_get p id;
    when (negb (bool_decide (x.(p_state) = UNUSED)))
      (printf "%d %s %s" [va_int x.(p_pid); va_str (Some (chars (state_name x.(p_state))));
                          va_str (Some (cstr 16 x.(p_name) 0))];;
       printf nl [])).

(** ** console.c *)

Definition INPUT_BUF_SIZE : Z := 128.
Definition cons_set (f : console -> console) : M unit := modd (fun d => d <| cons ::= f |>).

Section console.
Context `{KI : KernelImage} `{WF : WaitFuel}.

(** The loop over [i]; [sm] is the object [src] points into, if it is one. *)
Fixpoint consolewrite_loop (m : nat) (src : cptr) (sm : bytes) (i : Z) : M Z :=
  match m with
  | O => mret i
  | S m =>
      r ← either_copyin (fun _ => 0) 0 (cptr_add src i) sm 1;
      if r.1 =? -1 then mret i else
      uartputc (r.2 0);;
      consolewrite_loop m src sm (i + 1)
  end.
Definition consolewrite (src : cptr) (sm : bytes) (n : Z) : M Z :=
  consolewrite_loop (Z.to_nat n) src sm 0.

(** Wait for input; [None]: the process was killed. *)
Fixpoint consoleread_wait (fuel : nat) : M (option unit) :=
  c ← getd cons;
  if c.(cons_r) =? c.(cons_w) then
    p ← myproc;
    p ← deref p;
    k ← killed p;
    if ctrue k then mret None else
    sleep chan_cons_r cons_lock;;
    match fuel with
    | O => diverge
    | S fuel => consoleread_wait fuel
    end
  else mret (Some tt).

(** The outer loop: [n] bytes are still wanted, [dm] is the object [dst] points
    into.  [None]: killed while waiting. *)
Fixpoint consoleread_loop (n : nat) (target : Z) (dst : cptr) (dm : bytes)
    : M (option (Z * bytes)) :=
  match n with
  | O => mret (Some (0, dm))
  | S n' =>
      w ← consoleread_wait wait_fuel;
      match w with
      | None => mret None
      | Some _ =>
          x ← getd cons;
          let c := x.(cons_buf) (x.(cons_r) mod INPUT_BUF_SIZE) in
          cons_set (fun x => x <| cons_r ::= fun r => u32 (r + 1) |>);;
          if c =? C_ 0x44 then
            when (Z.of_nat n <? target)
              (cons_set (fun x => x <| cons_r ::= fun r => u32 (r - 1) |>));;
            mret (Some (Z.of_nat n, dm))
          else
            r ← either_copyout dst dm (fun _ => c) 0 1;
            if r.1 =? -1 then mret (Some (Z.of_nat n, r.2)) else
            if c =? 10 then mret (Some (Z.of_nat n', r.2)) else
            consoleread_loop n' target (cptr_add dst 1) r.2
      end
  end.

Definition consoleread (dst : cptr) (dm : bytes) (n : Z) : M (Z * bytes) :=
  let target := u32 n in
  acquire cons_lock;;
  r ← consoleread_loop (Z.to_nat n) target dst dm;
  match r with
  | None => release cons_lock;; mret (-1, dm)
  | Some (rest, dm) =>
      release cons_lock;;
      mret (s32 (target - (if 0 <? n then rest else n)), dm)
  end.
End console.

(** The loop of Control-U. *)
Fixpoint kill_line (fuel : nat) : M unit :=
  x ← getd cons;
  if negb (x.(cons_e) =? x.(cons_w)) &&
     negb (x.(cons_buf) (u32 (x.(cons_e) - 1) mod INPUT_BUF_SIZE) =? 10)
  then
    match fuel with
    | O => diverge
    | S fuel =>
        cons_set (fun x => x <| cons_e ::= fun e => u32 (e - 1) |>);;
        consputc BACKSPACE;;
        kill_line fuel
    end
  else mret tt.

Definition consoleintr (c : Z) : M unit :=
  acquire cons_lock;;
  (if c =? C_ 0x50 then procdump
   else if c =? C_ 0x55 then
     x ← getd cons;
     kill_line (Z.to_nat (u32 (x.(cons_e) - x.(cons_w))))
   else if (c =? C_ 0x48) || (c =? 0x7f) then
     x ← getd cons;
     when (negb (x.(cons_e) =? x.(cons_w)))
       (cons_set (fun x => x <| cons_e ::= fun e => u32 (e - 1) |>);;
        consputc BACKSPACE)
   else
     x ← getd cons;
     when (ctrue c && (u32 (x.(cons_e) - x.(cons_r)) <? INPUT_BUF_SIZE))
       (let c := if c =? 13 then 10 else c in
        consputc c;;
        cons_set (fun x => x <| cons_buf ::= <[x.(cons_e) mod INPUT_BUF_SIZE := u8 c]> |>);;
        cons_set (fun x => x <| cons_e ::= fun e => u32 (e + 1) |>);;
        x ← getd cons;
        when ((c =? 10) || (c =? C_ 0x44) ||
              (u32 (x.(cons_e) - x.(cons_r)) =? INPUT_BUF_SIZE))
          (cons_set (fun x => x <| cons_w := x.(cons_e) |>);;
           wakeup (Some chan_cons_r))));;
  release cons_lock.

Definition CONSOLE : Z := 1.

Definition consoleinit : M unit :=
  initlock cons_lock "cons";;
  uartinit;;
  modd (fun d => d <| devsw ::= <[CONSOLE := dev_console]> |>).

(** ** uartintr of uart.c: one round per received byte *)

Fixpoint uartintr_loop (fuel : nat) : M unit :=
  c ← uartgetc;
  if c =? -1 then mret tt else
  match fuel with
  | O => diverge
  | S fuel => consoleintr c;; uartintr_loop fuel
  end.

Definition uartintr : M unit :=
  n ← getd (fun d => length d.(hw).(hw_uart_in));
  uartintr_loop n;;
  acquire uart_tx_lock;;
  uartstart;;
  release uart_tx_lock.
