(* ===== verification/Bio.v ===== *)
(** * The buffer cache (kernel/bio.c)

    [bufs b] for [b < NBUF] is [bcache.buf[b]]; [bufs NBUF] is [bcache.head].  The
    disk driver is an interface: [DiskDriver] is the operation [virtio_disk_rw],
    [DiskDriverOk] what bio.c relies on. *)
From S2P Require Export Sleeplock.

Definition BSIZE : Z := 1024.

(** [virtio_disk_rw(b, write)]. *)
Class DiskDriver := disk_rw : nat -> bool -> M unit.

(** What bio.c relies on: a call that returns has moved one block between the
    buffer and the disk; the disk is written one block at a time, in the order of
    the calls. *)
Class DiskDriverOk `{DD : DiskDriver} := {
  disk_read_ok : forall l0 L d b, vdisk_lock ∉ L -> lfree l0 vdisk_lock ->
    evals l0 L d (disk_rw b false) tt L
      (upd_buf b (fun x => x <| b_data := d.(hw).(hw_disk) x.(b_blockno) |>) d);
  disk_write_ok : forall l0 L d b, vdisk_lock ∉ L -> lfree l0 vdisk_lock ->
    evals l0 L d (disk_rw b true) tt L
      (let x := d.(bufs) b in
       d <| hw ::= fun h =>
         h <| hw_disk ::= <[x.(b_blockno) := x.(b_data)]> |>
           <| hw_writes ::= fun w => (x.(b_blockno), x.(b_data)) :: w |> |>);
}.

Definition bhead : nat := NBUF.

Section bio.
Context `{WF : WaitFuel} `{DD : DiskDriver}.

Definition b_get {A} (b : nat) (f : buf -> A) : M A := getd (fun d => f (d.(bufs) b)).
Definition b_set (b : nat) (f : buf -> buf) : M unit := modd (upd_buf b f).

Definition binit : M unit :=
  initlock bcache_lock "bcache";;
  b_set bhead (fun x => x <| b_prev := bhead |>);;
  b_set bhead (fun x => x <| b_next := bhead |>);;
  forM (seq 0 NBUF) (fun b =>
    first ← b_get bhead b_next;
    b_set b (fun x => x <| b_next := first |>);;
    b_set b (fun x => x <| b_prev := bhead |>);;
    initsleeplock (buf_slock b) "buffer";;
    first ← b_get bhead b_next;
    b_set first (fun x => x <| b_prev := b |>);;
    b_set bhead (fun x => x <| b_next := b |>)).

(** The two scans of [bget]; the list has at most [NBUF] elements. *)
Fixpoint bget_cached (fuel : nat) (b : nat) (dev blockno : Z) : M (option nat) :=
  if decide (b = bhead) then mret None else
  match fuel with
  | O => diverge
  | S fuel =>
      x ← b_get b id;
      if (x.(b_dev) =? dev) && (x.(b_blockno) =? blockno) then mret (Some b)
      else bget_cached fuel x.(b_next) dev blockno
  end.

Fixpoint bget_unused (fuel : nat) (b : nat) : M (option nat) :=
  if decide (b = bhead) then mret None else
  match fuel with
  | O => diverge
  | S fuel =>
      x ← b_get b id;
      if x.(b_refcnt) =? 0 then mret (Some b) else bget_unused fuel x.(b_prev)
  end.

Definition bget (dev blockno : Z) : M nat :=
  acquire bcache_lock;;
  first ← b_get bhead b_next;
  c ← bget_cached NBUF first dev blockno;
  match c with
  | Some b =>
      b_set b (fun x => x <| b_refcnt ::= fun n => u32 (n + 1) |>);;
      release bcache_lock;;
      acquiresleep (buf_slock b);;
      mret b
  | None =>
      last ← b_get bhead b_prev;
      u ← bget_unused NBUF last;
      match u with
      | Some b =>
          b_set b (fun x => x <| b_dev := dev |>);;
          b_set b (fun x => x <| b_blockno := blockno |>);;
          b_set b (fun x => x <| b_valid := 0 |>);;
          b_set b (fun x => x <| b_refcnt := 1 |>);;
          release bcache_lock;;
          acquiresleep (buf_slock b);;
          mret b
      | None => panic "bget: no buffers"
      end
  end.

Definition bread (dev blockno : Z) : M nat :=
  b ← bget dev blockno;
  valid ← b_get b b_valid;
  when (negb (ctrue valid))
    (disk_rw b false;;
     b_set b (fun x => x <| b_valid := 1 |>));;
  mret b.

Definition bwrite (b : nat) : M unit :=
  h ← holdingsleep (buf_slock b);
  if negb (ctrue h) then panic "bwrite" else
  disk_rw b true.

Definition brelse (b : nat) : M unit :=
  h ← holdingsleep (buf_slock b);
  if negb (ctrue h) then panic "brelse" else
  releasesleep (buf_slock b);;
  acquire bcache_lock;;
  b_set b (fun x => x <| b_refcnt ::= fun n => u32 (n - 1) |>);;
  refcnt ← b_get b b_refcnt;
  when (refcnt =? 0)
    (next ← b_get b b_next;
     prev ← b_get b b_prev;
     b_set next (fun x => x <| b_prev := prev |>);;
     next ← b_get b b_next;
     prev ← b_get b b_prev;
     b_set prev (fun x => x <| b_next := next |>);;
     first ← b_get bhead b_next;
     b_set b (fun x => x <| b_next := first |>);;
     b_set b (fun x => x <| b_prev := bhead |>);;
     first ← b_get bhead b_next;
     b_set first (fun x => x <| b_prev := b |>);;
     b_set bhead (fun x => x <| b_next := b |>));;
  release bcache_lock.

Definition bpin (b : nat) : M unit :=
  acquire bcache_lock;;
  b_set b (fun x => x <| b_refcnt ::= fun n => u32 (n + 1) |>);;
  release bcache_lock.

Definition bunpin (b : nat) : M unit :=
  acquire bcache_lock;;
  b_set b (fun x => x <| b_refcnt ::= fun n => u32 (n - 1) |>);;
  release bcache_lock.
End bio.
