(* ===== verification/BioSpec.v ===== *)
(** * What kernel/bio.c guarantees

    The buffers form a doubly linked list in least-recently-used order; a block is
    cached at most once; an unreferenced buffer is clean.  [bread] returns the
    current contents of the block ([bview]) and no operation of the cache changes
    the contents of any block. *)
From S2P Require Export SleeplockSpec Bio.

(** ** The doubly linked list

    [dll B p l s]: from [p] the [next] pointers lead through [l] to [s], and the
    [prev] pointers lead back. *)

(** Membership in explicit lists. *)
Ltac inl :=
  rewrite ?not_elem_of_app, ?not_elem_of_cons, ?elem_of_app, ?elem_of_cons,
    ?elem_of_nil in *; first [tauto | intuition congruence].

Fixpoint dll (B : nat -> buf) (p : nat) (l : list nat) (s : nat) : Prop :=
  match l with
  | [] => (B p).(b_next) = s /\ (B s).(b_prev) = p
  | b :: l => (B p).(b_next) = b /\ (B b).(b_prev) = p /\ dll B b l s
  end.

Lemma dll_split B p l1 b l2 s : dll B p (l1 ++ b :: l2) s <-> dll B p l1 b /\ dll B b l2 s.
Proof.
  revert p. induction l1 as [|x l1 IH]; intros p; cbn [dll app].
  - tauto.
  - rewrite IH. tauto.
Qed.

Lemma dll_next B p l s : dll B p l s -> (B p).(b_next) = hd s l.
Proof. destruct l; cbn; tauto. Qed.

Lemma last_cons (l : list nat) x p : List.last (x :: l) p = List.last l x.
Proof.
  revert x p. induction l as [|y l IH]; intros x p; [done|].
  change (List.last (y :: l) p = List.last (y :: l) x). by rewrite !IH.
Qed.

Lemma dll_prev B p l s : dll B p l s -> (B s).(b_prev) = List.last l p.
Proof.
  revert p. induction l as [|x l IH]; intros p; cbn [dll]; [tauto|]. intros (_ & _ & H).
  rewrite last_cons. by apply IH.
Qed.

Lemma last_elem_of (l : list nat) p : List.last l p ∈ p :: l.
Proof.
  revert p. induction l as [|x l IH]; intros p; [by left|]. rewrite last_cons. right. apply IH.
Qed.

Lemma dll_ext B B' p l s :
  dll B p l s -> (forall x, x ∈ p :: l -> (B' x).(b_next) = (B x).(b_next)) ->
  (forall x, x ∈ l ++ [s] -> (B' x).(b_prev) = (B x).(b_prev)) -> dll B' p l s.
Proof.
  revert p. induction l as [|x l IH]; intros p H Hn Hp; cbn [dll] in *.
  - by rewrite Hn, Hp by inl.
  - destruct H as (H1 & H2 & H3). rewrite Hn, Hp by inl. do 2 (split; [done|]).
    apply IH; [done|intros; apply Hn; inl|intros; apply Hp; inl].
Qed.

(** Redirect the end of a list, or its beginning. *)
Lemma dll_set_end B B' p l s s' :
  dll B p l s -> NoDup (p :: l) ->
  (forall x, x ∈ p :: l -> x <> List.last l p -> (B' x).(b_next) = (B x).(b_next)) ->
  (B' (List.last l p)).(b_next) = s' ->
  (forall x, x ∈ l -> (B' x).(b_prev) = (B x).(b_prev)) ->
  (B' s').(b_prev) = List.last l p -> dll B' p l s'.
Proof.
  revert p. induction l as [|x l IH]; intros p H Hnd Hn Hs Hp Hs'; cbn [dll].
  - done.
  - destruct H as (H1 & H2 & H3). rewrite last_cons in *. apply NoDup_cons in Hnd as [Hpn Hnd].
    rewrite Hn, Hp by (inl || (intros ->; apply Hpn, last_elem_of)).
    do 2 (split; [done|]). apply IH; try done; intros; [apply Hn|apply Hp]; inl.
Qed.

Lemma dll_set_begin B B' p p' l s :
  dll B p l s -> NoDup (l ++ [s]) ->
  (forall x, x ∈ l -> (B' x).(b_next) = (B x).(b_next)) ->
  (forall x, x ∈ l ++ [s] -> x <> hd s l -> (B' x).(b_prev) = (B x).(b_prev)) ->
  (B' p').(b_next) = hd s l -> (B' (hd s l)).(b_prev) = p' -> dll B' p' l s.
Proof.
  intros H Hnd Hn Hp H1 H2. destruct l as [|x l]; cbn [dll hd] in *; [done|].
  destruct H as (_ & _ & H). do 2 (split; [done|]). eapply dll_ext; [done|exact Hn|].
  intros y Hy. apply Hp; [inl|]. intros ->. cbn in Hnd. by apply NoDup_cons in Hnd as [? _].
Qed.

Lemma dll_join B p l1 l2 s :
  dll B p l1 (hd s l2) -> dll B (List.last l1 p) l2 s -> dll B p (l1 ++ l2) s.
Proof.
  destruct l2 as [|y l2]; cbn [hd]; [by rewrite app_nil_r|]. intros H1 (_ & _ & H2).
  by apply dll_split.
Qed.

(** The pointer updates of [brelse]: take [b] out of the list, put it in front. *)
Definition unlink (b : nat) (B : nat -> buf) : nat -> buf :=
  let B := alter (fun x => x <| b_prev := (B b).(b_prev) |>) (B b).(b_next) B in
  alter (fun x => x <| b_next := (B b).(b_next) |>) (B b).(b_prev) B.
Definition link (b : nat) (B : nat -> buf) : nat -> buf :=
  let B := alter (fun x => x <| b_next := (B bhead).(b_next) |>) b B in
  let B := alter (fun x => x <| b_prev := bhead |>) b B in
  let B := alter (fun x => x <| b_prev := b |>) (B bhead).(b_next) B in
  alter (fun x => x <| b_next := b |>) bhead B.

Lemma hd_elem_of (l : list nat) s : hd s l ∈ l ++ [s].
Proof. destruct l; inl. Qed.

Lemma dll_unlink B l1 b l2 :
  dll B bhead (l1 ++ b :: l2) bhead -> NoDup (bhead :: l1 ++ b :: l2) ->
  dll (unlink b B) bhead (l1 ++ l2) bhead.
Proof.
  intros H Hnd. apply dll_split in H as [H1 H2].
  pose proof (dll_prev _ _ _ _ H1) as Hp. pose proof (dll_next _ _ _ _ H2) as Hn.
  assert ((bhead ∉ l1) /\ bhead <> b /\ (bhead ∉ l2) /\ (b ∉ l1) /\ (b ∉ l2) /\ NoDup l1 /\ NoDup l2 /\
    (forall x, x ∈ l1 -> x ∉ l2)) as (N1 & N2 & N3 & N4 & N5 & D1 & D2 & D12).
  { apply NoDup_cons in Hnd as [Hh Hnd]. apply NoDup_app in Hnd as (? & Hd & Hnd).
    apply NoDup_cons in Hnd as [??]. rewrite not_elem_of_app, not_elem_of_cons in Hh.
    do 3 (split; [tauto|]). split; [intros Hb; apply (Hd b Hb); by left|].
    do 3 (split; [done|]). intros x Hx Hx2. apply (Hd x Hx). by right. }
  pose proof (last_elem_of l1 bhead) as HL. pose proof (hd_elem_of l2 bhead) as HH.
  set (nx := hd bhead l2) in *. set (pv := List.last l1 bhead) in *.
  assert (nx <> b) by (intros E; rewrite E in HH; inl).
  assert (pv <> b) by (intros E; rewrite E in HL; inl).
  assert (nx ∉ l1) by (intros E; pose proof (D12 nx E); destruct (decide (nx = bhead)); inl).
  assert (pv ∉ l2) by (intros E; pose proof (D12 pv); destruct (decide (pv = bhead)); inl).
  unfold unlink. rewrite Hp, Hn. rewrite !(fn_alter_case _ B nx b), decide_False by done. rewrite Hn, Hp.
  apply dll_join.
  - eapply dll_set_end; [exact H1|by constructor|..]; fold pv nx.
    + intros x Hx Hne. rewrite !fn_alter_case. repeat case_dec; subst; done.
    + by rewrite fn_lookup_alter.
    + intros x Hx. rewrite !fn_alter_case. repeat case_dec; subst; try done; inl.
    + rewrite !fn_alter_case. repeat case_dec; subst; done.
  - fold pv. eapply dll_set_begin; [exact H2| |..]; fold nx.
    + apply NoDup_app. split; [done|]. split; [|apply NoDup_singleton].
      intros x Hx. rewrite list_elem_of_singleton. by intros ->.
    + intros x Hx. rewrite !fn_alter_case. repeat case_dec; subst; try done; inl.
    + intros x Hx Hne. rewrite !fn_alter_case. repeat case_dec; subst; done.
    + by rewrite fn_lookup_alter.
    + rewrite !fn_alter_case. repeat case_dec; subst; done.
Qed.

Lemma dll_link B l b :
  dll B bhead l bhead -> NoDup (bhead :: b :: l) -> dll (link b B) bhead (b :: l) bhead.
Proof.
  intros H Hnd. pose proof (dll_next _ _ _ _ H) as Hn.
  apply NoDup_cons in Hnd as [N1 Hnd]. apply NoDup_cons in Hnd as [N2 D].
  pose proof (hd_elem_of l bhead) as HH. set (nx := hd bhead l) in *.
  assert (nx <> b) by (intros E; rewrite E in HH; inl).
  apply not_elem_of_cons in N1 as [N1 N3]. assert (b <> bhead) by congruence.
  unfold link. rewrite !(fn_alter_case _ _ b bhead), !decide_False by done. rewrite Hn.
  cbn [dll]. split; [by rewrite fn_lookup_alter|]. split.
  { rewrite !fn_alter_case. repeat case_dec; subst; done. }
  eapply dll_set_begin; [exact H| |..]; fold nx.
  - apply NoDup_app. split; [done|]. split; [|apply NoDup_singleton].
      intros x Hx. rewrite list_elem_of_singleton. by intros ->.
  - intros x Hx. rewrite !fn_alter_case. repeat case_dec; subst; try done; inl.
  - intros x Hx Hne. rewrite !fn_alter_case. repeat case_dec; subst; try done; inl.
  - rewrite !fn_alter_case. repeat case_dec; subst; done.
  - rewrite !fn_alter_case. repeat case_dec; subst; done.
Qed.

(** Buffers that differ in their pointers only. *)
Record nolink (x y : buf) : Prop := {
  nl_valid : y.(b_valid) = x.(b_valid);
  nl_disk : y.(b_disk) = x.(b_disk);
  nl_dev : y.(b_dev) = x.(b_dev);
  nl_blockno : y.(b_blockno) = x.(b_blockno);
  nl_lock : y.(b_lock) = x.(b_lock);
  nl_refcnt : y.(b_refcnt) = x.(b_refcnt);
  nl_data : y.(b_data) = x.(b_data);
}.

#[export] Instance nolink_preorder : PreOrder nolink.
Proof. split; [by split|]. intros x y z [] []. split; congruence. Qed.

Lemma nolink_alter f a (B : nat -> buf) x y :
  (forall z, nolink z (f z)) -> nolink y (B x) -> nolink y (alter f a B x).
Proof. intros Hf H. etrans; [exact H|]. rewrite fn_alter_case. case_dec; [subst; apply Hf|done]. Qed.

Lemma relink_nolink b B x : nolink (B x) (link b (unlink b B) x).
Proof. unfold link, unlink. do 6 (apply nolink_alter; [by split|]). done. Qed.

(** ** The invariant of the cache *)

Definition matches (d : kdata) (dev blk : Z) (b : nat) : bool :=
  ((d.(bufs) b).(b_dev) =? dev) && ((d.(bufs) b).(b_blockno) =? blk).

Record bio_inv (d : kdata) (order : list nat) : Prop := {
  bi_dll : dll d.(bufs) bhead order bhead;
  bi_perm : order ≡ₚ seq 0 NBUF;
  bi_uniq : forall b b' dev blk, (b < NBUF)%nat -> (b' < NBUF)%nat -> dev <> 0 ->
    matches d dev blk b = true -> matches d dev blk b' = true -> b = b';
  bi_dev : forall b, (b < NBUF)%nat -> (d.(bufs) b).(b_dev) = 0 \/ (d.(bufs) b).(b_dev) = ROOTDEV;
  bi_ref : forall b, (b < NBUF)%nat -> 0 <= (d.(bufs) b).(b_refcnt);
  bi_idle : forall b, (b < NBUF)%nat -> (d.(bufs) b).(b_refcnt) = 0 ->
    (d.(bufs) b).(b_lock).(sl_locked) = 0 /\
    ((d.(bufs) b).(b_valid) <> 0 -> (d.(bufs) b).(b_dev) <> 0 ->
     (d.(bufs) b).(b_data) = d.(hw).(hw_disk) (d.(bufs) b).(b_blockno));
}.

(** The current contents of a block: its buffer's, if it has a valid one, or else
    the disk's. *)
Definition bview (d : kdata) (dev blk : Z) : bytes :=
  match find (fun b => matches d dev blk b && ctrue (d.(bufs) b).(b_valid)) (seq 0 NBUF) with
  | Some b => (d.(bufs) b).(b_data)
  | None => d.(hw).(hw_disk) blk
  end.

Section inv.
Context (d : kdata) (order : list nat).
Hypothesis Hinv : bio_inv d order.

Lemma order_elem b : b ∈ order <-> (b < NBUF)%nat.
Proof. rewrite (bi_perm _ _ Hinv), elem_of_seq. unfold NBUF. lia. Qed.

Lemma order_nodup : NoDup (bhead :: order).
Proof.
  constructor.
  - rewrite order_elem. unfold bhead. lia.
  - rewrite (bi_perm _ _ Hinv). apply NoDup_seq.
Qed.

Lemma order_length : length order = NBUF.
Proof. by rewrite (Permutation_length (bi_perm _ _ Hinv)), length_seq. Qed.

Lemma bview_cached dev blk b :
  dev <> 0 -> (b < NBUF)%nat -> matches d dev blk b = true -> (d.(bufs) b).(b_valid) <> 0 ->
  bview d dev blk = (d.(bufs) b).(b_data).
Proof.
  intros Hd Hb Hm Hv. unfold bview. destruct (find _ _) as [b'|] eqn:E.
  - apply find_some in E as [Hin [Hm' _]%andb_true_iff]. apply in_seq in Hin.
    by rewrite (bi_uniq _ _ Hinv b b' dev blk) by (done || lia).
  - apply (find_none _ _) with (x := b) in E; [|apply in_seq; lia].
    rewrite Hm in E. cbn in E. by apply ctrue_false in E.
Qed.

Lemma bview_uncached dev blk :
  (forall b, (b < NBUF)%nat -> matches d dev blk b = true -> (d.(bufs) b).(b_valid) = 0) ->
  bview d dev blk = d.(hw).(hw_disk) blk.
Proof.
  intros H. unfold bview. destruct (find _ _) as [b'|] eqn:E; [|done].
  apply find_some in E as [Hin [Hm' Hv]%andb_true_iff]. apply in_seq in Hin.
  apply ctrue_true in Hv. destruct Hv. apply H; [lia|done].
Qed.
End inv.

(** ** The scans of bget *)

Section scans.
Context (l0 : lockst) (L : list lockptr) (d : kdata).

Lemma ev_bget_cached dev blk l fuel p :
  dll d.(bufs) p l bhead -> bhead ∉ l -> (length l <= fuel)%nat ->
  evals l0 L d (bget_cached fuel (hd bhead l) dev blk) (find (matches d dev blk) l) L d.
Proof.
  revert fuel p. induction l as [|b l IH]; intros fuel p Hd Hn Hf; cbn [hd find].
  - destruct fuel; cbn [bget_cached]; rewrite decide_True by done; apply ev_ret.
  - apply not_elem_of_cons in Hn as [Hne Hn]. destruct Hd as (_ & _ & Hd).
    destruct fuel as [|fuel]; [cbn in Hf; lia|]. cbn [bget_cached].
    rewrite decide_False by done. ev1. { apply ev_getd. } cbn beta.
    unfold matches at 1. unfold id. destruct (_ && _); [apply ev_ret|].
    rewrite (dll_next _ _ _ _ Hd). eapply IH; [exact Hd|done|cbn in Hf; lia].
Qed.

Definition unused (b : nat) : bool := (d.(bufs) b).(b_refcnt) =? 0.

Lemma ev_bget_unused l fuel s :
  dll d.(bufs) bhead l s -> bhead ∉ l -> (length l <= fuel)%nat ->
  evals l0 L d (bget_unused fuel (List.last l bhead)) (find unused (rev l)) L d.
Proof.
  revert fuel s. induction l as [|b l IH] using rev_ind; intros fuel s Hd Hn Hf.
  - destruct fuel; cbn; apply ev_ret.
  - rewrite List.last_last, rev_unit. cbn [find].
    apply not_elem_of_app in Hn as [Hn Hne]. apply dll_split in Hd as [Hd _].
    rewrite length_app in Hf. destruct fuel as [|fuel]; [cbn in Hf; lia|]. cbn [bget_unused].
    rewrite decide_False by (intros ->; apply Hne; by left). ev1. { apply ev_getd. } cbn beta.
    unfold unused at 1, id. destruct (_ =? 0); [apply ev_ret|].
    rewrite (dll_prev _ _ _ _ Hd). eapply IH; [exact Hd|done|cbn in Hf; lia].
Qed.
End scans.

(** ** Updates of one buffer *)

Record buf1 (b : nat) (f : buf -> buf) (d d' : kdata) : Prop := {
  b1_at : d'.(bufs) b = f (d.(bufs) b);
  b1_other : forall b', b' <> b -> d'.(bufs) b' = d.(bufs) b';
  b1_rest : d' = d <| bufs := d'.(bufs) |>;
}.

Lemma buf1_upd b f d : buf1 b f d (upd_buf b f d).
Proof.
  split; [apply fn_lookup_alter| |by destruct d]. intros b' Hb. by apply fn_lookup_alter_ne.
Qed.

Lemma buf1_trans b f g d1 d2 d3 :
  buf1 b f d1 d2 -> buf1 b g d2 d3 -> buf1 b (fun x => g (f x)) d1 d3.
Proof.
  intros [A1 O1 R1] [A2 O2 R2]. split.
  - by rewrite A2, A1.
  - intros. by rewrite O2, O1.
  - rewrite R2, R1. by destruct d1.
Qed.

Lemma buf1_step b f g d1 d2 : buf1 b f d1 d2 -> buf1 b (fun x => g (f x)) d1 (upd_buf b g d2).
Proof. intros H. eapply buf1_trans; [exact H|apply buf1_upd]. Qed.

Lemma buf1_ext b f g d d' :
  buf1 b f d d' -> g (d.(bufs) b) = f (d.(bufs) b) -> buf1 b g d d'.
Proof. intros [A O R] E. split; [by rewrite E|done|done]. Qed.

Lemma buf1_same b f d d' :
  buf1 b f d d' -> fsame d d' /\ d'.(hw) = d.(hw) /\ d'.(klog) = d.(klog) /\ d'.(procs) = d.(procs).
Proof.
  intros [_ _ R]. assert (d'.(hw) = d.(hw) /\ d'.(klog) = d.(klog) /\ d'.(procs) = d.(procs))
    as (E1 & E2 & E3) by by rewrite R.
  split; [|done]. unfold fsame. rewrite E1, E2. change (woke (d <| bufs := d'.(bufs) |>) d').
  by rewrite <- R.
Qed.

(** ** The environment of the file system

    The calling thread [kt] runs on the hart; the locks of the cache, of the log and
    of the disk driver are free, and so are those of the other threads. *)
Definition fs_lock (lk : lockptr) : Prop :=
  match lk with bcache_lock | vdisk_lock | log_lock | sl_lk _ => True | _ => False end.

Record fs_env (l0 : lockst) (L : list lockptr) (kt : kptr) : Prop := {
  fe_run : running l0 = Some kt;
  fe_lock : forall lk, fs_lock lk -> (lk ∉ L) /\ lfree l0 lk;
  fe_threads : tlocks_free l0 L;
}.

(** [kt] belongs to process [p] with id [pid]. *)
Definition self (kt : kptr) (p : nat) (pid : Z) (d : kdata) : Prop :=
  (the_kt d kt).(kt_process) = Some p /\ (d.(procs) p).(p_pid) = pid.

Lemma self_fsame kt p pid d d' : fsame d d' -> self kt p pid d -> self kt p pid d'.
Proof. intros H []. split; [by rewrite (fsame_process _ _ _ H)|by rewrite (fsame_pid _ _ _ H)]. Qed.

Lemma self_procs kt p pid d d' : d'.(procs) = d.(procs) -> self kt p pid d -> self kt p pid d'.
Proof. unfold self, the_kt. by intros ->. Qed.

Section ops.
Context `{WF : WaitFuel} `{DDok : DiskDriverOk} (l0 : lockst) (L : list lockptr).
Context (kt : kptr) (p : nat) (pid : Z).
Hypothesis Henv : fs_env l0 L kt.

Lemma ev_b_get {A} b (f : buf -> A) L' d : evals l0 L' d (b_get b f) (f (d.(bufs) b)) L' d.
Proof. apply ev_getd. Qed.
Lemma ev_b_set b f L' d : evals l0 L' d (b_set b f) tt L' (upd_buf b f d).
Proof. apply ev_modd. Qed.

Lemma ev_take d b :
  self kt p pid d -> (d.(bufs) b).(b_lock).(sl_locked) = 0 ->
  exists d', evals l0 L d (acquiresleep (buf_slock b)) tt L d' /\
    buf1 b (fun x => x <| b_lock ::= sl_taken pid |>) d d'.
Proof.
  intros [Hp <-] Hl. destruct (fe_lock _ _ _ Henv (sl_lk (buf_slock b)) I) as [Hs1 Hs2].
  eexists. split; [by apply (ev_acquiresleep l0 L kt p (fe_run _ _ _ Henv) (buf_slock b))|].
  eapply buf1_ext; [apply buf1_step, buf1_upd|done].
Qed.

Ltac bpo1 :=
  cbn beta iota;
  lazymatch goal with
  | |- posts _ _ _ (b_get _ _) _ => apply po_getd
  | |- posts _ _ _ (b_set _ _) _ => apply po_modd
  | |- _ => po1
  end.

(** The end of [bread]: read the block from the disk if the buffer is not valid. *)
Definition filled (disk : Z -> bytes) (x : buf) : buf :=
  if ctrue x.(b_valid) then x
  else x <| b_data := disk x.(b_blockno) |> <| b_valid := 1 |>.

Lemma ev_fill d b :
  exists d', evals l0 L d
      (valid ← b_get b b_valid;
       when (negb (ctrue valid)) (disk_rw b false;; b_set b (fun x => x <| b_valid := 1 |>));;
       mret b) b L d' /\
    buf1 b (filled d.(hw).(hw_disk)) d d'.
Proof.
  destruct (fe_lock _ _ _ Henv vdisk_lock I) as [Hv1 Hv2]. unfold filled.
  destruct (ctrue (d.(bufs) b).(b_valid)) eqn:V.
  - exists d. split.
    + ev1. { apply ev_b_get. } cbn beta. rewrite V. cbn. ev1. { ev1. } cbn beta. ev1.
    + split; [by rewrite V|done|by destruct d].
  - eexists. split.
    + ev1. { apply ev_b_get. } cbn beta. rewrite V. cbn.
      ev1. { ev1. { by apply disk_read_ok. } cbn beta. apply ev_b_set. } cbn beta. ev1.
    + eapply buf1_ext; [apply buf1_step, buf1_upd|]. cbn. by rewrite V.
Qed.

(** [bget] chooses [b]: a buffer that holds the block, or the least recently used
    of those without a reference when there is none. *)
Definition chosen (d : kdata) (dev blk : Z) (b : nat) : Prop :=
  (b < NBUF)%nat /\
  (matches d dev blk b = true \/
   (d.(bufs) b).(b_refcnt) = 0 /\ forall b', (b' < NBUF)%nat -> matches d dev blk b' = false).

(** There is room for the block, and the buffer that holds it is not locked. *)
Definition available (d : kdata) (dev blk : Z) : Prop :=
  (exists b, (b < NBUF)%nat /\ (matches d dev blk b = true \/ (d.(bufs) b).(b_refcnt) = 0)) /\
  (forall b, (b < NBUF)%nat -> matches d dev blk b = true ->
     (d.(bufs) b).(b_lock).(sl_locked) = 0 /\ (d.(bufs) b).(b_refcnt) < 2 ^ 32 - 1).

Definition got (dev blk : Z) (d : kdata) (b : nat) (x : buf) : buf :=
  if matches d dev blk b then x <| b_refcnt ::= fun n => u32 (n + 1) |>
  else x <| b_dev := dev |> <| b_blockno := blk |> <| b_valid := 0 |> <| b_refcnt := 1 |>.

Lemma find_chosen d order dev blk :
  bio_inv d order -> available d dev blk ->
  match find (matches d dev blk) order with
  | Some b => chosen d dev blk b /\ matches d dev blk b = true
  | None => exists b, find (unused d) (rev order) = Some b /\ chosen d dev blk b /\
      matches d dev blk b = false
  end.
Proof.
  intros Hi [(b & Hb & Hav) _]. destruct (find _ order) as [b'|] eqn:E.
  - apply find_some in E as [Hin Hm]. apply list_elem_of_In, (order_elem _ _ Hi) in Hin.
    split; [|done]. split; [done|by left].
  - assert (forall b', (b' < NBUF)%nat -> matches d dev blk b' = false) as Hn.
    { intros b' Hb'. apply (find_none _ _ E). by apply list_elem_of_In, (order_elem _ _ Hi). }
    destruct Hav as [Hm|Hr]; [by rewrite Hn in Hm|].
    destruct (find (unused d) (rev order)) as [b'|] eqn:E2.
    + exists b'. apply find_some in E2 as [Hin Hu%Z.eqb_eq].
      apply in_rev, list_elem_of_In, (order_elem _ _ Hi) in Hin.
      split; [done|]. split; [|by apply Hn]. split; [done|by right].
    + apply (find_none _ _) with (x := b) in E2.
      * unfold unused in E2. by rewrite Hr in E2.
      * apply in_rev. rewrite rev_involutive. by apply list_elem_of_In, (order_elem _ _ Hi).
Qed.

Lemma chosen_unlocked d order dev blk b :
  bio_inv d order -> available d dev blk -> chosen d dev blk b ->
  (d.(bufs) b).(b_lock).(sl_locked) = 0.
Proof.
  intros Hi [_ Ha] [Hb [Hm|[Hr _]]]; [by apply Ha|]. by apply (bi_idle _ _ Hi).
Qed.

Lemma ev_bget d order dev blk :
  bio_inv d order -> self kt p pid d -> available d dev blk ->
  exists b d', chosen d dev blk b /\ evals l0 L d (bget dev blk) b L d' /\
    buf1 b (fun x => got dev blk d b x <| b_lock ::= sl_taken pid |>) d d'.
Proof.
  intros Hi Hs Ha. pose proof (find_chosen _ _ _ _ Hi Ha) as Hf.
  destruct (fe_lock _ _ _ Henv bcache_lock I) as [Hb1 Hb2].
  pose proof (order_nodup _ _ Hi) as Hnd. apply NoDup_cons in Hnd as [Hh _].
  pose proof (bi_dll _ _ Hi) as Hd. pose proof (order_length _ _ Hi) as Hlen.
  pose proof (ev_bget_cached l0 (bcache_lock :: L) d dev blk order NBUF bhead Hd Hh ltac:(lia)) as Hc.
  destruct (find (matches d dev blk) order) as [b|] eqn:E.
  - destruct Hf as [Hch Hm]. pose proof (chosen_unlocked _ _ _ _ _ Hi Ha Hch) as Hl.
    set (d1 := upd_buf b (fun x => x <| b_refcnt ::= fun n => u32 (n + 1) |>) d).
    assert (buf1 b _ d d1) as B1 by apply buf1_upd.
    destruct (ev_take d1 b) as (d2 & Hev & B2).
    { by eapply self_procs; [|exact Hs]. } { by rewrite (b1_at _ _ _ _ B1). }
    exists b, d2. split; [done|]. split.
    + unfold bget. ev1. { ev1. } cbn beta. ev1. { apply ev_b_get. } cbn beta.
      rewrite (dll_next _ _ _ _ Hd). ev1. { exact Hc. } cbn beta iota.
      ev1. { apply ev_b_set. } cbn beta. ev1. { ev1. } cbn beta. ev1. { exact Hev. } cbn beta. ev1.
    + eapply buf1_ext; [by eapply buf1_trans|]. unfold got. by rewrite Hm.
  - destruct Hf as (b & Hu & Hch & Hm). pose proof (chosen_unlocked _ _ _ _ _ Hi Ha Hch) as Hl.
    pose proof (ev_bget_unused l0 (bcache_lock :: L) d order NBUF bhead Hd Hh ltac:(lia)) as Hc2.
    rewrite Hu in Hc2.
    edestruct (ev_take (upd_buf b (fun x => x <| b_refcnt := 1 |>)
      (upd_buf b (fun x => x <| b_valid := 0 |>) (upd_buf b (fun x => x <| b_blockno := blk |>)
        (upd_buf b (fun x => x <| b_dev := dev |>) d)))) b) as (d2 & Hev & B2).
    { by eapply self_procs; [|exact Hs]. } { cbn. by rewrite !fn_lookup_alter. }
    exists b, d2. split; [done|]. split.
    + unfold bget. ev1. { ev1. } cbn beta. ev1. { apply ev_b_get. } cbn beta.
      rewrite (dll_next _ _ _ _ Hd). ev1. { exact Hc. } cbn beta iota.
      ev1. { apply ev_b_get. } cbn beta. rewrite (dll_prev _ _ _ _ Hd). ev1. { exact Hc2. }
      cbn beta iota. do 4 (ev1; [apply ev_b_set|]; cbn beta). ev1. { ev1. } cbn beta.
      ev1. { exact Hev. } cbn beta. ev1.
    + eapply buf1_ext; [eapply buf1_trans; [|exact B2]; do 3 apply buf1_step; apply buf1_upd|].
      cbn. unfold got. by rewrite Hm.
Qed.

(** The buffer that [bread] returns. *)
Definition read_buf (dev blk : Z) (d : kdata) (b : nat) (x : buf) : buf :=
  filled d.(hw).(hw_disk) (got dev blk d b x <| b_lock ::= sl_taken pid |>).

Lemma ev_bread d order dev blk :
  bio_inv d order -> self kt p pid d -> available d dev blk ->
  exists b d', chosen d dev blk b /\ evals l0 L d (bread dev blk) b L d' /\
    buf1 b (read_buf dev blk d b) d d'.
Proof.
  intros Hi Hs Ha. destruct (ev_bget d order dev blk Hi Hs Ha) as (b & d1 & Hch & He & B1).
  destruct (ev_fill d1 b) as (d2 & He2 & B2). exists b, d2. split; [done|]. split.
  - unfold bread. ev1. { exact He. } exact He2.
  - destruct (buf1_same _ _ _ _ B1) as (_ & E & _). rewrite E in B2.
    eapply buf1_ext; [by eapply buf1_trans|done].
Qed.

Record read_post (order : list nat) (dev blk : Z) (d : kdata) (b : nat) (d' : kdata) : Prop := {
  rp_b : (b < NBUF)%nat;
  rp_same : fsame d d' /\ d'.(hw) = d.(hw) /\ d'.(klog) = d.(klog) /\ d'.(procs) = d.(procs);
  rp_inv : bio_inv d' order;
  rp_match : matches d' dev blk b = true;
  rp_valid : (d'.(bufs) b).(b_valid) <> 0;
  rp_lock : (d'.(bufs) b).(b_lock) = sl_taken pid (d.(bufs) b).(b_lock);
  rp_ref : (d'.(bufs) b).(b_refcnt) = (d.(bufs) b).(b_refcnt) + 1;
  rp_data : (d'.(bufs) b).(b_data) = bview d dev blk;
  rp_other : forall b', b' <> b -> d'.(bufs) b' = d.(bufs) b';
  rp_view : forall blk', bview d' dev blk' = bview d dev blk';
  rp_old : chosen d dev blk b;
}.

Lemma matches_eq d dev blk b :
  matches d dev blk b = true <-> (d.(bufs) b).(b_dev) = dev /\ (d.(bufs) b).(b_blockno) = blk.
Proof. unfold matches. by rewrite andb_true_iff, !Z.eqb_eq. Qed.

Lemma matches_same d d' dev blk b : d'.(bufs) b = d.(bufs) b -> matches d' dev blk b = matches d dev blk b.
Proof. unfold matches. by intros ->. Qed.

(** The fields of the buffer that [bread] returns. *)
Lemma read_buf_fields d order dev blk b (x := read_buf dev blk d b (d.(bufs) b)) :
  bio_inv d order -> available d dev blk -> chosen d dev blk b ->
  x.(b_dev) = dev /\ x.(b_blockno) = blk /\ x.(b_valid) <> 0 /\
  x.(b_lock) = sl_taken pid (d.(bufs) b).(b_lock) /\
  x.(b_refcnt) = (d.(bufs) b).(b_refcnt) + 1 /\
  x.(b_next) = (d.(bufs) b).(b_next) /\ x.(b_prev) = (d.(bufs) b).(b_prev) /\
  x.(b_data) = if matches d dev blk b && ctrue (d.(bufs) b).(b_valid)
               then (d.(bufs) b).(b_data) else d.(hw).(hw_disk) blk.
Proof.
  intros Hi [_ Ha] [Hb Hch]. subst x. unfold read_buf, got, filled.
  destruct (matches d dev blk b) eqn:Hm.
  - destruct (Ha b Hb Hm) as [_ Hr]. pose proof (bi_ref _ _ Hi b Hb).
    apply matches_eq in Hm as [Hd Hn]. cbn. destruct (ctrue (b_valid (bufs d b))) eqn:V; cbn;
      rewrite ?u32_small, ?Hn by lia; repeat split; try done. by apply ctrue_true.
  - destruct Hch as [?|[Hr _]]; [done|]. cbn. rewrite Hr. by repeat split.
Qed.

Lemma bview_cases d dev blk :
  (exists b, (b < NBUF)%nat /\ matches d dev blk b = true /\ (d.(bufs) b).(b_valid) <> 0 /\
     bview d dev blk = (d.(bufs) b).(b_data)) \/
  (forall b, (b < NBUF)%nat -> matches d dev blk b = true -> (d.(bufs) b).(b_valid) = 0) /\
  bview d dev blk = d.(hw).(hw_disk) blk.
Proof.
  unfold bview. destruct (find _ _) as [b|] eqn:E.
  - left. exists b. apply find_some in E as [Hin [Hm Hv%ctrue_true]%andb_true_iff].
    apply in_seq in Hin. repeat split; done || lia.
  - right. split; [|done]. intros b Hb Hm.
    apply (find_none _ _) with (x := b) in E; [|apply in_seq; lia].
    rewrite Hm in E. by apply ctrue_false in E.
Qed.

Lemma read_inv d order dev blk b d' :
  dev = ROOTDEV -> bio_inv d order -> available d dev blk -> chosen d dev blk b ->
  buf1 b (read_buf dev blk d b) d d' -> bio_inv d' order.
Proof.
  intros Hroot Hi Ha Hch B. assert (dev <> 0) as Hdev by by subst.
  pose proof (read_buf_fields _ _ _ _ _ Hi Ha Hch) as F.
  destruct B as [A O R]. rewrite <- A in F. destruct F as (F1 & F2 & F3 & F4 & F5 & F6 & F7 & _).
  pose proof (proj1 Hch) as Hb. pose proof (bi_ref _ _ Hi b Hb) as Hr.
  assert (forall dev' blk' b', (b' < NBUF)%nat -> b' <> b -> dev' <> 0 ->
    matches d' dev' blk' b = true -> matches d' dev' blk' b' = true -> False) as Hu.
  { intros dev' blk' b' Hb' Hne Hd' [M1 M2]%matches_eq Hm. rewrite F1 in M1. rewrite F2 in M2. subst dev' blk'.
    rewrite (matches_same d d') in Hm by by apply O.
    destruct Hch as [_ [Hm'|[_ Hn]]]; [|by rewrite Hn in Hm].
    apply Hne, (bi_uniq _ _ Hi b' b dev blk Hb' Hb Hdev Hm Hm'). }
  split.
  - eapply dll_ext; [apply (bi_dll _ _ Hi)|..]; intros x _; destruct (decide (x = b)) as [->|];
      rewrite ?F6, ?F7, ?O by done; done.
  - apply (bi_perm _ _ Hi).
  - intros b1 b2 dev' blk' H1 H2 Hd' M1 M2. destruct (decide (b1 = b)) as [->|N1], (decide (b2 = b)) as [->|N2].
    + done.
    + by destruct (Hu dev' blk' b2).
    + by destruct (Hu dev' blk' b1).
    + rewrite (matches_same d d') in M1, M2 by by apply O.
      apply (bi_uniq _ _ Hi b1 b2 dev' blk'); done.
  - intros b' Hb'. destruct (decide (b' = b)) as [->|]; [right; congruence|]. rewrite O by done.
    by apply (bi_dev _ _ Hi).
  - intros b' Hb'. destruct (decide (b' = b)) as [->|]; [lia|]. rewrite O by done. by apply (bi_ref _ _ Hi).
  - intros b' Hb'. destruct (decide (b' = b)) as [->|]; [lia|]. rewrite O by done.
    assert (d'.(hw) = d.(hw)) as -> by by rewrite R. by apply (bi_idle _ _ Hi).
Qed.

Lemma read_data d order dev blk b :
  dev <> 0 -> bio_inv d order -> available d dev blk -> chosen d dev blk b ->
  (read_buf dev blk d b (d.(bufs) b)).(b_data) = bview d dev blk.
Proof.
  intros Hdev Hi Ha Hch.
  destruct (read_buf_fields _ _ _ _ _ Hi Ha Hch) as (_ & _ & _ & _ & _ & _ & _ & ->).
  destruct Hch as [Hb Hch]. destruct (matches d dev blk b) eqn:Hm; cbn.
  - destruct (ctrue _) eqn:V.
    + symmetry. apply (bview_cached d order Hi); try done. by apply ctrue_true.
    + symmetry. apply (bview_uncached d). intros b' Hb' Hm'.
      rewrite (bi_uniq _ _ Hi b' b dev blk) by done. by apply ctrue_false.
  - destruct Hch as [?|[_ Hn]]; [done|]. symmetry. apply (bview_uncached d).
    intros b' Hb' Hm'. by rewrite Hn in Hm'.
Qed.

Lemma read_view d order dev blk b d' blk' :
  dev = ROOTDEV -> bio_inv d order -> available d dev blk -> chosen d dev blk b ->
  buf1 b (read_buf dev blk d b) d d' -> bview d' dev blk' = bview d dev blk'.
Proof.
  intros Hroot Hi Ha Hch B. assert (dev <> 0) as Hdev by by subst.
  pose proof (read_inv _ _ _ _ _ _ Hroot Hi Ha Hch B) as Hi'.
  pose proof (read_data _ _ _ _ _ Hdev Hi Ha Hch) as Hdat.
  pose proof (read_buf_fields _ _ _ _ _ Hi Ha Hch) as F.
  destruct B as [A O R]. rewrite <- A in F, Hdat. destruct F as (F1 & F2 & F3 & _).
  pose proof (proj1 Hch) as Hb. assert (d'.(hw) = d.(hw)) as Eh by by rewrite R.
  assert (matches d' dev blk b = true) as Mb by by apply matches_eq.
  destruct (decide (blk' = blk)) as [->|Hne].
  { by rewrite (bview_cached d' order Hi' dev blk b). }
  assert (matches d' dev blk' b = false) as Mn.
  { apply not_true_iff_false. rewrite matches_eq, F1, F2. intros [_ ?]. done. }
  destruct (bview_cases d dev blk') as [(c & Hc & Mc & Vc & Ec)|[Hu Ec]].
  - destruct (decide (c = b)) as [->|Hcb].
    + rewrite (bview_uncached d'), Ec, Eh.
      * destruct Hch as [_ [Hm|[Hr _]]].
        -- apply matches_eq in Hm as [_ ?], Mc as [_ ?]. congruence.
        -- apply matches_eq in Mc as [M1 M2]. rewrite <- M2. symmetry.
           apply (bi_idle _ _ Hi b Hb Hr); congruence.
      * intros c Hc' Mc'. destruct (decide (c = b)) as [->|N]; [by rewrite Mn in Mc'|].
        rewrite (matches_same d d') in Mc' by by apply O.
        destruct N. apply (bi_uniq _ _ Hi c b dev blk'); done.
    + rewrite (bview_cached d' order Hi' dev blk' c); rewrite ?O by done; try done.
      by rewrite (matches_same d d') by by apply O.
  - rewrite (bview_uncached d'), Ec, Eh; [done|]. intros c Hc Mc.
    destruct (decide (c = b)) as [->|N]; [by rewrite Mn in Mc|].
    rewrite (matches_same d d') in Mc by by apply O. rewrite O by done. by apply Hu.
Qed.

(** [bread] returns the current contents of the block in a locked buffer. *)
Lemma ev_bread_post d order dev blk :
  dev = ROOTDEV -> bio_inv d order -> self kt p pid d -> available d dev blk ->
  exists b d', evals l0 L d (bread dev blk) b L d' /\ read_post order dev blk d b d'.
Proof.
  intros Hdev Hi Hs Ha. destruct (ev_bread d order dev blk Hi Hs Ha) as (b & d' & Hch & He & B).
  exists b, d'. split; [done|]. pose proof (read_buf_fields _ _ _ _ _ Hi Ha Hch) as F.
  rewrite <- (b1_at _ _ _ _ B) in F. destruct F as (F1 & F2 & F3 & F4 & F5 & _).
  split; try done.
  - apply Hch.
  - by eapply buf1_same.
  - by apply (read_inv d order dev blk b d').
  - by apply matches_eq.
  - rewrite (b1_at _ _ _ _ B). apply (read_data d order); [by subst|done..].
  - apply (b1_other _ _ _ _ B).
  - intros blk'. by apply (read_view d order dev blk b).
Qed.

Lemma find_ext {A} (f g : A -> bool) l : (forall a, a ∈ l -> f a = g a) -> List.find f l = List.find g l.
Proof.
  induction l as [|a l IH]; intros H; [done|]. cbn [List.find]. rewrite (H a) by (by left). destruct (g a); [done|].
  apply IH. intros b Hb. apply H. by right.
Qed.

(** The contents of the blocks depend on the contents of the buffers only. *)
Definition same_contents (B B' : nat -> buf) : Prop :=
  forall b, (B' b).(b_dev) = (B b).(b_dev) /\ (B' b).(b_blockno) = (B b).(b_blockno) /\
    (B' b).(b_valid) = (B b).(b_valid) /\ (B' b).(b_data) = (B b).(b_data).

Lemma same_contents_view d d' dev blk :
  same_contents d.(bufs) d'.(bufs) -> d'.(hw).(hw_disk) = d.(hw).(hw_disk) ->
  bview d' dev blk = bview d dev blk.
Proof.
  intros H E. unfold bview, matches. rewrite E.
  replace (find _ (seq 0 NBUF)) with
    (find (fun b => matches d dev blk b && ctrue (d.(bufs) b).(b_valid)) (seq 0 NBUF)).
  - unfold matches. destruct (find _ _) as [b|]; [|done]. apply H.
  - apply find_ext. intros b _. cbn beta. unfold matches. by destruct (H b) as (-> & -> & -> & _).
Qed.

(** The pointer updates of [brelse]. *)
Lemma ev_relink L' d b :
  evals l0 L' d
    (next ← b_get b b_next;
     prev ← b_get b b_prev;
     b_set next (fun x => x <| b_prev := prev |>);;
     next ← b_get b b_next;
     prev ← b_get b b_prev;
     b_set prev (fun x => x <| b_next := next |>);;
     first ← b_get bhead b_next;
     b_set b (fun x => x <| b_next := first |>);;
     b_set b (fun x => x <| b_prev := bhead |>);;
     first ← b_get bhead b_next;
     b_set first (fun x => x <| b_prev := b |>);;
     b_set bhead (fun x => x <| b_next := b |>)) tt L' (d <| bufs := link b (unlink b d.(bufs)) |>).
Proof.
  eapply evals_eq.
  { do 2 (ev1; [apply ev_b_get|]; cbn beta). ev1; [apply ev_b_set|]. cbn beta.
    do 2 (ev1; [apply ev_b_get|]; cbn beta). ev1; [apply ev_b_set|]. cbn beta.
    ev1; [apply ev_b_get|]. cbn beta. do 2 (ev1; [apply ev_b_set|]; cbn beta).
    ev1; [apply ev_b_get|]. cbn beta. ev1; [apply ev_b_set|]. cbn beta. apply ev_b_set. }
  all: done.
Qed.

Record rel_post (order : list nat) (d : kdata) (b : nat) (d' : kdata) : Prop := {
  rl_same : fsame d d' /\ d'.(hw) = d.(hw) /\ d'.(klog) = d.(klog);
  rl_inv : exists order', bio_inv d' order';
  rl_contents : same_contents d.(bufs) d'.(bufs);
  rl_ref : (d'.(bufs) b).(b_refcnt) = (d.(bufs) b).(b_refcnt) - 1;
  rl_lock : (d'.(bufs) b).(b_lock) = sl_freed (d.(bufs) b).(b_lock);
  rl_other : forall b', b' <> b -> (d'.(bufs) b').(b_refcnt) = (d.(bufs) b').(b_refcnt) /\
    (d'.(bufs) b').(b_lock) = (d.(bufs) b').(b_lock);
}.

(** A reference is dropped: the invariant of the cache survives if the buffer is
    clean when its last reference goes. *)
Lemma release_inv d order d' b n :
  bio_inv d order -> (b < NBUF)%nat -> 1 <= (d.(bufs) b).(b_refcnt) ->
  ((d.(bufs) b).(b_refcnt) = 1 -> (d.(bufs) b).(b_dev) <> 0 ->
   (d.(bufs) b).(b_data) = d.(hw).(hw_disk) (d.(bufs) b).(b_blockno)) ->
  same_contents d.(bufs) d'.(bufs) -> d'.(hw) = d.(hw) ->
  (d'.(bufs) b).(b_refcnt) = (d.(bufs) b).(b_refcnt) - 1 -> (d'.(bufs) b).(b_lock).(sl_locked) = 0 ->
  (forall b', b' <> b -> (d'.(bufs) b').(b_refcnt) = (d.(bufs) b').(b_refcnt) /\
     (d'.(bufs) b').(b_lock) = (d.(bufs) b').(b_lock)) ->
  dll d'.(bufs) bhead n bhead -> n ≡ₚ order -> bio_inv d' n.
Proof.
  intros Hi Hb Hr Hcl Hc Hh Er El Ho Hd Hp.
  assert (forall dev blk x, matches d' dev blk x = matches d dev blk x) as Hm.
  { intros. unfold matches. by destruct (Hc x) as (-> & -> & _). }
  split; [done|by rewrite Hp; apply (bi_perm _ _ Hi)|..].
  - intros b1 b2 dev blk H1 H2 Hd' M1 M2. rewrite Hm in M1, M2. by apply (bi_uniq _ _ Hi b1 b2 dev blk).
  - intros x Hx. destruct (Hc x) as (-> & _). by apply (bi_dev _ _ Hi).
  - intros x Hx. destruct (decide (x = b)) as [->|N]; [lia|].
    destruct (Ho x N) as [-> _]. by apply (bi_ref _ _ Hi).
  - intros x Hx. destruct (Hc x) as (-> & -> & -> & ->). rewrite Hh.
    destruct (decide (x = b)) as [->|N].
    + rewrite Er. intros E. split; [done|]. intros _ Hdev. apply Hcl; [lia|done].
    + destruct (Ho x N) as [-> ->]. by apply (bi_idle _ _ Hi).
Qed.

(** The state after [releasesleep] and the decrement, up to pointers. *)
Lemma rel_intro d order d1 d' b n :
  bio_inv d order -> (b < NBUF)%nat -> 1 <= (d.(bufs) b).(b_refcnt) < 2 ^ 32 ->
  ((d.(bufs) b).(b_refcnt) = 1 -> (d.(bufs) b).(b_dev) <> 0 ->
   (d.(bufs) b).(b_data) = d.(hw).(hw_disk) (d.(bufs) b).(b_blockno)) ->
  woke (free_d (buf_slock b) d) d1 ->
  let d2 := upd_buf b (fun x => x <| b_refcnt ::= fun n => u32 (n - 1) |>) d1 in
  (forall x, nolink (d2.(bufs) x) (d'.(bufs) x)) -> d' = d2 <| bufs := d'.(bufs) |> ->
  dll d'.(bufs) bhead n bhead -> n ≡ₚ order -> rel_post order d b d'.
Proof.
  intros Hi Hb Hr Hcl Hw d2 Hnl Erest Hd Hp.
  assert (d1.(bufs) = (free_d (buf_slock b) d).(bufs) /\ d1.(hw) = d.(hw) /\ d1.(klog) = d.(klog))
    as (Eb & Eh & Ek) by by rewrite (wk_rest _ _ Hw).
  assert (buf1 b (fun x => x <| b_lock ::= sl_freed |>) d (free_d (buf_slock b) d)) as B1.
  { eapply buf1_ext; [apply buf1_step, buf1_upd|done]. }
  assert (fsame d d') as Hs.
  { etrans; [apply (buf1_same _ _ _ _ B1)|]. etrans; [by apply woke_fsame|].
    etrans; [eapply (buf1_same b _ d1 d2), buf1_upd|]. unfold fsame.
    assert (d'.(hw) = d2.(hw) /\ d'.(klog) = d2.(klog)) as [-> ->] by by rewrite Erest.
    change (woke (d2 <| bufs := d'.(bufs) |>) d'). by rewrite <- Erest. }
  assert (d'.(hw) = d.(hw) /\ d'.(klog) = d.(klog)) as [Eh' Ek'].
  { rewrite Erest. cbn. by rewrite Eh, Ek. }
  assert (forall x, x <> b -> nolink (d.(bufs) x) (d'.(bufs) x)) as Ho.
  { intros x Hx. etrans; [|apply Hnl]. unfold d2. cbn. rewrite fn_lookup_alter_ne, Eb by done.
    by rewrite (b1_other _ _ _ _ B1). }
  pose proof (Hnl b) as Hnb. unfold d2 in Hnb. cbn in Hnb. rewrite fn_lookup_alter, Eb in Hnb.
  rewrite (b1_at _ _ _ _ B1) in Hnb. destruct Hnb as [N1 N2 N3 N4 N5 N6 N7]. cbn in *.
  rewrite u32_small in N6 by lia.
  assert (same_contents d.(bufs) d'.(bufs)) as Hc.
  { intros x. destruct (decide (x = b)) as [->|Hx]; [done|]. by destruct (Ho x Hx). }
  assert (forall b', b' <> b -> (d'.(bufs) b').(b_refcnt) = (d.(bufs) b').(b_refcnt) /\
     (d'.(bufs) b').(b_lock) = (d.(bufs) b').(b_lock)) as Ho'.
  { intros x Hx. by destruct (Ho x Hx). }
  split; try done. exists n. eapply (release_inv d order d' b n); try done; [lia|]. by rewrite N5.
Qed.

Lemma po_brelse d order b (Q : unit -> list lockptr -> kdata -> Prop) :
  bio_inv d order -> self kt p pid d -> (b < NBUF)%nat ->
  (d.(bufs) b).(b_lock).(sl_locked) <> 0 -> (d.(bufs) b).(b_lock).(sl_pid) = pid ->
  1 <= (d.(bufs) b).(b_refcnt) < 2 ^ 32 ->
  ((d.(bufs) b).(b_refcnt) = 1 -> (d.(bufs) b).(b_dev) <> 0 ->
   (d.(bufs) b).(b_data) = d.(hw).(hw_disk) (d.(bufs) b).(b_blockno)) ->
  (forall d', rel_post order d b d' -> Q tt L d') ->
  posts l0 L d (brelse b) Q.
Proof.
  intros Hi [Hp Hpid] Hb Hl Hlp Hr Hcl HQ.
  destruct (fe_lock _ _ _ Henv (sl_lk (buf_slock b)) I) as [Hs1 Hs2].
  destruct (fe_lock _ _ _ Henv bcache_lock I) as [Hb1 Hb2].
  unfold brelse. po1. eapply po_evals.
  { apply (ev_holdingsleep l0 L kt p (fe_run _ _ _ Henv)); done. }
  cbn beta. cbn [the_slock].
  rewrite (proj2 (ctrue_true (d.(bufs) b).(b_lock).(sl_locked)) Hl), Hlp, Hpid, Z.eqb_refl. cbn.
  po1. apply (po_releasesleep l0 L); [done|done|apply (fe_threads _ _ _ Henv)|].
  intros d1 Hw. cbn beta. do 7 bpo1. set (d2 := upd_buf b _ d1).
  assert (d1.(bufs) = (free_d (buf_slock b) d).(bufs)) as Eb by by rewrite (wk_rest _ _ Hw).
  assert (dll d2.(bufs) bhead order bhead) as Hd2.
  { eapply dll_ext; [apply (bi_dll _ _ Hi)|..]; intros x _; unfold d2; cbn;
      rewrite fn_alter_case, Eb; cbn; rewrite !fn_alter_case; by repeat case_dec; subst. }
  apply po_when; intros _.
  - eapply po_evals; [apply ev_relink|]. po1. apply HQ.
    assert (b ∈ order) as (l1 & l2 & ->)%list_elem_of_split by by apply (order_elem _ _ Hi).
    eapply (rel_intro _ _ d1 _ _ (b :: l1 ++ l2)); try done; fold d2.
    + intros x. apply relink_nolink.
    + apply dll_link; [by apply dll_unlink, (order_nodup _ _ Hi)|].
      pose proof (order_nodup _ _ Hi) as Hn. by rewrite <- Permutation_middle in Hn.
    + apply Permutation_middle.
  - po1. apply HQ. by eapply (rel_intro _ _ d1 d2 _ order).
Qed.

(** ** bwrite *)

Definition write_d (b : nat) (d : kdata) : kdata :=
  let x := d.(bufs) b in
  d <| hw ::= fun h =>
    h <| hw_disk ::= <[x.(b_blockno) := x.(b_data)]> |>
      <| hw_writes ::= fun w => (x.(b_blockno), x.(b_data)) :: w |> |>.

Lemma ev_bwrite d b :
  self kt p pid d -> (d.(bufs) b).(b_lock).(sl_locked) <> 0 -> (d.(bufs) b).(b_lock).(sl_pid) = pid ->
  evals l0 L d (bwrite b) tt L (write_d b d).
Proof.
  intros [Hp Hpid] Hl Hlp. destruct (fe_lock _ _ _ Henv (sl_lk (buf_slock b)) I) as [Hs1 Hs2].
  destruct (fe_lock _ _ _ Henv vdisk_lock I) as [Hv1 Hv2].
  unfold bwrite. ev1. { apply (ev_holdingsleep l0 L kt p (fe_run _ _ _ Henv)); done. }
  cbn beta. cbn [the_slock].
  rewrite (proj2 (ctrue_true (d.(bufs) b).(b_lock).(sl_locked)) Hl), Hlp, Hpid, Z.eqb_refl. cbn.
  by apply disk_write_ok.
Qed.

Lemma write_inv d order b :
  bio_inv d order -> (b < NBUF)%nat -> (d.(bufs) b).(b_dev) = ROOTDEV ->
  bio_inv (write_d b d) order.
Proof.
  intros [] Hb Hdev. split; try done. intros c Hc Hr. destruct (bi_idle0 c Hc Hr) as [Hl Hd].
  split; [done|]. intros Hv Hnz. cbn. rewrite fn_insert_case.
  destruct (decide (b_blockno (bufs d b) = b_blockno (bufs d c))) as [E|]; [|by apply Hd].
  replace c with b; [done|]. apply (bi_uniq0 b c ROOTDEV (d.(bufs) b).(b_blockno)); try done.
  - by apply matches_eq.
  - apply matches_eq. split; [|done]. cbn in *. by destruct (bi_dev0 c Hc).
Qed.

Lemma write_view d order b blk :
  bio_inv d order -> (b < NBUF)%nat -> (d.(bufs) b).(b_dev) = ROOTDEV -> (d.(bufs) b).(b_valid) <> 0 ->
  bview (write_d b d) ROOTDEV blk = bview d ROOTDEV blk.
Proof.
  intros Hi Hb Hdev Hv. destruct (decide (blk = (d.(bufs) b).(b_blockno))) as [->|Hne].
  - assert (matches d ROOTDEV (d.(bufs) b).(b_blockno) b = true) as Hm by by apply matches_eq.
    rewrite (bview_cached d order Hi _ _ b) by done.
    by rewrite (bview_cached _ order (write_inv _ _ _ Hi Hb Hdev) _ _ b).
  - unfold bview. change (matches (write_d b d)) with (matches d).
    change (bufs (write_d b d)) with (bufs d). destruct (find _ _); [done|]. cbn.
    by apply fn_lookup_insert_ne.
Qed.
End ops.
