(* ===== verification/FsDemo.v ===== *)
(** * Concrete file system states

    A synchronous disk and a buffer cache as [binit] leaves it, on top of the process
    table of the thread instances: the inputs on which the theorems about the file
    system are instantiated. *)
From S2P Require Export ThreadSpec BioSpec.

(** A disk that serves each request at once. *)
Definition sync_disk : DiskDriver := fun b write =>
  if write then
    modd (fun d => let x := d.(bufs) b in
      d <| hw ::= fun h =>
        h <| hw_disk ::= <[x.(b_blockno) := x.(b_data)]> |>
          <| hw_writes ::= fun w => (x.(b_blockno), x.(b_data)) :: w |> |>)
  else modd (fun d => upd_buf b (fun x => x <| b_data := d.(hw).(hw_disk) x.(b_blockno) |>) d).

Lemma sync_disk_ok : @DiskDriverOk sync_disk.
Proof. split; intros; (eapply evals_eq; [apply ev_modd|done..]). Qed.

Definition demo_pid : Z := 7.
Definition demo_kt : kptr := (1, 0)%nat.

Lemma demo_fs_env : fs_env (demo_run demo_kt) [] demo_kt.
Proof.
  split; [done|..].
  - intros lk _. split; [apply not_elem_of_nil|apply demo_run_free].
  - intros kt _ _. split; [apply not_elem_of_nil|apply demo_run_free].
Qed.

(** The list of [binit]: buffer [NBUF - 1] first. *)
Definition demo_link (b : nat) (x : buf) : buf :=
  x <| b_next := if decide (b = 0)%nat then bhead else (b - 1)%nat |>
    <| b_prev := if decide (b = bhead) then 0%nat else if decide (b = NBUF - 1)%nat then bhead else (b + 1)%nat |>.

Definition demo_bufs (x0 : buf) (b : nat) : buf := demo_link b (if decide (b = 0)%nat then x0 else buf0).

Definition demo_cache (x0 : buf) (disk : Z -> bytes) (g : log) : kdata :=
  demo_threads <| bufs := demo_bufs x0 |> <| hw ::= fun h => h <| hw_disk := disk |> |> <| klog := g |>.

Lemma demo_dll x0 disk g : dll (demo_cache x0 disk g).(bufs) bhead (rev (seq 0 NBUF)) bhead.
Proof. cbn. repeat split. Qed.

Lemma demo_cache_inv x0 disk g :
  x0.(b_dev) = ROOTDEV -> 0 <= x0.(b_refcnt) -> x0.(b_lock).(sl_locked) = 0 ->
  (x0.(b_refcnt) = 0 -> x0.(b_valid) <> 0 -> x0.(b_data) = disk x0.(b_blockno)) ->
  bio_inv (demo_cache x0 disk g) (rev (seq 0 NBUF)).
Proof.
  intros Hd Hr Hl Hc.
  assert (forall b, (b < NBUF)%nat -> b <> 0%nat -> (demo_cache x0 disk g).(bufs) b = demo_link b buf0) as Ho.
  { intros b _ Hb. cbn. unfold demo_bufs. by rewrite decide_False by done. }
  split.
  - apply demo_dll.
  - symmetry. apply Permutation_rev.
  - intros b b' dev blk Hb Hb' Hdev M1 M2.
    destruct (decide (b = 0%nat)) as [->|N1], (decide (b' = 0%nat)) as [->|N2]; [done|..].
    + apply matches_eq in M2 as [M2 _]. by rewrite Ho in M2 by done; cbn in M2.
    + apply matches_eq in M1 as [M1 _]. by rewrite Ho in M1 by done; cbn in M1.
    + apply matches_eq in M1 as [M1 _]. by rewrite Ho in M1 by done; cbn in M1.
  - intros b Hb. destruct (decide (b = 0%nat)) as [->|N]; [by right|]. rewrite Ho by done. by left.
  - intros b Hb. destruct (decide (b = 0%nat)) as [->|N]; [done|]. by rewrite Ho.
  - intros b Hb. destruct (decide (b = 0%nat)) as [->|N]; [by auto|]. by rewrite Ho.
Qed.
