(* ===== verification/Virtio.v ===== *)
(** * The disk driver (kernel/virtio_disk.c, kernel/virtio.h)

    The descriptor table and the rings are the fields of [disk]; the device's
    registers are [hw_virtio_reg].  An address that the driver stores in a
    descriptor is the object it points to ([daddr]). *)
From S2P Require Export Uart Bio.

(** ** Registers and flags (virtio.h) *)

Definition VIRTIO_MMIO_MAGIC_VALUE : Z := 0x000.
Definition VIRTIO_MMIO_VERSION : Z := 0x004.
Definition VIRTIO_MMIO_DEVICE_ID : Z := 0x008.
Definition VIRTIO_MMIO_VENDOR_ID : Z := 0x00c.
Definition VIRTIO_MMIO_DEVICE_FEATURES : Z := 0x010.
Definition VIRTIO_MMIO_DRIVER_FEATURES : Z := 0x020.
Definition VIRTIO_MMIO_QUEUE_SEL : Z := 0x030.
Definition VIRTIO_MMIO_QUEUE_NUM_MAX : Z := 0x034.
Definition VIRTIO_MMIO_QUEUE_NUM : Z := 0x038.
Definition VIRTIO_MMIO_QUEUE_READY : Z := 0x044.
Definition VIRTIO_MMIO_QUEUE_NOTIFY : Z := 0x050.
Definition VIRTIO_MMIO_INTERRUPT_STATUS : Z := 0x060.
Definition VIRTIO_MMIO_INTERRUPT_ACK : Z := 0x064.
Definition VIRTIO_MMIO_STATUS : Z := 0x070.
Definition VIRTIO_MMIO_QUEUE_DESC_LOW : Z := 0x080.
Definition VIRTIO_MMIO_QUEUE_DESC_HIGH : Z := 0x084.
Definition VIRTIO_MMIO_DRIVER_DESC_LOW : Z := 0x090.
Definition VIRTIO_MMIO_DRIVER_DESC_HIGH : Z := 0x094.
Definition VIRTIO_MMIO_DEVICE_DESC_LOW : Z := 0x0a0.
Definition VIRTIO_MMIO_DEVICE_DESC_HIGH : Z := 0x0a4.
Definition VIRTIO_CONFIG_S_ACKNOWLEDGE : Z := 1.
Definition VIRTIO_CONFIG_S_DRIVER : Z := 2.
Definition VIRTIO_CONFIG_S_DRIVER_OK : Z := 4.
Definition VIRTIO_CONFIG_S_FEATURES_OK : Z := 8.
(** The feature bits the driver turns off. *)
Definition virtio_features_off : list Z := [5; 7; 11; 12; 27; 29; 28].
Definition NUM : Z := 8.
Definition VRING_DESC_F_NEXT : Z := 1.
Definition VRING_DESC_F_WRITE : Z := 2.
Definition VIRTIO_BLK_T_IN : Z := 0.
Definition VIRTIO_BLK_T_OUT : Z := 1.
Definition sizeof_blk_req : Z := 16.

Definition R_ (r : Z) : M Z := getd (fun d => d.(hw).(hw_virtio_reg) r).
Definition W_ (r v : Z) : M unit :=
  modd (upd_hw (fun h => h <| hw_virtio_reg ::= <[r := u32 v]> |>)).

Definition vd_get {A} (f : vdisk -> A) : M A := getd (fun d => f d.(disk)).
Definition vd_set (f : vdisk -> vdisk) : M unit := modd (fun d => d <| disk ::= f |>).

Section virtio.
Context `{KI : KernelImage} `{WF : WaitFuel}.

(** The three pages of the queue are allocated and zeroed; their contents are the
    fields [vd_desc], [vd_avail_*] and [vd_used_dev_*]. *)
Definition virtio_disk_init : M unit :=
  initlock vdisk_lock "virtio_disk";;
  magic ← R_ VIRTIO_MMIO_MAGIC_VALUE;
  version ← R_ VIRTIO_MMIO_VERSION;
  device ← R_ VIRTIO_MMIO_DEVICE_ID;
  vendor ← R_ VIRTIO_MMIO_VENDOR_ID;
  if negb (magic =? 0x74726976) || negb (version =? 2) || negb (device =? 2) ||
     negb (vendor =? 0x554d4551) then panic "could not find virtio disk" else
  W_ VIRTIO_MMIO_STATUS 0;;
  let status := VIRTIO_CONFIG_S_ACKNOWLEDGE in
  W_ VIRTIO_MMIO_STATUS status;;
  let status := Z.lor status VIRTIO_CONFIG_S_DRIVER in
  W_ VIRTIO_MMIO_STATUS status;;
  features ← R_ VIRTIO_MMIO_DEVICE_FEATURES;
  let features := foldl (fun f b => Z.land f (Z.lnot (Z.shiftl 1 b))) features
                    virtio_features_off in
  W_ VIRTIO_MMIO_DRIVER_FEATURES features;;
  let status := Z.lor status VIRTIO_CONFIG_S_FEATURES_OK in
  W_ VIRTIO_MMIO_STATUS status;;
  status ← R_ VIRTIO_MMIO_STATUS;
  if negb (ctrue (Z.land status VIRTIO_CONFIG_S_FEATURES_OK))
  then panic "virtio disk FEATURES_OK unset" else
  W_ VIRTIO_MMIO_QUEUE_SEL 0;;
  ready ← R_ VIRTIO_MMIO_QUEUE_READY;
  if ctrue ready then panic "virtio disk should not be ready" else
  max ← R_ VIRTIO_MMIO_QUEUE_NUM_MAX;
  if max =? 0 then panic "virtio disk has no queue 0" else
  if max <? NUM then panic "virtio disk max queue too short" else
  desc ← kalloc;
  avail ← kalloc;
  used ← kalloc;
  if (desc =? 0) || (avail =? 0) || (used =? 0) then panic "virtio disk kalloc" else
  kmemset desc 0 PGSIZE;;
  kmemset avail 0 PGSIZE;;
  kmemset used 0 PGSIZE;;
  vd_set (fun v => v <| vd_desc := fun _ => vdesc0 |> <| vd_avail_idx := 0 |>
                     <| vd_avail_ring := fun _ => 0 |> <| vd_used_dev_idx := 0 |>
                     <| vd_used_ring := fun _ => 0 |>);;
  W_ VIRTIO_MMIO_QUEUE_NUM NUM;;
  W_ VIRTIO_MMIO_QUEUE_DESC_LOW desc;;
  W_ VIRTIO_MMIO_QUEUE_DESC_HIGH (Z.shiftr desc 32);;
  W_ VIRTIO_MMIO_DRIVER_DESC_LOW avail;;
  W_ VIRTIO_MMIO_DRIVER_DESC_HIGH (Z.shiftr avail 32);;
  W_ VIRTIO_MMIO_DEVICE_DESC_LOW used;;
  W_ VIRTIO_MMIO_DEVICE_DESC_HIGH (Z.shiftr used 32);;
  W_ VIRTIO_MMIO_QUEUE_READY 1;;
  forM (seqZ 0 NUM) (fun i => vd_set (fun v => v <| vd_free ::= <[i := 1]> |>));;
  W_ VIRTIO_MMIO_STATUS (Z.lor status VIRTIO_CONFIG_S_DRIVER_OK).

(** ** Descriptors *)

Definition alloc_desc : M Z :=
  r ← scanM (seqZ 0 NUM) (fun i =>
    f ← vd_get (fun v => v.(vd_free) i);
    if ctrue f then vd_set (fun v => v <| vd_free ::= <[i := 0]> |>);; mret (Some i)
    else mret None);
  mret (default (-1) r).

Definition free_desc (i : Z) : M unit :=
  if NUM <=? i then panic "free_desc 1" else
  f ← vd_get (fun v => v.(vd_free) i);
  if ctrue f then panic "free_desc 2" else
  vd_set (fun v => v <| vd_desc ::= <[i := vdesc0]> |>);;
  vd_set (fun v => v <| vd_free ::= <[i := 1]> |>);;
  wakeup (Some chan_disk_free).

(** A chain has at most [NUM] descriptors: a longer one would free one twice. *)
Fixpoint free_chain_loop (fuel : nat) (i : Z) : M unit :=
  d ← vd_get (fun v => v.(vd_desc) i);
  free_desc i;;
  if ctrue (Z.land d.(d_flags) VRING_DESC_F_NEXT) then
    match fuel with
    | O => diverge
    | S fuel => free_chain_loop fuel d.(d_next)
    end
  else mret tt.
Definition free_chain (i : Z) : M unit := free_chain_loop (Z.to_nat NUM) i.

(** The three indices, or [None] for -1. *)
Definition alloc3_desc : M (option (Z * Z * Z)) :=
  i0 ← alloc_desc;
  if i0 <? 0 then mret None else
  i1 ← alloc_desc;
  if i1 <? 0 then free_desc i0;; mret None else
  i2 ← alloc_desc;
  if i2 <? 0 then free_desc i0;; free_desc i1;; mret None else
  mret (Some (i0, i1, i2)).

(** ** Requests *)

Fixpoint alloc3_wait (fuel : nat) : M (Z * Z * Z) :=
  r ← alloc3_desc;
  match r with
  | Some idx => mret idx
  | None =>
      sleep chan_disk_free vdisk_lock;;
      match fuel with
      | O => diverge
      | S fuel => alloc3_wait fuel
      end
  end.

Fixpoint disk_wait (fuel : nat) (b : nat) : M unit :=
  d ← b_get b b_disk;
  if d =? 1 then
    sleep (chan_buf b) vdisk_lock;;
    match fuel with
    | O => diverge
    | S fuel => disk_wait fuel b
    end
  else mret tt.

Definition set_desc (i : Z) (x : virtq_desc) : M unit :=
  vd_set (fun v => v <| vd_desc ::= <[i := x]> |>).

Definition virtio_disk_rw (b : nat) (write : bool) : M unit :=
  blockno ← b_get b b_blockno;
  let sector := u32 (blockno * (BSIZE / 512)) in
  acquire vdisk_lock;;
  idx ← alloc3_wait wait_fuel;
  let '(i0, i1, i2) := idx in
  vd_set (fun v => v <| vd_ops ::= <[i0 :=
    VirtioBlkReq (if write then VIRTIO_BLK_T_OUT else VIRTIO_BLK_T_IN) 0 sector]> |>);;
  set_desc i0 (VirtqDesc (DOp i0) sizeof_blk_req VRING_DESC_F_NEXT i1);;
  set_desc i1 (VirtqDesc (DData b) BSIZE
    (Z.lor (if write then 0 else VRING_DESC_F_WRITE) VRING_DESC_F_NEXT) i2);;
  vd_set (fun v => v <| vd_info_status ::= <[i0 := 0xff]> |>);;
  set_desc i2 (VirtqDesc (DStatus i0) 1 VRING_DESC_F_WRITE 0);;
  b_set b (fun x => x <| b_disk := 1 |>);;
  vd_set (fun v => v <| vd_info_b ::= <[i0 := Some b]> |>);;
  vd_set (fun v => v <| vd_avail_ring ::= <[v.(vd_avail_idx) mod NUM := i0]> |>);;
  vd_set (fun v => v <| vd_avail_idx ::= fun n => u16 (n + 1) |>);;
  W_ VIRTIO_MMIO_QUEUE_NOTIFY 0;;
  disk_wait wait_fuel b;;
  vd_set (fun v => v <| vd_info_b ::= <[i0 := None]> |>);;
  free_chain i0;;
  release vdisk_lock.

(** The interrupt handler: one round per entry of the used ring. *)
Fixpoint virtio_intr_loop (fuel : nat) : M unit :=
  v ← getd disk;
  if v.(vd_used_idx) =? v.(vd_used_dev_idx) then mret tt else
  match fuel with
  | O => diverge
  | S fuel =>
      let id := v.(vd_used_ring) (v.(vd_used_idx) mod NUM) in
      if negb (v.(vd_info_status) id =? 0) then panic "virtio_disk_intr status" else
      b ← deref (v.(vd_info_b) id);
      b_set b (fun x => x <| b_disk := 0 |>);;
      wakeup (Some (chan_buf b));;
      vd_set (fun v => v <| vd_used_idx ::= fun n => u16 (n + 1) |>);;
      virtio_intr_loop fuel
  end.

Definition virtio_disk_intr : M unit :=
  acquire vdisk_lock;;
  s ← R_ VIRTIO_MMIO_INTERRUPT_STATUS;
  W_ VIRTIO_MMIO_INTERRUPT_ACK (Z.land s 3);;
  v ← getd disk;
  virtio_intr_loop (Z.to_nat (u16 (v.(vd_used_dev_idx) - v.(vd_used_idx))));;
  release vdisk_lock.
End virtio.
