(* ===== verification/Log.v ===== *)
(** * The log (kernel/log.c) *)
From S2P Require Export Bio.

Section log.
Context `{WF : WaitFuel} `{DD : DiskDriver}.

Definition lg_get {A} (f : log -> A) : M A := getd (fun d => f d.(klog)).
Definition lg_set (f : log -> log) : M unit := modd (fun d => d <| klog ::= f |>).

(** [sizeof(struct logheader)]. *)
Definition sizeof_logheader : Z := 4 * (1 + LOGSIZE).

(** The 32-bit words of a block: [lh->n] and [lh->block[i]]. *)
Definition hdr_n (m : bytes) : Z := s32 (load32 m 0).
Definition hdr_block (m : bytes) (i : Z) : Z := s32 (load32 m (4 + 4 * i)).

Definition memmove_buf (dst src : nat) : M unit :=
  data ← b_get src b_data;
  b_set dst (fun x => x <| b_data ::= fun m => memmove_across m 0 data 0 BSIZE |>).

(** [tails] is the list of the values of [tail]. *)
Definition install_trans (recovering : bool) : M unit :=
  n ← lg_get lh_n;
  forM (seqZ 0 n) (fun tail =>
    dev ← lg_get lg_dev;
    start ← lg_get lg_start;
    lbuf ← bread dev (u32 (start + tail + 1));
    blk ← lg_get (fun g => g.(lh_block) tail);
    dbuf ← bread dev (u32 blk);
    memmove_buf dbuf lbuf;;
    bwrite dbuf;;
    when (negb recovering) (bunpin dbuf);;
    brelse lbuf;;
    brelse dbuf).

Definition read_head : M unit :=
  dev ← lg_get lg_dev;
  start ← lg_get lg_start;
  b ← bread dev (u32 start);
  m ← b_get b b_data;
  lg_set (fun g => g <| lh_n := hdr_n m |>);;
  forM (seqZ 0 (hdr_n m)) (fun i =>
    lg_set (fun g => g <| lh_block ::= <[i := hdr_block m i]> |>));;
  brelse b.

Definition write_head : M unit :=
  dev ← lg_get lg_dev;
  start ← lg_get lg_start;
  b ← bread dev (u32 start);
  n ← lg_get lh_n;
  b_set b (fun x => x <| b_data ::= fun m => store32 m 0 (u32 n) |>);;
  forM (seqZ 0 n) (fun i =>
    blk ← lg_get (fun g => g.(lh_block) i);
    b_set b (fun x => x <| b_data ::= fun m => store32 m (4 + 4 * i) (u32 blk) |>));;
  bwrite b;;
  brelse b.

Definition recover_from_log : M unit :=
  read_head;;
  install_trans true;;
  lg_set (fun g => g <| lh_n := 0 |>);;
  write_head.

Definition initlog (dev : Z) (s : superblock) : M unit :=
  if BSIZE <=? sizeof_logheader then panic "initlog: too big logheader" else
  initlock log_lock "log";;
  lg_set (fun g => g <| lg_start := s32 s.(sb_logstart) |>);;
  lg_set (fun g => g <| lg_size := s32 s.(sb_nlog) |>);;
  lg_set (fun g => g <| lg_dev := dev |>);;
  recover_from_log.

Fixpoint begin_op_loop (fuel : nat) : M unit :=
  g ← getd klog;
  if ctrue g.(lg_committing) || (LOGSIZE <? g.(lh_n) + (g.(lg_outstanding) + 1) * MAXOPBLOCKS)
  then
    sleep chan_log log_lock;;
    match fuel with
    | O => diverge
    | S fuel => begin_op_loop fuel
    end
  else
    lg_set (fun g => g <| lg_outstanding ::= fun n => n + 1 |>);;
    release log_lock.

Definition begin_op : M unit :=
  acquire log_lock;;
  begin_op_loop wait_fuel.

Definition write_log : M unit :=
  n ← lg_get lh_n;
  forM (seqZ 0 n) (fun tail =>
    dev ← lg_get lg_dev;
    start ← lg_get lg_start;
    to ← bread dev (u32 (start + tail + 1));
    blk ← lg_get (fun g => g.(lh_block) tail);
    from ← bread dev (u32 blk);
    memmove_buf to from;;
    bwrite to;;
    brelse from;;
    brelse to).

Definition commit : M unit :=
  n ← lg_get lh_n;
  when (0 <? n)
    (write_log;;
     write_head;;
     install_trans false;;
     lg_set (fun g => g <| lh_n := 0 |>);;
     write_head).

Definition end_op : M unit :=
  acquire log_lock;;
  lg_set (fun g => g <| lg_outstanding ::= fun n => n - 1 |>);;
  g ← getd klog;
  if ctrue g.(lg_committing) then panic "log.committing" else
  do_commit ←
    (if g.(lg_outstanding) =? 0 then
       lg_set (fun g => g <| lg_committing := 1 |>);; mret true
     else wakeup (Some chan_log);; mret false);
  release log_lock;;
  when do_commit
    (commit;;
     acquire log_lock;;
     lg_set (fun g => g <| lg_committing := 0 |>);;
     wakeup (Some chan_log);;
     release log_lock).

(** The index at which [log_write] records the block: absorption or the end. *)
Fixpoint log_slot (n : nat) (i : Z) (blk : Z -> Z) (blockno : Z) : Z :=
  match n with
  | O => i
  | S n => if u32 (blk i) =? blockno then i else log_slot n (i + 1) blk blockno
  end.

Definition log_write (b : nat) : M unit :=
  acquire log_lock;;
  g ← getd klog;
  if (LOGSIZE <=? g.(lh_n)) || (g.(lg_size) - 1 <=? g.(lh_n))
  then panic "too big a transaction" else
  if g.(lg_outstanding) <? 1 then panic "log_write outside of trans" else
  blockno ← b_get b b_blockno;
  let i := log_slot (Z.to_nat g.(lh_n)) 0 g.(lh_block) blockno in
  lg_set (fun g => g <| lh_block ::= <[i := s32 blockno]> |>);;
  when (i =? g.(lh_n))
    (bpin b;;
     lg_set (fun g => g <| lh_n ::= fun n => n + 1 |>));;
  release log_lock.
End log.
