(* ===== verification/LogSpec.v ===== *)
(** * What kernel/log.c guarantees

    Transactions are atomic with respect to crashes.  [commit] writes the modified
    blocks to the log, then the header, then the blocks to their home, then an empty
    header; a crash between any two of these block writes, followed by recovery,
    leaves either all the blocks of the transaction or none of them on the disk. *)
From S2P Require Export BioSpec Log.

(** The blocks of [BSIZE] bytes that two arrays hold are equal. *)
Definition blk_eq (m m' : bytes) : Prop := forall i, 0 <= i < BSIZE -> m' i = m i.

#[export] Instance blk_eq_equiv : Equivalence blk_eq.
Proof.
  split; [by intros m i _|by intros m m' H i Hi; rewrite H|].
  intros m1 m2 m3 H1 H2 i Hi. by rewrite H2, H1.
Qed.

(** ** The cache between operations *)

Record quiet (d : kdata) : Prop := {
  qu_inv : exists order, bio_inv d order;
  qu_lock : forall b, (b < NBUF)%nat -> (d.(bufs) b).(b_lock).(sl_locked) = 0;
  qu_ref : forall b, (b < NBUF)%nat -> (d.(bufs) b).(b_refcnt) < 2 ^ 31;
}.

(** A block that stays in the cache because something holds a reference to it. *)
Definition pinned (d : kdata) (blk : Z) : Prop :=
  exists b, (b < NBUF)%nat /\ matches d ROOTDEV blk b = true /\ 1 <= (d.(bufs) b).(b_refcnt).

(** At least [k] buffers can be reused. *)
Definition room (k : nat) (d : kdata) : Prop :=
  exists l, NoDup l /\ length l = k /\
    forall b, b ∈ l -> (b < NBUF)%nat /\ (d.(bufs) b).(b_refcnt) = 0.

Section spec.
Context `{WF : WaitFuel} `{DDok : DiskDriverOk} (l0 : lockst) (L : list lockptr).
Context (kt : kptr) (p : nat) (pid : Z).
Hypothesis Henv : fs_env l0 L kt.

Lemma quiet_available d blk :
  quiet d -> pinned d blk \/ room 1 d -> available d ROOTDEV blk.
Proof.
  intros [_ Hl Hr] H. split.
  - destruct H as [(b & Hb & Hm & _)|(l & _ & Hlen & H)]; [exists b; auto|].
    destruct l as [|b [|]]; try done. destruct (H b) as [??]; [by left|]. exists b. auto.
  - intros b Hb _. specialize (Hl b Hb). specialize (Hr b Hb). split; [done|lia].
Qed.

(** A block without references is clean. *)
Lemma unreferenced_clean d order blk b :
  bio_inv d order -> chosen d ROOTDEV blk b -> (d.(bufs) b).(b_refcnt) = 0 ->
  bview d ROOTDEV blk = d.(hw).(hw_disk) blk.
Proof.
  intros Hi [Hb Hch] Hr. destruct (bview_cases d ROOTDEV blk) as [(c & Hc & Mc & Vc & ->)|[_ ->]]; [|done].
  destruct Hch as [Hm|[_ Hn]]; [|by rewrite Hn in Mc].
  rewrite (bi_uniq _ _ Hi c b ROOTDEV blk) in * by done.
  apply matches_eq in Mc as [M1 M2]. rewrite <- M2. apply (bi_idle _ _ Hi b Hb Hr); [done|]. by rewrite M1.
Qed.

(** ** Two blocks read together *)

Record held2 (d : kdata) (x y : Z) (a b : nat) (d2 : kdata) : Prop := {
  h2_a : (a < NBUF)%nat;
  h2_b : (b < NBUF)%nat;
  h2_ne : a <> b;
  h2_inv : exists order, bio_inv d2 order;
  h2_same : fsame d d2 /\ d2.(hw) = d.(hw) /\ d2.(klog) = d.(klog);
  h2_match : matches d2 ROOTDEV x a = true /\ matches d2 ROOTDEV y b = true;
  h2_valid : (d2.(bufs) a).(b_valid) <> 0 /\ (d2.(bufs) b).(b_valid) <> 0;
  h2_lock : (d2.(bufs) a).(b_lock) = sl_taken pid (d.(bufs) a).(b_lock) /\
    (d2.(bufs) b).(b_lock) = sl_taken pid (d.(bufs) b).(b_lock);
  h2_ref : (d2.(bufs) a).(b_refcnt) = (d.(bufs) a).(b_refcnt) + 1 /\
    (d2.(bufs) b).(b_refcnt) = (d.(bufs) b).(b_refcnt) + 1;
  h2_data : (d2.(bufs) a).(b_data) = bview d ROOTDEV x /\ (d2.(bufs) b).(b_data) = bview d ROOTDEV y;
  h2_other : forall c, c <> a -> c <> b -> d2.(bufs) c = d.(bufs) c;
  h2_view : forall z, bview d2 ROOTDEV z = bview d ROOTDEV z;
  h2_old : (matches d ROOTDEV x a = true \/ (d.(bufs) a).(b_refcnt) = 0 /\ ~ pinned d x) /\
    (matches d ROOTDEV y b = true \/ (d.(bufs) b).(b_refcnt) = 0 /\ ~ pinned d y);
  h2_clean : ((d.(bufs) a).(b_refcnt) = 0 -> bview d ROOTDEV x = d.(hw).(hw_disk) x) /\
    ((d.(bufs) b).(b_refcnt) = 0 -> bview d ROOTDEV y = d.(hw).(hw_disk) y);
}.

(** The room that reading two blocks takes. *)
Definition room_for (d : kdata) (x y : Z) : Prop :=
  pinned d x /\ pinned d y \/ (pinned d x \/ pinned d y) /\ room 1 d \/ room 2 d.

Lemma room_for_first d x y : room_for d x y -> pinned d x \/ room 1 d.
Proof.
  intros [[? _]|[[_ ?]|(l & Hnd & Hl & H)]]; [by left|by right|].
  right. destruct l as [|c [|c' l]]; try done. exists [c]. split; [apply NoDup_singleton|].
  split; [done|]. intros ? ->%list_elem_of_singleton. apply H. by left.
Qed.

(** A referenced buffer keeps its block. *)
Lemma read_keeps order x d a d1 z c :
  bio_inv d order -> read_post pid order ROOTDEV x d a d1 -> (c < NBUF)%nat ->
  matches d ROOTDEV z c = true -> 1 <= (d.(bufs) c).(b_refcnt) -> matches d1 ROOTDEV z c = true.
Proof.
  intros Hi P1 Hc Hm Hr. destruct (decide (c = a)) as [->|].
  - destruct (rp_old _ _ _ _ _ _ _ P1) as [_ [Hm'|[? _]]]; [|lia].
    apply matches_eq in Hm as [_ <-], Hm' as [_ ->]. apply (rp_match _ _ _ _ _ _ _ P1).
  - by rewrite (matches_same d d1) by by apply (rp_other _ _ _ _ _ _ _ P1).
Qed.

Lemma room_one d y :
  room 1 d -> exists b, (b < NBUF)%nat /\ (matches d ROOTDEV y b = true \/ (d.(bufs) b).(b_refcnt) = 0).
Proof.
  intros (l & _ & Hl & H). destruct l as [|c [|]]; try done. exists c.
  destruct (H c); [by left|]. auto.
Qed.

(** Reading [x] leaves room for [y]. *)
Lemma room_for_second d order x y a d1 :
  bio_inv d order -> read_post pid order ROOTDEV x d a d1 -> room_for d x y ->
  exists b, (b < NBUF)%nat /\ (matches d1 ROOTDEV y b = true \/ (d1.(bufs) b).(b_refcnt) = 0).
Proof.
  intros Hi P1 Hrm. pose proof (rp_other _ _ _ _ _ _ _ P1) as O1.
  assert (pinned d y -> exists b, (b < NBUF)%nat /\
    (matches d1 ROOTDEV y b = true \/ (d1.(bufs) b).(b_refcnt) = 0)) as Hpy.
  { intros (c & Hc & Hm & Hr). exists c. split; [done|]. left. by eapply read_keeps. }
  destruct Hrm as [[_ ?]|[[[Hpx|?] Hr1]|(l & Hnd & Hl & H)]]; [by apply Hpy| |by apply Hpy|].
  - apply room_one. destruct Hpx as (c & Hc & Hm & Hr). destruct Hr1 as (l & Hnd & Hl & H).
    exists l. split; [done|]. split; [done|]. intros e He. destruct (H e He) as [He1 He2].
    split; [done|]. rewrite O1; [done|]. intros ->.
    destruct (rp_old _ _ _ _ _ _ _ P1) as [_ [Hm'|[_ Hn]]]; [|by rewrite Hn in Hm].
    rewrite (bi_uniq _ _ Hi a c ROOTDEV x) in He2 by done. lia.
  - apply room_one. destruct l as [|c [|c' [|]]]; try done.
    apply NoDup_cons in Hnd as [Hcc _]. rewrite list_elem_of_singleton in Hcc.
    destruct (H c) as [? ?]; [by left|]. destruct (H c') as [? ?]; [by right; left|].
    assert (exists e, e <> a /\ (e < NBUF)%nat /\ (d.(bufs) e).(b_refcnt) = 0) as (e & He & ? & ?).
    { destruct (decide (c = a)) as [->|]; [by exists c'|by exists c]. }
    exists [e]. split; [apply NoDup_singleton|]. split; [done|].
    intros ? ->%list_elem_of_singleton. by rewrite O1.
Qed.

Lemma ev_read2 d x y :
  quiet d -> self kt p pid d -> x <> y -> room_for d x y ->
  exists a b d1 d2, evals l0 L d (bread ROOTDEV x) a L d1 /\ d1.(klog) = d.(klog) /\
    evals l0 L d1 (bread ROOTDEV y) b L d2 /\ held2 d x y a b d2.
Proof.
  intros Hq Hs Hne Hrm. destruct (qu_inv _ Hq) as [order Hi].
  destruct (ev_bread_post l0 L kt p pid Henv d order ROOTDEV x) as (a & d1 & E1 & P1);
    [done..|by eapply quiet_available, room_for_first|].
  pose proof (room_for_second _ _ _ _ _ _ Hi P1 Hrm) as Hr2.
  pose proof (fun c => read_keeps _ _ _ _ _ y c Hi P1) as Hkeep.
  assert (forall c, matches d1 ROOTDEV y c = true -> c <> a) as Hca.
  { intros c [_ ?]%matches_eq ->. destruct P1 as [_ _ _ [_ ?]%matches_eq _ _ _ _ _ _ _]. congruence. }
  destruct P1 as [Ha S1 I1 M1 V1 K1 R1 D1 O1 W1 C1]. pose proof (bi_ref _ _ Hi a Ha) as Ra.
  destruct (ev_bread_post l0 L kt p pid Henv d1 order ROOTDEV y) as (b & d2 & E2 & P2);
    [done|done|eapply self_procs; [apply S1|done]| |].
  { split; [done|]. intros c Hc Hm. rewrite O1 by by apply Hca.
    pose proof (qu_lock _ Hq c Hc). pose proof (qu_ref _ Hq c Hc). split; [done|lia]. }
  destruct P2 as [Hb S2 I2 M2 V2 K2 R2 D2 O2 W2 C2].
  assert (b <> a) as Hab.
  { destruct C2 as [_ [Hm|[Hr _]]]; [by apply Hca|]. intros ->. lia. }
  rewrite (O1 b) in K2, R2 by done. exists a, b, d1, d2. split; [done|]. split; [apply S1|].
  split; [done|].
  split; rewrite ?(O2 a) by done; try done.
  - eauto.
  - destruct S1 as (? & ? & ? & _), S2 as (? & ? & ? & _). split; [by etrans|]. split; congruence.
  - split; [|done]. by rewrite (matches_same d1 d2) by by apply O2.
  - by rewrite W1 in D2.
  - intros c ??. by rewrite O2, O1.
  - intros z. by rewrite W2, W1.
  - split.
    + destruct C1 as [_ [?|[? Hn]]]; [by left|right]. split; [done|].
      intros (c & Hc & Hm & _). by rewrite Hn in Hm.
    + destruct C2 as [_ [Hm|[Hr Hn]]].
      * left. by rewrite (matches_same d d1) in Hm by by apply O1.
      * right. rewrite O1 in Hr by done. split; [done|]. intros (c & Hc & Hm & Hrc).
        pose proof (Hkeep c Hc Hm Hrc) as Hk. by rewrite Hn in Hk.
  - split; [by eapply unreferenced_clean|]. intros Hr. rewrite <- W1.
    destruct S1 as (_ & <- & _). apply (unreferenced_clean d1 order _ b I1 C2). by rewrite O1.
Qed.

Lemma held2_sym d x y a b d2 : held2 d x y a b d2 -> held2 d y x b a d2.
Proof. intros []. split; try done; try tauto. auto. Qed.

(** ** Releasing two buffers *)

Definition held (d : kdata) (b : nat) : Prop :=
  (b < NBUF)%nat /\ (d.(bufs) b).(b_lock).(sl_locked) <> 0 /\ (d.(bufs) b).(b_lock).(sl_pid) = pid /\
  1 <= (d.(bufs) b).(b_refcnt) < 2 ^ 32 /\
  ((d.(bufs) b).(b_refcnt) = 1 -> (d.(bufs) b).(b_dev) <> 0 ->
   (d.(bufs) b).(b_data) = d.(hw).(hw_disk) (d.(bufs) b).(b_blockno)).

Record rel2_post (d : kdata) (a b : nat) (d' : kdata) : Prop := {
  r2_same : fsame d d' /\ d'.(hw) = d.(hw) /\ d'.(klog) = d.(klog);
  r2_inv : exists order, bio_inv d' order;
  r2_contents : same_contents d.(bufs) d'.(bufs);
  r2_ref : forall c, (d'.(bufs) c).(b_refcnt) =
    (d.(bufs) c).(b_refcnt) - (if decide (c = a \/ c = b) then 1 else 0);
  r2_lock : forall c, (d'.(bufs) c).(b_lock).(sl_locked) =
    if decide (c = a \/ c = b) then 0 else (d.(bufs) c).(b_lock).(sl_locked);
}.

Lemma po_release2 d order a b (Q : unit -> list lockptr -> kdata -> Prop) :
  bio_inv d order -> self kt p pid d -> a <> b -> held d a -> held d b ->
  (forall d', rel2_post d a b d' -> Q tt L d') ->
  posts l0 L d (brelse a;; brelse b) Q.
Proof.
  intros Hi Hs Hne (Ha & Ha1 & Ha2 & Ha3 & Ha4) (Hb & Hb1 & Hb2 & Hb3 & Hb4) HQ. po1.
  eapply (po_brelse l0 L kt p pid Henv d order a); try done.
  intros d1 [(F1 & Eh1 & Ek1) [o1 I1] C1 R1 K1 O1]. cbn beta.
  destruct (O1 b ltac:(done)) as [Or1 Ok1]. destruct (C1 b) as (X1 & X2 & X3 & X4).
  eapply (po_brelse l0 L kt p pid Henv d1 o1 b); rewrite ?Or1, ?Ok1, ?X1, ?X2, ?X4, ?Eh1; try done.
  { by eapply self_fsame. }
  intros d2 [(F2 & Eh2 & Ek2) I2 C2 R2 K2 O2]. apply HQ. split.
  - split; [by etrans|]. split; congruence.
  - done.
  - intros c. destruct (C1 c) as (? & ? & ? & ?), (C2 c) as (? & ? & ? & ?). repeat split; congruence.
  - intros c. destruct (decide (c = b)) as [->|Hcb].
    + rewrite decide_True by auto. rewrite R2. by rewrite Or1.
    + destruct (O2 c Hcb) as [-> _]. destruct (decide (c = a)) as [->|Hca].
      * rewrite decide_True by auto. lia.
      * rewrite decide_False by tauto. destruct (O1 c Hca) as [-> _]. lia.
  - intros c. destruct (decide (c = b)) as [->|Hcb].
    + rewrite decide_True by auto. by rewrite K2.
    + destruct (O2 c Hcb) as [_ ->]. destruct (decide (c = a)) as [->|Hca].
      * rewrite decide_True by auto. by rewrite K1.
      * rewrite decide_False by tauto. by destruct (O1 c Hca) as [_ ->].
Qed.

(** ** Changing the data of a held buffer *)

Lemma b_data_upd (x : buf) f : x <| b_data ::= f |> = x <| b_data := f x.(b_data) |>.
Proof. done. Qed.

(** [data1 b f d d']: only the data of buffer [b] has changed, by [f]. *)
Definition data1 (b : nat) (f : bytes -> bytes) : kdata -> kdata -> Prop :=
  buf1 b (fun x => x <| b_data ::= f |>).
Definition set_data (b : nat) (f : bytes -> bytes) (d : kdata) : kdata :=
  upd_buf b (fun x => x <| b_data ::= f |>) d.

Lemma set_data1 b f d : data1 b f d (set_data b f d).
Proof. apply buf1_upd. Qed.

Lemma data1_matches b f d d' dev blk c :
  data1 b f d d' -> matches d' dev blk c = matches d dev blk c.
Proof.
  intros [A O _]. destruct (decide (c = b)) as [->|]; [|by apply matches_same, O].
  unfold matches. by rewrite A.
Qed.

Lemma data1_inv d d' order b f :
  bio_inv d order -> (b < NBUF)%nat -> 1 <= (d.(bufs) b).(b_refcnt) -> data1 b f d d' ->
  bio_inv d' order.
Proof.
  intros Hi Hb Hr H1. pose proof (fun dev blk c => data1_matches _ _ _ _ dev blk c H1) as Em.
  assert (forall c, exists m, d'.(bufs) c = d.(bufs) c <| b_data := m |> /\
    (c <> b -> d'.(bufs) c = d.(bufs) c)) as Hc.
  { destruct H1 as [A O _]. intros c. destruct (decide (c = b)) as [->|N].
    - rewrite A. by eexists.
    - rewrite O by done. exists (d.(bufs) c).(b_data). by destruct (d.(bufs) c). }
  assert (d'.(hw) = d.(hw)) as Eh by by rewrite (b1_rest _ _ _ _ H1).
  destruct Hi as [I1 I2 I3 I4 I5 I6]. split; try done.
  - eapply dll_ext; [done|..]; intros c _; by destruct (Hc c) as (m & -> & _).
  - intros b1 b2 dev blk H1' H2 Hd M1 M2. rewrite Em in M1, M2. by apply (I3 b1 b2 dev blk).
  - intros c H. destruct (Hc c) as (m & -> & _). by apply I4.
  - intros c H. destruct (Hc c) as (m & -> & _). by apply I5.
  - intros c H. destruct (decide (c = b)) as [->|N].
    + destruct (Hc b) as (m & -> & _). cbn. lia.
    + destruct (Hc c) as (m & _ & E). rewrite E, Eh by done. by apply I6.
Qed.

Lemma data1_view d d' order b f z blk :
  bio_inv d order -> (b < NBUF)%nat -> 1 <= (d.(bufs) b).(b_refcnt) ->
  matches d ROOTDEV blk b = true -> (d.(bufs) b).(b_valid) <> 0 -> data1 b f d d' ->
  bview d' ROOTDEV z = if decide (z = blk) then f (d.(bufs) b).(b_data) else bview d ROOTDEV z.
Proof.
  intros Hi Hb Hr Hm Hv H1. pose proof (data1_inv _ _ _ _ _ Hi Hb Hr H1) as Hi'.
  pose proof (fun c => data1_matches _ _ _ _ ROOTDEV z c H1) as Em.
  pose proof (data1_matches _ _ _ _ ROOTDEV blk b H1) as Emb.
  assert (d'.(hw) = d.(hw)) as Eh by by rewrite (b1_rest _ _ _ _ H1).
  destruct H1 as [Eb Eo _].
  destruct (decide (z = blk)) as [->|Hne].
  - by rewrite (bview_cached _ order Hi' _ _ b); rewrite ?Emb, ?Eb.
  - destruct (bview_cases d ROOTDEV z) as [(c & Hc & Mc & Vc & ->)|[Hn ->]].
    + assert (c <> b) by (intros ->; apply matches_eq in Mc as [_ ?], Hm as [_ ?]; congruence).
      by rewrite (bview_cached _ order Hi' _ _ c); rewrite ?Em, ?Eo by done.
    + rewrite bview_uncached, Eh; [done|]. intros c Hc Mc. rewrite Em in Mc.
      assert (c <> b) by (intros ->; apply matches_eq in Mc as [_ ?], Hm as [_ ?]; congruence).
      rewrite Eo by done. by apply Hn.
Qed.

(** ** Copying a block *)

Definition copied_def (d : kdata) (x y : Z) : bytes :=
  memmove_across (bview d ROOTDEV y) 0 (bview d ROOTDEV x) 0 BSIZE.
Definition copied_aux : seal copied_def.
Proof. by eexists. Qed.
Definition copied := copied_aux.(unseal).
Lemma copied_unseal : copied = copied_def.
Proof. apply copied_aux.(seal_eq). Qed.

Lemma copied_eq d x y : blk_eq (bview d ROOTDEV x) (copied d x y).
Proof.
  intros i Hi. rewrite copied_unseal; unfold copied_def. rewrite memmove_across_spec by done.
  destruct (Z.leb_spec 0 i), (Z.ltb_spec i (0 + BSIZE)); try lia. cbn. f_equal. lia.
Qed.

(** Block [x] has been copied to block [y], in the cache and on the disk. *)
Record copy_post (unpin : bool) (d : kdata) (x y : Z) (d' : kdata) : Prop := {
  cp_same : fsame d d' /\ d'.(klog) = d.(klog);
  cp_quiet : quiet d';
  cp_hw : d'.(hw) = d.(hw) <| hw_disk ::= <[y := copied d x y]> |>
                           <| hw_writes ::= fun w => (y, copied d x y) :: w |>;
  cp_view : forall z, bview d' ROOTDEV z = if decide (z = y) then copied d x y else bview d ROOTDEV z;
  cp_ref : forall c, (c < NBUF)%nat -> (d'.(bufs) c).(b_refcnt) =
    (d.(bufs) c).(b_refcnt) - (if unpin && matches d ROOTDEV y c then 1 else 0);
  cp_keep : forall c z, (c < NBUF)%nat -> 1 <= (d.(bufs) c).(b_refcnt) ->
    matches d ROOTDEV z c = true -> matches d' ROOTDEV z c = true;
}.

(** The state after the copy and the write, before the buffers are released. *)
Record copying (unpin : bool) (d : kdata) (x y : Z) (a b : nat) (d2 d5 : kdata) : Prop := {
  cy_inv : exists order, bio_inv d5 order;
  cy_same : fsame d d5 /\ d5.(klog) = d.(klog);
  cy_hw : d5.(hw) = d.(hw) <| hw_disk ::= <[y := copied d x y]> |>
                           <| hw_writes ::= fun w => (y, copied d x y) :: w |>;
  cy_view : forall z, bview d5 ROOTDEV z = if decide (z = y) then copied d x y else bview d ROOTDEV z;
  cy_other : forall c, c <> b -> d5.(bufs) c = d2.(bufs) c;
  cy_b : (d5.(bufs) b).(b_dev) = (d2.(bufs) b).(b_dev) /\
    (d5.(bufs) b).(b_blockno) = (d2.(bufs) b).(b_blockno) /\
    (d5.(bufs) b).(b_lock) = (d2.(bufs) b).(b_lock) /\
    (d5.(bufs) b).(b_refcnt) = (d2.(bufs) b).(b_refcnt) - (if unpin then 1 else 0) /\
    (d5.(bufs) b).(b_data) = copied d x y;
}.

Lemma copying_held unpin d x y a b d2 d5 :
  quiet d -> x <> y -> held2 d x y a b d2 -> copying unpin d x y a b d2 d5 ->
  (unpin = true -> 1 <= (d.(bufs) b).(b_refcnt)) -> held d5 a /\ held d5 b.
Proof.
  intros Hq Hxy [Ha Hb Hne _ (_ & Eh & _) [Ma Mb] _ [Ka Kb] [Ra Rb] [Da _] _ _ _ [Ca _]]
    [_ _ H5 _ O (B1 & B2 & B3 & B4 & B5)] Hu.
  destruct (qu_inv _ Hq) as [o Hi]. pose proof (bi_ref _ _ Hi a Ha). pose proof (bi_ref _ _ Hi b Hb).
  pose proof (qu_ref _ Hq a Ha). pose proof (qu_ref _ Hq b Hb).
  apply matches_eq in Ma as [Ma1 Ma2], Mb as [Mb1 Mb2].
  split.
  - unfold held. rewrite O by done. rewrite Ka. cbn. do 3 (split; [done|]). split; [lia|].
    intros Hr _. rewrite Da, Ma2, H5. cbn. rewrite fn_lookup_insert_ne by done. apply Ca. lia.
  - unfold held. rewrite B3, Kb, B4, B5, B2, Mb2, H5. cbn. do 3 (split; [done|]). split; [destruct unpin; lia|].
    intros _ _. by rewrite fn_lookup_insert.
Qed.

Lemma copying_post unpin d x y a b d2 d5 d' :
  quiet d -> held2 d x y a b d2 -> copying unpin d x y a b d2 d5 ->
  (unpin = true -> 1 <= (d.(bufs) b).(b_refcnt)) -> rel2_post d5 a b d' -> copy_post unpin d x y d'.
Proof.
  intros Hq [Ha Hb Hne _ (_ & Eh & _) [Ma Mb] _ [Ka Kb] [Ra Rb] _ O2 _ [Oa Ob] _]
    [_ [F5 K5] H5 V5 O (B1 & B2 & B3 & B4 & B5)] Hu [(F & Eh' & Ek) I' C R K].
  destruct (qu_inv _ Hq) as [o Hi].
  assert (forall c, c <> a -> c <> b -> d5.(bufs) c = d.(bufs) c) as Oc.
  { intros c ??. rewrite O by done. by apply O2. }
  assert (forall c, (c < NBUF)%nat -> (d'.(bufs) c).(b_refcnt) =
    (d.(bufs) c).(b_refcnt) - (if unpin && matches d ROOTDEV y c then 1 else 0)) as Hr.
  { intros c Hc. rewrite R. destruct (decide (c = b)) as [->|Ncb].
    - rewrite decide_True by auto. rewrite B4, Rb. destruct unpin; cbn; [|lia].
      destruct Ob as [->|[Ob _]]; [lia|]. specialize (Hu eq_refl). lia.
    - replace (unpin && matches d ROOTDEV y c) with false.
      + destruct (decide (c = a)) as [->|Nca].
        * rewrite decide_True by auto. rewrite O, Ra by done. lia.
        * rewrite decide_False by tauto. by rewrite Oc.
      + symmetry. apply andb_false_iff. destruct unpin; [right|by left].
        destruct (matches d ROOTDEV y c) eqn:E; [|done]. destruct Ncb.
        destruct Ob as [Ob|[Ob _]]; [|specialize (Hu eq_refl); lia]. by apply (bi_uniq _ _ Hi c b ROOTDEV y). }
  split; [|split|..].
  - split; [by etrans|congruence].
  - done.
  - intros c Hc. rewrite K. destruct (decide (c = a \/ c = b)); [done|]. rewrite Oc by tauto. by apply (qu_lock _ Hq).
  - intros c Hc. rewrite Hr by done. pose proof (qu_ref _ Hq c Hc). destruct (unpin && _); lia.
  - congruence.
  - intros z. rewrite <- V5. apply same_contents_view; [done|]. by rewrite Eh'.
  - done.
  - intros c z Hc H1 Hm. unfold matches. destruct (C c) as (-> & -> & _). fold (matches d5 ROOTDEV z c).
    destruct (decide (c = a)) as [->|Nca]; [|destruct (decide (c = b)) as [->|Ncb]].
    + destruct Oa as [Oa|[Oa _]]; [|lia]. rewrite (matches_same d2 d5) by by apply O.
      apply matches_eq in Oa as [_ Oa], Hm as [_ Hm]. by replace z with x by congruence.
    + destruct Ob as [Ob|[Ob _]]; [|lia]. unfold matches. rewrite B1, B2. fold (matches d2 ROOTDEV z b).
      apply matches_eq in Ob as [_ Ob], Hm as [_ Hm]. by replace z with y by congruence.
    + by rewrite (matches_same d d5) by by apply Oc.
Qed.

(** ** The steps between reading and releasing *)

Lemma ev_bunpin d b :
  evals l0 L d (bunpin b) tt L (upd_buf b (fun x => x <| b_refcnt ::= fun n => u32 (n - 1) |>) d).
Proof.
  destruct (fe_lock _ _ _ Henv bcache_lock I) as [Hb1 Hb2]. unfold bunpin.
  ev1. { ev1. } cbn beta. ev1. { apply ev_b_set. } cbn beta. ev1.
Qed.

Lemma ev_copy_write d x y a b d2 :
  quiet d -> self kt p pid d -> held2 d x y a b d2 ->
  exists d3 d4, evals l0 L d2 (memmove_buf b a) tt L d3 /\ evals l0 L d3 (bwrite b) tt L d4 /\
    copying false d x y a b d2 d4.
Proof.
  intros Hq Hs [Ha Hb Hne [o Hi] (F & Eh & Ek) [Ma Mb] [Va Vb] [Ka Kb] [Ra Rb] [Da Db] O V _ _].
  destruct (qu_inv _ Hq) as [o' Hi0]. pose proof (bi_ref _ _ Hi0 b Hb).
  set (d3 := set_data b (fun m => memmove_across m 0 (d2.(bufs) a).(b_data) 0 BSIZE) d2).
  assert (d3.(bufs) b = d2.(bufs) b <| b_data := copied d x y |>) as E3.
  { unfold d3, set_data. cbn. rewrite fn_lookup_alter, b_data_upd. rewrite copied_unseal; unfold copied_def. by rewrite <- Da, <- Db. }
  assert (bio_inv d3 o) as I3 by (eapply data1_inv; [done|done| |apply set_data1]; lia).
  apply matches_eq in Mb as [Mb1 Mb2].
  assert ((d3.(bufs) b).(b_dev) = ROOTDEV) as Edev by by rewrite E3.
  exists d3, (write_d b d3). split.
  { unfold memmove_buf. ev1. { apply ev_b_get. } apply ev_b_set. }
  split.
  { apply (ev_bwrite l0 L kt p pid Henv); [|by rewrite E3; cbn; rewrite Kb..].
    by eapply self_procs, self_fsame, Hs; [|exact F]. }
  split.
  - exists o. by apply write_inv.
  - split; [|done]. etrans; [exact F|]. unfold fsame. done.
  - unfold write_d. rewrite E3. change (hw d3) with (hw d2). cbn. by rewrite Mb2, Eh.
  - intros z. rewrite (write_view _ o), <- V by (done || by rewrite E3). unfold d3.
    rewrite (data1_view d2 _ o b (fun m => memmove_across m 0 (d2.(bufs) a).(b_data) 0 BSIZE) _ y); [|done|done|lia|by apply matches_eq|done|apply set_data1].
    case_dec; [|done]. rewrite copied_unseal; unfold copied_def. by rewrite <- Da, <- Db.
  - intros c Hc. unfold d3. cbn. by apply fn_lookup_alter_ne.
  - change (bufs (write_d b d3)) with (bufs d3). rewrite E3. cbn. repeat split; lia || done.
Qed.

Lemma copying_unpin d x y a b d2 d4 :
  quiet d -> (b < NBUF)%nat -> (d2.(bufs) b).(b_refcnt) = (d.(bufs) b).(b_refcnt) + 1 ->
  1 <= (d.(bufs) b).(b_refcnt) -> copying false d x y a b d2 d4 ->
  copying true d x y a b d2 (upd_buf b (fun x => x <| b_refcnt ::= fun n => u32 (n - 1) |>) d4).
Proof.
  intros Hq Hb Rb Hr [[o Hi] [F K] H V O (B1 & B2 & B3 & B4 & B5)].
  pose proof (qu_ref _ Hq b Hb) as Hmax. set (d5 := upd_buf b _ d4).
  assert (forall c, c <> b -> d5.(bufs) c = d4.(bufs) c) as O5.
  { intros c Hc. by apply fn_lookup_alter_ne. }
  assert (d5.(bufs) b = d4.(bufs) b <| b_refcnt ::= fun n => u32 (n - 1) |>) as E5 by apply fn_lookup_alter.
  assert (fsame d4 d5 /\ d5.(hw) = d4.(hw) /\ d5.(klog) = d4.(klog)) as (F5 & H5 & K5).
  { split; [|done]. eapply (buf1_same b _ d4 d5), buf1_upd. }
  clearbody d5.
  assert ((d5.(bufs) b).(b_refcnt) = (d.(bufs) b).(b_refcnt)) as R5.
  { rewrite E5. cbn. rewrite B4, Rb, u32_small; lia. }
  assert (same_contents d4.(bufs) d5.(bufs)) as C5.
  { intros c. destruct (decide (c = b)) as [->|]; [rewrite E5|rewrite O5 by done]; repeat split. }
  split.
  - exists o. destruct Hi as [I1 I2 I3 I4 I5 I6]. split; [|exact I2|..].
    + eapply dll_ext; [done|..]; intros c _; destruct (decide (c = b)) as [->|];
        rewrite ?E5, ?O5 by done; done.
    + intros b1 b2 dev blk H1 H2 Hd M1 M2. apply (I3 b1 b2 dev blk); try done; unfold matches in *.
      * by destruct (C5 b1) as (E1 & E2 & _); rewrite E1, E2 in M1.
      * by destruct (C5 b2) as (E1 & E2 & _); rewrite E1, E2 in M2.
    + intros c Hc. destruct (C5 c) as (-> & _). by apply I4.
    + intros c Hc. destruct (decide (c = b)) as [->|]; [lia|rewrite O5 by done; by apply I5].
    + intros c Hc. destruct (decide (c = b)) as [->|]; [lia|]. rewrite O5, H5 by done. by apply I6.
  - split; [by etrans|congruence].
  - congruence.
  - intros z. rewrite <- V. apply same_contents_view; [done|by rewrite H5].
  - intros c Hc. by rewrite O5, O.
  - destruct (C5 b) as (-> & -> & _ & ->). rewrite R5, E5. cbn. repeat split; try done. lia.
Qed.
End spec.
