(* ===== verification/LogCommit.v ===== *)
(** * Commit and recovery of kernel/log.c

    The loops of [write_log], [install_trans], [read_head] and [write_head], the
    sequence of block writes that [commit] and [recover_from_log] issue, and the
    crash states between them. *)
From S2P Require Export LogSpec.

(** ** The disk as a sequence of block writes *)

Definition apply_write (D : Z -> bytes) (w : Z * bytes) : Z -> bytes := <[w.1 := w.2]> D.
Definition disk_after (D : Z -> bytes) (ws : list (Z * bytes)) : Z -> bytes := foldl apply_write D ws.

Lemma disk_after_app D ws1 ws2 : disk_after D (ws1 ++ ws2) = disk_after (disk_after D ws1) ws2.
Proof. apply foldl_app. Qed.

Lemma disk_after_ext D D' ws z : (forall z, D z = D' z) -> disk_after D ws z = disk_after D' ws z.
Proof.
  revert D D'. induction ws as [|w ws IH]; intros D D' H; [apply H|]. apply IH.
  intros y. unfold apply_write. rewrite !fn_insert_case. by case_dec.
Qed.

Lemma disk_after_out D ws z : z ∉ ws.*1 -> disk_after D ws z = D z.
Proof.
  revert D. induction ws as [|w ws IH]; intros D H; [done|]. cbn in H.
  apply not_elem_of_cons in H as [Hz H]. cbn. rewrite IH by done. by apply fn_lookup_insert_ne.
Qed.

(** ** The effect of a run of the log

    [logrun d ws d']: the blocks [ws] have been written, in this order, and nothing
    else has happened to the contents of the file system. *)
Record logrun (d : kdata) (ws : list (Z * bytes)) (d' : kdata) : Prop := {
  lr_same : fsame d d' /\ d'.(klog) = d.(klog);
  lr_quiet : quiet d';
  lr_disk : d'.(hw).(hw_disk) = disk_after d.(hw).(hw_disk) ws;
  lr_writes : d'.(hw).(hw_writes) = rev ws ++ d.(hw).(hw_writes);
  lr_view : forall z, bview d' ROOTDEV z = disk_after (bview d ROOTDEV) ws z;
}.

Lemma logrun_refl d : quiet d -> logrun d [] d.
Proof. by split. Qed.

Lemma logrun_trans d1 ws1 d2 ws2 d3 :
  logrun d1 ws1 d2 -> logrun d2 ws2 d3 -> logrun d1 (ws1 ++ ws2) d3.
Proof.
  intros [[F1 K1] Q1 D1 W1 V1] [[F2 K2] Q2 D2 W2 V2]. split.
  - split; [by etrans|congruence].
  - done.
  - by rewrite disk_after_app, D2, D1.
  - by rewrite W2, W1, rev_app_distr, app_assoc.
  - intros z. rewrite V2, disk_after_app. by apply disk_after_ext.
Qed.

Lemma logrun_klog d ws d' (g : log) :
  logrun d ws d' -> logrun (d <| klog := g |>) ws (d' <| klog := g |>).
Proof.
  intros [[F K] [[o Hi] Ql Qr] D W V]. split; try done.
  - split; [|done]. unfold fsame in *. cbn. apply (woke_upd (fun x => x <| klog := g |>)) in F; done.
  - split; [|done..]. exists o. by destruct Hi; split.
Qed.

(** References and the blocks they keep. *)
Record refs_same (d d' : kdata) : Prop := {
  rs_ref : forall c, (c < NBUF)%nat -> (d'.(bufs) c).(b_refcnt) = (d.(bufs) c).(b_refcnt);
  rs_keep : forall c z, (c < NBUF)%nat -> 1 <= (d.(bufs) c).(b_refcnt) ->
    matches d ROOTDEV z c = true -> matches d' ROOTDEV z c = true;
}.

#[export] Instance refs_same_preorder : PreOrder refs_same.
Proof.
  split; [by split|]. intros d1 d2 d3 [R1 K1] [R2 K2]. split.
  - intros c Hc. by rewrite R2, R1.
  - intros c z Hc Hr Hm. apply K2; [done|by rewrite R1|by apply K1].
Qed.

Lemma pinned_refs d d' z : refs_same d d' -> pinned d z -> pinned d' z.
Proof.
  intros [R K] (c & Hc & Hm & Hr). exists c. split; [done|]. split; [by apply K|by rewrite R].
Qed.

Lemma room_refs k d d' : refs_same d d' -> room k d -> room k d'.
Proof.
  intros [R _] (l & Hn & Hl & H). exists l. split; [done|]. split; [done|].
  intros b Hb. destruct (H b Hb) as [? ?]. by rewrite R.
Qed.

(** [unpins d l d']: each buffer that holds a block of [l] has lost one reference. *)
Record unpins (d : kdata) (l : list Z) (d' : kdata) : Prop := {
  up_zero : forall c, (c < NBUF)%nat -> (d.(bufs) c).(b_refcnt) = 0 -> (d'.(bufs) c).(b_refcnt) = 0;
  up_ref : forall c z, (c < NBUF)%nat -> 1 <= (d.(bufs) c).(b_refcnt) -> matches d ROOTDEV z c = true ->
    (d'.(bufs) c).(b_refcnt) = (d.(bufs) c).(b_refcnt) - (if decide (z ∈ l) then 1 else 0);
  up_keep : forall c z, (c < NBUF)%nat -> 1 <= (d.(bufs) c).(b_refcnt) -> matches d ROOTDEV z c = true ->
    1 <= (d'.(bufs) c).(b_refcnt) -> matches d' ROOTDEV z c = true;
}.

Lemma unpins_nil d : unpins d [] d.
Proof. split; try done. intros. rewrite decide_False by apply not_elem_of_nil. lia. Qed.

Lemma unpins_pinned d l d' z : unpins d l d' -> pinned d z -> (z ∉ l) -> pinned d' z.
Proof.
  intros [_ R K] (c & Hc & Hm & Hr) Hz. pose proof (R c z Hc Hr Hm) as E. rewrite decide_False in E by done.
  exists c. split; [done|]. split; [apply K; try done; lia|lia].
Qed.

Lemma unpins_room d l d' k : unpins d l d' -> room k d -> room k d'.
Proof.
  intros [Z _ _] (s & Hn & Hl & H). exists s. split; [done|]. split; [done|].
  intros b Hb. destruct (H b Hb). auto.
Qed.

Lemma unpins_refs d d1 l d2 d3 : refs_same d d1 -> unpins d1 l d2 -> refs_same d2 d3 -> unpins d l d3.
Proof.
  intros [R1 K1] [Z R K] [R2 K2]. split.
  - intros c Hc E. rewrite R2 by done. apply Z; [done|]. by rewrite R1.
  - intros c z Hc H Hm. rewrite R2 by done. rewrite <- R1 by done. apply R; [done|by rewrite R1|by apply K1].
  - intros c z Hc H Hm H3. rewrite R2 in H3 by done. apply K2; [done|done|].
    apply K; [done|by rewrite R1|by apply K1|done].
Qed.

(** ** The header block *)

Definition store_words (blk : Z -> Z) (l : list Z) (m : bytes) : bytes :=
  foldl (fun m i => store32 m (4 + 4 * i) (u32 (blk i))) m l.

(** What [write_head] leaves in the header block. *)
Definition head_bytes (g : log) (m : bytes) : bytes :=
  store_words g.(lh_block) (seqZ 0 g.(lh_n)) (store32 m 0 (u32 g.(lh_n))).

Lemma store_words_out blk l m a :
  (forall i, i ∈ l -> a + 4 <= 4 + 4 * i \/ 4 + 4 * i + 4 <= a) ->
  load32 (store_words blk l m) a = load32 m a.
Proof.
  revert m. induction l as [|j l IH]; intros m H; [done|].
  change (store_words blk (j :: l) m) with (store_words blk l (store32 m (4 + 4 * j) (u32 (blk j)))).
  rewrite IH.
  - apply load_store_ne. specialize (H j ltac:(by left)). lia.
  - intros i Hi. apply H. by right.
Qed.

Lemma store_words_in blk l m i :
  NoDup l -> i ∈ l -> load32 (store_words blk l m) (4 + 4 * i) = u32 (blk i).
Proof.
  revert m. induction l as [|j l IH]; intros m Hn Hi; [by apply elem_of_nil in Hi|].
  apply NoDup_cons in Hn as [Hj Hn]. apply elem_of_cons in Hi as [->|Hi]; [|by apply IH].
  change (store_words blk (j :: l) m) with (store_words blk l (store32 m (4 + 4 * j) (u32 (blk j)))).
  rewrite store_words_out.
  - unfold load32, store32. rewrite load_store. change (256 ^ Z.of_nat 4) with (2 ^ 32).
    apply Z.mod_small, u32_bound.
  - intros k Hk. assert (k <> j) by (intros ->; done). lia.
Qed.

Lemma s32_u32 x : s32 (u32 x) = s32 x.
Proof. unfold s32, u32. by rewrite Zplus_mod_idemp_l. Qed.

(** The header is read back as it was written. *)
Lemma head_roundtrip g m :
  - 2 ^ 31 <= g.(lh_n) < 2 ^ 31 ->
  (forall i, 0 <= i < g.(lh_n) -> - 2 ^ 31 <= g.(lh_block) i < 2 ^ 31) ->
  hdr_n (head_bytes g m) = g.(lh_n) /\
  forall i, 0 <= i < g.(lh_n) -> hdr_block (head_bytes g m) i = g.(lh_block) i.
Proof.
  intros Hn Hb. unfold hdr_n, hdr_block, head_bytes. split.
  - rewrite store_words_out.
    + unfold load32, store32. rewrite load_store. change (256 ^ Z.of_nat 4) with (2 ^ 32).
      rewrite Z.mod_small by apply u32_bound. by rewrite s32_u32, s32_small.
    + intros i Hi%elem_of_seqZ. lia.
  - intros i Hi. rewrite store_words_in by (apply NoDup_seqZ || (apply elem_of_seqZ; lia)).
    by rewrite s32_u32, s32_small by auto.
Qed.

Lemma hdr_n_eq m m' : blk_eq m m' -> hdr_n m' = hdr_n m.
Proof. intros H. unfold hdr_n. f_equal. apply load_ext. intros i Hi. apply H. unfold BSIZE. lia. Qed.

Lemma hdr_block_eq m m' i : blk_eq m m' -> 0 <= i < LOGSIZE -> hdr_block m' i = hdr_block m i.
Proof.
  intros H Hi. unfold hdr_block. f_equal. apply load_ext. intros j Hj. apply H.
  change LOGSIZE with 30 in Hi. change BSIZE with 1024. lia.
Qed.

Section copy.
Context `{WF : WaitFuel} `{DDok : DiskDriverOk} (l0 : lockst) (L : list lockptr).
Context (kt : kptr) (p : nat) (pid : Z).
Hypothesis Henv : fs_env l0 L kt.

(** The part of the loop bodies of [install_trans] and [write_log] that follows the
    two [bread]s. *)
Definition copy_tail (unpin : bool) (dst src : nat) : M unit :=
  memmove_buf dst src;;
  bwrite dst;;
  when unpin (bunpin dst);;
  brelse src;;
  brelse dst.

Lemma held2_pinned d x y a b d2 :
  quiet d -> held2 pid d x y a b d2 -> pinned d y -> 1 <= (d.(bufs) b).(b_refcnt).
Proof.
  intros Hq H2 Hp. destruct (qu_inv _ Hq) as [o Hi].
  destruct (proj2 (h2_old _ _ _ _ _ _ _ H2)) as [Hm|[_ Hn]]; [|done].
  destruct Hp as (c & Hc & Hmc & Hr). pose proof (h2_b _ _ _ _ _ _ _ H2) as Hb.
  by rewrite (bi_uniq _ _ Hi b c ROOTDEV y).
Qed.

Lemma po_copy_tail unpin d x y a b d2 :
  quiet d -> self kt p pid d -> x <> y -> held2 pid d x y a b d2 -> (unpin = true -> pinned d y) ->
  pst l0 L d2 (copy_tail unpin b a) (fun _ d' => copy_post unpin d x y d').
Proof.
  intros Hq Hs Hne H2 Hu.
  assert (unpin = true -> 1 <= (d.(bufs) b).(b_refcnt)) as Hu1.
  { intros Hun. by eapply held2_pinned; [| |apply Hu]. }
  destruct (ev_copy_write l0 L kt p pid Henv d x y a b d2 Hq Hs H2) as (d3 & d4 & E3 & E4 & C4).
  assert (exists d5, evals l0 L d4 (when unpin (bunpin b)) tt L d5 /\ copying unpin d x y a b d2 d5)
    as (d5 & E5 & C5).
  { destruct unpin; [|eexists; split; [apply ev_ret|done]].
    eexists. split; [by apply (ev_bunpin l0 L kt Henv)|].
    apply copying_unpin; [done|apply H2|apply H2|by apply Hu1|done]. }
  unfold copy_tail. po1. po1. eapply po_evals; [exact E3|]. po1. eapply po_evals; [exact E4|].
  po1. eapply po_evals; [exact E5|]. cbn beta.
  destruct (copying_held pid unpin d x y a b d2 d5) as [Ha Hb]; [done..|].
  destruct (cy_inv _ _ _ _ _ _ _ _ C5) as [o5 I5].
  eapply (po_release2 l0 L kt p pid Henv d5 o5); try done.
  - eapply self_fsame; [apply C5|done].
  - apply H2.
  - intros d' R. split; [done|]. by eapply (copying_post pid).
Qed.

Lemma copy_logrun unpin d x y d' : copy_post unpin d x y d' -> logrun d [(y, copied d x y)] d'.
Proof.
  intros [S Q H V R K]. split; try done.
  - by rewrite H.
  - by rewrite H.
  - intros z. rewrite V. cbn. unfold apply_write. rewrite fn_insert_case. cbn. by repeat case_dec.
Qed.

Lemma copy_refs d x y d' : copy_post false d x y d' -> refs_same d d'.
Proof. intros [S Q H V R K]. split; [|done]. intros c Hc. rewrite R by done. cbn. lia. Qed.

Lemma copy_unpins d l d1 x y d2 :
  quiet d1 -> unpins d l d1 -> copy_post true d1 x y d2 -> (y ∉ l) -> pinned d1 y ->
  unpins d (l ++ [y]) d2.
Proof.
  intros Hq [Z R K] Hc Hy (e & He & Hme & Hre). destruct (qu_inv _ Hq) as [o Hi].
  assert (forall c, (c < NBUF)%nat -> (d1.(bufs) c).(b_refcnt) = 0 ->
    (d2.(bufs) c).(b_refcnt) = 0) as Hz.
  { intros c Hc' E. rewrite (cp_ref _ _ _ _ _ Hc c Hc'), E.
    destruct (matches d1 ROOTDEV y c) eqn:Em; [|done].
    rewrite (bi_uniq _ _ Hi e c ROOTDEV y) in Hre by done. lia. }
  split.
  - auto.
  - intros c z Hc' Hr Hm. pose proof (R c z Hc' Hr Hm) as E1. pose proof (bi_ref _ _ Hi c Hc') as Hnn.
    destruct (decide ((d1.(bufs) c).(b_refcnt) = 0)) as [E0|N0].
    + rewrite (Hz c Hc' E0). destruct (decide (z ∈ l)) as [Hl|Hl]; [|lia].
      rewrite decide_True by (apply elem_of_app; by left). lia.
    + assert (matches d1 ROOTDEV z c = true) as Hm1 by (apply K; try done; lia).
      rewrite (cp_ref _ _ _ _ _ Hc c Hc'), E1. cbn [andb].
      destruct (matches d1 ROOTDEV y c) eqn:Em.
      * assert (z = y) as -> by (apply matches_eq in Em as [_ ?], Hm1 as [_ ?]; congruence).
        rewrite decide_False by done. rewrite decide_True by (apply elem_of_app; right; by left). lia.
      * assert (z <> y) as Hzy by (intros ->; congruence).
        destruct (decide (z ∈ l)) as [Hl|Hl].
        -- rewrite decide_True by (apply elem_of_app; by left). lia.
        -- rewrite decide_False; [lia|]. intros [?|?%list_elem_of_singleton]%elem_of_app; done.
  - intros c z Hc' Hr Hm H2. assert (1 <= (d1.(bufs) c).(b_refcnt)) as H1.
    { pose proof (bi_ref _ _ Hi c Hc'). destruct (decide ((d1.(bufs) c).(b_refcnt) = 0)) as [E0|]; [|lia].
      rewrite Hz in H2 by done. lia. }
    apply (cp_keep _ _ _ _ _ Hc); [done|done|by apply K].
Qed.

(** ** One block read, possibly changed and written, and released *)

Lemma read_refs order x d b d1 d' :
  bio_inv d order -> read_post pid order ROOTDEV x d b d1 ->
  (forall c, (d'.(bufs) c).(b_dev) = (d1.(bufs) c).(b_dev) /\
     (d'.(bufs) c).(b_blockno) = (d1.(bufs) c).(b_blockno)) ->
  (forall c, (d'.(bufs) c).(b_refcnt) =
     (d1.(bufs) c).(b_refcnt) - (if decide (c = b) then 1 else 0)) -> refs_same d d'.
Proof.
  intros Hi P Hc Hr. split.
  - intros c Hc'. rewrite Hr. destruct (decide (c = b)) as [->|].
    + rewrite (rp_ref _ _ _ _ _ _ _ P). lia.
    + rewrite (rp_other _ _ _ _ _ _ _ P) by done. lia.
  - intros c z Hc' H1 Hm. assert (matches d1 ROOTDEV z c = true) as Hm1 by by eapply read_keeps.
    apply matches_eq in Hm1. apply matches_eq. by destruct (Hc c) as (-> & ->).
Qed.

Lemma rel_quiet order x d d1 b d' :
  quiet d -> read_post pid order ROOTDEV x d b d1 ->
  (forall c, c <> b -> (d'.(bufs) c).(b_lock) = (d1.(bufs) c).(b_lock)) ->
  (d'.(bufs) b).(b_lock).(sl_locked) = 0 ->
  refs_same d d' -> (exists o, bio_inv d' o) -> quiet d'.
Proof.
  intros Hq P Hl Hb [R _] Ho. split; [done|..].
  - intros c Hc. destruct (decide (c = b)) as [->|]; [done|]. rewrite Hl by done.
    rewrite (rp_other _ _ _ _ _ _ _ P) by done. by apply (qu_lock _ Hq).
  - intros c Hc. rewrite R by done. by apply (qu_ref _ Hq).
Qed.

Lemma po_put_write d order x b d1 d2 f :
  quiet d -> self kt p pid d -> bio_inv d order -> read_post pid order ROOTDEV x d b d1 -> data1 b f d1 d2 ->
  pst l0 L d2 (bwrite b;; brelse b)
    (fun _ d' => logrun d [(x, f (bview d ROOTDEV x))] d' /\ refs_same d d').
Proof.
  intros Hq Hs Hi P H1. pose proof P as [Hb (F1 & E1 & K1 & P1) I1 M1 V1 L1 R1 D1 O1 W1 C1].
  pose proof H1 as [A2 O2 _].
  destruct (buf1_same _ _ _ _ H1) as (F2 & E2 & K2 & P2).
  pose proof (bi_ref _ _ Hi b Hb) as Hr0. pose proof (qu_ref _ Hq b Hb).
  assert (bio_inv d2 order) as I2 by (eapply data1_inv; [done|done| |done]; lia).
  apply matches_eq in M1 as [Mb1 Mb2].
  assert (self kt p pid d2) as Hs2 by (apply (self_procs _ _ _ d); congruence).
  po1. po1. eapply po_evals.
  { apply (ev_bwrite l0 L kt p pid Henv); [done|..]; rewrite A2; cbn; by rewrite L1. }
  cbn beta. assert (bio_inv (write_d b d2) order) as I3 by (apply write_inv; [done|done|by rewrite A2]).
  eapply (po_brelse l0 L kt p pid Henv (write_d b d2) order b); try done; cbn; rewrite ?A2; cbn;
    rewrite ?L1, ?R1; try done; try lia.
  { intros _ _. by rewrite fn_lookup_insert. }
  intros d' [(F3 & E3 & K3) I' C' R' L' O']. split; [done|].
  assert (refs_same d d') as Hrs.
  { eapply (read_refs order x d b d1); [done..| |].
    - intros c. destruct (C' c) as (-> & -> & _). cbn.
      destruct (decide (c = b)) as [->|]; [by rewrite A2|by rewrite O2].
    - intros c. destruct (decide (c = b)) as [->|N]; [rewrite R'; cbn; by rewrite A2|].
      destruct (O' c N) as [-> _]. cbn. rewrite O2 by done. lia. }
  split; [|done]. split.
  - split; [|rewrite K3; cbn; congruence]. etrans; [exact F1|]. etrans; [exact F2|].
    etrans; [|exact F3]. unfold fsame. done.
  - eapply (rel_quiet order x d d1 b d'); try done; [|by rewrite L'].
    intros c N. destruct (O' c N) as [_ ->]. cbn. by rewrite O2.
  - rewrite E3. cbn. rewrite A2. cbn. by rewrite Mb2, D1, E2, E1.
  - rewrite E3. cbn. rewrite A2. cbn. by rewrite Mb2, D1, E2, E1.
  - intros z. rewrite (same_contents_view _ _ _ _ C') by by rewrite E3.
    rewrite (write_view d2 order) by (done || by rewrite A2).
    rewrite (data1_view d1 d2 order b f z x); [|done|done|lia|by apply matches_eq|done|done].
    cbn. unfold apply_write. cbn. rewrite fn_insert_case, D1, W1. by repeat case_dec.
Qed.

Lemma po_put_read d order x b d1 g :
  quiet d -> self kt p pid d -> bio_inv d order -> read_post pid order ROOTDEV x d b d1 ->
  pst l0 L (d1 <| klog := g |>) (brelse b)
    (fun _ d' => logrun (d <| klog := g |>) [] d' /\ refs_same d d').
Proof.
  intros Hq Hs Hi P. pose proof P as [Hb (F1 & E1 & K1 & P1) I1 M1 V1 L1 R1 D1 O1 W1 C1].
  pose proof (bi_ref _ _ Hi b Hb) as Hr0. pose proof (qu_ref _ Hq b Hb).
  apply matches_eq in M1 as [Mb1 Mb2].
  assert (bio_inv (d1 <| klog := g |>) order) as I2 by (by destruct I1; split).
  po1. eapply (po_brelse l0 L kt p pid Henv (d1 <| klog := g |>) order b); try done; cbn;
    rewrite ?L1, ?R1; try done; try lia.
  { apply (self_procs _ _ _ d); [done|done]. }
  { intros Hr _. rewrite D1, E1, Mb2. eapply unreferenced_clean; [done..|lia]. }
  intros d' [(F3 & E3 & K3) I' C' R' L' O']. split; [done|].
  assert (refs_same d d') as Hrs.
  { eapply (read_refs order x d b d1); [done..| |].
    - intros c. by destruct (C' c) as (-> & -> & _).
    - intros c. destruct (decide (c = b)) as [->|N]; [by rewrite R'|].
      destruct (O' c N) as [-> _]. cbn. lia. }
  split; [|done]. split.
  - split; [|by rewrite K3]. etrans; [|exact F3].
    apply (woke_upd (fun x => x <| klog := g |>)) in F1; [|done..]. exact F1.
  - eapply (rel_quiet order x d d1 b d'); try done; [|by rewrite L'].
    intros c N. by destruct (O' c N) as [_ ->].
  - rewrite E3. cbn. by rewrite E1.
  - rewrite E3. cbn. by rewrite E1.
  - intros z. rewrite (same_contents_view _ _ _ _ C') by by rewrite E3. apply W1.
Qed.

(** ** The loops of the log *)

(** The log region is [[start, start + LOGSIZE)]; a transaction consists of distinct
    blocks outside it. *)
Record log_ok (g : log) : Prop := {
  lo_dev : g.(lg_dev) = ROOTDEV;
  lo_start : 0 <= g.(lg_start) /\ g.(lg_start) + LOGSIZE < 2 ^ 31;
  lo_n : 0 <= g.(lh_n) < LOGSIZE;
  lo_blk : forall i, 0 <= i < g.(lh_n) -> 0 <= g.(lh_block) i < 2 ^ 31 /\
    ~ (g.(lg_start) <= g.(lh_block) i < g.(lg_start) + LOGSIZE);
  lo_inj : forall i j, 0 <= i < g.(lh_n) -> 0 <= j < g.(lh_n) ->
    g.(lh_block) i = g.(lh_block) j -> i = j;
}.

Definition log_block (g : log) (i : Z) : Z := g.(lg_start) + i + 1.

(** The [i]-th write has target [tgt i] and the contents [src i]. *)
Definition writes_of (tgt : Z -> Z) (src : Z -> bytes) : list Z -> list (Z * bytes) -> Prop :=
  Forall2 (fun i w => w.1 = tgt i /\ blk_eq (src i) w.2).

Lemma writes_of_targets tgt src l ws z :
  writes_of tgt src l ws -> z ∈ ws.*1 -> exists i, i ∈ l /\ z = tgt i.
Proof.
  induction 1 as [|i w l ws [E _] _ IH]; cbn; [by intros ?%elem_of_nil|].
  intros [->|Hz]%elem_of_cons; [exists i; split; [by left|done]|].
  destruct (IH Hz) as (j & Hj & ->). exists j. split; [by right|done].
Qed.

Lemma writes_of_mono tgt src src' l ws :
  (forall i, i ∈ l -> blk_eq (src' i) (src i)) -> writes_of tgt src l ws -> writes_of tgt src' l ws.
Proof.
  intros Hs H. revert Hs. induction H as [|i w l ws [E1 E2] H IH]; intros Hs; constructor.
  - split; [done|]. etrans; [|done]. apply Hs. left.
  - apply IH. intros j Hj. apply Hs. by right.
Qed.

Lemma writes_of_hit tgt src l ws D i :
  writes_of tgt src l ws -> NoDup l -> (forall j, j ∈ l -> tgt i = tgt j -> i = j) -> i ∈ l ->
  blk_eq (src i) (disk_after D ws (tgt i)).
Proof.
  intros H. revert D. induction H as [|j w l ws [E1 E2] H IH]; intros D Hn Hinj Hi;
    [by apply elem_of_nil in Hi|]. apply NoDup_cons in Hn as [Hj Hn]. cbn.
  destruct (decide (i ∈ l)) as [Hl|Hl]; [apply IH; try done; intros k Hk; apply Hinj; by right|].
  apply elem_of_cons in Hi as [->|?]; [|done].
  fold (disk_after (apply_write D w) ws). rewrite disk_after_out.
  - unfold apply_write. by rewrite <- E1, fn_lookup_insert.
  - intros Hin. destruct (writes_of_targets _ _ _ _ _ H Hin) as (k & Hk & Ek).
    rewrite (Hinj k) in Hl by (done || by right). done.
Qed.

Lemma writes_of_snoc tgt src l ws i w :
  writes_of tgt src l ws -> w.1 = tgt i -> blk_eq (src i) w.2 ->
  writes_of tgt src (l ++ [i]) (ws ++ [w]).
Proof. intros H E1 E2. apply Forall2_app; [done|]. by repeat constructor. Qed.

Lemma seqZ_split_bound n dn i rest : seqZ 0 n = dn ++ i :: rest -> 0 <= i < n /\ (i ∉ dn) /\
  forall j, j ∈ dn -> 0 <= j < n.
Proof.
  intros E. assert (i ∈ seqZ 0 n) as Hi by (rewrite E; apply elem_of_app; right; left).
  apply elem_of_seqZ in Hi. split; [lia|]. split.
  - pose proof (NoDup_seqZ 0 n) as Hn. rewrite E in Hn.
    apply NoDup_app in Hn as (_ & H & _). intros Hd. apply (H i Hd). left.
  - intros j Hj. assert (j ∈ seqZ 0 n) as Hj2 by (rewrite E; apply elem_of_app; by left).
    apply elem_of_seqZ in Hj2. lia.
Qed.

(** The locations of the log and the home blocks as [bread] gets them. *)
Lemma log_addr g i :
  log_ok g -> 0 <= i < g.(lh_n) ->
  u32 (g.(lg_start) + i + 1) = log_block g i /\ u32 (g.(lh_block) i) = g.(lh_block) i /\
  log_block g i <> g.(lh_block) i.
Proof.
  intros [_ Hs Hn Hb _] Hi. destruct (Hb i Hi) as [? Hout]. unfold log_block.
  rewrite !u32_small by lia. split; [done|]. split; [done|]. lia.
Qed.

Lemma writes_of_view tgt src l ws D z :
  writes_of tgt src l ws -> (forall i, i ∈ l -> z <> tgt i) -> disk_after D ws z = D z.
Proof.
  intros H Hz. apply disk_after_out. intros Hin.
  destruct (writes_of_targets _ _ _ _ _ H Hin) as (i & Hi & ->). by eapply Hz.
Qed.

Lemma po_write_log d (g := d.(klog)) :
  quiet d -> self kt p pid d -> log_ok g -> room 1 d ->
  (forall i, 0 <= i < g.(lh_n) -> pinned d (g.(lh_block) i)) ->
  pst l0 L d write_log (fun _ d' => exists ws, logrun d ws d' /\ refs_same d d' /\
    writes_of (log_block g) (fun i => bview d ROOTDEV (g.(lh_block) i)) (seqZ 0 g.(lh_n)) ws).
Proof.
  intros Hq Hs Hg Hrm Hpin. unfold write_log. po1. po1. apply po_getd. fold g.
  eapply (po_forM l0 _ _ L (fun dn d1 => exists ws, logrun d ws d1 /\ refs_same d d1 /\
    writes_of (log_block g) (fun i => bview d ROOTDEV (g.(lh_block) i)) dn ws)).
  { exists []. split; [by apply logrun_refl|]. split; [done|constructor]. }
  intros dn i rest d1 El (ws & Hrun & Hrs & Hws).
  destruct (seqZ_split_bound _ _ _ _ El) as (Hi & _ & Hdn).
  destruct (log_addr g i Hg Hi) as (U1 & U2 & Hne). destruct (lr_same _ _ _ Hrun) as [F1 K1].
  assert (self kt p pid d1) as Hs1 by by eapply self_fsame.
  destruct (ev_read2 l0 L kt p pid Henv d1 (log_block g i) (g.(lh_block) i))
    as (a & b & d2 & d3 & E2 & K2 & E3 & H2); [apply Hrun|done|done| |].
  { right; left. split; [right|]; [by eapply pinned_refs, Hpin|by eapply room_refs]. }
  rewrite K1 in K2. do 2 po1. apply po_getd. rewrite K1. fold g. po1. apply po_getd. rewrite K1. fold g.
  rewrite (lo_dev _ Hg), U1. po1. eapply po_evals; [exact E2|]. po1. apply po_getd. rewrite K2. fold g.
  rewrite U2. po1. eapply po_evals; [exact E3|]. cbn beta.
  eapply po_mono; [apply (po_copy_tail false d1 (g.(lh_block) i) (log_block g i) b a d3)|];
    [apply Hrun|done|done|by apply held2_sym|done|].
  intros [] L' d' [-> Hc]. split; [done|]. eexists. split; [by eapply logrun_trans, copy_logrun|].
  split; [etrans; [done|by eapply copy_refs]|]. apply writes_of_snoc; [done..|]. cbn.
  etrans; [|apply copied_eq]. rewrite (lr_view _ _ _ Hrun).
  rewrite (writes_of_view _ _ _ _ _ _ Hws); [done|]. intros j Hj. pose proof (Hdn j Hj).
  destruct (lo_blk _ Hg i Hi) as [_ Hout]. pose proof (lo_n _ Hg). unfold log_block. lia.
Qed.

(** The references after [install_trans]: dropped by a commit, kept by recovery. *)
Definition reffed (recovering : bool) (d : kdata) (l : list Z) (d' : kdata) : Prop :=
  if recovering then refs_same d d' else unpins d l d'.

Definition installable (recovering : bool) (d : kdata) : Prop :=
  if recovering then room 2 d
  else room 1 d /\ forall i, 0 <= i < d.(klog).(lh_n) -> pinned d (d.(klog).(lh_block) i).

Lemma installable_room recovering d g dn d1 i :
  g = d.(klog) -> log_ok g -> installable recovering d -> reffed recovering d (g.(lh_block) <$> dn) d1 ->
  0 <= i < g.(lh_n) -> (i ∉ dn) -> (forall j, j ∈ dn -> 0 <= j < g.(lh_n)) ->
  room_for d1 (log_block g i) (g.(lh_block) i) /\
  (negb recovering = true -> pinned d1 (g.(lh_block) i) /\ (g.(lh_block) i ∉ g.(lh_block) <$> dn)).
Proof.
  intros -> Hg Hin Hr Hi Hnd Hdn. destruct recovering; cbn in *.
  - split; [|done]. right; right. by eapply room_refs.
  - destruct Hin as [Hrm Hpin]. assert (d.(klog).(lh_block) i ∉ d.(klog).(lh_block) <$> dn) as Hy.
    { intros (j & E & Hj)%list_elem_of_fmap. apply Hnd.
      by rewrite (lo_inj _ Hg i j Hi (Hdn j Hj) E). }
    assert (pinned d1 (d.(klog).(lh_block) i)) by (eapply unpins_pinned; [done|by apply Hpin|done]).
    split; [|done]. right; left. split; [by right|by eapply unpins_room].
Qed.

Lemma po_install_trans recovering d (g := d.(klog)) :
  quiet d -> self kt p pid d -> log_ok g -> installable recovering d ->
  pst l0 L d (install_trans recovering) (fun _ d' => exists ws, logrun d ws d' /\
    reffed recovering d (g.(lh_block) <$> seqZ 0 g.(lh_n)) d' /\
    writes_of g.(lh_block) (fun i => bview d ROOTDEV (log_block g i)) (seqZ 0 g.(lh_n)) ws).
Proof.
  intros Hq Hs Hg Hin. unfold install_trans. po1. po1. apply po_getd. fold g.
  eapply (po_forM l0 _ _ L (fun dn d1 => exists ws, logrun d ws d1 /\
    reffed recovering d (g.(lh_block) <$> dn) d1 /\
    writes_of g.(lh_block) (fun i => bview d ROOTDEV (log_block g i)) dn ws)).
  { exists []. split; [by apply logrun_refl|]. split; [|constructor].
    destruct recovering; [done|apply unpins_nil]. }
  intros dn i rest d1 El (ws & Hrun & Hrs & Hws).
  destruct (seqZ_split_bound _ _ _ _ El) as (Hi & Hnd & Hdn).
  destruct (log_addr g i Hg Hi) as (U1 & U2 & Hne). destruct (lr_same _ _ _ Hrun) as [F1 K1].
  assert (self kt p pid d1) as Hs1 by by eapply self_fsame.
  destruct (installable_room _ d g dn d1 i eq_refl Hg Hin Hrs Hi Hnd Hdn) as [Hrm Hpin].
  destruct (ev_read2 l0 L kt p pid Henv d1 (log_block g i) (g.(lh_block) i))
    as (a & b & d2 & d3 & E2 & K2 & E3 & H2); [apply Hrun|done|done|done|].
  rewrite K1 in K2. do 2 po1. apply po_getd. rewrite K1. fold g. po1. apply po_getd. rewrite K1. fold g.
  rewrite (lo_dev _ Hg), U1. po1. eapply po_evals; [exact E2|]. po1. apply po_getd. rewrite K2. fold g.
  rewrite U2. po1. eapply po_evals; [exact E3|]. cbn beta.
  eapply po_mono; [apply (po_copy_tail (negb recovering) d1 (log_block g i) (g.(lh_block) i) a b d3)|];
    [apply Hrun|done|done|done|by intros; apply Hpin|].
  intros [] L' d' [-> Hc]. split; [done|]. eexists. split; [by eapply logrun_trans, copy_logrun|].
  split.
  - destruct recovering; cbn in *; [etrans; [exact Hrs|by eapply copy_refs]|]. rewrite fmap_app.
    eapply copy_unpins; [apply Hrun|done|done|by apply Hpin..].
  - apply writes_of_snoc; [done..|]. cbn. etrans; [|apply copied_eq]. rewrite (lr_view _ _ _ Hrun).
    rewrite (writes_of_view _ _ _ _ _ _ Hws); [done|]. intros j Hj. pose proof (Hdn j Hj) as Hj'.
    destruct (lo_blk _ Hg j Hj') as [_ Hout]. pose proof (lo_n _ Hg). unfold log_block. lia.
Qed.

Lemma data1_id b d : data1 b (fun m => m) d d.
Proof. split; [by destruct (d.(bufs) b)|done|by destruct d]. Qed.

Lemma data1_trans b f g d1 d2 d3 :
  data1 b f d1 d2 -> data1 b g d2 d3 -> data1 b (fun m => g (f m)) d1 d3.
Proof. intros H1 H2. eapply buf1_ext; [by eapply buf1_trans|done]. Qed.

(** The loop of [write_head]. *)
Lemma ev_store_words b l d :
  exists d', data1 b (store_words d.(klog).(lh_block) l) d d' /\
    evals l0 L d (forM l (fun i =>
      blk ← lg_get (fun g => g.(lh_block) i);
      b_set b (fun x => x <| b_data ::= fun m => store32 m (4 + 4 * i) (u32 blk) |>))) tt L d'.
Proof.
  revert d. induction l as [|i l IH]; intros d.
  { exists d. split; [apply data1_id|apply ev_ret]. }
  set (w := fun m => store32 m (4 + 4 * i) (u32 (d.(klog).(lh_block) i))).
  destruct (IH (set_data b w d)) as (d' & H1 & E). exists d'. split.
  - exact (data1_trans _ _ _ _ _ _ (set_data1 b w d) H1).
  - cbn [forM]. ev1; [|exact E]. ev1; [apply ev_getd|]. apply ev_b_set.
Qed.

Lemma po_write_head d (g := d.(klog)) :
  quiet d -> self kt p pid d -> g.(lg_dev) = ROOTDEV -> 0 <= g.(lg_start) < 2 ^ 32 -> room 1 d ->
  pst l0 L d write_head (fun _ d' => refs_same d d' /\
    logrun d [(g.(lg_start), head_bytes g (bview d ROOTDEV g.(lg_start)))] d').
Proof.
  intros Hq Hs Hdev Hst Hrm. destruct (qu_inv _ Hq) as [order Hi].
  destruct (ev_bread_post l0 L kt p pid Henv d order ROOTDEV g.(lg_start)) as (b & d1 & E1 & P1);
    [done..|by apply quiet_available; [|by right]|].
  assert (d1.(klog) = g) as K1 by apply P1.
  set (w := fun m => store32 m 0 (u32 g.(lh_n))).
  destruct (ev_store_words b (seqZ 0 g.(lh_n)) (set_data b w d1)) as (d2 & H2 & E2).
  change (klog (set_data b w d1)) with (klog d1) in H2. rewrite K1 in H2.
  unfold write_head. do 2 po1. apply po_getd. po1. apply po_getd. fold g. rewrite Hdev, u32_small by done.
  po1. eapply po_evals; [exact E1|]. po1. apply po_getd. rewrite K1. po1. eapply po_evals; [apply ev_b_set|].
  po1. eapply po_evals; [exact E2|]. cbn beta.
  eapply po_mono; [by apply (po_put_write d order g.(lg_start) b d1 d2 (head_bytes g));
    [..|exact (data1_trans _ _ _ _ _ _ (set_data1 b w d1) H2)]|].
  intros [] L' d' [-> [? ?]]. done.
Qed.

(** The loop of [read_head]. *)
Definition load_words (m : bytes) (l : list Z) (g : log) : log :=
  foldl (fun g i => g <| lh_block ::= <[i := hdr_block m i]> |>) g l.

Lemma load_words_spec m l g :
  (load_words m l g).(lg_dev) = g.(lg_dev) /\ (load_words m l g).(lg_start) = g.(lg_start) /\
  (load_words m l g).(lh_n) = g.(lh_n) /\
  forall i, (load_words m l g).(lh_block) i =
    if decide (i ∈ l) then hdr_block m i else g.(lh_block) i.
Proof.
  revert g. induction l as [|j l IH]; intros g; [done|].
  change (load_words m (j :: l) g)
    with (load_words m l (g <| lh_block ::= <[j := hdr_block m j]> |>)).
  destruct (IH (g <| lh_block ::= <[j := hdr_block m j]> |>)) as (-> & -> & -> & H).
  do 3 (split; [done|]). intros i. rewrite H. cbn. rewrite fn_insert_case.
  destruct (decide (i ∈ l)) as [Hi|Hi].
  - by rewrite decide_True by by right.
  - destruct (decide (j = i)) as [->|N]; [by rewrite decide_True by left|].
    rewrite decide_False; [done|]. intros [?|?]%elem_of_cons; congruence.
Qed.

Lemma ev_load_words m l d :
  evals l0 L d (forM l (fun i => lg_set (fun g => g <| lh_block ::= <[i := hdr_block m i]> |>))) tt L
    (d <| klog := load_words m l d.(klog) |>).
Proof.
  revert d. induction l as [|i l IH]; intros d; cbn [forM].
  { replace (d <| klog := _ |>) with d by by destruct d. apply ev_ret. }
  ev1; [apply ev_modd|]. cbn beta. eapply evals_eq; [apply IH|done..].
Qed.

Lemma po_read_head d (g := d.(klog)) (m := bview d ROOTDEV g.(lg_start))
    (g' := load_words m (seqZ 0 (hdr_n m)) (g <| lh_n := hdr_n m |>)) :
  quiet d -> self kt p pid d -> g.(lg_dev) = ROOTDEV -> 0 <= g.(lg_start) < 2 ^ 32 -> room 1 d ->
  pst l0 L d read_head (fun _ d' => refs_same d d' /\ logrun (d <| klog := g' |>) [] d').
Proof.
  intros Hq Hs Hdev Hst Hrm. destruct (qu_inv _ Hq) as [order Hi].
  destruct (ev_bread_post l0 L kt p pid Henv d order ROOTDEV g.(lg_start)) as (b & d1 & E1 & P1);
    [done..|by apply quiet_available; [|by right]|].
  assert (d1.(klog) = g) as K1 by apply P1.
  assert ((d1.(bufs) b).(b_data) = m) as Dm by apply P1.
  unfold read_head. do 2 po1. apply po_getd. po1. apply po_getd. fold g. rewrite Hdev, u32_small by done.
  po1. eapply po_evals; [exact E1|]. po1. apply po_getd. rewrite Dm. po1. eapply po_evals; [apply ev_modd|].
  po1. eapply po_evals; [apply ev_load_words|]. cbn beta.
  replace (d1 <| klog ::= _ |> <| klog := _ |>) with (d1 <| klog := g' |>)
    by (unfold g'; cbn; by rewrite K1).
  eapply po_mono; [by apply (po_put_read d order g.(lg_start) b d1 g')|].
  intros [] L' d' [-> [? ?]]. done.
Qed.

(** ** The writes of [commit] and of recovery *)

Lemma logrun_self d ws d' : self kt p pid d -> logrun d ws d' -> self kt p pid d'.
Proof. intros Hs [[F _] _ _ _ _]. by eapply self_fsame. Qed.

Definition emptied (g : log) : log := g <| lh_n := 0 |>.

(** The blocks written by a commit: the new contents in the log, the header, the
    new contents at home, and the empty header. *)
Definition commit_writes (d : kdata) (ws : list (Z * bytes)) : Prop :=
  let g := d.(klog) in let new i := bview d ROOTDEV (g.(lh_block) i) in
  exists wl m1 wi m2,
    ws = wl ++ (g.(lg_start), head_bytes g m1) :: wi ++ [(g.(lg_start), head_bytes (emptied g) m2)] /\
    writes_of (log_block g) new (seqZ 0 g.(lh_n)) wl /\
    writes_of g.(lh_block) new (seqZ 0 g.(lh_n)) wi.

Lemma log_view_after g D wl m1 (new : Z -> bytes) i :
  log_ok g -> 0 <= i < g.(lh_n) -> writes_of (log_block g) new (seqZ 0 g.(lh_n)) wl ->
  blk_eq (new i) (disk_after D (wl ++ [(g.(lg_start), head_bytes g m1)]) (log_block g i)).
Proof.
  intros Hg Hi Hw. rewrite disk_after_app. cbn. unfold apply_write. cbn.
  rewrite fn_lookup_insert_ne by (unfold log_block; lia).
  apply (writes_of_hit _ _ _ _ _ _ Hw); [apply NoDup_seqZ| |apply elem_of_seqZ; lia].
  intros j _. unfold log_block. lia.
Qed.

Lemma po_commit d (g := d.(klog)) :
  quiet d -> self kt p pid d -> log_ok g -> 0 < g.(lh_n) -> room 1 d ->
  (forall i, 0 <= i < g.(lh_n) -> pinned d (g.(lh_block) i)) ->
  pst l0 L d commit (fun _ d' => exists ws, commit_writes d ws /\
    logrun (d <| klog ::= emptied |>) ws d' /\ unpins d (g.(lh_block) <$> seqZ 0 g.(lh_n)) d').
Proof.
  intros Hq Hs Hg Hn Hrm Hpin. destruct (lo_start _ Hg) as [Hst1 Hst2].
  assert (LOGSIZE = 30) as HL by done.
  unfold commit. po1. po1. apply po_getd. fold g. apply po_when; intros Hb; [|lia].
  po1. eapply po_call; [by apply po_write_log|]. intros [] d1 (wl & R1 & S1 & W1).
  destruct (lr_same _ _ _ R1) as [_ K1]. fold g in K1. pose proof (logrun_self _ _ _ Hs R1) as Hs1.
  po1. eapply po_call; [apply po_write_head; rewrite ?K1; try done;
    [apply R1|apply Hg|lia|by eapply room_refs]|]. rewrite K1.
  intros [] d2 (S2 & R2). pose proof (logrun_trans _ _ _ _ _ R1 R2) as R12.
  pose proof (logrun_self _ _ _ Hs R12) as Hs2. destruct (lr_same _ _ _ R12) as [_ K2]. fold g in K2.
  assert (refs_same d d2) as S12 by by etrans.
  po1. eapply po_call; [apply po_install_trans; rewrite ?K2; try done; [apply R2|]|].
  { split; [by eapply room_refs|]. rewrite K2. intros i Hi. by eapply pinned_refs, Hpin. }
  rewrite K2. intros [] d3 (wi & R3 & U3 & W3). cbn in U3.
  pose proof (logrun_trans _ _ _ _ _ R12 R3) as R13. destruct (lr_same _ _ _ R13) as [_ K3]. fold g in K3.
  po1. apply po_modd. eapply po_call; [apply (po_write_head (d3 <| klog ::= emptied |>)); cbn;
    rewrite ?K3; try done; [..|apply Hg|lia|]|].
  { eapply lr_quiet, logrun_klog. exact R3. }
  { apply (logrun_self _ _ _ Hs R13). }
  { apply (unpins_room _ _ d3 1 U3). by eapply room_refs. }
  cbn. rewrite K3. intros [] d4 (S4 & R4). split; [done|].
  eexists. split; [|split; [|apply (unpins_refs d d2 _ d3); [done|done|by destruct S4; split]]].
  - exists wl. eexists. exists wi. eexists. split; [reflexivity|]. split; [done|].
    eapply writes_of_mono; [|exact W3]. intros i Hi%elem_of_seqZ.
    cbn beta. rewrite (lr_view _ _ _ R12).
    apply (log_view_after g _ wl _ (fun i => bview d ROOTDEV (g.(lh_block) i))); [done|unfold g; lia|done].
  - pose proof (logrun_klog _ _ _ (emptied g) R13) as R13'.
    change (d <| klog ::= emptied |>) with (d <| klog := emptied g |>).
    assert (d3 <| klog ::= emptied |> = d3 <| klog := emptied g |>) as Ed by by rewrite <- K3.
    rewrite Ed in R4. pose proof (logrun_trans _ _ _ _ _ R13' R4) as R.
    rewrite <- !app_assoc in R. exact R.
Qed.

Lemma room_pred k d : room (S k) d -> room k d.
Proof.
  intros ([|b l] & Hn & Hl & H); [done|]. exists l. apply NoDup_cons in Hn as [_ Hn].
  split; [done|]. split; [cbn in Hl; lia|]. intros c Hc. apply H. by right.
Qed.

(** The in-memory log header that [read_head] finds in the block [m]. *)
Definition head_of (m : bytes) (g : log) : log :=
  load_words m (seqZ 0 (hdr_n m)) (g <| lh_n := hdr_n m |>).

Definition recover_writes (d : kdata) (ws : list (Z * bytes)) : Prop :=
  let g := head_of (bview d ROOTDEV d.(klog).(lg_start)) d.(klog) in
  exists wi m2, ws = wi ++ [(g.(lg_start), head_bytes (emptied g) m2)] /\
    writes_of g.(lh_block) (fun i => bview d ROOTDEV (log_block g i)) (seqZ 0 g.(lh_n)) wi.

Lemma po_recover d (g := head_of (bview d ROOTDEV d.(klog).(lg_start)) d.(klog)) :
  quiet d -> self kt p pid d -> log_ok g -> room 2 d ->
  pst l0 L d recover_from_log (fun _ d' => exists ws, recover_writes d ws /\
    logrun (d <| klog := emptied g |>) ws d' /\ refs_same d d').
Proof.
  intros Hq Hs Hg Hrm. destruct (lo_start _ Hg) as [Hst1 Hst2]. assert (LOGSIZE = 30) as HL by done.
  destruct (load_words_spec (bview d ROOTDEV d.(klog).(lg_start))
    (seqZ 0 (hdr_n (bview d ROOTDEV d.(klog).(lg_start))))
    (d.(klog) <| lh_n := hdr_n (bview d ROOTDEV d.(klog).(lg_start)) |>)) as (Edev & Est & _).
  fold (head_of (bview d ROOTDEV d.(klog).(lg_start)) d.(klog)) in Edev, Est. fold g in Edev, Est. cbn in Edev, Est.
  unfold recover_from_log. po1. po1. eapply po_call; [apply po_read_head; rewrite <- ?Edev, <- ?Est; try done;
    [apply Hg|lia|by apply room_pred]|].
  intros [] d1 [S1 R1]. fold (head_of (bview d ROOTDEV d.(klog).(lg_start)) d.(klog)) in R1. fold g in R1.
  destruct (lr_same _ _ _ R1) as [_ K1]. cbn in K1.
  assert (self kt p pid d1) as Hs1 by (eapply logrun_self; [|exact R1]; exact Hs).
  po1. eapply po_call; [apply (po_install_trans true); rewrite ?K1; try done; [apply R1|by eapply room_refs]|].
  rewrite K1. intros [] d2 (wi & R2 & S2 & W2). cbn in S2.
  pose proof (logrun_trans _ _ _ _ _ R1 R2) as R12. destruct (lr_same _ _ _ R12) as [_ K2]. cbn in K2.
  po1. apply po_modd. eapply po_call; [apply (po_write_head (d2 <| klog ::= emptied |>)); cbn;
    rewrite ?K2; try done; [..|apply Hg|lia|]|].
  { eapply lr_quiet, logrun_klog. exact R2. }
  { apply (logrun_self _ _ _ Hs1 R2). }
  { apply (room_refs 1 d2 d2); [done|]. eapply room_refs; [exact S2|]. eapply room_refs; [exact S1|].
    by apply room_pred. }
  cbn. rewrite K2. intros [] d3 (S3 & R3). split; [done|].
  eexists. split; [|split].
  - exists wi. eexists. split; [reflexivity|].
    eapply writes_of_mono; [|exact W2]. intros i _. cbn beta. by rewrite (lr_view _ _ _ R1).
  - pose proof (logrun_klog _ _ _ (emptied g) R12) as R12'.
    assert (d2 <| klog ::= emptied |> = d2 <| klog := emptied g |>) as Ed by by rewrite <- K2.
    rewrite Ed in R3. exact (logrun_trans _ _ _ _ _ R12' R3).
  - etrans; [exact S1|]. etrans; [exact S2|]. by destruct S3; split.
Qed.
End copy.
