(* ===== verification/Crash.v ===== *)
(** * Crash safety of the log

    The disk is written one block at a time.  A crash leaves the disk as it was
    between two of these writes.  [durable start D f] says which contents [f] of the
    file system the disk [D] stands for: the home locations, overridden by the blocks
    of the log when the header records a committed transaction.  A commit moves the
    disk from the old contents to the new ones in one step, the write of the header;
    recovery keeps the contents at each of its writes, so that it may itself be cut
    short by a crash, and leaves them at their home locations. *)
From S2P Require Export LogCommit FsDemo.

Definition in_log (start z : Z) : Prop := start <= z < start + LOGSIZE.

Record durable (start : Z) (D f : Z -> bytes) : Prop := {
  du_n : 0 <= hdr_n (D start) < LOGSIZE;
  du_blk : forall i, 0 <= i < hdr_n (D start) ->
    0 <= hdr_block (D start) i < 2 ^ 31 /\ ~ in_log start (hdr_block (D start) i);
  du_inj : forall i j, 0 <= i < hdr_n (D start) -> 0 <= j < hdr_n (D start) ->
    hdr_block (D start) i = hdr_block (D start) j -> i = j;
  du_log : forall i, 0 <= i < hdr_n (D start) ->
    blk_eq (f (hdr_block (D start) i)) (D (start + i + 1));
  du_home : forall z, ~ in_log start z ->
    (forall i, 0 <= i < hdr_n (D start) -> z <> hdr_block (D start) i) -> blk_eq (f z) (D z);
}.

(** [P] holds of the disk before, between and after the writes [ws]. *)
Definition always (P : (Z -> bytes) -> Prop) (D : Z -> bytes) (ws : list (Z * bytes)) : Prop :=
  forall p, p `prefix_of` ws -> P (disk_after D p).

Lemma always_nil P D : P D -> always P D [].
Proof. intros H p ->%prefix_nil_inv. done. Qed.

Lemma always_cons P D w ws : P D -> always P (apply_write D w) ws -> always P D (w :: ws).
Proof.
  intros H0 H [|w' p] Hp; [done|]. apply prefix_cons_inv_1 in Hp as E.
  apply prefix_cons_inv_2 in Hp. subst w'. by apply H.
Qed.

Lemma always_app P D ws1 ws2 :
  always P D ws1 -> always P (disk_after D ws1) ws2 -> always P D (ws1 ++ ws2).
Proof.
  revert D. induction ws1 as [|w ws1 IH]; intros D H1 H2; [done|]. cbn. apply always_cons.
  - apply (H1 []), prefix_nil.
  - apply IH; [|done]. intros p Hp. apply (H1 (w :: p)). by apply prefix_cons.
Qed.

Lemma always_mono (P Q : (Z -> bytes) -> Prop) D ws :
  (forall D, P D -> Q D) -> always P D ws -> always Q D ws.
Proof. intros HPQ H p Hp. by apply HPQ, H. Qed.

Lemma always_last P D ws : always P D ws -> P (disk_after D ws).
Proof. intros H. by apply H. Qed.

Section durable.
Context (start : Z).

(** Only the header and the blocks it makes relevant matter. *)
Lemma durable_same D D' f :
  D' start = D start -> durable start D f ->
  (forall i, 0 <= i < hdr_n (D start) -> D' (start + i + 1) = D (start + i + 1)) ->
  (forall z, ~ in_log start z -> (forall i, 0 <= i < hdr_n (D start) -> z <> hdr_block (D start) i) ->
     D' z = D z) ->
  durable start D' f.
Proof.
  intros E [H1 H2 H3 H4 H5] Hl Hh. split; rewrite ?E; try done.
  - intros i Hi. rewrite Hl by done. by apply H4.
  - intros z Hz Hn. rewrite Hh by done. by apply H5.
Qed.

(** Writing the log while the header is empty. *)
Lemma durable_log_write D f w :
  durable start D f -> hdr_n (D start) = 0 -> start < w.1 < start + LOGSIZE ->
  durable start (apply_write D w) f /\ apply_write D w start = D start.
Proof.
  intros Hd Hn Hw. assert (apply_write D w start = D start) as E by (apply fn_lookup_insert_ne; lia).
  split; [|done]. eapply durable_same; [done|done|lia|]. intros z Hz _. apply fn_lookup_insert_ne.
  unfold in_log in Hz. lia.
Qed.

Lemma durable_log_writes g src l ws D f :
  writes_of (log_block g) src l ws -> lg_start g = start ->
  (forall i, i ∈ l -> 0 <= i < LOGSIZE - 1) ->
  durable start D f -> hdr_n (D start) = 0 ->
  always (fun D' => durable start D' f) D ws /\ disk_after D ws start = D start.
Proof.
  intros H Hg. revert D. induction H as [|i w l ws [Ew _] H IH]; intros D Hl Hd Hn.
  { split; [by apply always_nil|done]. }
  destruct (durable_log_write D f w Hd Hn) as [Hd' Hs].
  { rewrite Ew. unfold log_block. specialize (Hl i ltac:(by left)). lia. }
  destruct (IH (apply_write D w)) as [Ha Es]; [intros j Hj; apply Hl; by right|done|by rewrite Hs|].
  split; [by apply always_cons|]. cbn. fold (disk_after (apply_write D w) ws). by rewrite Es.
Qed.

(** The write of the header is the commit point. *)
Lemma durable_commit g D m new :
  log_ok g -> lg_start g = start ->
  (forall i, 0 <= i < g.(lh_n) -> blk_eq (new (g.(lh_block) i)) (D (log_block g i))) ->
  (forall z, ~ in_log start z -> (forall i, 0 <= i < g.(lh_n) -> z <> g.(lh_block) i) ->
     blk_eq (new z) (D z)) ->
  durable start (apply_write D (start, head_bytes g m)) new.
Proof.
  intros Hg Es Hl Hh. assert (apply_write D (start, head_bytes g m) start = head_bytes g m) as E
    by apply fn_lookup_insert.
  assert (LOGSIZE = 30) as HL by done. pose proof (lo_n _ Hg) as Hn.
  destruct (head_roundtrip g m) as [En Eb]; [lia|intros i Hi; destruct (lo_blk _ Hg i Hi); lia|].
  split; rewrite E, En.
  - done.
  - intros i Hi. rewrite Eb by done. rewrite <- Es. by apply (lo_blk _ Hg).
  - intros i j Hi Hj. rewrite !Eb by done. by apply (lo_inj _ Hg).
  - intros i Hi. rewrite Eb by done. unfold apply_write. cbn.
    rewrite fn_lookup_insert_ne by lia. rewrite <- Es. by apply Hl.
  - intros z Hz Hn'. unfold apply_write. cbn. rewrite fn_lookup_insert_ne.
    + apply Hh; [done|]. intros i Hi. rewrite <- (Eb i Hi). by apply Hn'.
    + intros <-. apply Hz. unfold in_log. lia.
Qed.

(** Installing a block of the transaction. *)
Lemma durable_install D f w i :
  durable start D f -> 0 <= i < hdr_n (D start) -> w.1 = hdr_block (D start) i ->
  durable start (apply_write D w) f /\ apply_write D w start = D start.
Proof.
  intros Hd Hi Ew. destruct (du_blk _ _ _ Hd i Hi) as [_ Hout]. unfold in_log in Hout.
  pose proof (du_n _ _ _ Hd) as Hn.
  assert (apply_write D w start = D start) as E by (apply fn_lookup_insert_ne; lia).
  split; [|done]. eapply durable_same; [done|done|..].
  - intros j Hj. apply fn_lookup_insert_ne. lia.
  - intros z Hz Hne. apply fn_lookup_insert_ne. rewrite Ew. intros E'. by apply (Hne i Hi).
Qed.

Lemma durable_installs tgt src l ws D f :
  writes_of tgt src l ws -> durable start D f ->
  (forall i, i ∈ l -> 0 <= i < hdr_n (D start) /\ tgt i = hdr_block (D start) i) ->
  always (fun D' => durable start D' f) D ws /\ disk_after D ws start = D start.
Proof.
  intros H. revert D. induction H as [|i w l ws [Ew _] H IH]; intros D Hd Hl.
  { split; [by apply always_nil|done]. }
  destruct (Hl i ltac:(by left)) as [Hi Et].
  destruct (durable_install D f w i Hd Hi) as [Hd' Hs]; [congruence|].
  destruct (IH (apply_write D w)) as [Ha Es].
  { done. }
  { intros j Hj. rewrite Hs. apply Hl. by right. }
  split; [by apply always_cons|]. cbn. fold (disk_after (apply_write D w) ws). by rewrite Es.
Qed.

(** Clearing the header once everything is at home. *)
Lemma durable_clear g D m f :
  durable start D f ->
  (forall i, 0 <= i < hdr_n (D start) -> blk_eq (f (hdr_block (D start) i)) (D (hdr_block (D start) i))) ->
  let D' := apply_write D (start, head_bytes (emptied g) m) in
  durable start D' f /\ hdr_n (D' start) = 0.
Proof.
  intros Hd Hh D'. assert (D' start = head_bytes (emptied g) m) as E by apply fn_lookup_insert.
  destruct (head_roundtrip (emptied g) m) as [En _]; [done|cbn; lia|]. cbn in En.
  split; [|by rewrite E]. split; rewrite E, En; try lia; try done.
  intros z Hz _. unfold D', apply_write. cbn. rewrite fn_lookup_insert_ne.
  - destruct (decide (Exists (fun i => z = hdr_block (D start) i) (seqZ 0 (hdr_n (D start)))))
      as [(i & Hi & ->)%Exists_exists|Hn].
    + apply elem_of_seqZ in Hi. apply Hh. lia.
    + apply (du_home _ _ _ Hd); [done|]. intros i Hi ->. apply Hn, Exists_exists.
      exists i. split; [apply elem_of_seqZ; lia|done].
  - intros <-. apply Hz. unfold in_log. change LOGSIZE with 30. lia.
Qed.
End durable.

(** ** A commit *)

(** Only the blocks of the transaction differ between the cache and the disk. *)
Definition dirty_logged (d : kdata) : Prop :=
  let g := d.(klog) in
  forall z, ~ in_log g.(lg_start) z -> (forall i, 0 <= i < g.(lh_n) -> z <> g.(lh_block) i) ->
    blk_eq (bview d ROOTDEV z) (d.(hw).(hw_disk) z).

Lemma durable_refl start D : hdr_n (D start) = 0 -> durable start D D.
Proof. intros E. split; rewrite E; try lia; done. Qed.

Lemma commit_crash d ws (g := d.(klog)) (D := d.(hw).(hw_disk)) :
  log_ok g -> dirty_logged d -> hdr_n (D g.(lg_start)) = 0 -> commit_writes d ws ->
  exists w1 h w2, ws = w1 ++ h :: w2 /\
    always (fun D' => durable g.(lg_start) D' D) D w1 /\
    always (fun D' => durable g.(lg_start) D' (bview d ROOTDEV)) (disk_after D (w1 ++ [h])) w2 /\
    hdr_n (disk_after D ws g.(lg_start)) = 0.
Proof.
  intros Hg Hdl Hn (wl & m1 & wi & m2 & -> & Hwl & Hwi). fold g in Hwl, Hwi |- *.
  pose proof (lo_n _ Hg) as Hn'.
  exists wl, (lg_start g, head_bytes g m1), (wi ++ [(lg_start g, head_bytes (emptied g) m2)]).
  split; [done|].
  destruct (durable_log_writes g.(lg_start) g _ _ _ D D Hwl) as [A1 E1];
    [done|intros i Hi%elem_of_seqZ; lia|by apply durable_refl|done|].
  split; [done|]. rewrite !disk_after_app. set (D1 := disk_after D wl) in *. cbn [disk_after foldl].
  set (D2 := apply_write D1 _).
  assert (durable g.(lg_start) D2 (bview d ROOTDEV)) as Hd2.
  { apply durable_commit; [done|done|..].
    - intros i Hi. apply (writes_of_hit _ _ _ _ D i Hwl); [apply NoDup_seqZ| |apply elem_of_seqZ; lia].
      intros j _. unfold log_block. lia.
    - intros z Hz Hh. unfold D1. rewrite (writes_of_view _ _ _ _ _ _ Hwl); [by apply Hdl|].
      intros i Hi%elem_of_seqZ ->. apply Hz. unfold in_log, log_block. lia. }
  assert (D2 g.(lg_start) = head_bytes g m1) as E2 by apply fn_lookup_insert.
  destruct (head_roundtrip g m1) as [En Eb];
    [change LOGSIZE with 30 in Hn'; lia|intros i Hi; destruct (lo_blk _ Hg i Hi); lia|].
  destruct (durable_installs g.(lg_start) _ _ _ _ D2 _ Hwi Hd2) as [A2 E3].
  { intros i Hi%elem_of_seqZ. rewrite E2, En, Eb by lia. split; [lia|done]. }
  pose proof (always_last _ _ _ A2) as Hd3. rewrite disk_after_app.
  destruct (durable_clear g.(lg_start) g (disk_after D2 wi) m2 _ Hd3) as [Hd4 E4].
  { rewrite E3, E2, En. intros i Hi. rewrite Eb by done.
    apply (writes_of_hit _ _ _ _ D2 i Hwi); [apply NoDup_seqZ| |apply elem_of_seqZ; lia].
    intros j Hj%elem_of_seqZ. apply (lo_inj _ Hg); lia. }
  split; [|done]. apply always_app; [done|]. apply always_cons; [done|]. by apply always_nil.
Qed.

(** The cache reads the same before and after. *)
Lemma commit_view d ws z (g := d.(klog)) :
  log_ok g -> commit_writes d ws -> ~ in_log g.(lg_start) z ->
  blk_eq (bview d ROOTDEV z) (disk_after (bview d ROOTDEV) ws z).
Proof.
  intros Hg (wl & m1 & wi & m2 & -> & Hwl & Hwi) Hz. fold g in Hwl, Hwi |- *.
  pose proof (lo_n _ Hg) as Hn. assert (z <> g.(lg_start)) as Hs.
  { intros ->. apply Hz. unfold in_log. lia. }
  rewrite disk_after_app. cbn [disk_after foldl]. set (V1 := disk_after _ wl).
  assert (V1 z = bview d ROOTDEV z) as E1.
  { apply (writes_of_view _ _ _ _ _ _ Hwl). intros i Hi%elem_of_seqZ ->. apply Hz.
    unfold in_log, log_block. lia. }
  fold (disk_after (apply_write V1 (lg_start g, head_bytes g m1))
    (wi ++ [(lg_start g, head_bytes (emptied g) m2)])). rewrite disk_after_app.
  cbn [disk_after foldl]. unfold apply_write at 1. cbn [fst snd]. rewrite fn_lookup_insert_ne by done.
  destruct (decide (Exists (fun i => z = g.(lh_block) i) (seqZ 0 g.(lh_n))))
    as [(i & Hi & ->)%Exists_exists|Hno].
  - apply (writes_of_hit _ _ _ _ _ i Hwi); [apply NoDup_seqZ| |done].
    apply elem_of_seqZ in Hi. intros j Hj%elem_of_seqZ. apply (lo_inj _ Hg); lia.
  - fold (disk_after (apply_write V1 (lg_start g, head_bytes g m1)) wi).
    rewrite (writes_of_view _ _ _ _ _ _ Hwi).
    + unfold apply_write. cbn [fst snd]. by rewrite fn_lookup_insert_ne, E1 by done.
    + intros i Hi ->. apply Hno, Exists_exists. eauto.
Qed.

(** ** Recovery *)

(** No buffer is referenced, as after a boot. *)
Definition idle (d : kdata) : Prop := forall b, (b < NBUF)%nat -> (d.(bufs) b).(b_refcnt) = 0.

Lemma idle_view d z : quiet d -> idle d -> bview d ROOTDEV z = d.(hw).(hw_disk) z.
Proof.
  intros Hq Hid. destruct (qu_inv _ Hq) as [o Hi].
  destruct (bview_cases d ROOTDEV z) as [(b & Hb & Hm & Hv & ->)|[_ ->]]; [|done].
  apply matches_eq in Hm as [M1 <-]. apply (bi_idle _ _ Hi b Hb); [by apply Hid|done|by rewrite M1].
Qed.

Lemma idle_room d : idle d -> room 2 d.
Proof.
  intros H. exists (seq 0 2). split; [apply NoDup_seq|]. split; [done|].
  intros b Hb%elem_of_seq. assert (b < NBUF)%nat; [change NBUF with 30%nat; lia|auto].
Qed.

Lemma head_of_ok D f g :
  lg_dev g = ROOTDEV -> 0 <= g.(lg_start) -> g.(lg_start) + LOGSIZE < 2 ^ 31 ->
  durable g.(lg_start) D f -> log_ok (head_of (D g.(lg_start)) g).
Proof.
  intros Hdev H0 H1 [H2 H3 H4 _ _].
  destruct (load_words_spec (D g.(lg_start)) (seqZ 0 (hdr_n (D g.(lg_start))))
    (g <| lh_n := hdr_n (D g.(lg_start)) |>)) as (E1 & E2 & E3 & E4).
  fold (head_of (D g.(lg_start)) g) in E1, E2, E3, E4. cbn in E1, E2, E3, E4.
  assert (forall i, 0 <= i < hdr_n (D g.(lg_start)) ->
    lh_block (head_of (D g.(lg_start)) g) i = hdr_block (D g.(lg_start)) i) as E5.
  { intros i Hi. rewrite E4, decide_True; [done|]. apply elem_of_seqZ. lia. }
  split; rewrite ?E1, ?E2, ?E3; try done.
  - intros i Hi. rewrite E5 by done. by apply H3.
  - intros i j Hi Hj. rewrite !E5 by done. by apply H4.
Qed.

Lemma recover_crash d f ws (st := d.(klog).(lg_start)) (D := d.(hw).(hw_disk)) :
  quiet d -> idle d -> durable st D f -> recover_writes d ws ->
  always (fun D' => durable st D' f) D ws /\ hdr_n (disk_after D ws st) = 0.
Proof.
  intros Hq Hid Hd (wi & m2 & -> & Hwi). rewrite idle_view in Hwi |- * by done. fold st D in Hwi |- *.
  destruct (load_words_spec (D st) (seqZ 0 (hdr_n (D st))) (klog d <| lh_n := hdr_n (D st) |>))
    as (_ & E2 & E3 & E4).
  fold (head_of (D st) (klog d)) in E2, E3, E4. set (g := head_of (D st) (klog d)) in *.
  cbn in E2, E3, E4. fold st in E2. rewrite E2, E3 in *.
  assert (forall i, 0 <= i < hdr_n (D st) -> lh_block g i = hdr_block (D st) i) as E5.
  { intros i Hi. rewrite E4, decide_True; [done|]. apply elem_of_seqZ. lia. }
  destruct (durable_installs st _ _ _ _ D f Hwi Hd) as [A2 E6].
  { intros i Hi%elem_of_seqZ. split; [lia|]. apply E5. lia. }
  pose proof (always_last _ _ _ A2) as Hd3. rewrite disk_after_app.
  destruct (durable_clear st g (disk_after D wi) m2 f Hd3) as [Hd4 E7].
  { rewrite E6. intros i Hi. etrans; [by apply (du_log _ _ _ Hd)|]. rewrite <- (E5 i Hi).
    pose proof (writes_of_hit _ _ _ _ D i Hwi) as Hh. cbn beta in Hh. unfold log_block in Hh.
    rewrite idle_view, E2 in Hh by done. apply Hh; [apply NoDup_seqZ| |apply elem_of_seqZ; lia].
    intros j Hj%elem_of_seqZ. rewrite !E5 by lia. apply (du_inj _ _ _ Hd); lia. }
  split; [|done]. apply always_app; [done|]. apply always_cons; [done|]. by apply always_nil.
Qed.

(** ** The theorems *)

Section theorems.
Context `{WF : WaitFuel} `{DDok : DiskDriverOk} (l0 : lockst) (L : list lockptr).
Context (kt : kptr) (p : nat) (pid : Z).

(** C14: A commit is atomic with respect to crashes.  Let the disk hold an empty log
    header, and let the cached blocks that differ from the disk be the pinned blocks
    of the transaction.  Then [commit] returns, having issued a sequence of block
    writes in which one write is the commit point: wherever a crash cuts the
    sequence, before that write the disk stands for the old contents, and from it on
    for the new ones.  In the end the header is empty again, the in-memory log too,
    every block outside the log reads as before, and each block of the transaction has lost its pin. *)
Theorem commit_crash_safe d (g := d.(klog)) (D := d.(hw).(hw_disk)) :
  fs_env l0 L kt -> self kt p pid d -> quiet d -> room 1 d ->
  log_ok g -> 0 < g.(lh_n) -> (forall i, 0 <= i < g.(lh_n) -> pinned d (g.(lh_block) i)) ->
  dirty_logged d -> hdr_n (D g.(lg_start)) = 0 ->
  pst l0 L d commit (fun _ d' => exists w1 h w2,
    d'.(hw).(hw_writes) = rev (w1 ++ h :: w2) ++ d.(hw).(hw_writes) /\
    d'.(hw).(hw_disk) = disk_after D (w1 ++ h :: w2) /\
    always (fun D' => durable g.(lg_start) D' D) D w1 /\
    always (fun D' => durable g.(lg_start) D' (bview d ROOTDEV)) (disk_after D (w1 ++ [h])) w2 /\
    hdr_n (d'.(hw).(hw_disk) g.(lg_start)) = 0 /\
    (forall z, ~ in_log g.(lg_start) z -> blk_eq (bview d ROOTDEV z) (bview d' ROOTDEV z)) /\
    d'.(klog) = emptied g /\ quiet d' /\ unpins d (g.(lh_block) <$> seqZ 0 g.(lh_n)) d').
Proof.
  intros He Hs Hq Hr Hg Hn Hp Hdl Hh.
  eapply po_mono; [by apply (po_commit l0 L kt p pid He d)|]. intros [] L' d' [-> (ws & Hw & R & U)].
  split; [done|]. pose proof (commit_view d ws) as Hv. destruct (commit_crash d ws Hg Hdl Hh Hw) as (w1 & h & w2 & -> & A1 & A2 & E).
  exists w1, h, w2. destruct R as [[_ K] Q Dk W V]. rewrite Dk, W, K. do 5 (split; [done|]).
  split; [|done]. intros z Hz. rewrite V. by apply Hv.
Qed.

(** C15: Recovery is correct and idempotent.  On a disk that stands for the contents
    [f], with nothing referenced in the cache, [recover_from_log] returns; at each of
    its block writes the disk still stands for [f], so that recovery may be cut short
    and run again; in the end the log is empty and every block outside the log area,
    on the disk and as read through the cache, has the contents [f] gives it. *)
Theorem recover_crash_safe d f (st := d.(klog).(lg_start)) (D := d.(hw).(hw_disk)) :
  fs_env l0 L kt -> self kt p pid d -> quiet d -> idle d ->
  d.(klog).(lg_dev) = ROOTDEV -> 0 <= st -> st + LOGSIZE < 2 ^ 31 -> durable st D f ->
  pst l0 L d recover_from_log (fun _ d' => exists ws,
    d'.(hw).(hw_writes) = rev ws ++ d.(hw).(hw_writes) /\
    d'.(hw).(hw_disk) = disk_after D ws /\ always (fun D' => durable st D' f) D ws /\
    hdr_n (d'.(hw).(hw_disk) st) = 0 /\ d'.(klog).(lh_n) = 0 /\ quiet d' /\ idle d' /\
    forall z, ~ in_log st z ->
      blk_eq (f z) (d'.(hw).(hw_disk) z) /\ bview d' ROOTDEV z = d'.(hw).(hw_disk) z).
Proof.
  intros He Hs Hq Hid Hdev H0 H1 Hd.
  assert (log_ok (head_of (bview d ROOTDEV st) d.(klog))) as Hg.
  { rewrite idle_view by done. by eapply head_of_ok. }
  eapply po_mono; [apply (po_recover l0 L kt p pid He d); try done; by apply idle_room|].
  intros [] L' d' [-> (ws & Hw & R & S)]. split; [done|]. exists ws.
  destruct (recover_crash d f ws Hq Hid Hd Hw) as [A E]. fold st D in A, E.
  destruct R as [[_ K] Q Dk W V]. cbn in Dk, W, K, V. fold D in Dk. rewrite Dk, W, K.
  assert (idle d') as Hid' by (intros b Hb; rewrite (rs_ref _ _ S) by done; by apply Hid).
  do 7 (split; [done|]). intros z Hz. rewrite idle_view, Dk by done. split; [|done].
  apply (du_home _ _ _ (always_last _ _ _ A)); [done|]. rewrite E. lia.
Qed.
End theorems.

(** ** Instances: a transaction of one block *)

Section witnesses.
#[local] Existing Instance sync_disk.
#[local] Existing Instance sync_disk_ok.
#[local] Existing Instance demo_fuel.

(** Block 50 is pinned in buffer 0 with new contents; the disk is blank. *)
Definition demo_dirty : buf :=
  buf0 <| b_valid := 1 |> <| b_dev := ROOTDEV |> <| b_blockno := 50 |> <| b_refcnt := 1 |>
    <| b_data := fun _ => 7 |>.
Definition demo_log : log := Log 2 LOGSIZE 0 1 ROOTDEV 1 (fun _ => 50).
Definition demo_trans : kdata := demo_cache demo_dirty (fun _ _ => 0) demo_log.

Lemma demo_quiet x0 disk g :
  x0.(b_dev) = ROOTDEV -> 0 <= x0.(b_refcnt) < 2 ^ 31 -> x0.(b_lock).(sl_locked) = 0 ->
  (x0.(b_refcnt) = 0 -> x0.(b_valid) <> 0 -> x0.(b_data) = disk x0.(b_blockno)) ->
  quiet (demo_cache x0 disk g).
Proof.
  intros Hd Hr Hl Hc. split.
  - eexists. apply demo_cache_inv; [done|lia|done|done].
  - intros b Hb. cbn. unfold demo_bufs. by case_decide.
  - intros b Hb. cbn. unfold demo_bufs. case_decide; cbn; lia.
Qed.

Lemma demo_log_ok : log_ok demo_log.
Proof.
  split; [done|done|done|..].
  - intros i Hi. split; [done|]. change LOGSIZE with 30. cbn. lia.
  - cbn. intros. lia.
Qed.

(** After the commit the new contents are on the disk. *)
Lemma commit_crash_safe_witness :
  pst (demo_run demo_kt) [] demo_trans commit (fun _ d' => blk_eq (fun _ => 7) (d'.(hw).(hw_disk) 50)).
Proof.
  eapply po_mono; [apply (commit_crash_safe (demo_run demo_kt) [] demo_kt 1 demo_pid demo_trans)|].
  - apply demo_fs_env.
  - done.
  - apply demo_quiet; done.
  - exists [1%nat]. split; [apply NoDup_singleton|]. split; [done|].
    intros b ->%list_elem_of_singleton. split; [vm_compute; lia|done].
  - apply demo_log_ok.
  - done.
  - intros i Hi. exists 0%nat. split; [vm_compute; lia|]. done.
  - intros z Hz Hn. replace (bview demo_trans ROOTDEV z) with (demo_trans.(hw).(hw_disk) z); [done|].
    symmetry. apply bview_uncached. intros b Hb [Hm1 Hm2]%matches_eq. cbn in *. unfold demo_bufs in *.
    case_decide; [|done]. cbn in Hm2. destruct (Hn 0); [cbn; lia|]. by subst.
  - done.
  - intros [] L' d' [-> (w1 & h & w2 & _ & Ed & _ & A & Eh & _)]. split; [done|].
    pose proof (always_last _ _ _ A) as Hd. rewrite <- disk_after_app, <- app_assoc in Hd. cbn [app] in Hd.
    rewrite <- Ed in Hd. apply (du_home _ _ _ Hd 50); [|rewrite Eh; lia].
    unfold in_log. change LOGSIZE with 30. cbn. lia.
Defined.

(** The disk after a crash at the commit point: block 50 is still in the log. *)
Definition demo_crashed : Z -> bytes :=
  <[2 := head_bytes demo_log (fun _ => 0)]> (<[3 := fun _ => 7]> (fun _ _ => 0)).
Definition demo_boot : kdata :=
  demo_cache (buf0 <| b_dev := ROOTDEV |>) demo_crashed (demo_log <| lh_n := 0 |>).

Lemma recover_crash_safe_witness :
  pst (demo_run demo_kt) [] demo_boot recover_from_log
    (fun _ d' => blk_eq (fun _ => 7) (d'.(hw).(hw_disk) 50)).
Proof.
  eapply po_mono; [apply (recover_crash_safe (demo_run demo_kt) [] demo_kt 1 demo_pid demo_boot
    (<[50 := fun _ => 7]> (fun _ _ => 0)))|].
  - apply demo_fs_env.
  - done.
  - apply demo_quiet; done.
  - intros b Hb. cbn. unfold demo_bufs. by case_decide.
  - done.
  - done.
  - done.
  - change demo_crashed with (apply_write (<[3 := fun _ => 7]> (fun _ _ => 0)) (2, head_bytes demo_log (fun _ => 0))).
    apply durable_commit; [apply demo_log_ok|done|..].
    + intros i Hi. cbn in Hi. replace i with 0 by lia. done.
    + intros z Hz Hn. rewrite !fn_lookup_insert_ne; [done| |].
      * intros <-. apply Hz. done.
      * intros <-. by apply (Hn 0).
  - intros [] L' d' [-> (ws & _ & _ & _ & _ & _ & _ & _ & Hz)]. split; [done|].
    destruct (Hz 50) as [E _]; [|by rewrite fn_lookup_insert in E].
    unfold in_log. change LOGSIZE with 30. cbn. lia.
Defined.
End witnesses.
