(* ===== verification/LogOps.v ===== *)
(** * The operations of a transaction (kernel/log.c)

    [begin_op] reserves space for one operation or sleeps, [log_write] records a block
    once, [end_op] commits when the last operation ends. *)
From S2P Require Export Crash.

(** The blocks of the current transaction. *)
Definition logged (g : log) : list Z := g.(lh_block) <$> seqZ 0 g.(lh_n).

(** [log_slot] is the first index that holds the block, or the end. *)
Lemma log_slot_spec n i blk b :
  0 <= i ->
  i <= log_slot n i blk b <= i + Z.of_nat n /\
  (forall j, i <= j < log_slot n i blk b -> u32 (blk j) <> b) /\
  (log_slot n i blk b < i + Z.of_nat n -> u32 (blk (log_slot n i blk b)) = b).
Proof.
  revert i. induction n as [|n IH]; intros i Hi; cbn [log_slot].
  - split; [lia|]. split; intros; lia.
  - destruct (Z.eqb_spec (u32 (blk i)) b) as [E|N].
    + split; [lia|]. split; [intros; lia|done].
    + destruct (IH (i + 1)) as (B & Hn & He); [lia|]. split; [lia|]. split; [|intros; apply He; lia].
      intros j Hj. destruct (decide (j = i)) as [->|]; [done|]. apply Hn. lia.
Qed.

Section ops.
Context `{WF : WaitFuel} `{DDok : DiskDriverOk} (l0 : lockst) (L : list lockptr).
Context (kt : kptr) (p : nat) (pid : Z).

(** The log after [log_write] of block [b]. *)
Definition logged_d (b : nat) (d : kdata) : kdata :=
  let g := d.(klog) in let blk := (d.(bufs) b).(b_blockno) in
  let i := log_slot (Z.to_nat g.(lh_n)) 0 g.(lh_block) blk in
  let d1 := d <| klog ::= fun g => g <| lh_block ::= <[i := s32 blk]> |> |> in
  if i =? g.(lh_n)
  then upd_buf b (fun x => x <| b_refcnt ::= fun n => u32 (n + 1) |>) d1
         <| klog ::= fun g => g <| lh_n ::= fun n => n + 1 |> |>
  else d1.

Lemma ev_log_write d b (g := d.(klog)) :
  log_lock ∉ L -> lfree l0 log_lock -> bcache_lock ∉ L -> lfree l0 bcache_lock ->
  g.(lh_n) < LOGSIZE -> g.(lh_n) < g.(lg_size) - 1 -> 1 <= g.(lg_outstanding) ->
  evals l0 L d (log_write b) tt L (logged_d b d).
Proof.
  intros Hl1 Hl2 Hb1 Hb2 Hn Hsz Ho. unfold log_write. ev1. { ev1. } cbn beta. ev1. { ev1. } cbn beta. fold g.
  rewrite (proj2 (Z.leb_gt _ _) Hn), (proj2 (Z.leb_gt _ _) Hsz). cbn [orb].
  rewrite (proj2 (Z.ltb_ge _ _) Ho). ev1. { apply ev_getd. } cbn beta. ev1. { apply ev_modd. } cbn beta.
  unfold logged_d. fold g. set (i := log_slot _ _ _ _). destruct (i =? lh_n g); cbn [when].
  - eapply evals_eq.
    { ev1; [|ev1]. unfold bpin. ev1; [|apply ev_modd]. ev1. { ev1. } cbn beta. ev1. { apply ev_b_set. } ev1. }
    all: done.
  - ev1. { ev1. } ev1.
Qed.

Lemma ev_log_write_full d b (g := d.(klog)) :
  log_lock ∉ L -> lfree l0 log_lock -> LOGSIZE <= g.(lh_n) \/ g.(lg_size) - 1 <= g.(lh_n) ->
  evals_panic l0 L d (log_write b) "too big a transaction".
Proof.
  intros Hl1 Hl2 Hn. unfold log_write. eapply ev_bind_panic. { ev1. } cbn beta. eapply ev_bind_panic. { ev1. }
  cbn beta. fold g. replace ((LOGSIZE <=? lh_n g) || (lg_size g - 1 <=? lh_n g)) with true; [ev1|].
  symmetry. apply orb_true_iff. rewrite !Z.leb_le. done.
Qed.

Lemma ev_log_write_outside d b (g := d.(klog)) :
  log_lock ∉ L -> lfree l0 log_lock -> g.(lh_n) < LOGSIZE -> g.(lh_n) < g.(lg_size) - 1 ->
  g.(lg_outstanding) < 1 -> evals_panic l0 L d (log_write b) "log_write outside of trans".
Proof.
  intros Hl1 Hl2 Hn Hsz Ho. unfold log_write. eapply ev_bind_panic. { ev1. } cbn beta.
  eapply ev_bind_panic. { ev1. } cbn beta. fold g.
  rewrite (proj2 (Z.leb_gt _ _) Hn), (proj2 (Z.leb_gt _ _) Hsz). cbn [orb].
  rewrite (proj2 (Z.ltb_lt _ _) Ho). ev1.
Qed.

(** What [log_write] does to the transaction. *)
Lemma logged_d_spec d b (g := d.(klog)) (d' := logged_d b d) (blk := (d.(bufs) b).(b_blockno)) :
  0 <= g.(lh_n) -> (forall i, 0 <= i < g.(lh_n) -> 0 <= g.(lh_block) i < 2 ^ 31) -> 0 <= blk < 2 ^ 31 ->
  logged d'.(klog) = (if decide (blk ∈ logged g) then logged g else logged g ++ [blk]) /\
  d'.(bufs) = (if decide (blk ∈ logged g) then d.(bufs)
               else alter (fun x => x <| b_refcnt ::= fun n => u32 (n + 1) |>) b d.(bufs)) /\
  d' = d <| bufs := d'.(bufs) |> <| klog := d'.(klog) |> /\
  d'.(klog) = g <| lh_n := d'.(klog).(lh_n) |> <| lh_block := d'.(klog).(lh_block) |>.
Proof.
  intros Hn Hr Hb. destruct (log_slot_spec (Z.to_nat g.(lh_n)) 0 g.(lh_block) blk) as (B & Hne & He); [lia|].
  unfold d', logged_d. fold g blk. set (i := log_slot _ _ _ _) in *. rewrite Z2Nat.id in B, He by done.
  rewrite s32_small by lia.
  destruct (Z.eqb_spec i g.(lh_n)) as [E|N].
  - assert (blk ∉ logged g) as Hni.
    { intros (j & Ej & Hj%elem_of_seqZ)%list_elem_of_fmap. apply (Hne j); [lia|].
      rewrite Ej, u32_small; [done|]. specialize (Hr j). lia. }
    rewrite !decide_False by done. cbn. split; [|done]. unfold logged. cbn. fold g.
    rewrite seqZ_app by lia. rewrite fmap_app. cbn. rewrite E, Z.add_0_l.
    change (seqZ (lh_n g) 1) with [0 + lh_n g]. rewrite Z.add_0_l, list_fmap_singleton, fn_lookup_insert.
    f_equal. apply list_fmap_ext. intros k j Hk. apply fn_lookup_insert_ne.
    apply lookup_seqZ in Hk. lia.
  - assert (u32 (g.(lh_block) i) = blk) as Ei by (apply He; lia).
    rewrite u32_small in Ei by (specialize (Hr i); lia).
    assert (blk ∈ logged g) as Hin.
    { apply list_elem_of_fmap. exists i. split; [done|]. apply elem_of_seqZ. lia. }
    rewrite !decide_True by done. cbn. split; [|done]. unfold logged. cbn. fold g.
    apply list_fmap_ext. intros k j Hk. rewrite fn_insert_case. case_dec; [|done]. congruence.
Qed.

(** ** begin_op *)

(** There is room in the log for one more operation. *)
Definition has_room (g : log) : bool :=
  negb (ctrue g.(lg_committing)) && (g.(lh_n) + (g.(lg_outstanding) + 1) * MAXOPBLOCKS <=? LOGSIZE).

Definition reserved (d : kdata) : kdata :=
  d <| klog ::= fun g => g <| lg_outstanding ::= fun n => n + 1 |> |>.

Lemma has_room_guard g :
  ctrue g.(lg_committing) || (LOGSIZE <? g.(lh_n) + (g.(lg_outstanding) + 1) * MAXOPBLOCKS) = negb (has_room g).
Proof. unfold has_room. by rewrite negb_andb, negb_involutive, <- Z.ltb_antisym. Qed.

Lemma ev_begin_op_loop l1 L1 d fuel :
  has_room d.(klog) = true -> evals l1 (log_lock :: L1) d (begin_op_loop fuel) tt L1 (reserved d).
Proof.
  intros Hr. destruct fuel; cbn [begin_op_loop]; (ev1; [ev1|]); cbn beta; rewrite has_room_guard, Hr;
    cbn [negb]; (ev1; [apply ev_modd|]); ev1.
Qed.

Lemma ev_begin_op d :
  log_lock ∉ L -> lfree l0 log_lock -> has_room d.(klog) = true ->
  evals l0 L d begin_op tt L (reserved d).
Proof. intros ?? Hr. unfold begin_op. ev1. { ev1. } by apply ev_begin_op_loop. Qed.

Lemma ev_begin_op_waits d :
  running l0 = Some kt -> (cur_cpu l0).(c_noff) = 0 -> lfree l0 log_lock -> lfree l0 (t_lock kt) ->
  has_room d.(klog) = false -> (0 < wait_fuel)%nat ->
  evals_swtch l0 [] d begin_op [t_lock kt] (asleep_d kt chan_log d)
    (fun k => forall l1 d2, resumable l0 l1 -> lfree l1 log_lock -> has_room d2.(klog) = true ->
       evals l1 [t_lock kt] d2 k tt [] (reserved (upd_kt kt (fun t => t <| kt_chan := None |>) d2))).
Proof.
  intros Hrun Hn Hl Ht Hr Hf. unfold begin_op. eapply ev_bind_swtch; [by ev1|]. cbn beta.
  destruct wait_fuel as [|fuel]; [lia|]. cbn [begin_op_loop]. eapply ev_bind_swtch; [by ev1|]. cbn beta.
  rewrite has_room_guard, Hr. cbn [negb]. apply ev_swtch_bind. intros s Hs Hd.
  destruct (ev_sleep l0 kt chan_log log_lock d Hrun Hn ltac:(done) Ht s Hs Hd) as (s' & k & E & E1 & E2 & Hk).
  exists s', k. split; [done|]. split; [done|]. split; [done|]. intros l1 d2 Hres Hlk Hr2.
  change (evals l1 [t_lock kt] d2 (@mbind M _ _ _ (fun _ => begin_op_loop fuel) k) tt []
    (reserved (upd_kt kt (fun t => t <| kt_chan := None |>) d2))).
  eapply ev_bind; [by apply Hk|]. cbn beta. by apply ev_begin_op_loop.
Qed.

(** ** end_op *)

Ltac lpo1 :=
  cbn beta iota;
  lazymatch goal with
  | |- posts _ _ _ (lg_set _) _ => apply po_modd
  | |- posts _ _ _ (lg_get _) _ => apply po_getd
  | |- _ => po1
  end.
Ltac lpo := repeat lpo1.

Hypothesis Henv : fs_env l0 L kt.

Lemma quiet_eq d d' : d'.(bufs) = d.(bufs) -> d'.(hw) = d.(hw) -> quiet d -> quiet d'.
Proof.
  intros Eb Eh [[o [I1 I2 I3 I4 I5 I6]] Hl Hr]. unfold matches in I3.
  split; rewrite ?Eb; try done. exists o. split; unfold matches; rewrite ?Eb, ?Eh; done.
Qed.

Lemma bview_eq d d' dev z : d'.(bufs) = d.(bufs) -> d'.(hw) = d.(hw) -> bview d' dev z = bview d dev z.
Proof. intros Eb Eh. unfold bview, matches. by rewrite Eb, Eh. Qed.

Lemma logrun_woke d ws d1 d2 : logrun d ws d1 -> woke d1 d2 -> logrun d ws d2.
Proof.
  intros [[F K] Q D W V] H. assert (d2.(bufs) = d1.(bufs) /\ d2.(hw) = d1.(hw) /\ d2.(klog) = d1.(klog))
    as (Eb & Eh & Ek) by by rewrite (wk_rest _ _ H).
  split; rewrite ?Eh, ?Ek; try done.
  - split; [|done]. etrans; [done|by apply woke_fsame].
  - by apply (quiet_eq d1).
  - intros z. by rewrite (bview_eq d1).
Qed.

Definition ended (g : log) : log := g <| lg_outstanding := 0 |> <| lg_committing := 0 |> <| lh_n := 0 |>.

Lemma tlocks_free_log : tlocks_free l0 (log_lock :: L).
Proof. apply tlocks_free_cons; [done|apply Henv]. Qed.

(** An operation ends while others are in progress. *)
Lemma po_end_op_other d :
  d.(klog).(lg_committing) = 0 -> d.(klog).(lg_outstanding) <> 1 ->
  pst l0 L d end_op (fun _ d' =>
    woke (d <| klog ::= fun g => g <| lg_outstanding ::= fun n => n - 1 |> |>) d').
Proof.
  intros Hc Ho. destruct (fe_lock _ _ _ Henv log_lock I) as [Hl1 Hl2]. unfold end_op.
  lpo. cbn. rewrite Hc. cbn. rewrite (proj2 (Z.eqb_neq _ _)) by lia. lpo. apply po_wakeup; [apply tlocks_free_log|].
  intros d' Hw. lpo. cbn [when]. by lpo1.
Qed.

(** [commit], also of an empty transaction. *)
Definition commit_effect (d : kdata) (ws : list (Z * bytes)) (d' : kdata) : Prop :=
  if 0 <? d.(klog).(lh_n) then commit_writes d ws /\ unpins d (logged d.(klog)) d'
  else ws = [] /\ refs_same d d'.

Lemma po_commit_any d (g := d.(klog)) :
  quiet d -> self kt p pid d -> log_ok g -> room 1 d ->
  (forall i, 0 <= i < g.(lh_n) -> pinned d (g.(lh_block) i)) ->
  pst l0 L d commit (fun _ d' => exists ws, logrun (d <| klog ::= emptied |>) ws d' /\ commit_effect d ws d').
Proof.
  intros Hq Hs Hg Hrm Hpin. unfold commit_effect. destruct (Z.ltb_spec 0 d.(klog).(lh_n)) as [Hn|Hn].
  - eapply po_mono; [by apply (po_commit l0 L kt p pid Henv d)|].
    intros [] L' d' [-> (ws & Hw & R & U)]. split; [done|]. by exists ws.
  - pose proof (lo_n _ Hg) as Hn'. fold g in Hn.
    unfold commit. po1. po1. apply po_getd. fold g. rewrite (proj2 (Z.ltb_ge _ _) Hn). cbn [when].
    po1. split; [done|]. exists []. split; [|done]. replace (d <| klog ::= emptied |>) with d.
    { by apply logrun_refl. }
    assert (emptied g = g) as E.
    { unfold emptied. replace 0 with g.(lh_n) by lia. by destruct g. }
    change (d = d <| klog := emptied g |>). rewrite E. by destruct d.
Qed.

(** The last operation ends: the transaction is committed. *)
Lemma po_end_op_last d (g := d.(klog)) :
  g.(lg_committing) = 0 -> g.(lg_outstanding) = 1 ->
  quiet d -> self kt p pid d -> log_ok g -> room 1 d ->
  (forall i, 0 <= i < g.(lh_n) -> pinned d (g.(lh_block) i)) ->
  pst l0 L d end_op (fun _ d' => exists ws,
    logrun (d <| klog := ended g |>) ws d' /\ commit_effect d ws d').
Proof.
  intros Hc Ho Hq Hs Hg Hrm Hpin. destruct (fe_lock _ _ _ Henv log_lock I) as [Hl1 Hl2]. unfold end_op.
  lpo. cbn. fold g. rewrite Hc, Ho. change (1 - 1 =? 0) with true. change (ctrue 0) with false.
  lpo. cbn [when]. lpo1.
  match goal with |- posts _ _ ?x _ _ => set (d1 := x) end.
  assert (quiet d1) as Hq1 by by apply (quiet_eq d).
  assert (log_ok d1.(klog)) as Hg1 by (by destruct Hg; split).
  eapply po_call; [apply (po_commit_any d1); [done|exact Hs|done|exact Hrm|exact Hpin]|].
  intros [] d2 (ws & R & Hw). assert (d2.(klog) = emptied d1.(klog)) as K2 by apply R.
  lpo. apply po_wakeup; [apply tlocks_free_log|]. intros d3 Hwk. lpo. split; [done|]. exists ws.
  assert (d3.(bufs) = d2.(bufs)) as Eb by by rewrite (wk_rest _ _ Hwk).
  split.
  - eapply logrun_woke; [|exact Hwk]. apply (logrun_klog _ _ _ (ended g)) in R.
    replace (d2 <| klog ::= _ |>) with (d2 <| klog := ended g |>); [exact R|].
    enough (d2.(klog) <| lg_committing := 0 |> = ended g) as E.
    { change (d2 <| klog := ended g |> = d2 <| klog := d2.(klog) <| lg_committing := 0 |> |>). by rewrite E. }
    rewrite K2. unfold d1, ended, emptied. cbn. fold g. clearbody g. destruct g. cbn in Ho. by subst.
  - unfold commit_effect in *. change (lh_n (klog d1)) with (lh_n (klog d)) in Hw.
    destruct (0 <? lh_n (klog d)).
    + destruct Hw as [Hw [U1 U2 U3]]. split; [exact Hw|]. by split; unfold matches; rewrite ?Eb.
    + destruct Hw as [-> [S1 S2]]. split; [done|]. by split; unfold matches; rewrite ?Eb.
Qed.
End ops.

(** ** The theorems *)

Section theorems.
Context `{WF : WaitFuel} `{DDok : DiskDriverOk} (l0 : lockst) (L : list lockptr).
Context (kt : kptr) (p : nat) (pid : Z).

(** C16: [log_write] panics when the transaction is too big for the log or when no
    operation is in progress.  Otherwise it records the block of the buffer in the
    transaction exactly once (log absorption): a block that is already recorded
    changes nothing, a new one is appended and its buffer pinned; a transaction
    without duplicates stays one. *)
Theorem log_write_correct d b (g := d.(klog)) (blk := (d.(bufs) b).(b_blockno)) :
  fs_env l0 L kt -> 0 <= g.(lh_n) -> 0 <= blk < 2 ^ 31 ->
  (forall i, 0 <= i < g.(lh_n) -> 0 <= g.(lh_block) i < 2 ^ 31) ->
  (LOGSIZE <= g.(lh_n) \/ g.(lg_size) - 1 <= g.(lh_n) ->
   evals_panic l0 L d (log_write b) "too big a transaction") /\
  (g.(lh_n) < LOGSIZE -> g.(lh_n) < g.(lg_size) - 1 -> g.(lg_outstanding) < 1 ->
   evals_panic l0 L d (log_write b) "log_write outside of trans") /\
  (g.(lh_n) < LOGSIZE -> g.(lh_n) < g.(lg_size) - 1 -> 1 <= g.(lg_outstanding) ->
   exists d', evals l0 L d (log_write b) tt L d' /\
     logged d'.(klog) = (if decide (blk ∈ logged g) then logged g else logged g ++ [blk]) /\
     (NoDup (logged g) -> NoDup (logged d'.(klog))) /\
     d'.(bufs) = (if decide (blk ∈ logged g) then d.(bufs)
                  else alter (fun x => x <| b_refcnt ::= fun n => u32 (n + 1) |>) b d.(bufs)) /\
     d' = d <| bufs := d'.(bufs) |> <| klog := d'.(klog) |> /\
     d'.(klog) = g <| lh_n := d'.(klog).(lh_n) |> <| lh_block := d'.(klog).(lh_block) |>).
Proof.
  intros He Hn Hb Hr. destruct (fe_lock _ _ _ He log_lock I) as [Hl1 Hl2].
  destruct (fe_lock _ _ _ He bcache_lock I) as [Hc1 Hc2]. split; [|split].
  - by apply ev_log_write_full.
  - by apply ev_log_write_outside.
  - intros H1 H2 H3. exists (logged_d b d). split; [by apply ev_log_write|].
    destruct (logged_d_spec d b Hn Hr Hb) as (E1 & E2 & E3 & E4). split; [done|]. split; [|done].
    intros Hnd. rewrite E1. destruct (decide _) as [Hin|Hin]; [done|]. apply NoDup_app. split; [done|].
    split; [|apply NoDup_singleton]. by intros x Hx ->%list_elem_of_singleton.
Qed.

(** C17: [begin_op] admits an operation only when the log has room for [MAXOPBLOCKS]
    more blocks beyond those of the operations in progress, and no commit is running;
    the reservation then covers it.  Otherwise it sleeps on the log, and when it is
    woken with room in the log it is admitted. *)
Theorem begin_op_reserves d :
  running l0 = Some kt -> (cur_cpu l0).(c_noff) = 0 -> lfree l0 log_lock -> lfree l0 (t_lock kt) ->
  (0 < wait_fuel)%nat ->
  if has_room d.(klog) then
    evals l0 [] d begin_op tt [] (reserved d) /\
    (reserved d).(klog).(lg_committing) = 0 /\
    (reserved d).(klog).(lh_n) + (reserved d).(klog).(lg_outstanding) * MAXOPBLOCKS <= LOGSIZE
  else
    evals_swtch l0 [] d begin_op [t_lock kt] (asleep_d kt chan_log d)
      (fun k => forall l1 d2, resumable l0 l1 -> lfree l1 log_lock -> has_room d2.(klog) = true ->
         evals l1 [t_lock kt] d2 k tt [] (reserved (upd_kt kt (fun t => t <| kt_chan := None |>) d2))).
Proof.
  intros Hr Hn Hl Ht Hf. destruct (has_room d.(klog)) eqn:E; [|by apply ev_begin_op_waits].
  split; [by apply ev_begin_op; [apply not_elem_of_nil|..]|]. unfold has_room in E.
  apply andb_true_iff in E as [E1 E2]. apply negb_true_iff, ctrue_false in E1. split; [done|].
  apply Z.leb_le in E2. done.
Qed.

End theorems.

(** ** Instances *)

Section witnesses.
#[local] Existing Instance sync_disk.
#[local] Existing Instance sync_disk_ok.
#[local] Existing Instance demo_fuel.

(** Block 50 is written within one operation. *)
Definition demo_op : kdata := demo_cache demo_dirty (fun _ _ => 0) (Log 2 LOGSIZE 1 0 ROOTDEV 0 (fun _ => 0)).

Lemma log_write_correct_witness :
  exists d', evals (demo_run demo_kt) [] demo_op (log_write 0) tt [] d' /\ logged d'.(klog) = [50].
Proof.
  destruct (log_write_correct (demo_run demo_kt) [] demo_kt demo_op 0) as (_ & _ & H);
    [apply demo_fs_env|done|done|intros i Hi; cbn in Hi; lia|].
  destruct H as (d' & E & Hl & _); [done|done|done|]. by exists d'.
Defined.

Lemma begin_op_reserves_witness : evals (demo_run demo_kt) [] demo_op begin_op tt [] (reserved demo_op).
Proof.
  apply (begin_op_reserves (demo_run demo_kt) demo_kt demo_op); try done. apply le_n_S, Nat.le_0_l.
Defined.

End witnesses.
