(* ===== verification/FsTxn.v ===== *)
(** * The file system inside a transaction

    Between [begin_op] and [end_op] the file system code sees a logical disk, the
    contents of the blocks through the cache ([ldisk]).  [bread] reads it; the
    sequence [bread], change, [log_write], [brelse] updates one block of it and adds
    the block to the transaction.  [txn] is the invariant: the references to buffers
    are exactly the pins of the blocks of the transaction, and only these blocks
    differ from the disk. *)
From S2P Require Export LogOps.

Definition ldisk (d : kdata) : Z -> bytes := bview d ROOTDEV.

Definition holds_logged (d : kdata) (b : nat) : Prop :=
  (d.(bufs) b).(b_dev) = ROOTDEV /\ (d.(bufs) b).(b_blockno) ∈ logged d.(klog).

Record txn (d : kdata) : Prop := {
  tx_inv : exists order, bio_inv d order;
  tx_lock : forall b, (b < NBUF)%nat -> (d.(bufs) b).(b_lock).(sl_locked) = 0;
  tx_ref : forall b, (b < NBUF)%nat ->
    (d.(bufs) b).(b_refcnt) = if decide (holds_logged d b) then 1 else 0;
  tx_log : log_ok d.(klog);
  tx_size : d.(klog).(lg_size) = LOGSIZE;
  tx_out : 1 <= d.(klog).(lg_outstanding);
  tx_pin : forall z, z ∈ logged d.(klog) -> exists b, (b < NBUF)%nat /\ matches d ROOTDEV z b = true;
  tx_dirty : dirty_logged d;
}.

Lemma logged_elem g z : z ∈ logged g <-> exists i, 0 <= i < g.(lh_n) /\ z = g.(lh_block) i.
Proof.
  unfold logged. rewrite list_elem_of_fmap. split; intros (i & H1 & H2); exists i.
  - apply elem_of_seqZ in H2. split; [lia|done].
  - split; [done|]. apply elem_of_seqZ. lia.
Qed.

Lemma logged_length g : 0 <= g.(lh_n) -> Z.of_nat (length (logged g)) = g.(lh_n).
Proof. intros. unfold logged. rewrite length_fmap, length_seqZ. lia. Qed.

Lemma log_ok_nodup g : log_ok g -> NoDup (logged g).
Proof.
  intros Hg. unfold logged. apply NoDup_fmap_2_strong; [|apply NoDup_seqZ].
  intros i j Hi%elem_of_seqZ Hj%elem_of_seqZ E. apply (lo_inj _ Hg); [lia|lia|done].
Qed.

Lemma txn_quiet d : txn d -> quiet d.
Proof.
  intros [H1 H2 H3 _ _ _ _ _]. split; [done|done|]. intros b Hb. rewrite H3 by done. case_decide; lia.
Qed.

Lemma txn_pinned d z : txn d -> z ∈ logged d.(klog) -> pinned d z.
Proof.
  intros Ht Hz. destruct (tx_pin _ Ht z Hz) as (b & Hb & Hm). exists b. split; [done|]. split; [done|].
  apply matches_eq in Hm as [M1 M2]. rewrite (tx_ref _ Ht) by done. rewrite decide_True; [done|].
  split; [done|by rewrite M2].
Qed.

Lemma txn_pins d : txn d ->
  forall i, 0 <= i < d.(klog).(lh_n) -> pinned d (d.(klog).(lh_block) i).
Proof. intros Ht i Hi. apply txn_pinned; [done|]. apply logged_elem. eauto. Qed.

(** The buffers that are not pinned can be reused. *)
Lemma txn_room d : txn d -> room (NBUF - length (logged d.(klog))) d.
Proof.
  intros Ht. destruct (tx_inv _ Ht) as [o Hi].
  set (P := fun b => (d.(bufs) b).(b_refcnt) = 0).
  pose proof (Permutation_length (filter_app_complement P (seq 0 NBUF))) as Hlen.
  rewrite length_app, length_seq in Hlen. set (l := filter _ (seq 0 NBUF)) in Hlen.
  set (r := filter _ (seq 0 NBUF)) in Hlen.
  assert (forall b, b ∈ r -> (b < NBUF)%nat /\ holds_logged d b) as Hr.
  { intros b [Hn Hb%elem_of_seq]%list_elem_of_filter. split; [lia|]. unfold P in Hn.
    rewrite (tx_ref _ Ht) in Hn by lia. by case_decide. }
  assert (length r <= length (logged d.(klog)))%nat as Hle.
  { rewrite <- (length_fmap (fun b => (d.(bufs) b).(b_blockno))). apply submseteq_length, NoDup_submseteq.
    - apply NoDup_fmap_2_strong; [|apply NoDup_filter, NoDup_seq].
      intros b b' Hb Hb' E. destruct (Hr b Hb) as [? [D1 _]], (Hr b' Hb') as [? [D2 _]].
      apply (bi_uniq _ _ Hi b b' ROOTDEV (d.(bufs) b).(b_blockno)); try done; by apply matches_eq.
    - intros z (b & -> & Hb)%list_elem_of_fmap. by apply Hr. }
  exists (take (NBUF - length (logged d.(klog))) l). split; [|split].
  - apply (sublist_NoDup _ l); [apply NoDup_filter, NoDup_seq|apply sublist_take].
  - rewrite length_take. lia.
  - intros b Hb. eapply elem_of_sublist in Hb; [|apply sublist_take].
    apply list_elem_of_filter in Hb as [Hb1 Hb2%elem_of_seq]. split; [lia|done].
Qed.

Lemma room_le k k' d : (k' <= k)%nat -> room k d -> room k' d.
Proof. induction 1; [done|]. intros Hr. by apply IHle, room_pred. Qed.

Lemma txn_room1 d : txn d -> room 1 d.
Proof.
  intros Ht. eapply room_le, txn_room, Ht. pose proof (lo_n _ (tx_log _ Ht)) as Hn.
  pose proof (logged_length d.(klog) ltac:(lia)). change NBUF with 30%nat. change LOGSIZE with 30 in Hn. lia.
Qed.

(** ** Steps that keep or extend the transaction *)

(** The effect of a step on the references, when [new] is added to the transaction
    with buffer [b]. *)
Record txn_step (d : kdata) (new : option (Z * nat)) (d' : kdata) : Prop := {
  ts_inv : exists order, bio_inv d' order;
  ts_lock : forall c, (c < NBUF)%nat -> (d'.(bufs) c).(b_lock).(sl_locked) = 0;
  ts_ref : forall c, (c < NBUF)%nat -> (d'.(bufs) c).(b_refcnt) = (d.(bufs) c).(b_refcnt) +
    match new with
    | Some (x, b) => if decide (c = b /\ x ∉ logged d.(klog)) then 1 else 0
    | None => 0
    end;
  ts_keep : forall c z, (c < NBUF)%nat -> 1 <= (d.(bufs) c).(b_refcnt) ->
    matches d ROOTDEV z c = true -> matches d' ROOTDEV z c = true;
  ts_new : match new with
    | Some (x, b) => (b < NBUF)%nat /\ matches d' ROOTDEV x b = true /\
        (x ∉ logged d.(klog) -> (d.(bufs) b).(b_refcnt) = 0)
    | None => True
    end;
  ts_logged : logged d'.(klog) =
    match new with
    | Some (x, _) => if decide (x ∈ logged d.(klog)) then logged d.(klog) else logged d.(klog) ++ [x]
    | None => logged d.(klog)
    end;
}.

Lemma ts_elem d new d' z : txn_step d new d' ->
  z ∈ logged d'.(klog) <-> z ∈ logged d.(klog) \/ exists b, new = Some (z, b).
Proof.
  intros H. rewrite (ts_logged _ _ _ H). destruct new as [[x b]|].
  - case_decide as Hx; rewrite ?elem_of_app, ?list_elem_of_singleton.
    + split; [by left|]. by intros [?|[b' [= -> _]]].
    + split; intros [?|E]; [by left|right; subst; by exists b|by left|right]. destruct E as [b' [= -> _]]. done.
  - split; [by left|]. by intros [?|[b' ?]].
Qed.

Lemma txn_step_ref d new d' : txn d -> txn_step d new d' ->
  forall c, (c < NBUF)%nat -> (d'.(bufs) c).(b_refcnt) = if decide (holds_logged d' c) then 1 else 0.
Proof.
  intros Ht H c Hc. destruct (ts_inv _ _ _ H) as [o' Hi'].
  assert (forall z, z ∈ logged d.(klog) -> exists e, (e < NBUF)%nat /\ (d.(bufs) e).(b_refcnt) = 1 /\
    matches d' ROOTDEV z e = true) as Hpin.
  { intros z Hz. destruct (txn_pinned _ _ Ht Hz) as (e & He & Hm & Hr). exists e. split; [done|].
    split; [|by apply (ts_keep _ _ _ H)]. rewrite (tx_ref _ Ht) in Hr |- * by done. by case_decide. }
  destruct (decide (holds_logged d' c)) as [[Hd Hl]|Hn].
  - set (y := (d'.(bufs) c).(b_blockno)) in *.
    assert (matches d' ROOTDEV y c = true) as Hmc by by apply matches_eq.
    apply (ts_elem _ _ _ _ H) in Hl. destruct (decide (y ∈ logged d.(klog))) as [Hy|Hy].
    + destruct (Hpin y Hy) as (e & He & Hr & Hm). rewrite (bi_uniq _ _ Hi' c e ROOTDEV y) by done.
      rewrite (ts_ref _ _ _ H), Hr by done. destruct new as [[x b]|]; [|done].
      rewrite decide_False; [done|]. intros [-> Hx]. destruct (ts_new _ _ _ H) as (_ & _ & H0).
      rewrite H0 in Hr by done. done.
    + destruct Hl as [?|[b ->]]; [done|]. destruct (ts_new _ _ _ H) as (Hb & Hm & H0).
      rewrite (bi_uniq _ _ Hi' c b ROOTDEV y) by done. rewrite (ts_ref _ _ _ H), H0 by done.
      by rewrite decide_True.
  - assert ((d.(bufs) c).(b_refcnt) = 0) as H0.
    { rewrite (tx_ref _ Ht) by done. case_decide as Hh; [|done]. destruct Hn. destruct Hh as [D Hl].
      assert (matches d' ROOTDEV (d.(bufs) c).(b_blockno) c = true) as [M1 M2]%matches_eq.
      { apply (ts_keep _ _ _ H); [done| |by apply matches_eq]. rewrite (tx_ref _ Ht), decide_True by done. done. }
      split; [done|]. rewrite M2. apply (ts_elem _ _ _ _ H). by left. }
    rewrite (ts_ref _ _ _ H), H0 by done. destruct new as [[x b]|]; [|done].
    rewrite decide_False; [done|]. intros [-> Hx]. apply Hn. destruct (ts_new _ _ _ H) as (_ & Hm & _).
    apply matches_eq in Hm as [M1 M2]. split; [done|]. rewrite M2. apply (ts_elem _ _ _ _ H). eauto.
Qed.

Lemma txn_step_pin d new d' : txn d -> txn_step d new d' ->
  forall z, z ∈ logged d'.(klog) -> exists b, (b < NBUF)%nat /\ matches d' ROOTDEV z b = true.
Proof.
  intros Ht H z Hz%(ts_elem _ _ _ _ H). destruct Hz as [Hz|[b ->]].
  - destruct (txn_pinned _ _ Ht Hz) as (e & He & Hm & Hr). exists e. split; [done|]. by apply (ts_keep _ _ _ H).
  - exists b. destruct (ts_new _ _ _ H) as (? & ? & _). done.
Qed.

(** ** Reading a block *)

Lemma bio_inv_eq d d' o : d'.(bufs) = d.(bufs) -> d'.(hw) = d.(hw) -> bio_inv d o -> bio_inv d' o.
Proof.
  intros Eb Eh [I1 I2 I3 I4 I5 I6]. unfold matches in I3. split; unfold matches; rewrite ?Eb, ?Eh; done.
Qed.

(** [e] is [d] up to the parts of the kernel that the cache and the log do not use. *)
Record fs_eq (d e : kdata) : Prop := {
  fq_bufs : e.(bufs) = d.(bufs);
  fq_hw : e.(hw) = d.(hw);
  fq_klog : e.(klog) = d.(klog);
}.

#[export] Instance fs_eq_equiv : Equivalence fs_eq.
Proof.
  split; [by split|by intros d e []; split|]. intros d e f [? ? ?] [? ? ?]. split; congruence.
Qed.

Lemma txn_eq d e : fs_eq d e -> txn d -> txn e.
Proof.
  intros [Eb Eh Ek] [[o T1] T2 T3 T4 T5 T6 T7 T8].
  split; unfold holds_logged, matches, dirty_logged; rewrite ?Eb, ?Ek, ?Eh; try done.
  - exists o. by apply (bio_inv_eq d).
  - intros z Hz Hn. rewrite (bview_eq d) by done. by apply T8.
Qed.

Lemma ldisk_eq d e z : fs_eq d e -> ldisk e z = ldisk d z.
Proof. intros [Eb Eh Ek]. by apply bview_eq. Qed.

(** The contents and the transaction have not changed. *)
Record txn_same (d d' : kdata) : Prop := {
  tm_txn : txn d';
  tm_disk : forall z, ldisk d' z = ldisk d z;
  tm_hw : d'.(hw) = d.(hw);
  tm_klog : d'.(klog) = d.(klog);
}.

Lemma txn_same_step d d' :
  txn d -> txn_step d None d' -> (forall z, ldisk d' z = ldisk d z) -> d'.(hw) = d.(hw) ->
  d'.(klog) = d.(klog) -> txn_same d d'.
Proof.
  intros Ht H Hv Hh Hk. split; try done.
  split; [apply H|apply H|by eapply txn_step_ref|rewrite Hk..|by eapply txn_step_pin|].
  { apply (tx_log _ Ht). }
  { apply (tx_size _ Ht). }
  { apply (tx_out _ Ht). }
  unfold dirty_logged. cbv zeta. rewrite Hk, Hh. intros z Hz Hn.
  change (bview d' ROOTDEV z) with (ldisk d' z). rewrite Hv. by apply (tx_dirty _ Ht).
Qed.

Section ops.
Context `{WF : WaitFuel} `{DDok : DiskDriverOk} (l0 : lockst) (L : list lockptr).
Context (kt : kptr) (p : nat) (pid : Z).
Hypothesis Henv : fs_env l0 L kt.

Lemma ev_txn_bread d z :
  txn d -> self kt p pid d ->
  exists b d1 order, evals l0 L d (bread ROOTDEV z) b L d1 /\ bio_inv d order /\
    read_post pid order ROOTDEV z d b d1.
Proof.
  intros Ht Hs. destruct (tx_inv _ Ht) as [order Hi].
  destruct (ev_bread_post l0 L kt p pid Henv d order ROOTDEV z) as (b & d1 & E & P);
    [done..|apply quiet_available; [by apply txn_quiet|right; by apply txn_room1]|]. by exists b, d1, order.
Qed.

Lemma po_txn_brelse d order z b d1 e1 :
  txn d -> bio_inv d order -> read_post pid order ROOTDEV z d b d1 -> fs_eq d1 e1 -> self kt p pid e1 ->
  pst l0 L e1 (brelse b) (fun _ d' => txn_same d d' /\ fsame e1 d').
Proof.
  intros Ht Hi P [Eb Eh Ek] Hs. pose proof P as [Hb (F1 & E1 & K1 & P1) I1 M1 V1 L1 R1 D1 O1 W1 C1].
  pose proof (bi_ref _ _ Hi b Hb) as Hr0. pose proof (qu_ref _ (txn_quiet _ Ht) b Hb).
  apply matches_eq in M1 as [Mb1 Mb2].
  assert (bio_inv e1 order) as I2 by by apply (bio_inv_eq d1).
  po1. eapply (po_brelse l0 L kt p pid Henv e1 order b); try done; rewrite ?Eb, ?L1, ?R1; try done; try lia.
  { intros Hr _. rewrite D1, Eh, E1, Mb2. eapply unreferenced_clean; [done..|lia]. }
  intros d' [(F3 & E3 & K3) I' C' R' L' O']. split; [done|]. split; [|done].
  rewrite Eb in C', R', L', O'.
  assert (refs_same d d') as Hrs.
  { eapply (read_refs pid order z d b d1); [done..| |].
    - intros c. by destruct (C' c) as (-> & -> & _).
    - intros c. destruct (decide (c = b)) as [->|N]; [by rewrite R'|]. destruct (O' c N) as [-> _]. lia. }
  apply txn_same_step; [done| | |congruence|congruence].
  - split; try done.
    + intros c Hc. destruct (decide (c = b)) as [->|N]; [by rewrite L'|]. destruct (O' c N) as [_ ->].
      rewrite O1 by done. by apply (tx_lock _ Ht).
    + intros c Hc. rewrite (rs_ref _ _ Hrs) by done. lia.
    + apply (rs_keep _ _ Hrs).
    + congruence.
  - intros y. unfold ldisk. rewrite <- W1. apply same_contents_view; [done|congruence].
Qed.

(** ** Changing a block *)

Record txn_upd (d : kdata) (x : Z) (m : bytes) (d' : kdata) : Prop := {
  tu_txn : txn d';
  tu_disk : forall z, ldisk d' z = if decide (z = x) then m else ldisk d z;
  tu_hw : d'.(hw) = d.(hw);
  tu_logged : logged d'.(klog) =
    if decide (x ∈ logged d.(klog)) then logged d.(klog) else logged d.(klog) ++ [x];
  tu_klog : d'.(klog) =
    d.(klog) <| lh_n := d'.(klog).(lh_n) |> <| lh_block := d'.(klog).(lh_block) |>;
}.

(** A block of the file system, for which the log has room. *)
Definition loggable (d : kdata) (x : Z) : Prop :=
  0 <= x < 2 ^ 31 /\ ~ in_log d.(klog).(lg_start) x /\ d.(klog).(lh_n) < LOGSIZE - 1.

Lemma bio_inv_ref d d' o b n :
  bio_inv d o -> 1 <= (d.(bufs) b).(b_refcnt) -> 1 <= n ->
  d'.(bufs) b = d.(bufs) b <| b_refcnt := n |> -> (forall c, c <> b -> d'.(bufs) c = d.(bufs) c) ->
  d'.(hw) = d.(hw) -> bio_inv d' o.
Proof.
  intros [I1 I2 I3 I4 I5 I6] Hr Hn Eb Eo Eh.
  assert (forall c, exists k, d'.(bufs) c = d.(bufs) c <| b_refcnt := k |>) as Hc.
  { intros c. destruct (decide (c = b)) as [->|N]; [eauto|]. exists (d.(bufs) c).(b_refcnt).
    rewrite Eo by done. by destruct (d.(bufs) c). }
  split; try done.
  - eapply dll_ext; [done|..]; intros c _; by destruct (Hc c) as [k ->].
  - intros b1 b2 dev blk H1 H2 Hd. unfold matches. destruct (Hc b1) as [k1 ->], (Hc b2) as [k2 ->].
    by apply (I3 b1 b2 dev blk).
  - intros c H. destruct (Hc c) as [k ->]. by apply I4.
  - intros c H. destruct (decide (c = b)) as [->|N]; [rewrite Eb; cbn; lia|]. rewrite Eo by done. by apply I5.
  - intros c H. destruct (decide (c = b)) as [->|N]; [rewrite Eb; cbn; lia|]. rewrite Eo, Eh by done. by apply I6.
Qed.

(** The log after [log_write] of a loggable block is still in order. *)
Lemma log_ok_logged g g' x :
  log_ok g -> 0 <= x < 2 ^ 31 -> ~ in_log g.(lg_start) x ->
  g.(lh_n) < LOGSIZE - 1 -> logged g' = (if decide (x ∈ logged g) then logged g else logged g ++ [x]) -> 0 <= g'.(lh_n) ->
  g' = g <| lh_n := g'.(lh_n) |> <| lh_block := g'.(lh_block) |> -> log_ok g'.
Proof.
  intros Hg Hx Hout Hroom El Hn E. pose proof (log_ok_nodup _ Hg) as Hnd.
  assert (NoDup (logged g')) as Hnd'.
  { rewrite El. case_decide; [done|]. apply NoDup_app. split; [done|].
    split; [|apply NoDup_singleton]. by intros y Hy ->%list_elem_of_singleton. }
  assert (forall z, z ∈ logged g' -> 0 <= z < 2 ^ 31 /\ ~ in_log g.(lg_start) z) as Hz.
  { intros z Hz. assert (z ∈ logged g \/ z = x) as [Hz'| ->]; [|..|done].
    - rewrite El in Hz. case_decide; [by left|]. apply elem_of_app in Hz as [?|?%list_elem_of_singleton]; auto.
    - apply logged_elem in Hz' as (i & Hi & ->). destruct (lo_blk _ Hg i Hi). done. }
  pose proof (logged_length g' Hn) as Hl. pose proof (lo_n _ Hg) as Hgn.
  pose proof (logged_length g ltac:(lia)) as Hl0.
  assert (g'.(lg_dev) = g.(lg_dev) /\ g'.(lg_start) = g.(lg_start)) as [Ed Es] by (by rewrite E).
  split; rewrite ?Ed, ?Es; try apply Hg.
  - split; [done|]. rewrite <- Hl, El. case_decide; [lia|]. rewrite length_app. cbn. lia.
  - intros i Hi. destruct (Hz (g'.(lh_block) i)) as [? Ho]; [apply logged_elem; eauto|]. done.
  - intros i j Hi Hj Eij. unfold logged in Hnd'.
    assert (Z.to_nat i = Z.to_nat j) as Enat; [|lia].
    eapply NoDup_lookup; [exact Hnd'|..]; rewrite list_lookup_fmap, lookup_seqZ_lt by lia; cbn.
    + reflexivity.
    + rewrite !Z2Nat.id, !Z.add_0_l by lia. by rewrite Eij.
Qed.

Lemma txn_upd_intro d x b m d' :
  txn d -> loggable d x -> txn_step d (Some (x, b)) d' -> d'.(hw) = d.(hw) ->
  (forall z, ldisk d' z = if decide (z = x) then m else ldisk d z) -> 0 <= d'.(klog).(lh_n) ->
  d'.(klog) = d.(klog) <| lh_n := d'.(klog).(lh_n) |> <| lh_block := d'.(klog).(lh_block) |> ->
  txn_upd d x m d'.
Proof.
  intros Ht (Hx & Hout & Hn) H Hh Hv Hn' Hk. split; try done; [|apply (ts_logged _ _ _ H)].
  assert (d'.(klog).(lg_start) = d.(klog).(lg_start) /\ d'.(klog).(lg_size) = d.(klog).(lg_size) /\
    d'.(klog).(lg_outstanding) = d.(klog).(lg_outstanding)) as (Es & Ez & Eo) by by rewrite Hk.
  split; [apply H|apply H|by eapply txn_step_ref|..|by eapply txn_step_pin|].
  - eapply (log_ok_logged d.(klog)); try done; [apply (tx_log _ Ht)|apply (ts_logged _ _ _ H)].
  - rewrite Ez. apply (tx_size _ Ht).
  - rewrite Eo. apply (tx_out _ Ht).
  - intros z Hz Hnl. rewrite Es in Hz. rewrite Hh. change (bview d' ROOTDEV z) with (ldisk d' z).
    assert (z ∉ logged d'.(klog)) as Hz'. { intros (i & Hi & E)%logged_elem. by apply (Hnl i). }
    rewrite (ts_elem _ _ _ _ H) in Hz'. rewrite Hv, decide_False by (intros ->; eauto).
    apply (tx_dirty _ Ht); [done|]. intros i Hi ->. apply Hz'. left. apply logged_elem. eauto.
Qed.

(** The state after [log_write] of the buffer, before it is released. *)
Record log_written (d : kdata) (x : Z) (b : nat) (e2 e3 : kdata) : Prop := {
  lw_bufs : e3.(bufs) b = e2.(bufs) b <| b_refcnt :=
    (e2.(bufs) b).(b_refcnt) + if decide (x ∈ logged d.(klog)) then 0 else 1 |>;
  lw_other : forall c, c <> b -> e3.(bufs) c = e2.(bufs) c;
  lw_hw : e3.(hw) = e2.(hw);
  lw_fsame : fsame e2 e3;
  lw_logged : logged e3.(klog) =
    if decide (x ∈ logged d.(klog)) then logged d.(klog) else logged d.(klog) ++ [x];
  lw_n : 0 <= e3.(klog).(lh_n);
  lw_klog : e3.(klog) = d.(klog) <| lh_n := e3.(klog).(lh_n) |> <| lh_block := e3.(klog).(lh_block) |>;
}.

Lemma ev_txn_log_write d x b e2 :
  txn d -> loggable d x -> e2.(klog) = d.(klog) -> (e2.(bufs) b).(b_blockno) = x ->
  0 <= (e2.(bufs) b).(b_refcnt) < 2 ^ 32 - 1 ->
  exists e3, evals l0 L e2 (log_write b) tt L e3 /\ log_written d x b e2 e3.
Proof.
  intros Ht (Hx & Hout & Hn) Ek Eb Hr. pose proof (tx_log _ Ht) as Hg. pose proof (lo_n _ Hg) as Hn0.
  destruct (fe_lock _ _ _ Henv log_lock I) as [Hl1 Hl2].
  destruct (fe_lock _ _ _ Henv bcache_lock I) as [Hb1 Hb2].
  exists (logged_d b e2). split.
  { apply ev_log_write; rewrite ?Ek; try done; [lia|rewrite (tx_size _ Ht); lia|apply (tx_out _ Ht)]. }
  destruct (logged_d_spec e2 b) as (E1 & E2 & E3 & E4); rewrite ?Ek, ?Eb; try done; [lia| |].
  { intros i Hi. by destruct (lo_blk _ Hg i Hi). }
  rewrite Ek, Eb in E1, E2. rewrite Ek in E4.
  split.
  - rewrite E2. case_decide; [rewrite Z.add_0_r; by destruct (e2.(bufs) b)|].
    rewrite fn_lookup_alter. rewrite <- (u32_small (_ + 1)) by lia. done.
  - intros c Hc. rewrite E2. case_decide; [done|]. by apply fn_lookup_alter_ne.
  - by rewrite E3.
  - assert (hw (logged_d b e2) = hw e2) as Eh by by rewrite E3.
    apply (fsame_upd (logged_d b) e2). rewrite Eh. etrans; [exact E3|].
    generalize (bufs (logged_d b e2)), (klog (logged_d b e2)). by destruct e2.
  - done.
  - unfold logged_d. destruct (_ =? _); cbn; rewrite Ek; lia.
  - done.
Qed.

(** The record of a block changed in a buffer held since [d]. *)
Record changed (d : kdata) (order : list nat) (x : Z) (b : nat) (f : bytes -> bytes) (e2 : kdata) : Prop := {
  ch_inv : bio_inv d order;
  ch_read : exists d1, read_post pid order ROOTDEV x d b d1 /\ exists d2, data1 b f d1 d2 /\ fs_eq d2 e2;
}.

Record changed_facts (d : kdata) (order : list nat) (x : Z) (b : nat) (f : bytes -> bytes) (e2 : kdata) : Prop := {
  cf_b : (b < NBUF)%nat;
  cf_inv : bio_inv e2 order;
  cf_hw : e2.(hw) = d.(hw);
  cf_klog : e2.(klog) = d.(klog);
  cf_match : matches e2 ROOTDEV x b = true;
  cf_lock : (e2.(bufs) b).(b_lock) = sl_taken pid (d.(bufs) b).(b_lock);
  cf_ref : (e2.(bufs) b).(b_refcnt) = (d.(bufs) b).(b_refcnt) + 1;
  cf_other : forall c, c <> b -> e2.(bufs) c = d.(bufs) c;
  cf_view : forall z, ldisk e2 z = if decide (z = x) then f (ldisk d x) else ldisk d z;
  cf_keep : forall c z, (c < NBUF)%nat -> 1 <= (d.(bufs) c).(b_refcnt) ->
    matches d ROOTDEV z c = true -> matches e2 ROOTDEV z c = true;
  cf_old : matches d ROOTDEV x b = true \/ (d.(bufs) b).(b_refcnt) = 0;
}.

Lemma changed_facts_intro d order x b f e2 :
  changed d order x b f e2 -> changed_facts d order x b f e2.
Proof.
  intros [Hi (d1 & P & d2 & H1 & [Eb Eh Ek])].
  pose proof (fun z c => read_keeps pid order x d b d1 z c Hi P) as Hkeep.
  pose proof P as [Hb (F1 & E1 & K1 & P1) I1 M1 V1 L1 R1 D1 O1 W1 C1].
  pose proof H1 as [A2 O2 _]. destruct (buf1_same _ _ _ _ H1) as (F2 & E2 & K2 & P2).
  pose proof (bi_ref _ _ Hi b Hb) as Hr0.
  assert (bio_inv d2 order) as I2 by (eapply data1_inv; [done|done| |done]; lia).
  pose proof (fun z c => data1_matches _ _ _ _ ROOTDEV z c H1) as Em2.
  assert (forall z c, matches e2 ROOTDEV z c = matches d2 ROOTDEV z c) as Eme.
  { intros. unfold matches. by rewrite Eb. }
  split; [done|by apply (bio_inv_eq d2)|congruence|congruence|by rewrite Eme, Em2|by rewrite Eb, A2|by rewrite Eb, A2|..].
  - intros c Hc. by rewrite Eb, O2, O1.
  - intros z. unfold ldisk. rewrite (bview_eq d2) by done.
    rewrite (data1_view d1 d2 order b f z x); [|done|done|lia|done|done|done]. by rewrite D1, W1.
  - intros c z Hc Hr Hm. rewrite Eme, Em2. by apply Hkeep.
  - destruct C1 as [_ [?|[? _]]]; auto.
Qed.

Lemma po_txn_write d order x b f e2 :
  txn d -> changed d order x b f e2 -> self kt p pid e2 -> loggable d x ->
  pst l0 L e2 (log_write b;; brelse b)
    (fun _ d' => txn_upd d x (f (ldisk d x)) d' /\ fsame e2 d').
Proof.
  intros Ht [B I2 Eh Ek Mx Lk Rf Ot Vw Kp Old]%changed_facts_intro Hs Hlg.
  destruct (tx_inv _ Ht) as [o Hi]. pose proof (bi_ref _ _ Hi b B) as Hr0.
  pose proof (qu_ref _ (txn_quiet _ Ht) b B) as Hr1. apply matches_eq in Mx as [Mx1 Mx2].
  destruct (ev_txn_log_write d x b e2) as (e3 & Ev & [W1 W2 W3 W4 W5 W6 W7]);
    [done|done|done|done|lia|].
  assert (self kt p pid e3) as Hs3 by by eapply self_fsame.
  set (k := if decide (x ∈ logged d.(klog)) then 0 else 1) in W1.
  assert (0 <= k <= 1) as Hk by (unfold k; case_decide; lia).
  assert (x ∉ logged d.(klog) -> (d.(bufs) b).(b_refcnt) = 0) as Hnew.
  { intros Hx. destruct Old as [[M1 M2]%matches_eq|?]; [|done]. rewrite (tx_ref _ Ht) by done.
    rewrite decide_False; [done|]. intros [_ Hh]. by rewrite M2 in Hh. }
  assert (x ∈ logged d.(klog) -> 1 <= (d.(bufs) b).(b_refcnt)) as Hold.
  { intros Hx. destruct (txn_pinned _ _ Ht Hx) as (c & Hc & Hm & Hr).
    rewrite (bi_uniq _ _ I2 b c ROOTDEV x); [done|done|done|done|by apply matches_eq|by apply Kp]. }
  po1. po1. eapply po_evals; [exact Ev|]. cbn beta.
  eapply (po_brelse l0 L kt p pid Henv e3 order b); try done; rewrite ?W1; cbn; rewrite ?Lk, ?Rf; try done; try lia.
  { apply (bio_inv_ref e2 e3 order b ((d.(bufs) b).(b_refcnt) + 1 + k)); try done; [lia|lia|].
    by rewrite W1, Rf. }
  { intros Hr _. exfalso. unfold k in Hr. case_decide as Hx; [pose proof (Hold Hx)|]; lia. }
  intros d' [(F3 & E3 & K3) I' C' R' L' O']. split; [done|]. split; [|by etrans].
  assert (forall c z, matches d' ROOTDEV z c = matches e2 ROOTDEV z c) as Em.
  { intros c z. unfold matches. destruct (C' c) as (-> & -> & _).
    destruct (decide (c = b)) as [->|N]; [by rewrite W1|by rewrite W2]. }
  assert (txn_step d (Some (x, b)) d') as Hst.
  { split; rewrite ?K3; try done.
    - intros c Hc. destruct (decide (c = b)) as [->|N]; [by rewrite L'|]. destruct (O' c N) as [_ ->].
      rewrite W2, Ot by done. by apply (tx_lock _ Ht).
    - intros c Hc. destruct (decide (c = b)) as [->|N].
      + rewrite R', W1. cbn. rewrite Rf. unfold k. case_decide as Hx.
        * rewrite decide_False by tauto. lia.
        * rewrite decide_True by done. lia.
      + destruct (O' c N) as [-> _]. rewrite W2, Ot, decide_False by tauto. lia.
    - intros c z Hc Hr Hm. rewrite Em. by apply Kp.
    - rewrite Em. split; [done|]. split; [by apply matches_eq|done]. }
  apply (txn_upd_intro d x b); rewrite ?K3; try done; [congruence|]. intros z. rewrite <- Vw.
  unfold ldisk. apply same_contents_view; [|by rewrite E3, W3]. intros c. destruct (C' c) as (-> & -> & -> & ->).
  destruct (decide (c = b)) as [->|N]; [by rewrite W1|by rewrite W2].
Qed.
End ops.

(** ** A whole transaction *)

(** The file system between transactions. *)
Record fs_idle (d : kdata) : Prop := {
  fi_quiet : quiet d;
  fi_idle : idle d;
  fi_dev : d.(klog).(lg_dev) = ROOTDEV;
  fi_start : 0 <= d.(klog).(lg_start) /\ d.(klog).(lg_start) + LOGSIZE < 2 ^ 31;
  fi_size : d.(klog).(lg_size) = LOGSIZE;
  fi_out : d.(klog).(lg_outstanding) = 0;
  fi_committing : d.(klog).(lg_committing) = 0;
  fi_n : d.(klog).(lh_n) = 0;
  fi_head : hdr_n (d.(hw).(hw_disk) d.(klog).(lg_start)) = 0;
}.

(** What an operation may do between [begin_op] and [end_op]: change the logical disk
    within the transaction. *)
Record in_txn (d d1 : kdata) : Prop := {
  it_txn : txn d1;
  it_hw : d1.(hw) = d.(hw);
  it_klog : d1.(klog) = d.(klog) <| lh_n := d1.(klog).(lh_n) |> <| lh_block := d1.(klog).(lh_block) |>;
}.

Lemma in_txn_refl d : txn d -> in_txn d d.
Proof. intros. split; try done. by destruct (klog d). Qed.

Lemma in_txn_trans d1 d2 d3 : in_txn d1 d2 -> in_txn d2 d3 -> in_txn d1 d3.
Proof.
  intros [T1 H1 K1] [T2 H2 K2]. split; [done|congruence|]. rewrite K2 at 1. rewrite K1 at 1. by destruct (klog d1).
Qed.

Lemma txn_upd_in d x m d' : txn_upd d x m d' -> in_txn d d'.
Proof. intros []. by split. Qed.

Lemma txn_same_in d d' : txn_same d d' -> in_txn d d'.
Proof. intros [T D H K]. split; [done|done|]. rewrite K. by destruct (klog d). Qed.

Lemma reserved_txn d : fs_idle d -> txn (reserved d).
Proof.
  intros [Hq Hid Hdev Hst Hsz Ho Hc Hn Hh]. destruct (qu_inv _ Hq) as [o Hi].
  assert (logged (reserved d).(klog) = []) as El by (unfold logged; cbn; by rewrite Hn).
  split.
  - exists o. by apply (bio_inv_eq d).
  - apply Hq.
  - intros b Hb. cbn. rewrite Hid by done. rewrite decide_False; [done|]. intros [_ H].
    rewrite El in H. by apply elem_of_nil in H.
  - split; cbn; rewrite ?Hn; try done; intros; lia.
  - done.
  - cbn. lia.
  - intros z Hz. rewrite El in Hz. by apply elem_of_nil in Hz.
  - intros z _ _. cbn. rewrite (bview_eq d), idle_view by done. done.
Qed.

Lemma reserved_room d : fs_idle d -> has_room d.(klog) = true.
Proof. intros [_ _ _ _ _ Ho Hc Hn _]. unfold has_room. by rewrite Ho, Hc, Hn. Qed.

(** The references after a commit. *)
Lemma commit_idle d ws d' : txn d -> commit_effect d ws d' -> idle d'.
Proof.
  intros Ht He b Hb. unfold commit_effect in He. pose proof (lo_n _ (tx_log _ Ht)) as Hn.
  pose proof (tx_ref _ Ht b Hb) as Hr. destruct (Z.ltb_spec 0 d.(klog).(lh_n)) as [Hp|Hz].
  - destruct He as [_ [U1 U2 _]]. case_decide as Hh; [|by apply U1]. destruct Hh as [H1 H2].
    rewrite (U2 b (d.(bufs) b).(b_blockno)); [|done|lia|by apply matches_eq]. rewrite decide_True by done. lia.
  - destruct He as [_ [S1 _]]. rewrite S1, Hr by done. rewrite decide_False; [done|].
    intros [_ H]. apply logged_elem in H as (i & Hi & _). lia.
Qed.

Lemma always_split (P Q : (Z -> bytes) -> Prop) D w1 h w2 :
  always P D w1 -> always Q (disk_after D (w1 ++ [h])) w2 -> always (fun D => P D \/ Q D) D (w1 ++ h :: w2).
Proof.
  intros H1 H2. apply always_app; [eapply always_mono; [|exact H1]; auto|].
  apply always_cons; [left; by apply always_last|]. rewrite disk_after_app in H2.
  eapply always_mono; [|exact H2]. auto.
Qed.

(** What the block writes of a commit do to the disk. *)
Lemma commit_effect_crash d ws d' (st := d.(klog).(lg_start)) (D := d.(hw).(hw_disk)) :
  txn d -> hdr_n (D st) = 0 -> commit_effect d ws d' ->
  always (fun D' => durable st D' D \/ durable st D' (ldisk d)) D ws /\
  durable st (disk_after D ws) (ldisk d) /\ hdr_n (disk_after D ws st) = 0.
Proof.
  intros Ht Hh He. unfold commit_effect in He. pose proof (lo_n _ (tx_log _ Ht)) as Hn.
  destruct (Z.ltb_spec 0 d.(klog).(lh_n)) as [Hp|Hz].
  - destruct He as [Hw _].
    destruct (commit_crash d ws (tx_log _ Ht) (tx_dirty _ Ht) Hh Hw) as (w1 & h & w2 & -> & A1 & A2 & E).
    split; [by apply always_split|]. split; [|done]. fold D st in A2. pose proof (always_last _ _ _ A2) as Hd.
    by rewrite <- disk_after_app, <- app_assoc in Hd.
  - destruct He as [-> _]. split; [apply always_nil; left; by apply durable_refl|]. split; [|done].
    cbn. split; rewrite ?Hh; try lia. intros z Hz' _. apply (tx_dirty _ Ht); [done|]. lia.
Qed.

Section atomic.
Context `{WF : WaitFuel} `{DDok : DiskDriverOk} (l0 : lockst) (L : list lockptr).
Context (kt : kptr) (p : nat) (pid : Z).

(** C21: A file system call is a transaction.  Let the file system be idle, and let [m] be
    any operation that, started after [begin_op], stays within the transaction and
    leaves the logical disk [ldisk d1].  Then [begin_op(); m; end_op()] returns with the
    file system idle again and the contents [ldisk d1] on the disk; and whichever
    prefix of its block writes a crash lets through, the disk stands for the old
    contents or for the new ones. *)
Theorem transaction_atomic {A} (m : M A) (R : A -> kdata -> Prop) d
    (st := d.(klog).(lg_start)) (D := d.(hw).(hw_disk)) :
  fs_env l0 L kt -> self kt p pid d -> fs_idle d ->
  pst l0 L (reserved d) m (fun a d1 => in_txn (reserved d) d1 /\ self kt p pid d1 /\ R a d1) ->
  pst l0 L d (begin_op;; a ← m; end_op;; mret a) (fun a d' => exists d1 ws,
    R a d1 /\ fs_idle d' /\
    d'.(hw).(hw_writes) = rev ws ++ d.(hw).(hw_writes) /\ d'.(hw).(hw_disk) = disk_after D ws /\
    always (fun D' => durable st D' D \/ durable st D' (ldisk d1)) D ws /\
    (forall z, ~ in_log st z -> blk_eq (ldisk d1 z) (d'.(hw).(hw_disk) z)) /\
    (forall z, ldisk d' z = d'.(hw).(hw_disk) z)).
Proof.
  intros He Hs Hd Hm. destruct (fe_lock _ _ _ He log_lock I) as [Hl1 Hl2].
  pose proof (reserved_room _ Hd) as Hroom. po1. po1. eapply po_evals; [by apply ev_begin_op|]. po1.
  eapply po_call; [exact Hm|]. intros a d1 ([Ht Eh Ek] & Hs1 & Ha). po1. cbn in Eh. fold D st in Eh.
  assert (d1.(klog).(lg_start) = st /\ d1.(klog).(lg_size) = LOGSIZE /\ d1.(klog).(lg_dev) = ROOTDEV /\
    d1.(klog).(lg_outstanding) = 1 /\ d1.(klog).(lg_committing) = 0) as (Es & Ez & Edv & Eo & Ec).
  { rewrite Ek. cbn. rewrite (fi_out _ Hd), (fi_committing _ Hd), (fi_size _ Hd), (fi_dev _ Hd). done. }
  eapply po_call; [apply (po_end_op_last l0 L kt p pid He d1); try done;
    [by apply txn_quiet|apply (tx_log _ Ht)|by apply txn_room1|by apply txn_pins]|].
  intros [] d' (ws & [[_ K] Q Dk W V] & Hc). po1. split; [done|]. cbn in K, Dk, W, V. rewrite Eh in Dk, W.
  assert (hdr_n (d1.(hw).(hw_disk) d1.(klog).(lg_start)) = 0) as Hh by (rewrite Eh, Es; apply (fi_head _ Hd)).
  destruct (commit_effect_crash d1 ws d' Ht Hh Hc) as (A1 & A2 & A3). rewrite Eh, Es in A1, A2, A3.
  pose proof (commit_idle _ _ _ Ht Hc) as Hid.
  exists d1, ws. split; [done|]. split.
  { split; try done; rewrite ?K; cbn; rewrite ?Es, ?Dk; try done. apply (fi_start _ Hd). }
  rewrite W, Dk. do 3 (split; [done|]). split; [|intros z; rewrite <- Dk; by apply idle_view].
  intros z Hz. apply (du_home _ _ _ A2); [done|]. rewrite A3. lia.
Qed.
End atomic.
