(* ===== verification/Fs.v ===== *)
(** * The file system: blocks and inodes (kernel/fs.c, kernel/fs.h)

    On disk everything is bytes: the superblock, the inodes and the bitmap are
    read and written at their offsets in the data of a buffer.  Loops whose bound
    is a field of the superblock or the size of an inode run over the list of the
    values their counter takes. *)
From S2P Require Export Log Console.

(** ** Layout (fs.h) *)

Definition ROOTINO : Z := 1.
Definition FSMAGIC : Z := 0x10203040.
Definition NDIRECT : Z := 12.
Definition NINDIRECT : Z := BSIZE / 4.
Definition MAXFILE : Z := NDIRECT + NINDIRECT.
Definition sizeof_dinode : Z := 64.
Definition IPB : Z := BSIZE / sizeof_dinode.
Definition IBLOCK (i : Z) (sb : superblock) : Z := u32 (i / IPB + sb.(sb_inodestart)).
Definition BPB : Z := BSIZE * 8.
Definition BBLOCK (b : Z) (sb : superblock) : Z := u32 (b / BPB + sb.(sb_bmapstart)).
Definition T_DIR : Z := 1.
Definition T_FILE : Z := 2.
Definition T_DEVICE : Z := 3.

(** [struct superblock] as it lies in block 1. *)
Definition load_superblock (m : bytes) : superblock :=
  Superblock (load32 m 0) (load32 m 4) (load32 m 8) (load32 m 12) (load32 m 16)
    (load32 m 20) (load32 m 24) (load32 m 28).

(** [struct dinode] at offset [o] of a block. *)
Definition di_type (m : bytes) (o : Z) : Z := s16 (load16 m o).
Definition di_major (m : bytes) (o : Z) : Z := s16 (load16 m (o + 2)).
Definition di_minor (m : bytes) (o : Z) : Z := s16 (load16 m (o + 4)).
Definition di_nlink (m : bytes) (o : Z) : Z := s16 (load16 m (o + 6)).
Definition di_size (m : bytes) (o : Z) : Z := load32 m (o + 8).
Definition di_addr (m : bytes) (o i : Z) : Z := load32 m (o + 12 + 4 * i).

(** [dip->f = ip->f] for every field, and the reverse direction. *)
Definition store_addrs (m : bytes) (o : Z) (addrs : Z -> Z) : bytes :=
  foldl (fun m i => store32 m (o + 12 + 4 * i) (addrs i)) m (seqZ 0 (NDIRECT + 1)).
Definition store_dinode (m : bytes) (o : Z) (ip : inode) : bytes :=
  let m := store16 m o (u16 ip.(i_type)) in
  let m := store16 m (o + 2) (u16 ip.(i_major)) in
  let m := store16 m (o + 4) (u16 ip.(i_minor)) in
  let m := store16 m (o + 6) (u16 ip.(i_nlink)) in
  let m := store32 m (o + 8) ip.(i_size) in
  store_addrs m o ip.(i_addrs).
Definition load_dinode (m : bytes) (o : Z) (ip : inode) : inode :=
  ip <| i_type := di_type m o |> <| i_major := di_major m o |>
     <| i_minor := di_minor m o |> <| i_nlink := di_nlink m o |>
     <| i_size := di_size m o |>
     <| i_addrs := fun i => if (0 <=? i) && (i <=? NDIRECT) then di_addr m o i
                            else ip.(i_addrs) i |>.

(** The values of a counter that goes from 0 to [hi] in steps of [st]. *)
Definition steps (st hi : Z) : list Z := map (Z.mul st) (seqZ 0 ((hi + st - 1) / st)).

Section fs.
Context `{KI : KernelImage} `{WF : WaitFuel} `{DD : DiskDriver}.

Definition i_get {A} (i : nat) (f : inode -> A) : M A := getd (fun d => f (d.(itable) i)).
Definition i_set (i : nat) (f : inode -> inode) : M unit := modd (upd_inode i f).

(** ** Super block *)

Definition readsb (dev : Z) : M unit :=
  bp ← bread dev 1;
  m ← b_get bp b_data;
  modd (fun d => d <| sb := load_superblock m |>);;
  brelse bp.

Definition fsinit (dev : Z) : M unit :=
  readsb dev;;
  s ← getd sb;
  if negb (s.(sb_magic) =? FSMAGIC) then panic "invalid file system" else
  initlog dev s.

(** ** Blocks *)

Definition bzero (dev bno : Z) : M unit :=
  bp ← bread dev bno;
  b_set bp (fun x => x <| b_data ::= fun m => memset m 0 0 BSIZE |>);;
  log_write bp;;
  brelse bp.

(** The inner loop of [balloc]: the first clear bit below [limit]. *)
Fixpoint free_bit (n : nat) (bi : Z) (data : bytes) (limit : Z) : option Z :=
  match n with
  | O => None
  | S n =>
      if bi <? limit then
        if Z.land (data (bi / 8)) (Z.shiftl 1 (bi mod 8)) =? 0 then Some bi
        else free_bit n (bi + 1) data limit
      else None
  end.

Definition balloc (dev : Z) : M Z :=
  s ← getd sb;
  r ← scanM (steps BPB s.(sb_size)) (fun b =>
    bp ← bread dev (BBLOCK b s);
    data ← b_get bp b_data;
    match free_bit (Z.to_nat BPB) 0 data (s.(sb_size) - b) with
    | Some bi =>
        b_set bp (fun x => x <| b_data ::= fun m =>
          <[bi / 8 := Z.lor (m (bi / 8)) (Z.shiftl 1 (bi mod 8))]> m |>);;
        log_write bp;;
        brelse bp;;
        bzero dev (b + bi);;
        mret (Some (b + bi))
    | None => brelse bp;; mret None
    end);
  match r with
  | Some b => mret b
  | None => printf ("balloc: out of blocks" +:+ nl) [];; mret 0
  end.

Definition bfree (dev b : Z) : M unit :=
  s ← getd sb;
  bp ← bread dev (BBLOCK b s);
  let bi := b mod BPB in
  let m := Z.shiftl 1 (bi mod 8) in
  data ← b_get bp b_data;
  if Z.land (data (bi / 8)) m =? 0 then panic "freeing free block" else
  b_set bp (fun x => x <| b_data ::= fun dm =>
    <[bi / 8 := Z.land (dm (bi / 8)) (Z.lnot m)]> dm |>);;
  log_write bp;;
  brelse bp.

(** ** Inodes *)

Definition iinit : M unit :=
  initlock itable_lock "itable";;
  forM all_inodes (fun i => initsleeplock (inode_slock i) "inode").

(** The scan of [iget]: a referenced entry for the inode, or else the first entry
    that is free ([empty]). *)
Fixpoint iget_scan (t : nat -> inode) (dev inum : Z) (empty : option nat) (l : list nat)
    : nat + option nat :=
  match l with
  | [] => inr empty
  | ip :: l =>
      let x := t ip in
      if (0 <? x.(i_ref)) && (x.(i_dev) =? dev) && (x.(i_inum) =? inum) then inl ip
      else
        let empty := if bool_decide (empty = None) && (x.(i_ref) =? 0) then Some ip
                     else empty in
        iget_scan t dev inum empty l
  end.

Definition iget (dev inum : Z) : M nat :=
  acquire itable_lock;;
  t ← getd itable;
  match iget_scan t dev inum None all_inodes with
  | inl ip =>
      i_set ip (fun x => x <| i_ref ::= fun n => n + 1 |>);;
      release itable_lock;;
      mret ip
  | inr None => panic "iget: no inodes"
  | inr (Some ip) =>
      i_set ip (fun x => x <| i_dev := dev |>);;
      i_set ip (fun x => x <| i_inum := inum |>);;
      i_set ip (fun x => x <| i_ref := 1 |>);;
      i_set ip (fun x => x <| i_valid := 0 |>);;
      release itable_lock;;
      mret ip
  end.

Definition ialloc (dev type : Z) : M (option nat) :=
  s ← getd sb;
  r ← scanM (seqZ 1 (s.(sb_ninodes) - 1)) (fun inum =>
    bp ← bread dev (IBLOCK inum s);
    m ← b_get bp b_data;
    let o := inum mod IPB * sizeof_dinode in
    if di_type m o =? 0 then
      b_set bp (fun x => x <| b_data ::= fun m =>
        store16 (memset m o 0 sizeof_dinode) o (u16 type) |>);;
      log_write bp;;
      brelse bp;;
      ip ← iget dev inum;
      mret (Some ip)
    else brelse bp;; mret None);
  match r with
  | Some ip => mret (Some ip)
  | None => printf ("ialloc: no inodes" +:+ nl) [];; mret None
  end.

Definition iupdate (ip : nat) : M unit :=
  s ← getd sb;
  x ← i_get ip id;
  bp ← bread x.(i_dev) (IBLOCK x.(i_inum) s);
  x ← i_get ip id;
  b_set bp (fun y => y <| b_data ::= fun m =>
    store_dinode m (x.(i_inum) mod IPB * sizeof_dinode) x |>);;
  log_write bp;;
  brelse bp.

Definition idup (ip : nat) : M nat :=
  acquire itable_lock;;
  i_set ip (fun x => x <| i_ref ::= fun n => n + 1 |>);;
  release itable_lock;;
  mret ip.

Definition ilock (ip : option nat) : M unit :=
  match ip with
  | None => panic "ilock"
  | Some ip =>
      x ← i_get ip id;
      if x.(i_ref) <? 1 then panic "ilock" else
      acquiresleep (inode_slock ip);;
      x ← i_get ip id;
      when (x.(i_valid) =? 0)
        (s ← getd sb;
         bp ← bread x.(i_dev) (IBLOCK x.(i_inum) s);
         m ← b_get bp b_data;
         i_set ip (fun x => load_dinode m (x.(i_inum) mod IPB * sizeof_dinode) x);;
         brelse bp;;
         i_set ip (fun x => x <| i_valid := 1 |>);;
         type ← i_get ip i_type;
         if type =? 0 then panic "ilock: no type" else mret tt)
  end.

Definition iunlock (ip : option nat) : M unit :=
  match ip with
  | None => panic "iunlock"
  | Some ip =>
      h ← holdingsleep (inode_slock ip);
      if negb (ctrue h) then panic "iunlock" else
      ref ← i_get ip i_ref;
      if ref <? 1 then panic "iunlock" else
      releasesleep (inode_slock ip)
  end.

(** ** Inode content *)

Definition set_addr (ip : nat) (i addr : Z) : M unit :=
  i_set ip (fun x => x <| i_addrs ::= <[i := addr]> |>).

Definition bmap (ip : nat) (bn : Z) : M Z :=
  dev ← i_get ip i_dev;
  if bn <? NDIRECT then
    addr ← i_get ip (fun x => x.(i_addrs) bn);
    if addr =? 0 then
      addr ← balloc dev;
      if addr =? 0 then mret 0 else set_addr ip bn addr;; mret addr
    else mret addr
  else
  let bn := bn - NDIRECT in
  if bn <? NINDIRECT then
    addr ← i_get ip (fun x => x.(i_addrs) NDIRECT);
    addr ← (if addr =? 0 then
              addr ← balloc dev;
              if addr =? 0 then mret None
              else set_addr ip NDIRECT addr;; mret (Some addr)
            else mret (Some addr));
    match addr with
    | None => mret 0
    | Some addr =>
        bp ← bread dev addr;
        m ← b_get bp b_data;
        let addr := load32 m (4 * bn) in
        if addr =? 0 then
          addr ← balloc dev;
          when (ctrue addr)
            (b_set bp (fun x => x <| b_data ::= fun m => store32 m (4 * bn) addr |>);;
             log_write bp);;
          brelse bp;;
          mret addr
        else brelse bp;; mret addr
    end
  else panic "bmap: out of range".

Definition itrunc (ip : nat) : M unit :=
  dev ← i_get ip i_dev;
  forM (seqZ 0 NDIRECT) (fun i =>
    a ← i_get ip (fun x => x.(i_addrs) i);
    when (ctrue a) (bfree dev a;; set_addr ip i 0));;
  a ← i_get ip (fun x => x.(i_addrs) NDIRECT);
  when (ctrue a)
    (bp ← bread dev a;
     forM (seqZ 0 NINDIRECT) (fun j =>
       m ← b_get bp b_data;
       when (ctrue (load32 m (4 * j))) (bfree dev (load32 m (4 * j))));;
     brelse bp;;
     bfree dev a;;
     set_addr ip NDIRECT 0);;
  i_set ip (fun x => x <| i_size := 0 |>);;
  iupdate ip.

Definition iput (ip : nat) : M unit :=
  acquire itable_lock;;
  x ← i_get ip id;
  when ((x.(i_ref) =? 1) && ctrue x.(i_valid) && (x.(i_nlink) =? 0))
    (acquiresleep (inode_slock ip);;
     release itable_lock;;
     itrunc ip;;
     i_set ip (fun x => x <| i_type := 0 |>);;
     iupdate ip;;
     i_set ip (fun x => x <| i_valid := 0 |>);;
     releasesleep (inode_slock ip);;
     acquire itable_lock);;
  i_set ip (fun x => x <| i_ref ::= fun n => n - 1 |>);;
  release itable_lock.

Definition iunlockput (ip : nat) : M unit := iunlock (Some ip);; iput ip.

(** [struct stat] (24 bytes); [st] holds what was there before. *)
Definition stati (ip : nat) (st : bytes) : M bytes :=
  x ← i_get ip id;
  let st := store32 st 0 (u32 x.(i_dev)) in
  let st := store32 st 4 x.(i_inum) in
  let st := store16 st 8 (u16 x.(i_type)) in
  let st := store16 st 10 (u16 x.(i_nlink)) in
  mret (store64 st 16 x.(i_size)).

(** The loops of [readi] and [writei]: a round copies up to the end of a block, so
    [n / BSIZE + 2] rounds are enough for [n] bytes.  [dm] and [sm] are the kernel
    object that [dst] or [src] points into, if it is one. *)
Fixpoint readi_loop (fuel : nat) (ip : nat) (dst : cptr) (dm : bytes) (off n tot : Z)
    : M (Z * bytes) :=
  if tot <? n then
    match fuel with
    | O => diverge
    | S fuel =>
        addr ← bmap ip (off / BSIZE);
        if addr =? 0 then mret (tot, dm) else
        dev ← i_get ip i_dev;
        bp ← bread dev addr;
        let m := Z.min (n - tot) (BSIZE - off mod BSIZE) in
        data ← b_get bp b_data;
        r ← either_copyout dst dm data (off mod BSIZE) m;
        if r.1 =? -1 then brelse bp;; mret (-1, r.2) else
        brelse bp;;
        readi_loop fuel ip (cptr_add dst m) r.2 (u32 (off + m)) n (tot + m)
    end
  else mret (tot, dm).

Definition readi (ip : nat) (dst : cptr) (dm : bytes) (off n : Z) : M (Z * bytes) :=
  size ← i_get ip i_size;
  if (size <? off) || (u32 (off + n) <? off) then mret (0, dm) else
  let n := if size <? u32 (off + n) then u32 (size - off) else n in
  r ← readi_loop (Z.to_nat (n / BSIZE + 2)) ip dst dm off n 0;
  mret (s32 r.1, r.2).

Fixpoint writei_loop (fuel : nat) (ip : nat) (src : cptr) (sm : bytes) (off n tot : Z)
    : M (Z * Z) :=
  if tot <? n then
    match fuel with
    | O => diverge
    | S fuel =>
        addr ← bmap ip (off / BSIZE);
        if addr =? 0 then mret (tot, off) else
        dev ← i_get ip i_dev;
        bp ← bread dev addr;
        let m := Z.min (n - tot) (BSIZE - off mod BSIZE) in
        data ← b_get bp b_data;
        r ← either_copyin data (off mod BSIZE) src sm m;
        b_set bp (fun x => x <| b_data := r.2 |>);;
        if r.1 =? -1 then brelse bp;; mret (tot, off) else
        log_write bp;;
        brelse bp;;
        writei_loop fuel ip (cptr_add src m) sm (u32 (off + m)) n (tot + m)
    end
  else mret (tot, off).

Definition writei (ip : nat) (src : cptr) (sm : bytes) (off n : Z) : M Z :=
  size ← i_get ip i_size;
  if (size <? off) || (u32 (off + n) <? off) then mret (-1) else
  if MAXFILE * BSIZE <? u32 (off + n) then mret (-1) else
  r ← writei_loop (Z.to_nat (n / BSIZE + 2)) ip src sm off n 0;
  size ← i_get ip i_size;
  when (size <? r.2) (i_set ip (fun x => x <| i_size := r.2 |>));;
  iupdate ip;;
  mret (s32 r.1).
End fs.
