(* ===== verification/FsSpec.v ===== *)
(** * What kernel/fs.c guarantees: blocks

    The operations of fs.c inside a transaction, as updates of the logical disk: the
    free map, zeroing, and the inode blocks. *)
From S2P Require Export FsTxn Fs.

(** ** The free map *)

(** The bit of block [b] in the bitmap of the contents [V]. *)
Definition in_use (V : Z -> bytes) (s : superblock) (b : Z) : bool :=
  Z.testbit (V (BBLOCK b s) (b mod BPB / 8)) (b mod 8).

Lemma land_bit x i : 0 <= i -> (Z.land x (Z.shiftl 1 i) =? 0) = negb (Z.testbit x i).
Proof.
  intros Hi. destruct (Z.testbit x i) eqn:E; cbn.
  - apply Z.eqb_neq. intros H. apply (f_equal (fun y => Z.testbit y i)) in H.
    rewrite Z.land_spec, Z.shiftl_spec, Z.sub_diag, E, Z.bits_0 in H by done. done.
  - apply Z.eqb_eq, Z.bits_inj'. intros n Hn. rewrite Z.land_spec, Z.shiftl_spec, Z.bits_0 by done.
    destruct (decide (n = i)) as [->|N]; [by rewrite E|].
    destruct (Z.testbit x n); [|done]. cbn. destruct (Z.lt_ge_cases n i).
    + apply Z.testbit_neg_r. lia.
    + apply Z.bits_above_log2; cbn; lia.
Qed.

Lemma bit_mod b : b mod BPB mod 8 = b mod 8.
Proof.
  change BPB with (8 * 1024). rewrite Z.rem_mul_r by done. rewrite Z.mul_comm, Z.mod_add, Z.mod_mod by done. done.
Qed.

(** Setting and clearing the bit of [b] in its byte. *)
Lemma set_bit x i n : 0 <= i -> 0 <= n ->
  Z.testbit (Z.lor x (Z.shiftl 1 i)) n = (Z.eqb n i || Z.testbit x n)%bool.
Proof.
  intros Hi Hn. rewrite Z.lor_spec, Z.shiftl_spec by done. destruct (Z.eqb_spec n i) as [->|N].
  - rewrite Z.sub_diag. by rewrite orb_true_r.
  - destruct (Z.lt_ge_cases n i); [rewrite (Z.testbit_neg_r 1) by lia; by rewrite orb_false_r|].
    rewrite (Z.bits_above_log2 1) by (cbn; lia). by rewrite orb_false_r.
Qed.

Lemma clear_bit x i n : 0 <= i -> 0 <= n ->
  Z.testbit (Z.land x (Z.lnot (Z.shiftl 1 i))) n = (negb (Z.eqb n i) && Z.testbit x n)%bool.
Proof.
  intros Hi Hn. rewrite Z.land_spec, Z.lnot_spec, Z.shiftl_spec by done. destruct (Z.eqb_spec n i) as [->|N].
  - rewrite Z.sub_diag. by rewrite andb_false_r.
  - destruct (Z.lt_ge_cases n i); [rewrite (Z.testbit_neg_r 1) by lia; by rewrite andb_true_r|].
    rewrite (Z.bits_above_log2 1) by (cbn; lia). by rewrite andb_true_r.
Qed.

(** The scan of a bitmap block. *)
Lemma free_bit_spec n bi data limit :
  0 <= bi ->
  match free_bit n bi data limit with
  | Some r => bi <= r < bi + Z.of_nat n /\ r < limit /\ Z.testbit (data (r / 8)) (r mod 8) = false /\
      forall j, bi <= j < r -> Z.testbit (data (j / 8)) (j mod 8) = true
  | None => forall j, bi <= j < bi + Z.of_nat n -> j < limit -> Z.testbit (data (j / 8)) (j mod 8) = true
  end.
Proof.
  revert bi. induction n as [|n IH]; intros bi Hbi; cbn [free_bit]; [intros; lia|].
  destruct (Z.ltb_spec bi limit) as [Hl|Hl]; [|intros; lia].
  rewrite land_bit by (apply Z.mod_pos_bound; lia).
  destruct (Z.testbit (data (bi / 8)) (bi mod 8)) eqn:E; cbn [negb].
  - specialize (IH (bi + 1) ltac:(lia)). destruct (free_bit n (bi + 1) data limit) as [r|].
    + destruct IH as (H1 & H2 & H3 & H4). split; [lia|]. split; [done|]. split; [done|].
      intros j Hj. destruct (decide (j = bi)) as [->|]; [done|]. apply H4. lia.
    + intros j Hj Hjl. destruct (decide (j = bi)) as [->|]; [done|]. apply IH; lia.
  - split; [lia|]. split; [done|]. split; [done|]. intros. lia.
Qed.

(** Bitmap geometry: a file system below 2^31 blocks. *)
Definition map_ok (s : superblock) : Prop :=
  0 <= s.(sb_bmapstart) < 2 ^ 31 /\ 0 <= s.(sb_size) < 2 ^ 31.

Lemma bblock_small s b : map_ok s -> 0 <= b < 2 ^ 31 ->
  BBLOCK b s = b / BPB + s.(sb_bmapstart) /\ 0 <= BBLOCK b s.
Proof.
  intros [Hm _] Hb. unfold BBLOCK. assert (0 <= b / BPB < 2 ^ 31).
  { change BPB with 8192. Z.div_mod_to_equations. lia. }
  rewrite u32_small by lia. lia.
Qed.

(** A block is determined by its bitmap block, byte and bit. *)
Lemma bit_inj s b b' : map_ok s -> 0 <= b < 2 ^ 31 -> 0 <= b' < 2 ^ 31 ->
  BBLOCK b' s = BBLOCK b s -> b' mod BPB / 8 = b mod BPB / 8 -> b' mod 8 = b mod 8 -> b' = b.
Proof.
  intros Hs Hb Hb'. destruct (bblock_small s b Hs Hb) as [-> _], (bblock_small s b' Hs Hb') as [-> _].
  change BPB with 8192. intros. Z.div_mod_to_equations. lia.
Qed.

Lemma bit_update V V' s b v byte b' :
  map_ok s -> 0 <= b < 2 ^ 31 -> 0 <= b' < 2 ^ 31 ->
  (forall n, 0 <= n -> Z.testbit byte n =
     if n =? b mod 8 then v else Z.testbit (V (BBLOCK b s) (b mod BPB / 8)) n) ->
  (forall z, V' z = if decide (z = BBLOCK b s) then <[b mod BPB / 8 := byte]> (V (BBLOCK b s)) else V z) ->
  in_use V' s b' = if decide (b' = b) then v else in_use V s b'.
Proof.
  intros Hs Hb Hb' Hbyte HV. unfold in_use. rewrite HV.
  assert (0 <= b' mod 8) by (apply Z.mod_pos_bound; lia).
  destruct (decide (BBLOCK b' s = BBLOCK b s)) as [E|N].
  - rewrite fn_insert_case. destruct (decide (b mod BPB / 8 = b' mod BPB / 8)) as [E2|N2].
    + rewrite Hbyte by done. destruct (Z.eqb_spec (b' mod 8) (b mod 8)) as [E3|N3].
      * by rewrite decide_True by by apply (bit_inj s).
      * rewrite decide_False by congruence. by rewrite E, E2.
    + rewrite decide_False by congruence. by rewrite E.
  - rewrite decide_False; [done|]. congruence.
Qed.

Section blocks.
Context `{KI : KernelImage} `{WF : WaitFuel} `{DDok : DiskDriverOk} (l0 : lockst) (L : list lockptr).
Context (kt : kptr) (p : nat) (pid : Z).
Hypothesis Henv : fs_env l0 L kt.

(** Read a block, change it by [f], log it and release it. *)
Lemma po_update d x (f : bytes -> bytes) b d1 order :
  txn d -> self kt p pid d -> loggable d x -> bio_inv d order ->
  read_post pid order ROOTDEV x d b d1 ->
  pst l0 L (set_data b f d1) (log_write b;; brelse b)
    (fun _ d' => txn_upd d x (f (ldisk d x)) d' /\ fsame d d').
Proof.
  intros Ht Hs Hlg Hi P. pose proof (rp_same _ _ _ _ _ _ _ P) as (F1 & _ & _ & P1).
  assert (fsame d1 (set_data b f d1)) as F2 by (eapply buf1_same, set_data1).
  eapply po_mono; [apply (po_txn_write l0 L kt p pid Henv d order x b f (set_data b f d1)); try done|].
  - split; [done|]. exists d1. split; [done|]. exists (set_data b f d1). split; [apply set_data1|done].
  - eapply self_fsame; [exact F2|]. by eapply self_fsame.
  - intros [] L' d' [-> [U F]]. split; [done|]. split; [done|]. etrans; [exact F1|]. by etrans.
Qed.

Lemma po_bfree d b (s := d.(sb)) (x := BBLOCK b s) (k := b mod BPB / 8) :
  txn d -> self kt p pid d -> loggable d x -> in_use (ldisk d) s b = true ->
  pst l0 L d (bfree ROOTDEV b) (fun _ d' => fsame d d' /\
    txn_upd d x (<[k := Z.land (ldisk d x k) (Z.lnot (Z.shiftl 1 (b mod 8)))]> (ldisk d x)) d').
Proof.
  intros Ht Hs Hlg Hu. destruct (ev_txn_bread l0 L kt p pid Henv d x Ht Hs) as (bp & d1 & o & E & Hi & P).
  unfold bfree. po1. po1. po1. po1. fold s x. eapply po_evals; [exact E|]. po1. apply po_getd.
  change (b_data (bufs d1 bp)) with ((d1.(bufs) bp).(b_data)).
  rewrite (rp_data _ _ _ _ _ _ _ P), bit_mod, land_bit by (apply Z.mod_pos_bound; lia).
  change (bview d ROOTDEV x) with (ldisk d x). fold k. unfold in_use in Hu. fold x k in Hu. rewrite Hu. cbn [negb].
  po1. eapply po_evals; [apply ev_b_set|]. cbn beta. fold (set_data bp (fun dm => <[k := Z.land (dm k) (Z.lnot (Z.shiftl 1 (b mod 8)))]> dm) d1).
  eapply po_mono; [by eapply (po_update d x _ bp d1 o)|]. intros [] L' d' [-> [U F]]. done.
Qed.

Lemma ev_bfree_free d b (s := d.(sb)) (x := BBLOCK b s) :
  txn d -> self kt p pid d -> in_use (ldisk d) s b = false ->
  evals_panic l0 L d (bfree ROOTDEV b) "freeing free block".
Proof.
  intros Ht Hs Hu. destruct (ev_txn_bread l0 L kt p pid Henv d x Ht Hs) as (bp & d1 & o & E & Hi & P).
  unfold bfree. eapply ev_bind_panic; [apply ev_getd|]. cbn beta. fold s x.
  eapply ev_bind_panic; [exact E|]. cbn beta. eapply ev_bind_panic; [apply ev_b_get|]. cbn beta.
  rewrite (rp_data _ _ _ _ _ _ _ P), bit_mod, land_bit by (apply Z.mod_pos_bound; lia).
  unfold in_use in Hu. fold x in Hu. change (bview d ROOTDEV x) with (ldisk d x). rewrite Hu. cbn [negb]. ev1.
Qed.

Lemma po_bzero d x :
  txn d -> self kt p pid d -> loggable d x ->
  pst l0 L d (bzero ROOTDEV x) (fun _ d' => fsame d d' /\ txn_upd d x (memset (ldisk d x) 0 0 BSIZE) d').
Proof.
  intros Ht Hs Hlg. destruct (ev_txn_bread l0 L kt p pid Henv d x Ht Hs) as (bp & d1 & o & E & Hi & P).
  unfold bzero. po1. po1. eapply po_evals; [exact E|]. po1. eapply po_evals; [apply ev_b_set|]. cbn beta.
  fold (set_data bp (fun m => memset m 0 0 BSIZE) d1).
  eapply po_mono; [by eapply (po_update d x _ bp d1 o)|]. intros [] L' d' [-> [U F]]. split; [exact eq_refl|].
  split; [exact F|exact U].
Qed.

Lemma txn_upd_n d x m d' : txn d -> txn_upd d x m d' -> d'.(klog).(lh_n) <= d.(klog).(lh_n) + 1.
Proof.
  intros Ht U. pose proof (lo_n _ (tx_log _ Ht)) as H1. pose proof (lo_n _ (tx_log _ (tu_txn _ _ _ _ U))) as H2.
  rewrite <- (logged_length d'.(klog)), <- (logged_length d.(klog)), (tu_logged _ _ _ _ U) by lia.
  case_decide; [lia|]. rewrite length_app. cbn. lia.
Qed.

Lemma txn_upd_loggable d x m d' y : txn d -> txn_upd d x m d' ->
  0 <= y < 2 ^ 31 -> ~ in_log d.(klog).(lg_start) y -> d.(klog).(lh_n) < LOGSIZE - 2 -> loggable d' y.
Proof.
  intros Ht U Hy Ho Hn. pose proof (txn_upd_n _ _ _ _ Ht U). split; [done|].
  assert (d'.(klog).(lg_start) = d.(klog).(lg_start)) as -> by by rewrite (tu_klog _ _ _ _ U).
  split; [done|lia].
Qed.

(** [balloc] sets the bit of a free block and zeroes the block. *)
Record took_block (d : kdata) (b : Z) (d' : kdata) : Prop := {
  tb_range : 0 <= b < d.(sb).(sb_size);
  tb_free : in_use (ldisk d) d.(sb) b = false;
  tb_upd : let x := BBLOCK b d.(sb) in let k := b mod BPB / 8 in
    exists d1, txn_upd d x (<[k := Z.lor (ldisk d x k) (Z.shiftl 1 (b mod 8))]> (ldisk d x)) d1 /\
      txn_upd d1 b (memset (ldisk d1 b) 0 0 BSIZE) d';
  tb_fsame : fsame d d';
}.

(** The bits of one round. *)
Lemma group_bits s b bi : b mod BPB = 0 -> 0 <= bi < BPB ->
  BBLOCK (b + bi) s = BBLOCK b s /\ (b + bi) mod BPB = bi /\ (b + bi) mod 8 = bi mod 8.
Proof.
  intros Hb Hbi. unfold BBLOCK. change BPB with 8192 in *. split; [f_equal; f_equal|];
    Z.div_mod_to_equations; lia.
Qed.

Lemma group_used d s b y : b mod BPB = 0 -> b <= y < b + BPB ->
  Z.testbit (ldisk d (BBLOCK b s) ((y - b) / 8)) ((y - b) mod 8) = true -> in_use (ldisk d) s y = true.
Proof.
  intros Hb Hy H. destruct (group_bits s b (y - b) Hb ltac:(lia)) as (G1 & G2 & G3).
  replace (b + (y - b)) with y in * by lia. unfold in_use. by rewrite G1, G2, G3.
Qed.

Definition balloc_round (s : superblock) (b : Z) : M (option Z) :=
  bp ← bread ROOTDEV (BBLOCK b s);
  data ← b_get bp b_data;
  match free_bit (Z.to_nat BPB) 0 data (s.(sb_size) - b) with
  | Some bi =>
      b_set bp (fun x => x <| b_data ::= fun m =>
        <[bi / 8 := Z.lor (m (bi / 8)) (Z.shiftl 1 (bi mod 8))]> m |>);;
      log_write bp;;
      brelse bp;;
      bzero ROOTDEV (b + bi);;
      mret (Some (b + bi))
  | None => brelse bp;; mret None
  end.

(** Room in the log for every bitmap block, and the free blocks are outside the log. *)
Definition balloc_room (d : kdata) : Prop :=
  (forall y, 0 <= y < d.(sb).(sb_size) -> loggable d (BBLOCK y d.(sb)) /\
     (in_use (ldisk d) d.(sb) y = false -> ~ in_log d.(klog).(lg_start) y)) /\
  d.(klog).(lh_n) < LOGSIZE - 2.

Lemma po_balloc_round d b (s := d.(sb)) :
  txn d -> self kt p pid d -> map_ok s -> 0 <= b < s.(sb_size) -> b mod BPB = 0 -> balloc_room d ->
  pst l0 L d (balloc_round s b) (fun r d' =>
    match r with
    | Some y => b <= y /\ took_block d y d' /\ forall z, b <= z < y -> in_use (ldisk d) s z = true
    | None => txn_same d d' /\ fsame d d' /\
        forall y, b <= y < b + BPB -> y < s.(sb_size) -> in_use (ldisk d) s y = true
    end).
Proof.
  intros Ht Hs Hm Hb0 Hb [Hlg Hn]. fold s in Hlg. set (x := BBLOCK b s).
  destruct (ev_txn_bread l0 L kt p pid Henv d x Ht Hs) as (bp & d1 & o & E & Hi & P).
  pose proof (proj1 (rp_same _ _ _ _ _ _ _ P)) as F1.
  unfold balloc_round. po1. po1. fold x. eapply po_evals; [exact E|]. po1. apply po_getd.
  change (b_data (bufs d1 bp)) with ((d1.(bufs) bp).(b_data)). rewrite (rp_data _ _ _ _ _ _ _ P).
  change (bview d ROOTDEV x) with (ldisk d x).
  pose proof (free_bit_spec (Z.to_nat BPB) 0 (ldisk d x) (s.(sb_size) - b) ltac:(lia)) as Hf.
  rewrite Z2Nat.id in Hf by done. destruct (free_bit _ _ _ _) as [bi|].
  - destruct Hf as (H1 & H2 & H3 & H4). rewrite Z.add_0_l in H1.
    destruct (group_bits s b bi Hb H1) as (G1 & G2 & G3). pose proof (proj2 Hm) as Hsz.
    assert (in_use (ldisk d) s (b + bi) = false) as Hfree by (unfold in_use; by rewrite G1, G2, G3).
    destruct (Hlg (b + bi) ltac:(unfold s in *; lia)) as [Hl1 Hl2]. rewrite G1 in Hl1. fold x in Hl1.
    po1. eapply po_evals; [apply ev_b_set|]. cbn beta.
    fold (set_data bp (fun m => <[bi / 8 := Z.lor (m (bi / 8)) (Z.shiftl 1 (bi mod 8))]> m) d1).
    apply po_group, po_bind. eapply po_call; [by eapply (po_update d x _ bp d1 o)|].
    intros [] d2 [U2 F2]. po1. eapply po_call; [apply (po_bzero d2 (b + bi))|].
    + apply (tu_txn _ _ _ _ U2).
    + by eapply self_fsame.
    + apply (txn_upd_loggable _ _ _ _ _ Ht U2); [unfold s in *; lia|by apply Hl2|done].
    + intros [] d3 [F3 U3]. po1. split; [done|]. split; [lia|]. split.
      * split; [unfold s in *; lia|done| |by etrans]. cbn zeta. change (sb d) with s. rewrite G1, G2, G3.
        exists d2. split; [exact U2|exact U3].
      * intros z Hz. apply (group_used d s b z); [done|lia|]. apply H4. lia.
  - apply po_bind. eapply po_call; [eapply (po_txn_brelse l0 L kt p pid Henv d o x bp d1 d1); try done|].
    { by eapply self_fsame. }
    intros [] d2 [S2 F2]. po1. split; [done|]. split; [done|]. split; [by etrans|].
    intros y Hy Hys. apply (group_used d s b y); [done|lia|]. apply Hf; lia.
Qed.

Lemma txn_same_upd d d1 x m d2 : txn_same d d1 -> txn_upd d1 x m d2 -> txn_upd d x m d2.
Proof.
  intros [T1 D1 W1 K1] [T2 D2 W2 G2 K2]. split; [done| |congruence|by rewrite <- K1|by rewrite <- K1].
  intros z. rewrite D2. destruct (decide (z = x)); [done|apply D1].
Qed.

Lemma txn_same_trans d d1 d2 : txn_same d d1 -> txn_same d1 d2 -> txn_same d d2.
Proof. intros [T1 D1 W1 K1] [T2 D2 W2 K2]. split; [done| |congruence..]. intros z. by rewrite D2. Qed.

Lemma in_use_same d d1 s y : txn_same d d1 -> in_use (ldisk d1) s y = in_use (ldisk d) s y.
Proof. intros S. unfold in_use. by rewrite (tm_disk _ _ S). Qed.

Lemma took_same d d1 y d2 : txn_same d d1 -> fsame d d1 -> took_block d1 y d2 -> took_block d y d2.
Proof.
  intros S F [H1 H2 H3 H4]. cbn zeta in H3. rewrite (fsame_sb _ _ F) in H1, H2, H3. rewrite (tm_disk _ _ S) in H3.
  split; [done|by rewrite <- (in_use_same _ _ _ _ S)| |by etrans]. cbn zeta.
  destruct H3 as (e & U1 & U2). exists e. split; [by eapply txn_same_upd|done].
Qed.

Lemma room_same d d1 : txn_same d d1 -> fsame d d1 -> balloc_room d -> balloc_room d1.
Proof.
  intros S F [H1 H2]. unfold balloc_room, loggable. rewrite (fsame_sb _ _ F), (tm_klog _ _ S).
  split; [|done]. intros y Hy. rewrite (in_use_same _ _ _ _ S). by apply H1.
Qed.

(** The superblock geometry is within 31 bits, so the scan visits every block. *)
Lemma po_balloc_scan d0 n k d (s := d0.(sb)) :
  txn d0 -> self kt p pid d0 -> map_ok s -> balloc_room d0 -> txn_same d0 d -> fsame d0 d ->
  0 <= k -> (k + Z.of_nat n - 1) * BPB < s.(sb_size) ->
  (forall z, 0 <= z < k * BPB -> z < s.(sb_size) -> in_use (ldisk d0) s z = true) ->
  pst l0 L d (scanM (map (Z.mul BPB) (seqZ k (Z.of_nat n))) (balloc_round s)) (fun r d' =>
    match r with
    | Some y => took_block d0 y d' /\ forall z, 0 <= z < y -> in_use (ldisk d0) s z = true
    | None => forall z, 0 <= z < (k + Z.of_nat n) * BPB -> z < s.(sb_size) -> in_use (ldisk d0) s z = true
    end).
Proof.
  intros Ht Hs Hm Hr. revert k d. induction n as [|n IH]; intros k d S F Hk Hn Hu.
  { rewrite Z.add_0_r. by apply po_ret. }
  rewrite Nat2Z.inj_succ, seqZ_cons by lia. rewrite Z.pred_succ. cbn [map scanM].
  apply po_bind. pose proof (fsame_sb _ _ F) as Es. fold s in Es.
  eapply po_call. { rewrite <- Es at 1. apply (po_balloc_round d (BPB * k)); rewrite ?Es; try done.
    - apply (tm_txn _ _ S).
    - by eapply self_fsame.
    - change BPB with 8192 in *. lia.
    - rewrite Z.mul_comm. by apply Z_mod_mult.
    - by eapply room_same. }
  intros [y|] d'; cbn beta iota.
  - rewrite Es. intros (Hy & T & Hz). apply po_ret. split; [done|]. split; [by eapply took_same|].
    intros z Hzy. destruct (decide (z < k * BPB)) as [Hlt|Hge].
    + apply Hu; [lia|]. pose proof (tb_range _ _ _ T) as R. rewrite Es in R. lia.
    + rewrite <- (in_use_same _ _ _ _ S). apply Hz. lia.
  - rewrite Es. intros (S2 & F2 & Hz). replace (k + Z.succ (Z.of_nat n)) with (Z.succ k + Z.of_nat n) in * by lia.
    apply IH; [by eapply txn_same_trans|by etrans|lia|lia|].
    intros z Hzk Hzs. destruct (decide (z < k * BPB)) as [Hlt|Hge]; [apply Hu; lia|].
    rewrite <- (in_use_same _ _ _ _ S). apply Hz; [|done]. lia.
Qed.

(** The blocks of the bitmap are themselves in use. *)
Definition map_used (d : kdata) : Prop := forall y z, 0 <= y < d.(sb).(sb_size) -> 0 <= z < d.(sb).(sb_size) ->
  in_use (ldisk d) d.(sb) y = false -> BBLOCK z d.(sb) <> y.

Lemma took_bits d b d' (s := d.(sb)) : map_ok s -> map_used d -> took_block d b d' ->
  forall z, 0 <= z < s.(sb_size) -> in_use (ldisk d') s z = (z =? b) || in_use (ldisk d) s z.
Proof.
  intros Hm Hu [Hb Hf (d1 & U1 & U2) _] z Hz. fold s in Hb, Hf, U1. pose proof (proj2 Hm) as Hsz.
  assert (in_use (ldisk d') s z = in_use (ldisk d1) s z) as ->.
  { unfold in_use. rewrite (tu_disk _ _ _ _ U2), decide_False; [done|]. by apply Hu. }
  rewrite (bit_update (ldisk d) (ldisk d1) s b true (Z.lor (ldisk d (BBLOCK b s) (b mod BPB / 8)) (Z.shiftl 1 (b mod 8))));
    [|done|lia|lia| |apply (tu_disk _ _ _ _ U1)].
  - destruct (Z.eqb_spec z b) as [->|N]; [by rewrite decide_True|]. by rewrite decide_False.
  - intros n Hn. apply set_bit; [by apply Z.mod_pos_bound|done].
Qed.

Lemma po_balloc d (s := d.(sb)) :
  txn d -> self kt p pid d -> map_ok s -> map_used d -> balloc_room d ->
  (exists y, 0 <= y < s.(sb_size) /\ in_use (ldisk d) s y = false) ->
  pst l0 L d (balloc ROOTDEV) (fun b d' =>
    0 <= b < s.(sb_size) /\ in_use (ldisk d) s b = false /\
    (forall z, 0 <= z < b -> in_use (ldisk d) s z = true) /\
    (forall z, 0 <= z < s.(sb_size) -> in_use (ldisk d') s z = (z =? b) || in_use (ldisk d) s z) /\
    (forall i, 0 <= i < BSIZE -> ldisk d' b i = 0) /\
    (forall z, z <> b -> z <> BBLOCK b s -> ldisk d' z = ldisk d z) /\
    in_txn d d' /\ fsame d d' /\ d'.(klog).(lh_n) <= d.(klog).(lh_n) + 2).
Proof.
  intros Ht Hs Hm Hu Hr (y & Hy & Hf). unfold balloc. apply po_bind, po_getd, po_bind.
  fold s. change (scanM _ _) with (scanM (steps BPB s.(sb_size)) (balloc_round s)). unfold steps.
  set (n := (s.(sb_size) + BPB - 1) / BPB). pose proof (proj2 Hm) as Hsz.
  assert (0 <= n /\ (n - 1) * BPB < s.(sb_size) /\ s.(sb_size) <= n * BPB) as (Hn & Hn1 & Hn2).
  { unfold n. change BPB with 8192. Z.div_mod_to_equations. lia. }
  rewrite <- (Z2Nat.id n Hn). eapply po_call; [apply (po_balloc_scan d (Z.to_nat n) 0 d); try done|].
  - rewrite Z2Nat.id by done. fold s. lia.
  - intros z Hz. lia.
  - rewrite Z2Nat.id by done. fold s. intros [b|] d'; cbn beta iota.
    + intros [T Hlt]. po1. split; [done|]. pose proof (took_bits _ _ _ Hm Hu T) as Hbits.
      destruct T as [T1 T2 (d1 & U1 & U2) T4]. fold s in T1, T2, U1.
      do 3 (split; [done|]). split; [exact Hbits|]. split; [|split; [|split; [|split]]].
      * intros i Hi. rewrite (tu_disk _ _ _ _ U2), decide_True by done. by apply memset_in.
      * intros z N1 N2. rewrite (tu_disk _ _ _ _ U2), decide_False by done. by rewrite (tu_disk _ _ _ _ U1), decide_False.
      * eapply in_txn_trans; by eapply txn_upd_in.
      * done.
      * pose proof (txn_upd_n _ _ _ _ Ht U1). pose proof (txn_upd_n _ _ _ _ (tu_txn _ _ _ _ U1) U2). lia.
    + intros Hall. rewrite Hall in Hf by lia. done.
Qed.

(** C28: [balloc] takes the first free block of the bitmap: afterwards exactly that block
    is marked in addition, it is zeroed, and no block other than it and its bitmap block
    has changed. *)
Theorem balloc_correct d (s := d.(sb)) :
  txn d -> self kt p pid d -> map_ok s -> map_used d -> balloc_room d ->
  (exists y, 0 <= y < s.(sb_size) /\ in_use (ldisk d) s y = false) ->
  pst l0 L d (balloc ROOTDEV) (fun b d' =>
    0 <= b < s.(sb_size) /\ in_use (ldisk d) s b = false /\
    (forall z, 0 <= z < b -> in_use (ldisk d) s z = true) /\
    (forall z, 0 <= z < s.(sb_size) -> in_use (ldisk d') s z = (z =? b) || in_use (ldisk d) s z) /\
    (forall i, 0 <= i < BSIZE -> ldisk d' b i = 0) /\
    (forall z, z <> b -> z <> BBLOCK b s -> ldisk d' z = ldisk d z) /\
    in_txn d d' /\ fsame d d').
Proof.
  intros. eapply po_mono; [by apply po_balloc|]. intros b L' d' [-> (P1 & P2 & P3 & P4 & P5 & P6 & P7 & P8 & _)]. done.
Qed.

(** [bfree] of a block in use clears its bit in the bitmap and changes no other bit
    and no other block; freeing a free block is a panic. *)
Theorem bfree_correct d b (s := d.(sb)) :
  txn d -> self kt p pid d -> map_ok s -> 0 <= b < s.(sb_size) -> loggable d (BBLOCK b s) ->
  if in_use (ldisk d) s b then
    pst l0 L d (bfree ROOTDEV b) (fun _ d' =>
      (forall z, 0 <= z < s.(sb_size) -> in_use (ldisk d') s z = negb (z =? b) && in_use (ldisk d) s z) /\
      (forall z, z <> BBLOCK b s -> ldisk d' z = ldisk d z) /\ in_txn d d' /\ fsame d d')
  else evals_panic l0 L d (bfree ROOTDEV b) "freeing free block".
Proof.
  intros Ht Hs Hm Hb Hlg. pose proof (proj2 Hm) as Hsz. destruct (in_use (ldisk d) s b) eqn:E; [|by apply ev_bfree_free].
  eapply po_mono; [by apply po_bfree|]. intros [] L' d' [-> [F U]]. fold s in U. split; [done|].
  split; [|split; [|split; [by eapply txn_upd_in|done]]].
  - intros z Hz. erewrite bit_update; [|done| | | |apply (tu_disk _ _ _ _ U)]; [|lia|lia|].
    + instantiate (1 := false). destruct (Z.eqb_spec z b) as [->|N]; [by rewrite decide_True|]. by rewrite decide_False.
    + intros n Hn. rewrite clear_bit; [by destruct (n =? b mod 8)|by apply Z.mod_pos_bound|done].
  - intros z N. by rewrite (tu_disk _ _ _ _ U), decide_False by done.
Qed.
End blocks.

(** ** Instances *)

Section witnesses.
#[local] Existing Instance sync_disk.
#[local] Existing Instance sync_disk_ok.
#[local] Existing Instance demo_fuel.

(** A file system of 1000 blocks whose first 50 are in use: the log at block 2, the
    inodes at 33 and the bitmap at 45. *)
Definition demo_sb : superblock := Superblock 0 1000 950 200 30 2 33 45.
Definition demo_bitmap (z : Z) : bytes := fun k =>
  if decide (z = 45) then if k <? 6 then 255 else if k =? 6 then 3 else 0 else 0.
Definition demo_free : buf := buf0 <| b_dev := ROOTDEV |>.
Definition demo_fs_on (disk : Z -> bytes) (t : nat -> inode) : kdata :=
  demo_cache demo_free disk (Log 2 LOGSIZE 0 0 ROOTDEV 0 (fun _ => 0)) <| sb := demo_sb |> <| itable := t |>.
Definition demo_fs : kdata := demo_fs_on demo_bitmap (fun _ => inode0).

Lemma demo_idle disk t : hdr_n (disk 2) = 0 -> fs_idle (demo_fs_on disk t).
Proof.
  intros Hh. split; try done.
  - destruct (demo_quiet demo_free disk (Log 2 LOGSIZE 0 0 ROOTDEV 0 (fun _ => 0))) as [[o I] Q2 Q3]; try done.
    split; [|done|done]. exists o. by destruct I; split.
  - intros b Hb. cbn. unfold demo_bufs. by case_decide.
Qed.

Lemma demo_fs_idle : fs_idle demo_fs.
Proof. by apply demo_idle. Qed.

Lemma demo_disk_on disk t z : hdr_n (disk 2) = 0 -> ldisk (reserved (demo_fs_on disk t)) z = disk z.
Proof.
  intros Hh. unfold ldisk. rewrite (bview_eq (demo_fs_on disk t)) by done.
  rewrite idle_view; [done|by apply demo_idle..].
Qed.

Lemma demo_fs_disk z : ldisk (reserved demo_fs) z = demo_bitmap z.
Proof. by apply demo_disk_on. Qed.

Lemma demo_fs_use z : 0 <= z < 1000 -> in_use (ldisk (reserved demo_fs)) demo_sb z = (z <? 50).
Proof.
  intros Hz. unfold in_use. rewrite demo_fs_disk.
  assert (forallb (fun z => eqb (Z.testbit (demo_bitmap (BBLOCK z demo_sb) (z mod BPB / 8)) (z mod 8)) (z <? 50))
    (seqZ 0 1000) = true) as H by (vm_compute; reflexivity).
  rewrite forallb_forall in H. apply eqb_prop, H, list_elem_of_In, elem_of_seqZ. lia.
Qed.

Lemma demo_bblock z : 0 <= z < 1000 -> BBLOCK z demo_sb = 45.
Proof. intros. unfold BBLOCK. rewrite Z.div_small by (change BPB with 8192; lia). done. Qed.

Lemma demo_fs_loggable z : 0 <= z < 1000 -> loggable (reserved demo_fs) (BBLOCK z demo_sb).
Proof.
  intros Hz. rewrite demo_bblock by done.
  split; [done|]. split; [|done]. unfold in_log. change LOGSIZE with 30. cbn. lia.
Qed.

(** The first free block of the instance is block 50. *)
Lemma balloc_correct_witness :
  pst (demo_run demo_kt) [] (reserved demo_fs) (balloc ROOTDEV) (fun b _ => b = 50).
Proof.
  eapply po_mono; [apply (balloc_correct (demo_run demo_kt) [] demo_kt 1 demo_pid)|].
  - apply demo_fs_env.
  - apply reserved_txn, demo_fs_idle.
  - done.
  - done.
  - intros y z Hy Hz H. change (sb (reserved demo_fs)) with demo_sb in *. rewrite demo_fs_use in H by done.
    apply Z.ltb_ge in H. rewrite demo_bblock by done. lia.
  - split; [|done]. intros y Hy. split; [by apply demo_fs_loggable|].
    change (sb (reserved demo_fs)) with demo_sb. rewrite demo_fs_use by done.
    intros H%Z.ltb_ge. unfold in_log. change LOGSIZE with 30. cbn. lia.
  - exists 50. split; [done|]. by apply demo_fs_use.
  - intros b L' d' [-> (Hb & Hf & Hl & _)]. split; [done|]. change (sb (reserved demo_fs)) with demo_sb in *.
    rewrite demo_fs_use in Hf by done. apply Z.ltb_ge in Hf. destruct (decide (50 < b)) as [H|]; [|lia].
    specialize (Hl 50 ltac:(lia)). by rewrite demo_fs_use in Hl.
Defined.

(** Block 49 is freed. *)
Lemma bfree_correct_witness :
  pst (demo_run demo_kt) [] (reserved demo_fs) (bfree ROOTDEV 49)
    (fun _ d' => in_txn (reserved demo_fs) d' /\ self demo_kt 1 demo_pid d' /\
       in_use (ldisk d') demo_sb 49 = false).
Proof.
  pose proof (bfree_correct (demo_run demo_kt) [] demo_kt 1 demo_pid demo_fs_env (reserved demo_fs) 49) as H.
  cbn zeta in H. change (sb (reserved demo_fs)) with demo_sb in H. rewrite demo_fs_use in H by done.
  eapply po_mono; [apply H|].
  - apply reserved_txn, demo_fs_idle.
  - done.
  - done.
  - done.
  - by apply demo_fs_loggable.
  - intros [] L' d' [-> (Hu & _ & Hin & F)]. split; [done|]. split; [done|]. split; [by eapply self_fsame|].
    rewrite Hu by done. done.
Defined.

Lemma demo_bfree : pst (demo_run demo_kt) [] (reserved demo_fs) (bfree ROOTDEV 49)
  (fun _ d' => in_txn (reserved demo_fs) d' /\ self demo_kt 1 demo_pid d' /\ True).
Proof.
  eapply po_mono; [apply (po_bfree (demo_run demo_kt) [] demo_kt 1 demo_pid demo_fs_env (reserved demo_fs) 49)|].
  - apply reserved_txn, demo_fs_idle.
  - done.
  - by apply demo_fs_loggable.
  - by apply demo_fs_use.
  - intros [] L' d' [-> [F U]]. split; [done|]. split; [by eapply txn_upd_in|]. split; [by eapply self_fsame|done].
Qed.

(** The release of block 49 as a transaction of its own. *)
Lemma transaction_atomic_witness :
  pst (demo_run demo_kt) [] demo_fs (begin_op;; a ← bfree ROOTDEV 49; end_op;; mret a) (fun _ d' => fs_idle d').
Proof.
  eapply po_mono; [apply (transaction_atomic (demo_run demo_kt) [] demo_kt 1 demo_pid (bfree ROOTDEV 49) (fun _ _ => True))|].
  - apply demo_fs_env.
  - done.
  - apply demo_fs_idle.
  - eapply po_mono; [apply demo_bfree|]. by intros [] L' d' H.
  - intros [] L' d' [-> (d1 & ws & _ & H & _)]. done.
Defined.
End witnesses.
