(* ===== verification/Dir.v ===== *)
(** * The file system: directories and paths (kernel/fs.c) *)
From S2P Require Export Fs.

Definition DIRSIZ : Z := 14.
Definition sizeof_dirent : Z := 16.

(** [struct dirent]: the inode number at offset 0, the name at offset 2. *)
Definition de_inum (de : bytes) : Z := load16 de 0.

Definition namecmp (sm : bytes) (s : Z) (tm : bytes) (t : Z) : Z := strncmp sm s tm t DIRSIZ.

(** Advance over the characters that satisfy [f]; every path ends with a NUL among
    its first [MAXPATH] characters, so the scans stop within [MAXPATH] steps
    ([None] otherwise). *)
Fixpoint skip_while (fuel : nat) (f : Z -> bool) (m : bytes) (p : Z) : option Z :=
  if f (m p) then
    match fuel with O => None | S fuel => skip_while fuel f m (p + 1) end
  else Some p.

Definition SLASH : Z := 47.

(** [skipelem path p name]: the pointer it returns ([None]: null) and the contents
    of [name].  The outer [None] is a path without NUL. *)
Definition skipelem (path : bytes) (p : Z) (name : bytes) : option (option Z * bytes) :=
  let fuel := Z.to_nat MAXPATH in
  p ← skip_while fuel (fun c => c =? SLASH) path p;
  if path p =? 0 then Some (None, name) else
  let s := p in
  p ← skip_while fuel (fun c => negb (c =? SLASH) && negb (c =? 0)) path p;
  let len := p - s in
  let name := if DIRSIZ <=? len then memmove_across name 0 path s DIRSIZ
              else <[len := 0]> (memmove_across name 0 path s len) in
  p ← skip_while fuel (fun c => c =? SLASH) path p;
  Some (Some p, name).

Section dir.
Context `{KI : KernelImage} `{WF : WaitFuel} `{DD : DiskDriver}.

(** Returns the inode and the offset of its entry ([*poff]). *)
Definition dirlookup (dp : nat) (name : bytes) : M (option (nat * Z)) :=
  x ← i_get dp id;
  if negb (x.(i_type) =? T_DIR) then panic "dirlookup not DIR" else
  scanM (steps sizeof_dirent x.(i_size)) (fun off =>
    r ← readi dp (kobj 0) (fun _ => 0) off sizeof_dirent;
    if negb (r.1 =? sizeof_dirent) then panic "dirlookup read" else
    let de := r.2 in
    if de_inum de =? 0 then mret None else
    if namecmp name 0 de 2 =? 0 then
      dev ← i_get dp i_dev;
      ip ← iget dev (de_inum de);
      mret (Some (ip, off))
    else mret None).

Definition dirlink (dp : nat) (name : bytes) (inum : Z) : M Z :=
  o ← dirlookup dp name;
  match o with
  | Some (ip, _) => iput ip;; mret (-1)
  | None =>
      size ← i_get dp i_size;
      r ← scanM (steps sizeof_dirent size) (fun off =>
        r ← readi dp (kobj 0) (fun _ => 0) off sizeof_dirent;
        if negb (r.1 =? sizeof_dirent) then panic "dirlink read" else
        if de_inum r.2 =? 0 then mret (Some (off, r.2)) else mret None);
      let off := match r with
                 | Some (off, _) => off
                 | None => sizeof_dirent * ((size + sizeof_dirent - 1) / sizeof_dirent)
                 end in
      let de := match r with Some (_, de) => de | None => fun _ => 0 end in
      let de := strncpy de 2 name 0 DIRSIZ in
      let de := store16 de 0 (u16 inum) in
      n ← writei dp (kobj 0) de off sizeof_dirent;
      if negb (n =? sizeof_dirent) then mret (-1) else mret 0
  end.

(** The loop of [namex]: every round consumes at least one character. *)
Fixpoint namex_loop (fuel : nat) (ip : nat) (path : bytes) (p : Z) (nameiparent : bool)
    (name : bytes) : M (option nat * bytes) :=
  match skipelem path p name with
  | None => diverge
  | Some (None, name) =>
      if nameiparent then iput ip;; mret (None, name) else mret (Some ip, name)
  | Some (Some p, name) =>
      match fuel with
      | O => diverge
      | S fuel =>
          ilock (Some ip);;
          type ← i_get ip i_type;
          if negb (type =? T_DIR) then iunlockput ip;; mret (None, name) else
          if nameiparent && (path p =? 0) then
            iunlock (Some ip);; mret (Some ip, name)
          else
            next ← dirlookup ip name;
            match next with
            | None => iunlockput ip;; mret (None, name)
            | Some (next, _) =>
                iunlockput ip;;
                namex_loop fuel next path p nameiparent name
            end
      end
  end.

Definition namex (path : bytes) (p : Z) (nameiparent : bool) (name : bytes)
    : M (option nat * bytes) :=
  ip ← (if path p =? SLASH then iget ROOTDEV ROOTINO
        else
          pr ← myproc;
          pr ← deref pr;
          cwd ← p_get pr p_cwd;
          cwd ← deref cwd;
          idup cwd);
  namex_loop (Z.to_nat MAXPATH) ip path p nameiparent name.

Definition namei (path : bytes) : M (option nat) :=
  r ← namex path 0 false (fun _ => 0); mret r.1.

Definition nameiparent (path name : bytes) : M (option nat * bytes) :=
  namex path 0 true name.
End dir.
