(* ===== verification/InodeSpec.v ===== *)
(** * What kernel/fs.c guarantees: inodes and their contents

    An inode on disk is 64 bytes of an inode block; [iupdate] writes the copy in memory
    there and [ilock] reads it back.  The contents of a file are the blocks that its
    addresses name, directly or through the indirect block; [readi] returns them. *)
From S2P Require Export FsSpec Dir.

(** ** The bytes of an inode *)

(** An inode in memory whose fields fit those of [struct dinode]. *)
Record inode_ok (x : inode) : Prop := {
  io_type : - 2 ^ 15 <= x.(i_type) < 2 ^ 15;
  io_major : - 2 ^ 15 <= x.(i_major) < 2 ^ 15;
  io_minor : - 2 ^ 15 <= x.(i_minor) < 2 ^ 15;
  io_nlink : - 2 ^ 15 <= x.(i_nlink) < 2 ^ 15;
  io_size : 0 <= x.(i_size) < 2 ^ 32;
  io_addrs : forall i, 0 <= i <= NDIRECT -> 0 <= x.(i_addrs) i < 2 ^ 32;
}.

(** The inode at offset [o] of the block [m] has the fields of [x]. *)
Record stored (m : bytes) (o : Z) (x : inode) : Prop := {
  st_type : di_type m o = x.(i_type);
  st_major : di_major m o = x.(i_major);
  st_minor : di_minor m o = x.(i_minor);
  st_nlink : di_nlink m o = x.(i_nlink);
  st_size : di_size m o = x.(i_size);
  st_addrs : forall i, 0 <= i <= NDIRECT -> di_addr m o i = x.(i_addrs) i;
}.

Lemma store_addrs_out m o v x : x < o + 12 \/ o + 64 <= x -> store_addrs m o v x = m x.
Proof.
  intros Hx. unfold store_addrs. change (NDIRECT + 1) with 13.
  assert (forall i, i ∈ seqZ 0 13 -> 0 <= i < 13) as Hl by (intros i Hi%elem_of_seqZ; lia).
  revert m Hl. induction (seqZ 0 13) as [|i l IH]; intros m Hl; [done|]. cbn [foldl]. rewrite IH.
  - apply store_out. specialize (Hl i ltac:(by left)). lia.
  - intros j Hj. apply Hl. by right.
Qed.

Lemma store_addrs_in m o v i : 0 <= i <= NDIRECT -> load32 (store_addrs m o v) (o + 12 + 4 * i) = u32 (v i).
Proof.
  intros Hi. unfold store_addrs. assert (i ∈ seqZ 0 (NDIRECT + 1)) as He by (apply elem_of_seqZ; lia).
  pose proof (NoDup_seqZ 0 (NDIRECT + 1)) as Hn. revert m Hn He. clear Hi.
  induction (seqZ 0 (NDIRECT + 1)) as [|j l IH] using rev_ind; intros m Hn He; [by apply elem_of_nil in He|].
  rewrite foldl_app. cbn [foldl]. apply NoDup_app in Hn as (Hn & Hd & _).
  apply elem_of_app in He as [He| ->%list_elem_of_singleton].
  - unfold load32, store32. rewrite load_store_ne; [by apply IH|]. assert (i <> j); [|cbn; lia].
    intros ->. apply (Hd j); [done|]. by left.
  - unfold load32, store32. by rewrite load_store.
Qed.

Lemma s16_u16 x : - 2 ^ 15 <= x < 2 ^ 15 -> s16 (u16 x mod 256 ^ Z.of_nat 2) = x.
Proof.
  intros Hx. unfold s16, u16. change (256 ^ Z.of_nat 2) with (2 ^ 16). rewrite Z.mod_mod by lia.
  rewrite Zplus_mod_idemp_l. rewrite Z.mod_small; lia.
Qed.

(** The inode is read back as it was written. *)
Lemma dinode_roundtrip m o x : inode_ok x -> stored (store_dinode m o x) o x.
Proof.
  intros [H1 H2 H3 H4 H5 H6]. unfold store_dinode.
  assert (forall n m' a, a + Z.of_nat n <= o + 12 -> load n (store_addrs m' o x.(i_addrs)) a = load n m' a) as Ha.
  { intros. apply load_ext. intros. apply store_addrs_out. lia. }
  split; unfold di_type, di_major, di_minor, di_nlink, di_size, di_addr.
  1-5: unfold load16, store16, load32, store32; rewrite Ha by (cbn; lia); rewrite ?load_store_ne by (cbn; lia);
    rewrite load_store; try (by apply s16_u16); by apply Z.mod_small.
  intros i Hi. rewrite store_addrs_in by done. apply u32_small. auto.
Qed.

Lemma store_dinode_out m o x k : k < o \/ o + sizeof_dinode <= k -> store_dinode m o x k = m k.
Proof.
  change sizeof_dinode with 64. intros H. unfold store_dinode. rewrite store_addrs_out by lia.
  unfold store16, store32. rewrite !store_out; try done; cbn; lia.
Qed.

(** The place of inode [inum]. *)
Definition ioff (inum : Z) : Z := inum mod IPB * sizeof_dinode.

Lemma ioff_range inum : 0 <= ioff inum /\ ioff inum + sizeof_dinode <= BSIZE.
Proof.
  unfold ioff. change IPB with 16. change sizeof_dinode with 64. change BSIZE with 1024.
  pose proof (Z.mod_pos_bound inum 16). lia.
Qed.

(** Different inodes lie apart. *)
Lemma inode_apart s i j : 0 <= i < 2 ^ 31 -> 0 <= j < 2 ^ 31 -> 0 <= s.(sb_inodestart) < 2 ^ 31 -> i <> j ->
  IBLOCK i s = IBLOCK j s -> ioff i + sizeof_dinode <= ioff j \/ ioff j + sizeof_dinode <= ioff i.
Proof.
  unfold IBLOCK, ioff. change IPB with 16. change sizeof_dinode with 64. intros Hi Hj Hs Hn.
  assert (0 <= i / 16 < 2 ^ 31 /\ 0 <= j / 16 < 2 ^ 31) by (Z.div_mod_to_equations; lia).
  rewrite !u32_small by lia. Z.div_mod_to_equations. lia.
Qed.

Lemma fsame_itable d d' : fsame d d' -> d'.(itable) = d.(itable).
Proof. intros H. by rewrite (wk_rest _ _ H). Qed.

(** Entry [ip] of the inode table has become [y]; otherwise as [fsame]. *)
Record isame (ip : nat) (y : inode) (d d' : kdata) : Prop := {
  is_entry : d'.(itable) ip = y;
  is_other : forall j, j <> ip -> d'.(itable) j = d.(itable) j;
  is_rest : fsame (d <| itable := d'.(itable) |>) d';
}.

Lemma isame_upd ip f d : isame ip (f (d.(itable) ip)) d (upd_inode ip f d).
Proof.
  split; [cbn; apply fn_lookup_alter|intros j Hj; cbn; by apply fn_lookup_alter_ne|reflexivity].
Qed.

Lemma fsame_isame ip y d d1 d2 : fsame d d1 -> isame ip y d1 d2 -> isame ip y d d2.
Proof.
  intros F [E O R]. split; [done| |].
  - intros j Hj. by rewrite O, (fsame_itable _ _ F).
  - unfold fsame in F. apply (woke_upd (fun x => x <| itable := d2.(itable) |>)) in F; [|done..].
    transitivity (d1 <| itable := d2.(itable) |>); [exact F|exact R].
Qed.

Lemma isame_fsame ip y d d1 d2 : isame ip y d d1 -> fsame d1 d2 -> isame ip y d d2.
Proof.
  intros [E O R] F. split; rewrite ?(fsame_itable _ _ F); [done..|by etrans].
Qed.

Lemma isame_trans ip y y' d d1 d2 : isame ip y d d1 -> isame ip y' d1 d2 -> isame ip y' d d2.
Proof.
  intros [E O R] [E' O' R']. split; [done| |].
  - intros j Hj. by rewrite O', O.
  - unfold fsame in R. apply (woke_upd (fun x => x <| itable := d2.(itable) |>)) in R; [|done..].
    transitivity (d1 <| itable := d2.(itable) |>); [exact R|exact R'].
Qed.

Lemma isame_self ip y d d' kt p pid : isame ip y d d' -> self kt p pid d -> self kt p pid d'.
Proof. intros H Hs. eapply self_fsame; [apply (is_rest _ _ _ _ H)|done]. Qed.

Lemma txn_same_eq d d1 d2 d3 : fs_eq d d1 -> txn_same d1 d2 -> fs_eq d2 d3 -> txn_same d d3.
Proof.
  intros E1 [T D W K] E3. split; [by eapply txn_eq| | |].
  - intros z. by rewrite (ldisk_eq d2), D, (ldisk_eq d d1).
  - by rewrite (fq_hw _ _ E3), W, (fq_hw _ _ E1).
  - by rewrite (fq_klog _ _ E3), K, (fq_klog _ _ E1).
Qed.

Section inodes.
Context `{KI : KernelImage} `{WF : WaitFuel} `{DDok : DiskDriverOk} (l0 : lockst) (L : list lockptr).
Context (kt : kptr) (p : nat) (pid : Z).
Hypothesis Henv : fs_env l0 L kt.

Lemma po_iupdate d ip (s := d.(sb)) (x := d.(itable) ip) (b := IBLOCK x.(i_inum) s) :
  txn d -> self kt p pid d -> x.(i_dev) = ROOTDEV -> loggable d b ->
  pst l0 L d (iupdate ip) (fun _ d' =>
    txn_upd d b (store_dinode (ldisk d b) (ioff x.(i_inum)) x) d' /\ fsame d d').
Proof.
  intros Ht Hs Hdev Hlg. destruct (ev_txn_bread l0 L kt p pid Henv d b Ht Hs) as (bp & d1 & o & E & Hi & P).
  pose proof (proj1 (rp_same _ _ _ _ _ _ _ P)) as F1.
  unfold iupdate. apply po_bind, po_getd, po_bind, po_getd, po_bind. fold x s. cbn [id]. rewrite Hdev. fold b.
  eapply po_evals; [exact E|]. apply po_bind, po_getd, po_bind. rewrite (fsame_itable _ _ F1). fold x. cbn [id].
  eapply po_evals; [apply ev_b_set|]. cbn beta.
  fold (ioff x.(i_inum)). fold (set_data bp (fun m => store_dinode m (ioff x.(i_inum)) x) d1).
  by eapply (po_update l0 L kt p pid Henv d b (fun m => store_dinode m (ioff x.(i_inum)) x) bp d1 o).
Qed.

(** C29: [iupdate] is a faithful encoding: the inode is decoded from the disk with
    exactly the fields it has in memory, and no byte of any other inode, and no other
    block, has changed. *)
Theorem iupdate_roundtrip d ip (s := d.(sb)) (x := d.(itable) ip) (b := IBLOCK x.(i_inum) s) :
  txn d -> self kt p pid d -> x.(i_dev) = ROOTDEV -> inode_ok x -> 0 <= x.(i_inum) < 2 ^ 31 ->
  0 <= s.(sb_inodestart) < 2 ^ 31 -> loggable d b ->
  pst l0 L d (iupdate ip) (fun _ d' =>
    stored (ldisk d' b) (ioff x.(i_inum)) x /\
    (forall j k, 0 <= j < 2 ^ 31 -> j <> x.(i_inum) -> 0 <= k < sizeof_dinode ->
       ldisk d' (IBLOCK j s) (ioff j + k) = ldisk d (IBLOCK j s) (ioff j + k)) /\
    (forall z, z <> b -> ldisk d' z = ldisk d z) /\ in_txn d d' /\ fsame d d').
Proof.
  intros Ht Hs Hdev Hok Hin Hst Hlg. eapply po_mono; [by apply po_iupdate|].
  intros [] L' d' [-> [U F]]. fold x s b in U. split; [done|].
  split; [|split; [|split; [|split; [by eapply txn_upd_in|done]]]].
  - rewrite (tu_disk _ _ _ _ U), decide_True by done. by apply dinode_roundtrip.
  - intros j k Hj Hne Hk. rewrite (tu_disk _ _ _ _ U). case_decide as E; [|done]. rewrite E.
    apply store_dinode_out. destruct (inode_apart s j x.(i_inum)) as [A|A]; try done; lia.
  - intros z Hz. by rewrite (tu_disk _ _ _ _ U), decide_False by done.
Qed.


(** What [ilock] leaves in the table: the entry is locked, and loaded when it was not
    valid. *)
Definition ilocked (d : kdata) (x : inode) : inode :=
  let x := x <| i_lock ::= sl_taken pid |> in
  if x.(i_valid) =? 0 then
    load_dinode (ldisk d (IBLOCK x.(i_inum) d.(sb))) (ioff x.(i_inum)) x <| i_valid := 1 |>
  else x.

Lemma ilock_taken d ip (dt := take_d (inode_slock ip) pid d) (x := d.(itable) ip) :
  txn d -> self kt p pid d ->
  fs_eq d dt /\ txn dt /\ self kt p pid dt /\ isame ip (x <| i_lock ::= sl_taken pid |>) d dt.
Proof.
  intros Ht Hs. assert (fs_eq d dt) as He by done. split; [done|]. split; [by apply (txn_eq d)|]. split; [done|].
  unfold dt, take_d. eapply isame_trans; [apply isame_upd|]. set (e := upd_slock _ _ d).
  pose proof (isame_upd ip (fun y => y <| i_lock ::= fun z => z <| sl_pid := pid |> |>) e) as H.
  replace (e.(itable) ip) with (x <| i_lock ::= fun z => z <| sl_locked := 1 |> |>) in H; [exact H|].
  symmetry. apply (is_entry _ _ _ _ (isame_upd ip _ d)).
Qed.

(** The entry is loaded from its block. *)
Lemma ilock_loaded d ip x d1 bp o dt (b := IBLOCK x.(i_inum) d.(sb)) :
  txn d -> fs_eq d dt -> isame ip x d dt -> read_post pid o ROOTDEV b dt bp d1 ->
  let e := upd_inode ip (fun x => load_dinode (d1.(bufs) bp).(b_data) (ioff x.(i_inum)) x) d1 in
  fs_eq d1 e /\ isame ip (load_dinode (ldisk d b) (ioff x.(i_inum)) x) d e.
Proof.
  intros Ht Ed I P e. split; [done|]. pose proof (proj1 (rp_same _ _ _ _ _ _ _ P)) as F.
  unfold e. rewrite (rp_data _ _ _ _ _ _ _ P). change (bview dt ROOTDEV b) with (ldisk dt b).
  rewrite (ldisk_eq d dt b Ed). eapply isame_trans; [eapply isame_fsame; [exact I|exact F]|].
  pose proof (isame_upd ip (fun x => load_dinode (ldisk d b) (ioff x.(i_inum)) x) d1) as H.
  rewrite (fsame_itable _ _ F), (is_entry _ _ _ _ I) in H. exact H.
Qed.

(** The part of [ilock] that reads the inode. *)
Definition iload (ip : nat) (x : inode) : M unit :=
  s ← getd sb;
  bp ← bread x.(i_dev) (IBLOCK x.(i_inum) s);
  m ← b_get bp b_data;
  i_set ip (fun x => load_dinode m (x.(i_inum) mod IPB * sizeof_dinode) x);;
  brelse bp;;
  i_set ip (fun x => x <| i_valid := 1 |>);;
  type ← i_get ip i_type;
  if type =? 0 then panic "ilock: no type" else mret tt.

Section load.
Context (d dt : kdata) (ip : nat) (x : inode) (b := IBLOCK x.(i_inum) d.(sb)).
Hypothesis (Ht : txn d) (Hs : self kt p pid d) (Hdev : x.(i_dev) = ROOTDEV).
Hypothesis (Ed : fs_eq d dt) (I1 : isame ip x d dt).

(** The state before the buffer is released, and after. *)
Lemma iload_steps : exists bp d1 e,
  evals l0 L dt (bread ROOTDEV b) bp L d1 /\
  e = upd_inode ip (fun x => load_dinode (d1.(bufs) bp).(b_data) (x.(i_inum) mod IPB * sizeof_dinode) x) d1 /\
  pst l0 L e (brelse bp) (fun _ d' => txn_same d d' /\
    isame ip (load_dinode (ldisk d b) (ioff x.(i_inum)) x) d d').
Proof.
  assert (txn dt) as Ht1 by by eapply txn_eq. assert (self kt p pid dt) as Hs1 by by eapply isame_self.
  destruct (ev_txn_bread l0 L kt p pid Henv dt b Ht1 Hs1) as (bp & d1 & o & E & Hi & P).
  destruct (ilock_loaded d ip x d1 bp o dt Ht Ed I1 P) as [Ee Ie].
  exists bp, d1. eexists. split; [done|]. split; [done|].
  eapply po_mono; [apply (po_txn_brelse l0 L kt p pid Henv dt o b bp d1); try done; by eapply isame_self|].
  intros [] L' d' [-> [S F]]. split; [done|]. split; [by eapply txn_same_eq|by eapply isame_fsame].
Qed.

Lemma po_iload : di_type (ldisk d b) (ioff x.(i_inum)) <> 0 ->
  pst l0 L dt (iload ip x) (fun _ d' => txn_same d d' /\
    isame ip (load_dinode (ldisk d b) (ioff x.(i_inum)) x <| i_valid := 1 |>) d d').
Proof.
  intros Hty. destruct iload_steps as (bp & d1 & e & E & -> & R). unfold iload. rewrite Hdev.
  apply po_bind, po_getd. rewrite (fsame_sb _ _ (is_rest _ _ _ _ I1)). cbn. fold b.
  apply po_bind. eapply po_evals; [exact E|]. apply po_bind, po_getd, po_bind, po_modd, po_bind.
  eapply po_call; [exact R|]. intros [] d2 [S2 I2]. apply po_bind, po_modd, po_bind, po_getd.
  pose proof (isame_upd ip (fun x => x <| i_valid := 1 |>) d2) as I3.
  rewrite (is_entry _ _ _ _ I2) in I3. rewrite (is_entry _ _ _ _ I3). cbn.
  rewrite (proj2 (Z.eqb_neq _ _) Hty). apply po_ret. split; [done|].
  split; [by apply (txn_same_eq d d d2)|]. by eapply isame_trans.
Qed.

Lemma ev_iload_free : di_type (ldisk d b) (ioff x.(i_inum)) = 0 ->
  evals_panic l0 L dt (iload ip x) "ilock: no type".
Proof.
  intros Hty. destruct iload_steps as (bp & d1 & e & E & -> & R). unfold iload. rewrite Hdev.
  eapply ev_bind_panic; [apply ev_getd|]. cbn beta. rewrite (fsame_sb _ _ (is_rest _ _ _ _ I1)). cbn. fold b.
  eapply ev_bind_panic; [exact E|]. cbn beta. eapply ev_bind_panic; [apply ev_getd|]. cbn beta.
  eapply ev_bind_panic; [apply ev_modd|]. cbn beta. eapply po_bind_panic; [exact R|]. intros [] d2 [S2 I2].
  eapply ev_bind_panic; [apply ev_modd|]. cbn beta. eapply ev_bind_panic; [apply ev_getd|]. cbn beta.
  pose proof (isame_upd ip (fun x => x <| i_valid := 1 |>) d2) as I3.
  rewrite (is_entry _ _ _ _ I2) in I3. rewrite (is_entry _ _ _ _ I3). cbn. rewrite Hty. cbn. ev1.
Qed.
End load.

Lemma ilock_spec d ip (x := d.(itable) ip) (b := IBLOCK x.(i_inum) d.(sb)) :
  txn d -> self kt p pid d -> x.(i_dev) = ROOTDEV -> x.(i_lock).(sl_locked) = 0 ->
  if x.(i_ref) <? 1 then evals_panic l0 L d (ilock (Some ip)) "ilock"
  else if (x.(i_valid) =? 0) && (di_type (ldisk d b) (ioff x.(i_inum)) =? 0)
    then evals_panic l0 L d (ilock (Some ip)) "ilock: no type"
  else pst l0 L d (ilock (Some ip)) (fun _ d' =>
    isame ip (ilocked d x) d d' /\ txn_same d d' /\
    (x.(i_valid) = 0 -> stored (ldisk d b) (ioff x.(i_inum)) (d'.(itable) ip))).
Proof.
  intros Ht Hs Hdev Hl. unfold ilock. destruct (ilock_taken d ip Ht Hs) as (Ed & Ht1 & Hs1 & I1). fold x in I1.
  set (dt := take_d (inode_slock ip) pid d) in *. pose proof (is_entry _ _ _ _ I1) as Ex.
  remember (x <| i_lock ::= sl_taken pid |>) as y eqn:Ey.
  assert (y.(i_dev) = ROOTDEV /\ y.(i_valid) = x.(i_valid) /\ y.(i_inum) = x.(i_inum)) as (Ydev & Yv & Yi) by by rewrite Ey.
  assert (evals l0 L d (acquiresleep (inode_slock ip)) tt L dt) as Ea.
  { unfold dt. rewrite <- (proj2 Hs). apply (ev_acquiresleep l0 L kt p (fe_run _ _ _ Henv)); [by apply (fe_lock _ _ _ Henv)..|apply Hs|done]. }
  destruct (x.(i_ref) <? 1) eqn:Hr.
  { eapply ev_bind_panic; [apply ev_getd|]. cbn beta. cbn [id]. fold x. rewrite Hr. ev1. }
  destruct (x.(i_valid) =? 0) eqn:Hv; cbn [andb]; [destruct (di_type (ldisk d b) _ =? 0) eqn:Ety|].
  - eapply ev_bind_panic; [apply ev_getd|]. cbn beta. cbn [id]. fold x. rewrite Hr.
    eapply ev_bind_panic; [exact Ea|]. cbn beta. eapply ev_bind_panic; [apply ev_getd|]. cbn beta. cbn [id].
    rewrite Ex, Yv, Hv. cbn [when].
    fold (iload ip y). apply (ev_iload_free d dt ip y Ht Hs Ydev Ed I1). rewrite Yi. by apply Z.eqb_eq.
  - apply po_bind, po_getd. cbn [id]. fold x. rewrite Hr. apply po_bind. eapply po_evals; [exact Ea|].
    apply po_bind, po_getd. cbn [id]. rewrite Ex, Yv, Hv. cbn [when].
    fold (iload ip y). eapply po_mono; [apply (po_iload d dt ip y Ht Hs Ydev Ed I1); rewrite Yi; by apply Z.eqb_neq|].
    intros [] L' d' [-> [S I]]. split; [done|]. unfold ilocked. rewrite <- Ey, Yv, Hv. split; [exact I|]. split; [done|].
    intros _. unfold b. rewrite <- Yi. rewrite (is_entry _ _ _ _ I). split; try done. intros i Hi. cbn.
    by rewrite (proj2 (Z.leb_le 0 i)), (proj2 (Z.leb_le i NDIRECT)) by lia.
  - apply po_bind, po_getd. cbn [id]. fold x. rewrite Hr. apply po_bind. eapply po_evals; [exact Ea|].
    apply po_bind, po_getd. cbn [id]. rewrite Ex, Yv, Hv. cbn [when].
    apply po_ret. split; [done|]. unfold ilocked. rewrite <- Ey, Yv, Hv. split; [exact I1|]. apply Z.eqb_neq in Hv.
    split; [|done]. by split.
Qed.

(** [ilock] locks an inode of the table; when the entry is not valid it reads the
    fields from the inode's place on the disk.  An entry without references and an
    inode that is free on the disk are panics. *)
Theorem ilock_correct d ip (x := d.(itable) ip) (b := IBLOCK x.(i_inum) d.(sb)) :
  txn d -> self kt p pid d -> x.(i_dev) = ROOTDEV -> x.(i_lock).(sl_locked) = 0 ->
  if x.(i_ref) <? 1 then evals_panic l0 L d (ilock (Some ip)) "ilock"
  else if (x.(i_valid) =? 0) && (di_type (ldisk d b) (ioff x.(i_inum)) =? 0)
    then evals_panic l0 L d (ilock (Some ip)) "ilock: no type"
  else pst l0 L d (ilock (Some ip)) (fun _ d' =>
    isame ip (ilocked d x) d d' /\ txn_same d d' /\
    (x.(i_valid) = 0 -> stored (ldisk d b) (ioff x.(i_inum)) (d'.(itable) ip))).
Proof. apply ilock_spec. Qed.

(** ** The contents of a file *)

(** The block of the file's block [bn], zero if there is none. *)
Definition faddr (V : Z -> bytes) (x : inode) (bn : Z) : Z :=
  if bn <? NDIRECT then x.(i_addrs) bn
  else if x.(i_addrs) NDIRECT =? 0 then 0 else load32 (V (x.(i_addrs) NDIRECT)) (4 * (bn - NDIRECT)).

(** The byte of the file at offset [off]. *)
Definition fbyte (V : Z -> bytes) (x : inode) (off : Z) : Z :=
  V (faddr V x (off / BSIZE)) (off mod BSIZE).

(** Every block below the size of the file is allocated. *)
Record file_ok (V : Z -> bytes) (x : inode) : Prop := {
  fo_dev : x.(i_dev) = ROOTDEV;
  fo_size : 0 <= x.(i_size) <= MAXFILE * BSIZE;
  fo_mapped : forall bn, 0 <= bn -> bn * BSIZE < x.(i_size) -> faddr V x bn <> 0;
}.

Lemma po_bmap d ip bn (x := d.(itable) ip) :
  txn d -> self kt p pid d -> x.(i_dev) = ROOTDEV -> 0 <= bn < MAXFILE -> faddr (ldisk d) x bn <> 0 ->
  pst l0 L d (bmap ip bn) (fun a d' => a = faddr (ldisk d) x bn /\ txn_same d d' /\ fsame d d').
Proof.
  intros Ht Hs Hdev Hbn Ha. unfold bmap. apply po_bind, po_getd. fold x. unfold faddr in *.
  assert (txn_same d d /\ fsame d d) as Hd by (split; [by split|done]).
  destruct (bn <? NDIRECT) eqn:E1.
  { apply po_bind, po_getd. fold x. rewrite (proj2 (Z.eqb_neq _ _) Ha). by apply po_ret. }
  cbn zeta. apply Z.ltb_ge in E1. rewrite (proj2 (Z.ltb_lt (bn - NDIRECT) NINDIRECT)) by (unfold MAXFILE in *; lia).
  apply po_bind, po_getd. fold x. destruct (x.(i_addrs) NDIRECT =? 0); [done|]. set (ia := x.(i_addrs) NDIRECT) in *.
  apply po_bind, po_ret. rewrite Hdev.
  destruct (ev_txn_bread l0 L kt p pid Henv d ia Ht Hs) as (bp & d1 & o & E & Hi & P).
  pose proof (proj1 (rp_same _ _ _ _ _ _ _ P)) as F1.
  apply po_bind. eapply po_evals; [exact E|]. apply po_bind, po_getd. rewrite (rp_data _ _ _ _ _ _ _ P).
  change (bview d ROOTDEV ia) with (ldisk d ia). rewrite (proj2 (Z.eqb_neq _ _) Ha).
  apply po_bind. eapply po_call; [eapply (po_txn_brelse l0 L kt p pid Henv d o ia bp d1 d1); try done; by eapply self_fsame|].
  intros [] d2 [S2 F2]. apply po_ret. split; [done|]. split; [done|]. split; [done|by etrans].
Qed.

Lemma fbyte_same d d' x off : txn_same d d' -> fbyte (ldisk d') x off = fbyte (ldisk d) x off.
Proof. intros S. unfold fbyte, faddr. by rewrite !(tm_disk _ _ S). Qed.

Lemma file_ok_same d d' x : txn_same d d' -> file_ok (ldisk d) x -> file_ok (ldisk d') x.
Proof.
  intros S [H1 H2 H3]. split; [done|done|]. intros bn Hb Hs. unfold faddr. rewrite !(tm_disk _ _ S).
  by apply H3.
Qed.

(** One more byte range read: bytes [off, off + m) lie in one block. *)
Lemma fbyte_block V x off j :
  0 <= off -> 0 <= j -> off mod BSIZE + j < BSIZE -> fbyte V x (off + j) = V (faddr V x (off / BSIZE)) (off mod BSIZE + j).
Proof.
  change BSIZE with 1024. intros Ho Hj Hm. unfold fbyte. change BSIZE with 1024.
  replace ((off + j) / 1024) with (off / 1024) by (Z.div_mod_to_equations; lia).
  replace ((off + j) mod 1024) with (off mod 1024 + j) by (Z.div_mod_to_equations; lia). done.
Qed.

(** The contents [off, off + n) of the file, at [a] in the object [dm]. *)
Definition file_bytes (V : Z -> bytes) (x : inode) (off n a : Z) (dm : bytes) (i : Z) : Z :=
  if (a <=? i) && (i <? a + n) then fbyte V x (off + (i - a)) else dm i.

Lemma file_bytes_step V x off n m a dm i :
  0 <= off -> 0 <= m <= n -> off mod BSIZE + m <= BSIZE ->
  file_bytes V x (off + m) (n - m) (a + m)
    (memmove_across dm a (V (faddr V x (off / BSIZE))) (off mod BSIZE) m) i = file_bytes V x off n a dm i.
Proof.
  intros Ho Hm Hb. unfold file_bytes. rewrite memmove_across_spec by lia.
  destruct ((a <=? i) && (i <? a + n)) eqn:E1.
  - destruct ((a + m <=? i) && _) eqn:E2; [f_equal; lia|]. destruct ((a <=? i) && (i <? a + m)) eqn:E3; [|lia].
    by rewrite fbyte_block by lia.
  - destruct ((a + m <=? i) && _) eqn:E2; [lia|]. destruct ((a <=? i) && (i <? a + m)) eqn:E3; [lia|done].
Qed.

Lemma fsame_pagetable d e q : fsame d e -> (e.(procs) q).(p_pagetable) = (d.(procs) q).(p_pagetable).
Proof. intros [_ P _]. by destruct (P q) as [f ->]. Qed.

Lemma fsame_mem d e m : fsame d e -> fsame (d <| mem := m |>) (e <| mem := m |>).
Proof.
  intros [R P K]. split; [|exact P|exact K]. etrans; [exact (f_equal (fun y => y <| mem := m |>) R)|]. done.
Qed.

Lemma ev_copyout_obj d a dm sm src n : self kt p pid d ->
  evals l0 L d (either_copyout (kobj a) dm sm src n) (0, memmove_across dm a sm src n) L d.
Proof.
  intros Hs. unfold either_copyout. ev1. { eapply ev_myproc; [apply (fe_run _ _ _ Henv)|apply Hs]. } cbn beta. ev1.
Qed.

(** A round of [readi]: the block is read, its bytes are copied out, which may change the
    memory, and the buffer is released. *)
Lemma po_readi_round fuel d ip dst dm off n tot Q (x := d.(itable) ip)
    (ad := faddr (ldisk d) x (off / BSIZE)) (m := Z.min (n - tot) (BSIZE - off mod BSIZE)) :
  txn d -> self kt p pid d -> file_ok (ldisk d) x -> 0 <= off -> tot < n -> off + (n - tot) <= x.(i_size) ->
  (forall e, fsame d e -> exists r m',
     evals l0 L e (either_copyout dst dm (ldisk d ad) (off mod BSIZE) m) r L (e <| mem := m' |>) /\
     forall d', txn_same d d' -> fsame (d <| mem := m' |>) d' ->
       if r.1 =? -1 then Q (-1, r.2) L d'
       else posts l0 L d' (readi_loop fuel ip (cptr_add dst m) r.2 (off + m) n (tot + m)) Q) ->
  posts l0 L d (readi_loop (S fuel) ip dst dm off n tot) Q.
Proof.
  intros Ht Hs Hf Ho Hlt Hsz Hcopy. cbn [readi_loop]. rewrite (proj2 (Z.ltb_lt _ _) Hlt).
  assert (0 <= off mod BSIZE < BSIZE) as Hm by by apply Z.mod_pos_bound.
  pose proof (fo_size _ _ Hf) as Hmax. set (bn := off / BSIZE) in *.
  assert (0 <= bn /\ bn * BSIZE < x.(i_size) /\ bn < MAXFILE) as (B1 & B2 & B3).
  { unfold bn, MAXFILE in *. change BSIZE with 1024 in *. change (NDIRECT + NINDIRECT) with 268 in *.
    Z.div_mod_to_equations. lia. }
  pose proof (fo_mapped _ _ Hf bn B1 B2) as Hnz.
  apply po_bind. eapply po_call; [apply po_bmap; try done; apply (fo_dev _ _ Hf)|].
  intros ad' d1 (-> & S1 & F1). fold x ad. change (ad <> 0) in Hnz. rewrite (proj2 (Z.eqb_neq _ _) Hnz).
  apply po_bind, po_getd. rewrite (fsame_itable _ _ F1). fold x. rewrite (fo_dev _ _ Hf). fold m.
  assert (self kt p pid d1) as Hs1 by by eapply self_fsame.
  destruct (ev_txn_bread l0 L kt p pid Henv d1 ad (tm_txn _ _ S1) Hs1) as (bp & d2 & o & E & Hi & P).
  pose proof (proj1 (rp_same _ _ _ _ _ _ _ P)) as F2. assert (fsame d d2) as F by by etrans.
  apply po_bind. eapply po_evals; [exact E|]. apply po_bind, po_getd. rewrite (rp_data _ _ _ _ _ _ _ P).
  change (bview d1 ROOTDEV ad) with (ldisk d1 ad). rewrite (tm_disk _ _ S1).
  destruct (Hcopy d2 F) as (r & m' & Ec & Hgo). apply po_bind. eapply po_evals; [exact Ec|].
  assert (u32 (off + m) = off + m) as Eu.
  { apply u32_small. unfold MAXFILE in Hmax. change BSIZE with 1024 in *. change (NDIRECT + NINDIRECT) with 268 in *. lia. }
  assert (pst l0 L (d2 <| mem := m' |>) (brelse bp) (fun _ d' => txn_same d d' /\ fsame (d <| mem := m' |>) d')) as Hrel.
  { eapply po_mono; [apply (po_txn_brelse l0 L kt p pid Henv d1 o ad bp d2); [apply (tm_txn _ _ S1)|done|done|by split|exact (self_fsame _ _ _ _ _ F2 Hs1)]|].
    intros [] L' d' [-> [S3 F3]]. split; [done|]. split; [by eapply txn_same_trans|]. etrans; [|exact F3]. by apply fsame_mem. }
  destruct (r.1 =? -1); apply po_bind; (eapply po_call; [exact Hrel|]); intros [] d' [S3 F3].
  - apply po_ret. by apply Hgo.
  - rewrite Eu. by apply Hgo.
Qed.

(** The fuel that is left after a round of [m] bytes. *)
Lemma round_fuel off k m (fuel : nat) : m = Z.min k (BSIZE - off mod BSIZE) -> m < k ->
  off mod BSIZE + k <= Z.of_nat (S fuel) * BSIZE -> (off + m) mod BSIZE + (k - m) <= Z.of_nat fuel * BSIZE.
Proof.
  intros Em Hlt Hfu. assert (m = BSIZE - off mod BSIZE) as -> by lia.
  replace (off + (BSIZE - off mod BSIZE)) with ((off / BSIZE + 1) * BSIZE)
    by (pose proof (Z.div_mod off BSIZE); change BSIZE with 1024 in *; lia).
  rewrite Z_mod_mult. rewrite Nat2Z.inj_succ in Hfu. lia.
Qed.

Lemma po_readi_loop fuel d ip a dm off n tot (x := d.(itable) ip) :
  txn d -> self kt p pid d -> file_ok (ldisk d) x -> 0 <= off -> 0 <= tot <= n -> off + (n - tot) <= x.(i_size) ->
  (tot < n -> off mod BSIZE + (n - tot) <= Z.of_nat fuel * BSIZE) ->
  pst l0 L d (readi_loop fuel ip (kobj a) dm off n tot) (fun r d' => txn_same d d' /\ fsame d d' /\
    r.1 = n /\ forall i, r.2 i = file_bytes (ldisk d) x off (n - tot) a dm i).
Proof.
  revert d a dm off tot x. induction fuel as [|fuel IH]; intros d a dm off tot x Ht Hs Hf Ho Htot Hsz Hfu;
    (destruct (Z.ltb_spec tot n) as [Hlt|Hge];
      [|cbn [readi_loop]; rewrite (proj2 (Z.ltb_ge _ _) Hge); apply po_ret; split; [done|]; split; [by split|]; split; [done|]; split; [cbn; lia|];
        intros i; unfold file_bytes; cbn; destruct (_ && _) eqn:E; [lia|done]]); specialize (Hfu Hlt);
    pose proof (Z.mod_pos_bound off BSIZE ltac:(done)) as Hm.
  { change BSIZE with 1024 in *. lia. }
  set (m := Z.min (n - tot) (BSIZE - off mod BSIZE)). assert (0 <= m <= n - tot /\ off mod BSIZE + m <= BSIZE) as [M1 M2] by lia.
  apply po_readi_round; try done. fold x m. intros e F. eexists _, d.(mem).
  assert (e.(mem) = d.(mem)) as Em by by rewrite (wk_rest _ _ F).
  split. { eapply evals_eq; [apply ev_copyout_obj; by eapply self_fsame|done|done|]. rewrite <- Em. by destruct e. }
  cbn [fst snd]. change (0 =? -1) with false. cbv iota. cbn [cptr_add]. intros d3 S. replace (d <| mem := d.(mem) |>) with d by by destruct d.
  intros F3. assert (d3.(itable) ip = x) as Ex by by rewrite (fsame_itable _ _ F3).
  eapply po_mono; [apply IH; rewrite ?Ex; try lia|].
  - apply (tm_txn _ _ S).
  - by eapply self_fsame.
  - by eapply file_ok_same.
  - intros Hlt2. replace (n - (tot + m)) with (n - tot - m) by lia. apply round_fuel; [done|lia|done].
  - intros r L' d' [-> (S4 & F4 & R1 & R2)]. split; [done|]. split; [by eapply txn_same_trans|]. split; [by etrans|].
    split; [done|]. intros i. rewrite R2, Ex.
    rewrite <- (file_bytes_step (ldisk d) x off (n - tot) m a dm i) by lia. unfold file_bytes.
    replace (n - (tot + m)) with (n - tot - m) by lia. destruct (_ && _); [by apply fbyte_same|done].
Qed.

(** The number of bytes that [readi] delivers. *)
Definition read_len (size off n : Z) : Z := if size <? off then 0 else Z.min n (size - off).

Lemma readi_fuel off k : 0 <= off -> 0 <= k -> off mod BSIZE + k <= Z.of_nat (Z.to_nat (k / BSIZE + 2)) * BSIZE.
Proof.
  intros Ho Hk. rewrite Z2Nat.id; [|assert (0 <= k / BSIZE) by (by apply Z.div_pos); lia].
  pose proof (Z.mod_pos_bound off BSIZE). pose proof (Z.div_mod k BSIZE). pose proof (Z.mod_pos_bound k BSIZE).
  change BSIZE with 1024 in *. lia.
Qed.

(** [readi] is its loop for the bytes that there are. *)
Lemma po_readi_len d ip dst dm off n (R : Z * bytes -> kdata -> Prop) (x := d.(itable) ip) (k := read_len x.(i_size) off n) :
  file_ok (ldisk d) x -> 0 <= off -> 0 <= n -> off + n < 2 ^ 32 ->
  (x.(i_size) < off -> k = 0 -> R (0, dm) d) ->
  (forall fuel, 0 <= k <= n -> off + (k - 0) <= x.(i_size) -> (0 < k -> off mod BSIZE + (k - 0) <= Z.of_nat fuel * BSIZE) ->
   pst l0 L d (readi_loop fuel ip dst dm off k 0) (fun r d' => -1 <= r.1 <= k /\ R r d')) ->
  pst l0 L d (readi ip dst dm off n) R.
Proof.
  intros Hf Ho Hn Hon H0 Hloop. unfold readi. apply po_bind, po_getd. fold x. rewrite (u32_small (off + n)) by lia.
  rewrite (proj2 (Z.ltb_ge (off + n) off)) by lia. rewrite orb_false_r. unfold read_len in k.
  pose proof (fo_size _ _ Hf) as Hmax. unfold MAXFILE in Hmax. change (_ * BSIZE) with 274432 in Hmax.
  destruct (Z.ltb_spec x.(i_size) off) as [Hlt|Hge]; [apply po_ret; split; [done|by apply H0]|].
  cbn zeta. replace (if x.(i_size) <? off + n then u32 (x.(i_size) - off) else n) with k.
  2: { unfold k. destruct (Z.ltb_spec x.(i_size) (off + n)); [rewrite u32_small by lia|]; lia. }
  apply po_bind. eapply po_call; [apply Hloop; [lia|lia|]|].
  - intros _. rewrite Z.sub_0_r. apply readi_fuel; [lia|unfold k; lia].
  - intros [r dm'] d' [Hr HR]. cbn [fst snd] in *. apply po_ret. rewrite s32_small by (unfold k in Hr; lia). done.
Qed.

Lemma file_bytes_none V x off a dm i : file_bytes V x off 0 a dm i = dm i.
Proof. unfold file_bytes. destruct (_ && _) eqn:E; [lia|done]. Qed.

Lemma po_readi d ip a dm off n (x := d.(itable) ip) (k := read_len x.(i_size) off n) :
  txn d -> self kt p pid d -> file_ok (ldisk d) x -> 0 <= off -> 0 <= n -> off + n < 2 ^ 32 ->
  pst l0 L d (readi ip (kobj a) dm off n) (fun r d' =>
    r.1 = k /\ (forall i, r.2 i = file_bytes (ldisk d) x off k a dm i) /\ txn_same d d' /\ fsame d d').
Proof.
  intros Ht Hs Hf Ho Hn Hon. apply po_readi_len; try done; fold x k.
  - intros _ ->. split; [done|]. split; [|by split]. intros i. by rewrite file_bytes_none.
  - intros fuel Hk Hsz Hfu. eapply po_mono; [apply po_readi_loop; try done; fold x; lia|].
    intros r L' d' [-> (S & F & -> & R2)]. rewrite Z.sub_0_r in *. split; [done|]. split; [lia|done].
Qed.
End inodes.

(** ** Reading into user memory *)

Section user.
Context `{KI : KernelImage} {KIok : KernelImageOk} `{WF : WaitFuel} `{DDok : DiskDriverOk} (l0 : lockst) (L : list lockptr).
Context (kt : kptr) (p : nat) (pid : Z).
Hypothesis Henv : fs_env l0 L kt.
Context (root : Z) (own : Z -> Prop) (fl : list Z).

(** From memory [m] to [m']: the [c] bytes [f 0], [f 1], ... are stored from the user
    address [a] on, and nothing else has changed. *)
Record ustored (f : Z -> Z) (a c : Z) (m m' : bytes) : Prop := {
  ust_own : uown m' root own fl;
  ust_addr : forall va, uaddr m' root va = uaddr m root va;
  ust_in : forall i, 0 <= i < c -> vread m' root (a + i) = Some (f i);
  ust_out : forall x, (forall i, 0 <= i < c -> uaddr m root (a + i) <> Some x) -> m' x = m x;
}.

Lemma ustored_ext f g a c m m' : (forall i, 0 <= i < c -> f i = g i) ->
  ustored f a c m m' -> ustored g a c m m'.
Proof. intros E [S1 S2 S3 S4]. split; try done. intros i Hi. rewrite S3, E by done. done. Qed.

Lemma ustored_nil f a m : uown m root own fl -> ustored f a 0 m m.
Proof. intros H. split; try done. lia. Qed.

Lemma ustored_app f a c1 c2 m m1 m2 : 0 <= a -> 0 <= c1 -> 0 <= c2 ->
  ustored f a c1 m m1 -> ustored (fun i => f (c1 + i)) (a + c1) c2 m1 m2 ->
  ustored f a (c1 + c2) m m2.
Proof.
  intros Ha H1 H2 [A1 A2 A3 A4] [B1 B2 B3 B4]. split.
  - done.
  - intros va. by rewrite B2.
  - intros i Hi. destruct (Z.lt_ge_cases i c1) as [Hlt|Hge].
    + pose proof (A3 i ltac:(lia)) as E. unfold vread in *. rewrite B2. destruct (uaddr m1 root (a + i)) as [x|] eqn:Ex; [|done].
      cbn in *. rewrite B4; [done|]. intros k Hk Ek. pose proof (uaddr_inj m1 root own fl (a + i) (a + c1 + k) x A1 ltac:(lia) ltac:(lia) Ex Ek). lia.
    + specialize (B3 (i - c1) ltac:(lia)). replace (a + c1 + (i - c1)) with (a + i) in B3 by lia. rewrite B3. do 2 f_equal. lia.
  - intros x Hx. rewrite B4, A4; [done|..].
    + intros i Hi. apply Hx. lia.
    + intros i Hi. rewrite A2. replace (a + c1 + i) with (a + (c1 + i)) by lia. apply Hx. lia.
Qed.


Lemma ev_copyout_user d a dm sm src n : self kt p pid d -> (d.(procs) p).(p_pagetable) = root ->
  uown d.(mem) root own fl -> 0 <= a -> 0 <= n -> a + n <= 2 ^ 63 ->
  exists r m c, evals l0 L d (either_copyout (uva a) dm sm src n) (r, dm) L (d <| mem := m |>) /\
    ustored (fun i => sm (src + i)) a c d.(mem) m /\
    (r = 0 /\ c = n \/ r = -1 /\ 0 <= c < n /\ uaddr d.(mem) root (a + c) = None).
Proof.
  intros Hs Hpt Hu Ha Hn Hmax. destruct (ev_copyout_loop l0 L (Z.to_nat n) root a sm src n d own fl)
    as (r & m & c & Hev & Hu' & Hua & Hc & Hin & Hout & Hr); [done|done|done|lia|].
  exists r, m, c. split.
  { unfold either_copyout. ev1. { eapply ev_myproc; [apply (fe_run _ _ _ Henv)|apply Hs]. } cbn beta. ev1. { apply ev_deref. } cbn beta.
    ev1. { apply ev_p_get. } cbn beta. rewrite Hpt. ev1; [exact Hev|]. cbn beta. ev1. }
  split; [by split|]. destruct Hr as [[-> ->]|(-> & ? & ?)]; [left|right]; repeat split; try done; lia.
Qed.

(** Into a page of the kernel's own memory, as [loadseg] does. *)
Lemma po_readi_loop_page fuel d ip a dm off n tot (x := d.(itable) ip) :
  txn d -> self kt p pid d -> file_ok (ldisk d) x -> 0 <= off -> 0 <= tot <= n -> off + (n - tot) <= x.(i_size) ->
  (tot < n -> off mod BSIZE + (n - tot) <= Z.of_nat fuel * BSIZE) ->
  pst l0 L d (readi_loop fuel ip (kva a) dm off n tot) (fun r d' => txn_same d d' /\ fsame (d <| mem := d'.(mem) |>) d' /\
    r.1 = n /\ r.2 = dm /\ forall i, d'.(mem) i = file_bytes (ldisk d) x off (n - tot) a d.(mem) i).
Proof.
  revert d a off tot x. induction fuel as [|fuel IH]; intros d a off tot x Ht Hs Hf Ho Htot Hsz Hfu;
    (destruct (Z.ltb_spec tot n) as [Hlt|Hge];
      [|cbn [readi_loop]; rewrite (proj2 (Z.ltb_ge _ _) Hge); apply po_ret; split; [done|]; split; [by split|];
        replace (d <| mem := d.(mem) |>) with d by (by destruct d); split; [done|]; split; [cbn; lia|]; split; [done|];
        intros i; unfold file_bytes; cbn; destruct (_ && _) eqn:E; [lia|done]]); specialize (Hfu Hlt);
    pose proof (Z.mod_pos_bound off BSIZE ltac:(done)) as Hm.
  { change BSIZE with 1024 in *. lia. }
  set (m := Z.min (n - tot) (BSIZE - off mod BSIZE)). assert (0 <= m <= n - tot /\ off mod BSIZE + m <= BSIZE) as [M1 M2] by lia.
  apply (po_readi_round l0 L kt p pid Henv); try done. fold x m. intros e F.
  assert (e.(mem) = d.(mem)) as Em by by rewrite (wk_rest _ _ F).
  exists (0, dm), (memmove_across d.(mem) a (ldisk d (faddr (ldisk d) x (off / BSIZE))) (off mod BSIZE) m).
  split. { unfold either_copyout. ev1. { eapply ev_myproc; [apply (fe_run _ _ _ Henv)|]. apply (self_fsame _ _ _ _ _ F Hs). } cbn beta.
    rewrite <- Em. ev1; [apply ev_modd|]. ev1. }
  cbn [fst snd]. change (0 =? -1) with false. cbv iota. cbn [cptr_add]. intros d3 S F3.
  assert (d3.(itable) ip = x) as Ex by by rewrite (fsame_itable _ _ F3).
  eapply po_mono; [apply IH; rewrite ?Ex; try lia|].
  - apply (tm_txn _ _ S).
  - exact (self_fsame _ _ _ _ _ F3 Hs).
  - by eapply file_ok_same.
  - intros Hlt2. replace (n - (tot + m)) with (n - tot - m) by lia. apply round_fuel; [done|lia|done].
  - intros r L' d' [-> (S4 & F4 & R1 & R2 & R3)]. split; [done|]. split; [by eapply txn_same_trans|].
    split; [etrans; [exact (fsame_mem _ _ d'.(mem) F3)|exact F4]|]. split; [done|]. split; [done|]. intros i. rewrite R3, Ex.
    assert (d3.(mem) = memmove_across d.(mem) a (ldisk d (faddr (ldisk d) x (off / BSIZE))) (off mod BSIZE) m) as -> by by rewrite (wk_rest _ _ F3).
    rewrite <- (file_bytes_step (ldisk d) x off (n - tot) m a d.(mem) i) by lia. unfold file_bytes.
    replace (n - (tot + m)) with (n - tot - m) by lia. destruct (_ && _); [by apply fbyte_same|done].
Qed.

(** What [readi] leaves after delivering [c] of [k] bytes. *)
Definition read_user (d : kdata) (f : Z -> Z) (a k : Z) (ok : Z) (r : Z) (d' : kdata) : Prop :=
  exists c, txn_same d d' /\ fsame (d <| mem := d'.(mem) |>) d' /\ ustored f a c d.(mem) d'.(mem) /\
    (r = ok /\ c = k \/ r = -1 /\ 0 <= c < k /\ uaddr d.(mem) root (a + c) = None).

Lemma po_readi_loop_user fuel d ip a dm off n tot (x := d.(itable) ip) :
  txn d -> self kt p pid d -> (d.(procs) p).(p_pagetable) = root -> uown d.(mem) root own fl ->
  file_ok (ldisk d) x -> 0 <= off -> 0 <= tot <= n -> off + (n - tot) <= x.(i_size) -> 0 <= a -> a + (n - tot) <= 2 ^ 63 ->
  (tot < n -> off mod BSIZE + (n - tot) <= Z.of_nat fuel * BSIZE) ->
  pst l0 L d (readi_loop fuel ip (uva a) dm off n tot) (fun r d' =>
    r.2 = dm /\ read_user d (fun i => fbyte (ldisk d) x (off + i)) a (n - tot) n r.1 d').
Proof.
  revert d a off tot x. induction fuel as [|fuel IH]; intros d a off tot x Ht Hs Hpt Hu Hf Ho Htot Hsz Ha Hmax Hfu;
    (destruct (Z.ltb_spec tot n) as [Hlt|Hge];
      [|cbn [readi_loop]; rewrite (proj2 (Z.ltb_ge _ _) Hge); apply po_ret; split; [done|]; split; [done|]; exists 0;
        replace (d <| mem := d.(mem) |>) with d by (by destruct d); split; [by split|]; split; [done|]; split; [by apply ustored_nil|];
        left; cbn; lia]); specialize (Hfu Hlt);
    pose proof (Z.mod_pos_bound off BSIZE ltac:(done)) as Hm.
  { change BSIZE with 1024 in *. lia. }
  set (m := Z.min (n - tot) (BSIZE - off mod BSIZE)). assert (0 < m <= n - tot /\ off mod BSIZE + m <= BSIZE) as [M1 M2] by lia.
  apply (po_readi_round l0 L kt p pid Henv); try done. fold x m. intros e F.
  assert (e.(mem) = d.(mem)) as Em by by rewrite (wk_rest _ _ F).
  destruct (ev_copyout_user e a dm (ldisk d (faddr (ldisk d) x (off / BSIZE))) (off mod BSIZE) m) as (r & m' & c & Hev & Hst & Hr);
    [by eapply self_fsame|by rewrite (fsame_pagetable _ _ _ F)|by rewrite Em|done|lia|lia|].
  rewrite Em in Hst, Hr. exists (r, dm), m'. split; [exact Hev|]. cbn [fst snd]. intros d3 S F3.
  assert (d3.(mem) = m') as E3 by by rewrite (wk_rest _ _ F3).
  apply (ustored_ext _ (fun i => fbyte (ldisk d) x (off + i))) in Hst.
  2: { intros i Hi. rewrite fbyte_block; [done|lia|lia|lia]. }
  destruct Hr as [[-> ->]|(-> & Hc & Hn)].
  - change (0 =? -1) with false. cbv iota. cbn [cptr_add]. rewrite u64_small by lia.
    assert (d3.(itable) ip = x) as Ex by by rewrite (fsame_itable _ _ F3).
    eapply po_mono; [apply IH; rewrite ?Ex, ?E3; try lia|].
    + apply (tm_txn _ _ S).
    + exact (self_fsame _ _ _ _ _ F3 Hs).
    + by rewrite (fsame_pagetable _ _ _ F3).
    + apply Hst.
    + by eapply file_ok_same.
    + intros Hlt2. replace (n - (tot + m)) with (n - tot - m) by lia. apply round_fuel; [done|lia|done].
    + intros r L' d' [-> (R2 & c & S4 & F4 & Hst2 & Hr)]. split; [done|]. split; [done|]. rewrite E3, Ex in *.
      assert (0 <= c) as Hc by lia. exists (m + c). split; [by eapply txn_same_trans|]. split; [|split].
      * etrans; [exact (fsame_mem _ _ d'.(mem) F3)|exact F4].
      * apply (ustored_app _ a m c d.(mem) m'); [lia..|done|]. eapply ustored_ext; [|exact Hst2].
        intros i Hi. cbn. rewrite (fbyte_same d d3) by done. f_equal. lia.
      * destruct Hr as [[-> ->]|(-> & ? & Hn)]; [left; lia|right]. split; [done|]. split; [lia|].
        rewrite (ust_addr _ _ _ _ _ Hst) in Hn. by replace (a + (m + c)) with (a + m + c) by lia.
  - change (-1 =? -1) with true. cbv iota. split; [done|]. split; [done|]. exists c. rewrite E3. split; [done|]. split; [done|]. split; [done|].
    right. split; [done|]. split; [lia|done].
Qed.
Lemma po_readi_user d ip a dm off n (x := d.(itable) ip) (k := read_len x.(i_size) off n) :
  txn d -> self kt p pid d -> (d.(procs) p).(p_pagetable) = root -> uown d.(mem) root own fl ->
  file_ok (ldisk d) x -> 0 <= off -> 0 <= n -> off + n < 2 ^ 32 -> 0 <= a -> a + n <= 2 ^ 63 ->
  pst l0 L d (readi ip (uva a) dm off n) (fun r d' =>
    r.2 = dm /\ read_user d (fun i => fbyte (ldisk d) x (off + i)) a k k r.1 d').
Proof.
  intros Ht Hs Hpt Hu Hf Ho Hn Hon Ha Hmem. apply po_readi_len; try done; fold x k.
  - intros _ ->. split; [done|]. exists 0. replace (d <| mem := d.(mem) |>) with d by (by destruct d).
    split; [by split|]. split; [done|]. split; [by apply ustored_nil|by left].
  - intros fuel Hk Hsz Hfu. eapply po_mono; [apply po_readi_loop_user; try done; fold x; lia|].
    intros r L' d' [-> (R2 & c & S & F & Hst & Hr)]. rewrite Z.sub_0_r in *. split; [done|]. split; [lia|]. split; [done|]. by exists c.
Qed.

Lemma po_readi_page d ip a dm off n (x := d.(itable) ip) (k := read_len x.(i_size) off n) :
  txn d -> self kt p pid d -> file_ok (ldisk d) x -> 0 <= off -> 0 <= n -> off + n < 2 ^ 32 ->
  pst l0 L d (readi ip (kva a) dm off n) (fun r d' =>
    r.1 = k /\ (forall i, d'.(mem) i = file_bytes (ldisk d) x off k a d.(mem) i) /\
    txn_same d d' /\ fsame (d <| mem := d'.(mem) |>) d').
Proof.
  intros Ht Hs Hf Ho Hn Hon. apply po_readi_len; try done; fold x k.
  - intros _ ->. replace (d <| mem := d.(mem) |>) with d by (by destruct d).
    split; [done|]. split; [|by split]. intros i. by rewrite file_bytes_none.
  - intros fuel Hk Hsz Hfu. eapply po_mono; [apply po_readi_loop_page; try done; fold x; lia|].
    intros r L' d' [-> (S & F & -> & R2 & R3)]. rewrite Z.sub_0_r in *. split; [done|]. split; [lia|done].
Qed.

End user.
