(* ===== verification/DirSpec.v ===== *)
(** * What kernel/fs.c guarantees: the inode table and directories

    [iget] finds or makes the one entry of the table for an inode; [dirlookup] finds
    the first entry of a directory with a name. *)
From S2P Require Export VmSpec InodeSpec.

(** ** The inode table *)

(** No inode has two entries. *)
Definition itable_ok (t : nat -> inode) : Prop :=
  (forall i, (i < NINODE)%nat -> 0 <= (t i).(i_ref)) /\
  forall i j, (i < NINODE)%nat -> (j < NINODE)%nat -> 0 < (t i).(i_ref) -> 0 < (t j).(i_ref) ->
    (t i).(i_dev) = (t j).(i_dev) -> (t i).(i_inum) = (t j).(i_inum) -> i = j.

Definition refers (x : inode) (dev inum : Z) : bool :=
  (0 <? x.(i_ref)) && (x.(i_dev) =? dev) && (x.(i_inum) =? inum).

Lemma refers_spec x dev inum : refers x dev inum = true <-> 0 < x.(i_ref) /\ x.(i_dev) = dev /\ x.(i_inum) = inum.
Proof. unfold refers. rewrite !andb_true_iff, Z.ltb_lt, !Z.eqb_eq. tauto. Qed.

Lemma iget_scan_spec (t : nat -> inode) dev inum (l : list nat) empty :
  (forall e, empty = Some e -> (t e).(i_ref) = 0) ->
  match iget_scan t dev inum empty l with
  | inl ip => ip ∈ l /\ refers (t ip) dev inum = true
  | inr (Some ip) => (ip ∈ l \/ empty = Some ip) /\ (t ip).(i_ref) = 0 /\
      forall j, j ∈ l -> refers (t j) dev inum = false
  | inr None => empty = None /\ forall j, j ∈ l -> refers (t j) dev inum = false /\ (t j).(i_ref) <> 0
  end.
Proof.
  revert empty. induction l as [|j l IH]; intros empty He; cbn [iget_scan].
  { destruct empty as [e|]; [split; [by right|]; split; [by apply He|]|split; [done|]]; intros j Hj; by apply elem_of_nil in Hj. }
  fold (refers (t j) dev inum). destruct (refers (t j) dev inum) eqn:E; [split; [by left|done]|].
  set (em := if bool_decide (empty = None) && ((t j).(i_ref) =? 0) then Some j else empty).
  assert ((em = Some j /\ empty = None /\ (t j).(i_ref) = 0) \/ (em = empty /\ (empty = None -> (t j).(i_ref) <> 0))) as Hem.
  { unfold em. destruct empty as [e|]; cbn; [by right|]. destruct (Z.eqb_spec (t j).(i_ref) 0); [by left|by right]. }
  specialize (IH em). destruct (iget_scan t dev inum em l) as [ip|[ip|]].
  - destruct IH as [H1 H2]; [|split; [by right|done]]. intros e Ee. destruct Hem as [(E1 & _ & E0)|[E1 _]]; [by simplify_eq|].
    apply He. congruence.
  - destruct IH as (H1 & H2 & H3). { intros e Ee. destruct Hem as [(E1 & _ & E0)|[E1 _]]; [by simplify_eq|]. apply He. congruence. }
    split; [|split; [done|]].
    + destruct H1 as [H1|H1]; [left; by right|]. destruct Hem as [(E1 & _ & _)|[E1 _]]; [left; simplify_eq; by left|right; congruence].
    + intros k [->|Hk]%elem_of_cons; [done|by apply H3].
  - destruct IH as [H1 H2]. { intros e Ee. destruct Hem as [(E1 & _ & E0)|[E1 _]]; [by simplify_eq|]. apply He. congruence. }
    destruct Hem as [(E1 & _ & _)|[E1 E2]]; [congruence|]. rewrite E1 in H1. split; [done|].
    intros k [->|Hk]%elem_of_cons; [split; [done|by apply E2]|by apply H2].
Qed.

(** The entry that [iget] returns and what it leaves in it. *)
Definition iget_entry (t : nat -> inode) (dev inum : Z) : option (nat * inode) :=
  match iget_scan t dev inum None all_inodes with
  | inl ip => Some (ip, t ip <| i_ref ::= fun n => n + 1 |>)
  | inr (Some ip) => Some (ip, t ip <| i_dev := dev |> <| i_inum := inum |> <| i_ref := 1 |> <| i_valid := 0 |>)
  | inr None => None
  end.

Lemma iget_entry_spec t dev inum :
  match iget_entry t dev inum with
  | Some (ip, y) => (ip < NINODE)%nat /\ refers y dev inum = true /\
      y.(i_ref) = (if refers (t ip) dev inum then (t ip).(i_ref) else 0) + 1 /\
      (forall j, (j < NINODE)%nat -> refers (t j) dev inum = true -> itable_ok t -> j = ip)
  | None => forall j, (j < NINODE)%nat -> refers (t j) dev inum = false /\ (t j).(i_ref) <> 0
  end.
Proof.
  unfold iget_entry. pose proof (iget_scan_spec t dev inum all_inodes None ltac:(done)) as H.
  assert (forall j, j ∈ all_inodes <-> (j < NINODE)%nat) as Ha.
  { intros j. unfold all_inodes. rewrite elem_of_seq. lia. }
  destruct (iget_scan _ _ _ _ _) as [ip|[ip|]].
  - destruct H as [H1%Ha H2]. split; [done|]. rewrite H2. apply refers_spec in H2 as H2'. destruct H2' as (R & D & N).
    split; [apply refers_spec; cbn; lia|]. split; [done|]. intros j Hj (Rj & Dj & Nj)%refers_spec [_ Hu]. apply Hu; congruence.
  - destruct H as ([H1%Ha|?] & H2 & H3); [|done]. split; [done|]. split; [by apply refers_spec|].
    split; [cbn; rewrite (H3 ip) by (by apply Ha); lia|]. intros j Hj Hr. by rewrite (H3 j) in Hr by (by apply Ha).
  - intros j Hj%Ha. by apply H.
Qed.

(** The table stays free of duplicates. *)
Lemma iget_entry_ok t t' dev inum ip y :
  itable_ok t -> iget_entry t dev inum = Some (ip, y) -> t' ip = y -> (forall j, j <> ip -> t' j = t j) -> itable_ok t'.
Proof.
  intros Ht E Ey Eo. pose proof (iget_entry_spec t dev inum) as H. rewrite E in H. destruct H as (Hip & R & Rf & Hu).
  apply refers_spec in R as (R & D & N). destruct Ht as [Hr Hx].
  assert (forall j, (j < NINODE)%nat -> j <> ip -> 0 < (t j).(i_ref) -> (t j).(i_dev) = dev -> (t j).(i_inum) = inum -> False) as Hno.
  { intros j Hj Hne R1 D1 N1. apply Hne, Hu; [done|by apply refers_spec|by split]. }
  split.
  - intros i Hi. destruct (decide (i = ip)) as [->|Hne]; [rewrite Ey; lia|]. rewrite Eo by done. by apply Hr.
  - intros i j Hi Hj. destruct (decide (i = ip)) as [->|Ni], (decide (j = ip)) as [->|Nj]; [done|..]; rewrite ?Ey, ?Eo by done.
    + intros _ R2 D2 N2. destruct (Hno j); congruence.
    + intros R1 _ D1 N1. destruct (Hno i); congruence.
    + by apply Hx.
Qed.

Section dirs.
Context `{KI : KernelImage} `{WF : WaitFuel} `{DDok : DiskDriverOk} (l0 : lockst) (L : list lockptr).
Context (kt : kptr) (p : nat) (pid : Z).
Hypothesis Henv : fs_env l0 L kt.
Hypothesis Hlk : itable_lock ∉ L.
Hypothesis Hfree : lfree l0 itable_lock.

Lemma po_iget d dev inum ip y : iget_entry d.(itable) dev inum = Some (ip, y) ->
  pst l0 L d (iget dev inum) (fun r d' => r = ip /\ isame ip y d d' /\ fs_eq d d').
Proof.
  unfold iget_entry, iget. intros E. apply po_bind, po_acquire; [done|done|]. apply po_bind, po_getd.
  destruct (iget_scan _ _ _ _ _) as [i|[i|]]; simplify_eq.
  - apply po_bind, po_modd, po_bind. apply (po_release _ _ _ L); [done|]. apply po_ret. split; [done|]. split; [done|].
    split; [apply (isame_upd ip (fun x => x <| i_ref ::= fun n => n + 1 |>))|done].
  - apply po_bind, po_modd, po_bind, po_modd, po_bind, po_modd, po_bind, po_modd, po_bind.
    apply (po_release _ _ _ L); [done|]. apply po_ret. split; [done|]. split; [done|]. split; [|done].
    set (d1 := upd_inode ip _ d). pose proof (isame_upd ip (fun x => x <| i_dev := dev |>) d) as I1. fold d1 in I1.
    set (d2 := upd_inode ip _ d1). pose proof (isame_upd ip (fun x => x <| i_inum := inum |>) d1) as I2. fold d2 in I2.
    set (d3 := upd_inode ip _ d2). pose proof (isame_upd ip (fun x => x <| i_ref := 1 |>) d2) as I3. fold d3 in I3.
    pose proof (isame_upd ip (fun x => x <| i_valid := 0 |>) d3) as I4.
    rewrite (is_entry _ _ _ _ I3), (is_entry _ _ _ _ I2), (is_entry _ _ _ _ I1) in I4.
    eapply isame_trans; [|exact I4]. eapply isame_trans; [|exact I3]. by eapply isame_trans.
Qed.

Lemma ev_iget_full d dev inum : iget_entry d.(itable) dev inum = None -> evals_panic l0 L d (iget dev inum) "iget: no inodes".
Proof.
  unfold iget_entry, iget. intros E. eapply ev_bind_panic. { ev1. } cbn beta. eapply ev_bind_panic; [apply ev_getd|].
  cbn beta. destruct (iget_scan _ _ _ _ _) as [i|[i|]]; [done|done|]. ev1.
Qed.

(** ** Directories *)

(** The 16 bytes of the directory entry at offset [off]. *)
Definition dirent_at (V : Z -> bytes) (x : inode) (off : Z) : bytes :=
  file_bytes V x off sizeof_dirent 0 (fun _ => 0).

(** The entry at [off] is in use and has the name. *)
Definition dir_hit (V : Z -> bytes) (x : inode) (name : bytes) (off : Z) : Prop :=
  de_inum (dirent_at V x off) <> 0 /\ str_agree DIRSIZ name 0 (dirent_at V x off) 2.

Definition byte_data (m : bytes) : Prop := forall i, 0 <= m i < 256.

(** A directory in the table: its inode and its contents. *)
Record dir_ok (V : Z -> bytes) (x : inode) : Prop := {
  do_file : file_ok V x;
  do_type : x.(i_type) = T_DIR;
  do_size : x.(i_size) mod sizeof_dirent = 0;
  do_bytes : forall z, byte_data (V z);
}.

(** The body of the loop of [dirlookup]. *)
Definition dir_step (dp : nat) (name : bytes) (off : Z) : M (option (nat * Z)) :=
  r ← readi dp (kobj 0) (fun _ => 0) off sizeof_dirent;
  if negb (r.1 =? sizeof_dirent) then panic "dirlookup read" else
  let de := r.2 in
  if de_inum de =? 0 then mret None else
  if namecmp name 0 de 2 =? 0 then
    dev ← i_get dp i_dev;
    ip ← iget dev (de_inum de);
    mret (Some (ip, off))
  else mret None.

Lemma dirent_bytes V x off : (forall z, byte_data (V z)) -> byte_data (dirent_at V x off).
Proof. intros H i. unfold dirent_at, file_bytes. destruct (_ && _); [apply H|lia]. Qed.

Lemma namecmp_zero name V x off de : byte_data name -> (forall z, byte_data (V z)) ->
  (forall i, de i = dirent_at V x off i) -> (namecmp name 0 de 2 =? 0) = true <-> str_agree DIRSIZ name 0 (dirent_at V x off) 2.
Proof.
  intros Hn Hv He. rewrite Z.eqb_eq. unfold namecmp, strncmp.
  rewrite strncmp_loop_zero; [|done|intros i; rewrite He; by apply dirent_bytes].
  rewrite Z2Nat.id by done. unfold str_agree. by setoid_rewrite He.
Qed.

Section lookup.
Context (d0 : kdata) (dp : nat) (name : bytes) (x := d0.(itable) dp).
Hypothesis (Hs : self kt p pid d0) (Hd : dir_ok (ldisk d0) x) (Hname : byte_data name).

(** Reading one entry. *)
Lemma po_dirent d off : txn_same d0 d -> fsame d0 d -> 0 <= off -> off + sizeof_dirent <= x.(i_size) ->
  pst l0 L d (readi dp (kobj 0) (fun _ => 0) off sizeof_dirent) (fun r d' =>
    r.1 = sizeof_dirent /\ (forall i, r.2 i = dirent_at (ldisk d0) x off i) /\ txn_same d0 d' /\ fsame d0 d').
Proof.
  intros S F Ho Hsz. pose proof (fo_size _ _ (do_file _ _ Hd)) as Hmax. unfold MAXFILE in Hmax.
  change (_ * BSIZE) with 274432 in Hmax. change sizeof_dirent with 16 in *. pose proof (fsame_itable _ _ F) as Et.
  eapply po_mono; [apply (po_readi l0 L kt p pid Henv d dp 0 (fun _ => 0) off 16); rewrite ?Et; try lia|].
  - apply (tm_txn _ _ S).
  - by eapply self_fsame.
  - eapply file_ok_same; [done|apply Hd].
  - intros r L' d' [-> (R1 & R2 & S' & F')]. split; [done|]. rewrite Et in R1, R2. fold x in R1, R2.
    assert (read_len x.(i_size) off 16 = 16) as El.
    { unfold read_len. destruct (Z.ltb_spec x.(i_size) off); lia. }
    rewrite El in R1, R2. split; [done|]. split; [|split; [by eapply txn_same_trans|by etrans]].
    intros i. rewrite R2. unfold dirent_at, file_bytes. destruct (_ && _); [by apply fbyte_same|done].
Qed.

Lemma de_inum_ext m m' : (forall i, m i = m' i) -> de_inum m = de_inum m'.
Proof. intros H. apply load_ext. auto. Qed.

(** One round, when the entry does not match. *)
Lemma po_dir_miss d off : txn_same d0 d -> fsame d0 d -> 0 <= off -> off + sizeof_dirent <= x.(i_size) ->
  ~ dir_hit (ldisk d0) x name off ->
  pst l0 L d (dir_step dp name off) (fun r d' => r = None /\ txn_same d0 d' /\ fsame d0 d').
Proof.
  intros S F Ho Hsz Hn. unfold dir_step. apply po_bind. eapply po_call; [by apply po_dirent|].
  intros r d' (R1 & R2 & S' & F'). rewrite R1, Z.eqb_refl. cbn [negb]. cbn zeta. rewrite (de_inum_ext _ _ R2).
  destruct (Z.eqb_spec (de_inum (dirent_at (ldisk d0) x off)) 0) as [E|E]; [by apply po_ret|].
  destruct (namecmp name 0 r.2 2 =? 0) eqn:Ec; [|by apply po_ret].
  destruct Hn. split; [done|]. eapply namecmp_zero; [done|apply (do_bytes _ _ Hd)|exact R2|done].
Qed.

(** The entries before the match are skipped. *)
Lemma dir_offs off : off ∈ steps sizeof_dirent x.(i_size) -> 0 <= off /\ off + sizeof_dirent <= x.(i_size).
Proof.
  pose proof (do_size _ _ Hd) as Hm. unfold steps. change sizeof_dirent with 16 in *.
  intros (k & -> & Hk%elem_of_seqZ)%list_elem_of_fmap. Z.div_mod_to_equations. lia.
Qed.

Lemma po_dir_skip l1 l2 d Q : txn_same d0 d -> fsame d0 d ->
  (forall off, off ∈ l1 -> 0 <= off /\ off + sizeof_dirent <= x.(i_size) /\ ~ dir_hit (ldisk d0) x name off) ->
  (forall d', txn_same d0 d' -> fsame d0 d' -> posts l0 L d' (scanM l2 (dir_step dp name)) Q) ->
  posts l0 L d (scanM (l1 ++ l2) (dir_step dp name)) Q.
Proof.
  revert d. induction l1 as [|off l1 IH]; intros d S F Hl HQ; [by apply HQ|].
  destruct (Hl off ltac:(by left)) as (H1 & H2 & H3). cbn [app scanM]. apply po_bind.
  eapply po_call; [by apply po_dir_miss|]. intros r d' (-> & S' & F'). apply IH; [done|done| |done].
  intros o Ho. apply Hl. by right.
Qed.

Lemma ev_dir_skip l1 l2 d msg : txn_same d0 d -> fsame d0 d ->
  (forall off, off ∈ l1 -> 0 <= off /\ off + sizeof_dirent <= x.(i_size) /\ ~ dir_hit (ldisk d0) x name off) ->
  (forall d', txn_same d0 d' -> fsame d0 d' -> evals_panic l0 L d' (scanM l2 (dir_step dp name)) msg) ->
  evals_panic l0 L d (scanM (l1 ++ l2) (dir_step dp name)) msg.
Proof.
  revert d. induction l1 as [|off l1 IH]; intros d S F Hl HQ; [by apply HQ|].
  destruct (Hl off ltac:(by left)) as (H1 & H2 & H3). cbn [app scanM].
  eapply po_bind_panic; [by apply po_dir_miss|]. intros r d' (-> & S' & F'). apply IH; [done|done| |done].
  intros o Ho. apply Hl. by right.
Qed.

(** The round of the entry that matches. *)
Lemma po_dir_hit d off ip y (inum := de_inum (dirent_at (ldisk d0) x off)) :
  txn_same d0 d -> fsame d0 d -> 0 <= off -> off + sizeof_dirent <= x.(i_size) ->
  dir_hit (ldisk d0) x name off -> iget_entry d0.(itable) ROOTDEV inum = Some (ip, y) ->
  pst l0 L d (dir_step dp name off) (fun r d' => r = Some (ip, off) /\ isame ip y d0 d' /\ txn_same d0 d').
Proof.
  intros S F Ho Hsz [Hi Hn] He. unfold dir_step. apply po_bind. eapply po_call; [by apply po_dirent|].
  intros r d' (R1 & R2 & S' & F'). rewrite R1, Z.eqb_refl. cbn [negb]. cbn zeta. rewrite (de_inum_ext _ _ R2).
  rewrite (proj2 (Z.eqb_neq _ _) Hi). fold inum.
  rewrite (proj2 (namecmp_zero name (ldisk d0) x off r.2 Hname (do_bytes _ _ Hd) R2) Hn).
  apply po_bind, po_getd. rewrite (fsame_itable _ _ F'). fold x. rewrite (fo_dev _ _ (do_file _ _ Hd)).
  apply po_bind. eapply po_call; [apply po_iget; rewrite (fsame_itable _ _ F'); exact He|].
  intros i d2 (-> & I2 & E2). apply po_ret. split; [done|]. split; [done|].
  split; [by eapply fsame_isame|by apply (txn_same_eq d0 d0 d')].
Qed.

Lemma ev_dir_hit_full d off (inum := de_inum (dirent_at (ldisk d0) x off)) :
  txn_same d0 d -> fsame d0 d -> 0 <= off -> off + sizeof_dirent <= x.(i_size) ->
  dir_hit (ldisk d0) x name off -> iget_entry d0.(itable) ROOTDEV inum = None ->
  evals_panic l0 L d (dir_step dp name off) "iget: no inodes".
Proof.
  intros S F Ho Hsz [Hi Hn] He. unfold dir_step. eapply po_bind_panic; [by apply po_dirent|].
  intros r d' (R1 & R2 & S' & F'). rewrite R1, Z.eqb_refl. cbn [negb]. cbn zeta. rewrite (de_inum_ext _ _ R2).
  rewrite (proj2 (Z.eqb_neq _ _) Hi). fold inum.
  rewrite (proj2 (namecmp_zero name (ldisk d0) x off r.2 Hname (do_bytes _ _ Hd) R2) Hn).
  eapply ev_bind_panic; [apply ev_getd|]. cbn beta. rewrite (fsame_itable _ _ F'). fold x.
  rewrite (fo_dev _ _ (do_file _ _ Hd)). apply ev_panic_bind, ev_iget_full. by rewrite (fsame_itable _ _ F').
Qed.

End lookup.

Lemma dirlookup_spec d dp name (x := d.(itable) dp) (V := ldisk d) :
  txn d -> self kt p pid d -> dir_ok V x -> byte_data name ->
  ((forall off, off ∈ steps sizeof_dirent x.(i_size) -> ~ dir_hit V x name off) ->
   pst l0 L d (dirlookup dp name) (fun r d' => r = None /\ txn_same d d' /\ fsame d d')) /\
  forall l1 off l2, steps sizeof_dirent x.(i_size) = l1 ++ off :: l2 ->
    dir_hit V x name off -> (forall o, o ∈ l1 -> ~ dir_hit V x name o) ->
    match iget_entry d.(itable) ROOTDEV (de_inum (dirent_at V x off)) with
    | None => evals_panic l0 L d (dirlookup dp name) "iget: no inodes"
    | Some (ip, y) => pst l0 L d (dirlookup dp name) (fun r d' =>
        r = Some (ip, off) /\ isame ip y d d' /\ txn_same d d' /\
        y.(i_inum) = de_inum (dirent_at V x off) /\ (itable_ok d.(itable) -> itable_ok d'.(itable)))
    end.
Proof.
  intros Ht Hs Hd Hname. assert (txn_same d d) as S by by split. assert (fsame d d) as F by done.
  unfold dirlookup. split.
  - intros Hno. apply po_bind, po_getd. cbn [id]. fold x. rewrite (do_type _ _ Hd). change (negb (T_DIR =? T_DIR)) with false.
    cbv iota. fold (dir_step dp name). rewrite <- (app_nil_r (steps _ _)). apply (po_dir_skip d dp name Hs Hd Hname); try done.
    + intros off Ho. destruct (dir_offs d dp Hd off Ho). split; [done|]. split; [done|]. by apply Hno.
    + intros d' S' F'. by apply po_ret.
  - intros l1 off l2 El Hh Hno.
    assert (forall o, o ∈ l1 ++ off :: l2 -> 0 <= o /\ o + sizeof_dirent <= x.(i_size)) as Ho.
    { intros o Ho. apply (dir_offs d dp Hd). fold x. by rewrite El. }
    destruct (Ho off ltac:(apply elem_of_app; right; by left)) as [O1 O2].
    assert (forall o, o ∈ l1 -> 0 <= o /\ o + sizeof_dirent <= x.(i_size) /\ ~ dir_hit V x name o) as Hl1.
    { intros o Hl. destruct (Ho o ltac:(apply elem_of_app; by left)). split; [done|]. split; [done|]. by apply Hno. }
    destruct (iget_entry _ _ _) as [[ip y]|] eqn:Ei.
    + apply po_bind, po_getd. cbn [id]. fold x. rewrite (do_type _ _ Hd). change (negb (T_DIR =? T_DIR)) with false.
      cbv iota. fold (dir_step dp name). rewrite El. apply (po_dir_skip d dp name Hs Hd Hname); try done.
      intros d' S' F'. cbn [scanM]. apply po_bind. eapply po_call; [by eapply (po_dir_hit d dp name Hs Hd Hname)|].
      intros r d2 (-> & I2 & S2). apply po_ret. split; [done|]. split; [done|]. split; [done|]. split; [done|].
      pose proof (iget_entry_spec d.(itable) ROOTDEV (de_inum (dirent_at V x off))) as Hsp. rewrite Ei in Hsp.
      destruct Hsp as (_ & (_ & _ & Hy)%refers_spec & _). split; [done|]. intros Hok.
      eapply iget_entry_ok; [done|exact Ei|apply I2|apply I2].
    + eapply ev_bind_panic; [apply ev_getd|]. cbn beta. cbn [id]. fold x. rewrite (do_type _ _ Hd).
      change (negb (T_DIR =? T_DIR)) with false. cbv iota. fold (dir_step dp name). rewrite El.
      apply (ev_dir_skip d dp name Hs Hd Hname); try done. intros d' S' F'. cbn [scanM].
      apply ev_panic_bind. by apply (ev_dir_hit_full d dp name Hs Hd Hname).
Qed.

(** [dirlookup] returns the entry of the table for the inode of the first directory
    entry in use whose name agrees with [name] on its 14 characters (or up to a common
    NUL), with its offset; the entry gains one reference and the table stays free of
    duplicates.  Without such a directory entry the result is null; a full table is a
    panic.  The contents of the file system do not change. *)
Theorem dirlookup_correct d dp name (x := d.(itable) dp) (V := ldisk d) :
  txn d -> self kt p pid d -> dir_ok V x -> byte_data name ->
  ((forall off, off ∈ steps sizeof_dirent x.(i_size) -> ~ dir_hit V x name off) ->
   pst l0 L d (dirlookup dp name) (fun r d' => r = None /\ txn_same d d' /\ fsame d d')) /\
  forall l1 off l2, steps sizeof_dirent x.(i_size) = l1 ++ off :: l2 ->
    dir_hit V x name off -> (forall o, o ∈ l1 -> ~ dir_hit V x name o) ->
    match iget_entry d.(itable) ROOTDEV (de_inum (dirent_at V x off)) with
    | None => evals_panic l0 L d (dirlookup dp name) "iget: no inodes"
    | Some (ip, y) => pst l0 L d (dirlookup dp name) (fun r d' =>
        r = Some (ip, off) /\ isame ip y d d' /\ txn_same d d' /\
        y.(i_inum) = de_inum (dirent_at V x off) /\ (itable_ok d.(itable) -> itable_ok d'.(itable)))
    end.
Proof. apply dirlookup_spec. Qed.
End dirs.

Lemma store_bytes n m a v : byte_data m -> byte_data (store n m a v).
Proof.
  revert m a v. induction n as [|n IH]; intros m a v H; [done|]. cbn [store]. apply IH. intros i.
  rewrite fn_insert_case. case_decide; [apply u8_bound|apply H].
Qed.

Lemma strncpy_bytes n dm s tm t : byte_data dm -> byte_data tm -> byte_data (strncpy dm s tm t n).
Proof.
  unfold strncpy. generalize (Z.to_nat n). clear n. intros n Hd Ht. revert dm s t Hd.
  induction n as [|n IH]; intros dm s t Hd; cbn [strncpy_loop]; [done|].
  assert (byte_data (<[s := tm t]> dm)) as Hi by (intros i; rewrite fn_insert_case; case_decide; [apply Ht|apply Hd]).
  destruct (_ =? 0); [|by apply IH]. intros i. rewrite strncpy_pad_spec. destruct (_ && _); [done|apply Hi].
Qed.

Lemma memmove_across_bytes dm a sm b n : 0 <= n -> byte_data dm -> byte_data sm -> byte_data (memmove_across dm a sm b n).
Proof. intros Hn Hd Hs i. rewrite memmove_across_spec by done. destruct (_ && _); [apply Hs|apply Hd]. Qed.

Definition is_bytes (p : list Z) : Prop := Forall (fun c => 0 <= c < 256) p.

Lemma bytes_of_bytes p : is_bytes p -> byte_data (bytes_of p).
Proof.
  intros Hp i. unfold bytes_of. case_match; [done|]. destruct (p !! _) as [c|] eqn:E; [|done].
  unfold is_bytes in Hp. rewrite Forall_lookup in Hp. by apply (Hp _ _ E).
Qed.

Lemma foldl_bytes {A} (f : bytes -> A -> bytes) l m :
  (forall m x, byte_data m -> byte_data (f m x)) -> byte_data m -> byte_data (foldl f m l).
Proof. intros Hf. revert m. induction l as [|x l IH]; intros m H; [done|]. by apply IH, Hf. Qed.

(** ** Instances *)

Section witnesses.
#[local] Existing Instance demo_image.
#[local] Existing Instance demo_image_ok.
#[local] Existing Instance sync_disk.
#[local] Existing Instance sync_disk_ok.
#[local] Existing Instance demo_fuel.

(** A root directory (inode 1, in block 33) with entries "." and "..", in block 46. *)
Definition demo_root : inode :=
  Inode ROOTDEV 1 1 sleeplock0 1 T_DIR 0 0 1 32 (fun i => if i =? 0 then 46 else 0).
Definition demo_entries : bytes :=
  bytes_of [1;0;46;0;0;0;0;0;0;0;0;0;0;0;0;0; 1;0;46;46;0;0;0;0;0;0;0;0;0;0;0;0].
Definition demo_tree (z : Z) : bytes :=
  if decide (z = 33) then store_dinode (fun _ => 0) 64 demo_root
  else if decide (z = 46) then demo_entries else fun _ => 0.
Definition demo_dir (x : inode) : kdata :=
  reserved (demo_fs_on demo_tree (fun i => if decide (i = 0)%nat then x else inode0)).

Lemma demo_dir_txn x : txn (demo_dir x).
Proof. apply reserved_txn. by apply demo_idle. Qed.

Lemma demo_dir_disk x z : ldisk (demo_dir x) z = demo_tree z.
Proof. by apply demo_disk_on. Qed.

Lemma demo_inode_ok : inode_ok demo_root.
Proof. split; try done. intros i Hi. cbn. by destruct (i =? 0). Qed.

(** The link count of the root is changed and written. *)
Lemma iupdate_roundtrip_witness :
  pst (demo_run demo_kt) [] (demo_dir (demo_root <| i_nlink := 2 |>)) (iupdate 0)
    (fun _ d' => di_nlink (ldisk d' 33) 64 = 2).
Proof.
  eapply po_mono; [apply (iupdate_roundtrip (demo_run demo_kt) [] demo_kt 1 demo_pid)|].
  - apply demo_fs_env.
  - apply demo_dir_txn.
  - done.
  - done.
  - by destruct demo_inode_ok; split.
  - done.
  - done.
  - split; [done|]. split; [|done]. unfold in_log. change LOGSIZE with 30.
    change (IBLOCK _ _) with 33. cbn. lia.
  - intros [] L' d' [-> (S & _)]. split; [done|]. by destruct S.
Defined.

Definition demo_invalid : inode := Inode ROOTDEV 1 1 sleeplock0 0 0 0 0 0 0 (fun _ => 0).

(** The root is read from the disk. *)
Lemma ilock_correct_witness :
  pst (demo_run demo_kt) [] (demo_dir demo_invalid) (ilock (Some 0%nat))
    (fun _ d' => (d'.(itable) 0%nat).(i_type) = T_DIR /\ (d'.(itable) 0%nat).(i_size) = 32).
Proof.
  pose proof (ilock_correct (demo_run demo_kt) [] demo_kt 1 demo_pid demo_fs_env (demo_dir demo_invalid) 0) as H.
  cbn zeta in H. rewrite demo_dir_disk in H. cbn in H.
  eapply po_mono; [apply H|].
  - apply demo_dir_txn.
  - done.
  - done.
  - done.
  - intros [] L' d' [-> (_ & _ & S)]. split; [done|]. destruct (S eq_refl). done.
Defined.

Lemma demo_dir_ok : dir_ok (ldisk (demo_dir demo_root)) demo_root.
Proof.
  split; [|done|done|].
  - split; [done|done|]. intros bn Hb Hs. change BSIZE with 1024 in Hs. cbn in Hs. replace bn with 0 by lia. done.
  - intros z. rewrite demo_dir_disk. unfold demo_tree.
    destruct (decide (z = 33)); [|destruct (decide (z = 46)); [|by intros i]].
    + unfold store_dinode, store_addrs. apply foldl_bytes; [by intros; apply store_bytes|].
      by do 5 apply store_bytes.
    + intros i. unfold demo_entries, bytes_of. destruct (i <? 0); [done|].
      destruct (_ !! _) as [v|] eqn:E; [|done]. cbn.
      assert (Forall (fun v => 0 <= v < 256) [1;0;46;0;0;0;0;0;0;0;0;0;0;0;0;0; 1;0;46;46;0;0;0;0;0;0;0;0;0;0;0;0]) as Hf
        by by repeat constructor.
      by eapply (Forall_lookup_1 _ _ _ _ Hf).
Qed.

(** The directory, with a page of user memory. *)
Definition demo_reader (m : bytes) : kdata :=
  demo_dir demo_root <| mem := m |> <| procs ::= alter (fun x => x <| p_pagetable := VmSpec.demo_root |>) 1%nat |>.

Lemma fs_eq_user d m f : fs_eq d (d <| mem := m |> <| procs ::= f |>).
Proof. by split. Qed.


Lemma demo_dirent off i :
  dirent_at demo_tree demo_root off i = dirent_at (ldisk (demo_dir demo_root)) demo_root off i.
Proof. unfold dirent_at, file_bytes, fbyte, faddr. by rewrite !demo_dir_disk. Qed.

Lemma demo_name : byte_data (bytes_of [46; 46]).
Proof. intros i. unfold bytes_of. destruct (i <? 0); [done|]. destruct (Z.to_nat i) as [|[|n]]; done. Qed.

Lemma demo_hit off : dir_hit (ldisk (demo_dir demo_root)) demo_root (bytes_of [46; 46]) off <->
  de_inum (dirent_at demo_tree demo_root off) <> 0 /\
  (namecmp (bytes_of [46; 46]) 0 (dirent_at demo_tree demo_root off) 2 =? 0) = true.
Proof.
  unfold dir_hit. rewrite <- (de_inum_ext _ _ (demo_dirent off)).
  by rewrite (namecmp_zero _ _ demo_root off _ demo_name (do_bytes _ _ demo_dir_ok) (demo_dirent off)).
Qed.

(** The entry ".." is found at offset 16. *)
Lemma dirlookup_correct_witness :
  pst (demo_run demo_kt) [] (demo_dir demo_root) (dirlookup 0 (bytes_of [46; 46]))
    (fun r d' => r = Some (0%nat, 16)).
Proof.
  destruct (dirlookup_correct (demo_run demo_kt) [] demo_kt 1 demo_pid demo_fs_env) with
    (d := demo_dir demo_root) (dp := 0%nat) (name := bytes_of [46; 46]) as [_ H].
  - apply not_elem_of_nil.
  - apply demo_run_free.
  - apply demo_dir_txn.
  - done.
  - apply demo_dir_ok.
  - apply demo_name.
  - specialize (H [0] 16 [] eq_refl). cbn zeta in H. change (itable (demo_dir demo_root) 0) with demo_root in H.
    rewrite <- (de_inum_ext _ _ (demo_dirent 16)) in H.
    change (iget_entry _ _ _) with (Some (0%nat, demo_root <| i_ref ::= fun n => n + 1 |>)) in H. cbv beta iota in H.
    eapply po_mono; [apply H|].
    + apply demo_hit. by vm_compute.
    + intros o ->%list_elem_of_singleton. rewrite demo_hit. by vm_compute; intros [].
    + intros r L' d' [-> [-> _]]. done.
Defined.
End witnesses.
