(* ===== verification/WriteSpec.v ===== *)
(** * What kernel/fs.c guarantees: writing files

    [wrote] relates the logical disk and an inode before and after bytes of its file
    have been written: new blocks come from the free map, and nothing else that is in
    use changes.  [writei] and the part of [bmap] that allocates are proved to implement
    it. *)
From S2P Require Export DirSpec.

(** ** Files and their blocks *)

(** The use [bn] of a block by the file: its block [bn], or for -1 the indirect block. *)
Definition use (V : Z -> bytes) (x : inode) (bn : Z) : Z :=
  if bn =? -1 then x.(i_addrs) NDIRECT else faddr V x bn.

(** A block for file data: in use, and not a part of the log, the free map or the block
    of inode [inum]. *)
Record data_block (V : Z -> bytes) (s : superblock) (start inum a : Z) : Prop := {
  db_range : 0 <= a < s.(sb_size);
  db_used : in_use V s a = true;
  db_log : ~ in_log start a;
  db_map : forall z, 0 <= z < s.(sb_size) -> BBLOCK z s <> a;
  db_inode : a <> IBLOCK inum s;
}.

(** The blocks of the file are data blocks, each with one use. *)
Record file_wf (V : Z -> bytes) (s : superblock) (start : Z) (x : inode) : Prop := {
  fw_ok : file_ok V x;
  fw_block : forall bn, -1 <= bn < MAXFILE -> use V x bn <> 0 -> data_block V s start x.(i_inum) (use V x bn);
  fw_inj : forall bn bn', -1 <= bn < MAXFILE -> -1 <= bn' < MAXFILE -> use V x bn <> 0 -> use V x bn = use V x bn' -> bn = bn';
}.

(** The free map and the block of inode [inum] lie outside the log and are in use; so is
    block 0, whose number stands for a failure. *)
Record fs_geom (V : Z -> bytes) (s : superblock) (start inum : Z) : Prop := {
  ge_map : map_ok s;
  ge_zero : in_use V s 0 = true;
  ge_bitmap : forall y, 0 <= y < s.(sb_size) -> 0 <= BBLOCK y s < 2 ^ 31 /\ ~ in_log start (BBLOCK y s);
  ge_free : forall y, 0 <= y < s.(sb_size) -> in_use V s y = false -> ~ in_log start y /\ forall z, 0 <= z < s.(sb_size) -> BBLOCK z s <> y;
  ge_inode : 0 < IBLOCK inum s < s.(sb_size) /\ in_use V s (IBLOCK inum s) = true /\ ~ in_log start (IBLOCK inum s) /\
    forall z, 0 <= z < s.(sb_size) -> BBLOCK z s <> IBLOCK inum s;
}.

(** There are [n] free blocks. *)
Definition free_blocks (V : Z -> bytes) (s : superblock) (n : nat) : Prop :=
  exists l, NoDup l /\ (n <= length l)%nat /\ Forall (fun z => 0 <= z < s.(sb_size) /\ in_use V s z = false) l.

(** The bytes [off, off + n) of the file have been written, [src k] at offset [k]. *)
Record wrote (s : superblock) (start : Z) (V : Z -> bytes) (x : inode) (off n : Z) (src : Z -> Z) (V' : Z -> bytes) (y : inode) : Prop := {
  wr_inode : y = x <| i_addrs := y.(i_addrs) |>;
  wr_keep : forall bn, -1 <= bn < MAXFILE -> use V x bn <> 0 -> use V' y bn = use V x bn;
  wr_new : forall bn, -1 <= bn < MAXFILE -> use V x bn = 0 -> use V' y bn <> 0 -> in_use V s (use V' y bn) = false;
  wr_in : forall k, off <= k < off + n -> faddr V' y (k / BSIZE) <> 0 /\ fbyte V' y k = src k;
  wr_out : forall k, 0 <= k < MAXFILE * BSIZE -> ~ off <= k < off + n -> faddr V x (k / BSIZE) <> 0 -> fbyte V' y k = fbyte V x k;
  wr_frame : forall z, 0 <= z < s.(sb_size) -> in_use V s z = true -> (forall bn, 0 <= bn < MAXFILE -> faddr V x bn <> z) ->
    (forall w, 0 <= w < s.(sb_size) -> BBLOCK w s <> z) -> V' z = V z;
  wr_used : forall z, 0 <= z < s.(sb_size) -> in_use V s z = true -> in_use V' s z = true;
  wr_wf : file_wf V' s start y;
}.

Lemma use_faddr V x bn : 0 <= bn -> use V x bn = faddr V x bn.
Proof. intros. unfold use. by rewrite (proj2 (Z.eqb_neq bn (-1))) by lia. Qed.

Lemma block_of k : 0 <= k < MAXFILE * BSIZE -> 0 <= k / BSIZE < MAXFILE.
Proof. intros Hk. change (MAXFILE * BSIZE) with (268 * 1024) in Hk. change MAXFILE with 268. change BSIZE with 1024. Z.div_mod_to_equations. lia. Qed.

(** Nothing is written. *)
Lemma wrote_same s start V V' x off src : (forall z, V' z = V z) -> file_wf V s start x -> wrote s start V x off 0 src V' x.
Proof.
  intros E [[O1 O2 O3] W2 W3]. assert (forall z, in_use V' s z = in_use V s z) as Eu by (intros; unfold in_use; by rewrite E).
  assert (forall bn, faddr V' x bn = faddr V x bn) as Ef by (intros; unfold faddr; by rewrite E).
  assert (forall bn, use V' x bn = use V x bn) as Ee by (intros; unfold use; by rewrite Ef).
  split; [by destruct x|intros; apply Ee|intros bn _ H; rewrite Ee; congruence|intros; lia| |intros; apply E|intros; by rewrite Eu|].
  - intros k _ _ _. unfold fbyte. by rewrite Ef, E.
  - split; [split; [done|done|intros bn Hb Hs; rewrite Ef; by apply O3]| |].
    + intros bn Hb. rewrite Ee. intros Hn. destruct (W2 bn Hb Hn) as [D1 D2 D3 D4 D5]. split; try done. by rewrite Eu.
    + intros bn bn' Hb Hb'. rewrite !Ee. by apply W3.
Qed.

Lemma wrote_src s start V x off n src src' V' y : (forall k, src k = src' k) ->
  wrote s start V x off n src V' y -> wrote s start V x off n src' V' y.
Proof. intros E [A1 A2 A3 A4 A5 A6 A7 A8]. split; try done. intros k Hk. rewrite <- E. by apply A4. Qed.

Lemma wrote_trans s start V x off n src V1 x1 m V2 x2 : 0 <= off -> 0 <= n -> 0 <= m -> off + n + m <= MAXFILE * BSIZE ->
  wrote s start V x off n src V1 x1 -> wrote s start V1 x1 (off + n) m src V2 x2 -> wrote s start V x off (n + m) src V2 x2.
Proof.
  intros Ho Hn Hm Hmax [A1 A2 A3 A4 A5 A6 A7 A8] [B1 B2 B3 B4 B5 B6 B7 B8].
  assert (forall z, 0 <= z < sb_size s -> in_use V1 s z = false -> in_use V s z = false) as Hfree.
  { intros z Hz H1. destruct (in_use V s z) eqn:E; [|done]. by rewrite A7 in H1. }
  split; [by rewrite B1, A1| | | | | |auto|done].
  - intros bn Hb H0. rewrite B2, A2; [done|done|done|done|]. by rewrite A2.
  - intros bn Hb H0 H2. destruct (decide (use V1 x1 bn = 0)) as [E|E].
    + apply Hfree; [by apply (fw_block _ _ _ _ B8)|by apply B3].
    + rewrite B2 in H2 |- * by done. by apply A3.
  - intros k Hk. destruct (decide (k < off + n)) as [Hlt|Hge]; [|apply B4; lia]. destruct (A4 k ltac:(lia)) as [H1 H2].
    pose proof (block_of k ltac:(lia)) as Hb. rewrite B5 by (done || lia). split; [|done].
    rewrite <- !use_faddr in * by lia. rewrite B2; [done|lia|done].
  - intros k Hk Hk' H0. pose proof (block_of k Hk) as Hb. rewrite B5, A5; [done|done|lia|done|done|lia|].
    rewrite <- !use_faddr in * by lia. rewrite A2; [done|lia|done].
  - intros z Hz H1 H2 H3. rewrite B6, A6; [done|done|done|done|done|done|by apply A7| |done].
    intros bn Hb E. destruct (decide (faddr V x bn = 0)) as [E0|E0].
    + rewrite <- use_faddr in E, E0 by lia. destruct (decide (use V1 x1 bn = 0)) as [E1|E1].
      * apply (H2 bn Hb). rewrite use_faddr in E0 by lia. congruence.
      * rewrite <- E, (A3 bn) in H1 by (done || lia). done.
    + apply (H2 bn Hb). rewrite <- use_faddr in E, E0 |- * by lia. by rewrite <- (A2 bn) by (done || lia).
Qed.

Lemma geom_mono V V' s start inum : (forall z, 0 <= z < s.(sb_size) -> in_use V s z = true -> in_use V' s z = true) ->
  fs_geom V s start inum -> fs_geom V' s start inum.
Proof.
  intros Hu [G1 G2 G3 G4 (G5 & G6 & G7 & G8)]. split; [done|apply Hu; [lia|done]|done| |split; [done|]; split; [apply Hu; [lia|done]|done]].
  intros y Hy Hf. apply G4; [done|]. destruct (in_use V s y) eqn:E; [|done]. by rewrite Hu in Hf.
Qed.

(** *** A new block *)

(** [b] has been taken from the free map. *)
Record taken (s : superblock) (V : Z -> bytes) (b : Z) (V' : Z -> bytes) : Prop := {
  ta_range : 0 <= b < s.(sb_size);
  ta_free : in_use V s b = false;
  ta_bits : forall z, 0 <= z < s.(sb_size) -> in_use V' s z = (z =? b) || in_use V s z;
  ta_other : forall z, z <> b -> z <> BBLOCK b s -> V' z = V z;
}.

Lemma free_take s V b V' n : taken s V b V' -> free_blocks V s (S n) -> free_blocks V' s n.
Proof.
  intros [T1 T2 T3 T4] (l & H1 & H2 & H3). exists (filter (fun z => z <> b) l). split; [by apply NoDup_filter|].
  assert (length (filter (fun z => z = b) l) <= 1)%nat as Hb.
  { assert (NoDup (filter (fun z => z = b) l)) as Hd by (by apply NoDup_filter).
    destruct (filter (fun z => z = b) l) as [|u [|v r]] eqn:E; [cbn; lia|cbn; lia|].
    assert (u ∈ filter (fun z => z = b) l /\ v ∈ filter (fun z => z = b) l) as [[-> _]%list_elem_of_filter [-> _]%list_elem_of_filter].
    { rewrite E. split; [by left|right; by left]. }
    apply NoDup_cons in Hd as [Hd _]. destruct Hd. by left. }
  pose proof (Permutation_length (filter_app_complement (fun z => z = b) l)) as Hlen. rewrite length_app in Hlen.
  split; [change (fun z => z <> b) with (fun z => ~ z = b); lia|].
  apply Forall_forall. intros z [Hz Hl]%list_elem_of_filter. rewrite Forall_forall in H3. destruct (H3 z Hl) as [H4 H5].
  split; [done|]. rewrite T3 by done. by rewrite (proj2 (Z.eqb_neq z b)).
Qed.

Section alloc.
Context (s : superblock) (start : Z) (V V' : Z -> bytes) (x : inode) (bn b : Z).
Hypothesis (Hg : fs_geom V s start x.(i_inum)) (Hw : file_wf V s start x) (Ht : taken s V b V').
Hypothesis (Hbn : 0 <= bn < NDIRECT) (H0 : x.(i_addrs) bn = 0).
Let y := x <| i_addrs ::= <[bn := b]> |>.

Lemma alloc_nonzero : b <> 0.
Proof. intros ->. pose proof (ta_free _ _ _ _ Ht) as Hf. by rewrite (ge_zero _ _ _ _ Hg) in Hf. Qed.

Lemma alloc_data a : data_block V s start x.(i_inum) a -> data_block V' s start x.(i_inum) a /\ V' a = V a /\ a <> b.
Proof.
  intros [D1 D2 D3 D4 D5]. assert (a <> b) as Hab by (intros ->; pose proof (ta_free _ _ _ _ Ht); congruence).
  split; [split; try done; rewrite (ta_bits _ _ _ _ Ht) by done; by rewrite D2, orb_true_r|]. split; [|done].
  apply (ta_other _ _ _ _ Ht); [done|]. intros E. by apply (D4 b (ta_range _ _ _ _ Ht)).
Qed.

Lemma alloc_use j : -1 <= j < MAXFILE -> use V' y j = if decide (j = bn) then b else use V x j.
Proof.
  intros Hj. change MAXFILE with 268 in Hj. change NDIRECT with 12 in Hbn. unfold use, faddr. change (i_addrs y) with (<[bn := b]> (i_addrs x)). change NDIRECT with 12.
  destruct (Z.eqb_spec j (-1)); [rewrite decide_False by lia; rewrite fn_lookup_insert_ne by lia; done|].
  destruct (Z.ltb_spec j 12).
  - rewrite fn_insert_case. destruct (decide (j = bn)); case_decide; congruence.
  - rewrite decide_False, !fn_lookup_insert_ne by lia. destruct (Z.eqb_spec (i_addrs x 12) 0) as [|N]; [done|].
    destruct (alloc_data (use V x (-1))) as (_ & E & _); [apply (fw_block _ _ _ _ Hw); [change MAXFILE with 268; lia|done]|]. change (use V x (-1)) with (i_addrs x 12) in E.
    by rewrite E.
Qed.

Lemma alloc_wf : file_wf V' s start y.
Proof.
  pose proof alloc_nonzero as Hb0. pose proof Hw as [[O1 O2 O3] W2 W3]. assert (NDIRECT = 12) as HND by done. assert (MAXFILE = 268) as HM by done.
  assert (use V x bn = 0) as Hu0 by (rewrite use_faddr by lia; unfold faddr; by rewrite (proj2 (Z.ltb_lt bn NDIRECT)) by lia).
  split; [split; try done| |].
  - intros j Hj Hs. change (i_size y) with (i_size x) in Hs. specialize (O3 j Hj Hs). assert (j < MAXFILE) as HjM by (change BSIZE with 1024 in *; lia).
    rewrite <- use_faddr, alloc_use by lia. case_decide; [done|]. by rewrite use_faddr.
  - intros j Hj. change (i_inum y) with (i_inum x). rewrite alloc_use by done. case_decide as E; intros Hne.
    + destruct (ge_free _ _ _ _ Hg b (ta_range _ _ _ _ Ht) (ta_free _ _ _ _ Ht)) as [G1 G2]. destruct (ge_inode _ _ _ _ Hg) as (_ & G3 & _ & _).
      split; [apply (ta_range _ _ _ _ Ht)| |done|done|].
      * rewrite (ta_bits _ _ _ _ Ht) by apply (ta_range _ _ _ _ Ht). by rewrite Z.eqb_refl.
      * intros E2. pose proof (ta_free _ _ _ _ Ht). congruence.
    + by apply alloc_data, W2.
  - intros j j' Hj Hj'. rewrite !alloc_use by done. case_decide as E; case_decide as E'; intros Hne Ee; [congruence|..].
    + destruct (alloc_data (use V x j')) as (_ & _ & N); [|congruence]. apply W2; [done|congruence].
    + destruct (alloc_data (use V x j)) as (_ & _ & N); [by apply W2|congruence].
    + by apply W3.
Qed.

Lemma alloc_wrote off src : wrote s start V x off 0 src V' y.
Proof.
  pose proof alloc_nonzero as Hb0. assert (NDIRECT = 12) as HND by done. assert (MAXFILE = 268) as HM by done.
  assert (use V x bn = 0) as Hu0 by (rewrite use_faddr by lia; unfold faddr; by rewrite (proj2 (Z.ltb_lt bn NDIRECT)) by lia).
  split; [done| | | | | | |apply alloc_wf].
  - intros j Hj Hne. rewrite alloc_use by done. case_decide; [congruence|done].
  - intros j Hj Hz. rewrite alloc_use by done. case_decide; [intros _; apply (ta_free _ _ _ _ Ht)|done].
  - intros k Hk. lia.
  - intros k Hk _ Hf. pose proof (block_of k Hk) as Hkb. unfold fbyte. rewrite <- !use_faddr in * by lia.
    rewrite alloc_use by lia. case_decide as E; [congruence|].
    destruct (alloc_data (use V x (k / BSIZE))) as (_ & -> & _); [apply (fw_block _ _ _ _ Hw); [lia|done]|done].
  - intros z Hz Hu _ Hm. apply (ta_other _ _ _ _ Ht); [|intros E; by apply (Hm b (ta_range _ _ _ _ Ht))].
    intros ->. pose proof (ta_free _ _ _ _ Ht). congruence.
  - intros z Hz Hu. rewrite (ta_bits _ _ _ _ Ht) by done. by rewrite Hu, orb_true_r.
Qed.
End alloc.

(** *** New data in a block *)

Section data.
Context (s : superblock) (start : Z) (V V' : Z -> bytes) (x : inode) (off m : Z) (sm : bytes) (p : Z).
Let a := faddr V x (off / BSIZE).
Hypothesis (Hw : file_wf V s start x) (Ha : a <> 0) (Ho : 0 <= off < MAXFILE * BSIZE) (Hm : 0 <= m) (Hb : off mod BSIZE + m <= BSIZE).
Hypothesis HV : forall z, V' z = if decide (z = a) then memmove_across (V a) (off mod BSIZE) sm p m else V z.

Lemma data_here : data_block V s start x.(i_inum) a.
Proof.
  pose proof (block_of off Ho). unfold a in *. rewrite <- use_faddr in * by lia. apply (fw_block _ _ _ _ Hw); [lia|done].
Qed.

Lemma data_in_use z : 0 <= z < s.(sb_size) -> in_use V' s z = in_use V s z.
Proof. intros Hz. unfold in_use. rewrite HV, decide_False; [done|]. by apply (db_map _ _ _ _ _ data_here). Qed.

Lemma data_use j : -1 <= j < MAXFILE -> use V' x j = use V x j.
Proof.
  intros Hj. assert (NDIRECT = 12) as HND by done. assert (MAXFILE = 268) as HM by done. pose proof (block_of off Ho) as Hk.
  unfold use, faddr. destruct (j =? -1); [done|]. destruct (j <? NDIRECT); [done|].
  destruct (Z.eqb_spec (i_addrs x NDIRECT) 0) as [|N]; [done|]. rewrite HV, decide_False; [done|]. intros E.
  assert (off / BSIZE = -1) as Hc; [|lia]. unfold a in *. rewrite <- use_faddr in * by lia. apply (fw_inj _ _ _ _ Hw); [lia|lia|done|].
  symmetry. exact E.
Qed.

Lemma data_wf : file_wf V' s start x.
Proof.
  pose proof Hw as [[O1 O2 O3] W2 W3]. split; [split; [done|done|]| |].
  - intros j Hj Hs. specialize (O3 j Hj Hs). assert (j < MAXFILE) by (change BSIZE with 1024 in *; change MAXFILE with 268 in *; lia).
    by rewrite <- use_faddr, data_use, use_faddr by lia.
  - intros j Hj. rewrite data_use by done. intros Hne. destruct (W2 j Hj Hne) as [D1 D2 D3 D4 D5]. split; try done. by rewrite data_in_use.
  - intros j j' Hj Hj'. rewrite !data_use by done. by apply W3.
Qed.

Lemma data_wrote : wrote s start V x off m (fun k => sm (p + (k - off))) V' x.
Proof.
  assert (MAXFILE = 268) as HM by done. assert (BSIZE = 1024) as HB by done. pose proof (block_of off Ho) as Hk0.
  assert (forall k, 0 <= k < MAXFILE * BSIZE -> faddr V' x (k / BSIZE) = faddr V x (k / BSIZE)) as Hf.
  { intros k Hk. pose proof (block_of k Hk). by rewrite <- !use_faddr, data_use by lia. }
  split; [by destruct x|intros j Hj _; by apply data_use| | | | |intros z Hz; by rewrite data_in_use|apply data_wf].
  - intros j Hj H0. by rewrite data_use, H0.
  - intros k Hk. assert (k / BSIZE = off / BSIZE /\ k mod BSIZE = off mod BSIZE + (k - off)) as [E1 E2].
    { rewrite HB in *. Z.div_mod_to_equations. lia. }
    unfold fbyte. rewrite E1, E2, (Hf off Ho). split; [exact Ha|]. fold a. rewrite HV, decide_True by done.
    rewrite memmove_across_spec by done. destruct (_ && _) eqn:E; [f_equal; lia|lia].
  - intros k Hk Hn Hne. unfold fbyte. rewrite (Hf k Hk). rewrite HV. case_decide as E; [|done].
    pose proof (block_of k Hk). assert (k / BSIZE = off / BSIZE) as Ek.
    { unfold a in *. rewrite <- !use_faddr in * by lia. by apply (fw_inj _ _ _ _ Hw); [lia|lia| |]. }
    rewrite E, memmove_across_spec by done. destruct (_ && _) eqn:Eb; [|done].
    destruct Hn. rewrite HB in *. Z.div_mod_to_equations. lia.
  - intros z Hz _ Hne _. rewrite HV, decide_False; [done|]. intros ->. by apply (Hne (off / BSIZE)).
Qed.
End data.

(** ** The kernel *)

Section writes.
Context `{KI : KernelImage} `{WF : WaitFuel} `{DDok : DiskDriverOk} (l0 : lockst) (L : list lockptr).
Context (kt : kptr) (p : nat) (pid : Z).
Hypothesis Henv : fs_env l0 L kt.

Notation start d := (d.(klog).(lg_start)).

(** The state in which a file is written: the inode [ip] is that of a well-formed file,
    there are [r] free blocks, and the log has room for [r] blocks of the file. *)
Record writable (d : kdata) (ip : nat) (r : nat) (x := d.(itable) ip) : Prop := {
  wb_txn : txn d;
  wb_self : self kt p pid d;
  wb_geom : fs_geom (ldisk d) d.(sb) (start d) x.(i_inum);
  wb_wf : file_wf (ldisk d) d.(sb) (start d) x;
  wb_free : free_blocks (ldisk d) d.(sb) r;
  wb_room : d.(klog).(lh_n) + 3 * Z.of_nat r <= LOGSIZE - 2;
}.

Lemma isame_sb ip y d d' : isame ip y d d' -> d'.(sb) = d.(sb).
Proof. intros I. by rewrite (fsame_sb _ _ (is_rest _ _ _ _ I)). Qed.

Lemma in_txn_start d d' : in_txn d d' -> start d' = start d.
Proof. intros [_ _ ->]. done. Qed.

Lemma free_fewer V s n m : (m <= n)%nat -> free_blocks V s n -> free_blocks V s m.
Proof. intros Hm (l & H1 & H2 & H3). exists l. split; [done|]. split; [lia|done]. Qed.

(** [balloc] for a file that is being written. *)
Lemma po_take d ip r : writable d ip (S r) ->
  pst l0 L d (balloc ROOTDEV) (fun b d' => taken d.(sb) (ldisk d) b (ldisk d') /\ b <> 0 /\
    in_txn d d' /\ fsame d d' /\ d'.(klog).(lh_n) <= d.(klog).(lh_n) + 2).
Proof.
  intros [W1 W2 W3 W4 (l & Fl1 & Fl2 & Fl3) W6]. pose proof (ge_zero _ _ _ _ W3) as G0.
  eapply po_mono; [apply (po_balloc l0 L kt p pid Henv d W1 W2 (ge_map _ _ _ _ W3))|].
  - intros y z Hy Hz Hf. by apply (ge_free _ _ _ _ W3).
  - split; [|lia]. intros y Hy. destruct (ge_bitmap _ _ _ _ W3 y Hy). split; [split; [done|split; [done|lia]]|].
    intros Hf. by apply (ge_free _ _ _ _ W3).
  - destruct l as [|y l]; [cbn in Fl2; lia|]. exists y. by apply Forall_cons in Fl3 as [? _].
  - intros b L' d' [-> (H1 & H2 & _ & H4 & _ & H6 & H7 & H8 & H9)]. split; [done|].
    split; [by split|]. split; [intros ->; congruence|done].
Qed.

(** [bmap] of a block that is mapped, or one of the direct blocks. *)
Lemma po_bmap_write d ip r bn (x := d.(itable) ip) : writable d ip (S r) -> 0 <= bn < MAXFILE ->
  bn < NDIRECT \/ faddr (ldisk d) x bn <> 0 ->
  pst l0 L d (bmap ip bn) (fun a d' => exists y, (forall off src, wrote d.(sb) (start d) (ldisk d) x off 0 src (ldisk d') y) /\
    isame ip y d d' /\ in_txn d d' /\ a = faddr (ldisk d') y bn /\ a <> 0 /\
    d'.(klog).(lh_n) <= d.(klog).(lh_n) + 2 /\ free_blocks (ldisk d') d.(sb) r).
Proof.
  intros W Hbn Hcase. pose proof W as [W1 W2 W3 W4 W5 W6]. fold x in W3, W4. pose proof (fo_dev _ _ (fw_ok _ _ _ _ W4)) as Hdev.
  destruct (decide (faddr (ldisk d) x bn = 0)) as [E0|E0].
  - destruct Hcase as [Hd|]; [|done]. assert (x.(i_addrs) bn = 0) as Ha by (unfold faddr in E0; by rewrite (proj2 (Z.ltb_lt bn NDIRECT)) in E0).
    unfold bmap. apply po_bind, po_getd. fold x. rewrite (proj2 (Z.ltb_lt bn NDIRECT)) by done.
    apply po_bind, po_getd. fold x. rewrite Ha, Hdev. change (0 =? 0) with true. cbv iota.
    apply po_bind. eapply po_call; [by apply (po_take d ip r)|]. intros b d1 (T & Hb & Hin & F & Hlh).
    rewrite (proj2 (Z.eqb_neq b 0)) by done. apply po_bind. unfold set_addr. apply po_modd, po_ret. split; [done|].
    set (d2 := upd_inode ip _ d1). assert (fs_eq d1 d2) as Eq by done.
    pose proof (isame_upd ip (fun x => x <| i_addrs ::= <[bn := b]> |>) d1) as I. rewrite (fsame_itable _ _ F) in I. fold x d2 in I.
    exists (x <| i_addrs ::= <[bn := b]> |>). split.
    { intros off src. apply (alloc_wrote d.(sb) (start d) (ldisk d) (ldisk d2) x bn b); [exact W3|exact W4|exact T|lia|exact Ha]. }
    split; [by eapply fsame_isame|]. split; [|split; [|split; [done|split; [done|by eapply free_take]]]].
    + eapply in_txn_trans; [exact Hin|]. apply txn_same_in. apply (txn_same_eq d1 d1 d1); [done| |done]. split; try done. apply (it_txn _ _ Hin).
    + unfold faddr. rewrite (proj2 (Z.ltb_lt bn NDIRECT)) by done. symmetry. apply fn_lookup_insert.
  - eapply po_mono; [by apply (po_bmap l0 L kt p pid Henv d ip bn)|]. intros a L' d' [-> (-> & S & F)]. fold x. split; [done|].
    pose proof (tm_disk _ _ S) as Hz. exists x. split; [intros off src; by apply wrote_same|].
    split; [split; rewrite ?(fsame_itable _ _ F); try done; by destruct d|]. split; [by apply txn_same_in|].
    split; [unfold faddr; by rewrite Hz|]. split; [done|]. rewrite (tm_klog _ _ S). split; [lia|].
    eapply free_fewer; [apply Nat.le_succ_diag_r|]. destruct W5 as (l & F1 & F2 & F3). exists l. split; [done|]. split; [done|].
    eapply Forall_impl; [exact F3|]. intros z [H1 H2]. split; [done|]. unfold in_use. rewrite Hz. exact H2.
Qed.

Lemma writable_step d ip r off n src d' y (x := d.(itable) ip) : writable d ip (S r) ->
  wrote d.(sb) (start d) (ldisk d) x off n src (ldisk d') y -> isame ip y d d' -> in_txn d d' ->
  d'.(klog).(lh_n) <= d.(klog).(lh_n) + 3 -> free_blocks (ldisk d') d.(sb) r -> writable d' ip r.
Proof.
  intros [W1 W2 W3 W4 W5 W6] Hwr I Hin Hlh Hfr. pose proof (is_entry _ _ _ _ I) as Ey.
  assert (y.(i_inum) = x.(i_inum)) as Hi by (by rewrite (wr_inode _ _ _ _ _ _ _ _ _ Hwr)).
  split; rewrite ?Ey, ?(isame_sb _ _ _ _ I), ?(in_txn_start _ _ Hin).
  - apply (it_txn _ _ Hin).
  - by eapply isame_self.
  - rewrite Hi. eapply geom_mono; [|exact W3]. apply (wr_used _ _ _ _ _ _ _ _ _ Hwr).
  - apply (wr_wf _ _ _ _ _ _ _ _ _ Hwr).
  - done.
  - lia.
Qed.

(** New data for one block. *)
Lemma po_write_block {B} d ad a sm off m (k e : M B) Q :
  txn d -> self kt p pid d -> loggable d ad ->
  (forall d', txn_upd d ad (memmove_across (ldisk d ad) off sm a m) d' -> fsame d d' -> posts l0 L d' k Q) ->
  posts l0 L d
    (bp ← bread ROOTDEV ad; data ← b_get bp b_data; r ← either_copyin data off (kobj a) sm m;
     b_set bp (fun x => x <| b_data := r.2 |>);;
     if r.1 =? -1 then brelse bp;; e else log_write bp;; brelse bp;; k) Q.
Proof.
  intros Ht Hs Hlg Hk. destruct (ev_txn_bread l0 L kt p pid Henv d ad Ht Hs) as (bp & d2 & o & E & Hi & P).
  pose proof (proj1 (rp_same _ _ _ _ _ _ _ P)) as F2. assert (self kt p pid d2) as Hs2 by by eapply self_fsame.
  apply po_bind. eapply po_evals; [exact E|]. apply po_bind, po_getd.
  rewrite (rp_data _ _ _ _ _ _ _ P). change (bview d ROOTDEV ad) with (ldisk d ad).
  apply po_bind. eapply po_evals. { unfold either_copyin. ev1. { eapply ev_myproc; [apply (fe_run _ _ _ Henv)|apply Hs2]. } cbn beta. ev1. }
  cbn [fst snd]. change (0 =? -1) with false. cbv iota. apply po_bind. eapply po_evals; [apply ev_b_set|]. cbn beta.
  fold (set_data bp (fun _ => memmove_across (ldisk d ad) off sm a m) d2).
  apply po_group, po_bind. eapply po_call; [by eapply (po_update l0 L kt p pid Henv d ad _ bp d2 o)|].
  intros [] d3 [U F]. by apply Hk.
Qed.

(** The blocks of the range are direct blocks or have been allocated before. *)
Definition direct_or_mapped (V : Z -> bytes) (x : inode) (off n : Z) : Prop :=
  forall bn, off / BSIZE <= bn -> bn * BSIZE < off + n -> bn < NDIRECT \/ faddr V x bn <> 0.

(** One round of the loop of [writei]. *)
Lemma po_write_round {B} d ip r a sm off m (k : M B) (e : M B) Q (x := d.(itable) ip) :
  writable d ip (S r) -> 0 <= off < MAXFILE * BSIZE -> 0 < m -> off mod BSIZE + m <= BSIZE ->
  (off / BSIZE < NDIRECT \/ faddr (ldisk d) x (off / BSIZE) <> 0) ->
  (forall d' y, wrote d.(sb) (start d) (ldisk d) x off m (fun k => sm (a + (k - off))) (ldisk d') y -> isame ip y d d' ->
     in_txn d d' -> d'.(klog).(lh_n) <= d.(klog).(lh_n) + 3 -> writable d' ip r -> posts l0 L d' k Q) ->
  posts l0 L d
    (addr ← bmap ip (off / BSIZE);
     if addr =? 0 then e else
     dev ← i_get ip i_dev;
     bp ← bread dev addr; data ← b_get bp b_data; r ← either_copyin data (off mod BSIZE) (kobj a) sm m;
     b_set bp (fun x => x <| b_data := r.2 |>);;
     if r.1 =? -1 then brelse bp;; e else log_write bp;; brelse bp;; k) Q.
Proof.
  intros W Ho Hm Hb Hcase Hk. pose proof (block_of off Ho) as Hbn. pose proof W as [W1 W2 W3 W4 W5 W6]. fold x in W4.
  apply po_bind. eapply po_call; [by apply (po_bmap_write d ip r (off / BSIZE))|]. fold x.
  intros ad d1 (y & Hwr & I & Hin & -> & Hne & Hlh & Hfr). rewrite (proj2 (Z.eqb_neq _ _) Hne).
  assert (y.(i_dev) = ROOTDEV) as Hdev.
  { rewrite (wr_inode _ _ _ _ _ _ _ _ _ (Hwr 0 (fun _ => 0))). apply (fo_dev _ _ (fw_ok _ _ _ _ W4)). }
  apply po_bind, po_getd. rewrite (is_entry _ _ _ _ I), Hdev.
  pose proof (wr_wf _ _ _ _ _ _ _ _ _ (Hwr 0 (fun _ => 0))) as Hwf. pose proof Hwf as [_ Hblk _].
  specialize (Hblk (off / BSIZE) ltac:(lia)). rewrite use_faddr in Hblk by lia. specialize (Hblk Hne). destruct Hblk as [B1 B2 B3 B4 B5].
  pose proof (proj2 (ge_map _ _ _ _ W3)) as Hsz. apply po_write_block.
  - apply (it_txn _ _ Hin).
  - by eapply isame_self.
  - split; [lia|]. rewrite (in_txn_start _ _ Hin). split; [done|lia].
  - intros d2 U F. assert (isame ip y d d2) as I2 by (by eapply isame_fsame).
    assert (in_txn d d2) as Hin2 by (eapply in_txn_trans; [done|by eapply txn_upd_in]).
    pose proof (data_wrote d.(sb) (start d) (ldisk d1) (ldisk d2) y off m sm a Hwf Hne Ho ltac:(lia) Hb (tu_disk _ _ _ _ U)) as Hd.
    pose proof (wrote_trans _ _ _ _ off 0 _ _ _ m _ _ ltac:(lia) ltac:(lia) ltac:(lia)
      ltac:(pose proof (Z.div_mod off BSIZE); change BSIZE with 1024 in *; change MAXFILE with 268 in *; lia)
      (Hwr off (fun k => sm (a + (k - off)))) ltac:(rewrite Z.add_0_r; exact Hd)) as Hall. rewrite Z.add_0_l in Hall.
    pose proof (txn_upd_n _ _ _ _ (it_txn _ _ Hin) U) as Hn.
    apply (Hk d2 y); try done; [lia|]. eapply writable_step; try done; [lia|].
    destruct Hfr as (l & F1 & F2 & F3). exists l. split; [done|]. split; [done|]. eapply Forall_impl; [exact F3|]. intros z [Z1 Z2].
    split; [done|]. rewrite (data_in_use d.(sb) (start d) (ldisk d1) (ldisk d2) y off m sm a Hwf Hne Ho (tu_disk _ _ _ _ U) z Z1). exact Z2.
Qed.

Lemma direct_or_mapped_step s st V x off m src V' y n : 0 <= off -> 0 <= m <= n -> off + n <= MAXFILE * BSIZE ->
  wrote s st V x off m src V' y -> direct_or_mapped V x off n -> direct_or_mapped V' y (off + m) (n - m).
Proof.
  intros Ho Hm Hmax Hwr H bn H1 H2. assert (BSIZE = 1024) as HB by done. assert (MAXFILE = 268) as HM by done.
  assert (off / BSIZE <= bn) as Hle by (rewrite HB in *; Z.div_mod_to_equations; lia).
  destruct (H bn Hle) as [Hd|Hne]; [lia|by left|right]. assert (0 <= bn < MAXFILE) as Hb by (rewrite HB in *; Z.div_mod_to_equations; lia).
  rewrite <- use_faddr in * by lia. rewrite (wr_keep _ _ _ _ _ _ _ _ _ Hwr); [done|lia|done].
Qed.

(** The offset after a round that fills its block. *)
Lemma next_block off : 0 <= off -> (off + (BSIZE - off mod BSIZE)) mod BSIZE = 0.
Proof. intros. change BSIZE with 1024. Z.div_mod_to_equations. lia. Qed.

Lemma po_writei_loop fuel r d ip a sm off n tot (x := d.(itable) ip) :
  writable d ip r -> 0 <= off -> 0 <= tot <= n -> off + (n - tot) <= MAXFILE * BSIZE -> direct_or_mapped (ldisk d) x off (n - tot) ->
  (tot < n -> off mod BSIZE + (n - tot) <= Z.of_nat fuel * BSIZE) -> (tot < n -> off mod BSIZE + (n - tot) <= Z.of_nat r * BSIZE) ->
  pst l0 L d (writei_loop fuel ip (kobj a) sm off n tot) (fun res d' => res = (n, off + (n - tot)) /\
    exists y, wrote d.(sb) (start d) (ldisk d) x off (n - tot) (fun k => sm (a + (k - off))) (ldisk d') y /\
      isame ip y d d' /\ in_txn d d' /\ d'.(klog).(lh_n) <= LOGSIZE - 2).
Proof.
  revert r d a off tot x. induction fuel as [|fuel IH]; intros r d a off tot x W Ho Htot Hmax Hd Hfu Hr; cbn [writei_loop];
    (destruct (Z.ltb_spec tot n) as [Hlt|Hge]; [|apply po_ret; split; [done|]; split; [f_equal; lia|]; exists x;
      replace (n - tot) with 0 by lia; split; [apply wrote_same; [done|apply (wb_wf _ _ _ W)]|]; split; [split; try done; by destruct d|];
      split; [apply in_txn_refl, (wb_txn _ _ _ W)|pose proof (wb_room _ _ _ W); lia]]).
  { specialize (Hfu Hlt). pose proof (Z.mod_pos_bound off BSIZE). change BSIZE with 1024 in *. lia. }
  specialize (Hfu Hlt). specialize (Hr Hlt). assert (BSIZE = 1024) as HB by done. assert (MAXFILE = 268) as HM by done.
  assert (0 <= off mod BSIZE < BSIZE) as Hmb by by apply Z.mod_pos_bound. destruct r as [|r]; [lia|].
  set (m := Z.min (n - tot) (BSIZE - off mod BSIZE)).
  apply (po_write_round d ip r a sm off m (writei_loop fuel ip (cptr_add (kobj a) m) sm (u32 (off + m)) n (tot + m)) (mret (tot, off)));
    [done|lia|unfold m; lia|unfold m; lia|apply Hd; [lia|rewrite HB in *; Z.div_mod_to_equations; lia]|].
  intros d1 y Hwr I Hin Hlh W1. cbn [cptr_add]. rewrite (u32_small (off + m)) by lia.
  assert (tot + m < n -> off mod BSIZE + (n - tot) - BSIZE = (off + m) mod BSIZE + (n - (tot + m))) as Hnext.
  { intros Hlt2. assert (m = BSIZE - off mod BSIZE) as Em by lia. rewrite Em. rewrite next_block by done. lia. }
  eapply po_mono; [apply (IH r d1 (a + m) (off + m) (tot + m) W1); try (unfold m; lia)|].
  - rewrite (is_entry _ _ _ _ I). replace (n - (tot + m)) with (n - tot - m) by lia. eapply direct_or_mapped_step; [..|exact Hwr|exact Hd]; unfold m; lia.
  - intros Hlt2. specialize (Hnext Hlt2). lia.
  - intros Hlt2. specialize (Hnext Hlt2). lia.
  - intros res L' d' [-> (-> & z & Hw2 & I2 & Hin2 & Hn2)]. split; [done|]. split; [f_equal; lia|]. exists z.
    rewrite (is_entry _ _ _ _ I), (isame_sb _ _ _ _ I), (in_txn_start _ _ Hin) in Hw2.
    split; [|split; [by eapply isame_trans|split; [by eapply in_txn_trans|done]]].
    replace (n - tot) with (m + (n - (tot + m))) by lia. eapply wrote_trans; [| | | |exact Hwr|]; try (unfold m; lia).
    eapply wrote_src; [|exact Hw2]. intros k. cbn. f_equal. lia.
Qed.

(** What [writei] does to a file system: the file has the bytes written and its other
    bytes, its inode is on the disk, the other inodes and every block that is in use but
    not the file's are as before. *)
Record written (s : superblock) (st : Z) (V : Z -> bytes) (x : inode) (off n : Z) (src : Z -> Z) (V' : Z -> bytes) (y : inode) : Prop := {
  wn_inode : y = x <| i_addrs := y.(i_addrs) |> <| i_size := Z.max x.(i_size) (off + n) |>;
  wn_bytes : forall k, 0 <= k < y.(i_size) -> fbyte V' y k = if (off <=? k) && (k <? off + n) then src k else fbyte V x k;
  wn_keep : forall bn, 0 <= bn < MAXFILE -> faddr V x bn <> 0 -> faddr V' y bn = faddr V x bn;
  wn_frame : forall z, 0 <= z < s.(sb_size) -> in_use V s z = true -> (forall bn, 0 <= bn < MAXFILE -> faddr V x bn <> z) ->
    (forall w, 0 <= w < s.(sb_size) -> BBLOCK w s <> z) -> z <> IBLOCK x.(i_inum) s -> V' z = V z;
  wn_stored : stored (V' (IBLOCK x.(i_inum) s)) (ioff x.(i_inum)) y;
  wn_inodes : forall j k, 0 <= j < 2 ^ 31 -> j <> x.(i_inum) -> IBLOCK j s = IBLOCK x.(i_inum) s -> 0 <= k < sizeof_dinode ->
    V' (IBLOCK j s) (ioff j + k) = V (IBLOCK j s) (ioff j + k);
  wn_used : forall z, 0 <= z < s.(sb_size) -> in_use V s z = true -> in_use V' s z = true;
  wn_wf : file_wf V' s st y;
}.

(** The inode is written with its new size. *)
Section size.
Context (s : superblock) (st : Z) (V V1 V' : Z -> bytes) (x y : inode) (off n : Z) (src : Z -> Z).
Let b := IBLOCK x.(i_inum) s.
Let y' := y <| i_size := Z.max x.(i_size) (off + n) |>.
Hypothesis (Hg : fs_geom V s st x.(i_inum)) (Hw : wrote s st V x off n src V1 y) (Hwf : file_wf V s st x) (Hok : inode_ok x).
Let Hx : file_ok V x := fw_ok _ _ _ _ Hwf.
Hypothesis (Ho : 0 <= off <= x.(i_size)) (Hn : 0 <= n) (Hmax : off + n <= MAXFILE * BSIZE).
Hypothesis (Hi : 0 <= x.(i_inum) < 2 ^ 31) (Hst : 0 <= s.(sb_inodestart) < 2 ^ 31).
Hypothesis HV : forall z, V' z = if decide (z = b) then store_dinode (V1 b) (ioff x.(i_inum)) y' else V1 z.

Lemma size_use bn : -1 <= bn < MAXFILE -> use V' y' bn = use V1 y bn /\ (use V1 y bn <> 0 -> V' (use V1 y bn) = V1 (use V1 y bn)).
Proof.
  intros Hb. pose proof (wr_wf _ _ _ _ _ _ _ _ _ Hw) as [_ Hblk _].
  assert (forall j, -1 <= j < MAXFILE -> use V1 y j <> 0 -> V' (use V1 y j) = V1 (use V1 y j)) as He.
  { intros j Hj Hne. rewrite HV, decide_False; [done|]. destruct (Hblk j Hj Hne) as [_ _ _ _ D].
    rewrite (wr_inode _ _ _ _ _ _ _ _ _ Hw) in D at 2. exact D. }
  split; [|by apply He]. unfold use, faddr. change (i_addrs y') with (i_addrs y). destruct (bn =? -1); [done|]. destruct (bn <? NDIRECT); [done|].
  destruct (Z.eqb_spec (i_addrs y NDIRECT) 0) as [|N]; [done|]. specialize (He (-1) ltac:(change MAXFILE with 268; lia)).
  change (use V1 y (-1)) with (i_addrs y NDIRECT) in He. by rewrite He.
Qed.

Lemma size_byte k : 0 <= k < MAXFILE * BSIZE -> faddr V1 y (k / BSIZE) <> 0 -> fbyte V' y' k = fbyte V1 y k.
Proof.
  intros Hk Hne. pose proof (block_of k Hk). destruct (size_use (k / BSIZE) ltac:(lia)) as [E1 E2]. unfold fbyte.
  rewrite !use_faddr in * by lia. rewrite E1. by rewrite E2.
Qed.

Lemma size_in_use z : 0 <= z < s.(sb_size) -> in_use V' s z = in_use V1 s z.
Proof. intros Hz. unfold in_use. rewrite HV, decide_False; [done|]. destruct (ge_inode _ _ _ _ Hg) as (_ & _ & _ & G). by apply G. Qed.

(** Every block below the new size is there. *)
Lemma size_mapped k : 0 <= k < Z.max x.(i_size) (off + n) -> faddr V1 y (k / BSIZE) <> 0.
Proof.
  intros Hk. destruct (decide (off <= k < off + n)) as [Hin|Hout]; [by apply (wr_in _ _ _ _ _ _ _ _ _ Hw)|].
  pose proof (fo_size _ _ Hx) as Hsz. pose proof (block_of k ltac:(lia)) as Hb.
  assert (faddr V x (k / BSIZE) <> 0) as Hne.
  { apply (fo_mapped _ _ Hx); [lia|]. change BSIZE with 1024 in *. Z.div_mod_to_equations. lia. }
  rewrite <- use_faddr in * by lia. rewrite (wr_keep _ _ _ _ _ _ _ _ _ Hw); [done|lia|done].
Qed.

Lemma size_wf : file_wf V' s st y'.
Proof.
  pose proof (wr_wf _ _ _ _ _ _ _ _ _ Hw) as [[O1 O2 O3] W2 W3]. pose proof (fo_size _ _ Hx) as Hsz.
  split; [split; [done|cbn; lia|]| |].
  - intros bn Hb Hs. cbn in Hs. assert (0 <= bn * BSIZE < MAXFILE * BSIZE) as Hr by (change BSIZE with 1024 in *; lia).
    pose proof (block_of _ Hr) as Hb'. rewrite Z.div_mul in Hb' by done. pose proof (size_mapped (bn * BSIZE) ltac:(lia)) as Hm. rewrite Z.div_mul in Hm by done.
    rewrite <- use_faddr in * by lia. destruct (size_use bn ltac:(lia)) as [-> _]. exact Hm.
  - intros bn Hb. destruct (size_use bn Hb) as [-> _]. intros Hne. destruct (W2 bn Hb Hne) as [D1 D2 D3 D4 D5]. split; try done. by rewrite size_in_use.
  - intros bn bn' Hb Hb'. destruct (size_use bn Hb) as [-> _], (size_use bn' Hb') as [-> _]. by apply W3.
Qed.

Lemma size_inode_ok : inode_ok y'.
Proof.
  destruct Hok as [K1 K2 K3 K4 K5 K6]. pose proof (wr_inode _ _ _ _ _ _ _ _ _ Hw) as Ey. unfold y'. rewrite Ey. pose proof (fo_size _ _ Hx).
  split; try done; cbn [i_size i_addrs]; [change (MAXFILE * BSIZE) with 274432 in *; cbn; lia|]. intros i Hr. cbn.
  change NDIRECT with 12 in Hr. assert (-1 <= (if i =? 12 then -1 else i) < MAXFILE) as Hb by (change MAXFILE with 268; destruct (i =? 12); lia).
  assert (use V1 y (if i =? 12 then -1 else i) = y.(i_addrs) i) as Eu.
  { unfold use, faddr. change NDIRECT with 12. destruct (Z.eqb_spec i 12) as [->|]; [done|]. rewrite (proj2 (Z.eqb_neq i (-1))), (proj2 (Z.ltb_lt i 12)) by lia. done. }
  destruct (decide (y.(i_addrs) i = 0)) as [->|N]; [lia|]. rewrite <- Eu in N |- *.
  destruct (fw_block _ _ _ _ (wr_wf _ _ _ _ _ _ _ _ _ Hw) _ Hb N) as [D _ _ _ _]. pose proof (proj2 (ge_map _ _ _ _ Hg)). lia.
Qed.

Lemma size_written : written s st V x off n src V' y'.
Proof.
  pose proof (wr_inode _ _ _ _ _ _ _ _ _ Hw) as Ey. pose proof (fo_size _ _ Hx) as Hsz. split.
  - unfold y'. by rewrite Ey.
  - intros k Hk. change (i_size y') with (Z.max x.(i_size) (off + n)) in Hk. pose proof (size_mapped k Hk) as Hne.
    rewrite size_byte by (done || lia). destruct (decide (off <= k < off + n)) as [Hin|Hout].
    + destruct (_ && _) eqn:E; [|lia]. by apply (wr_in _ _ _ _ _ _ _ _ _ Hw).
    + destruct (_ && _) eqn:E; [lia|]. apply (wr_out _ _ _ _ _ _ _ _ _ Hw); [lia|done|].
      apply (fo_mapped _ _ Hx); [apply Z.div_pos; [lia|done]|]. change BSIZE with 1024 in *. Z.div_mod_to_equations. lia.
  - intros bn Hb Hne. rewrite <- use_faddr in * by lia. rewrite <- use_faddr by lia. destruct (size_use bn ltac:(lia)) as [-> _].
    apply (wr_keep _ _ _ _ _ _ _ _ _ Hw); [lia|done].
  - intros z Hz Hu Hf Hm Hb. rewrite HV, decide_False by done. by apply (wr_frame _ _ _ _ _ _ _ _ _ Hw).
  - fold b. rewrite HV, decide_True by done. apply dinode_roundtrip, size_inode_ok.
  - intros j k Hj Hne Eb Hk. destruct (ge_inode _ _ _ _ Hg) as (G1 & G2 & G3 & G4). rewrite Eb. fold b. rewrite HV, decide_True by done.
    rewrite store_dinode_out by (destruct (inode_apart s j x.(i_inum)) as [A|A]; try done; lia).
    fold b in G1, G2, G4. rewrite (wr_frame _ _ _ _ _ _ _ _ _ Hw); [done|lia|done| |done].
    intros bn Hb E. rewrite <- use_faddr in E by lia. destruct (fw_block _ _ _ _ Hwf bn) as [_ _ _ _ D]; [lia|lia|done].
  - intros z Hz Hu. rewrite size_in_use by done. by apply (wr_used _ _ _ _ _ _ _ _ _ Hw).
  - apply size_wf.
Qed.
End size.

Lemma writei_spec d ip a sm off n r (x := d.(itable) ip) :
  writable d ip r -> inode_ok x -> 0 <= x.(i_inum) < 2 ^ 31 -> 0 <= d.(sb).(sb_inodestart) < 2 ^ 31 ->
  0 <= off -> 0 <= n -> off + n < 2 ^ 32 -> off mod BSIZE + n <= Z.of_nat r * BSIZE -> direct_or_mapped (ldisk d) x off n ->
  if (x.(i_size) <? off) || (MAXFILE * BSIZE <? off + n) then pst l0 L d (writei ip (kobj a) sm off n) (fun res d' => res = -1 /\ d' = d)
  else pst l0 L d (writei ip (kobj a) sm off n) (fun res d' => res = n /\ exists y,
    written d.(sb) (start d) (ldisk d) x off n (fun k => sm (a + (k - off))) (ldisk d') y /\ isame ip y d d' /\ in_txn d d').
Proof.
  intros W Hok Hi Hst Ho Hn Hu Hr Hd. unfold writei. pose proof W as [W1 W2 W3 W4 W5 W6]. fold x in W3, W4.
  assert ((u32 (off + n) <? off) = false) as Eu by (rewrite u32_small by lia; apply Z.ltb_ge; lia).
  destruct (Z.ltb_spec x.(i_size) off) as [Hlt|Hge]; cbn [orb].
  { apply po_bind, po_getd. fold x. rewrite (proj2 (Z.ltb_lt _ _) Hlt). cbn [orb]. by apply po_ret. }
  destruct (Z.ltb_spec (MAXFILE * BSIZE) (off + n)) as [Hbig|Hfit].
  { apply po_bind, po_getd. fold x. rewrite (proj2 (Z.ltb_ge _ _) Hge), Eu. cbn [orb]. rewrite u32_small, (proj2 (Z.ltb_lt _ _) Hbig) by lia. by apply po_ret. }
  apply po_bind, po_getd. fold x. rewrite (proj2 (Z.ltb_ge _ _) Hge), Eu. cbn [orb]. rewrite u32_small, (proj2 (Z.ltb_ge _ _) Hfit) by lia.
  apply po_bind. eapply po_call; [apply (po_writei_loop _ r d ip a sm off n 0 W); rewrite ?Z.sub_0_r; try (done || lia)|].
  { intros _. rewrite Z2Nat.id by (pose proof (Z.div_pos n BSIZE ltac:(lia) ltac:(done)); lia).
    pose proof (Z.mod_pos_bound off BSIZE). pose proof (Z.div_mod n BSIZE). pose proof (Z.mod_pos_bound n BSIZE). change BSIZE with 1024 in *. lia. }
  rewrite Z.sub_0_r. fold x. intros res d1 (-> & y & Hw & I & Hin & Hlh). cbn [fst snd].
  pose proof (wr_inode _ _ _ _ _ _ _ _ _ Hw) as Ey. assert (y.(i_size) = x.(i_size)) as Es by (by rewrite Ey).
  apply po_bind, po_getd. rewrite (is_entry _ _ _ _ I), Es.
  set (y' := y <| i_size := Z.max x.(i_size) (off + n) |>).
  apply po_bind, (po_call _ _ _ _ (fun _ d2 => isame ip y' d d2 /\ fs_eq d1 d2)).
  { apply po_when; [intros Hg%Z.ltb_lt|intros Hs%Z.ltb_ge].
    - apply po_modd. split; [done|]. split; [|done]. eapply isame_trans; [exact I|].
      pose proof (isame_upd ip (fun x => x <| i_size := off + n |>) d1) as H. rewrite (is_entry _ _ _ _ I) in H.
      unfold y'. rewrite Z.max_r by lia. exact H.
    - split; [done|]. split; [|done]. unfold y'. rewrite Z.max_l, <- Es by lia. replace (y <| i_size := i_size y |>) with y by (by destruct y). exact I. }
  intros [] d2 [I2 Eq].
  assert (y'.(i_inum) = x.(i_inum) /\ y'.(i_dev) = ROOTDEV) as [Yi Yd].
  { unfold y'. rewrite Ey. split; [done|]. apply (fo_dev _ _ (fw_ok _ _ _ _ W4)). }
  pose proof (is_entry _ _ _ _ I2) as Ye. pose proof (isame_sb _ _ _ _ I2) as Esb. pose proof (ge_inode _ _ _ _ W3) as (G1 & _ & G3 & _).
  pose proof (proj2 (ge_map _ _ _ _ W3)) as Hsz.
  apply po_bind. eapply po_call; [apply (po_iupdate l0 L kt p pid Henv d2 ip); rewrite ?Ye, ?Yi, ?Esb|].
  - eapply txn_eq; [exact Eq|apply (it_txn _ _ Hin)].
  - by eapply isame_self.
  - exact Yd.
  - split; [lia|]. rewrite (fq_klog _ _ Eq), (in_txn_start _ _ Hin). split; [done|lia].
  - rewrite Ye, Yi, Esb. intros [] d3 [U F]. apply po_ret. split; [done|]. rewrite s32_small by (change (MAXFILE * BSIZE) with 274432 in *; lia).
    split; [done|]. exists y'. split; [|split; [by eapply isame_fsame|]].
    + apply (size_written d.(sb) (start d) (ldisk d) (ldisk d1)); try done. intros z. rewrite (tu_disk _ _ _ _ U), !(ldisk_eq d1 d2) by done. done.
    + eapply in_txn_trans; [exact Hin|]. eapply in_txn_trans; [|by eapply txn_upd_in]. apply txn_same_in.
      apply (txn_same_eq d1 d1 d1); [done| |done]. split; try done. apply (it_txn _ _ Hin).
Qed.

End writes.

(** ** Instances *)

Section witnesses.
#[local] Existing Instance sync_disk.
#[local] Existing Instance sync_disk_ok.
#[local] Existing Instance demo_fuel.

(** The file system of [demo_fs] with a file of 32 bytes in block 46, inode 1. *)
Definition demo_file (ty : Z) : inode := Inode ROOTDEV 1 1 sleeplock0 1 ty 0 0 1 32 (fun i => if i =? 0 then 46 else 0).
Definition demo_file_state (ty : Z) : kdata := reserved (demo_fs_on demo_bitmap (fun i => if decide (i = 0%nat) then (demo_file ty) else inode0)).

Lemma demo_file_disk ty z : ldisk (demo_file_state ty) z = demo_bitmap z.
Proof. by apply demo_disk_on. Qed.

Lemma demo_file_use ty z : 0 <= z < 1000 -> in_use (ldisk (demo_file_state ty)) demo_sb z = (z <? 50).
Proof. intros Hz. unfold in_use. rewrite demo_file_disk, <- demo_fs_disk. by apply demo_fs_use. Qed.

Lemma demo_file_faddr ty bn : -1 <= bn -> use (ldisk (demo_file_state ty)) (demo_file ty) bn = if bn =? 0 then 46 else 0.
Proof.
  intros Hb. unfold use, faddr. cbn [i_addrs demo_file]. change (NDIRECT =? 0) with false. cbv iota.
  destruct (Z.eqb_spec bn (-1)) as [->|]; [done|]. destruct (bn <? NDIRECT) eqn:E; [done|]. change (0 =? 0) with true. cbv iota.
  destruct (Z.eqb_spec bn 0) as [->|]; done.
Qed.

Lemma demo_writable ty : writable demo_kt 1 demo_pid (demo_file_state ty) 0 2.
Proof.
  split.
  - apply reserved_txn. by apply demo_idle.
  - done.
  - change (sb (demo_file_state ty)) with demo_sb. change (lg_start (klog (demo_file_state ty))) with 2. split.
    + done.
    + by apply demo_file_use.
    + intros y Hy. rewrite demo_bblock by done. split; [done|]. unfold in_log. change LOGSIZE with 30. lia.
    + intros y Hy Hf. rewrite demo_file_use in Hf by done. apply Z.ltb_ge in Hf. unfold in_log. change LOGSIZE with 30.
      split; [lia|]. intros z Hz. rewrite demo_bblock by done. lia.
    + change (IBLOCK _ demo_sb) with 33. split; [done|]. split; [by apply demo_file_use|]. unfold in_log. change LOGSIZE with 30.
      split; [lia|]. intros z Hz. rewrite demo_bblock by done. lia.
  - change (sb (demo_file_state ty)) with demo_sb. change (lg_start (klog (demo_file_state ty))) with 2. change (itable (demo_file_state ty) 0%nat) with (demo_file ty). split.
    + split; [done|done|]. intros bn Hb Hs. change (i_size (demo_file ty)) with 32 in Hs. change BSIZE with 1024 in Hs. assert (bn = 0) as -> by lia. done.
    + intros bn Hb. rewrite demo_file_faddr by lia. destruct (bn =? 0); [intros _|done]. split; [done|by apply demo_file_use| |..].
      * unfold in_log. change LOGSIZE with 30. lia.
      * intros z Hz. rewrite demo_bblock by done. lia.
      * done.
    + intros bn bn' Hb Hb'. rewrite !demo_file_faddr by lia. destruct (Z.eqb_spec bn 0), (Z.eqb_spec bn' 0); [congruence|done|done|done].
  - exists [50; 51]. split; [by apply (bool_decide_unpack _)|]. split; [done|]. change (sb (demo_file_state ty)) with demo_sb.
    apply Forall_cons; split; [split; [done|by apply demo_file_use]|]. apply Forall_cons; split; [split; [done|by apply demo_file_use]|]. constructor.
  - done.
Qed.

End witnesses.
