(* ===== verification/PathSpec.v ===== *)
(** * What kernel/fs.c guarantees: paths

    A path is the list of its elements, the non-empty parts between slashes; [skipelem]
    takes them off one at a time.  [walk_path] follows elements through the directories on the
    disk.  [namex] is proved to implement [walk_path] through the inode table, with exact
    reference counts. *)
From S2P Require Export DirSpec.

(** ** The elements of a path *)

(** The part before the first slash, and the parts after it. *)
Fixpoint split_path (l : list Z) : list Z * list (list Z) :=
  match l with
  | [] => ([], [])
  | c :: l => let '(w, ws) := split_path l in if c =? SLASH then ([], w :: ws) else (c :: w, ws)
  end.
Definition elements (l : list Z) : list (list Z) := filter (fun w => w <> []) ((split_path l).1 :: (split_path l).2).

(** The string at [p] is [l]. *)
Record path_at (m : bytes) (p : Z) (l : list Z) : Prop := {
  pa_chars : forall i c, l !! i = Some c -> m (p + Z.of_nat i) = c;
  pa_end : m (p + Z.of_nat (length l)) = 0;
  pa_nul : 0 ∉ l;
}.

Lemma path_at_cons m p c l : path_at m p (c :: l) <-> m p = c /\ c <> 0 /\ path_at m (p + 1) l.
Proof.
  split.
  - intros [H1 H2 H3]. apply not_elem_of_cons in H3 as [H3 H4]. split; [|split; [done|split; [| |done]]].
    + rewrite <- (H1 0%nat c eq_refl). f_equal. lia.
    + intros i d Hi. rewrite <- (H1 (S i) d Hi). f_equal. lia.
    + rewrite <- H2. f_equal. cbn [length]. lia.
  - intros (H1 & H2 & [H3 H4 H5]). split.
    + intros [|i] d Hi; [injection Hi as <-; rewrite <- H1; f_equal; lia|]. rewrite <- (H3 i d Hi). f_equal. lia.
    + rewrite <- H4. f_equal. cbn [length]. lia.
    + by apply not_elem_of_cons.
Qed.

Lemma path_at_nil m p : path_at m p [] <-> m p = 0.
Proof.
  split; [intros [_ H _]; rewrite <- H; f_equal; cbn; lia|]. intros H. split; [done|by rewrite Z.add_0_r|apply not_elem_of_nil].
Qed.

(** [skip_while] takes the longest prefix that satisfies [f]. *)
Lemma skip_while_spec fuel f m p l : f 0 = false -> path_at m p l -> (length l <= fuel)%nat ->
  exists w r, l = w ++ r /\ Forall (fun c => f c = true) w /\ (forall c r', r = c :: r' -> f c = false) /\
    skip_while fuel f m p = Some (p + Z.of_nat (length w)) /\ path_at m (p + Z.of_nat (length w)) r.
Proof.
  intros H0. revert fuel p. induction l as [|c l IH]; intros fuel p Hp Hf.
  - exists [], []. apply path_at_nil in Hp as E. split; [done|]. split; [done|]. split; [done|].
    rewrite Z.add_0_r. split; [|done]. destruct fuel; cbn; by rewrite E, H0.
  - apply path_at_cons in Hp as Hp'. destruct Hp' as (E & Hc & Hp'). destruct (f c) eqn:Ef.
    + destruct fuel as [|fuel]; [cbn in Hf; lia|]. destruct (IH fuel (p + 1) Hp' ltac:(cbn in Hf; lia)) as (w & r & -> & F & R & Es & Hr).
      exists (c :: w), r. replace (p + Z.of_nat (length (c :: w))) with (p + 1 + Z.of_nat (length w)) by (cbn [length]; lia).
      split; [done|]. split; [by constructor|]. split; [done|]. split; [|done]. cbn. by rewrite E, Ef.
    + exists [], (c :: l). rewrite Z.add_0_r. split; [done|]. split; [done|]. split; [by intros ? ? [= <- _]|]. split; [|done].
      destruct fuel; cbn; by rewrite E, Ef.
Qed.

Lemma split_path_app w r : Forall (fun c => c <> SLASH) w -> split_path (w ++ r) = (w ++ (split_path r).1, (split_path r).2).
Proof.
  induction 1 as [|c w Hc Hw IH]; [cbn [app]; by rewrite <- surjective_pairing|]. cbn. rewrite IH. by rewrite (proj2 (Z.eqb_neq c SLASH)).
Qed.

Lemma elements_slashes w r : Forall (fun c => c = SLASH) w -> elements (w ++ r) = elements r.
Proof.
  induction 1 as [|c w -> Hw IH]; [done|]. rewrite <- IH. unfold elements. cbn [app split_path].
  destruct (split_path (w ++ r)) as [u us]. by rewrite Z.eqb_refl.
Qed.

Lemma elements_word w r : Forall (fun c => c <> SLASH) w -> w <> [] -> (forall c r', r = c :: r' -> c = SLASH) ->
  elements (w ++ r) = w :: elements r.
Proof.
  intros Hw Hne Hr. unfold elements. rewrite split_path_app by done.
  assert ((split_path r).1 = []) as ->.
  { destruct r as [|c r]; [done|]. rewrite (Hr c r eq_refl). cbn. by destruct (split_path r). }
  rewrite app_nil_r. cbn [fst snd]. rewrite (filter_cons _ w), decide_True by done. by rewrite (filter_cons _ []), decide_False by (intros H; by apply H).
Qed.

Lemma elements_none r : (forall c r', r = c :: r' -> c <> SLASH) -> elements r = [] <-> r = [].
Proof.
  intros Hr. split; [|by intros ->]. destruct r as [|c r]; [done|]. unfold elements. cbn [split_path].
  destruct (split_path r) as [u us]. rewrite (proj2 (Z.eqb_neq c SLASH)) by (by eapply Hr). cbn [fst snd]. by rewrite filter_cons, decide_True.
Qed.

(** The buffer [name] holds the element [e], cut off after [DIRSIZ] characters. *)
Definition holds_elem (name : bytes) (e : list Z) : Prop :=
  (forall i c, (i < Z.to_nat DIRSIZ)%nat -> e !! i = Some c -> name (Z.of_nat i) = c) /\
  (Z.of_nat (length e) < DIRSIZ -> name (Z.of_nat (length e)) = 0).

(** Comparing with the buffer is comparing with the element. *)
Lemma elem_agree name e de q : holds_elem name e -> str_agree DIRSIZ name 0 de q <-> str_agree DIRSIZ (bytes_of e) 0 de q.
Proof.
  intros [H1 H2]. change DIRSIZ with 14 in *. change (Z.to_nat 14) with 14%nat in H1.
  assert (forall i, 0 <= i < 14 -> i <= Z.of_nat (length e) -> name i = bytes_of e i) as He.
  { intros i Hi Hle. destruct (decide (i = Z.of_nat (length e))) as [->|Hne]; [rewrite H2, bytes_of_beyond by lia; done|].
    destruct (lookup_lt_is_Some_2 e (Z.to_nat i)) as [c Hc]; [lia|]. rewrite <- (Z2Nat.id i) by lia.
    rewrite (H1 _ c) by (done || lia). symmetry. by apply bytes_of_lookup. }
  split; intros H i Hi Hnz.
  - destruct (decide (i <= Z.of_nat (length e))) as [Hle|Hgt]; [|destruct (Hnz (Z.of_nat (length e)) ltac:(lia)); by apply bytes_of_beyond].
    rewrite <- H; [rewrite Z.add_0_l; symmetry; apply He; lia|done|]. intros j Hj. rewrite Z.add_0_l, He by lia. by apply Hnz.
  - destruct (decide (i <= Z.of_nat (length e))) as [Hle|Hgt]; [|destruct (Hnz (Z.of_nat (length e)) ltac:(lia)); apply H2; lia].
    rewrite <- H; [rewrite Z.add_0_l; apply He; lia|done|]. intros j Hj. rewrite Z.add_0_l, <- He by lia. by apply Hnz.
Qed.

Lemma copied_elem m s name e r (len := Z.of_nat (length e)) : path_at m s (e ++ r) ->
  holds_elem (if DIRSIZ <=? len then memmove_across name 0 m s DIRSIZ else <[len := 0]> (memmove_across name 0 m s len)) e.
Proof.
  intros [H1 H2 H3]. change DIRSIZ with 14 in *. split.
  - change (Z.to_nat DIRSIZ) with 14%nat. intros i c Hi Hc. pose proof (lookup_lt_Some _ _ _ Hc) as Hl.
    assert (m (s + Z.of_nat i) = c) as Em by (apply H1; rewrite lookup_app_l by done; exact Hc).
    destruct (Z.leb_spec 14 len) as [Hbig|Hsmall].
    + rewrite memmove_across_spec by lia. destruct (_ && _) eqn:E; [|lia]. by rewrite Z.sub_0_r.
    + rewrite fn_lookup_insert_ne, memmove_across_spec by lia. destruct (_ && _) eqn:E; [|lia]. by rewrite Z.sub_0_r.
  - change DIRSIZ with 14. fold len. intros Hs. rewrite (proj2 (Z.leb_gt 14 len)) by lia. apply fn_lookup_insert.
Qed.

Lemma path_bytes m s e r : path_at m s (e ++ r) -> byte_data m -> byte_data (bytes_of e).
Proof.
  intros [H1 _ _] Hm i. unfold bytes_of. case_match; [done|]. destruct (e !! _) as [c|] eqn:E; [|done]. cbn.
  rewrite <- (H1 (Z.to_nat i) c); [apply Hm|]. rewrite lookup_app_l by (by eapply lookup_lt_Some). exact E.
Qed.

(** [skipelem] takes the first element off the path and skips the slashes after it. *)
Lemma skipelem_spec m p l name : path_at m p l -> (length l <= Z.to_nat MAXPATH)%nat ->
  match elements l with
  | [] => skipelem m p name = Some (None, name)
  | e :: es => exists p' l' name', skipelem m p name = Some (Some p', name') /\ path_at m p' l' /\ elements l' = es /\
      (m p' = 0 <-> es = []) /\ (length l' < length l)%nat /\ holds_elem name' e /\ (byte_data m -> byte_data name -> byte_data name' /\ byte_data (bytes_of e))
  end.
Proof.
  intros Hp Hl. unfold skipelem. destruct (skip_while_spec (Z.to_nat MAXPATH) (fun c => c =? SLASH) m p l) as (w & r & -> & Fw & Hr & -> & Hpr); [done|done|done|].
  rewrite length_app in Hl. rewrite elements_slashes by (eapply Forall_impl; [exact Fw|]; intros c; apply Z.eqb_eq).
  cbn [mbind option_bind]. set (s := p + Z.of_nat (length w)) in *. destruct r as [|c r].
  { apply path_at_nil in Hpr. rewrite Hpr. done. }
  specialize (Hr c r eq_refl). apply Z.eqb_neq in Hr. apply path_at_cons in Hpr as Hpc. destruct Hpc as (Ec & Hc0 & _). rewrite Ec, (proj2 (Z.eqb_neq c 0)) by done.
  destruct (skip_while_spec (Z.to_nat MAXPATH) (fun c => negb (c =? SLASH) && negb (c =? 0)) m s (c :: r)) as (e & r1 & E1 & Fe & Hr1 & -> & Hp1); [done|done|lia|].
  cbn [mbind option_bind]. rewrite E1 in Hpr, Hl |- *. rewrite length_app in Hl.
  destruct (skip_while_spec (Z.to_nat MAXPATH) (fun c => c =? SLASH) m (s + Z.of_nat (length e)) r1) as (w2 & l' & -> & Fw2 & Hr2 & -> & Hp2); [done|done|lia|].
  cbn [mbind option_bind]. rewrite length_app in Hl. assert (e <> []) as He0.
  { intros ->. specialize (Hr1 c r (eq_sym E1)). cbn beta in Hr1. by rewrite (proj2 (Z.eqb_neq c SLASH)), (proj2 (Z.eqb_neq c 0)) in Hr1. }
  rewrite elements_word; [|eapply Forall_impl; [exact Fe|]; intros x Hx; apply andb_true_iff in Hx as [Hx _]; by apply negb_true_iff, Z.eqb_neq in Hx|done|].
  2: { intros x r' Ex. specialize (Hr1 x r' Ex). rewrite Ex in Hp1. apply path_at_cons in Hp1 as (_ & Hx & _). cbn beta in Hr1.
    rewrite (proj2 (Z.eqb_neq x 0)) in Hr1 by done. rewrite andb_true_r in Hr1. by apply negb_false_iff, Z.eqb_eq in Hr1. }
  rewrite elements_slashes by (eapply Forall_impl; [exact Fw2|]; intros x; apply Z.eqb_eq).
  replace (s + Z.of_nat (length e) - s) with (Z.of_nat (length e)) by lia.
  eexists _, l', _. split; [done|]. split; [exact Hp2|]. split; [done|]. split; [|split; [|split]].
  - rewrite elements_none by (intros x r' Ex; apply Z.eqb_neq; by eapply Hr2). destruct l' as [|x l'].
    + by apply path_at_nil in Hp2.
    + apply path_at_cons in Hp2 as (Ex & Hx & _). split; [congruence|done].
  - rewrite !length_app. destruct e; [done|]. cbn. lia.
  - by apply (copied_elem m s name e (w2 ++ l')).
  - intros Hm Hn. split; [|by eapply path_bytes]. destruct (_ <=? _).
    + by apply memmove_across_bytes.
    + intros i. rewrite fn_insert_case. case_decide; [done|]. apply memmove_across_bytes; [lia|done|done].
Qed.

(** ** The directory tree on the disk *)

(** The inode [inum] as it is on the disk. *)
Definition disk_inode (V : Z -> bytes) (s : superblock) (inum : Z) : inode :=
  load_dinode (V (IBLOCK inum s)) (ioff inum) (inode0 <| i_dev := ROOTDEV |> <| i_inum := inum |>).

(** The inode number of the first directory entry with the name [e]. *)
Definition dir_find (V : Z -> bytes) (x : inode) (e : list Z) : option Z :=
  match List.find (fun off => negb (de_inum (dirent_at V x off) =? 0) && (namecmp (bytes_of e) 0 (dirent_at V x off) 2 =? 0))
    (steps sizeof_dirent x.(i_size)) with
  | Some off => Some (de_inum (dirent_at V x off))
  | None => None
  end.

(** The inode that the elements lead to, from [inum] on. *)
Fixpoint walk_path (V : Z -> bytes) (s : superblock) (inum : Z) (es : list (list Z)) : option Z :=
  match es with
  | [] => Some inum
  | e :: es =>
      let x := disk_inode V s inum in
      if x.(i_type) =? T_DIR then match dir_find V x e with Some i => walk_path V s i es | None => None end else None
  end.

(** The directory of the last element. *)
Fixpoint walk_parent (V : Z -> bytes) (s : superblock) (inum : Z) (es : list (list Z)) : option Z :=
  match es with
  | [] => None
  | e :: es =>
      let x := disk_inode V s inum in
      if x.(i_type) =? T_DIR then
        match es with
        | [] => Some inum
        | _ => match dir_find V x e with Some i => walk_parent V s i es | None => None end
        end
      else None
  end.

(** The inodes of the tree: linked, and their directories well-formed. *)
Record tree_ok (V : Z -> bytes) (s : superblock) (live : Z -> Prop) : Prop := {
  to_type : forall i, live i -> (disk_inode V s i).(i_type) <> 0;
  to_link : forall i, live i -> (disk_inode V s i).(i_nlink) <> 0;
  to_dir : forall i, live i -> (disk_inode V s i).(i_type) = T_DIR -> dir_ok V (disk_inode V s i);
  to_entry : forall i off, live i -> (disk_inode V s i).(i_type) = T_DIR -> off ∈ steps sizeof_dirent (disk_inode V s i).(i_size) ->
    de_inum (dirent_at V (disk_inode V s i) off) <> 0 -> live (de_inum (dirent_at V (disk_inode V s i) off));
}.

Lemma find_first {A} (f : A -> bool) (l : list A) :
  match List.find f l with
  | Some a => exists l1 l2, l = l1 ++ a :: l2 /\ f a = true /\ forall b, b ∈ l1 -> f b = false
  | None => forall b, b ∈ l -> f b = false
  end.
Proof.
  induction l as [|a l IH]; cbn [List.find]; [intros b Hb; by apply elem_of_nil in Hb|]. destruct (f a) eqn:E.
  - exists [], l. split; [done|]. split; [done|]. intros b Hb. by apply elem_of_nil in Hb.
  - destruct (List.find f l) as [c|].
    + destruct IH as (l1 & l2 & -> & Ec & H1). exists (a :: l1), l2. split; [done|]. split; [done|]. intros b [->|Hb]%elem_of_cons; [done|by apply H1].
    + intros b [->|Hb]%elem_of_cons; [done|by apply IH].
Qed.

(** [dir_find] in terms of the entries that [dirlookup] accepts. *)
Lemma dir_find_spec V x e name : (forall z, byte_data (V z)) -> byte_data (bytes_of e) -> holds_elem name e ->
  match dir_find V x e with
  | Some i => exists l1 off l2, steps sizeof_dirent x.(i_size) = l1 ++ off :: l2 /\ dir_hit V x name off /\
      (forall o, o ∈ l1 -> ~ dir_hit V x name o) /\ i = de_inum (dirent_at V x off)
  | None => forall off, off ∈ steps sizeof_dirent x.(i_size) -> ~ dir_hit V x name off
  end.
Proof.
  intros HV He Hn. set (f := fun off => negb (de_inum (dirent_at V x off) =? 0) && (namecmp (bytes_of e) 0 (dirent_at V x off) 2 =? 0)).
  assert (forall off, f off = true <-> dir_hit V x name off) as Hf.
  { intros off. unfold f, dir_hit. rewrite andb_true_iff, negb_true_iff, Z.eqb_neq, (namecmp_zero (bytes_of e) V x off) by done.
    by rewrite (elem_agree name e). }
  unfold dir_find. fold f. pose proof (find_first f (steps sizeof_dirent x.(i_size))) as H. destruct (List.find f _) as [off|].
  - destruct H as (l1 & l2 & El & Eo & H1). exists l1, off, l2. split; [done|]. split; [by apply Hf|]. split; [|done].
    intros o Ho Hh. apply Hf in Hh. by rewrite H1 in Hh.
  - intros off Ho Hh. apply Hf in Hh. by rewrite H in Hh.
Qed.

(** An entry of the table that agrees with the disk is the inode of the disk. *)
Lemma stored_view V s y x (m := V (IBLOCK y.(i_inum) s)) : stored m (ioff y.(i_inum)) y -> x = disk_inode V s y.(i_inum) ->
  x.(i_type) = y.(i_type) /\ x.(i_nlink) = y.(i_nlink) /\ x.(i_size) = y.(i_size) /\
  (forall bn, 0 <= bn -> faddr V x bn = faddr V y bn) /\ (forall off, 0 <= off -> forall i, dirent_at V x off i = dirent_at V y off i).
Proof.
  intros [S1 S2 S3 S4 S5 S6] ->. fold m. cbn. assert (NDIRECT = 12) as HND by done.
  assert (forall bn, 0 <= bn -> faddr V (disk_inode V s (i_inum y)) bn = faddr V y bn) as Hf.
  { intros bn Hb. assert (forall k, 0 <= k <= NDIRECT -> i_addrs (disk_inode V s (i_inum y)) k = i_addrs y k) as Ha.
    { intros k Hk. cbn. rewrite (proj2 (Z.leb_le 0 k)), (proj2 (Z.leb_le k NDIRECT)) by lia. cbn [andb]. by apply S6. }
    unfold faddr. rewrite (Ha NDIRECT) by lia. destruct (Z.ltb_spec bn NDIRECT); [apply Ha; lia|done]. }
  split; [done|]. split; [done|]. split; [done|]. split; [done|]. intros off Ho i. unfold dirent_at, file_bytes.
  destruct (_ && _) eqn:E; [|done]. unfold fbyte. rewrite Hf; [done|]. apply Z.div_pos; [lia|done].
Qed.

(** ** The inode table during a walk *)

(** An entry changes its reference count, but is not taken into use. *)
Lemma itable_ok_less t t' ip y : itable_ok t -> t' ip = y -> (forall j, j <> ip -> t' j = t j) ->
  y.(i_dev) = (t ip).(i_dev) -> y.(i_inum) = (t ip).(i_inum) -> 0 <= y.(i_ref) -> (0 < y.(i_ref) -> 0 < (t ip).(i_ref)) -> itable_ok t'.
Proof.
  intros [H1 H2] Ey Eo Ed Ei Er Er'.
  assert (forall j, (t' j).(i_dev) = (t j).(i_dev) /\ (t' j).(i_inum) = (t j).(i_inum) /\ (0 < (t' j).(i_ref) -> 0 < (t j).(i_ref))) as H.
  { intros j. destruct (decide (j = ip)) as [->|N]; [by rewrite Ey|by rewrite Eo]. }
  split.
  - intros i Hi. destruct (decide (i = ip)) as [->|N]; [by rewrite Ey|rewrite Eo by done; by apply H1].
  - intros i j Hi Hj Ri Rj D I. destruct (H i) as (A1 & A2 & A3), (H j) as (B1 & B2 & B3). apply H2; [done|done|by apply A3|by apply B3|congruence|congruence].
Qed.

Lemma iget_entry_cases t dev inum ip y : iget_entry t dev inum = Some (ip, y) ->
  (refers (t ip) dev inum = true /\ y = t ip <| i_ref ::= fun n => n + 1 |>) \/
  ((t ip).(i_ref) = 0 /\ y = t ip <| i_dev := dev |> <| i_inum := inum |> <| i_ref := 1 |> <| i_valid := 0 |>).
Proof.
  unfold iget_entry. pose proof (iget_scan_spec t dev inum all_inodes None ltac:(done)) as H.
  destruct (iget_scan _ _ _ _ _) as [i|[i|]]; intros E; simplify_eq; [left|right]; naive_solver.
Qed.

(** A table in which no inode is locked and the entries agree with the disk. *)
Record table_ok (d : kdata) : Prop := {
  tk_ok : itable_ok d.(itable);
  tk_lock : forall j, (j < NINODE)%nat -> (d.(itable) j).(i_lock).(sl_locked) = 0;
  tk_entry : forall j, (j < NINODE)%nat -> let y := d.(itable) j in 0 < y.(i_ref) ->
    y.(i_dev) = ROOTDEV /\ (y.(i_valid) <> 0 -> stored (ldisk d (IBLOCK y.(i_inum) d.(sb))) (ioff y.(i_inum)) y);
}.

Section names.
Context `{KI : KernelImage} `{WF : WaitFuel} `{DDok : DiskDriverOk} (l0 : lockst) (L : list lockptr).
Context (kt : kptr) (p : nat) (pid : Z).
Hypothesis Henv : fs_env l0 L kt.
Hypothesis Hlk : itable_lock ∉ L.
Hypothesis Hfree : lfree l0 itable_lock.
Context (d0 : kdata) (live : Z -> Prop).
Let V := ldisk d0.
Let s := d0.(sb).
Hypothesis Htxn : txn d0.
Hypothesis Hself : self kt p pid d0.
Hypothesis Htree : tree_ok V s live.
Hypothesis Htable : table_ok d0.

Lemma Href j : (j < NINODE)%nat -> 0 <= (d0.(itable) j).(i_ref).
Proof. apply (tk_ok _ Htable). Qed.

(** The state [d] of the table since [d0], with [h j] references to entry [j] taken by
    this thread, and [lk] the entry that it has locked.  Entries in use agree with the
    disk when they are valid. *)
Record tinv (d : kdata) (h : nat -> Z) (lk : option nat) : Prop := {
  v_same : txn_same d0 d;
  v_rest : fsame (d0 <| itable := d.(itable) |>) d;
  v_ok : itable_ok d.(itable);
  v_ref : forall j, (j < NINODE)%nat -> (d.(itable) j).(i_ref) = (d0.(itable) j).(i_ref) + h j;
  v_pos : forall j, 0 <= h j;
  v_lock : forall j, (j < NINODE)%nat -> let l := (d.(itable) j).(i_lock) in
    if decide (lk = Some j) then l.(sl_locked) = 1 /\ l.(sl_pid) = pid else l.(sl_locked) = 0;
  v_entry : forall j, (j < NINODE)%nat -> let y := d.(itable) j in 0 < y.(i_ref) ->
    y.(i_dev) = ROOTDEV /\ (y.(i_valid) <> 0 -> stored (V (IBLOCK y.(i_inum) s)) (ioff y.(i_inum)) y);
  v_keep : forall j, (j < NINODE)%nat -> 0 < (d0.(itable) j).(i_ref) -> (d.(itable) j).(i_inum) = (d0.(itable) j).(i_inum);
}.

Lemma tinv_sb d h lk : tinv d h lk -> d.(sb) = s.
Proof. intros I. by rewrite (fsame_sb _ _ (v_rest _ _ _ I)). Qed.

Lemma tinv_self d h lk : tinv d h lk -> self kt p pid d.
Proof. intros I. eapply self_fsame; [apply (v_rest _ _ _ I)|done]. Qed.

Lemma tinv_txn d h lk : tinv d h lk -> txn d.
Proof. intros I. apply (tm_txn _ _ (v_same _ _ _ I)). Qed.

(** One entry changes. *)
Lemma tinv_upd d h lk jp y d' h' lk' : tinv d h lk -> isame jp y d d' -> txn_same d d' -> itable_ok d'.(itable) ->
  (jp < NINODE)%nat -> (forall j, j <> jp -> h' j = h j) -> y.(i_ref) = (d0.(itable) jp).(i_ref) + h' jp -> 0 <= h' jp ->
  (forall j, j <> jp -> lk' = Some j <-> lk = Some j) ->
  (if decide (lk' = Some jp) then y.(i_lock).(sl_locked) = 1 /\ y.(i_lock).(sl_pid) = pid else y.(i_lock).(sl_locked) = 0) ->
  (0 < y.(i_ref) -> y.(i_dev) = ROOTDEV /\ (y.(i_valid) <> 0 -> stored (V (IBLOCK y.(i_inum) s)) (ioff y.(i_inum)) y)) ->
  (0 < (d0.(itable) jp).(i_ref) -> y.(i_inum) = (d.(itable) jp).(i_inum)) -> tinv d' h' lk'.
Proof.
  intros [I1 I2 I3 I4 I5 I6 I7 I8] [E O R] S Hok Hjp Hh Hr Hp Hl Hly He Hk. split.
  - by eapply txn_same_trans.
  - apply (woke_upd (fun x => x <| itable := d'.(itable) |>)) in I2; [|done..].
    transitivity (d <| itable := d'.(itable) |>); [exact I2|exact R].
  - done.
  - intros j Hj. destruct (decide (j = jp)) as [->|N]; [by rewrite E|]. by rewrite O, Hh, I4.
  - intros j. destruct (decide (j = jp)) as [->|N]; [done|]. by rewrite Hh.
  - intros j Hj. destruct (decide (j = jp)) as [->|N]; [by rewrite E|]. rewrite O by done. specialize (I6 j Hj). cbn in I6 |- *.
    destruct (decide (lk = Some j)) as [El|Nl]; [by rewrite decide_True by (by apply Hl)|]. rewrite decide_False; [done|]. by rewrite Hl.
  - intros j Hj. destruct (decide (j = jp)) as [->|N]; [by rewrite E|]. rewrite O by done. by apply I7.
  - intros j Hj H0. destruct (decide (j = jp)) as [->|N]; [rewrite E, Hk by done; by apply I8|]. rewrite O by done. by apply I8.
Qed.

(** Entries in use stay those of their inodes. *)
Definition kept (d d' : kdata) : Prop :=
  forall j, (j < NINODE)%nat -> 0 < (d.(itable) j).(i_ref) -> (d'.(itable) j).(i_inum) = (d.(itable) j).(i_inum).

Lemma kept_upd jp y d d' : isame jp y d d' -> (0 < (d.(itable) jp).(i_ref) -> y.(i_inum) = (d.(itable) jp).(i_inum)) -> kept d d'.
Proof.
  intros [E O _] Hy j Hj Hr. destruct (decide (j = jp)) as [->|N]; [rewrite E; by apply Hy|by rewrite O].
Qed.

Lemma po_ilock_inv d h ip : tinv d h None -> (ip < NINODE)%nat -> 0 < (d.(itable) ip).(i_ref) -> live (d.(itable) ip).(i_inum) ->
  pst l0 L d (ilock (Some ip)) (fun _ d' => tinv d' h (Some ip) /\ kept d d' /\ (d'.(itable) ip).(i_valid) <> 0).
Proof.
  intros I Hip Hr Hl. pose proof I as [I1 I2 I3 I4 I5 I6 I7 I8]. set (x := d.(itable) ip) in *.
  destruct (I7 ip Hip Hr) as [Hdev Hst]. fold x in Hdev, Hst. specialize (I6 ip Hip). cbn zeta in I6. rewrite decide_False in I6 by done. fold x in I6.
  pose proof (ilock_spec l0 L kt p pid Henv d ip (tinv_txn _ _ _ I) (tinv_self _ _ _ I) Hdev I6) as H. cbn zeta in H. fold x in H.
  rewrite (tinv_sb _ _ _ I), (tm_disk _ _ I1) in H. fold V in H. rewrite (proj2 (Z.ltb_ge _ 1)) in H by lia.
  assert (di_type (V (IBLOCK (i_inum x) s)) (ioff (i_inum x)) <> 0) as Hty by apply (to_type _ _ _ Htree _ Hl).
  rewrite (proj2 (Z.eqb_neq _ _) Hty), andb_false_r in H. eapply po_mono; [exact H|]. intros [] L' d' [-> (Is & S & Hs)]. split; [done|].
  set (y := ilocked pid d x) in *.
  assert (y.(i_inum) = x.(i_inum) /\ y.(i_dev) = x.(i_dev) /\ y.(i_ref) = x.(i_ref) /\ y.(i_lock) = sl_taken pid x.(i_lock) /\ y.(i_valid) <> 0) as (Y1 & Y2 & Y3 & Y4 & Y5).
  { unfold y, ilocked. cbn [i_valid]. change (i_valid (x <| i_lock ::= sl_taken pid |>)) with (i_valid x).
    destruct (Z.eqb_spec (i_valid x) 0) as [E|N]; [by cbn|by cbn]. }
  pose proof (is_entry _ _ _ _ Is) as Ey. split; [|split].
  - apply (tinv_upd d h None ip y d' h (Some ip)); try done.
    + eapply itable_ok_less; [exact I3|exact Ey|apply (is_other _ _ _ _ Is)|done|done|fold x; lia|fold x; lia].
    + by rewrite Y3, <- I4.
    + split; [congruence|done].
    + rewrite decide_True, Y4 by done. done.
    + intros _. split; [congruence|]. intros _. rewrite Y1. destruct (Z.eqb_spec (i_valid x) 0) as [E|N].
      * specialize (Hs E). by rewrite Ey in Hs.
      * specialize (Hst N). unfold y, ilocked. change (i_valid (x <| i_lock ::= sl_taken pid |>)) with (i_valid x).
        rewrite (proj2 (Z.eqb_neq _ _) N). by destruct Hst.
  - eapply kept_upd; [exact Is|done].
  - by rewrite Ey.
Qed.

(** Release of the lock of an inode. *)
Lemma po_iunlock_inv d h ip : tinv d h (Some ip) -> (ip < NINODE)%nat -> 0 < (d.(itable) ip).(i_ref) ->
  pst l0 L d (iunlock (Some ip)) (fun _ d' => tinv d' h None /\ kept d d' /\
    (d'.(itable) ip).(i_valid) = (d.(itable) ip).(i_valid) /\ (d'.(itable) ip).(i_ref) = (d.(itable) ip).(i_ref)).
Proof.
  intros I Hip Hr. pose proof I as [I1 I2 I3 I4 I5 I6 I7 I8]. specialize (I6 ip Hip) as Hl. cbn zeta in Hl. rewrite decide_True in Hl by done.
  destruct Hl as [L1 L2]. set (x := d.(itable) ip) in *. pose proof (tinv_self _ _ _ I) as Hs. unfold iunlock.
  apply po_bind. eapply po_evals; [apply (ev_holdingsleep l0 L kt p); [apply (fe_run _ _ _ Henv)|by apply (fe_lock _ _ _ Henv)|by apply (fe_lock _ _ _ Henv)|apply Hs]|].
  change (the_slock d (inode_slock ip)) with x.(i_lock). rewrite L1, L2, (proj2 Hs), Z.eqb_refl. change (negb (ctrue (cbool _))) with false. cbv iota.
  apply po_bind, po_getd. fold x. rewrite (proj2 (Z.ltb_ge _ 1)) by lia.
  apply (po_releasesleep l0 L (inode_slock ip)); [by apply (fe_lock _ _ _ Henv)|by apply (fe_lock _ _ _ Henv)|apply (fe_threads _ _ _ Henv)|].
  intros d' Hw. split; [done|]. set (y := x <| i_lock ::= sl_freed |>).
  assert (isame ip y d d') as Is.
  { eapply isame_fsame; [|apply woke_fsame; exact Hw]. unfold free_d. eapply isame_trans; [apply isame_upd|]. set (e := upd_slock _ _ d).
    pose proof (isame_upd ip (fun y => y <| i_lock ::= fun z => z <| sl_pid := 0 |> |>) e) as H.
    replace (e.(itable) ip) with (x <| i_lock ::= fun z => z <| sl_locked := 0 |> |>) in H; [exact H|].
    symmetry. apply (is_entry _ _ _ _ (isame_upd ip _ d)). }
  pose proof (is_entry _ _ _ _ Is) as Ey. split; [|split; [eapply kept_upd; [exact Is|done]|by rewrite Ey]].
  apply (tinv_upd d h (Some ip) ip y d' h None); try done.
  - apply (txn_same_eq d d d d'); [done|split; try done; by eapply tinv_txn|]. split; by rewrite (wk_rest _ _ Hw).
  - eapply itable_ok_less; [exact I3|exact Ey|apply (is_other _ _ _ _ Is)|done|done|cbn; lia|done].
  - by rewrite <- I4.
  - split; [done|congruence].
  - intros _. destruct (I7 ip Hip Hr) as [Hdev Hst]. split; [done|]. intros Hv. specialize (Hst Hv). by destruct Hst.
Qed.

(** A reference is taken or given back. *)
Definition plus (h : nat -> Z) (ip : nat) : nat -> Z := fun j => if decide (j = ip) then h j + 1 else h j.
Definition minus (h : nat -> Z) (ip : nat) : nat -> Z := fun j => if decide (j = ip) then h j - 1 else h j.

Lemma po_iput_inv d h ip : tinv d h None -> (ip < NINODE)%nat -> 0 < h ip -> live (d.(itable) ip).(i_inum) ->
  pst l0 L d (iput ip) (fun _ d' => tinv d' (minus h ip) None /\ kept d d').
Proof.
  intros I Hip Hh Hl. pose proof I as [I1 I2 I3 I4 I5 I6 I7 I8]. set (x := d.(itable) ip) in *. pose proof (I4 ip Hip) as Er. fold x in Er.
  pose proof (Href ip Hip) as H0. destruct (I7 ip Hip ltac:(fold x; lia)) as [Hdev Hst]. fold x in Hdev, Hst.
  assert ((x.(i_ref) =? 1) && ctrue x.(i_valid) && (x.(i_nlink) =? 0) = false) as Hlast.
  { destruct (ctrue (i_valid x)) eqn:Ev; [|by rewrite andb_false_r]. apply ctrue_true in Ev. specialize (Hst Ev).
    assert (i_nlink x <> 0) as Hn by (rewrite <- (st_nlink _ _ _ Hst); apply (to_link _ _ _ Htree _ Hl)). by rewrite (proj2 (Z.eqb_neq _ _) Hn), andb_false_r. }
  unfold iput. apply po_bind, po_acquire; [done|done|]. apply po_bind, po_getd. cbn [id]. fold x. rewrite Hlast. cbn [when].
  apply po_bind, po_ret, po_bind, po_modd. apply (po_release _ _ _ L); [done|]. split; [done|].
  pose proof (isame_upd ip (fun x => x <| i_ref ::= fun n => n - 1 |>) d) as Is. fold x in Is. set (y := x <| i_ref ::= fun n => n - 1 |>) in Is.
  set (d' := upd_inode ip _ d) in *. pose proof (is_entry _ _ _ _ Is) as Ey.
  assert (y.(i_ref) = x.(i_ref) - 1) as Ey1 by done. split; [|eapply kept_upd; [exact Is|done]].
  apply (tinv_upd d h None ip y d' (minus h ip) None); try done.
  - apply (txn_same_eq d d d d'); [done|split; try done; by eapply tinv_txn|done].
  - eapply itable_ok_less; [exact I3|exact Ey|apply (is_other _ _ _ _ Is)|done|done|fold y; lia|fold x; lia].
  - intros j Hj. unfold minus. by rewrite decide_False.
  - unfold minus. rewrite decide_True by done. lia.
  - unfold minus. rewrite decide_True by done. lia.
  - specialize (I6 ip Hip). exact I6.
  - intros _. split; [done|]. intros Hv. specialize (Hst Hv). by destruct Hst.
Qed.

Lemma po_iunlockput_inv d h ip : tinv d h (Some ip) -> (ip < NINODE)%nat -> 0 < h ip -> live (d.(itable) ip).(i_inum) ->
  pst l0 L d (iunlockput ip) (fun _ d' => tinv d' (minus h ip) None /\ kept d d').
Proof.
  intros I Hip Hh Hl. assert (0 < (d.(itable) ip).(i_ref)) as Hr by (rewrite (v_ref _ _ _ I) by done; pose proof (Href ip Hip); lia).
  unfold iunlockput. apply po_bind. eapply po_call; [by apply (po_iunlock_inv d h ip)|]. intros [] d1 (I1 & K1 & _ & R1).
  eapply po_mono; [apply (po_iput_inv d1 h ip I1 Hip Hh); by rewrite K1|]. intros [] L' d' [-> [I2 K2]]. split; [done|]. split; [done|].
  intros j Hj Hrj. rewrite K2, K1; [done|done|done|done|]. rewrite (v_ref _ _ _ I1), <- (v_ref _ _ _ I) by done. done.
Qed.

(** [iget] takes a reference to an entry. *)
Lemma taken_entry d h lk jp z i d' : tinv d h lk -> iget_entry d.(itable) ROOTDEV i = Some (jp, z) -> (jp < NINODE)%nat ->
  isame jp z d d' -> txn_same d d' -> itable_ok d'.(itable) -> tinv d' (plus h jp) lk /\ kept d d'.
Proof.
  intros I Ee Hjp Is S Hok. pose proof I as [I1 I2 I3 I4 I5 I6 I7 I8]. specialize (I4 jp Hjp). specialize (I5 jp). pose proof (Href jp Hjp) as H0.
  assert (plus h jp jp = h jp + 1) as Eh by (unfold plus; by rewrite decide_True).
  assert (forall j, j <> jp -> plus h jp j = h j) as Eo by (intros; unfold plus; by rewrite decide_False).
  destruct (iget_entry_cases _ _ _ _ _ Ee) as [[R%refers_spec Ez]|[R Ez]]; (split; [|eapply kept_upd; [exact Is|rewrite Ez; cbn; lia || done]]).
  - destruct R as (R1 & R2 & R3). destruct (I7 jp Hjp R1) as [Hdev Hst].
    subst z. apply (tinv_upd d h lk jp _ d' (plus h jp) lk I Is); try done; [cbn; lia|lia|by apply I6|].
    intros _. split; [done|]. intros Hv. specialize (Hst Hv). by destruct Hst.
  - subst z. apply (tinv_upd d h lk jp _ d' (plus h jp) lk I Is); try done; [cbn; lia|lia|by apply I6|cbn; lia].
Qed.

Lemma dir_hit_ext V1 x1 V2 x2 name off : (forall i, dirent_at V1 x1 off i = dirent_at V2 x2 off i) ->
  dir_hit V1 x1 name off <-> dir_hit V2 x2 name off.
Proof.
  intros E. unfold dir_hit, str_agree. rewrite (de_inum_ext _ _ E). split; intros [H1 H2]; (split; [done|]); intros i Hi Hn;
    [rewrite <- E|rewrite E]; by apply H2.
Qed.

Lemma steps_pos n off : off ∈ steps sizeof_dirent n -> 0 <= off.
Proof. unfold steps. intros (k & -> & Hk%elem_of_seqZ)%list_elem_of_fmap. change sizeof_dirent with 16. lia. Qed.

(** The directory in the table is the directory on the disk. *)
Lemma dir_view d h lk y (x := disk_inode V s y.(i_inum)) : tinv d h lk -> y.(i_dev) = ROOTDEV ->
  stored (V (IBLOCK y.(i_inum) s)) (ioff y.(i_inum)) y -> y.(i_type) = T_DIR -> live y.(i_inum) ->
  dir_ok (ldisk d) y /\ x.(i_type) = T_DIR /\ x.(i_size) = y.(i_size) /\
  forall off, 0 <= off -> forall i, dirent_at (ldisk d) y off i = dirent_at V x off i.
Proof.
  intros I Hdev Hst Hty Hl. pose proof (tm_disk _ _ (v_same _ _ _ I)) as Hd. fold V in Hd.
  destruct (stored_view V s y x Hst eq_refl) as (E1 & E2 & E3 & E4 & E5). assert (x.(i_type) = T_DIR) as Hx by congruence.
  assert (forall bn, faddr (ldisk d) y bn = faddr V y bn) as Hf by (intros; unfold faddr; by rewrite Hd).
  destruct (to_dir _ _ _ Htree _ Hl Hx) as [[O1 O2 O3] D2 D3 D4]. fold x in O1, O2, O3, D2, D3. rewrite E3 in O2, O3, D3.
  split; [|split; [done|split; [done|]]].
  - split; [split; [done|done|]|done|done|intros z; rewrite Hd; apply D4]. intros bn Hb Hs. rewrite Hf, <- E4 by done. by apply O3.
  - intros off Ho i. rewrite E5 by done. unfold dirent_at, file_bytes, fbyte. by rewrite Hf, Hd.
Qed.

(** The lookup of an element in the locked directory [ip]. *)
Lemma po_dirlookup_inv d h ip name e (y := d.(itable) ip) : tinv d h (Some ip) -> (ip < NINODE)%nat -> 0 < y.(i_ref) ->
  y.(i_valid) <> 0 -> y.(i_type) = T_DIR -> live y.(i_inum) -> byte_data name -> byte_data (bytes_of e) -> holds_elem name e ->
  (exists f, (f < NINODE)%nat /\ (d.(itable) f).(i_ref) = 0) ->
  pst l0 L d (dirlookup ip name) (fun r d' => kept d d' /\
    match dir_find V (disk_inode V s y.(i_inum)) e with
    | None => r = None /\ tinv d' h (Some ip)
    | Some i => exists jp off, r = Some (jp, off) /\ tinv d' (plus h jp) (Some ip) /\ (jp < NINODE)%nat /\ live i /\ (d'.(itable) jp).(i_inum) = i
    end).
Proof.
  intros I Hip Hr Hv Hty Hl Hname He Hh (f & Hf & Hf0). destruct (v_entry _ _ _ I ip Hip Hr) as [Hdev Hst]. specialize (Hst Hv). fold y in Hdev, Hst.
  destruct (dir_view d h (Some ip) y I Hdev Hst Hty Hl) as (Hok & Hx & Esz & Ede). set (x := disk_inode V s y.(i_inum)) in *.
  destruct (dirlookup_spec l0 L kt p pid Henv Hlk Hfree d ip name (tinv_txn _ _ _ I) (tinv_self _ _ _ I) Hok Hname) as [Hnone Hsome].
  fold y in Hnone, Hsome. pose proof (do_bytes _ _ (to_dir _ _ _ Htree _ Hl Hx)) as Hb.
  pose proof (dir_find_spec V x e name Hb He Hh) as Hfind. rewrite Esz in Hfind.
  assert (forall off, off ∈ steps sizeof_dirent y.(i_size) -> dir_hit (ldisk d) y name off <-> dir_hit V x name off) as Hhit.
  { intros off Ho. apply dir_hit_ext, Ede. by eapply steps_pos. }
  destruct (dir_find V x e) as [i|].
  - destruct Hfind as (l1 & off & l2 & El & H1 & H2 & ->). specialize (Hsome l1 off l2 El).
    assert (off ∈ steps sizeof_dirent y.(i_size)) as Ho by (rewrite El; apply elem_of_app; right; by left).
    assert (de_inum (dirent_at (ldisk d) y off) = de_inum (dirent_at V x off)) as Ei by (apply de_inum_ext, Ede; by eapply steps_pos).
    rewrite Ei in Hsome. set (i := de_inum (dirent_at V x off)) in *.
    assert (forall o, o ∈ l1 -> ~ dir_hit (ldisk d) y name o) as Hl1.
    { intros o Ho1. rewrite Hhit; [by apply H2|]. rewrite El. apply elem_of_app. by left. }
    specialize (Hsome (proj2 (Hhit off Ho) H1) Hl1). pose proof (iget_entry_spec d.(itable) ROOTDEV i) as Hspec.
    destruct (iget_entry d.(itable) ROOTDEV i) as [[jp z]|] eqn:Ee; [|by destruct (Hspec f Hf) as [_ []]].
    destruct Hspec as (Hjp & Hz & Hzr & _). eapply po_mono; [exact Hsome|]. intros r L' d' [-> (-> & Is & S & Hi & Hit)]. split; [done|].
    apply refers_spec in Hz as (Z1 & Z2 & Z3). destruct (taken_entry d h (Some ip) jp z i d' I Ee Hjp Is S (Hit (v_ok _ _ _ I))) as [I' K'].
    split; [exact K'|]. exists jp, off. split; [done|]. split; [exact I'|]. split; [done|]. split; [|by rewrite (is_entry _ _ _ _ Is)].
    apply (to_entry _ _ _ Htree); [done|done|fold x; by rewrite Esz|apply H1].
  - eapply po_mono; [apply Hnone|]. { intros off Ho. rewrite Hhit by done. by apply Hfind. }
    intros r L' d' [-> (-> & S & F)]. split; [done|].
    assert (isame ip y d d') as Is by (split; rewrite ?(fsame_itable _ _ F); try done; by destruct d).
    split; [by eapply kept_upd|]. split; [done|]. apply (tinv_upd d h (Some ip) ip y d' h (Some ip)); try done.
    + rewrite (fsame_itable _ _ F). apply (v_ok _ _ _ I).
    + by rewrite <- (v_ref _ _ _ I).
    + by apply (v_pos _ _ _ I).
    + by apply (v_lock _ _ _ I).
Qed.

Lemma tinv_ext d h h' lk : (forall j, h j = h' j) -> tinv d h lk -> tinv d h' lk.
Proof. intros E [I1 I2 I3 I4 I5 I6 I7 I8]. split; try done; intros; rewrite <- E; auto. Qed.

(** One reference, to [ip]. *)
Definition one (ip : nat) : nat -> Z := plus (fun _ => 0) ip.

Lemma one_at ip : one ip ip = 1.
Proof. unfold one, plus. by rewrite decide_True. Qed.

Lemma tinv_ref d h lk ip : tinv d h lk -> (ip < NINODE)%nat -> 0 < h ip -> 0 < (d.(itable) ip).(i_ref).
Proof. intros I Hip Hh. rewrite (v_ref _ _ _ I) by done. pose proof (Href ip Hip). lia. Qed.

(** Two entries that nobody uses are enough: there is a free one besides [ip]. *)
Lemma free_entry d ip lk f1 f2 : tinv d (one ip) lk -> (f1 < NINODE)%nat -> (f2 < NINODE)%nat -> f1 <> f2 ->
  (d0.(itable) f1).(i_ref) = 0 -> (d0.(itable) f2).(i_ref) = 0 -> exists f, (f < NINODE)%nat /\ (d.(itable) f).(i_ref) = 0.
Proof.
  intros I H1 H2 Hne R1 R2. destruct (decide (f1 = ip)) as [->|N].
  - exists f2. split; [done|]. rewrite (v_ref _ _ _ I), R2 by done. unfold one, plus. by rewrite decide_False.
  - exists f1. split; [done|]. rewrite (v_ref _ _ _ I), R1 by done. unfold one, plus. by rewrite decide_False.
Qed.

(** The result of a walk: no inode and no reference, or the inode in an entry of the
    table with one reference to it. *)
Definition walked (o : option Z) (r : option nat) (d' : kdata) : Prop :=
  match o with
  | None => r = None /\ tinv d' (fun _ => 0) None
  | Some i => exists jp, r = Some jp /\ (jp < NINODE)%nat /\ tinv d' (one jp) None /\ (d'.(itable) jp).(i_inum) = i /\ live i
  end.

Lemma one_back d ip : tinv d (minus (one ip) ip) None -> tinv d (fun _ => 0) None.
Proof. apply tinv_ext. intros j. unfold minus, one, plus. case_decide; lia. Qed.

Lemma one_moved d ip jp : tinv d (minus (plus (one ip) jp) ip) None -> tinv d (one jp) None.
Proof. apply tinv_ext. intros j. unfold minus, one, plus. repeat case_decide; lia. Qed.

(** The path is at its end. *)
Lemma po_namex_end fuel d ip m q l np name : tinv d (one ip) None -> (ip < NINODE)%nat -> live (d.(itable) ip).(i_inum) ->
  path_at m q l -> (length l <= Z.to_nat MAXPATH)%nat -> elements l = [] ->
  pst l0 L d (namex_loop fuel ip m q np name) (fun r d' =>
    walked (if np then None else Some (d.(itable) ip).(i_inum)) r.1 d' /\ (np = true -> r.1 = None)).
Proof.
  intros I Hip Hl Hp Hmax He. pose proof (skipelem_spec m q l name Hp Hmax) as Hs. rewrite He in Hs.
  replace (namex_loop fuel ip m q np name) with (if np then iput ip;; mret (None, name) else mret (Some ip, name)) by (destruct fuel; cbn [namex_loop]; by rewrite Hs).
  destruct np.
  - apply po_bind. eapply po_call; [apply (po_iput_inv d (one ip) ip I Hip ltac:(rewrite one_at; lia) Hl)|].
    intros [] d' [I' _]. apply po_ret. split; [done|]. split; [|done]. split; [done|]. by eapply one_back.
  - apply po_ret. split; [done|]. split; [|done]. by exists ip.
Qed.

(** The type of an entry that is locked. *)
Lemma entry_type d h lk ip : tinv d h lk -> (ip < NINODE)%nat -> 0 < (d.(itable) ip).(i_ref) -> (d.(itable) ip).(i_valid) <> 0 ->
  (disk_inode V s (d.(itable) ip).(i_inum)).(i_type) = (d.(itable) ip).(i_type).
Proof.
  intros I Hip Hr Hv. destruct (v_entry _ _ _ I ip Hip Hr) as [_ Hst]. by destruct (stored_view V s _ _ (Hst Hv) eq_refl).
Qed.

Definition walk_of (np : bool) : Z -> list (list Z) -> option Z := (if np then walk_parent else walk_path) V s.

Lemma walk_not_dir np i e es : (disk_inode V s i).(i_type) <> T_DIR -> walk_of np i (e :: es) = None.
Proof. intros N. unfold walk_of. destruct np; cbn [walk_path walk_parent]; cbv zeta; by rewrite (proj2 (Z.eqb_neq _ _) N). Qed.

Lemma walk_step np i e es : (disk_inode V s i).(i_type) = T_DIR -> (np = true -> es <> []) ->
  walk_of np i (e :: es) = match dir_find V (disk_inode V s i) e with Some j => walk_of np j es | None => None end.
Proof.
  intros E Hes. unfold walk_of. destruct np; cbn [walk_path walk_parent]; cbv zeta; rewrite E, Z.eqb_refl; [|done]. destruct es; [by destruct Hes|done].
Qed.

Lemma po_namex_loop f1 f2 m : (f1 < NINODE)%nat -> (f2 < NINODE)%nat -> f1 <> f2 ->
  (d0.(itable) f1).(i_ref) = 0 -> (d0.(itable) f2).(i_ref) = 0 -> byte_data m ->
  forall fuel d ip q l np name, tinv d (one ip) None -> (ip < NINODE)%nat -> live (d.(itable) ip).(i_inum) ->
  path_at m q l -> (length l <= Z.to_nat MAXPATH)%nat -> (length l <= fuel)%nat -> byte_data name ->
  pst l0 L d (namex_loop fuel ip m q np name) (fun r d' =>
    walked (walk_of np (d.(itable) ip).(i_inum) (elements l)) r.1 d' /\
    (np = true -> r.1 <> None -> exists e, last (elements l) = Some e /\ holds_elem r.2 e)).
Proof.
  intros Hf1 Hf2 Hf12 Hr1 Hr2 Hm fuel. induction fuel as [|fuel IH]; intros d ip q l np name I Hip Hl Hp Hmax Hfu Hname;
    pose proof (skipelem_spec m q l name Hp Hmax) as Hs; destruct (elements l) as [|e es] eqn:El.
  1, 3: eapply po_mono; [by apply (po_namex_end _ d ip m q l np name)|]; intros r L' d' [-> [H1 H2]]; split; [done|]; split;
    [by destruct np|intros Hnp Hn; by rewrite H2 in Hn].
  { destruct l; [done|cbn in Hfu; lia]. }
  destruct Hs as (q' & l' & name' & Es & Hp' & <- & Hend & Hlen & Hhe & Hbd). destruct (Hbd Hm Hname) as [Hname' Hbe]. cbn [namex_loop]. rewrite Es.
  pose proof (tinv_ref _ _ _ _ I Hip ltac:(rewrite one_at; lia)) as Hr. set (inum := (d.(itable) ip).(i_inum)) in *.
  apply po_bind. eapply po_call; [by apply (po_ilock_inv d (one ip) ip)|]. intros [] d1 (I1 & K1 & Hv). apply po_bind, po_getd.
  assert ((d1.(itable) ip).(i_inum) = inum) as Ei by (by apply K1). pose proof (tinv_ref _ _ _ _ I1 Hip ltac:(rewrite one_at; lia)) as Hr'.
  pose proof (entry_type _ _ _ _ I1 Hip Hr' Hv) as Ety. rewrite Ei in Ety.
  assert (forall d2 h, tinv d2 h (Some ip) -> kept d1 d2 -> 0 < h ip -> posts l0 L d2 (iunlockput ip) (fun _ L2 d3 => L2 = L /\ tinv d3 (minus h ip) None /\ kept d2 d3)) as Hput.
  { intros d2 h I2 K2 Hh. eapply po_mono; [apply (po_iunlockput_inv d2 h ip I2 Hip Hh); rewrite K2, Ei by done; done|]. done. }
  destruct (Z.eqb_spec (i_type (d1.(itable) ip)) T_DIR) as [Hty|Hty]; cbn [negb].
  2: { apply po_bind. eapply po_mono; [apply (Hput d1 (one ip) I1); [done|rewrite one_at; lia]|]. intros [] L2 d2 (-> & I2 & _). apply po_ret.
    split; [done|]. rewrite walk_not_dir by congruence. split; [|done]. split; [done|by eapply one_back]. }
  destruct (np && (m q' =? 0)) eqn:Eend.
  { apply andb_true_iff in Eend as [-> E0%Z.eqb_eq%Hend]. rewrite E0. apply po_bind. eapply po_call; [by apply (po_iunlock_inv d1 (one ip) ip)|].
    intros [] d2 (I2 & K2 & _). apply po_ret. split; [done|]. unfold walk_of. cbn [walk_parent]. cbv zeta. rewrite Ety, Hty, Z.eqb_refl.
    split; [|by exists e]. exists ip. rewrite K2, Ei by done. done. }
  assert (np = true -> elements l' <> []) as Hes.
  { intros -> E0%Hend. by rewrite E0 in Eend. }
  rewrite walk_step; [|congruence|done]. apply po_bind.
  eapply po_call; [apply (po_dirlookup_inv d1 (one ip) ip name' e I1 Hip Hr' Hv Hty); [by rewrite Ei|done|done|done|by apply (free_entry d1 ip (Some ip) f1 f2)]|].
  rewrite Ei. intros r d2 [K2 Hd]. destruct (dir_find V (disk_inode V s inum) e) as [i|].
  - destruct Hd as (jp & off & -> & I2 & Hjp & Hli & Eji).
    assert (0 < plus (one ip) jp ip /\ 0 < plus (one ip) jp jp) as [Hp1 Hp2] by (unfold one, plus; repeat case_decide; (done || lia)).
    apply po_bind. eapply po_mono; [by apply (Hput d2 (plus (one ip) jp) I2 K2)|]. intros [] L2 d3 (-> & I3%one_moved & K3).
    assert ((d3.(itable) jp).(i_inum) = i) as Ej by (rewrite K3; [done|done|by eapply tinv_ref]).
    eapply po_mono; [apply (IH d3 jp q' l' np name'); [done|done|by rewrite Ej|done|lia|lia|done]|].
    intros r L' d' [-> [H1 H2]]. rewrite Ej in H1. split; [done|]. split; [done|]. intros Hnp Hn. destruct (H2 Hnp Hn) as (e' & E' & He').
    exists e'. split; [|done]. destruct (elements l'); [by destruct Hes|done].
  - destruct Hd as [-> I2]. apply po_bind. eapply po_mono; [apply (Hput d2 (one ip) I2 K2); rewrite one_at; lia|].
    intros [] L2 d3 (-> & I3 & _). apply po_ret. split; [done|]. split; [|done]. split; [done|by eapply one_back].
Qed.

Lemma tinv_start : tinv d0 (fun _ => 0) None.
Proof.
  destruct Htable as [T1 T2 T3]. split; try done.
  - by destruct d0.
  - intros j Hj. lia.
Qed.

(** [namex] starts at the root or at the current directory. *)
Lemma po_iget_start f i : (f < NINODE)%nat -> (d0.(itable) f).(i_ref) = 0 ->
  pst l0 L d0 (iget ROOTDEV i) (fun ip d' => tinv d' (one ip) None /\ (ip < NINODE)%nat /\ (d'.(itable) ip).(i_inum) = i).
Proof.
  intros Hf Hf0. pose proof (iget_entry_spec d0.(itable) ROOTDEV i) as Hs. destruct (iget_entry d0.(itable) ROOTDEV i) as [[ip y]|] eqn:E.
  - destruct Hs as (Hip & (_ & _ & Hy)%refers_spec & _ & _). eapply po_mono; [by apply (po_iget l0 L Hlk Hfree d0 ROOTDEV i ip y)|].
    intros r L' d' [-> (-> & Is & Eq)]. split; [done|]. rewrite (is_entry _ _ _ _ Is).
    assert (txn_same d0 d') as S by (apply (txn_same_eq d0 d0 d0 d'); [done|by split|done]).
    split; [|done]. eapply taken_entry; [apply tinv_start|exact E|done|exact Is|done|].
    eapply iget_entry_ok; [apply (tk_ok _ Htable)|exact E|apply (is_entry _ _ _ _ Is)|apply (is_other _ _ _ _ Is)].
  - by destruct (Hs f Hf) as [_ []].
Qed.

Lemma po_idup_start ip : (ip < NINODE)%nat -> 0 < (d0.(itable) ip).(i_ref) ->
  pst l0 L d0 (idup ip) (fun r d' => r = ip /\ tinv d' (one ip) None /\ (d'.(itable) ip).(i_inum) = (d0.(itable) ip).(i_inum)).
Proof.
  intros Hip Hr. unfold idup. apply po_bind, po_acquire; [done|done|]. apply po_bind, po_modd, po_bind. apply (po_release _ _ _ L); [done|].
  apply po_ret. split; [done|]. split; [done|]. set (d' := upd_inode ip _ d0).
  pose proof (isame_upd ip (fun x => x <| i_ref ::= fun n => n + 1 |>) d0) as Is. fold d' in Is. pose proof (is_entry _ _ _ _ Is) as Ey.
  split; [|by rewrite Ey]. destruct (tk_entry _ Htable ip Hip Hr) as [Hdev Hst].
  apply (tinv_upd d0 (fun _ => 0) None ip _ d' (one ip) None tinv_start Is); try done.
  - apply (txn_same_eq d0 d0 d0 d'); [done|by split|done].
  - eapply itable_ok_less; [apply (tk_ok _ Htable)|exact Ey|apply (is_other _ _ _ _ Is)|done|done|cbn; lia|done].
  - intros j Hj. unfold one, plus. by rewrite decide_False.
  - rewrite one_at. done.
  - rewrite one_at. done.
  - rewrite decide_False by done. by apply (tk_lock _ Htable).
  - intros _. split; [done|]. intros Hv. specialize (Hst Hv). by destruct Hst.
Qed.

(** C22: [namex] resolves a path.  It follows the elements of the path through the
    directories of the disk, from the root if the path begins with a slash and from the
    current directory otherwise, and returns the inode they lead to (for [nameiparent],
    the directory of the last element, with that element in [name]), or null if an
    element is missing or what should be a directory is none.  The result holds exactly
    one new reference; every other reference that was taken on the way has been given
    back, no inode stays locked and the file system is unchanged. *)
Theorem namex_correct m l np name cwd f1 f2 : path_at m 0 l -> (length l <= Z.to_nat MAXPATH)%nat -> byte_data m -> byte_data name ->
  live ROOTINO -> (d0.(procs) p).(p_cwd) = Some cwd -> (cwd < NINODE)%nat -> 0 < (d0.(itable) cwd).(i_ref) -> live (d0.(itable) cwd).(i_inum) ->
  (f1 < NINODE)%nat -> (f2 < NINODE)%nat -> f1 <> f2 -> (d0.(itable) f1).(i_ref) = 0 -> (d0.(itable) f2).(i_ref) = 0 ->
  pst l0 L d0 (namex m 0 np name) (fun r d' =>
    walked (walk_of np (if m 0 =? SLASH then ROOTINO else (d0.(itable) cwd).(i_inum)) (elements l)) r.1 d' /\
    (np = true -> r.1 <> None -> exists e, last (elements l) = Some e /\ holds_elem r.2 e)).
Proof.
  intros Hp Hmax Hm Hname Hroot Hcwd Hc Hcr Hcl Hf1 Hf2 Hf12 Hr1 Hr2. unfold namex. apply po_bind.
  eapply (po_call _ _ _ _ (fun ip d' => tinv d' (one ip) None /\ (ip < NINODE)%nat /\
    (d'.(itable) ip).(i_inum) = (if m 0 =? SLASH then ROOTINO else (d0.(itable) cwd).(i_inum)))).
  - destruct (m 0 =? SLASH).
    + by apply (po_iget_start f1).
    + apply po_bind. apply (po_myproc _ _ _ p kt); [apply (fe_run _ _ _ Henv)|apply Hself|]. apply po_bind, po_deref, po_bind, po_getd. rewrite Hcwd.
      apply po_bind, po_deref. eapply po_mono; [by apply (po_idup_start cwd)|]. intros r L' d' [-> (-> & I & Ei)]. done.
  - intros ip d' (I & Hip & Ei). eapply po_mono; [apply (po_namex_loop f1 f2 m Hf1 Hf2 Hf12 Hr1 Hr2 Hm _ d' ip 0 l np name); try done|].
    + rewrite Ei. by destruct (m 0 =? SLASH).
    + rewrite Ei. intros r L' d1 H. exact H.
Qed.
End names.

(** ** Instances *)

Section witnesses.
#[local] Existing Instance sync_disk.
#[local] Existing Instance sync_disk_ok.
#[local] Existing Instance demo_fuel.

(** The root directory of [demo_tree], which is also the current directory. *)
Definition demo_names : kdata := upd_proc 1 (fun pr => pr <| p_cwd := Some 0%nat |>) (demo_dir demo_root).

Lemma upd_proc_eq q f d : fs_eq d (upd_proc q f d).
Proof. by split. Qed.

Lemma demo_names_disk z : ldisk demo_names z = demo_tree z.
Proof. unfold demo_names. rewrite (ldisk_eq (demo_dir demo_root)) by apply upd_proc_eq. apply demo_dir_disk. Qed.

Lemma demo_stored : stored (ldisk demo_names (IBLOCK 1 demo_sb)) (ioff 1) demo_root.
Proof. rewrite demo_names_disk. change (demo_tree (IBLOCK 1 demo_sb)) with (store_dinode (fun _ => 0) 64 demo_root). apply dinode_roundtrip, demo_inode_ok. Qed.

Lemma demo_names_entry off i : 0 <= off -> dirent_at (ldisk demo_names) (disk_inode (ldisk demo_names) demo_sb 1) off i = dirent_at demo_tree demo_root off i.
Proof.
  intros Ho. destruct (stored_view (ldisk demo_names) demo_sb demo_root _ demo_stored eq_refl) as (_ & _ & _ & _ & E). change (i_inum demo_root) with 1 in E.
  rewrite E by done. unfold dirent_at, file_bytes, fbyte, faddr. by rewrite !demo_names_disk.
Qed.

Lemma demo_names_sb : sb demo_names = demo_sb.
Proof. reflexivity. Qed.

Lemma demo_tree_ok : tree_ok (ldisk demo_names) (sb demo_names) (fun i => i = 1).
Proof.
  rewrite demo_names_sb.
  destruct (stored_view (ldisk demo_names) demo_sb demo_root _ demo_stored eq_refl) as (E1 & E2 & E3 & E4 & E5).
  change (i_inum demo_root) with 1 in *. split.
  - intros i ->. by rewrite E1.
  - intros i ->. by rewrite E2.
  - intros i -> _. destruct demo_dir_ok as [_ _ _ D4]. split; [split; [reflexivity|by rewrite E3|]|by rewrite E1|by rewrite E3|].
    + intros bn Hb. rewrite E3, E4 by done. change (i_size demo_root) with 32. change BSIZE with 1024. intros Hs. assert (bn = 0) as -> by lia. done.
    + intros z. rewrite demo_names_disk, <- (demo_dir_disk demo_root). apply D4.
  - intros i off -> _. rewrite E3. change (steps sizeof_dirent (i_size demo_root)) with [0; 16]. intros Ho _.
    rewrite !elem_of_cons, elem_of_nil in Ho. destruct Ho as [->|[->|[]]].
    + rewrite (de_inum_ext _ _ (fun i => demo_names_entry 0 i ltac:(lia))). reflexivity.
    + rewrite (de_inum_ext _ _ (fun i => demo_names_entry 16 i ltac:(lia))). reflexivity.
Qed.

Lemma walk_of_false d i es : walk_of d false i es = walk_path (ldisk d) (sb d) i es.
Proof. reflexivity. Qed.

(** The path "/..//." from the root. *)
Lemma namex_correct_witness (m := bytes_of [47; 46; 46; 47; 47; 46]) :
  pst (demo_run demo_kt) [] demo_names (namex m 0 false (fun _ => 0)) (fun r d' =>
    walked demo_pid demo_names (fun i => i = 1) (walk_path (ldisk demo_names) (sb demo_names) ROOTINO [[46; 46]; [46]]) r.1 d').
Proof.
  eapply po_mono; [apply (namex_correct (demo_run demo_kt) [] demo_kt 1 demo_pid demo_fs_env) with
    (live := fun i => i = 1) (l := [47; 46; 46; 47; 47; 46]) (cwd := 0%nat) (f1 := 1%nat) (f2 := 2%nat)|].
  - apply not_elem_of_nil.
  - apply demo_run_free.
  - apply (txn_eq (demo_dir demo_root)); [apply upd_proc_eq|apply demo_dir_txn].
  - done.
  - apply demo_tree_ok.
  - split.
    + split; [intros j Hj; cbn; by case_decide|]. intros i j _ _. cbn. do 2 case_decide; [congruence|done|done|done].
    + intros j Hj. cbn. by case_decide.
    + intros j Hj. cbn zeta. rewrite demo_names_sb. destruct (decide (j = 0%nat)) as [->|N].
      * intros _. split; [reflexivity|]. intros _. apply demo_stored.
      * change (itable demo_names j) with (if decide (j = 0%nat) then demo_root else inode0). by rewrite decide_False.
  - split; [intros i c Hi; by apply bytes_of_lookup|reflexivity|]. apply (bool_decide_unpack _). vm_compute. exact I.
  - apply Nat.leb_le. reflexivity.
  - apply bytes_of_bytes. unfold is_bytes. apply (bool_decide_unpack _). vm_compute. exact I.
  - intros i. done.
  - done.
  - done.
  - apply Nat.ltb_lt. reflexivity.
  - done.
  - done.
  - apply Nat.ltb_lt. reflexivity.
  - apply Nat.ltb_lt. reflexivity.
  - done.
  - done.
  - done.
  - intros r L' d' [-> [H _]]. split; [reflexivity|].
    assert (elements [47; 46; 46; 47; 47; 46] = [[46; 46]; [46]]) as E1 by reflexivity. assert ((m 0 =? SLASH) = true) as E2 by reflexivity.
    rewrite E1, E2, walk_of_false in H. exact H.
Defined.
End witnesses.
