(* ===== verification/DirLink.v ===== *)
(** * What kernel/fs.c guarantees: new directory entries

    [dirlink] writes a directory entry into the first free slot of a directory, or after
    its last entry; looking the name up then finds it, and every other name leads where
    it led before. *)
From S2P Require Export WriteSpec PathSpec.

(** The offset of the first free entry, or of the end. *)
Definition dir_slot (V : Z -> bytes) (x : inode) : Z :=
  match List.find (fun off => de_inum (dirent_at V x off) =? 0) (steps sizeof_dirent x.(i_size)) with
  | Some off => off
  | None => x.(i_size)
  end.

(** ** The entry that is written *)

Definition new_dirent (de name : bytes) (inum : Z) : bytes := store16 (strncpy de 2 name 0 DIRSIZ) 0 (u16 inum).

Lemma new_dirent_inum de name inum : de_inum (new_dirent de name inum) = u16 inum.
Proof. unfold new_dirent, de_inum, load16, store16. rewrite load_store. unfold u16. by rewrite Z.mod_mod. Qed.

Lemma new_dirent_char de name inum i : 2 <= i -> new_dirent de name inum i = strncpy de 2 name 0 DIRSIZ i.
Proof. intros Hi. unfold new_dirent, store16. rewrite store_out; [done|]. lia. Qed.

Lemma new_dirent_name de name inum : str_agree DIRSIZ name 0 (new_dirent de name inum) 2.
Proof.
  intros i Hi Hn. rewrite new_dirent_char by lia. symmetry. unfold strncpy. apply strncpy_loop_in; [change (Z.of_nat (Z.to_nat DIRSIZ)) with DIRSIZ; lia|].
  intros j Hj. by apply Hn.
Qed.

Lemma new_dirent_bytes de name inum : byte_data de -> byte_data name -> byte_data (new_dirent de name inum).
Proof. intros Hd Hn. by apply store_bytes, strncpy_bytes. Qed.

(** Two names that agree with a common one agree. *)
Lemma str_agree_common n a b c q : str_agree n a 0 c q -> str_agree n b 0 c q -> str_agree n b 0 a 0.
Proof.
  intros Ha Hb. assert (forall i, 0 <= i -> 0 <= i < n -> (forall j, 0 <= j < i -> b (0 + j) <> 0) -> a (0 + i) = b (0 + i)) as H.
  { apply (Z_lt_induction (fun i => 0 <= i < n -> (forall j, 0 <= j < i -> b (0 + j) <> 0) -> a (0 + i) = b (0 + i))).
    intros i IH Hi Hz. rewrite (Hb i Hi Hz). apply Ha; [lia|]. intros j Hj. rewrite IH; [by apply Hz|done|lia|]. intros k Hk. apply Hz. lia. }
  intros i Hi Hz. symmetry. apply H; [lia|done|done].
Qed.

(** ** The directory with the new entry *)

Lemma steps_elem off n : off ∈ steps sizeof_dirent n <-> exists k, off = 16 * k /\ 0 <= k < (n + 15) / 16.
Proof.
  unfold steps. change sizeof_dirent with 16. rewrite list_elem_of_fmap. setoid_rewrite elem_of_seqZ.
  replace (n + 16 - 1) with (n + 15) by lia. split; intros (k & -> & Hk); exists k; (split; [done|lia]).
Qed.

Lemma steps_grow n : 0 <= n -> n mod 16 = 0 -> steps sizeof_dirent (n + 16) = steps sizeof_dirent n ++ [n].
Proof.
  intros Hn Hm. unfold steps. change sizeof_dirent with 16. assert (n = 16 * (n / 16)) as E by (Z.div_mod_to_equations; lia).
  set (k := n / 16) in *. assert (0 <= k) as Hk by (unfold k; Z.div_mod_to_equations; lia).
  replace ((n + 16 + 16 - 1) / 16) with (k + 1) by (rewrite E; Z.div_mod_to_equations; lia).
  replace ((n + 16 - 1) / 16) with k by (rewrite E; Z.div_mod_to_equations; lia).
  rewrite seqZ_app by lia. change (seqZ (0 + k) 1) with [0 + k] || cbn. rewrite map_app. cbn. do 2 f_equal. lia.
Qed.

Lemma find_unique {A} (f : A -> bool) l a : a ∈ l -> f a = true -> (forall b, b ∈ l -> f b = true -> b = a) -> List.find f l = Some a.
Proof.
  intros Ha Hf Hu. pose proof (find_first f l) as H. destruct (List.find f l) as [b|].
  - destruct H as (l1 & l2 & -> & Hb & _). f_equal. apply Hu; [|done]. apply elem_of_app. right. by left.
  - by rewrite H in Hf.
Qed.

Lemma find_app_false {A} (f : A -> bool) l k : (forall a, a ∈ k -> f a = false) -> List.find f (l ++ k) = List.find f l.
Proof.
  intros Hk. induction l as [|a l IH]; cbn [app List.find]; [|by rewrite IH]. pose proof (find_first f k) as H.
  destruct (List.find f k) as [b|]; [|done]. destruct H as (l1 & l2 & -> & Hb & _). rewrite Hk in Hb; [done|]. apply elem_of_app. right. by left.
Qed.

Section linked.
Context (s : superblock) (st : Z) (V V' : Z -> bytes) (x y : inode) (name de : bytes) (inum : Z).
Let slot := dir_slot V x.
Hypothesis Hd : dir_ok V x.
Hypothesis Hw : written s st V x slot sizeof_dirent (fun k => new_dirent de name inum (k - slot)) V' y.
Hypothesis (Hde : byte_data de) (Hname : byte_data name) (Hi : u16 inum <> 0).

Lemma dir_slot_cases : (slot ∈ steps sizeof_dirent x.(i_size) /\ de_inum (dirent_at V x slot) = 0 /\ 0 <= slot /\ slot + 16 <= x.(i_size)) \/ slot = x.(i_size).
Proof.
  unfold slot, dir_slot. pose proof (find_first (fun off => de_inum (dirent_at V x off) =? 0) (steps sizeof_dirent x.(i_size))) as H.
  destruct (List.find _ _) as [off|]; [left|by right]. destruct H as (l1 & l2 & E & H%Z.eqb_eq & _).
  assert (off ∈ steps sizeof_dirent (i_size x)) as Ho by (rewrite E; apply elem_of_app; right; by left).
  split; [done|]. split; [done|]. pose proof (do_size _ _ Hd) as Hm. change sizeof_dirent with 16 in Hm.
  apply steps_elem in Ho as (k & -> & Hk). Z.div_mod_to_equations. lia.
Qed.

Lemma linked_size : y.(i_size) = Z.max x.(i_size) (slot + 16).
Proof. rewrite (wn_inode _ _ _ _ _ _ _ _ _ Hw). done. Qed.

Lemma linked_new i : dirent_at V' y slot i = if (0 <=? i) && (i <? 16) then new_dirent de name inum i else 0.
Proof.
  unfold dirent_at, file_bytes. change (0 + sizeof_dirent) with 16. destruct ((0 <=? i) && (i <? 16)) eqn:E; [|done].
  assert (0 <= slot) as Hs by (pose proof (fo_size _ _ (do_file _ _ Hd)); destruct dir_slot_cases as [(_ & _ & ? & _)| ->]; lia).
  rewrite Z.sub_0_r, (wn_bytes _ _ _ _ _ _ _ _ _ Hw) by (rewrite linked_size; lia). change sizeof_dirent with 16.
  destruct ((slot <=? slot + i) && _) eqn:E2; [|lia]. f_equal. lia.
Qed.

Lemma linked_old off i : off ∈ steps sizeof_dirent x.(i_size) -> off <> slot -> dirent_at V' y off i = dirent_at V x off i.
Proof.
  intros Ho Hne. unfold dirent_at, file_bytes. change (0 + sizeof_dirent) with 16. destruct ((0 <=? i) && (i <? 16)) eqn:E; [|done].
  pose proof (do_size _ _ Hd) as Hm. pose proof dir_slot_cases as Hc. change sizeof_dirent with 16 in Hm. apply steps_elem in Ho as (k & -> & Hk).
  assert (16 * k + 16 <= i_size x) as Hle by (Z.div_mod_to_equations; lia).
  assert (exists q, slot = 16 * q) as [q Hq].
  { destruct Hc as [((q & E2 & _)%steps_elem & _)|E2]; [by exists q|]. exists (i_size x / 16). rewrite E2. Z.div_mod_to_equations. lia. }
  rewrite (wn_bytes _ _ _ _ _ _ _ _ _ Hw) by (rewrite linked_size; lia). change sizeof_dirent with 16.
  destruct ((slot <=? _) && _) eqn:E2; [lia|done].
Qed.

Lemma linked_steps : steps sizeof_dirent y.(i_size) = steps sizeof_dirent x.(i_size) ++ (if decide (slot = x.(i_size)) then [slot] else []).
Proof.
  rewrite linked_size. pose proof (fo_size _ _ (do_file _ _ Hd)). case_decide as E.
  - rewrite E, Z.max_r, steps_grow by (lia || apply (do_size _ _ Hd)). done.
  - destruct dir_slot_cases as [(_ & _ & _ & ?)|]; [|done]. by rewrite Z.max_l, app_nil_r by lia.
Qed.

Lemma linked_slot_free : slot ∈ steps sizeof_dirent x.(i_size) -> de_inum (dirent_at V x slot) = 0.
Proof.
  intros Ho. destruct dir_slot_cases as [(_ & E & _)|E]; [done|]. exfalso. pose proof (do_size _ _ Hd) as Hm. change sizeof_dirent with 16 in Hm.
  apply steps_elem in Ho as (k & E2 & Hk). Z.div_mod_to_equations. lia.
Qed.

(** Whether [dirlookup] takes the entry at [off]. *)
Definition takes (W : Z -> bytes) (z : inode) (e : list Z) (off : Z) : bool :=
  negb (de_inum (dirent_at W z off) =? 0) && (namecmp (bytes_of e) 0 (dirent_at W z off) 2 =? 0).

Lemma strncmp_loop_ext n a p m m' q : (forall i, m i = m' i) -> strncmp_loop n a p m q = strncmp_loop n a p m' q.
Proof. intros H. revert p q. induction n as [|n IH]; intros p q; cbn [strncmp_loop]; [done|]. by rewrite H, IH. Qed.

Lemma linked_takes_old e off : off ∈ steps sizeof_dirent x.(i_size) -> off <> slot -> takes V' y e off = takes V x e off.
Proof.
  intros Ho Hne. unfold takes, namecmp, strncmp. rewrite (de_inum_ext _ _ (fun i => linked_old off i Ho Hne)).
  by rewrite (strncmp_loop_ext _ _ _ _ _ _ (fun i => linked_old off i Ho Hne)).
Qed.

Lemma linked_takes_new e : byte_data (bytes_of e) -> takes V' y e slot = true <-> str_agree DIRSIZ (bytes_of e) 0 name 0.
Proof.
  intros He. unfold takes. assert (de_inum (dirent_at V' y slot) = u16 inum) as ->.
  { rewrite <- (new_dirent_inum de name inum). apply load_ext. intros i Hb. rewrite linked_new. destruct (_ && _) eqn:E; [done|lia]. }
  rewrite (proj2 (Z.eqb_neq _ _) Hi). cbn [negb andb]. rewrite Z.eqb_eq. unfold namecmp, strncmp.
  rewrite strncmp_loop_zero; [|done|]. 2: { intros i. rewrite linked_new. destruct (_ && _); [by apply new_dirent_bytes|lia]. }
  rewrite Z2Nat.id by done. assert (forall i, 0 <= i < DIRSIZ -> dirent_at V' y slot (2 + i) = new_dirent de name inum (2 + i)) as E.
  { intros i Hr. rewrite linked_new. change DIRSIZ with 14 in Hr. destruct (_ && _) eqn:E; [done|lia]. }
  assert (str_agree DIRSIZ name 0 (dirent_at V' y slot) 2) as Hn by (intros i Hr Hz; rewrite E by done; by apply new_dirent_name).
  split; [by apply str_agree_common|]. intros H i Hr Hz. rewrite (H i Hr Hz). apply Hn; [done|]. intros j Hj. rewrite <- (H j); [by apply Hz|lia|].
  intros k Hk. apply Hz. lia.
Qed.

(** The new name is found, and the other names are found where they were. *)
Lemma linked_find_new e : byte_data (bytes_of e) -> str_agree DIRSIZ (bytes_of e) 0 name 0 -> dir_find V x e = None -> dir_find V' y e = Some (u16 inum).
Proof.
  intros He Ha Hn. apply linked_takes_new in Ha as Ht; [|done]. unfold dir_find in *. fold (takes V x e) in Hn. fold (takes V' y e).
  rewrite linked_steps. rewrite (find_unique (takes V' y e) _ slot).
  - f_equal. rewrite <- (new_dirent_inum de name inum). apply load_ext. intros i Hb. rewrite linked_new. destruct (_ && _) eqn:E; [done|lia].
  - apply elem_of_app. case_decide as E; [right; by left|left]. by destruct dir_slot_cases as [(? & _)|].
  - done.
  - intros off [Ho|Ho]%elem_of_app Hto.
    + destruct (decide (off = slot)) as [|Hne]; [done|]. rewrite linked_takes_old in Hto by done.
      pose proof (find_first (takes V x e) (steps sizeof_dirent (i_size x))) as H. destruct (List.find _ _); [done|]. by rewrite H in Hto.
    + case_decide; [by apply list_elem_of_singleton in Ho|by apply elem_of_nil in Ho].
Qed.

Lemma linked_find_old e : byte_data (bytes_of e) -> ~ str_agree DIRSIZ (bytes_of e) 0 name 0 -> dir_find V' y e = dir_find V x e.
Proof.
  intros He Ha. assert (takes V' y e slot = false) as Hs by (apply not_true_iff_false; by rewrite linked_takes_new).
  unfold dir_find. fold (takes V x e). fold (takes V' y e). rewrite linked_steps, find_app_false.
  2: { intros off Ho. case_decide; [by apply list_elem_of_singleton in Ho as ->|by apply elem_of_nil in Ho]. }
  assert (takes V x e slot = false \/ slot ∉ steps sizeof_dirent (i_size x)) as Hf.
  { destruct (decide (slot ∈ steps sizeof_dirent (i_size x))) as [Hin|]; [left|by right]. unfold takes. by rewrite linked_slot_free, Z.eqb_refl. }
  rewrite (find_ext (takes V' y e) (takes V x e)).
  - pose proof (find_first (takes V x e) (steps sizeof_dirent (i_size x))) as H. destruct (List.find _ _) as [off|]; [|done].
    destruct H as (l1 & l2 & E & Ht & _). assert (off ∈ steps sizeof_dirent (i_size x)) as Ho by (rewrite E; apply elem_of_app; right; by left).
    assert (off <> slot) as Hne by (intros ->; destruct Hf; congruence). f_equal. apply de_inum_ext. intros i. by apply linked_old.
  - intros off Ho. destruct (decide (off = slot)) as [->|]; [|by apply linked_takes_old]. rewrite Hs. by destruct Hf as [->|].
Qed.
End linked.

(** ** The kernel *)

(** [written] depends on the old contents only. *)
Lemma written_ext s st V1 V x off n src V' y : (forall z, V1 z = V z) -> written s st V1 x off n src V' y -> written s st V x off n src V' y.
Proof.
  intros E [A1 A2 A3 A4 A5 A6 A7 A8].
  assert (forall bn, faddr V1 x bn = faddr V x bn) as Ef by (intros; unfold faddr; by rewrite E).
  assert (forall z, in_use V1 s z = in_use V s z) as Eu by (intros; unfold in_use; by rewrite E).
  assert (forall k, fbyte V1 x k = fbyte V x k) as Eb by (intros; unfold fbyte; by rewrite Ef, E).
  split; try done.
  - intros k Hk. rewrite <- Eb. by apply A2.
  - intros bn Hb. rewrite <- Ef. by apply A3.
  - intros z Hz Hu Hf. rewrite <- E. apply A4; [done|by rewrite Eu|]. intros bn Hb. rewrite Ef. by apply Hf.
  - intros j k Hj Hne Hk. rewrite <- E. by apply A6.
  - intros z Hz Hu. apply A7; [done|by rewrite Eu].
Qed.

Section links.
Context `{KI : KernelImage} `{WF : WaitFuel} `{DDok : DiskDriverOk} (l0 : lockst) (L : list lockptr).
Context (kt : kptr) (p : nat) (pid : Z).
Hypothesis Henv : fs_env l0 L kt.
Hypothesis Hlk : itable_lock ∉ L.
Hypothesis Hfree : lfree l0 itable_lock.

Lemma writable_same d d1 ip r : txn_same d d1 -> fsame d d1 -> writable kt p pid d ip r -> writable kt p pid d1 ip r.
Proof.
  intros S F [W1 W2 W3 W4 W5 W6]. assert (forall z, in_use (ldisk d1) d.(sb) z = in_use (ldisk d) d.(sb) z) as Eu.
  { intros z. unfold in_use. by rewrite (tm_disk _ _ S). }
  pose proof (wrote_same _ _ _ _ _ 0 (fun _ => 0) (tm_disk _ _ S) W4) as Hw.
  split; rewrite ?(fsame_itable _ _ F), ?(fsame_sb _ _ F), ?(tm_klog _ _ S); try done.
  - apply (tm_txn _ _ S).
  - by eapply self_fsame.
  - eapply geom_mono; [|exact W3]. intros z _. by rewrite Eu.
  - apply (wr_wf _ _ _ _ _ _ _ _ _ Hw).
  - destruct W5 as (l & H1 & H2 & H3). exists l. split; [done|]. split; [done|]. eapply Forall_impl; [exact H3|]. intros z. by rewrite Eu.
Qed.

(** The loop of [dirlink] over the entries. *)
Definition slot_step (dp : nat) (off : Z) : M (option (Z * bytes)) :=
  r ← readi dp (kobj 0) (fun _ => 0) off sizeof_dirent;
  if negb (r.1 =? sizeof_dirent) then panic "dirlink read" else
  if de_inum r.2 =? 0 then mret (Some (off, r.2)) else mret None.

Lemma po_slot d0 dp (x := d0.(itable) dp) (V := ldisk d0) l d : self kt p pid d0 -> dir_ok V x -> txn_same d0 d -> fsame d0 d ->
  (forall off, off ∈ l -> 0 <= off /\ off + sizeof_dirent <= x.(i_size)) ->
  pst l0 L d (scanM l (slot_step dp)) (fun r d' => txn_same d0 d' /\ fsame d0 d' /\
    match r with
    | Some (off, de) => List.find (fun off => de_inum (dirent_at V x off) =? 0) l = Some off /\ byte_data de
    | None => List.find (fun off => de_inum (dirent_at V x off) =? 0) l = None
    end).
Proof.
  intros Hs Hd. revert d. induction l as [|off l IH]; intros d S F Hl; cbn [scanM]; [by apply po_ret|].
  destruct (Hl off ltac:(by left)) as [H1 H2]. apply po_bind. unfold slot_step at 1. apply po_bind.
  eapply po_call; [by apply (po_dirent l0 L kt p pid Henv d0 dp Hs Hd)|]. intros r d1 (R1 & R2 & S1 & F1).
  rewrite R1, Z.eqb_refl. cbn [negb]. rewrite (de_inum_ext _ _ R2). cbn [List.find]. fold V x. destruct (_ =? 0) eqn:E.
  - apply po_ret, po_ret. split; [done|]. split; [done|]. split; [done|]. split; [done|]. intros i. rewrite R2. apply dirent_bytes, (do_bytes _ _ Hd).
  - apply po_ret. apply IH; [done|done|]. intros o Ho. apply Hl. by right.
Qed.

(** [iput] of a reference that has just been taken only gives it back. *)
Lemma po_iput_taken d0 d dev inum ip y : iget_entry d0.(itable) dev inum = Some (ip, y) -> isame ip y d0 d -> txn_same d0 d ->
  pst l0 L d (iput ip) (fun _ d' => txn_same d0 d' /\ forall j, (d'.(itable) j).(i_ref) = (d0.(itable) j).(i_ref)).
Proof.
  intros He I S. pose proof (is_entry _ _ _ _ I) as Ey.
  assert (y.(i_ref) = (d0.(itable) ip).(i_ref) + 1 /\ (y.(i_ref) =? 1) && ctrue y.(i_valid) && (y.(i_nlink) =? 0) = false) as [Er Hl].
  { destruct (iget_entry_cases _ _ _ _ _ He) as [[(R & _ & _)%refers_spec ->]|[R ->]]; cbn.
    - split; [done|]. by rewrite (proj2 (Z.eqb_neq _ 1)) by lia.
    - split; [lia|reflexivity]. }
  unfold iput. apply po_bind, po_acquire; [done|done|]. apply po_bind, po_getd. cbn [id]. rewrite Ey, Hl. cbn [when].
  apply po_bind, po_ret, po_bind, po_modd. apply (po_release _ _ _ L); [done|]. split; [done|]. split; [by apply (txn_same_eq d0 d0 d)|].
  intros j. cbn. unfold alter, fn_alter. case_decide as E; [subst j; rewrite Ey; cbn; lia|by rewrite (is_other _ _ _ _ I)].
Qed.

Lemma find_steps_slot V x : dir_ok V x ->
  dir_slot V x = match List.find (fun off => de_inum (dirent_at V x off) =? 0) (steps sizeof_dirent x.(i_size)) with
                 | Some off => off
                 | None => sizeof_dirent * ((x.(i_size) + sizeof_dirent - 1) / sizeof_dirent)
                 end.
Proof.
  intros Hd. unfold dir_slot. destruct (List.find _ _); [done|]. pose proof (do_size _ _ Hd) as Hm. change sizeof_dirent with 16 in *.
  Z.div_mod_to_equations. lia.
Qed.

(** Writing the entry. *)
Lemma po_link_write d d2 dp name inum de (x := d.(itable) dp) (V := ldisk d) (slot := dir_slot V x) :
  writable kt p pid d dp 1 -> dir_ok V x -> inode_ok x -> 0 <= x.(i_inum) < 2 ^ 31 -> 0 <= d.(sb).(sb_inodestart) < 2 ^ 31 ->
  direct_or_mapped V x slot sizeof_dirent -> txn_same d d2 -> fsame d d2 ->
  pst l0 L d2 (writei dp (kobj 0) (new_dirent de name inum) slot sizeof_dirent) (fun r d' =>
    if MAXFILE * BSIZE <? slot + sizeof_dirent then r = -1 /\ d' = d2
    else r = sizeof_dirent /\ exists y, isame dp y d d' /\ in_txn d d' /\
      written d.(sb) d.(klog).(lg_start) V x slot sizeof_dirent (fun k => new_dirent de name inum (k - slot)) (ldisk d') y).
Proof.
  intros W Hd Hok Hx Hst Hdm S F. pose proof (fsame_itable _ _ F) as Et. pose proof (fsame_sb _ _ F) as Es.
  pose proof (fo_size _ _ (do_file _ _ Hd)) as Hsz. assert (0 <= slot <= x.(i_size) /\ slot mod 1024 + 16 <= 1024) as [H1 H2].
  { pose proof (do_size _ _ Hd) as Hm. pose proof (dir_slot_cases V x Hd) as Hc. fold slot in Hc. destruct Hc as [(Ho & _ & ? & ?)|E].
    - apply steps_elem in Ho as (k & E & _). rewrite E in *. Z.div_mod_to_equations. lia.
    - change sizeof_dirent with 16 in Hm. rewrite E. Z.div_mod_to_equations. lia. }
  change (MAXFILE * BSIZE) with 274432 in *. change sizeof_dirent with 16 in *.
  pose proof (writei_spec l0 L kt p pid Henv d2 dp 0 (new_dirent de name inum) slot 16 1) as Hw. cbv zeta in Hw. rewrite Et, Es in Hw. fold x in Hw.
  specialize (Hw (writable_same _ _ _ _ S F W) Hok Hx Hst). specialize (Hw ltac:(lia) ltac:(lia) ltac:(lia) ltac:(change BSIZE with 1024; lia)).
  rewrite (proj2 (Z.ltb_ge x.(i_size) slot)) in Hw by lia. cbn [orb] in Hw. change (MAXFILE * BSIZE) with 274432 in Hw.
  assert (direct_or_mapped (ldisk d2) x slot 16) as Hdm2.
  { intros bn B1 B2. destruct (Hdm bn B1 B2) as [|N]; [by left|right]. unfold faddr. rewrite !(tm_disk _ _ S). exact N. }
  specialize (Hw Hdm2). destruct (_ <? _); [exact Hw|]. eapply po_mono; [exact Hw|]. intros r L' d' [-> (-> & y & Wn & I & T)].
  split; [done|]. split; [done|]. exists y. split; [by eapply fsame_isame|]. split; [eapply in_txn_trans; [by apply txn_same_in|done]|].
  rewrite (tm_klog _ _ S) in Wn. eapply written_ext; [|exact Wn]. apply (tm_disk _ _ S).
Qed.

(** C24: [dirlink] inserts a name into a directory.  If the name is there, it returns -1
    and gives back the reference that the search took.  Otherwise it writes the name and
    the inode number into the first free entry, or after the last one: then the name is
    found with this inode number, every other name is found exactly as before, and
    nothing but the directory has changed on the disk.  A directory of maximal size that
    is full gives -1 and stays as it is. *)
Theorem dirlink_correct d dp name e inum (x := d.(itable) dp) (V := ldisk d) (slot := dir_slot V x) :
  writable kt p pid d dp 1 -> dir_ok V x -> inode_ok x -> 0 <= x.(i_inum) < 2 ^ 31 -> 0 <= d.(sb).(sb_inodestart) < 2 ^ 31 ->
  direct_or_mapped V x slot sizeof_dirent -> byte_data name -> byte_data (bytes_of e) -> holds_elem name e -> 0 < inum < 2 ^ 16 ->
  match dir_find V x e with
  | Some i =>
      match iget_entry d.(itable) ROOTDEV i with
      | Some _ => pst l0 L d (dirlink dp name inum) (fun r d' =>
          r = -1 /\ txn_same d d' /\ forall j, (d'.(itable) j).(i_ref) = (d.(itable) j).(i_ref))
      | None => evals_panic l0 L d (dirlink dp name inum) "iget: no inodes"
      end
  | None => pst l0 L d (dirlink dp name inum) (fun r d' =>
      if MAXFILE * BSIZE <? slot + sizeof_dirent then r = -1 /\ txn_same d d' /\ fsame d d'
      else r = 0 /\ exists y, isame dp y d d' /\ in_txn d d' /\
        (exists de, written d.(sb) d.(klog).(lg_start) V x slot sizeof_dirent (fun k => new_dirent de name inum (k - slot)) (ldisk d') y) /\
        dir_find (ldisk d') y e = Some inum /\
        forall e', byte_data (bytes_of e') -> ~ str_agree DIRSIZ (bytes_of e') 0 (bytes_of e) 0 -> dir_find (ldisk d') y e' = dir_find V x e')
  end.
Proof.
  intros W Hd Hok Hx Hst Hdm Hname He Hh Hi. pose proof (dirlookup_spec l0 L kt p pid Henv Hlk Hfree d dp name (wb_txn _ _ _ _ _ _ W) (wb_self _ _ _ _ _ _ W) Hd Hname) as [Hmiss Hhit].
  pose proof (dir_find_spec V x e name (do_bytes _ _ Hd) He Hh) as Hf. destruct (dir_find V x e) as [i|] eqn:Ef.
  - destruct Hf as (l1 & off & l2 & El & H1 & H2 & ->). specialize (Hhit l1 off l2 El H1 H2). fold V x in Hhit.
    destruct (iget_entry _ _ _) as [[ip y]|] eqn:Ei; unfold dirlink; [|by apply ev_panic_bind].
    apply po_bind. eapply po_call; [exact Hhit|]. intros r d1 (-> & I & S & _ & _). apply po_bind.
    eapply po_call; [by eapply po_iput_taken|]. intros [] d2 [S2 R2]. by apply po_ret.
  - unfold dirlink. apply po_bind. eapply po_call; [by apply Hmiss|]. intros r d1 (-> & S1 & F1). apply po_bind, po_getd.
    rewrite (fsame_itable _ _ F1). fold x. apply po_bind. fold (slot_step dp).
    eapply po_call; [apply (po_slot d dp _ d1 (wb_self _ _ _ _ _ _ W) Hd S1 F1); by apply dir_offs|]. fold V x.
    intros r d2 (S2 & F2 & Hr). cbv zeta.
    set (de := match r with Some (_, de) => de | None => fun _ => 0 end).
    set (off := match r with Some (off, _) => off | None => _ end).
    assert (off = slot /\ byte_data de) as [-> Hde].
    { unfold off, de, slot. rewrite (find_steps_slot V x Hd). destruct r as [[o b]|]; [destruct Hr as [-> Hb]|rewrite Hr]; [done|]. split; [done|]. intros i. lia. }
    fold (new_dirent de name inum). apply po_bind. eapply po_call; [by apply (po_link_write d d2 dp name inum de)|]. fold V x slot. intros n d3.
    destruct (_ <? _) eqn:Efull; [intros [-> ->]; by apply po_ret|]. intros (-> & y & I & T & Wn). apply po_ret. split; [done|]. split; [done|].
    assert (u16 inum = inum) as Eu by (unfold u16; apply Z.mod_small; lia). assert (u16 inum <> 0) as Hu by lia.
    exists y. split; [done|]. split; [done|]. split; [by exists de|]. split.
    + rewrite <- Eu. eapply linked_find_new; try done. by apply (elem_agree name e).
    + intros e' He' Hne. eapply linked_find_old; try done. intros Ha. apply Hne. eapply str_agree_common; [|exact Ha]. by apply (elem_agree name e).
Qed.
End links.

(** ** Instances: the first entry of an empty directory *)

Section witnesses.
#[local] Existing Instance sync_disk.
#[local] Existing Instance sync_disk_ok.
#[local] Existing Instance demo_fuel.

Lemma demo_empty_ok : dir_ok (ldisk (demo_file_state T_DIR)) (demo_file T_DIR).
Proof.
  split; [apply (fw_ok _ _ _ _ (wb_wf _ _ _ _ _ _ (demo_writable T_DIR)))|done|done|].
  intros z i. rewrite demo_file_disk. unfold demo_bitmap. repeat case_match; done.
Qed.

Lemma demo_empty_entry off : de_inum (dirent_at (ldisk (demo_file_state T_DIR)) (demo_file T_DIR) off) = de_inum (dirent_at demo_bitmap (demo_file T_DIR) off).
Proof. apply de_inum_ext. intros i. unfold dirent_at, file_bytes, fbyte, faddr. by rewrite !demo_file_disk. Qed.

(** The name "a" for inode 5. *)
Lemma dirlink_correct_witness :
  pst (demo_run demo_kt) [] (demo_file_state T_DIR) (dirlink 0 (bytes_of [97]) 5) (fun r d' =>
    r = 0 /\ exists y, (d'.(itable) 0%nat) = y /\ dir_find (ldisk d') y [97] = Some 5 /\ dir_find (ldisk d') y [98] = None).
Proof.
  assert (forall c, dir_find (ldisk (demo_file_state T_DIR)) (demo_file T_DIR) c = None) as Hnone.
  { intros c. unfold dir_find. change (steps sizeof_dirent (i_size (demo_file T_DIR))) with [0; 16]. cbn [List.find]. by rewrite !demo_empty_entry. }
  assert (dir_slot (ldisk (demo_file_state T_DIR)) (demo_file T_DIR) = 0) as Hslot.
  { unfold dir_slot. change (steps sizeof_dirent (i_size (demo_file T_DIR))) with [0; 16]. cbn [List.find]. by rewrite demo_empty_entry. }
  pose proof (dirlink_correct (demo_run demo_kt) [] demo_kt 1 demo_pid demo_fs_env) as H.
  specialize (H ltac:(apply not_elem_of_nil) ltac:(apply demo_run_free) (demo_file_state T_DIR) 0%nat (bytes_of [97]) [97] 5).
  cbv zeta in H. change (itable (demo_file_state T_DIR) 0%nat) with (demo_file T_DIR) in H. rewrite Hnone, Hslot in H.
  eapply po_mono; [apply H|].
  - destruct (demo_writable T_DIR) as [W1 W2 W3 W4 W5 W6]. split; try done. by apply (free_fewer _ _ 2); [lia|].
  - apply demo_empty_ok.
  - split; try done. intros i Hi. cbn. destruct (i =? 0); lia.
  - done.
  - done.
  - intros bn H1 H2. left. change BSIZE with 1024 in *. change NDIRECT with 12. change sizeof_dirent with 16 in *. lia.
  - apply bytes_of_bytes. unfold is_bytes. apply (bool_decide_unpack _). vm_compute. exact I.
  - apply bytes_of_bytes. unfold is_bytes. apply (bool_decide_unpack _). vm_compute. exact I.
  - split; [intros i c _ Hc; by apply bytes_of_lookup|done].
  - done.
  - intros r L' d' [-> Hr]. split; [done|]. change (MAXFILE * BSIZE <? 0 + sizeof_dirent) with false in Hr. cbv iota in Hr.
    destruct Hr as (-> & y & Is & _ & _ & E1 & E2). split; [done|]. exists y. split; [apply Is|]. split; [done|]. rewrite E2; [by apply Hnone|..].
    + apply bytes_of_bytes. unfold is_bytes. apply (bool_decide_unpack _). vm_compute. exact I.
    + intros Ha. by specialize (Ha 0 ltac:(done) ltac:(intros; lia)).
Defined.
End witnesses.
