(* ===== verification/Mkfs.v ===== *)
(** * The builder of the file system image (mkfs/mkfs.c)

    mkfs runs on the host.  The image is a file of sectors; the host's [lseek], [read] and
    [write] on it succeed, and reading beyond its end is a short read, on which mkfs dies.
    The host is little-endian, as the target.  The files that are put in the image are
    given by their names and, if they can be opened, by the pieces that [read] returns
    for them. *)
From S2P Require Export InodeSpec.

Definition NINODES : Z := 200.
Definition nbitmap : Z := FSSIZE / (BSIZE * 8) + 1.
Definition ninodeblocks : Z := NINODES / IPB + 1.
Definition nlog : Z := LOGSIZE.
Definition nmeta : Z := 2 + nlog + ninodeblocks + nbitmap.
Definition nblocks : Z := FSSIZE - nmeta.

(** The image (sectors, and how many there are) and the counters. *)
Record mkstate := Mkstate { img : Z -> bytes; nsect : Z; freeinode : Z; freeblock : Z }.

(** A function of mkfs returns, dies with a message, or fails an assertion. *)
Inductive kres (A : Type) := KOk (a : A) (s : mkstate) | KDie (msg : list Z) | KAssert.
#[global] Arguments KOk {A} a s.
#[global] Arguments KDie {A} msg.
#[global] Arguments KAssert {A}.

Definition K (A : Type) : Type := mkstate -> kres A.
#[global] Instance K_ret : MRet K := fun A a s => KOk a s.
#[global] Instance K_bind : MBind K := fun A B f m s =>
  match m s with KOk a s => f a s | KDie msg => KDie msg | KAssert => KAssert end.

Definition die {A} (msg : list Z) : K A := fun _ => KDie msg.
Definition assert_ (b : bool) : K unit := fun s => if b then KOk tt s else KAssert.

(** [xshort] and [xint]: the bytes of the number in the order of the target, read in the
    order of the host. *)
Definition xshort (x : Z) : Z :=
  let a : bytes := fun _ => 0 in
  let a := <[0 := u8 x]> a in
  let a := <[1 := u8 (Z.shiftr x 8)]> a in
  load16 a 0.
Definition xint (x : Z) : Z :=
  let a : bytes := fun _ => 0 in
  let a := <[0 := u8 x]> a in
  let a := <[1 := u8 (Z.shiftr x 8)]> a in
  let a := <[2 := u8 (Z.shiftr x 16)]> a in
  let a := <[3 := u8 (Z.shiftr x 24)]> a in
  load32 a 0.

(** [sb], as [main] fills it in. *)
Definition mk_sb : superblock :=
  Superblock FSMAGIC (xint FSSIZE) (xint nblocks) (xint NINODES) (xint nlog) (xint 2) (xint (2 + nlog)) (xint (2 + nlog + ninodeblocks)).

(** The sector at which [lseek(fsfd, sec * BSIZE, 0)] ends; the product is a [uint]. *)
Definition sector (sec : Z) : Z := u32 (sec * BSIZE) / BSIZE.

Definition wsect (sec : Z) (buf : bytes) : K unit := fun s =>
  KOk tt (Mkstate (<[sector sec := buf]> s.(img)) (Z.max s.(nsect) (sector sec + 1)) s.(freeinode) s.(freeblock)).

Definition rsect (sec : Z) : K bytes := fun s =>
  if sector sec <? s.(nsect) then KOk (s.(img) (sector sec)) s else KDie (chars "read").

Definition winode (inum : Z) (ip : bytes) : K unit :=
  let bn := IBLOCK inum mk_sb in
  buf ← rsect bn;
  wsect bn (memmove_across buf (inum mod IPB * sizeof_dinode) ip 0 sizeof_dinode).

Definition rinode (inum : Z) : K bytes :=
  let bn := IBLOCK inum mk_sb in
  buf ← rsect bn;
  mret (memmove_across (fun _ => 0) 0 buf (inum mod IPB * sizeof_dinode) sizeof_dinode).

Definition ialloc (type : Z) : K Z := fun s =>
  let inum := s.(freeinode) in
  let s := Mkstate s.(img) s.(nsect) (u32 (inum + 1)) s.(freeblock) in
  let din : bytes := fun _ => 0 in
  let din := store16 din 0 (xshort type) in
  let din := store16 din 6 (xshort 1) in
  let din := store32 din 8 (xint 0) in
  (winode inum din;; mret inum) s.

(** The bits of the first [used] blocks, in one block. *)
Definition used_bits (used : Z) : bytes :=
  foldl (fun buf i => <[i / 8 := u8 (Z.lor (buf (i / 8)) (Z.shiftl 1 (i mod 8)))]> buf) (fun _ => 0) (seqZ 0 used).

Definition balloc (used : Z) : K unit :=
  assert_ (used <? BSIZE * 8);;
  wsect mk_sb.(sb_bmapstart) (used_bits used).

(** [freeblock++] *)
Definition take_block : K Z := fun s =>
  KOk s.(freeblock) (Mkstate s.(img) s.(nsect) s.(freeinode) (u32 (s.(freeblock) + 1))).

(** [din.addrs[i]] *)
Definition addrs (din : bytes) (i : Z) : Z := load32 din (12 + 4 * i).

(** The block for block [fbn] of the file, allocated if there is none. *)
Definition block_for (din : bytes) (fbn : Z) : K (Z * bytes) :=
  if fbn <? NDIRECT then
    din ← (if xint (addrs din fbn) =? 0 then b ← take_block; mret (store32 din (12 + 4 * fbn) (xint b)) else mret din);
    mret (xint (addrs din fbn), din)
  else
    din ← (if xint (addrs din NDIRECT) =? 0 then b ← take_block; mret (store32 din (12 + 4 * NDIRECT) (xint b)) else mret din);
    indirect ← rsect (xint (addrs din NDIRECT));
    let i := fbn - NDIRECT in
    if load32 indirect (4 * i) =? 0 then
      b ← take_block;
      let indirect := store32 indirect (4 * i) (xint b) in
      wsect (xint (addrs din NDIRECT)) indirect;;
      mret (xint (load32 indirect (4 * i)), din)
    else mret (xint (load32 indirect (4 * i)), din).

(** The loop of [iappend], with the bytes that remain; each round takes at least one. *)
Fixpoint iappend_loop (fuel : nat) (din : bytes) (off : Z) (p : list Z) : K (bytes * Z) :=
  match p, fuel with
  | [], _ => mret (din, off)
  | _, O => die (chars "fuel")
  | _, S fuel =>
      let fbn := off / BSIZE in
      assert_ (fbn <? MAXFILE);;
      '(x, din) ← block_for din fbn;
      let n1 := Z.min (Z.of_nat (length p)) (u32 ((fbn + 1) * BSIZE - off)) in
      buf ← rsect x;
      wsect x (memmove_across buf (off - fbn * BSIZE) (bytes_of p) 0 n1);;
      iappend_loop fuel din (u32 (off + n1)) (drop (Z.to_nat n1) p)
  end.

Definition iappend (inum : Z) (p : list Z) : K unit :=
  din ← rinode inum;
  '(din, off) ← iappend_loop (length p) din (xint (di_size din 0)) p;
  winode inum (store32 din 8 (xint off)).

(** ** main *)

(** [struct dirent] with a name, padded with NULs: [bzero], [strcpy] or [strncpy]. *)
Definition mk_dirent (inum : Z) (name : list Z) : bytes :=
  strncpy (store16 (fun _ => 0) 0 (xshort inum)) 2 (bytes_of name) 0 DIRSIZ.

Definition dirent_bytes (inum : Z) (name : list Z) : list Z := read_bytes (Z.to_nat sizeof_dirent) (mk_dirent inum name) 0.

(** The name without user/ in front; then, without the underscore. *)
Definition shortname (arg : list Z) : list Z :=
  if bool_decide (take 5 arg = chars "user/") then drop 5 arg else arg.
Definition stripped (name : list Z) : list Z :=
  match name with 95 :: rest => rest | _ => name end.

Fixpoint forK {A} (l : list A) (f : A -> K unit) : K unit :=
  match l with [] => mret tt | a :: l => f a;; forK l f end.

(** One file of the command line: its argument and the pieces of its contents, if it can
    be opened. *)
Definition add_file (rootino : Z) (f : list Z * option (list (list Z))) : K unit :=
  let name := shortname f.1 in
  assert_ (bool_decide (47 ∉ name));;
  match f.2 with
  | None => die f.1
  | Some pieces =>
      let name := stripped name in
      inum ← ialloc T_FILE;
      iappend rootino (dirent_bytes inum name);;
      forK pieces (iappend inum)
  end.

Definition store_superblock (s : superblock) : bytes :=
  let m : bytes := fun _ => 0 in
  let m := store32 m 0 s.(sb_magic) in
  let m := store32 m 4 s.(sb_size) in
  let m := store32 m 8 s.(sb_nblocks) in
  let m := store32 m 12 s.(sb_ninodes) in
  let m := store32 m 16 s.(sb_nlog) in
  let m := store32 m 20 s.(sb_logstart) in
  let m := store32 m 24 s.(sb_inodestart) in
  store32 m 28 s.(sb_bmapstart).

(** The end of [main]: the size of the root directory. *)
Definition fix_root (rootino : Z) : K unit :=
  din ← rinode rootino;
  let off := xint (di_size din 0) in
  let off := u32 ((off / BSIZE + 1) * BSIZE) in
  winode rootino (store32 din 8 (xint off)).

Definition mkfs (files : list (list Z * option (list (list Z)))) : K unit :=
  forK (seqZ 0 FSSIZE) (fun i => wsect i (fun _ => 0));;
  wsect 1 (store_superblock mk_sb);;
  rootino ← ialloc T_DIR;
  assert_ (rootino =? ROOTINO);;
  iappend rootino (dirent_bytes rootino (chars "."));;
  iappend rootino (dirent_bytes rootino (chars ".."));;
  forK files (add_file rootino);;
  fix_root rootino;;
  used ← (fun s => KOk s.(freeblock) s) : K Z;
  balloc used.

(** The empty image file and the initial counters. *)
Definition mk_start : mkstate := Mkstate (fun _ _ => 0) 0 1 nmeta.

(** ** Arithmetic *)

Lemma xshort_u16 x : xshort x = u16 x.
Proof.
  unfold xshort. rewrite Z.shiftr_div_pow2 by lia. change (2 ^ 8) with 256.
  change (load16 (store16 (fun _ => 0) 0 x) 0 = u16 x). apply load_store.
Qed.

Lemma xint_u32 x : xint x = u32 x.
Proof.
  unfold xint. rewrite !Z.shiftr_div_pow2 by lia. change (2 ^ 8) with 256.
  replace (x / 2 ^ 16) with (x / 256 / 256) by (by rewrite Z.div_div by lia).
  replace (x / 2 ^ 24) with (x / 256 / 256 / 256) by (by rewrite !Z.div_div by lia).
  change (load32 (store32 (fun _ => 0) 0 x) 0 = u32 x). apply load_store.
Qed.

Lemma load32_u32 m a : u32 (load32 m a) = load32 m a.
Proof. apply u32_small, load_bound. Qed.

Lemma load32_store32 m a v : load32 (store32 m a v) a = u32 v.
Proof. apply load_store. Qed.

Lemma load32_store32_ne m a b v : a + 4 <= b \/ b + 4 <= a -> load32 (store32 m a v) b = load32 m b.
Proof. intros H. apply load_store_ne. cbn. lia. Qed.

Lemma sector_id sec : 0 <= sec < 2 ^ 22 -> sector sec = sec.
Proof. intros H. unfold sector. change BSIZE with 1024. rewrite u32_small by lia. apply Z.div_mul. lia. Qed.
