(* ===== verification/MkfsSpec.v ===== *)
(** * The image that mkfs builds is a file system

    While mkfs runs, [finv] relates the image to the files that it holds: the blocks of
    the files are allocated in the part after the metadata, each to one use.  The theorem
    says that the kernel's definitions read the finished image as intended. *)
From S2P Require Export DirSpec Mkfs.

(** The use [bn] of a block by an inode: a block of the file, or, for -1, the block of
    indirect addresses.  Zero: no block. *)
Definition slot (V : Z -> bytes) (d : bytes) (bn : Z) : Z :=
  if bn =? -1 then addrs d NDIRECT
  else if bn <? NDIRECT then addrs d bn
  else if addrs d NDIRECT =? 0 then 0 else load32 (V (addrs d NDIRECT)) (4 * (bn - NDIRECT)).

(** [n] inodes [D i] with [N i] blocks and the contents [C i]; the blocks from [fb] on
    are free and zero; so is the rest of the last block of a file. *)
Record finv (V : Z -> bytes) (D : nat -> bytes) (N : nat -> Z) (C : nat -> list Z) (n : nat) (fb : Z) : Prop := {
  fi_range : forall i bn, (i < n)%nat -> -1 <= bn < MAXFILE -> slot V (D i) bn <> 0 -> nmeta <= slot V (D i) bn < fb;
  fi_inj : forall i j bn bn', (i < n)%nat -> (j < n)%nat -> -1 <= bn < MAXFILE -> -1 <= bn' < MAXFILE ->
    slot V (D i) bn <> 0 -> slot V (D i) bn = slot V (D j) bn' -> i = j /\ bn = bn';
  fi_zero : forall b off, fb <= b -> V b off = 0;
  fi_count : forall i, (i < n)%nat -> 0 <= N i <= MAXFILE /\ Z.of_nat (length (C i)) <= N i * BSIZE;
  fi_mapped : forall i bn, (i < n)%nat -> 0 <= bn < MAXFILE -> slot V (D i) bn = 0 <-> N i <= bn;
  fi_indirect : forall i, (i < n)%nat -> slot V (D i) (-1) = 0 <-> N i <= NDIRECT;
  fi_data : forall i k, (i < n)%nat -> 0 <= k < N i * BSIZE -> V (slot V (D i) (k / BSIZE)) (k mod BSIZE) = bytes_of (C i) k;
}.

(** A file grows by one block: the inode gets new blocks between [fb] and [fb'], no
    other use of a block changes, and only its indirect block is written. *)
Lemma finv_grow V D N C n fb i V' d' fb' :
  finv V D N C n fb -> (i < n)%nat -> nmeta <= fb <= fb' -> N i < MAXFILE ->
  (forall j bn, (j < n)%nat -> j <> i -> -1 <= bn < MAXFILE -> slot V' (D j) bn = slot V (D j) bn) ->
  (forall bn, -1 <= bn < MAXFILE -> slot V' d' bn = slot V (D i) bn \/ (slot V (D i) bn = 0 /\ fb <= slot V' d' bn < fb')) ->
  (forall bn bn', -1 <= bn < MAXFILE -> -1 <= bn' < MAXFILE -> fb <= slot V' d' bn -> slot V' d' bn = slot V' d' bn' -> bn = bn') ->
  (forall bn, 0 <= bn < MAXFILE -> slot V' d' bn = 0 <-> N i + 1 <= bn) ->
  (slot V' d' (-1) = 0 <-> N i + 1 <= NDIRECT) ->
  (forall b off, b <> slot V' d' (-1) -> V' b off = V b off) ->
  finv V' (<[i := d']> D) (<[i := N i + 1]> N) C n fb'.
Proof.
  intros [F1 F2 F3 F4 F5 F6 F7] Hi Hfb HN Ho Hn Hd Hm Hx HV. change nmeta with 46 in *.
  assert (forall j bn, (j < n)%nat -> -1 <= bn < MAXFILE ->
    slot V' (<[i := d']> D j) bn = slot V (D j) bn \/ (j = i /\ slot V (D j) bn = 0 /\ fb <= slot V' d' bn < fb')) as Hs.
  { intros j bn Hj Hbn. rewrite fn_insert_case. case_decide as E; [|left; by apply Ho].
    subst j. destruct (Hn bn Hbn) as [?|?]; [by left|right; tauto]. }
  assert (forall j bn, (j < n)%nat -> -1 <= bn < MAXFILE -> slot V (D j) bn <> 0 ->
    slot V' (<[i := d']> D j) bn = slot V (D j) bn /\ 46 <= slot V (D j) bn < fb) as Hold.
  { intros j bn Hj Hbn H0. destruct (Hs j bn Hj Hbn) as [E|(_ & E & _)]; [|done]. split; [done|by apply F1]. }
  assert (nmeta = 46) as Hnm by done. assert (-1 <= -1 < MAXFILE) as Hm1 by done.
  split.
  - intros j bn Hj Hbn H0. destruct (Hs j bn Hj Hbn) as [E|(-> & E1 & E2)].
    + rewrite E in H0 |- *. specialize (F1 j bn Hj Hbn H0). lia.
    + rewrite fn_lookup_insert. lia.
  - intros j1 j2 bn1 bn2 Hj1 Hj2 Hb1 Hb2 H0 E.
    destruct (Hs j1 bn1 Hj1 Hb1) as [E1|(-> & Z1 & E1)], (Hs j2 bn2 Hj2 Hb2) as [E2|(-> & Z2 & E2)].
    + rewrite E1 in *. rewrite E2 in E. by apply F2.
    + rewrite E1 in *. pose proof (F1 j1 bn1 Hj1 Hb1 H0). rewrite fn_lookup_insert in E. lia.
    + rewrite E2 in E. rewrite fn_lookup_insert in *. assert (slot V (D j2) bn2 <> 0) as H2 by lia.
      pose proof (F1 j2 bn2 Hj2 Hb2 H2). lia.
    + rewrite fn_lookup_insert in *. split; [done|]. apply Hd; [done|done|lia|done].
  - intros b off Hb. rewrite HV; [apply F3; lia|].
    destruct (Hn (-1) Hm1) as [E|E]; [|lia]. rewrite E. intros ->.
    specialize (F1 i (-1) Hi Hm1). lia.
  - intros j Hj. rewrite fn_insert_case. case_decide as E; [subst j|by apply F4].
    destruct (F4 i Hi) as [H1 H2]. change BSIZE with 1024 in *. lia.
  - intros j bn Hj Hbn. rewrite (fn_insert_case N). destruct (decide (i = j)) as [->|E].
    + rewrite fn_lookup_insert. by apply Hm.
    + rewrite fn_lookup_insert_ne by done. rewrite Ho by (done || lia). by apply F5.
  - intros j Hj. rewrite (fn_insert_case N). destruct (decide (i = j)) as [->|E].
    + by rewrite fn_lookup_insert.
    + rewrite fn_lookup_insert_ne by done. rewrite Ho by (done || lia). by apply F6.
  - intros j k Hj Hk. destruct (F4 j Hj) as [HN1 HN2].
    assert (slot V' (<[i := d']> D j) (k / BSIZE) <> slot V' d' (-1)) as Hne.
    { intros E. assert (0 <= k / BSIZE < <[i := N i + 1]> N j) as Hbn.
      { split; [apply Z.div_pos; [lia|done]|]. apply Z.div_lt_upper_bound; [done|lia]. }
      destruct (decide (i = j)) as [<-|Hij].
      - rewrite fn_lookup_insert in E. rewrite fn_lookup_insert in Hbn. destruct (decide (fb <= slot V' d' (-1))) as [Hge|Hlt].
        + pose proof (Hd (-1) (k / BSIZE) Hm1 ltac:(lia) Hge (eq_sym E)). lia.
        + destruct (Hn (-1) Hm1) as [E1|E1]; [|lia]. destruct (Hn (k / BSIZE) ltac:(lia)) as [E2|E2]; [|lia].
          rewrite E1, E2 in E. assert (slot V (D i) (k / BSIZE) <> 0) as H0 by (rewrite <- E2, Hm by lia; lia).
          destruct (F2 i i (k / BSIZE) (-1) Hi Hi ltac:(lia) Hm1 H0 E). lia.
      - rewrite fn_lookup_insert_ne in E by done. rewrite fn_lookup_insert_ne in Hbn by done. rewrite Ho in E by (done || lia).
        assert (slot V (D j) (k / BSIZE) <> 0) as H0 by (rewrite F5 by (done || lia); lia).
        destruct (Hn (-1) Hm1) as [E1|E1].
        + rewrite E1 in E. destruct (F2 j i (k / BSIZE) (-1) Hj Hi ltac:(lia) Hm1 H0 E). lia.
        + pose proof (F1 j (k / BSIZE) Hj ltac:(lia) H0). lia. }
    rewrite HV by done. destruct (decide (k < N j * BSIZE)) as [Hk'|Hk'].
    + assert (0 <= k / BSIZE < N j) as Hbn.
      { split; [apply Z.div_pos; [lia|done]|]. apply Z.div_lt_upper_bound; [done|lia]. }
      assert (slot V (D j) (k / BSIZE) <> 0) as H0 by (rewrite F5 by (done || lia); lia).
      destruct (Hold j (k / BSIZE) Hj ltac:(lia) H0) as [-> Hr]. apply F7; [done|lia].
    + rewrite bytes_of_beyond by lia. rewrite fn_insert_case in Hk. case_decide as E; [subst j|lia].
      assert (k / BSIZE = N i) as Hq. { symmetry. apply (Z.div_unique _ _ _ (k - N i * BSIZE)); change BSIZE with 1024 in *; lia. }
      rewrite fn_lookup_insert, Hq. destruct (Hn (N i) ltac:(lia)) as [E|E]; [|apply F3; lia].
      exfalso. assert (slot V (D i) (N i) = 0) as H0 by (apply F5; [done|lia|lia]). rewrite H0 in E.
      apply Hm in E; lia.
Qed.

(** The same for new blocks [x], and [y] for the indirect addresses if it is needed. *)
Lemma finv_grow_at V D N C n fb i V' d' x y fb' :
  finv V D N C n fb -> (i < n)%nat -> nmeta <= fb -> N i < MAXFILE -> fb <= x < fb' -> (N i = NDIRECT -> fb <= y < fb' /\ x <> y) ->
  (forall j bn, (j < n)%nat -> j <> i -> -1 <= bn < MAXFILE -> slot V' (D j) bn = slot V (D j) bn) ->
  (forall bn, -1 <= bn < MAXFILE -> slot V' d' bn =
     if bn =? N i then x else if (bn =? -1) && (N i =? NDIRECT) then y else slot V (D i) bn) ->
  (forall b off, b <> slot V' d' (-1) -> V' b off = V b off) ->
  finv V' (<[i := d']> D) (<[i := N i + 1]> N) C n fb'.
Proof.
  intros Hf Hi Hfb HN Hx Hy Ho Hs HV. pose proof Hf as [F1 F2 F3 F4 F5 F6 F7]. destruct (F4 i Hi) as [HN0 _].
  assert (nmeta = 46) as Hnm by done. assert (NDIRECT = 12) as HND by done. assert (MAXFILE = 268) as HMF by done.
  assert (forall b, -1 <= b < MAXFILE -> slot V (D i) b < fb) as Hlt.
  { intros b Hb. destruct (decide (slot V (D i) b = 0)); [lia|]. specialize (F1 i b Hi Hb). lia. }
  eapply finv_grow; [exact Hf|done|lia|lia|done|..|done].
  - intros bn Hbn. rewrite Hs by done. destruct (Z.eqb_spec bn (N i)) as [->|Hne]; [right; split; [apply F5; lia|lia]|].
    destruct (Z.eqb_spec bn (-1)) as [->|], (Z.eqb_spec (N i) NDIRECT) as [E|]; cbn [andb]; try by left.
    right. split; [apply F6; [done|lia]|by apply Hy].
  - intros bn bn' Hb Hb'. rewrite !Hs by done. pose proof (Hlt bn Hb). pose proof (Hlt bn' Hb').
    destruct (Z.eqb_spec bn (N i)), (Z.eqb_spec bn' (N i)), (Z.eqb_spec bn (-1)), (Z.eqb_spec bn' (-1)), (Z.eqb_spec (N i) NDIRECT);
      cbn [andb]; try lia; specialize (Hy ltac:(done)); lia.
  - intros bn Hbn. rewrite Hs by lia. rewrite (proj2 (Z.eqb_neq bn (-1))) by lia. cbn [andb].
    destruct (Z.eqb_spec bn (N i)) as [->|]; [lia|]. rewrite (F5 i bn) by done. lia.
  - rewrite Hs, (proj2 (Z.eqb_neq (-1) (N i))) by lia. cbn [andb]. change (-1 =? -1) with true. cbn [andb].
    destruct (Z.eqb_spec (N i) NDIRECT); [lia|]. rewrite (F6 i Hi). lia.
Qed.

(** ** Allocating a block for a file *)

Lemma addrs_store d k v j : addrs (store32 d (12 + 4 * k) v) j = if j =? k then u32 v else addrs d j.
Proof.
  unfold addrs. destruct (Z.eqb_spec j k) as [->|Hne]; [apply load32_store32|]. apply load32_store32_ne. lia.
Qed.

Lemma addrs_xint d k : xint (addrs d k) = addrs d k.
Proof. rewrite xint_u32. apply load32_u32. Qed.

(** The result of [block_for] for the next block of file [i]. *)
Record grown (V : Z -> bytes) (D : nat -> bytes) (N : nat -> Z) (C : nat -> list Z) (n : nat) (s : mkstate) (i : nat)
    (x : Z) (d' : bytes) (s' : mkstate) : Prop := {
  gr_inv : finv s'.(img) (<[i := d']> D) (<[i := N i + 1]> N) C n s'.(freeblock);
  gr_slot : x = slot s'.(img) d' (N i);
  gr_next : s'.(freeblock) = s.(freeblock) + 1 + (if N i =? NDIRECT then 1 else 0);
  gr_sects : s'.(nsect) = FSSIZE /\ s'.(freeinode) = s.(freeinode);
  gr_head : forall k, k < 12 -> d' k = D i k;
  gr_meta : forall b, b < nmeta -> s'.(img) b = V b;
}.

Lemma block_for_direct s D N C n i : finv s.(img) D N C n s.(freeblock) -> (i < n)%nat -> N i < NDIRECT ->
  nmeta <= s.(freeblock) < FSSIZE -> s.(nsect) = FSSIZE ->
  exists x d' s', block_for (D i) (N i) s = KOk (x, d') s' /\ grown s.(img) D N C n s i x d' s'.
Proof.
  intros Hf Hi HN Hfb Hns. pose proof Hf as [F1 F2 F3 F4 F5 F6 F7]. destruct (F4 i Hi) as [HN0 _].
  assert (nmeta = 46) as Hnm by done. assert (FSSIZE = 2000) as HFS by done. assert (NDIRECT = 12) as HND by done.
  assert (MAXFILE = 268) as HMF by done.
  assert (addrs (D i) (N i) = 0) as H0.
  { pose proof (proj2 (F5 i (N i) Hi ltac:(lia)) ltac:(lia)) as E. unfold slot in E.
    rewrite (proj2 (Z.eqb_neq (N i) (-1))), (proj2 (Z.ltb_lt (N i) NDIRECT)) in E by lia. done. }
  unfold block_for. rewrite (proj2 (Z.ltb_lt _ NDIRECT)) by done. rewrite addrs_xint, H0.
  change (0 =? 0) with true. cbv iota. unfold mbind, K_bind, take_block, mret, K_ret. cbn [freeblock img nsect freeinode].
  rewrite !xint_u32, addrs_store, Z.eqb_refl. rewrite !(u32_small (freeblock s)), !(u32_small (freeblock s + 1)) by lia.
  eexists _, _, _. split; [done|]. set (d' := store32 _ _ _). set (fb := freeblock s) in *.
  assert (forall bn, -1 <= bn < MAXFILE -> slot (img s) d' bn = if bn =? N i then fb else slot (img s) (D i) bn) as Hs.
  { intros bn Hbn. unfold slot, d'. rewrite !addrs_store, !(u32_small fb) by lia.
    rewrite (proj2 (Z.eqb_neq NDIRECT (N i))) by lia.
    destruct (Z.eqb_spec bn (-1)), (Z.eqb_spec bn (N i)); try lia; try done.
    by rewrite (proj2 (Z.ltb_lt bn NDIRECT)) by lia. }
  split; cbn [img freeblock nsect freeinode]; [|rewrite Hs, Z.eqb_refl by lia; done| | | |done].
  - eapply (finv_grow_at _ _ _ _ _ _ _ _ _ fb 0); [exact Hf|done|lia|lia|lia|lia|done| |done].
    intros bn Hbn. rewrite Hs, (proj2 (Z.eqb_neq (N i) NDIRECT)), andb_false_r by (done || lia). done.
  - rewrite (proj2 (Z.eqb_neq (N i) NDIRECT)) by lia. lia.
  - done.
  - intros k Hk. unfold d', store32. apply store_out. lia.
Qed.

(** Writing the indirect block of file [i] does not change the blocks of the others. *)
Lemma slot_other V D N C n fb i j ib buf bn : finv V D N C n fb -> (i < n)%nat -> (j < n)%nat -> j <> i -> -1 <= bn < MAXFILE ->
  ib = slot V (D i) (-1) /\ ib <> 0 \/ fb <= ib -> nmeta <= fb -> slot (<[ib := buf]> V) (D j) bn = slot V (D j) bn.
Proof.
  intros [F1 F2 _ _ _ _ _] Hi Hj Hne Hbn Hib Hfb. assert (nmeta = 46) as Hnm by done. unfold slot at 1 2.
  destruct (bn =? -1); [done|]. destruct (bn <? NDIRECT); [done|]. destruct (Z.eqb_spec (addrs (D j) NDIRECT) 0) as [|H0]; [done|].
  rewrite fn_lookup_insert_ne; [done|]. intros E. assert (-1 <= -1 < MAXFILE) as Hm1 by done.
  change (addrs (D j) NDIRECT) with (slot V (D j) (-1)) in *. pose proof (F1 j (-1) Hj Hm1 H0). destruct Hib as [[-> Hi0]|]; [|lia].
  destruct (F2 i j (-1) (-1) Hi Hj Hm1 Hm1 Hi0); [lia|]. congruence.
Qed.

Lemma block_for_more s D N C n i : finv s.(img) D N C n s.(freeblock) -> (i < n)%nat -> NDIRECT < N i < MAXFILE ->
  nmeta <= s.(freeblock) < FSSIZE -> s.(nsect) = FSSIZE ->
  exists x d' s', block_for (D i) (N i) s = KOk (x, d') s' /\ grown s.(img) D N C n s i x d' s'.
Proof.
  intros Hf Hi HN Hfb Hns. pose proof Hf as [F1 F2 F3 F4 F5 F6 F7].
  assert (nmeta = 46) as Hnm by done. assert (FSSIZE = 2000) as HFS by done. assert (NDIRECT = 12) as HND by done.
  assert (MAXFILE = 268) as HMF by done.
  set (ib := addrs (D i) NDIRECT). assert (ib <> 0) as Hib.
  { change ib with (slot (img s) (D i) (-1)). rewrite (F6 i Hi). lia. }
  pose proof (F1 i (-1) Hi ltac:(lia) Hib) as Hr. change (slot (img s) (D i) (-1)) with ib in Hr.
  assert (load32 (img s ib) (4 * (N i - NDIRECT)) = 0) as H0.
  { pose proof (proj2 (F5 i (N i) Hi ltac:(lia)) ltac:(lia)) as E. unfold slot in E. fold ib in E.
    rewrite (proj2 (Z.eqb_neq (N i) (-1))), (proj2 (Z.ltb_ge (N i) NDIRECT)), (proj2 (Z.eqb_neq ib 0)) in E by lia. done. }
  unfold block_for. rewrite (proj2 (Z.ltb_ge _ NDIRECT)) by lia. rewrite addrs_xint. fold ib. rewrite (proj2 (Z.eqb_neq ib 0)) by done.
  unfold mbind, K_bind, take_block, mret, K_ret, rsect, wsect. cbn [freeblock img nsect freeinode]. rewrite addrs_xint. fold ib.
  rewrite sector_id, Hns, (proj2 (Z.ltb_lt ib FSSIZE)), H0 by lia. change (0 =? 0) with true. cbn [freeblock img nsect freeinode].
  rewrite !xint_u32, load32_store32, !(u32_small (freeblock s)), !(u32_small (freeblock s + 1)) by (rewrite ?u32_small; lia).
  eexists _, _, _. split; [done|]. set (fb := freeblock s) in *. set (V' := <[ib := _]> _).
  assert (forall bn, -1 <= bn < MAXFILE -> slot V' (D i) bn = if bn =? N i then fb else slot (img s) (D i) bn) as Hs.
  { intros bn Hbn. unfold slot, V'. fold ib. destruct (Z.eqb_spec bn (-1)), (Z.eqb_spec bn (N i)); try lia; try done.
    - rewrite (proj2 (Z.ltb_ge bn NDIRECT)), (proj2 (Z.eqb_neq ib 0)), fn_lookup_insert by lia. subst bn.
      rewrite load32_store32. apply u32_small. lia.
    - rewrite (proj2 (Z.eqb_neq ib 0)), fn_lookup_insert by lia. destruct (bn <? NDIRECT); [done|]. apply load32_store32_ne. lia. }
  split; cbn [img freeblock nsect freeinode]; [|rewrite Hs, Z.eqb_refl by lia; done| | |done|].
  - eapply (finv_grow_at _ _ _ _ _ _ _ _ _ fb 0); [exact Hf|done|lia|lia|lia|lia|..].
    + intros j bn Hj Hne Hbn. eapply slot_other; [exact Hf|exact Hi|done|done|done|by left|lia].
    + intros bn Hbn. rewrite Hs, (proj2 (Z.eqb_neq (N i) NDIRECT)), andb_false_r by (done || lia). done.
    + intros b off Hb. unfold V'. rewrite fn_lookup_insert_ne; [done|]. intros <-. by apply Hb.
  - rewrite (proj2 (Z.eqb_neq (N i) NDIRECT)) by lia. lia.
  - split; [lia|done].
  - intros b Hb. unfold V'. rewrite fn_lookup_insert_ne by lia. done.
Qed.

Lemma block_for_first s D N C n i : finv s.(img) D N C n s.(freeblock) -> (i < n)%nat -> N i = NDIRECT ->
  nmeta <= s.(freeblock) -> s.(freeblock) + 1 < FSSIZE -> s.(nsect) = FSSIZE ->
  exists x d' s', block_for (D i) (N i) s = KOk (x, d') s' /\ grown s.(img) D N C n s i x d' s'.
Proof.
  intros Hf Hi HN Hfb Hfb' Hns. pose proof Hf as [F1 F2 F3 F4 F5 F6 F7].
  assert (nmeta = 46) as Hnm by done. assert (FSSIZE = 2000) as HFS by done. assert (NDIRECT = 12) as HND by done.
  assert (MAXFILE = 268) as HMF by done. set (fb := freeblock s) in *.
  assert (addrs (D i) NDIRECT = 0) as Hib.
  { change (slot (img s) (D i) (-1) = 0). rewrite (F6 i Hi). lia. }
  assert (load32 (img s fb) (4 * (N i - NDIRECT)) = 0) as H0.
  { apply load_zero. intros k Hk. apply F3. lia. }
  unfold block_for. rewrite (proj2 (Z.ltb_ge _ NDIRECT)), addrs_xint, Hib by lia. change (0 =? 0) with true. cbv iota.
  unfold mbind, K_bind, take_block, mret, K_ret, rsect, wsect. cbn [freeblock img nsect freeinode]. fold fb.
  rewrite !xint_u32, addrs_store, Z.eqb_refl.
  rewrite !(u32_small fb), !(u32_small (fb + 1)), !sector_id, Hns by lia.
  rewrite (proj2 (Z.ltb_lt fb FSSIZE)), H0 by lia. change (0 =? 0) with true. cbn [freeblock img nsect freeinode].
  rewrite !xint_u32, load32_store32, !(u32_small (fb + 1)), (u32_small (fb + 1 + 1)) by lia.
  eexists _, _, _. split; [done|]. set (d' := store32 (D i) _ _). set (V' := <[fb := _]> _).
  assert (forall bn, -1 <= bn < MAXFILE -> slot V' d' bn =
    if bn =? N i then fb + 1 else if (bn =? -1) && (N i =? NDIRECT) then fb else slot (img s) (D i) bn) as Hs.
  { intros bn Hbn. unfold slot, V', d'. rewrite !addrs_store, Z.eqb_refl, !(u32_small fb), Hib, HN, Z.eqb_refl, andb_true_r by lia.
    rewrite (proj2 (Z.eqb_neq fb 0)), fn_lookup_insert by lia.
    destruct (Z.eqb_spec bn (-1)), (Z.eqb_spec bn NDIRECT) as [->|]; try lia.
    - change (NDIRECT <? NDIRECT) with false. rewrite load32_store32. apply u32_small. lia.
    - destruct (Z.ltb_spec bn NDIRECT); [done|]. rewrite load32_store32_ne by lia. change (0 =? 0) with true. cbv iota.
      apply load_zero. intros k Hk. apply F3. lia. }
  split; cbn [img freeblock nsect freeinode]; [| | | | |].
  - eapply (finv_grow_at _ _ _ _ _ _ _ _ _ (fb + 1) fb); [exact Hf|done|lia|lia|lia|lia|..].
    + intros j bn Hj Hne Hbn. eapply slot_other; [exact Hf|exact Hi|done|done|done|by right; lia|lia].
    + exact Hs.
    + intros b off Hb. unfold V'. rewrite fn_lookup_insert_ne; [done|]. intros <-. apply Hb. rewrite Hs by lia.
      rewrite HN. done.
  - rewrite Hs, Z.eqb_refl by lia. done.
  - rewrite HN, Z.eqb_refl. lia.
  - split; [lia|done].
  - intros k Hk. unfold d', store32. apply store_out. lia.
  - intros b Hb. unfold V'. rewrite fn_lookup_insert_ne by lia. done.
Qed.

Lemma block_for_grow s D N C n i : finv s.(img) D N C n s.(freeblock) -> (i < n)%nat -> N i < MAXFILE ->
  nmeta <= s.(freeblock) -> s.(freeblock) + (if N i =? NDIRECT then 1 else 0) < FSSIZE -> s.(nsect) = FSSIZE ->
  exists x d' s', block_for (D i) (N i) s = KOk (x, d') s' /\ grown s.(img) D N C n s i x d' s'.
Proof.
  intros Hf Hi HN Hfb Hfs Hns. destruct (Z.eqb_spec (N i) NDIRECT) as [E|E]; [by apply block_for_first|].
  destruct (Z.lt_ge_cases (N i) NDIRECT); [apply block_for_direct; (done || lia)|apply block_for_more; (done || lia)].
Qed.

Lemma block_for_present s D N C n i bn : finv s.(img) D N C n s.(freeblock) -> (i < n)%nat -> 0 <= bn < N i ->
  s.(freeblock) <= FSSIZE -> s.(nsect) = FSSIZE -> block_for (D i) bn s = KOk (slot s.(img) (D i) bn, D i) s.
Proof.
  intros Hf Hi Hbn Hfb Hns. pose proof Hf as [F1 F2 F3 F4 F5 F6 F7]. destruct (F4 i Hi) as [HN0 _].
  assert (nmeta = 46) as Hnm by done. assert (FSSIZE = 2000) as HFS by done. assert (NDIRECT = 12) as HND by done. assert (MAXFILE = 268) as HMF by done.
  assert (slot (img s) (D i) bn <> 0) as H0 by (rewrite (F5 i bn) by (done || lia); lia).
  unfold block_for. unfold slot in H0 |- *. rewrite (proj2 (Z.eqb_neq bn (-1))) in H0 |- * by lia. destruct (Z.ltb_spec bn NDIRECT) as [Hd|Hd].
  - rewrite addrs_xint, (proj2 (Z.eqb_neq _ 0)) by done. unfold mbind, K_bind, mret, K_ret. by rewrite addrs_xint.
  - assert (addrs (D i) NDIRECT <> 0) as Hib.
    { change (addrs (D i) NDIRECT) with (slot (img s) (D i) (-1)). rewrite (F6 i Hi). lia. }
    rewrite (proj2 (Z.eqb_neq (addrs (D i) NDIRECT) 0)) in H0 |- * by done.
    pose proof (F1 i (-1) Hi ltac:(lia) Hib) as Hr. change (slot (img s) (D i) (-1)) with (addrs (D i) NDIRECT) in Hr.
    rewrite addrs_xint, (proj2 (Z.eqb_neq _ 0)) by done. unfold mbind, K_bind, mret, K_ret, rsect.
    rewrite addrs_xint, sector_id, (proj2 (Z.ltb_lt (addrs (D i) NDIRECT) (nsect s))) by lia. rewrite (proj2 (Z.eqb_neq (load32 _ _) 0)) by done.
    rewrite xint_u32. by rewrite load32_u32.
Qed.

(** ** Appending to a file *)

Lemma finv_ext V D N C n fb D' N' C' : (forall j, D j = D' j) -> (forall j, N j = N' j) -> (forall j, C j = C' j) ->
  finv V D N C n fb -> finv V D' N' C' n fb.
Proof.
  intros HD HN HC [F1 F2 F3 F4 F5 F6 F7]. split; try done.
  - intros i bn. rewrite <- HD. apply F1.
  - intros i j bn bn'. rewrite <- !HD. apply F2.
  - intros i. rewrite <- HN, <- HC. apply F4.
  - intros i bn. rewrite <- HD, <- HN. apply F5.
  - intros i. rewrite <- HD, <- HN. apply F6.
  - intros i k. rewrite <- HD, <- HN, <- HC. apply F7.
Qed.

(** A data block of a file is not an indirect block: writing it changes no use. *)
Lemma slot_data V D N C n fb i j bn bn' buf : finv V D N C n fb -> (i < n)%nat -> (j < n)%nat -> 0 <= bn < MAXFILE -> 
  slot V (D i) bn <> 0 -> slot (<[slot V (D i) bn := buf]> V) (D j) bn' = slot V (D j) bn'.
Proof.
  intros [F1 F2 _ _ _ _ _] Hi Hj Hbn H0. set (x := slot V (D i) bn) in *. unfold slot.
  destruct (bn' =? -1); [done|]. destruct (bn' <? NDIRECT); [done|]. destruct (addrs (D j) NDIRECT =? 0); [done|].
  rewrite fn_lookup_insert_ne; [done|]. intros E. 
  destruct (F2 i j bn (-1) Hi Hj ltac:(lia) ltac:(done) H0 E). lia.
Qed.

Lemma finv_write V D N C n fb i p q (off := Z.of_nat (length (C i))) (m := Z.of_nat (length p)) (x := slot V (D i) (off / BSIZE)) :
  finv V D N C n fb -> (i < n)%nat -> off / BSIZE < N i -> off mod BSIZE + m <= BSIZE ->
  finv (<[x := memmove_across (V x) (off mod BSIZE) (bytes_of (p ++ q)) 0 m]> V) D N (<[i := C i ++ p]> C) n fb.
Proof.
  intros Hf Hi Hbn Hm. pose proof Hf as [F1 F2 F3 F4 F5 F6 F7]. destruct (F4 i Hi) as [HN HC].
  assert (nmeta = 46) as Hnm by done. assert (0 <= off / BSIZE) as H0 by (apply Z.div_pos; [lia|done]).
  assert (x <> 0) as Hx by (unfold x; rewrite (F5 i) by (done || lia); lia).
  pose proof (F1 i (off / BSIZE) Hi ltac:(lia) Hx) as Hr. fold x in Hr.
  pose proof (Z.div_mod off BSIZE ltac:(done)) as Hdm. pose proof (Z.mod_pos_bound off BSIZE ltac:(done)) as Hmb.
  set (V' := <[x := _]> V). assert (forall j bn', (j < n)%nat -> slot V' (D j) bn' = slot V (D j) bn') as Hs.
  { intros j bn' Hj. eapply slot_data; [exact Hf|exact Hi|done|lia|done]. }
  split.
  - intros j bn Hj Hb. rewrite Hs by done. by apply F1.
  - intros j j' bn bn' Hj Hj' Hb Hb'. rewrite !Hs by done. by apply F2.
  - intros b k Hb. unfold V'. rewrite fn_insert_case. case_decide as E; [|by apply F3].
    exfalso. subst b. lia.
  - intros j Hj. rewrite fn_insert_case. case_decide as E; [|by apply F4]. subst j. split; [done|].
    rewrite length_app. fold off in HC. unfold off, m in *. change BSIZE with 1024 in *. nia.
  - intros j bn Hj Hb. rewrite Hs by done. by apply F5.
  - intros j Hj. rewrite Hs by done. by apply F6.
  - intros j k Hj Hk. rewrite Hs by done. unfold V'. rewrite (fn_insert_case V). case_decide as E.
    + destruct (F4 j Hj) as [HNj _]. assert (0 <= k / BSIZE < N j) as Hkb.
      { split; [apply Z.div_pos; [lia|done]|]. apply Z.div_lt_upper_bound; [done|]. lia. }
      destruct (F2 i j (off / BSIZE) (k / BSIZE) Hi Hj ltac:(lia) ltac:(lia) Hx E) as [<- Ek].
      pose proof (Z.div_mod k BSIZE ltac:(done)) as Hdk. pose proof (Z.mod_pos_bound k BSIZE ltac:(done)).
      rewrite fn_lookup_insert, memmove_across_spec by lia. destruct (_ && _) eqn:Ein.
      * replace (0 + (k mod BSIZE - off mod BSIZE)) with (k - off) by lia. rewrite bytes_of_app by lia.
        rewrite (bytes_of_app (C i)) by lia. fold off m. destruct (Z.ltb_spec k off), (Z.ltb_spec (k - off) m); lia.
      * unfold x. rewrite Ek, F7 by (done || lia). rewrite (bytes_of_app (C i)) by lia. fold off.
        destruct (Z.ltb_spec k off); [done|]. rewrite !bytes_of_beyond by (unfold off, m in *; lia). done.
    + rewrite F7 by done. rewrite fn_insert_case. case_decide as Eij; [subst j|done].
      rewrite bytes_of_app by lia. fold off. destruct (Z.ltb_spec k off); [done|].
      assert (k / BSIZE <> off / BSIZE) as Hne by (intros Ek; apply E; unfold x; by rewrite Ek).
      pose proof (Z.div_mod k BSIZE ltac:(done)) as Hdk. pose proof (Z.mod_pos_bound k BSIZE ltac:(done)).
      rewrite !bytes_of_beyond; [done|..]; unfold off, m in *; change BSIZE with 1024 in *; nia.
Qed.

(** The numbers of data blocks, and of all blocks, of a file of [len] bytes. *)
Definition nb (len : Z) : Z := (len + BSIZE - 1) / BSIZE.
Definition blocks (len : Z) : Z := nb len + (if NDIRECT <? nb len then 1 else 0).

Lemma nb_spec len k : 0 <= len -> nb len = k <-> (k - 1) * BSIZE < len <= k * BSIZE.
Proof.
  intros Hl. unfold nb. change BSIZE with 1024. pose proof (Z.div_mod (len + 1024 - 1) 1024 ltac:(lia)).
  pose proof (Z.mod_pos_bound (len + 1024 - 1) 1024 ltac:(lia)). split; [intros <-; lia|]. intros. lia.
Qed.

Lemma blocks_mono a b : 0 <= a <= b -> blocks a <= blocks b.
Proof.
  intros H. unfold blocks. assert (nb a <= nb b) as Hn by (unfold nb; apply Z.div_le_mono; [done|lia]).
  destruct (Z.ltb_spec NDIRECT (nb a)), (Z.ltb_spec NDIRECT (nb b)); lia.
Qed.

(** What an append has done to the state. *)
Record appended (s : mkstate) (D : nat -> bytes) (N : nat -> Z) (C : nat -> list Z) (n i : nat) (p : list Z)
    (d' : bytes) (s' : mkstate) : Prop := {
  ap_inv : finv s'.(img) (<[i := d']> D) (<[i := nb (Z.of_nat (length (C i ++ p)))]> N) (<[i := C i ++ p]> C) n s'.(freeblock);
  ap_next : s'.(freeblock) = s.(freeblock) + blocks (Z.of_nat (length (C i ++ p))) - blocks (Z.of_nat (length (C i)));
  ap_sects : s'.(nsect) = FSSIZE /\ s'.(freeinode) = s.(freeinode);
  ap_head : forall k, k < 12 -> d' k = D i k;
  ap_meta : forall b, b < nmeta -> s'.(img) b = s.(img) b;
}.

(** One round: up to the end of a block. *)
Lemma append_block s D N C n i p q (off := Z.of_nat (length (C i))) :
  finv s.(img) D N C n s.(freeblock) -> (i < n)%nat -> N i = nb off -> nmeta <= s.(freeblock) -> s.(nsect) = FSSIZE ->
  (1 <= length p)%nat -> off mod BSIZE + Z.of_nat (length p) <= BSIZE -> off / BSIZE < MAXFILE ->
  s.(freeblock) + blocks (Z.of_nat (length (C i ++ p))) - blocks off <= FSSIZE ->
  exists x d' s1 s2, block_for (D i) (off / BSIZE) s = KOk (x, d') s1 /\ rsect x s1 = KOk (s1.(img) x) s1 /\
    wsect x (memmove_across (s1.(img) x) (off mod BSIZE) (bytes_of (p ++ q)) 0 (Z.of_nat (length p))) s1 = KOk tt s2 /\
    appended s D N C n i p d' s2.
Proof.
  intros Hf Hi HN Hfb Hns Hp Hfit Hmax Hroom. pose proof (Z.div_mod off BSIZE ltac:(done)) as Hdm.
  pose proof (Z.mod_pos_bound off BSIZE ltac:(done)) as Hmb. assert (0 <= off) as Hoff by (unfold off; lia).
  assert (nb (Z.of_nat (length (C i ++ p))) = off / BSIZE + 1) as Hnb.
  { apply nb_spec; [lia|]. rewrite length_app. unfold off in *. change BSIZE with 1024 in *. lia. }
  assert (exists x d' s1, block_for (D i) (off / BSIZE) s = KOk (x, d') s1 /\ x = slot s1.(img) d' (off / BSIZE) /\
    finv s1.(img) (<[i := d']> D) (<[i := off / BSIZE + 1]> N) C n s1.(freeblock) /\
    s1.(freeblock) = s.(freeblock) + blocks (Z.of_nat (length (C i ++ p))) - blocks off /\
    s1.(nsect) = FSSIZE /\ s1.(freeinode) = s.(freeinode) /\ (forall k, k < 12 -> d' k = D i k) /\
    (forall b, b < nmeta -> s1.(img) b = s.(img) b)) as (x & d' & s1 & E & Ex & Hf1 & Hfb1 & Hn1 & Hi1 & Hh & Hm).
  { unfold blocks in *. rewrite Hnb in *. destruct (decide (off mod BSIZE = 0)) as [H0|H0].
    - assert (N i = off / BSIZE) as Hq by (rewrite HN; apply nb_spec; [done|]; change BSIZE with 1024 in *; lia).
      rewrite <- HN, Hq in *. destruct (block_for_grow s D N C n i Hf Hi) as (x & d' & s1 & E & [G1 G2 G3 G4 G5 G6]); [lia|done| |done|].
      { rewrite Hq. destruct (Z.eqb_spec (off / BSIZE) NDIRECT) as [E|], (Z.ltb_spec NDIRECT (off / BSIZE + 1)), (Z.ltb_spec NDIRECT (off / BSIZE)); lia. }
      exists x, d', s1. rewrite Hq in *. split; [done|]. split; [done|]. split; [done|]. split; [|tauto]. rewrite G3.
      destruct (Z.eqb_spec (off / BSIZE) NDIRECT), (Z.ltb_spec NDIRECT (off / BSIZE + 1)), (Z.ltb_spec NDIRECT (off / BSIZE)); lia.
    - assert (nb off = off / BSIZE + 1) as Hq by (apply nb_spec; [done|]; change BSIZE with 1024 in *; lia). rewrite Hq in *.
      exists (slot (img s) (D i) (off / BSIZE)), (D i), s. split.
      { apply (block_for_present s D N C n i); [done|done| |lia|done]. change BSIZE with 1024 in *. lia. }
      split; [done|]. split; [|split; [lia|done]].
      eapply finv_ext; [| |done|exact Hf]; intros j; rewrite fn_insert_case; case_decide; congruence. }
  pose proof Hf1 as [F1 _ _ _ F5 _ _]. specialize (F1 i (off / BSIZE) Hi). specialize (F5 i (off / BSIZE) Hi).
  rewrite fn_lookup_insert, <- Ex in F1. rewrite (fn_lookup_insert D), (fn_lookup_insert N), <- Ex in F5. assert (0 <= off / BSIZE) as Hd0 by (apply Z.div_pos; [lia|done]).
  assert (nmeta <= x < freeblock s1) as Hx. { apply F1; [lia|]. rewrite F5 by lia. lia. }
  assert (nmeta = 46) as Hnm by done. assert (FSSIZE = 2000) as HFS by done.
  exists x, d', s1. eexists. split; [done|]. unfold rsect, wsect. rewrite sector_id, Hn1, (proj2 (Z.ltb_lt x FSSIZE)) by lia.
  split; [done|]. split; [done|]. split; cbn [img nsect freeinode freeblock]; [|done|split; [lia|done]|done|].
  - rewrite Hnb. pose proof (finv_write _ _ _ _ _ _ i p q Hf1 Hi) as Hw. cbn zeta in Hw. fold off in Hw.
    rewrite (fn_lookup_insert D), (fn_lookup_insert N), <- Ex in Hw. apply Hw; lia.
  - intros b Hb. rewrite fn_lookup_insert_ne by lia. by apply Hm.
Qed.

Lemma appended_trans s D N C n i p q d1 d2 s1 s2 :
  appended s D N C n i p d1 s1 ->
  appended s1 (<[i := d1]> D) (<[i := nb (Z.of_nat (length (C i ++ p)))]> N) (<[i := C i ++ p]> C) n i q d2 s2 ->
  appended s D N C n i (p ++ q) d2 s2.
Proof.
  intros [A1 A2 [A3 A3'] A4 A5] [B1 B2 [B3 B3'] B4 B5]. rewrite !(fn_lookup_insert C) in *. rewrite (fn_lookup_insert D) in B4.
  split; rewrite ?app_assoc; [|lia|split; congruence| |].
  - eapply finv_ext; [..|exact B1]; intros j; rewrite !fn_insert_case; by repeat case_decide.
  - intros k Hk. rewrite B4, A4 by done. done.
  - intros b Hb. rewrite B5, A5 by done. done.
Qed.

Lemma appended_nil s D N C n i : finv s.(img) D N C n s.(freeblock) -> N i = nb (Z.of_nat (length (C i))) -> s.(nsect) = FSSIZE ->
  appended s D N C n i [] (D i) s.
Proof.
  intros Hf HN Hns. split; rewrite ?app_nil_r; try done; [|lia]. eapply finv_ext; [..|exact Hf]; intros j; rewrite !fn_insert_case; case_decide; congruence.
Qed.

Lemma iappend_loop_ok fuel s D N C n i p (off := Z.of_nat (length (C i))) :
  finv s.(img) D N C n s.(freeblock) -> (i < n)%nat -> N i = nb off -> nmeta <= s.(freeblock) -> s.(nsect) = FSSIZE ->
  (length p <= fuel)%nat -> off + Z.of_nat (length p) <= MAXFILE * BSIZE ->
  s.(freeblock) + blocks (Z.of_nat (length (C i ++ p))) - blocks off <= FSSIZE ->
  exists d' s', iappend_loop fuel (D i) off p s = KOk (d', off + Z.of_nat (length p)) s' /\ appended s D N C n i p d' s'.
Proof.
  revert s D N C p off. induction fuel as [|fuel IH]; intros s D N C p off Hf Hi HN Hfb Hns Hfuel Hmax Hroom.
  { destruct p; [|cbn in Hfuel; lia]. exists (D i), s. split; [cbn; by rewrite Z.add_0_r|by apply appended_nil]. }
  destruct p as [|c p']; [exists (D i), s; split; [cbn; by rewrite Z.add_0_r|by apply appended_nil]|].
  remember (c :: p') as p eqn:Ep. assert (1 <= length p)%nat as Hp by (subst; cbn; lia).
  pose proof (Z.div_mod off BSIZE ltac:(done)) as Hdm. pose proof (Z.mod_pos_bound off BSIZE ltac:(done)) as Hmb.
  assert (0 <= off / BSIZE < MAXFILE) as Hbn.
  { split; [apply Z.div_pos; [unfold off; lia|done]|]. apply Z.div_lt_upper_bound; [done|]. lia. }
  set (n1 := Z.min (Z.of_nat (length p)) (BSIZE - off mod BSIZE)). set (m := Z.to_nat n1).
  assert (length (take m p) = m /\ (1 <= m <= length p)%nat /\ Z.of_nat m = n1) as (Hlt & Hm & Hmz) by (rewrite length_take; unfold m, n1; lia).
  assert (Z.of_nat (length (C i ++ take m p)) <= Z.of_nat (length (C i ++ p))) as Hle by (rewrite !length_app; lia).
  pose proof (blocks_mono _ _ (conj (Nat2Z.is_nonneg _) Hle)) as Hbm.
  destruct (append_block s D N C n i (take m p) (drop m p)) as (x & d1 & s1 & s2 & E1 & E2 & E3 & A); try done.
  1-3: fold off; lia. { fold off. lia. }
  cbn [iappend_loop]. rewrite Ep. rewrite <- Ep. fold off in E1, E3. unfold mbind, K_bind, assert_.
  rewrite (proj2 (Z.ltb_lt _ MAXFILE)) by lia. rewrite E1. rewrite E2.
  replace (Z.min _ _) with (Z.of_nat (length (take m p))); last first.
  { rewrite Hlt, Hmz, u32_small; unfold n1; change BSIZE with 1024 in *; lia. }
  replace (off - off / BSIZE * BSIZE) with (off mod BSIZE) by lia. rewrite take_drop in E3. rewrite E3.
  rewrite Hlt, Nat2Z.id. pose proof A as [A1 A2 [A3 A3'] A4 A5].
  destruct (IH s2 (<[i := d1]> D) (<[i := nb (Z.of_nat (length (C i ++ take m p)))]> N) (<[i := C i ++ take m p]> C) (drop m p))
    as (d2 & s3 & E4 & B); try done; rewrite ?(fn_lookup_insert C), ?(fn_lookup_insert N).
  - done.
  - pose proof (blocks_mono off (Z.of_nat (length (C i ++ take m p)))) as Hbo. rewrite length_app in Hbo. unfold off in *. rewrite A2.
    rewrite length_app. lia.
  - rewrite length_drop. lia.
  - rewrite length_app, length_drop, Hlt. unfold off in *. lia.
  - rewrite <- app_assoc, take_drop, A2. unfold off in *. lia.
  - rewrite (fn_lookup_insert C), (fn_lookup_insert D) in E4. exists d2, s3. 
    replace (u32 (off + Z.of_nat m)) with (Z.of_nat (length (C i ++ take m p))); last first.
    { rewrite length_app, Hlt. unfold off in *. assert (MAXFILE * BSIZE = 274432) as HMB by done. rewrite u32_small; lia. }
    rewrite E4. split.
    + f_equal. f_equal. rewrite length_app, length_drop, Hlt. unfold off. lia.
    + rewrite <- (take_drop m p). by eapply appended_trans.
Qed.

(** ** The image with its inodes *)

(** The inode of file [i], which has the number [i + 1]. *)
Definition rino (V : Z -> bytes) (i : nat) : bytes :=
  let inum := Z.of_nat i + 1 in
  memmove_across (fun _ => 0) 0 (V (IBLOCK inum mk_sb)) (inum mod IPB * sizeof_dinode) sizeof_dinode.

Definition contents (F : list (Z * list Z)) (i : nat) : list Z := default [] (snd <$> F !! i).
Definition size (F : list (Z * list Z)) (i : nat) : Z := Z.of_nat (length (contents F i)).

(** The number of blocks of all files. *)
Fixpoint total (F : list (Z * list Z)) : Z :=
  match F with [] => 0 | f :: F => blocks (Z.of_nat (length f.2)) + total F end.

(** The image holds the files [F], a type and the contents for each inode from 1 on, in
    the blocks up to [freeblock]. *)
Record holds (s : mkstate) (F : list (Z * list Z)) : Prop := {
  ho_inv : finv s.(img) (rino s.(img)) (fun i => nb (size F i)) (contents F) (length F) s.(freeblock);
  ho_free : s.(freeblock) = nmeta + total F;
  ho_sects : s.(nsect) = FSSIZE;
  ho_next : s.(freeinode) = Z.of_nat (length F) + 1;
  ho_number : Z.of_nat (length F) < NINODES;
  ho_inode : forall i f, F !! i = Some f -> let d := rino s.(img) i in
    di_type d 0 = f.1 /\ di_nlink d 0 = 1 /\ di_major d 0 = 0 /\ di_minor d 0 = 0 /\ di_size d 0 = Z.of_nat (length f.2);
  ho_unused : forall i k, (length F <= i)%nat -> Z.of_nat i < NINODES -> rino s.(img) i k = 0;
}.

Lemma iblock_spec i : 0 <= i < 208 -> IBLOCK i mk_sb = i / 16 + 32 /\ 32 <= i / 16 + 32 < 45.
Proof.
  intros Hi. assert (0 <= i / 16 < 13) as Hd by (split; [apply Z.div_pos; lia|apply Z.div_lt_upper_bound; lia]).
  unfold IBLOCK. change IPB with 16. change (sb_inodestart mk_sb) with 32. rewrite u32_small by lia. lia.
Qed.

Lemma rino_byte V i k : rino V i k =
  if (0 <=? k) && (k <? 64) then V (IBLOCK (Z.of_nat i + 1) mk_sb) (ioff (Z.of_nat i + 1) + k) else 0.
Proof.
  unfold rino, ioff. rewrite memmove_across_spec by done. change sizeof_dinode with 64. rewrite Z.add_0_l.
  destruct (_ && _); [|done]. f_equal. lia.
Qed.

Lemma rinode_rino s i : s.(nsect) = FSSIZE -> Z.of_nat i < NINODES -> rinode (Z.of_nat i + 1) s = KOk (rino s.(img) i) s.
Proof.
  intros Hs Hi. assert (NINODES = 200) as HNI by done. assert (FSSIZE = 2000) as HFS by done.
  destruct (iblock_spec (Z.of_nat i + 1)) as [E1 E2]; [lia|]. unfold rinode, mbind, K_bind, rsect, mret, K_ret.
  rewrite sector_id, (proj2 (Z.ltb_lt (IBLOCK (Z.of_nat i + 1) mk_sb) (nsect s))) by lia. done.
Qed.

(** [winode] stores 64 bytes and leaves the other inodes and all other blocks alone. *)
Lemma winode_rino s i d : s.(nsect) = FSSIZE -> Z.of_nat i < NINODES ->
  exists V', winode (Z.of_nat i + 1) d s = KOk tt (Mkstate V' FSSIZE s.(freeinode) s.(freeblock)) /\
    (forall k, 0 <= k < 64 -> rino V' i k = d k) /\
    (forall j, j <> i -> Z.of_nat j < NINODES -> forall k, rino V' j k = rino s.(img) j k) /\
    (forall b, ~ (32 <= b < 45) -> V' b = s.(img) b).
Proof.
  intros Hs Hi. assert (NINODES = 200) as HNI by done. assert (FSSIZE = 2000) as HFS by done.
  destruct (iblock_spec (Z.of_nat i + 1)) as [E1 E2]; [lia|]. unfold winode, mbind, K_bind, rsect, wsect.
  rewrite sector_id, (proj2 (Z.ltb_lt (IBLOCK (Z.of_nat i + 1) mk_sb) (nsect s))) by lia.
  eexists. split; [f_equal; f_equal; lia|]. fold (ioff (Z.of_nat i + 1)). split; [|split].
  - intros k Hk. rewrite rino_byte, (proj2 (Z.leb_le 0 k)), (proj2 (Z.ltb_lt k 64)) by lia. cbn [andb].
    rewrite fn_lookup_insert, memmove_across_spec by done. change sizeof_dinode with 64. destruct (_ && _) eqn:E; [f_equal; lia|lia].
  - intros j Hj Hjn k. rewrite !rino_byte. destruct (_ && _) eqn:E; [|done]. rewrite fn_insert_case. case_decide as Eb; [|done].
    rewrite memmove_across_spec by done. rewrite <- Eb.
    destruct (inode_apart mk_sb (Z.of_nat i + 1) (Z.of_nat j + 1)) as [H|H]; [lia|lia|done|lia|done|..];
      change sizeof_dinode with 64 in *; destruct (_ && (ioff _ + k <? _)) eqn:E'; try done; lia.
  - intros b Hb. rewrite fn_lookup_insert_ne; [done|]. lia.
Qed.

(** The invariant depends on the addresses in the inodes and on the blocks after the
    metadata only. *)
Lemma finv_same V D N C n fb V' D' N' C' :
  finv V D N C n fb -> nmeta <= fb -> (forall b, nmeta <= b -> V' b = V b) ->
  (forall j k, (j < n)%nat -> 0 <= k <= NDIRECT -> addrs (D' j) k = addrs (D j) k) ->
  (forall j, (j < n)%nat -> N' j = N j) -> (forall j, (j < n)%nat -> C' j = C j) -> finv V' D' N' C' n fb.
Proof.
  intros Hf Hfb HV HD HN HC. pose proof Hf as [F1 F2 F3 F4 F5 F6 F7].
  assert (NDIRECT = 12) as HND by done. assert (MAXFILE = 268) as HMF by done.
  assert (forall j bn, (j < n)%nat -> -1 <= bn < MAXFILE -> slot V' (D' j) bn = slot V (D j) bn) as Hs.
  { intros j bn Hj Hbn. pose proof (F1 j (-1) Hj ltac:(lia)) as Hr. unfold slot in *. rewrite (HD j NDIRECT) by (done || lia).
    destruct (Z.eqb_spec bn (-1)); [done|]. destruct (Z.ltb_spec bn NDIRECT); [apply HD; (done || lia)|].
    destruct (Z.eqb_spec (addrs (D j) NDIRECT) 0) as [|H0]; [done|]. rewrite HV; [done|]. by apply Hr. }
  split.
  - intros i bn Hi Hb. rewrite Hs by done. by apply F1.
  - intros i j bn bn' Hi Hj Hb Hb'. rewrite !Hs by done. by apply F2.
  - intros b off Hb. rewrite HV by lia. by apply F3.
  - intros i Hi. rewrite HN, HC by done. by apply F4.
  - intros i bn Hi Hb. rewrite Hs, HN by (done || lia). by apply F5.
  - intros i Hi. rewrite Hs, HN by (done || lia). by apply F6.
  - intros i k Hi. rewrite HC, HN by done. intros Hk. destruct (F4 i Hi) as [HN1 HN2].
    assert (0 <= k / BSIZE < N i) as Hbn.
    { split; [apply Z.div_pos; [lia|done]|]. apply Z.div_lt_upper_bound; [done|]. lia. }
    rewrite Hs by (done || lia). rewrite HV; [by apply F7|]. apply F1; [done|lia|]. rewrite F5 by (done || lia). lia.
Qed.

Lemma total_app F G : total (F ++ G) = total F + total G.
Proof. induction F as [|f F IH]; cbn; [done|]. rewrite IH. lia. Qed.

Lemma total_nonneg F : 0 <= total F.
Proof.
  induction F as [|f F IH]; cbn; [lia|]. assert (0 <= blocks (Z.of_nat (length f.2))); [|lia].
  pose proof (blocks_mono 0 (Z.of_nat (length f.2)) ltac:(lia)) as H. change (blocks 0) with 0 in H. lia.
Qed.

Lemma total_insert F i f g : F !! i = Some f ->
  total (<[i := g]> F) = total F - blocks (Z.of_nat (length f.2)) + blocks (Z.of_nat (length g.2)).
Proof.
  intros Hi. assert (total F = total (take i F) + total (f :: drop (S i) F)) as E.
  { by rewrite <- total_app, take_drop_middle. }
  rewrite insert_take_drop by (by eapply lookup_lt_Some). rewrite total_app. cbn in *. lia.
Qed.

Lemma dinode_ext d d' : (forall k, 0 <= k < 12 -> d k = d' k) ->
  di_type d 0 = di_type d' 0 /\ di_nlink d 0 = di_nlink d' 0 /\ di_major d 0 = di_major d' 0 /\ di_minor d 0 = di_minor d' 0 /\
  di_size d 0 = di_size d' 0.
Proof.
  intros H. unfold di_type, di_nlink, di_major, di_minor, di_size, load16, load32.
  repeat split; rewrite (load_ext _ d d'); try done; intros; apply H; lia.
Qed.

Lemma addrs_ext d d' k : 0 <= k <= NDIRECT -> (forall j, 12 <= j < 64 -> d j = d' j) -> addrs d k = addrs d' k.
Proof. change NDIRECT with 12. intros Hk H. apply load_ext. intros j Hj. apply H. cbn in Hj. lia. Qed.

(** [iappend] to file [i] appends to its contents. *)
Lemma iappend_holds s F i ty c p : holds s F -> F !! i = Some (ty, c) ->
  Z.of_nat (length (c ++ p)) <= MAXFILE * BSIZE -> nmeta + total (<[i := (ty, c ++ p)]> F) <= FSSIZE ->
  exists s', iappend (Z.of_nat i + 1) p s = KOk tt s' /\ holds s' (<[i := (ty, c ++ p)]> F) /\
    forall b, b < 32 -> s'.(img) b = s.(img) b.
Proof.
  intros [H1 H2 H3 H4 H5 H6 H7] Hi Hmax Hroom. pose proof (lookup_lt_Some _ _ _ Hi) as Hlt.
  assert (contents F i = c) as Hc by (unfold contents; by rewrite Hi). assert (nmeta = 46) as Hnm by done.
  assert (Z.of_nat i < NINODES) as Hin by lia. pose proof (total_nonneg F) as Ht.
  destruct (H6 i _ Hi) as (T1 & T2 & T3 & T4 & T5). cbn in T5.
  rewrite (total_insert F i (ty, c)) in Hroom by done. cbn in Hroom. rewrite length_app in Hmax, Hroom.
  unfold iappend, mbind, K_bind. rewrite rinode_rino, T5, xint_u32, u32_small by (done || (change (MAXFILE * BSIZE) with 274432 in *; lia)).
  destruct (iappend_loop_ok (length p) s (rino (img s)) (fun i => nb (size F i)) (contents F) (length F) i p)
    as (d' & s1 & E & [A1 A2 [A3 A3'] A4 A5]); rewrite ?Hc in *; try done; try lia.
  { by unfold size; rewrite Hc. } { rewrite length_app. lia. }
  rewrite E. destruct (winode_rino s1 i (store32 d' 8 (xint (Z.of_nat (length c) + Z.of_nat (length p)))) A3 Hin) as (V' & Ew & W1 & W2 & W3).
  rewrite Ew. eexists. split; [done|]. split; [|intros b Hb; cbn; rewrite W3, A5 by lia; done].
  assert (forall k, k < 8 \/ 12 <= k -> store32 d' 8 (xint (Z.of_nat (length c) + Z.of_nat (length p))) k = d' k) as Hst.
  { intros k Hk. apply store_out. cbn. lia. }
  assert (forall j k, j <> i -> Z.of_nat j < NINODES -> rino V' j k = rino (img s) j k) as Hoth.
  { intros j k Hj Hjn. rewrite W2 by done. rewrite !rino_byte. destruct (_ && _); [|done].
    destruct (iblock_spec (Z.of_nat j + 1)); [change NINODES with 200 in *; lia|]. rewrite A5 by lia. done. }
  assert (forall j, contents (<[i := (ty, c ++ p)]> F) j = <[i := c ++ p]> (contents F) j) as Hcon.
  { intros j. unfold contents. rewrite fn_insert_case. case_decide as Ej; [subst; by rewrite list_lookup_insert_eq|by rewrite list_lookup_insert_ne]. }
  split; cbn [img nsect freeinode freeblock]; rewrite ?length_insert; [| |reflexivity|congruence|exact H5| |].
  - eapply finv_same; [exact A1|rewrite A2, length_app, H2; pose proof (blocks_mono (Z.of_nat (length c)) (Z.of_nat (length c + length p))); lia|..].
    + intros b Hb. apply W3. lia.
    + intros j k Hj Hk. rewrite fn_insert_case. case_decide as Ej.
      * subst j. apply addrs_ext; [done|]. intros m Hm. rewrite W1 by lia. apply Hst. lia.
      * apply addrs_ext; [done|]. intros m Hm. apply Hoth; [done|lia].
    + intros j Hj. unfold size. rewrite Hcon, !fn_insert_case. by case_decide.
    + intros j Hj. apply Hcon.
  - rewrite A2, (total_insert F i (ty, c)), H2 by done. cbn. lia.
  - intros j f Hf. apply list_lookup_insert_Some in Hf as [(<- & <- & _)|(Hj & Hf)].
    + destruct (dinode_ext (rino V' i) (store32 d' 8 (xint (Z.of_nat (length c) + Z.of_nat (length p))))) as (G1 & G2 & G3 & G4 & G5);
        [intros k Hk; apply W1; lia|]. rewrite G1, G2, G3, G4, G5. cbn [fst snd].
      unfold di_type, di_nlink, di_major, di_minor, di_size in *.
      assert (forall m, m + 2 <= 8 -> load16 (store32 d' 8 (xint (Z.of_nat (length c) + Z.of_nat (length p)))) m = load16 (rino (img s) i) m) as Hl.
      { intros m Hm. apply load_ext. intros k Hk. cbn in Hk. rewrite Hst by lia. apply A4. lia. }
      rewrite !Hl, T1, T2, T3, T4 by lia. repeat split. rewrite (load32_store32 d' 8), xint_u32, length_app.
      change (MAXFILE * BSIZE) with 274432 in *. rewrite !u32_small; rewrite ?u32_small; lia.
    + assert (j <> i) as Hne by done. destruct (dinode_ext (rino V' j) (rino (img s) j)) as (-> & -> & -> & -> & ->); [|by apply H6].
      intros k Hk. apply Hoth; [done|]. apply lookup_lt_Some in Hf. lia.
  - intros j k Hj Hjn. rewrite Hoth by (done || lia). by apply H7.
Qed.

(** ** New inodes *)

Lemma finv_new V D N C n fb : finv V D N C n fb -> (forall k, 0 <= k <= NDIRECT -> addrs (D n) k = 0) -> N n = 0 -> C n = [] ->
  finv V D N C (S n) fb.
Proof.
  intros [F1 F2 F3 F4 F5 F6 F7] HD HN HC. assert (NDIRECT = 12) as HND by done.
  assert (forall bn, -1 <= bn < MAXFILE -> slot V (D n) bn = 0) as Hs.
  { intros bn Hbn. unfold slot. rewrite (HD NDIRECT) by lia. destruct (Z.eqb_spec bn (-1)); [done|].
    destruct (Z.ltb_spec bn NDIRECT); [apply HD; lia|done]. }
  assert (forall i, (i < S n)%nat -> i = n \/ (i < n)%nat) as Hcase by lia.
  split.
  - intros i bn Hi Hb. destruct (Hcase i Hi) as [->|]; [by rewrite Hs|by apply F1].
  - intros i j bn bn' Hi Hj Hb Hb' H0 E. destruct (Hcase i Hi) as [->|Hi'], (Hcase j Hj) as [->|Hj'].
    + by rewrite Hs in H0.
    + by rewrite Hs in H0.
    + rewrite (Hs bn') in E by done. by rewrite E in H0.
    + by apply F2.
  - done.
  - intros i Hi. destruct (Hcase i Hi) as [->|]; [|by apply F4]. rewrite HN, HC. done.
  - intros i bn Hi Hb. destruct (Hcase i Hi) as [->|]; [|by apply F5]. rewrite Hs, HN by lia. lia.
  - intros i Hi. destruct (Hcase i Hi) as [->|]; [|by apply F6]. rewrite Hs, HN by done. done.
  - intros i k Hi Hk. destruct (Hcase i Hi) as [->|]; [rewrite HN in Hk; lia|by apply F7].
Qed.

Lemma contents_app F G i : (i < length F)%nat -> contents (F ++ G) i = contents F i.
Proof. intros Hi. unfold contents. by rewrite lookup_app_l. Qed.

Lemma ialloc_holds s F ty : holds s F -> 0 <= ty < 2 ^ 15 -> Z.of_nat (S (length F)) < NINODES ->
  exists s', ialloc ty s = KOk (Z.of_nat (length F) + 1) s' /\ holds s' (F ++ [(ty, [])]) /\
    forall b, b < 32 -> s'.(img) b = s.(img) b.
Proof.
  intros [H1 H2 H3 H4 H5 H6 H7] Hty Hn. assert (NINODES = 200) as HNI by done. assert (nmeta = 46) as Hnm by done.
  unfold ialloc. rewrite H4. rewrite !xshort_u16, xint_u32, (u32_small 0), (u32_small (Z.of_nat (length F) + 1 + 1)) by lia.
  set (din := store32 _ 8 0). set (s0 := Mkstate _ _ _ _).
  destruct (winode_rino s0 (length F) din H3 ltac:(lia)) as (V' & Ew & W1 & W2 & W3).
  unfold mbind, K_bind, mret, K_ret. rewrite Ew. eexists. split; [done|]. split; [|intros b Hb; cbn; rewrite W3 by lia; done].
  pose proof (total_nonneg F) as Ht.
  assert (forall i, (i < length F)%nat -> forall k, rino V' i k = rino (img s) i k) as Ho by (intros; apply W2; lia).
  assert (forall k, 12 <= k -> din k = 0) as Hz.
  { intros k Hk. unfold din, store32, store16. by rewrite !store_out by (cbn; lia). }
  split; cbn [img nsect freeinode freeblock s0]; rewrite ?length_app; cbn [length]; [| |reflexivity|lia|lia| |].
  - rewrite Nat.add_1_r. apply finv_new.
    + eapply finv_same; [exact H1|lia|intros b Hb; apply W3; lia|..].
      * intros j k Hj Hk. apply addrs_ext; [done|]. intros m Hm. by apply Ho.
      * intros j Hj. unfold size. by rewrite contents_app.
      * intros j Hj. by apply contents_app.
    + intros k Hk. rewrite (addrs_ext _ din) by (done || (intros m Hm; apply W1; lia)). apply load_zero. intros m Hm. apply Hz. lia.
    + unfold size, contents. rewrite lookup_app_r, Nat.sub_diag by lia. done.
    + unfold contents. rewrite lookup_app_r, Nat.sub_diag by lia. done.
  - rewrite total_app. cbn [total length snd]. change (blocks (Z.of_nat 0)) with 0. lia.
  - intros i f Hf. apply lookup_app_Some in Hf as [Hf|[Hi Hf]].
    + destruct (dinode_ext (rino V' i) (rino (img s) i)) as (-> & -> & -> & -> & ->); [|by apply H6].
      intros k Hk. apply Ho. by eapply lookup_lt_Some.
    + destruct (i - length F)%nat as [|m] eqn:Ei; [|by destruct m]. injection Hf as <-. assert (i = length F) as -> by lia.
      destruct (dinode_ext (rino V' (length F)) din) as (-> & -> & -> & -> & ->); [intros k Hk; apply W1; lia|].
      cbn [fst snd length]. unfold di_type, di_nlink, di_major, di_minor, di_size, din, load16, load32, store16, store32.
      repeat split; rewrite ?load_store_ne by (cbn; lia); rewrite ?load_store; cbn [Z.of_nat].
      apply s16_u16. lia.
  - intros i k Hi Hin. rewrite W2 by lia. apply H7; lia.
Qed.

(** ** Growing the image *)

Lemma total_le F G : (length F <= length G)%nat ->
  (forall i f g, F !! i = Some f -> G !! i = Some g -> (length f.2 <= length g.2)%nat) -> total F <= total G.
Proof.
  revert G. induction F as [|f F IH]; intros [|g G] Hl H; cbn in *; [lia| |lia|].
  - pose proof (total_nonneg (g :: G)). cbn in *. lia.
  - pose proof (H 0%nat f g eq_refl eq_refl). pose proof (blocks_mono (Z.of_nat (length f.2)) (Z.of_nat (length g.2))).
    specialize (IH G ltac:(lia) (fun i => H (S i))). lia.
Qed.

Lemma insert_more F i (f g : Z * list Z) : (length f.2 <= length g.2)%nat -> total (<[i := f]> F) <= total (<[i := g]> F).
Proof.
  intros Hl. apply total_le; [by rewrite !length_insert|]. intros j a b Ha Hb.
  apply list_lookup_insert_Some in Ha as [(<- & <- & Hj)|[Hj Ha]]; apply list_lookup_insert_Some in Hb as [(E & <- & _)|[Hj' Hb]];
    [done|congruence|congruence|]. rewrite Ha in Hb. by injection Hb as ->.
Qed.

Lemma pieces_hold ps s F i ty c : holds s F -> F !! i = Some (ty, c) ->
  Z.of_nat (length (c ++ concat ps)) <= MAXFILE * BSIZE -> nmeta + total (<[i := (ty, c ++ concat ps)]> F) <= FSSIZE ->
  exists s', forK ps (iappend (Z.of_nat i + 1)) s = KOk tt s' /\ holds s' (<[i := (ty, c ++ concat ps)]> F) /\
    forall b, b < 32 -> s'.(img) b = s.(img) b.
Proof.
  revert s F c. induction ps as [|p ps IH]; intros s F c Hh Hi Hmax Hroom; cbn [forK concat].
  - exists s. split; [done|]. split; [|done]. by rewrite app_nil_r, list_insert_id.
  - cbn [concat] in *. rewrite app_assoc in *.
    pose proof (insert_more F i (ty, c ++ p) (ty, (c ++ p) ++ concat ps)) as Hle. cbn in Hle. rewrite (length_app (c ++ p)) in *.
    destruct (iappend_holds s F i ty c p Hh Hi) as (s1 & E1 & Hh1 & S1); [lia|lia|].
    destruct (IH s1 (<[i := (ty, c ++ p)]> F) (c ++ p) Hh1) as (s2 & E2 & Hh2 & S2).
    + apply list_lookup_insert_eq. by eapply lookup_lt_Some.
    + rewrite length_app. lia.
    + by rewrite list_insert_insert_eq.
    + exists s2. unfold mbind, K_bind. rewrite E1, E2. split; [done|]. rewrite list_insert_insert_eq in Hh2. split; [done|].
      intros b Hb. by rewrite S2, S1.
Qed.

(** ** The files of the command line *)

(** A file that can be opened. *)
Definition openable (f : list Z * list (list Z)) : list Z * option (list (list Z)) := (f.1, Some f.2).

Definition name_of (f : list Z * list (list Z)) : list Z := stripped (shortname f.1).
Definition file_of (f : list Z * list (list Z)) : Z * list Z := (T_FILE, concat f.2).

(** The entries of the root directory for files with inodes from [k] on. *)
Fixpoint entries_from (k : Z) (files : list (list Z * list (list Z))) : list (Z * list Z) :=
  match files with [] => [] | f :: files => (k, name_of f) :: entries_from (k + 1) files end.

Definition dents (es : list (Z * list Z)) : list Z := concat (map (fun e => Mkfs.dirent_bytes e.1 e.2) es).

Lemma dirent_length inum name : length (Mkfs.dirent_bytes inum name) = 16%nat.
Proof. done. Qed.

Lemma dents_length es : length (dents es) = (16 * length es)%nat.
Proof. unfold dents. induction es as [|e es IH]; [done|]. cbn [map concat]. rewrite length_app, dirent_length, IH. cbn. lia. Qed.

(** The image has room for the files [F]. *)
Definition fits (F : list (Z * list Z)) : Prop :=
  Z.of_nat (length F) < NINODES /\ Forall (fun f => Z.of_nat (length f.2) <= MAXFILE * BSIZE) F /\ nmeta + total F <= FSSIZE.

Lemma fits_less F G : fits G -> (length F <= length G)%nat ->
  (forall i f g, F !! i = Some f -> G !! i = Some g -> (length f.2 <= length g.2)%nat) -> fits F.
Proof.
  intros (H1 & H2 & H3) Hl Hc. pose proof (total_le F G Hl Hc). split; [lia|]. split; [|lia].
  apply Forall_lookup. intros i f Hf. destruct (lookup_lt_is_Some_2 G i) as [g Hg]; [apply lookup_lt_Some in Hf; lia|].
  pose proof (Hc i f g Hf Hg). rewrite Forall_lookup in H2. specialize (H2 i g Hg). cbn in H2. lia.
Qed.

Lemma fits_at F i ty c : fits F -> F !! i = Some (ty, c) -> Z.of_nat (length c) <= MAXFILE * BSIZE.
Proof. intros (_ & H & _) Hi. rewrite Forall_lookup in H. apply (H i _ Hi). Qed.

(** One file: a new inode, an entry in the root directory, and the contents. *)
Lemma add_file_holds s R G f (G' := (T_DIR, R ++ Mkfs.dirent_bytes (Z.of_nat (length G) + 2) (name_of f)) :: G ++ [file_of f]) :
  holds s ((T_DIR, R) :: G) -> 47 ∉ shortname f.1 -> fits G' ->
  exists s', add_file ROOTINO (openable f) s = KOk tt s' /\ holds s' G' /\ forall b, b < 32 -> s'.(img) b = s.(img) b.
Proof.
  intros Hh Hname Hfit. unfold add_file, mbind, K_bind, assert_. rewrite bool_decide_true by done. cbn [openable fst snd].
  set (e := Mkfs.dirent_bytes _ _) in G'. pose proof Hfit as (Hn & _ & _). unfold G' in Hn. cbn [length] in Hn. rewrite length_app in Hn. cbn in Hn.
  destruct (ialloc_holds s _ T_FILE Hh) as (s1 & E1 & Hh1 & S1); [done|cbn; lia|]. rewrite E1. cbn [length].
  replace (Z.of_nat (S (length G)) + 1) with (Z.of_nat (length G) + 2) by lia. fold (name_of f) e.
  assert (forall i (g h : Z * list Z), ((T_DIR, R ++ e) :: G ++ [(T_FILE, [])]) !! i = Some g -> G' !! i = Some h -> (length g.2 <= length h.2)%nat) as Hle.
  { intros [|i] g h Hg Hg'; unfold G' in Hg'; rewrite lookup_cons in Hg; rewrite lookup_cons in Hg'; [injection Hg as <-; by injection Hg' as <-|].
    destruct (decide (i < length G)%nat) as [Hi|Hi].
    - rewrite lookup_app_l in Hg by done. rewrite lookup_app_l, Hg in Hg' by done. by injection Hg' as ->.
    - rewrite lookup_app_r in Hg by lia. rewrite lookup_app_r in Hg' by lia. destruct (i - length G)%nat as [|m]; [|by destruct m].
      injection Hg as <-. injection Hg' as <-. cbn. lia. }
  pose proof (fits_less ((T_DIR, R ++ e) :: G ++ [(T_FILE, [])]) G' Hfit ltac:(unfold G'; cbn; rewrite !length_app; cbn; lia) Hle) as Hfit2.
  destruct (iappend_holds s1 (((T_DIR, R) :: G) ++ [(T_FILE, [])]) 0 T_DIR R e Hh1 eq_refl) as (s2 & E2 & Hh2 & S2).
  { by apply (fits_at _ 0 T_DIR _ Hfit2). } { apply Hfit2. }
  change (Z.of_nat 0 + 1) with ROOTINO in E2. rewrite E2. cbn [app insert list_insert] in Hh2.
  assert (((T_DIR, R ++ e) :: G ++ [(T_FILE, [])]) !! S (length G) = Some (T_FILE, [])) as Hl.
  { rewrite lookup_cons, lookup_app_r, Nat.sub_diag by lia. done. }
  assert (<[S (length G) := (T_FILE, [] ++ concat f.2)]> ((T_DIR, R ++ e) :: G ++ [(T_FILE, [])]) = G') as Hins.
  { transitivity ((T_DIR, R ++ e) :: <[length G := (T_FILE, [] ++ concat f.2)]> (G ++ [(T_FILE, [])])); [done|].
    unfold G'. f_equal. rewrite insert_app_r_alt, Nat.sub_diag by lia. done. }
  destruct (pieces_hold f.2 s2 ((T_DIR, R ++ e) :: G ++ [(T_FILE, [])]) (S (length G)) T_FILE [] Hh2 Hl) as (s3 & E3 & Hh3 & S3).
  { apply (fits_at G' (S (length G)) T_FILE); [done|]. unfold G'. rewrite lookup_cons, lookup_app_r, Nat.sub_diag by lia. done. }
  { rewrite Hins. apply Hfit. }
  replace (Z.of_nat (length G) + 2) with (Z.of_nat (S (length G)) + 1) by lia. exists s3. rewrite E3. split; [done|].
  rewrite Hins in Hh3. split; [done|]. intros b Hb. by rewrite S3, S2, S1.
Qed.

Lemma add_files_hold files s R G (G' := (T_DIR, R ++ dents (entries_from (Z.of_nat (length G) + 2) files)) :: G ++ map file_of files) :
  holds s ((T_DIR, R) :: G) -> Forall (fun f => 47 ∉ shortname f.1) files -> fits G' ->
  exists s', forK (map openable files) (add_file ROOTINO) s = KOk tt s' /\ holds s' G' /\ forall b, b < 32 -> s'.(img) b = s.(img) b.
Proof.
  revert s R G G'. induction files as [|f files IH]; intros s R G G' Hh Hnames Hfit.
  - exists s. split; [done|]. split; [|done]. unfold G'. cbn. by rewrite !app_nil_r.
  - apply Forall_cons in Hnames as [Hf Hnames]. cbn [map forK]. unfold mbind, K_bind.
    destruct (add_file_holds s R G f Hh Hf) as (s1 & E1 & Hh1 & S1).
    { eapply fits_less; [exact Hfit|unfold G'; cbn; rewrite !length_app; cbn; lia|].
      intros [|i] g h Hg Hg'; unfold G' in Hg'; cbn [map] in Hg'; rewrite lookup_cons in Hg; rewrite lookup_cons in Hg'.
      - injection Hg as <-. injection Hg' as <-. cbn. rewrite !length_app, dirent_length. cbn. rewrite ?length_app, ?dirent_length. lia.
      - change (file_of f :: map file_of files) with ([file_of f] ++ map file_of files) in Hg'. rewrite app_assoc in Hg'.
        rewrite lookup_app_l in Hg' by (by eapply lookup_lt_Some). rewrite Hg in Hg'. by injection Hg' as ->. }
    rewrite E1. destruct (IH s1 _ _ Hh1 Hnames) as (s2 & E2 & Hh2 & S2).
    + rewrite length_app. cbn [length]. rewrite <- !app_assoc. cbn [app].
      replace (Z.of_nat (length G + 1) + 2) with (Z.of_nat (length G) + 2 + 1) by lia. exact Hfit.
    + exists s2. rewrite E2. split; [done|]. split; [|intros b Hb; by rewrite S2, S1].
      rewrite length_app in Hh2. cbn [length] in Hh2. rewrite <- !app_assoc in Hh2. cbn [app] in Hh2.
      replace (Z.of_nat (length G + 1) + 2) with (Z.of_nat (length G) + 2 + 1) in Hh2 by lia. exact Hh2.
Qed.

(** ** The start and the end *)

Lemma zero_sectors l s : Forall (fun i => 0 <= i < 2 ^ 22) l -> (forall b off, s.(img) b off = 0) ->
  exists s', forK l (fun i => wsect i (fun _ => 0)) s = KOk tt s' /\ (forall b off, s'.(img) b off = 0) /\
    s'.(nsect) = foldl (fun m i => Z.max m (i + 1)) s.(nsect) l /\ s'.(freeinode) = s.(freeinode) /\ s'.(freeblock) = s.(freeblock).
Proof.
  revert s. induction l as [|i l IH]; intros s Hl Hz; cbn [forK]; [by exists s|]. apply Forall_cons in Hl as [Hi Hl].
  unfold mbind, K_bind, wsect at 1. rewrite sector_id by done.
  destruct (IH (Mkstate (<[i := fun _ => 0]> (img s)) (Z.max (nsect s) (i + 1)) (freeinode s) (freeblock s)) Hl) as (s' & E & H).
  - intros b off. cbn. rewrite fn_insert_case. by case_decide.
  - exists s'. by rewrite E.
Qed.

Lemma used_bits_spec used y : 0 <= used -> 0 <= y -> Z.testbit (used_bits used (y / 8)) (y mod 8) = (y <? used).
Proof.
  intros Hu Hy. pattern used. apply natlike_ind; [..|done]; clear used Hu.
  - cbn. rewrite Z.bits_0. symmetry. apply Z.ltb_ge. lia.
  - intros n Hn IH. unfold used_bits in *. rewrite <- (Z2Nat.id n), <- Nat2Z.inj_succ, seqZ_S, Z2Nat.id by lia.
    rewrite foldl_snoc, Z.add_0_l. set (buf := foldl _ _ _) in *. rewrite fn_insert_case.
    pose proof (Z.mod_pos_bound y 8). pose proof (Z.mod_pos_bound n 8). pose proof (Z.div_mod y 8). pose proof (Z.div_mod n 8).
    rewrite Nat2Z.inj_succ, Z2Nat.id by lia. case_decide as E.
    + unfold u8. rewrite Z.mod_pow2_bits_low, set_bit by lia. rewrite E, IH.
      destruct (Z.eqb_spec (y mod 8) (n mod 8)), (Z.ltb_spec y n), (Z.ltb_spec y (Z.succ n)); cbn; try done; lia.
    + rewrite IH. destruct (Z.ltb_spec y n), (Z.ltb_spec y (Z.succ n)); try done; lia.
Qed.

Lemma start_holds s : (forall b off, b <> 1 -> s.(img) b off = 0) -> s.(nsect) = FSSIZE -> s.(freeinode) = 1 -> s.(freeblock) = nmeta ->
  holds s [].
Proof.
  intros Hz H1 H2 H3. assert (nmeta = 46) as Hnm by done. assert (NINODES = 200) as HNI by done. split; cbn [length total].
  - split; try (intros; lia). intros b off Hb. apply Hz. lia.
  - lia.
  - done.
  - lia.
  - lia.
  - intros i f Hf. by rewrite lookup_nil in Hf.
  - intros i k _ Hi. rewrite rino_byte. destruct (_ && _); [|done]. apply Hz.
    destruct (iblock_spec (Z.of_nat i + 1)); lia.
Qed.

(** The inode [inum] of the image, as the kernel reads it into the entry [x0] of its table. *)
Definition inode_at (V : Z -> bytes) (inum : Z) (x0 : inode) : inode :=
  load_dinode (V (IBLOCK inum mk_sb)) (ioff inum) x0.

Lemma inode_at_rino V i x0 (x := inode_at V (Z.of_nat i + 1) x0) (d := rino V i) :
  x.(i_type) = di_type d 0 /\ x.(i_nlink) = di_nlink d 0 /\ x.(i_size) = di_size d 0 /\
  (forall k, 0 <= k <= NDIRECT -> x.(i_addrs) k = addrs d k) /\ x.(i_dev) = x0.(i_dev).
Proof.
  assert (forall n a, 0 <= a -> a + Z.of_nat n <= 64 ->
    load n (V (IBLOCK (Z.of_nat i + 1) mk_sb)) (ioff (Z.of_nat i + 1) + a) = load n d a) as Hl.
  { intros n a Ha Hn. unfold d. revert a Ha Hn. induction n as [|n IH]; intros a Ha Hn; [done|]. cbn [load].
    rewrite rino_byte, (proj2 (Z.leb_le 0 a)), (proj2 (Z.ltb_lt a 64)) by lia. cbn [andb].
    rewrite <- IH by lia. by rewrite Z.add_assoc. }
  assert (NDIRECT = 12) as HND by done. cbn. unfold di_type, di_nlink, di_size, di_addr, load16, load32, addrs.
  rewrite <- (Z.add_0_r (ioff (Z.of_nat i + 1))) at 1. rewrite !Hl by (cbn; lia). repeat split.
  intros k Hk. rewrite (proj2 (Z.leb_le 0 k)), (proj2 (Z.leb_le k NDIRECT)) by lia. cbn [andb].
  rewrite <- Z.add_assoc. apply Hl; cbn; lia.
Qed.

Lemma faddr_slot V i x0 bn (x := inode_at V (Z.of_nat i + 1) x0) : 0 <= bn < MAXFILE -> faddr V x bn = slot V (rino V i) bn.
Proof.
  intros Hb. destruct (inode_at_rino V i x0) as (_ & _ & _ & Ha & _). fold x in Ha. unfold faddr, slot.
  assert (NDIRECT = 12) as HND by done. rewrite (Ha NDIRECT) by lia. rewrite (proj2 (Z.eqb_neq bn (-1))) by lia.
  destruct (Z.ltb_spec bn NDIRECT); [apply Ha; lia|done].
Qed.

(** The size that the root directory gets. *)
Definition rounded (n : Z) : Z := (n / BSIZE + 1) * BSIZE.

(** The finished image: as [holds], but for the size of the root directory. *)
Record image (V : Z -> bytes) (F : list (Z * list Z)) : Prop := {
  im_inv : finv V (rino V) (fun i => nb (size F i)) (contents F) (length F) (nmeta + total F);
  im_inode : forall i f, F !! i = Some f -> let d := rino V i in let len := Z.of_nat (length f.2) in
    di_type d 0 = f.1 /\ di_nlink d 0 = 1 /\ di_size d 0 = if decide (i = 0%nat) then rounded len else len;
  im_map : V 45 = used_bits (nmeta + total F);
}.

Lemma fix_root_ok s F R : holds s F -> F !! 0%nat = Some (T_DIR, R) -> Z.of_nat (length R) <= MAXFILE * BSIZE -> nmeta + total F <= FSSIZE ->
  exists s', (fix_root ROOTINO;; used ← (fun s => KOk s.(freeblock) s) : K Z; balloc used) s = KOk tt s' /\
    image s'.(img) F /\ forall b, b < 32 -> s'.(img) b = s.(img) b.
Proof.
  intros [H1 H2 H3 H4 H5 H6 H7] H0 Hmax Hroom. assert (nmeta = 46) as Hnm by done. assert (FSSIZE = 2000) as HFS by done.
  assert (NINODES = 200) as HNI by done. pose proof (total_nonneg F) as Ht. destruct (H6 _ _ H0) as (_ & _ & _ & _ & T5). cbn in T5.
  change (MAXFILE * BSIZE) with 274432 in *. assert (0 <= Z.of_nat (length R) / BSIZE <= 268) as Hd.
  { change BSIZE with 1024. split; [apply Z.div_pos; lia|apply Z.div_le_upper_bound; lia]. }
  unfold fix_root, mbind, K_bind. change ROOTINO with (Z.of_nat 0 + 1). rewrite (rinode_rino s 0), T5, !xint_u32 by (done || lia).
  rewrite (u32_small (Z.of_nat (length R))), !u32_small by (rewrite ?u32_small; change BSIZE with 1024 in *; lia).
  fold (rounded (Z.of_nat (length R))). set (d := store32 _ 8 _).
  destruct (winode_rino s 0 d H3) as (V' & Ew & W1 & W2 & W3); [lia|]. rewrite Ew. unfold balloc, mbind, K_bind, assert_. cbn [freeblock].
  rewrite (proj2 (Z.ltb_lt (freeblock s) (BSIZE * 8))) by (rewrite H2; change (BSIZE * 8) with 8192; lia).
  change (sb_bmapstart mk_sb) with 45. unfold wsect. rewrite sector_id by done. eexists. split; [done|]. cbn [img].
  assert (forall j k, rino (<[45 := used_bits (freeblock s)]> V') j k = rino V' j k \/ NINODES <= Z.of_nat j) as Hb.
  { intros j k. destruct (decide (NINODES <= Z.of_nat j)) as [|Hj]; [by right|left]. rewrite !rino_byte.
    destruct (iblock_spec (Z.of_nat j + 1)); [lia|]. by rewrite fn_lookup_insert_ne by lia. }
  assert (forall j k, (j < length F)%nat -> 0 <= k < 64 -> rino (<[45 := used_bits (freeblock s)]> V') j k =
    if decide (j = 0%nat) then d k else rino (img s) j k) as Hr.
  { intros j k Hj Hk. destruct (Hb j k) as [->|]; [|lia]. case_decide; [subst; by apply W1|apply W2; lia]. }
  split; [split|].
  - rewrite <- H2. eapply finv_same; [exact H1|lia|..].
    + intros b Hnb. rewrite fn_lookup_insert_ne by lia. apply W3. lia.
    + intros j k Hj Hk. apply addrs_ext; [exact Hk|]. intros m Hm. rewrite Hr by (exact Hj || lia). case_decide; [|reflexivity].
      subst j. unfold d. apply store_out. cbn. lia.
    + reflexivity.
    + reflexivity.
  - intros j f Hf. pose proof (lookup_lt_Some _ _ _ Hf) as Hj. destruct (H6 _ _ Hf) as (<- & <- & _ & _ & <-). cbn zeta.
    destruct (dinode_ext (rino (<[45 := used_bits (freeblock s)]> V') j) (if decide (j = 0%nat) then d else rino (img s) j))
      as (-> & -> & _ & _ & ->); [intros k Hk; rewrite Hr by (done || lia); by case_decide|].
    case_decide; [|done]. subst j. rewrite H0 in Hf. injection Hf as <-. rewrite T5. unfold di_type, di_nlink, di_size, d.
    rewrite (load32_store32 _ 8), u32_small by (unfold rounded; change BSIZE with 1024 in *; lia).
    repeat split; f_equal; apply load_ext; intros k Hk; cbn in Hk; apply store_out; cbn; lia.
  - rewrite fn_lookup_insert. by rewrite H2.
  - intros b Hlt. rewrite fn_lookup_insert_ne by lia. apply W3. lia.
Qed.

(** The files of the image: the root directory with its entries, and the files given. *)
Definition root_entries (files : list (list Z * list (list Z))) : list (Z * list Z) :=
  (ROOTINO, chars ".") :: (ROOTINO, chars "..") :: entries_from 2 files.
Definition tree (files : list (list Z * list (list Z))) : list (Z * list Z) :=
  (T_DIR, dents (root_entries files)) :: map file_of files.

Lemma tree_prefix files R : fits (tree files) -> (length R <= 32)%nat -> fits [(T_DIR, R)].
Proof.
  intros Hf HR. eapply fits_less; [exact Hf|cbn; lia|]. intros [|i] f g Hg Hg'; unfold tree in Hg'; rewrite lookup_cons in Hg; rewrite lookup_cons in Hg'.
  - injection Hg as <-. injection Hg' as <-. cbn [snd]. rewrite dents_length. cbn [root_entries length]. lia.
  - by rewrite lookup_nil in Hg.
Qed.

Lemma foldl_max l m n : Forall (fun i => i < n) l -> m <= n -> (n - 1 ∈ l) -> foldl (fun m i => Z.max m (i + 1)) m l = n.
Proof.
  revert m. induction l as [|i l IH]; intros m Hl Hm Hn; [by apply not_elem_of_nil in Hn|]. apply Forall_cons in Hl as [Hi Hl].
  cbn [foldl]. destruct (decide (n - 1 ∈ l)) as [|Hl']; [apply IH; [done|lia|done]|].
  apply elem_of_cons in Hn as [<-|]; [|done]. clear IH. assert (Z.max m (n - 1 + 1) = n) as -> by lia.
  induction l as [|j l IH']; [done|]. apply Forall_cons in Hl as [Hj Hl]. cbn [foldl]. rewrite Z.max_l by lia. apply IH'; [done|].
  intros H. apply Hl'. by right.
Qed.

(** mkfs writes an image that holds the files, with an empty log. *)
Lemma mkfs_image files : Forall (fun f => 47 ∉ shortname f.1) files -> fits (tree files) ->
  exists s', mkfs (map openable files) mk_start = KOk tt s' /\ image s'.(img) (tree files) /\ s'.(img) 1 = store_superblock mk_sb /\
    forall b off, b < 32 -> b <> 1 -> s'.(img) b off = 0.
Proof.
  intros Hn Hf. unfold mkfs, mbind at 1, K_bind at 1. assert (FSSIZE = 2000) as HFS by done.
  destruct (zero_sectors (seqZ 0 FSSIZE) mk_start) as (s0 & -> & Z1 & Z2 & Z3 & Z4); [|done|].
  { apply Forall_forall. intros i Hi. apply elem_of_seqZ in Hi. lia. }
  rewrite (foldl_max _ _ FSSIZE) in Z2; [|apply Forall_forall; intros i Hi; apply elem_of_seqZ in Hi; lia|done|apply elem_of_seqZ; lia].
  unfold mbind at 1, K_bind at 1, wsect at 1. rewrite sector_id by done. set (s1 := Mkstate _ _ _ _).
  assert (holds s1 []) as Hh.
  { apply start_holds; cbn [s1 img nsect freeinode freeblock]; [intros b off Hb; by rewrite fn_lookup_insert_ne|rewrite Z2; lia|exact Z3|exact Z4]. }
  destruct (ialloc_holds s1 [] T_DIR Hh) as (s2 & E2 & Hh2 & S2); [done|done|]. unfold mbind at 1, K_bind at 1. rewrite E2. cbn [length] in *.
  change (Z.of_nat 0 + 1) with ROOTINO. unfold mbind at 1, K_bind at 1, assert_ at 1. change (ROOTINO =? ROOTINO) with true. cbv iota.
  change ([] ++ [(T_DIR, [])]) with [(T_DIR, [] : list Z)] in Hh2. set (e1 := Mkfs.dirent_bytes ROOTINO (chars ".")). set (e2 := Mkfs.dirent_bytes ROOTINO (chars "..")).
  pose proof (tree_prefix files e1 Hf ltac:(unfold e1; rewrite dirent_length; lia)) as F1.
  pose proof (tree_prefix files (e1 ++ e2) Hf ltac:(rewrite length_app; unfold e1, e2; rewrite !dirent_length; lia)) as F2.
  destruct (iappend_holds s2 _ 0 T_DIR [] e1 Hh2 eq_refl) as (s3 & E3 & Hh3 & S3); [apply (fits_at _ 0 T_DIR e1 F1 eq_refl)|apply F1|].
  unfold mbind at 1, K_bind at 1. change (Z.of_nat 0 + 1) with ROOTINO in E3. rewrite E3. cbn [insert list_insert app] in Hh3.
  destruct (iappend_holds s3 _ 0 T_DIR e1 e2 Hh3 eq_refl) as (s4 & E4 & Hh4 & S4); [apply (fits_at _ 0 T_DIR (e1 ++ e2) F2 eq_refl)|apply F2|].
  unfold mbind at 1, K_bind at 1. change (Z.of_nat 0 + 1) with ROOTINO in E4. rewrite E4. cbn [insert list_insert] in Hh4.
  destruct (add_files_hold files s4 (e1 ++ e2) [] Hh4 Hn) as (s5 & E5 & Hh5 & S5); [rewrite <- app_assoc; exact Hf|].
  unfold mbind at 1, K_bind at 1. rewrite E5. rewrite <- app_assoc in Hh5.
  destruct (fix_root_ok s5 (tree files) _ Hh5 eq_refl) as (s6 & E6 & H6 & S6); [apply (fits_at _ 0 T_DIR _ Hf eq_refl)|apply Hf|].
  exists s6. split; [exact E6|]. split; [exact H6|].
  assert (forall b, b < 32 -> img s6 b = img s1 b) as Hlow by (intros b Hb; rewrite S6, S5, S4, S3, S2 by lia; reflexivity).
  split; [rewrite Hlow by lia; apply fn_lookup_insert|]. intros b off Hb Hb1. rewrite Hlow by lia. cbn [s1 img]. by rewrite fn_lookup_insert_ne.
Qed.

(** ** Sectors hold bytes *)

(** An operation keeps the sectors byte data, and its result satisfies [Q]. *)
Definition clean {A} (m : K A) (Q : A -> Prop) : Prop := forall s, (forall z, byte_data (s.(img) z)) ->
  match m s with KOk a s' => Q a /\ forall z, byte_data (s'.(img) z) | _ => True end.

Lemma clean_bind {A B} (m : K A) (f : A -> K B) Q R : clean m Q -> (forall a, Q a -> clean (f a) R) -> clean (m ≫= f) R.
Proof.
  intros Hm Hf s Hs. specialize (Hm s Hs). unfold mbind, K_bind. destruct (m s) as [a s'| |]; [|done|done].
  destruct Hm as [Ha Hs']. by apply Hf.
Qed.

Lemma clean_ret {A} (a : A) (Q : A -> Prop) : Q a -> clean (mret a) Q.
Proof. intros Ha s Hs. by split. Qed.

Lemma clean_assert b : clean (assert_ b) (fun _ => True).
Proof. intros s Hs. unfold assert_. by destruct b. Qed.

Lemma clean_take : clean take_block (fun _ => True).
Proof. intros s Hs. by split. Qed.

Lemma clean_wsect sec buf : byte_data buf -> clean (wsect sec buf) (fun _ => True).
Proof. intros Hb s Hs. split; [done|]. intros z. cbn. rewrite fn_insert_case. by case_decide. Qed.

Lemma clean_rsect sec : clean (rsect sec) byte_data.
Proof. intros s Hs. unfold rsect. destruct (_ <? _); [|done]. by split. Qed.

Lemma zero_bytes : byte_data (fun _ => 0).
Proof. intros i. done. Qed.

Lemma clean_winode inum d : byte_data d -> clean (winode inum d) (fun _ => True).
Proof.
  intros Hd. unfold winode. eapply clean_bind; [apply clean_rsect|]. intros buf Hb. apply clean_wsect, memmove_across_bytes; done.
Qed.

Lemma clean_rinode inum : clean (rinode inum) byte_data.
Proof.
  unfold rinode. eapply clean_bind; [apply clean_rsect|]. intros buf Hb. apply clean_ret, memmove_across_bytes; done.
Qed.

Lemma clean_ialloc type : clean (ialloc type) (fun _ => True).
Proof.
  intros s Hs. unfold ialloc. set (s0 := Mkstate _ _ _ _).
  refine (clean_bind _ _ (fun _ => True) (fun _ => True) (clean_winode _ _ _) (fun _ _ => clean_ret _ _ I) s0 Hs).
  unfold store32, store16. repeat apply store_bytes. apply zero_bytes.
Qed.

Lemma clean_block_for din fbn : byte_data din -> clean (block_for din fbn) (fun r => byte_data r.2).
Proof.
  intros Hd. assert (forall a, clean (b ← take_block; mret (store32 din a (xint b))) byte_data) as Ht.
  { intros a. eapply clean_bind; [apply clean_take|]. intros b _. by apply clean_ret, store_bytes. }
  unfold block_for. destruct (fbn <? NDIRECT).
  - eapply (clean_bind _ _ byte_data); [destruct (_ =? 0); [apply Ht|by apply clean_ret]|]. intros d Hd'. by apply clean_ret.
  - eapply (clean_bind _ _ byte_data); [destruct (_ =? 0); [apply Ht|by apply clean_ret]|]. intros d Hd'.
    eapply clean_bind; [apply clean_rsect|]. intros ind Hi. destruct (_ =? 0); [|by apply clean_ret].
    eapply clean_bind; [apply clean_take|]. intros b _. eapply clean_bind; [by apply clean_wsect, store_bytes|]. intros _ _. by apply clean_ret.
Qed.

Lemma clean_iappend_loop fuel din off p : byte_data din -> is_bytes p -> clean (iappend_loop fuel din off p) (fun r => byte_data r.1).
Proof.
  revert din off p. induction fuel as [|fuel IH]; intros din off p Hd Hp; (destruct p as [|c p]; [by apply clean_ret|]); [done|].
  cbn [iappend_loop]. eapply clean_bind; [apply clean_assert|]. intros _ _.
  eapply clean_bind; [by apply clean_block_for|]. intros [x d] Hd'. cbn in Hd'.
  eapply clean_bind; [apply clean_rsect|]. intros buf Hb. eapply clean_bind.
  - apply clean_wsect, memmove_across_bytes; [|done|by apply bytes_of_bytes]. pose proof (u32_bound ((off / BSIZE + 1) * BSIZE - off)). lia.
  - intros _ _. apply IH; [done|]. by apply Forall_drop.
Qed.

Lemma clean_iappend inum p : is_bytes p -> clean (iappend inum p) (fun _ => True).
Proof.
  intros Hp. unfold iappend. eapply clean_bind; [apply clean_rinode|]. intros din Hd.
  eapply clean_bind; [by apply clean_iappend_loop|]. intros [d off] Hd'. by apply clean_winode, store_bytes.
Qed.

Lemma read_bytes_bytes n m a : byte_data m -> is_bytes (read_bytes n m a).
Proof. intros Hm. revert a. induction n as [|n IH]; intros a; cbn [read_bytes]; constructor; [apply Hm|apply IH]. Qed.

Lemma dirent_is_bytes inum name : is_bytes name -> is_bytes (Mkfs.dirent_bytes inum name).
Proof. intros Hn. apply read_bytes_bytes, strncpy_bytes; [apply store_bytes, zero_bytes|by apply bytes_of_bytes]. Qed.

Lemma stripped_bytes arg : is_bytes arg -> is_bytes (stripped (shortname arg)).
Proof.
  intros Ha. assert (is_bytes (shortname arg)) as Hs by (unfold shortname; case_bool_decide; [by apply Forall_drop|done]).
  unfold stripped. destruct Hs as [|c l Hc Hl]; [by constructor|]. repeat (case_match; try by constructor); done.
Qed.

Lemma clean_forK {A} (l : list A) f : (forall a, a ∈ l -> clean (f a) (fun _ => True)) -> clean (forK l f) (fun _ => True).
Proof.
  induction l as [|a l IH]; intros Hf; cbn [forK]; [by apply clean_ret|].
  eapply clean_bind; [apply Hf; by left|]. intros _ _. apply IH. intros b Hb. apply Hf. by right.
Qed.

(** The arguments of mkfs are strings and the files hold bytes. *)
Definition byte_files (files : list (list Z * list (list Z))) : Prop :=
  Forall (fun f => is_bytes f.1 /\ Forall is_bytes f.2) files.

Lemma clean_mkfs files : byte_files files -> clean (mkfs (map openable files)) (fun _ => True).
Proof.
  intros Hf. unfold mkfs. eapply clean_bind; [apply clean_forK; intros; apply clean_wsect, zero_bytes|]. intros _ _.
  eapply clean_bind; [apply clean_wsect; unfold store_superblock, store32; repeat apply store_bytes; apply zero_bytes|]. intros _ _.
  eapply clean_bind; [apply clean_ialloc|]. intros rootino _. eapply clean_bind; [apply clean_assert|]. intros _ _.
  eapply clean_bind; [apply clean_iappend, dirent_is_bytes; repeat constructor; done|]. intros _ _.
  eapply clean_bind; [apply clean_iappend, dirent_is_bytes; repeat constructor; done|]. intros _ _.
  eapply clean_bind; [apply clean_forK|intros _ _].
  { intros ? [f [-> Hin]]%list_elem_of_fmap. unfold byte_files in Hf. rewrite Forall_forall in Hf. destruct (Hf f Hin) as [F1 F2]. rewrite Forall_forall in F2.
    unfold add_file. eapply clean_bind; [apply clean_assert|]. intros _ _. cbn [openable fst snd]. eapply clean_bind; [apply clean_ialloc|]. intros inum _.
    eapply clean_bind; [by apply clean_iappend, dirent_is_bytes, stripped_bytes|]. intros _ _.
    apply clean_forK. intros p Hp. by apply clean_iappend, F2. }
  eapply clean_bind; [|intros _ _].
  { unfold fix_root. eapply clean_bind; [apply clean_rinode|]. intros d Hd. by apply clean_winode, store_bytes. }
  eapply (clean_bind _ _ (fun _ => True)); [intros s Hs; by split|]. intros used _.
  eapply clean_bind; [apply clean_assert|]. intros _ _. apply clean_wsect. unfold used_bits.
  apply foldl_bytes; [|apply zero_bytes]. intros m x Hm i. rewrite fn_insert_case. case_decide; [apply u8_bound|apply Hm].
Qed.

(** ** The kernel's view of the image *)

Section view.
Context (V : Z -> bytes) (F : list (Z * list Z)) (Him : image V F).

Lemma view_byte i f x0 k (x := inode_at V (Z.of_nat i + 1) x0) : F !! i = Some f -> 0 <= k < nb (Z.of_nat (length f.2)) * BSIZE ->
  fbyte V x k = bytes_of f.2 k.
Proof.
  intros Hi Hk. destruct Him as [[_ _ _ F4 _ _ F7] _ _]. pose proof (lookup_lt_Some _ _ _ Hi) as Hlt.
  assert (contents F i = f.2) as Hc by (unfold contents; by rewrite Hi). destruct (F4 i Hlt) as [F4a _]. unfold size in *. rewrite Hc in *.
  unfold fbyte, x. rewrite faddr_slot, F7, Hc; [done|done|by rewrite Hc|].
  change BSIZE with 1024 in *. split; [apply Z.div_pos; lia|]. apply Z.div_lt_upper_bound; lia.
Qed.

Lemma view_mapped i f x0 bn (x := inode_at V (Z.of_nat i + 1) x0) : F !! i = Some f -> 0 <= bn < MAXFILE ->
  faddr V x bn = 0 <-> nb (Z.of_nat (length f.2)) <= bn.
Proof.
  intros Hi Hb. destruct Him as [[_ _ _ _ F5 _ _] _ _]. pose proof (lookup_lt_Some _ _ _ Hi) as Hlt.
  unfold x. rewrite faddr_slot, F5 by done. unfold size, contents. by rewrite Hi.
Qed.

Lemma view_inode i f x0 (x := inode_at V (Z.of_nat i + 1) x0) (len := Z.of_nat (length f.2)) : F !! i = Some f ->
  x.(i_type) = f.1 /\ x.(i_nlink) = 1 /\ x.(i_size) = (if decide (i = 0%nat) then rounded len else len) /\ x.(i_dev) = x0.(i_dev).
Proof.
  intros Hi. destruct (inode_at_rino V i x0) as (E1 & E2 & E3 & _ & E5). destruct Him as [_ Hin _].
  destruct (Hin i f Hi) as (P1 & P2 & P3).
  split; [exact (eq_trans E1 P1)|]. split; [exact (eq_trans E2 P2)|]. split; [exact (eq_trans E3 P3)|exact E5].
Qed.

Lemma view_max i f : F !! i = Some f -> Z.of_nat (length f.2) <= MAXFILE * BSIZE.
Proof.
  intros Hi. destruct Him as [[_ _ _ F4 _ _ _] _ _]. destruct (F4 i (lookup_lt_Some _ _ _ Hi)) as [F4a F4b].
  unfold contents in F4b. rewrite Hi in F4b. cbn in F4b. change BSIZE with 1024 in *. lia.
Qed.

Lemma view_file i f x0 (x := inode_at V (Z.of_nat i + 1) x0) : F !! i = Some f -> i <> 0%nat -> x0.(i_dev) = ROOTDEV -> file_ok V x.
Proof.
  intros Hi H0 Hd. destruct (view_inode i f x0 Hi) as (_ & _ & E3 & E4). fold x in E3, E4. rewrite decide_False in E3 by done.
  pose proof (view_max i f Hi) as Hm. assert (MAXFILE = 268) as HM by done. assert (BSIZE = 1024) as HB by done.
  split; [congruence|lia|]. intros bn Hb Hlt E. apply (view_mapped i f x0 bn Hi) in E; [|lia].
  apply Z.ltb_lt in Hlt. rewrite E3 in Hlt. destruct (nb_spec (Z.of_nat (length f.2)) (nb (Z.of_nat (length f.2))) ltac:(lia)) as [H _].
  specialize (H eq_refl). apply Z.ltb_lt in Hlt. nia.
Qed.

(** The rounded size of the root directory covers allocated blocks only if its last
    block is not full. *)
Lemma view_root R x0 (x := inode_at V ROOTINO x0) : F !! 0%nat = Some (T_DIR, R) -> x0.(i_dev) = ROOTDEV ->
  Z.of_nat (length R) < 16 * BSIZE -> file_ok V x <-> Z.of_nat (length R) mod BSIZE <> 0.
Proof.
  intros Hi Hd Hlen. destruct (view_inode 0 _ x0 Hi) as (_ & _ & E3 & E4). change (Z.of_nat 0 + 1) with ROOTINO in *. fold x in E3, E4.
  rewrite decide_True in E3 by done. cbn [snd] in E3. unfold rounded in E3. set (len := Z.of_nat (length R)) in *.
  assert (MAXFILE = 268) as HM by done. assert (BSIZE = 1024) as HB by done. pose proof (Z.div_mod len BSIZE ltac:(lia)) as Hdm.
  pose proof (Z.mod_pos_bound len BSIZE ltac:(lia)) as Hmb. destruct (nb_spec len (nb len) ltac:(lia)) as [H _]. specialize (H eq_refl).
  split.
  - intros [_ _ Hmap] H0. apply (Hmap (len / BSIZE)); [lia|lia|]. apply (view_mapped 0 _ x0 _ Hi); [lia|]. cbn [snd]. fold len. lia.
  - intros H0. split; [congruence|lia|]. intros bn Hb Hlt E. apply (view_mapped 0 _ x0 bn Hi) in E; [|lia]. cbn [snd] in E. fold len in E. lia.
Qed.

Lemma view_dirent R x0 j (x := inode_at V ROOTINO x0) : F !! 0%nat = Some (T_DIR, R) -> 0 <= j -> 16 * j + 16 <= nb (Z.of_nat (length R)) * BSIZE ->
  forall k, 0 <= k < 16 -> dirent_at V x (16 * j) k = bytes_of R (16 * j + k).
Proof.
  intros Hi Hj Hn k Hk. unfold dirent_at, file_bytes. change sizeof_dirent with 16. destruct (_ && _) eqn:E; [|lia].
  rewrite Z.sub_0_r. apply (view_byte 0 _ x0 _ Hi). cbn [snd]. lia.
Qed.
End view.

Lemma bytes_of_read n m a k : 0 <= k < Z.of_nat n -> bytes_of (read_bytes n m a) k = m (a + k).
Proof.
  revert a k. induction n as [|n IH]; intros a k Hk; [lia|]. cbn [read_bytes].
  change (m a :: read_bytes n m (a + 1)) with ([m a] ++ read_bytes n m (a + 1)). rewrite bytes_of_app by lia. change (Z.of_nat (length [m a])) with 1.
  destruct (Z.ltb_spec k 1); [by assert (k = 0) as -> by lia; rewrite Z.add_0_r|]. rewrite IH by lia. f_equal. lia.
Qed.

Lemma dents_lookup es j e k : es !! j = Some e -> 0 <= k < 16 -> bytes_of (dents es) (16 * Z.of_nat j + k) = mk_dirent e.1 e.2 k.
Proof.
  intros Hj Hk. revert j Hj. induction es as [|e' es IH]; intros j Hj; [done|]. unfold dents. cbn [map concat]. fold (dents es).
  rewrite bytes_of_app, dirent_length by lia. change (Z.of_nat 16) with 16. destruct j as [|j].
  - injection Hj as ->. destruct (Z.ltb_spec (16 * Z.of_nat 0 + k) 16); [|lia]. unfold Mkfs.dirent_bytes. rewrite bytes_of_read; [done|change (Z.of_nat (Z.to_nat sizeof_dirent)) with 16; lia].
  - rewrite lookup_cons in Hj. destruct (Z.ltb_spec (16 * Z.of_nat (S j) + k) 16); [lia|]. rewrite <- (IH j Hj). f_equal. lia.
Qed.

Lemma mk_dirent_spec inum name : 0 <= inum < 2 ^ 16 ->
  de_inum (mk_dirent inum name) = inum /\ str_agree DIRSIZ (bytes_of name) 0 (mk_dirent inum name) 2.
Proof.
  intros Hi. unfold mk_dirent, de_inum, load16, strncpy. split.
  - rewrite (load_ext _ _ (store16 (fun _ => 0) 0 (xshort inum))) by (intros k Hk; cbn in Hk; apply strncpy_loop_out; lia).
    unfold store16. rewrite load_store, xshort_u16. unfold u16. change (256 ^ Z.of_nat 2) with (2 ^ 16). rewrite !Z.mod_small; rewrite ?Z.mod_small; lia.
  - intros i Hr Hj. symmetry. apply strncpy_loop_in; [|exact Hj]. change DIRSIZ with 14 in *. cbn. lia.
Qed.

Lemma entries_inum files k j e : entries_from k files !! j = Some e -> e.1 = k + Z.of_nat j.
Proof.
  revert k j. induction files as [|f files IH]; intros k j Hj; [done|]. cbn [entries_from] in Hj. destruct j as [|j].
  - injection Hj as <-. cbn. lia.
  - rewrite lookup_cons in Hj. rewrite (IH _ _ Hj). lia.
Qed.

Lemma entries_length files k : length (entries_from k files) = length files.
Proof. revert k. induction files as [|f files IH]; intros k; [done|]. cbn. by rewrite IH. Qed.

Lemma root_entry_inum files j e : Z.of_nat (length files) < NINODES -> root_entries files !! j = Some e -> 0 < e.1 < 2 ^ 16.
Proof.
  change NINODES with 200. intros Hn Hj. unfold root_entries in Hj. destruct j as [|[|j]]; rewrite ?lookup_cons in Hj; [by injection Hj as <-|by injection Hj as <-|].
  pose proof (lookup_lt_Some _ _ _ Hj) as Hlt. rewrite entries_length in Hlt. rewrite (entries_inum _ _ _ _ Hj). lia.
Qed.

(** What the kernel reads from an image, with the entry [x0] of its inode table to read
    inodes into: the superblock, an empty log, the bitmap, the files with their blocks,
    and the root directory. *)
Record mounted (V : Z -> bytes) (files : list (list Z * list (list Z))) (x0 : inode)
    (ip := fun inum => inode_at V inum x0) (root := ip ROOTINO) (n := Z.of_nat (length files)) : Prop := {
  mo_super : load_superblock (V 1) = mk_sb;
  mo_log : forall b off, 2 <= b < 2 + nlog -> V b off = 0;
  mo_bitmap : forall b, 0 <= b < FSSIZE -> in_use V mk_sb b = (b <? nmeta + total (tree files));
  mo_blocks : forall i j bn bn', 0 < i <= n + 1 -> 0 < j <= n + 1 -> 0 <= bn < MAXFILE -> 0 <= bn' < MAXFILE -> faddr V (ip i) bn <> 0 ->
    nmeta <= faddr V (ip i) bn < nmeta + total (tree files) /\ (faddr V (ip i) bn = faddr V (ip j) bn' -> i = j /\ bn = bn');
  mo_file : forall i f, files !! i = Some f -> let x := ip (Z.of_nat i + 2) in
    file_ok V x /\ x.(i_type) = T_FILE /\ x.(i_nlink) = 1 /\ x.(i_size) = Z.of_nat (length (concat f.2)) /\
    forall k, 0 <= k < x.(i_size) -> fbyte V x k = bytes_of (concat f.2) k;
  mo_root : dir_ok V root <-> (n + 2) mod 64 <> 0;
  mo_entry : forall j e, root_entries files !! j = Some e ->
    dir_hit V root (bytes_of e.2) (16 * Z.of_nat j) /\ de_inum (dirent_at V root (16 * Z.of_nat j)) = e.1;
  mo_free : (n + 2) mod 64 <> 0 -> forall j, n + 2 <= j -> 16 * j < root.(i_size) -> de_inum (dirent_at V root (16 * j)) = 0;
}.

Section mounted.
Context (V : Z -> bytes) (files : list (list Z * list (list Z))) (x0 : inode).
Context (Him : image V (tree files)) (Hfit : fits (tree files)) (Hdev : x0.(i_dev) = ROOTDEV).
Let root := inode_at V ROOTINO x0.
Let n := Z.of_nat (length files).

Lemma root_length : Z.of_nat (length (dents (root_entries files))) = 16 * (n + 2).
Proof. rewrite dents_length. cbn [root_entries length]. rewrite entries_length. unfold n. lia. Qed.

Lemma tree_number : n + 1 < NINODES.
Proof. destruct Hfit as [Hn _]. unfold tree in Hn. cbn [length] in Hn. rewrite length_map in Hn. unfold n. lia. Qed.

Lemma root_nb : 16 * (n + 2) <= nb (16 * (n + 2)) * BSIZE /\
  ((n + 2) mod 64 <> 0 -> root.(i_size) = nb (16 * (n + 2)) * BSIZE).
Proof.
  destruct (view_inode V (tree files) Him 0 _ x0 eq_refl) as (_ & _ & E3 & _). change (Z.of_nat 0 + 1) with ROOTINO in E3. fold root in E3.
  rewrite decide_True in E3 by done. cbn [snd] in E3. rewrite root_length in E3. rewrite E3.
  assert (BSIZE = 1024) as HB by done. assert (0 <= n) as Hn by (unfold n; lia).
  destruct (nb_spec (16 * (n + 2)) (nb (16 * (n + 2))) ltac:(lia)) as [H _]. specialize (H eq_refl). split; [lia|]. intros Hm.
  unfold rounded. f_equal. symmetry. apply nb_spec; [lia|]. pose proof (Z.div_mod (n + 2) 64 ltac:(lia)) as Hd.
  pose proof (Z.mod_pos_bound (n + 2) 64 ltac:(lia)). replace (16 * (n + 2) / BSIZE) with ((n + 2) / 64); [lia|].
  rewrite HB. replace 1024 with (16 * 64) by lia. by rewrite Z.div_mul_cancel_l.
Qed.

Lemma mounted_entry j e : root_entries files !! j = Some e ->
  dir_hit V root (bytes_of e.2) (16 * Z.of_nat j) /\ de_inum (dirent_at V root (16 * Z.of_nat j)) = e.1.
Proof.
  intros Hj. pose proof tree_number as Hn. destruct (root_entry_inum files j e) as [I1 I2]; [unfold n in Hn; lia|done|].
  pose proof (lookup_lt_Some _ _ _ Hj) as Hlt. pose proof root_nb as [Hnb _].
  assert (forall k, 0 <= k < 16 -> dirent_at V root (16 * Z.of_nat j) k = mk_dirent e.1 e.2 k) as He.
  { intros k Hk. rewrite <- (dents_lookup _ _ _ k Hj Hk). apply (view_dirent V (tree files) Him); [done|lia| |done].
    rewrite root_length. unfold root_entries in Hlt. cbn [length] in Hlt. rewrite entries_length in Hlt. unfold n in *. lia. }
  destruct (mk_dirent_spec e.1 e.2) as [D1 D2]; [lia|].
  assert (de_inum (dirent_at V root (16 * Z.of_nat j)) = e.1) as Hi.
  { etransitivity; [|exact D1]. apply load_ext. intros k Hk. apply He. change (Z.of_nat 2) with 2 in Hk. lia. }
  split; [|exact Hi]. split; [lia|]. intros i Hr Hne. rewrite He by (change DIRSIZ with 14 in *; lia). by apply D2.
Qed.

Lemma mounted_free : (n + 2) mod 64 <> 0 -> forall j, n + 2 <= j -> 16 * j < root.(i_size) -> de_inum (dirent_at V root (16 * j)) = 0.
Proof.
  intros Hm j Hj Hs. pose proof root_nb as [_ Hnb]. rewrite Hnb in Hs by done. change BSIZE with 1024 in Hs. assert (0 <= n) as Hn by (unfold n; lia).
  transitivity (de_inum (fun _ => 0)); [|done]. apply load_ext. intros k Hk. change (Z.of_nat 2) with 2 in Hk.
  unfold root. rewrite (view_dirent V (tree files) Him (dents (root_entries files))) by (try done; rewrite ?root_length; change BSIZE with 1024; lia).
  apply bytes_of_beyond. rewrite root_length. lia.
Qed.

Lemma mounted_blocks i j bn bn' (ip := fun inum => inode_at V inum x0) :
  0 < i <= n + 1 -> 0 < j <= n + 1 -> 0 <= bn < MAXFILE -> 0 <= bn' < MAXFILE -> faddr V (ip i) bn <> 0 ->
  nmeta <= faddr V (ip i) bn < nmeta + total (tree files) /\ (faddr V (ip i) bn = faddr V (ip j) bn' -> i = j /\ bn = bn').
Proof.
  intros Hi Hj Hb Hb'. assert (exists i', i = Z.of_nat i' + 1) as [i' ->] by (exists (Z.to_nat (i - 1)); lia).
  assert (exists j', j = Z.of_nat j' + 1) as [j' ->] by (exists (Z.to_nat (j - 1)); lia).
  assert (forall k, Z.of_nat k + 1 <= n + 1 -> (k < length (tree files))%nat) as Hl.
  { intros k Hk. unfold tree. cbn [length]. rewrite length_map. unfold n in Hk. lia. }
  unfold ip. rewrite !faddr_slot by done. intros H0. destruct Him as [[F1 F2 _ _ _ _ _] _ _]. split.
  - apply F1; [apply Hl; lia|lia|done].
  - intros E. destruct (F2 i' j' bn bn') as [-> ->]; try done; [apply Hl; lia|apply Hl; lia|lia|lia].
Qed.

Lemma mounted_bitmap b : 0 <= b < FSSIZE -> in_use V mk_sb b = (b <? nmeta + total (tree files)).
Proof.
  intros Hb. assert (FSSIZE = 2000) as HFS by done. assert (nmeta = 46) as Hnm by done. pose proof (total_nonneg (tree files)).
  unfold in_use, BBLOCK. change BPB with 8192. change (sb_bmapstart mk_sb) with 45. rewrite Z.div_small, Z.mod_small by lia.
  change (u32 (0 + 45)) with 45. rewrite (im_map _ _ Him). apply used_bits_spec; lia.
Qed.

Lemma mounted_file i f (x := inode_at V (Z.of_nat i + 2) x0) : files !! i = Some f ->
  file_ok V x /\ x.(i_type) = T_FILE /\ x.(i_nlink) = 1 /\ x.(i_size) = Z.of_nat (length (concat f.2)) /\
  forall k, 0 <= k < x.(i_size) -> fbyte V x k = bytes_of (concat f.2) k.
Proof.
  intros Hi. assert (tree files !! S i = Some (file_of f)) as Ht by (unfold tree; rewrite lookup_cons, list_lookup_fmap, Hi; done).
  unfold x. replace (Z.of_nat i + 2) with (Z.of_nat (S i) + 1) by lia.
  destruct (view_inode V _ Him _ _ x0 Ht) as (-> & -> & -> & _). rewrite decide_False by done.
  split; [by eapply view_file|]. repeat split. intros k Hk. apply (view_byte V _ Him _ _ x0 k Ht).
  change (length (file_of f).2) with (length (concat f.2)) in *. assert (BSIZE = 1024) as HB by done.
  destruct (nb_spec (Z.of_nat (length (concat f.2))) (nb (Z.of_nat (length (concat f.2)))) ltac:(lia)) as [H _]. specialize (H eq_refl). lia.
Qed.

Lemma mounted_root : (forall z, byte_data (V z)) -> dir_ok V root <-> (n + 2) mod 64 <> 0.
Proof.
  intros Hbytes. pose proof tree_number as Hn. change NINODES with 200 in Hn. pose proof root_length as Hr.
  destruct (view_inode V _ Him 0 _ x0 eq_refl) as (E1 & _ & E3 & _). change (Z.of_nat 0 + 1) with ROOTINO in *. fold root in E1, E3.
  assert (file_ok V root <-> (n + 2) mod 64 <> 0) as <-.
  { unfold root. rewrite (view_root V _ Him _ x0 eq_refl Hdev) by (rewrite Hr; change BSIZE with 1024; lia). rewrite Hr.
    change BSIZE with (16 * 64). rewrite Z.mul_mod_distr_l by done. lia. }
  split; [intros []; done|]. intros Hf. split; [done|done| |done]. rewrite E3, decide_True by done. unfold rounded.
  change BSIZE with (64 * 16). change sizeof_dirent with 16. rewrite Z.mul_assoc. by apply Z_mod_mult.
Qed.
End mounted.

(** C34: mkfs builds the image of a file system.  If the files fit into it (inodes,
    blocks, file sizes) and no name contains a slash, then mkfs succeeds, and reading the
    image with the kernel's definitions gives the superblock of mkfs, an empty log, a
    bitmap of exactly the blocks in use, no block in two files, each file under its inode
    with the contents given, and a root directory in which [dirlookup] finds every file
    under its short name.  The root directory is well-formed unless its entries exactly
    fill its blocks: then its size covers a block that was never allocated. *)
Theorem mkfs_correct files x0 :
  Forall (fun f => 47 ∉ shortname f.1) files -> byte_files files -> fits (tree files) -> x0.(i_dev) = ROOTDEV ->
  exists s', mkfs (map openable files) mk_start = KOk tt s' /\ mounted s'.(img) files x0.
Proof.
  intros Hn Hb Hf Hd. destruct (mkfs_image files Hn Hf) as (s' & E & Him & Hsb & Hlow).
  pose proof (clean_mkfs files Hb mk_start (fun _ => zero_bytes)) as Hk. rewrite E in Hk. destruct Hk as [_ Hbytes].
  exists s'. split; [exact E|]. split.
  - rewrite Hsb. reflexivity.
  - change nlog with 30. intros b off Hr. apply Hlow; lia.
  - by apply mounted_bitmap.
  - by apply mounted_blocks.
  - by apply mounted_file.
  - by apply mounted_root.
  - by apply mounted_entry.
  - by apply mounted_free.
Qed.

(** A program of 3 bytes and a text of 2000, in pieces as [read] returns them. *)
Definition demo_files : list (list Z * list (list Z)) :=
  [(chars "user/_cat", [[1; 2; 3]]); (chars "README", [replicate 1024 65; replicate 976 66])].

Lemma mkfs_correct_witness : exists s', mkfs (map openable demo_files) mk_start = KOk tt s' /\ mounted s'.(img) demo_files (Inode ROOTDEV 0 0 sleeplock0 0 0 0 0 0 0 (fun _ => 0)).
Proof.
  apply mkfs_correct.
  - apply (bool_decide_unpack _). vm_compute. exact I.
  - unfold byte_files, is_bytes. apply (bool_decide_unpack _). vm_compute. exact I.
  - split; [reflexivity|]. split; [|vm_compute; discriminate]. apply (bool_decide_unpack _). vm_compute. exact I.
  - reflexivity.
Defined.
