(* ===== verification/Pipe.v ===== *)
(** * Pipes (kernel/pipe.c)

    The fields of the pipe at page address [pi] are [pipes pi], a record beside the bytes
    of the page: nothing else reads or writes a page while it is a pipe, and [kfree] fills
    it with junk as memory.  [pipealloc] is in
    the file that models file.c, whose functions it calls. *)
From S2P Require Export Sleeplock.

Definition PIPESIZE : Z := 512.

Definition pi_get {A} (pi : Z) (f : pipe -> A) : M A := getd (fun d => f (d.(pipes) pi)).
Definition pi_set (pi : Z) (f : pipe -> pipe) : M unit := modd (upd_pipe pi f).

Section pipe.
Context `{KI : KernelImage} `{WF : WaitFuel}.

Definition pipeclose (pi writable : Z) : M unit :=
  acquire (pipe_lock pi);;
  (if ctrue writable then
     pi_set pi (fun x => x <| pi_writeopen := 0 |>);;
     wakeup (Some (chan_nread pi))
   else
     pi_set pi (fun x => x <| pi_readopen := 0 |>);;
     wakeup (Some (chan_nwrite pi)));;
  x ← pi_get pi id;
  if (x.(pi_readopen) =? 0) && (x.(pi_writeopen) =? 0)
  then release (pipe_lock pi);; kfree pi
  else release (pipe_lock pi).

(** The rounds of the loop of [pipewrite] in which the pipe is full.  [None]: the
    pipe has no reader or the process was killed. *)
Fixpoint pipewrite_wait (fuel : nat) (pi : Z) (pr : nat) : M (option unit) :=
  readopen ← pi_get pi pi_readopen;
  stop ← (if readopen =? 0 then mret true else k ← killed pr; mret (ctrue k));
  if stop : bool then mret None else
  x ← pi_get pi id;
  if x.(pi_nwrite) =? u32 (x.(pi_nread) + PIPESIZE) then
    wakeup (Some (chan_nread pi));;
    sleep (chan_nwrite pi) (pipe_lock pi);;
    match fuel with
    | O => diverge
    | S fuel => pipewrite_wait fuel pi pr
    end
  else mret (Some tt).

(** Store one byte at the write end, take one at the read end. *)
Definition pipe_put (ch : Z) (x : pipe) : pipe :=
  x <| pi_data ::= <[x.(pi_nwrite) mod PIPESIZE := ch]> |>
    <| pi_nwrite ::= fun n => u32 (n + 1) |>.
Definition pipe_head (x : pipe) : Z := x.(pi_data) (x.(pi_nread) mod PIPESIZE).
Definition pipe_take (x : pipe) : pipe := x <| pi_nread ::= fun n => u32 (n + 1) |>.

(** [m] bytes are left to write.  [None]: return -1 at once. *)
Fixpoint pipewrite_loop (m : nat) (pi : Z) (pr : nat) (addr i : Z) : M (option Z) :=
  match m with
  | O => mret (Some i)
  | S m =>
      w ← pipewrite_wait wait_fuel pi pr;
      match w with
      | None => mret None
      | Some _ =>
          pt ← p_get pr p_pagetable;
          r ← copyin pt (fun _ => 0) 0 (u64 (addr + i)) 1;
          if r.1 =? -1 then mret (Some i) else
          pi_set pi (pipe_put (r.2 0));;
          pipewrite_loop m pi pr addr (i + 1)
      end
  end.

Definition pipewrite (pi addr n : Z) : M Z :=
  pr ← myproc;
  acquire (pipe_lock pi);;
  pr ← deref pr;
  r ← pipewrite_loop (Z.to_nat n) pi pr addr 0;
  match r with
  | None => release (pipe_lock pi);; mret (-1)
  | Some i =>
      wakeup (Some (chan_nread pi));;
      release (pipe_lock pi);;
      mret i
  end.

(** Wait until the pipe is not empty or has no writer.  [None]: killed. *)
Fixpoint piperead_wait (fuel : nat) (pi : Z) (pr : nat) : M (option unit) :=
  x ← pi_get pi id;
  if (x.(pi_nread) =? x.(pi_nwrite)) && ctrue x.(pi_writeopen) then
    k ← killed pr;
    if ctrue k then mret None else
    sleep (chan_nread pi) (pipe_lock pi);;
    match fuel with
    | O => diverge
    | S fuel => piperead_wait fuel pi pr
    end
  else mret (Some tt).

Fixpoint piperead_loop (m : nat) (pi : Z) (pr : nat) (addr i : Z) : M Z :=
  match m with
  | O => mret i
  | S m =>
      x ← pi_get pi id;
      if x.(pi_nread) =? x.(pi_nwrite) then mret i else
      let ch := pipe_head x in
      pi_set pi pipe_take;;
      pt ← p_get pr p_pagetable;
      r ← copyout pt (u64 (addr + i)) (fun _ => ch) 0 1;
      if r =? -1 then mret i else
      piperead_loop m pi pr addr (i + 1)
  end.

Definition piperead (pi addr n : Z) : M Z :=
  pr ← myproc;
  acquire (pipe_lock pi);;
  pr ← deref pr;
  w ← piperead_wait wait_fuel pi pr;
  match w with
  | None => release (pipe_lock pi);; mret (-1)
  | Some _ =>
      i ← piperead_loop (Z.to_nat n) pi pr addr 0;
      wakeup (Some (chan_nwrite pi));;
      release (pipe_lock pi);;
      mret i
  end.
End pipe.
