(* ===== verification/PipeSpec.v ===== *)
(** * What kernel/pipe.c guarantees

    A pipe is a bounded queue of bytes.  The two wrapping counters and the ring buffer
    implement it: the queue holds the bytes between the read and the write counter. *)
From S2P Require Export VmSpec FsDemo Pipe.

Definition pbytes (x : pipe) : Z := u32 (x.(pi_nwrite) - x.(pi_nread)).

Record pipe_ok (x : pipe) : Prop := {
  pk_nread : 0 <= x.(pi_nread) < 2 ^ 32;
  pk_nwrite : 0 <= x.(pi_nwrite) < 2 ^ 32;
  pk_bytes : pbytes x <= PIPESIZE;
}.

(** The contents of the pipe, oldest byte first. *)
Definition pqueue (x : pipe) : list Z :=
  (fun i => x.(pi_data) ((x.(pi_nread) + i) mod PIPESIZE)) <$> seqZ 0 (pbytes x).

(** The ring buffer has a size that divides the range of the counters. *)
Lemma u32_mod_pipe a i : (u32 a + i) mod PIPESIZE = (a + i) mod PIPESIZE.
Proof.
  unfold u32. rewrite <- (Zplus_mod_idemp_l (a mod 2 ^ 32)). change (2 ^ 32) with (PIPESIZE * 8388608).
  rewrite Z.rem_mul_r by done. rewrite Z.mul_comm, Z.mod_add, Z.mod_mod by done.
  by rewrite Zplus_mod_idemp_l.
Qed.

Lemma pbytes_bound x : 0 <= pbytes x < 2 ^ 32.
Proof. apply u32_bound. Qed.

Lemma pqueue_length x : Z.of_nat (length (pqueue x)) = pbytes x.
Proof. unfold pqueue. rewrite length_fmap, length_seqZ, Z2Nat.id; [done|]. apply pbytes_bound. Qed.

Lemma pipe_full x : pipe_ok x ->
  (x.(pi_nwrite) =? u32 (x.(pi_nread) + PIPESIZE)) = (pbytes x =? PIPESIZE).
Proof.
  intros [H1 H2 _]. apply Bool.eq_iff_eq_true. rewrite !Z.eqb_eq. unfold pbytes, u32.
  change PIPESIZE with 512. Z.div_mod_to_equations. lia.
Qed.

Lemma pipe_empty x : pipe_ok x -> (x.(pi_nread) =? x.(pi_nwrite)) = (pbytes x =? 0).
Proof.
  intros [H1 H2 _]. apply Bool.eq_iff_eq_true. rewrite !Z.eqb_eq. unfold pbytes, u32.
  Z.div_mod_to_equations. lia.
Qed.

Lemma pipe_put_bytes ch x : pipe_ok x -> pbytes x < PIPESIZE -> pbytes (pipe_put ch x) = pbytes x + 1.
Proof.
  intros [H1 H2 _] Hb. unfold pbytes, pipe_put in *. cbn. unfold u32 in *. change PIPESIZE with 512 in Hb.
  Z.div_mod_to_equations. lia.
Qed.

Lemma nwrite_slot x : pipe_ok x -> x.(pi_nwrite) mod PIPESIZE = (x.(pi_nread) + pbytes x) mod PIPESIZE.
Proof.
  intros [H1 H2 _]. rewrite Z.add_comm. unfold pbytes. rewrite u32_mod_pipe. f_equal. lia.
Qed.

Lemma slot_ne x i : 0 <= i < pbytes x -> pbytes x < PIPESIZE ->
  (x.(pi_nread) + pbytes x) mod PIPESIZE <> (x.(pi_nread) + i) mod PIPESIZE.
Proof. intros Hi Hb. change PIPESIZE with 512 in *. Z.div_mod_to_equations. lia. Qed.

Lemma pipe_put_queue ch x :
  pipe_ok x -> pbytes x < PIPESIZE ->
  pipe_ok (pipe_put ch x) /\ pqueue (pipe_put ch x) = pqueue x ++ [ch].
Proof.
  intros Hok Hb. pose proof (pipe_put_bytes ch x Hok Hb) as E. pose proof (pbytes_bound x) as B.
  pose proof (nwrite_slot x Hok) as Hs. split.
  - split; [apply Hok|apply u32_bound|lia].
  - unfold pqueue. rewrite E, seqZ_app, fmap_app, Z.add_0_l by lia. cbn. rewrite Hs. f_equal.
    + apply list_fmap_ext. intros k i Hk%lookup_seqZ. apply fn_lookup_insert_ne, slot_ne; lia.
    + change (seqZ (pbytes x) 1) with [0 + pbytes x]. cbn. by rewrite fn_lookup_insert.
Qed.

Lemma pipe_take_queue x :
  pipe_ok x -> 0 < pbytes x ->
  pipe_ok (pipe_take x) /\ pqueue x = pipe_head x :: pqueue (pipe_take x).
Proof.
  intros Hok Hb. pose proof (pbytes_bound x) as B. destruct Hok as [H1 H2 H3].
  assert (pbytes (pipe_take x) = pbytes x - 1) as E.
  { unfold pbytes, pipe_take in *. cbn. unfold u32 in *. Z.div_mod_to_equations. lia. }
  split.
  - split; [apply u32_bound|done|lia].
  - unfold pqueue. rewrite seqZ_cons by lia. cbn [fmap list_fmap]. rewrite E. f_equal.
    + unfold pipe_head. by rewrite Z.add_0_r.
    + rewrite Z.sub_1_r. change (Z.succ 0) with (1 + 0). rewrite <- fmap_add_seqZ, <- list_fmap_compose. apply list_fmap_ext. intros k i _. cbn.
      rewrite u32_mod_pipe. f_equal. f_equal. lia.
Qed.

Section pipe.
Context `{KI : KernelImage} {KIok : KernelImageOk} `{WF : WaitFuel}.
Context (l0 : lockst) (L : list lockptr).

(** ** Moving one byte *)

Lemma ev_copyout1 root va ch d own fl :
  uown d.(mem) root own fl -> 0 <= va -> va + 1 <= 2 ^ 63 ->
  exists m, uown m root own fl /\ (forall a, uaddr m root a = uaddr d.(mem) root a) /\
    match uaddr d.(mem) root va with
    | Some x => evals l0 L d (copyout root va (fun _ => ch) 0 1) 0 L (d <| mem := m |>) /\
        (forall y, m y = if decide (y = x) then ch else d.(mem) y)
    | None => evals l0 L d (copyout root va (fun _ => ch) 0 1) (-1) L (d <| mem := m |>) /\
        (forall y, m y = d.(mem) y)
    end.
Proof.
  intros Hu H0 H1. destruct (ev_copyout_loop l0 L (Z.to_nat 1) root va (fun _ => ch) 0 1 d own fl)
    as (r & m & k & Hev & Hu' & Ha & Hk & Hin & Hout & Hr); [done|done|done|lia|].
  exists m. split; [done|]. split; [done|]. destruct Hr as [[-> ->]|(-> & Hk1 & Hn)].
  - specialize (Hin 0 ltac:(lia)). rewrite Z.add_0_r in Hin. unfold vread in Hin. rewrite Ha in Hin.
    destruct (uaddr d.(mem) root va) as [x|] eqn:E; [|done]. split; [exact Hev|].
    intros y. case_decide as Hy; [subst; by injection Hin|]. apply Hout. intros i Hi.
    replace (va + i) with va by lia. rewrite E. congruence.
  - replace k with 0 in * by lia. rewrite Z.add_0_r in Hn. rewrite Hn. split; [exact Hev|].
    intros y. apply Hout. intros. lia.
Qed.

Lemma ev_copyin1 root va d own fl :
  uown d.(mem) root own fl -> 0 <= va -> va + 1 <= 2 ^ 63 ->
  exists m, evals l0 L d (copyin root (fun _ => 0) 0 va 1)
      (if vread d.(mem) root va then 0 else -1, m) L d /\
    forall ch, vread d.(mem) root va = Some ch -> m 0 = ch.
Proof.
  intros Hu H0 H1.
  destruct (ev_copyin_loop l0 L (Z.to_nat 1) root (fun _ => 0) 0 va 1 d fl)
    as (r & m & k & Hev & Hk & Hin & _ & Hr); [apply Hu| |done|done|lia|].
  { intros a p Hva Hal Hp. destruct (uown_upage _ _ _ _ _ _ Hu Hva Hal Hp) as [Hok _].
    apply page_ok_pos in Hok. lia. }
  exists m. destruct Hr as [[-> ->]|(-> & Hk1 & Hn)].
  - specialize (Hin 0 ltac:(lia)). rewrite Z.add_0_r in Hin. rewrite Hin. split; [exact Hev|]. by intros ch [= <-].
  - replace k with 0 in * by lia. rewrite Z.add_0_r in Hn. rewrite Hn. split; [exact Hev|done].
Qed.

(** ** The loops

    Only the pipe [pi] and the memory of the user change; the address space is the
    same. *)
Section loops.
Context (pi root : Z) (own : Z -> Prop) (fl : list Z).

Record moved (d d' : kdata) : Prop := {
  mv_other : forall pj, pj <> pi -> d'.(pipes) pj = d.(pipes) pj;
  mv_rest : d' = d <| mem := d'.(mem) |> <| pipes := d'.(pipes) |>;
  mv_open : (d'.(pipes) pi).(pi_readopen) = (d.(pipes) pi).(pi_readopen) /\
    (d'.(pipes) pi).(pi_writeopen) = (d.(pipes) pi).(pi_writeopen);
  mv_uown : uown d'.(mem) root own fl;
  mv_uaddr : forall a, uaddr d'.(mem) root a = uaddr d.(mem) root a;
  mv_ok : pipe_ok (d'.(pipes) pi);
}.

Lemma moved_refl d : uown d.(mem) root own fl -> pipe_ok (d.(pipes) pi) -> moved d d.
Proof. intros. split; try done. by destruct d. Qed.

Lemma moved_trans d1 d2 d3 : moved d1 d2 -> moved d2 d3 -> moved d1 d3.
Proof.
  intros [O1 R1 [A1 B1] _ V1 _] [O2 R2 [A2 B2] U2 V2 K2]. split; try done.
  - intros pj Hj. by rewrite O2, O1.
  - rewrite R2, R1. by destruct d1.
  - split; congruence.
  - intros a. by rewrite V2.
Qed.

Lemma moved_set d m f :
  pipe_ok (f (d.(pipes) pi)) -> (f (d.(pipes) pi)).(pi_readopen) = (d.(pipes) pi).(pi_readopen) ->
  (f (d.(pipes) pi)).(pi_writeopen) = (d.(pipes) pi).(pi_writeopen) ->
  uown m root own fl -> (forall a, uaddr m root a = uaddr d.(mem) root a) ->
  moved d (upd_pipe pi f d <| mem := m |>).
Proof.
  intros Hok E1 E2 Hu Ha. split; cbn; rewrite ?fn_lookup_alter; try done.
  - intros pj Hj. by apply fn_lookup_alter_ne.
Qed.

Lemma moved_pagetable d d' p : moved d d' -> (d'.(procs) p).(p_pagetable) = (d.(procs) p).(p_pagetable).
Proof. intros H. by rewrite (mv_rest _ _ H). Qed.

(** [k] bytes of [q] have been read to the user addresses from [va] on; [n] were
    asked for.  A byte that could not be stored is lost. *)
Record read_effect (n : nat) (va : Z) (d : kdata) (k : nat) (d' : kdata) : Prop := {
  re_moved : moved d d';
  re_bytes : forall j, (j < k)%nat ->
    vread d'.(mem) root (va + Z.of_nat j) = pqueue (d.(pipes) pi) !! j;
  re_frame : forall x, (forall j, (j < k)%nat -> uaddr d.(mem) root (va + Z.of_nat j) <> Some x) ->
    d'.(mem) x = d.(mem) x;
  re_queue : let q := pqueue (d.(pipes) pi) in let q' := pqueue (d'.(pipes) pi) in
    (k = Nat.min n (length q) /\ q' = drop k q) \/
    ((k < Nat.min n (length q))%nat /\ uaddr d.(mem) root (va + Z.of_nat k) = None /\ q' = drop (S k) q);
}.

Lemma pqueue_nil x : pbytes x = 0 -> pqueue x = [].
Proof. intros E. unfold pqueue. by rewrite E. Qed.

Lemma read_effect_step n va d ch q1 x m k d' :
  uown d.(mem) root own fl -> pqueue (d.(pipes) pi) = ch :: q1 -> 0 <= va ->
  let d1 := upd_pipe pi pipe_take d <| mem := m |> in
  pqueue (d1.(pipes) pi) = q1 -> moved d d1 -> uaddr d.(mem) root va = Some x ->
  (forall y, m y = if decide (y = x) then ch else d.(mem) y) ->
  read_effect n (va + 1) d1 k d' -> read_effect (S n) va d (S k) d'.
Proof.
  intros Hu Eq H0 d1 Eq1 Hm Ex Em [M B F Q].
  assert (forall a, uaddr d1.(mem) root a = uaddr d.(mem) root a) as Ha by apply Hm.
  assert (forall j, va + Z.of_nat (S j) = va + 1 + Z.of_nat j) as Ej by lia.
  split.
  - by eapply moved_trans.
  - intros [|j] Hj; rewrite Eq; cbn.
    + rewrite Z.add_0_r. unfold vread. rewrite (mv_uaddr _ _ M), Ha, Ex. cbn. rewrite F.
      * cbn. rewrite Em. by case_decide.
      * intros j Hj'. rewrite Ha. intros E. enough (va = va + 1 + Z.of_nat j) by lia.
        eapply uaddr_inj; [exact Hu|lia|lia|done|done].
    + rewrite Ej, B by lia. by rewrite Eq1.
  - intros y Hy. rewrite F.
    + cbn. rewrite Em. case_decide as E; [|done]. destruct (Hy 0%nat); [lia|]. by rewrite Z.add_0_r, E.
    + intros j Hj. rewrite Ha, <- Ej. apply Hy. lia.
  - rewrite Eq. rewrite Eq1 in Q. cbn in *. destruct Q as [[-> ->]|(Hk & Hn & ->)]; [by left|right].
    split; [lia|]. split; [|done]. change (Z.pos (Pos.of_succ_nat k)) with (Z.of_nat (S k)).
    by rewrite Ej, <- Ha.
Qed.

Lemma ev_piperead_loop p addr n i d :
  (d.(procs) p).(p_pagetable) = root -> uown d.(mem) root own fl -> pipe_ok (d.(pipes) pi) ->
  0 <= addr -> 0 <= i -> addr + i + Z.of_nat n <= 2 ^ 63 ->
  exists k d', evals l0 L d (piperead_loop n pi p addr i) (i + Z.of_nat k) L d' /\
    read_effect n (addr + i) d k d'.
Proof.
  revert i d. induction n as [|n IH]; intros i d Hpt Hu Hok Ha Hi Hmax; cbn [piperead_loop].
  { exists 0%nat, d. rewrite Z.add_0_r. split; [apply ev_ret|]. split; try done; [by apply moved_refl| |].
    - intros; lia.
    - by left. }
  pose proof (pbytes_bound (d.(pipes) pi)) as Hb.
  destruct (decide (pbytes (d.(pipes) pi) = 0)) as [E|N].
  { exists 0%nat, d. rewrite Z.add_0_r. split.
    - ev1; [apply ev_getd|]. cbn beta. unfold id. rewrite pipe_empty, E, Z.eqb_refl by done. ev1.
    - split; [by apply moved_refl|intros; lia|done|]. left. by rewrite pqueue_nil. }
  destruct (pipe_take_queue _ Hok ltac:(lia)) as [Hok1 Eq].
  destruct (ev_copyout1 root (addr + i) (pipe_head (d.(pipes) pi)) (upd_pipe pi pipe_take d) own fl)
    as (m & Hu1 & Ha1 & Hc); [done|lia|lia|].
  change (mem (upd_pipe pi pipe_take d)) with (mem d) in Ha1, Hc.
  assert (moved d (upd_pipe pi pipe_take d <| mem := m |>)) as Hm by by apply moved_set.
  assert (pqueue ((upd_pipe pi pipe_take d).(pipes) pi) = pqueue (pipe_take (d.(pipes) pi))) as Eq1.
  { cbn. by rewrite fn_lookup_alter. }
  destruct (uaddr d.(mem) root (addr + i)) as [x|] eqn:Ex; destruct Hc as [Hev Hmem].
  - destruct (IH (i + 1) (upd_pipe pi pipe_take d <| mem := m |>)) as (k & d' & Hl & Hr);
      [done|done|by apply Hm|lia|lia|lia|].
    exists (S k), d'. split.
    + ev1; [apply ev_getd|]. cbn beta. unfold id. rewrite pipe_empty by done.
      rewrite (proj2 (Z.eqb_neq _ _) N). ev1; [apply ev_modd|]. cbn beta. ev1; [apply ev_p_get|]. cbn.
      rewrite Hpt, u64_small by lia. ev1; [exact Hev|]. cbn beta.
      change (0 =? -1) with false. replace (i + Z.of_nat (S k)) with (i + 1 + Z.of_nat k) by lia. exact Hl.
    + rewrite Z.add_assoc in Hr. eapply read_effect_step; try done. lia.
  - exists 0%nat, (upd_pipe pi pipe_take d <| mem := m |>). split.
    + ev1; [apply ev_getd|]. cbn beta. unfold id. rewrite pipe_empty by done.
      rewrite (proj2 (Z.eqb_neq _ _) N). ev1; [apply ev_modd|]. cbn beta. ev1; [apply ev_p_get|]. cbn.
      rewrite Hpt, u64_small by lia. ev1; [exact Hev|]. change (-1 =? -1) with true. rewrite Z.add_0_r. ev1.
    + split; [done|intros; lia|done|]. right. rewrite Eq. cbn [length]. split; [lia|].
      split; [by rewrite Z.add_0_r|]. cbn. by rewrite fn_lookup_alter.
Qed.

(** [bs] is what the user memory holds from [va] on; it ends early only at an
    address that is not mapped. *)
Record write_effect (n : nat) (va : Z) (d : kdata) (bs : list Z) (d' : kdata) : Prop := {
  we_moved : moved d d';
  we_mem : d'.(mem) = d.(mem);
  we_bytes : forall j, (j < length bs)%nat -> vread d.(mem) root (va + Z.of_nat j) = bs !! j;
  we_end : length bs = n \/
    (length bs < n)%nat /\ vread d.(mem) root (va + Z.of_nat (length bs)) = None;
  we_queue : pqueue (d'.(pipes) pi) = pqueue (d.(pipes) pi) ++ bs;
}.

Lemma ev_killed L' d p :
  p_lock p ∉ L' -> lfree l0 (p_lock p) -> evals l0 L' d (killed p) (d.(procs) p).(p_killed) L' d.
Proof. intros. unfold killed. ev1. { ev1. } cbn beta. ev1. { apply ev_p_get. } cbn beta. ev1. { ev1. } ev1. Qed.

(** A round of [pipewrite] in which there is a reader and room. *)
Lemma ev_pipewrite_wait p d fuel :
  p_lock p ∉ L -> lfree l0 (p_lock p) -> pipe_ok (d.(pipes) pi) ->
  (d.(pipes) pi).(pi_readopen) <> 0 -> (d.(procs) p).(p_killed) = 0 -> pbytes (d.(pipes) pi) < PIPESIZE ->
  evals l0 L d (pipewrite_wait fuel pi p) (Some tt) L d.
Proof.
  intros Hp1 Hp2 Hok Hro Hk Hb.
  destruct fuel; cbn [pipewrite_wait]; (ev1; [apply ev_getd|]); cbn beta;
    rewrite (proj2 (Z.eqb_neq _ _) Hro); (ev1; [ev1; [by apply ev_killed|]; cbn beta; ev1|]); cbn beta;
    rewrite Hk; change (ctrue 0) with false; cbn iota; (ev1; [apply ev_getd|]); cbn beta; unfold id;
    rewrite pipe_full by done; rewrite (proj2 (Z.eqb_neq _ _)) by lia; ev1.
Qed.

(** The body of the loop of [pipewrite], with [fuel] for the wait. *)
Definition pw_rest (n : nat) (p : nat) (addr i : Z) (w : option unit) : M (option Z) :=
  match w with
  | None => mret None
  | Some _ =>
      pt ← p_get p p_pagetable;
      r ← copyin pt (fun _ => 0) 0 (u64 (addr + i)) 1;
      if r.1 =? -1 then mret (Some i) else
      pi_set pi (pipe_put (r.2 0));;
      pipewrite_loop n pi p addr (i + 1)
  end.
Definition pw_body (fuel n : nat) (p : nat) (addr i : Z) : M (option Z) :=
  pipewrite_wait fuel pi p ≫= pw_rest n p addr i.

(** One round with room: the byte is appended and the loop goes on, or its address is not
    mapped and the loop ends. *)
Lemma ev_pipewrite_iter fuel n p addr i d :
  p_lock p ∉ L -> lfree l0 (p_lock p) ->
  (d.(procs) p).(p_pagetable) = root -> (d.(procs) p).(p_killed) = 0 ->
  uown d.(mem) root own fl -> pipe_ok (d.(pipes) pi) -> (d.(pipes) pi).(pi_readopen) <> 0 ->
  pbytes (d.(pipes) pi) < PIPESIZE -> 0 <= addr + i -> addr + i < 2 ^ 63 ->
  match vread d.(mem) root (addr + i) with
  | None => evals l0 L d (pw_body fuel n p addr i) (Some i) L d
  | Some ch =>
      let d1 := upd_pipe pi (pipe_put ch) d in
      (forall r L2 d2, evals l0 L d1 (pipewrite_loop n pi p addr (i + 1)) r L2 d2 ->
         evals l0 L d (pw_body fuel n p addr i) r L2 d2) /\
      (forall L2 d2 P, evals_swtch l0 L d1 (pipewrite_loop n pi p addr (i + 1)) L2 d2 P ->
         evals_swtch l0 L d (pw_body fuel n p addr i) L2 d2 P)
  end.
Proof.
  intros Hp1 Hp2 Hpt Hk Hu Hok Hro Hb Ha Hmax.
  destruct (ev_copyin1 root (addr + i) d own fl) as (m & Hev & Hm); [done|lia|lia|].
  pose proof (ev_pipewrite_wait p d fuel Hp1 Hp2 Hok Hro Hk ltac:(lia)) as Hw.
  unfold pw_body, pw_rest. destruct (vread d.(mem) root (addr + i)) as [ch|].
  - rewrite <- (Hm ch eq_refl). split.
    + intros r L2 d2 H. ev1; [exact Hw|]. cbn beta iota. ev1; [apply ev_p_get|]. cbn beta.
      rewrite Hpt, u64_small by lia. ev1; [exact Hev|]. cbn beta. cbn [fst snd].
      change (0 =? -1) with false. ev1; [apply ev_modd|]. exact H.
    + intros L2 d2 P H. eapply ev_bind_swtch; [exact Hw|]. cbn beta iota. eapply ev_bind_swtch; [apply ev_p_get|]. cbn beta.
      rewrite Hpt, u64_small by lia. eapply ev_bind_swtch; [exact Hev|]. cbn beta. cbn [fst snd].
      change (0 =? -1) with false. eapply ev_bind_swtch; [apply ev_modd|]. exact H.
  - ev1; [exact Hw|]. cbn beta iota. ev1; [apply ev_p_get|]. cbn beta.
    rewrite Hpt, u64_small by lia. ev1; [exact Hev|]. cbn beta. cbn [fst snd].
    change (-1 =? -1) with true. ev1.
Qed.

Lemma write_effect_nil va d : uown d.(mem) root own fl -> pipe_ok (d.(pipes) pi) -> write_effect 0 va d [] d.
Proof. intros. split; [by apply moved_refl|done|cbn; lia|by left|by rewrite app_nil_r]. Qed.

(** A byte and the bytes after it. *)
Lemma write_effect_cons n va ch d bs d' (d1 := upd_pipe pi (pipe_put ch) d) :
  uown d.(mem) root own fl -> pipe_ok (d.(pipes) pi) -> pbytes (d.(pipes) pi) < PIPESIZE ->
  vread d.(mem) root va = Some ch -> write_effect n (va + 1) d1 bs d' -> write_effect (S n) va d (ch :: bs) d'.
Proof.
  intros Hu Hok Hb Ev [M1 M2 M3 M4 M5]. destruct (pipe_put_queue ch _ Hok Hb) as [Hok1 Eq].
  assert (d1.(pipes) pi = pipe_put ch (d.(pipes) pi)) as E1 by apply fn_lookup_alter.
  assert (forall j, va + Z.of_nat (S j) = va + 1 + Z.of_nat j) as Ej by lia.
  split; try done.
  - eapply moved_trans; [|exact M1]. assert (d1 = d1 <| mem := d.(mem) |>) as -> by (unfold d1; by destruct d).
    by apply moved_set.
  - intros [|j] Hj; [by rewrite Z.add_0_r|]. rewrite Ej. apply M3. cbn in Hj. lia.
  - cbn [length]. rewrite Ej. destruct M4 as [->|[? ?]]; [by left|right]. split; [lia|done].
  - rewrite M5, E1, Eq. by rewrite <- app_assoc.
Qed.

(** The first [a] rounds, with room for [a] bytes. *)
Lemma ev_pipewrite_prefix p addr a n i d :
  p_lock p ∉ L -> lfree l0 (p_lock p) ->
  (d.(procs) p).(p_pagetable) = root -> (d.(procs) p).(p_killed) = 0 ->
  uown d.(mem) root own fl -> pipe_ok (d.(pipes) pi) -> (d.(pipes) pi).(pi_readopen) <> 0 ->
  pbytes (d.(pipes) pi) + Z.of_nat a <= PIPESIZE ->
  0 <= addr -> 0 <= i -> addr + i + Z.of_nat a <= 2 ^ 63 ->
  exists bs d', write_effect a (addr + i) d bs d' /\
    ((length bs < a)%nat -> evals l0 L d (pipewrite_loop (a + n) pi p addr i) (Some (i + Z.of_nat (length bs))) L d') /\
    (length bs = a ->
     (forall r L2 d2, evals l0 L d' (pipewrite_loop n pi p addr (i + Z.of_nat a)) r L2 d2 ->
        evals l0 L d (pipewrite_loop (a + n) pi p addr i) r L2 d2) /\
     (forall L2 d2 P, evals_swtch l0 L d' (pipewrite_loop n pi p addr (i + Z.of_nat a)) L2 d2 P ->
        evals_swtch l0 L d (pipewrite_loop (a + n) pi p addr i) L2 d2 P)).
Proof.
  intros Hp1 Hp2. revert i d. induction a as [|a IH]; intros i d Hpt Hk Hu Hok Hro Hb Ha Hi Hmax.
  { exists [], d. change (Z.of_nat 0) with 0. rewrite Z.add_0_r. split; [by apply write_effect_nil|]. split; [cbn; lia|]. intros _. rewrite Z.add_0_r. by split. }
  pose proof (ev_pipewrite_iter wait_fuel (a + n) p addr i d Hp1 Hp2 Hpt Hk Hu Hok Hro ltac:(lia) ltac:(lia) ltac:(lia)) as Hit.
  change (pw_body wait_fuel (a + n) p addr i) with (pipewrite_loop (S a + n) pi p addr i) in Hit.
  destruct (vread d.(mem) root (addr + i)) as [ch|] eqn:Ev.
  - destruct Hit as [Hit1 Hit2]. destruct (pipe_put_queue ch _ Hok ltac:(lia)) as [Hok1 Eq].
    pose proof (pipe_put_bytes ch _ Hok ltac:(lia)) as Eb. set (d1 := upd_pipe pi (pipe_put ch) d) in *.
    assert (d1.(pipes) pi = pipe_put ch (d.(pipes) pi)) as E1 by apply fn_lookup_alter.
    destruct (IH (i + 1) d1) as (bs & d' & Heff & H1 & H2); rewrite ?E1; try done; try lia.
    exists (ch :: bs), d'. replace (addr + (i + 1)) with (addr + i + 1) in Heff by lia. split; [apply write_effect_cons; try done; lia|].
    cbn [length]. replace (i + 1 + Z.of_nat a) with (i + Z.of_nat (S a)) in H2 by lia. split.
    + intros Hlt. apply Hit1. replace (i + Z.of_nat (S (length bs))) with (i + 1 + Z.of_nat (length bs)) by lia. apply H1. lia.
    + intros [= Hl]. destruct (H2 Hl) as [H3 H4]. split; intros; [by apply Hit1, H3|by apply Hit2, H4].
  - exists [], d. rewrite Z.add_0_r. split; [|split; [intros _; exact Hit|done]].
    split; try done; [by apply moved_refl|cbn; lia| |by rewrite app_nil_r].
    right. cbn. split; [lia|]. by rewrite Z.add_0_r.
Qed.

Lemma ev_pipewrite_loop p addr n i d :
  p_lock p ∉ L -> lfree l0 (p_lock p) ->
  (d.(procs) p).(p_pagetable) = root -> (d.(procs) p).(p_killed) = 0 ->
  uown d.(mem) root own fl -> pipe_ok (d.(pipes) pi) -> (d.(pipes) pi).(pi_readopen) <> 0 ->
  pbytes (d.(pipes) pi) + Z.of_nat n <= PIPESIZE ->
  0 <= addr -> 0 <= i -> addr + i + Z.of_nat n <= 2 ^ 63 ->
  exists bs d', evals l0 L d (pipewrite_loop n pi p addr i) (Some (i + Z.of_nat (length bs))) L d' /\
    write_effect n (addr + i) d bs d'.
Proof.
  intros. destruct (ev_pipewrite_prefix p addr n 0 i d) as (bs & d' & Heff & H1' & H2'); try done.
  rewrite Nat.add_0_r in *. exists bs, d'. split; [|done].
  destruct (we_end _ _ _ _ _ Heff) as [E|[Hlt _]]; [|by apply H1'].
  destruct (H2' E) as [Hrun _]. apply Hrun. cbn [pipewrite_loop]. rewrite E. apply ev_ret.
Qed.

(** A body that starts with [fuel] left for the wait, with room for all that is left. *)
Lemma ev_pw_body fuel p addr n i d :
  p_lock p ∉ L -> lfree l0 (p_lock p) ->
  (d.(procs) p).(p_pagetable) = root -> (d.(procs) p).(p_killed) = 0 ->
  uown d.(mem) root own fl -> pipe_ok (d.(pipes) pi) -> (d.(pipes) pi).(pi_readopen) <> 0 ->
  pbytes (d.(pipes) pi) + Z.of_nat (S n) <= PIPESIZE ->
  0 <= addr -> 0 <= i -> addr + i + Z.of_nat (S n) <= 2 ^ 63 ->
  exists bs d', evals l0 L d (pw_body fuel n p addr i) (Some (i + Z.of_nat (length bs))) L d' /\
    write_effect (S n) (addr + i) d bs d'.
Proof.
  intros Hp1 Hp2 Hpt Hk Hu Hok Hro Hb Ha Hi Hmax.
  pose proof (ev_pipewrite_iter fuel n p addr i d Hp1 Hp2 Hpt Hk Hu Hok Hro ltac:(lia) ltac:(lia) ltac:(lia)) as Hit.
  destruct (vread d.(mem) root (addr + i)) as [ch|] eqn:Ev.
  - destruct Hit as [Hit1 _]. destruct (pipe_put_queue ch _ Hok ltac:(lia)) as [Hok1 Eq].
    pose proof (pipe_put_bytes ch _ Hok ltac:(lia)) as Eb. set (d1 := upd_pipe pi (pipe_put ch) d) in *.
    assert (d1.(pipes) pi = pipe_put ch (d.(pipes) pi)) as E1 by apply fn_lookup_alter.
    destruct (ev_pipewrite_loop p addr n (i + 1) d1) as (bs & d' & Hev & Heff); rewrite ?E1; try done; try lia.
    exists (ch :: bs), d'. replace (addr + (i + 1)) with (addr + i + 1) in Heff by lia.
    split; [|apply write_effect_cons; try done; lia]. apply Hit1. cbn [length].
    by replace (i + Z.of_nat (S (length bs))) with (i + 1 + Z.of_nat (length bs)) by lia.
  - exists [], d. rewrite Z.add_0_r. split; [exact Hit|].
    split; try done; [by apply moved_refl|cbn; lia| |by rewrite app_nil_r].
    right. cbn. split; [lia|]. by rewrite Z.add_0_r.
Qed.

(** Without a reader, or in a killed process, the wait ends at once. *)
Lemma ev_pipewrite_wait_stop fuel p d :
  p_lock p ∉ L -> lfree l0 (p_lock p) ->
  (d.(pipes) pi).(pi_readopen) = 0 \/ (d.(procs) p).(p_killed) <> 0 ->
  evals l0 L d (pipewrite_wait fuel pi p) None L d.
Proof.
  intros Hp1 Hp2 Hx. destruct fuel; cbn [pipewrite_wait]; (ev1; [apply ev_getd|]); cbn beta;
    destruct (Z.eqb_spec (d.(pipes) pi).(pi_readopen) 0) as [E|N].
  1,3: ev1; [ev1|]; ev1.
  all: destruct Hx as [?|Hk]; [done|]; (ev1; [ev1; [by apply ev_killed|]; cbn beta; ev1|]); cbn beta;
    rewrite (proj2 (ctrue_true _) Hk); ev1.
Qed.
End loops.
End pipe.

(** ** The theorems *)

(** A thread that has been resumed in [sleep]. *)
Definition awake_d (kt : kptr) (d : kdata) : kdata := upd_kt kt (fun t => t <| kt_chan := None |>) d.

Lemma awake_proc kt d q : exists f, (awake_d kt d).(procs) q = d.(procs) q <| p_kthread := f |>.
Proof.
  unfold awake_d, upd_kt, upd_proc. cbn. destruct (decide (q = kt.1)) as [->|N].
  - rewrite fn_lookup_alter. by eexists.
  - rewrite fn_lookup_alter_ne by done. exists (d.(procs) q).(p_kthread). by destruct (d.(procs) q).
Qed.

Section theorems.
Context `{KI : KernelImage} {KIok : KernelImageOk} `{WF : WaitFuel}.
Context (l0 : lockst) (L : list lockptr) (kt : kptr) (p : nat) (pi root : Z) (own : Z -> Prop) (fl : list Z).

(** The calling thread, its address space, and a pipe whose lock is free. *)
Record pipe_env (d : kdata) : Prop := {
  pe_run : running l0 = Some kt;
  pe_proc : (the_kt d kt).(kt_process) = Some p;
  pe_pt : (d.(procs) p).(p_pagetable) = root;
  pe_own : uown d.(mem) root own fl;
  pe_ok : pipe_ok (d.(pipes) pi);
  pe_lock : (pipe_lock pi ∉ L) /\ lfree l0 (pipe_lock pi);
  pe_plock : (p_lock p ∉ L) /\ lfree l0 (p_lock p);
  pe_threads : tlocks_free l0 L;
}.

Lemma pipe_env_threads d : pipe_env d -> tlocks_free l0 (pipe_lock pi :: L).
Proof. intros H. apply tlocks_free_cons; [done|apply H]. Qed.

Lemma ev_piperead_wait d fuel L' :
  pipe_ok (d.(pipes) pi) -> pqueue (d.(pipes) pi) <> [] \/ (d.(pipes) pi).(pi_writeopen) = 0 ->
  evals l0 L' d (piperead_wait fuel pi p) (Some tt) L' d.
Proof.
  intros Hok Hq. assert ((pbytes (pipes d pi) =? 0) && ctrue (pi_writeopen (pipes d pi)) = false) as E.
  { apply andb_false_iff. destruct Hq as [Hq|Hq]; [left|right; by apply ctrue_false].
    apply Z.eqb_neq. intros E. by apply Hq, pqueue_nil. }
  destruct fuel; cbn [piperead_wait]; (ev1; [apply ev_getd|]); cbn beta; unfold id;
    rewrite pipe_empty, E by done; ev1.
Qed.

Lemma pipe_empty_guard d :
  pipe_ok (d.(pipes) pi) -> pqueue (d.(pipes) pi) = [] -> (d.(pipes) pi).(pi_writeopen) <> 0 ->
  ((d.(pipes) pi).(pi_nread) =? (d.(pipes) pi).(pi_nwrite)) && ctrue (d.(pipes) pi).(pi_writeopen) = true.
Proof.
  intros Hok Hq Hw. by rewrite pipe_empty, <- pqueue_length, Hq, (proj2 (ctrue_true _) Hw) by done.
Qed.

Lemma ev_piperead_wait_killed d fuel L' :
  p_lock p ∉ L' -> lfree l0 (p_lock p) -> pipe_ok (d.(pipes) pi) -> pqueue (d.(pipes) pi) = [] ->
  (d.(pipes) pi).(pi_writeopen) <> 0 -> (d.(procs) p).(p_killed) <> 0 ->
  evals l0 L' d (piperead_wait fuel pi p) None L' d.
Proof.
  intros Hp1 Hp2 Hok Hq Hw Hk.
  destruct fuel; cbn [piperead_wait]; (ev1; [apply ev_getd|]); cbn beta; unfold id;
    rewrite pipe_empty_guard by done; (ev1; [by apply ev_killed|]); cbn beta;
    rewrite (proj2 (ctrue_true _) Hk); ev1.
Qed.

Lemma ev_piperead_wait_sleeps d fuel :
  running l0 = Some kt -> (cur_cpu l0).(c_noff) = 0 -> lfree l0 (t_lock kt) -> lfree l0 (p_lock p) ->
  pipe_ok (d.(pipes) pi) -> pqueue (d.(pipes) pi) = [] ->
  (d.(pipes) pi).(pi_writeopen) <> 0 -> (d.(procs) p).(p_killed) = 0 ->
  evals_swtch l0 [pipe_lock pi] d (piperead_wait fuel pi p) [t_lock kt]
    (asleep_d kt (chan_nread pi) d) (fun _ => True).
Proof.
  intros Hr Hn Ht Hp Hok Hq Hw Hk.
  assert (p_lock p ∉ [pipe_lock pi]) by (by intros ?%list_elem_of_singleton).
  destruct fuel; cbn [piperead_wait]; (eapply ev_bind_swtch; [apply ev_getd|]); cbn beta; unfold id;
    rewrite pipe_empty_guard by done; (eapply ev_bind_swtch; [by apply ev_killed|]); cbn beta;
    rewrite Hk; change (ctrue 0) with false; cbn iota; apply ev_swtch_bind; intros s Hs Hd;
    destruct (ev_sleep l0 kt (chan_nread pi) (pipe_lock pi) d Hr Hn ltac:(done) Ht s Hs Hd)
      as (s' & k & E & ? & ? & _); by exists s', k.
Qed.

(** C19: [piperead] takes bytes from the front of the queue.  When the pipe has bytes or no
    writer is left, it returns as many as are asked for and available: they are, in
    order, what the user memory then holds, no other byte of memory changes, and the
    queue is what remains (a byte that cannot be stored because its address is not
    mapped is dropped).  Then the writers are woken.  On an empty pipe with a writer
    it returns -1 in a killed process, and otherwise sleeps until a byte is written. *)
Theorem piperead_fifo d addr n :
  pipe_env d -> 0 <= addr -> addr + Z.max 0 n <= 2 ^ 63 ->
  (pqueue (d.(pipes) pi) <> [] \/ (d.(pipes) pi).(pi_writeopen) = 0 ->
   pst l0 L d (piperead pi addr n) (fun r d' => exists k d1,
     r = Z.of_nat k /\ read_effect pi root own fl (Z.to_nat n) addr d k d1 /\ woke d1 d')) /\
  (pqueue (d.(pipes) pi) = [] -> (d.(pipes) pi).(pi_writeopen) <> 0 -> (d.(procs) p).(p_killed) <> 0 ->
   evals l0 L d (piperead pi addr n) (-1) L d) /\
  (pqueue (d.(pipes) pi) = [] -> (d.(pipes) pi).(pi_writeopen) <> 0 -> (d.(procs) p).(p_killed) = 0 ->
   L = [] -> (cur_cpu l0).(c_noff) = 0 -> lfree l0 (t_lock kt) ->
   evals_swtch l0 L d (piperead pi addr n) [t_lock kt] (asleep_d kt (chan_nread pi) d) (fun _ => True)).
Proof.
  intros He Ha Hmax. destruct (pe_lock _ He) as [Hl1 Hl2]. destruct (pe_plock _ He) as [Hp1 Hp2].
  pose proof (pe_run _ He) as Hr. pose proof (pe_proc _ He) as Hpr. pose proof (pe_ok _ He) as Hok.
  assert (p_lock p ∉ pipe_lock pi :: L) as Hp3 by (apply not_elem_of_cons; done).
  split; [|split].
  - intros Hq. unfold piperead. po1. po1. eapply po_myproc; [done|done|]. po1. po1. po1. po1.
    po1. eapply po_evals; [by apply ev_piperead_wait|]. cbn beta iota. po1.
    destruct (ev_piperead_loop l0 (pipe_lock pi :: L) pi root own fl p addr (Z.to_nat n) 0 d)
      as (k & d1 & Hev & Heff); [apply He|apply He|done|done|done|lia|].
    eapply po_evals; [exact Hev|]. po1. apply po_wakeup; [by eapply pipe_env_threads|].
    intros d' Hw. po1. po1. po1. split; [done|]. rewrite !Z.add_0_r, Z.add_0_l in *. by exists k, d1.
  - intros Hq Hwo Hk. unfold piperead. ev1; [by eapply ev_myproc|]. ev1; [by ev1|]. ev1; [ev1|].
    cbn beta. ev1; [by apply ev_piperead_wait_killed|]. ev1; [ev1|]. ev1.
  - intros Hq Hwo Hk HL Hn Ht. rewrite HL. unfold piperead.
    eapply ev_bind_swtch; [by eapply ev_myproc|]. cbn beta. eapply ev_bind_swtch; [by ev1|].
    eapply ev_bind_swtch; [ev1|]. cbn beta. apply ev_swtch_bind. intros s Hs Hd.
    destruct (ev_piperead_wait_sleeps d wait_fuel Hr Hn Ht Hp2 Hok Hq Hwo Hk s Hs Hd)
      as (s' & k & E & ? & ? & _). by exists s', k.
Qed.

(** A full pipe: the readers are woken and the writer sleeps; resumed, it looks again. *)
Lemma ev_pipewrite_full d :
  running l0 = Some kt -> (cur_cpu l0).(c_noff) = 0 -> lfree l0 (t_lock kt) -> lfree l0 (p_lock p) ->
  tlocks_free l0 [pipe_lock pi] -> pipe_ok (d.(pipes) pi) ->
  (d.(pipes) pi).(pi_readopen) <> 0 -> (d.(procs) p).(p_killed) = 0 -> pbytes (d.(pipes) pi) = PIPESIZE ->
  exists d1, woke d d1 /\ forall f,
    evals_swtch l0 [pipe_lock pi] d (pipewrite_wait f pi p) [t_lock kt] (asleep_d kt (chan_nwrite pi) d1)
      (fun k => forall l1 d2 f' B (g : option unit -> M B) Q, f = S f' -> resumable l0 l1 -> lfree l1 (pipe_lock pi) ->
         posts l1 [pipe_lock pi] (awake_d kt d2) (pipewrite_wait f' pi p ≫= g) Q ->
         posts l1 [t_lock kt] d2 (fun s => rbind (k s) g) Q).
Proof.
  intros Hr Hn Ht Hp Hth Hok Hro Hk Hfull.
  assert (p_lock p ∉ [pipe_lock pi]) as Hp3 by (by intros ?%list_elem_of_singleton).
  destruct (ev_wakeup l0 [pipe_lock pi] d (Some (chan_nread pi)) Hth) as (d1 & Hev & Hkm).
  exists d1. split; [by eapply woke_kts_map|]. intros f.
  assert (forall K P, evals_swtch l0 [pipe_lock pi] d1 K [t_lock kt] (asleep_d kt (chan_nwrite pi) d1) P ->
    K = (sleep (chan_nwrite pi) (pipe_lock pi);; match f with O => diverge | S f => pipewrite_wait f pi p end) ->
    evals_swtch l0 [pipe_lock pi] d (pipewrite_wait f pi p) [t_lock kt] (asleep_d kt (chan_nwrite pi) d1) P) as Hhead.
  { intros K P H ->. destruct f; cbn [pipewrite_wait]; (eapply ev_bind_swtch; [apply ev_getd|]); cbn beta;
      rewrite (proj2 (Z.eqb_neq _ _) Hro);
      (eapply ev_bind_swtch; [ev1; [by apply ev_killed|]; cbn beta; ev1|]); cbn beta; rewrite Hk;
      change (ctrue 0) with false; cbn iota; (eapply ev_bind_swtch; [apply ev_getd|]); cbn beta; unfold id;
      rewrite pipe_full, Hfull, Z.eqb_refl by done; (eapply ev_bind_swtch; [exact Hev|]); exact H. }
  eapply Hhead; [|reflexivity]. apply ev_swtch_bind. intros s Hs Hd.
  destruct (ev_sleep l0 kt (chan_nwrite pi) (pipe_lock pi) d1 Hr Hn ltac:(done) Ht s Hs Hd) as (s' & k & E & H1 & H2 & H3).
  exists s', k. split; [exact E|]. split; [done|]. split; [done|]. intros l1 d2 f' B g Q -> Hres Hlk HQ.
  apply (po_ungroup l1 k (fun _ => pipewrite_wait f' pi p) g). apply po_bind. eapply po_evals; [by apply H3|]. exact HQ.
Qed.
End theorems.

Section writing.
Context `{KI : KernelImage} {KIok : KernelImageOk} `{WF : WaitFuel}.
Context (kt : kptr) (p : nat) (pi root : Z) (own : Z -> Prop).

(** What [pipewrite] does after its loop. *)
Definition pw_end (r : option Z) : M Z :=
  match r with
  | None => release (pipe_lock pi);; mret (-1)
  | Some i => wakeup (Some (chan_nread pi));; release (pipe_lock pi);; mret i
  end.

Lemma po_pw_end l0 L d i (Q : Z -> list lockptr -> kdata -> Prop) :
  tlocks_free l0 (pipe_lock pi :: L) -> (forall d', woke d d' -> Q i L d') ->
  posts l0 (pipe_lock pi :: L) d (pw_end (Some i)) Q.
Proof. intros Ht HQ. cbn [pw_end]. po1. apply po_wakeup; [done|]. intros d' Hw. po1. po1. po1. by apply HQ. Qed.

(** What a call that was asleep with [i] of its [n] bytes written does when it is resumed: it
    goes on at byte [i]. *)
Definition write_resumed (n addr i : Z) (l0 : lockst) (k : M Z) : Prop :=
  forall l1 fl d, resumable l0 l1 -> pipe_env l1 [] kt p pi root own fl d -> (0 < wait_fuel)%nat ->
    let x := d.(pipes) pi in
    (x.(pi_readopen) <> 0 -> (d.(procs) p).(p_killed) = 0 ->
     Z.of_nat (length (pqueue x)) + (n - i) <= PIPESIZE ->
     posts l1 [t_lock kt] d k (fun r L' d' => L' = [] /\ exists bs d1,
       r = i + Z.of_nat (length bs) /\
       write_effect pi root own fl (Z.to_nat (n - i)) (addr + i) (awake_d kt d) bs d1 /\ woke d1 d')) /\
    (x.(pi_readopen) = 0 \/ (d.(procs) p).(p_killed) <> 0 ->
     posts l1 [t_lock kt] d k (fun r L' d' => L' = [] /\ r = -1 /\ d' = awake_d kt d)).

(** From the state in which the loop finds the pipe full with bytes left to write. *)
Lemma ev_pipewrite_sleeps l0 d n addr i :
  running l0 = Some kt -> (cur_cpu l0).(c_noff) = 0 -> lfree l0 (t_lock kt) -> lfree l0 (p_lock p) ->
  tlocks_free l0 [pipe_lock pi] -> pipe_ok (d.(pipes) pi) ->
  (d.(pipes) pi).(pi_readopen) <> 0 -> (d.(procs) p).(p_killed) = 0 -> pbytes (d.(pipes) pi) = PIPESIZE ->
  0 <= i < n -> 0 <= addr -> addr + n <= 2 ^ 63 ->
  exists d1, woke d d1 /\
    evals_swtch l0 [pipe_lock pi] d (pipewrite_loop (Z.to_nat (n - i)) pi p addr i) [t_lock kt]
      (asleep_d kt (chan_nwrite pi) d1) (fun k => write_resumed n addr i l0 (fun s => rbind (k s) pw_end)).
Proof.
  intros Hr Hn Ht Hp Hth Hok Hro Hk Hfull Hi Ha Hmax.
  destruct (ev_pipewrite_full l0 kt p pi d) as (d1 & Hw & Hf); try done. exists d1. split; [done|].
  assert (Z.to_nat (n - i) = S (Z.to_nat (n - i - 1))) as Em by lia. rewrite Em. cbn [pipewrite_loop].
  apply ev_swtch_bind. intros s Hs Hd. destruct (Hf wait_fuel s Hs Hd) as (s' & k & E & H1 & H2 & H3).
  exists s', k. split; [exact E|]. split; [done|]. split; [done|]. intros l1 fl d2 Hres He Hfuel x.
  destruct (pe_lock _ _ _ _ _ _ _ _ _ He) as [_ Hl]. destruct (pe_plock _ _ _ _ _ _ _ _ _ He) as [_ Hp'].
  assert (p_lock p ∉ [pipe_lock pi]) as Hp3 by (by intros ?%list_elem_of_singleton).
  destruct wait_fuel as [|f] eqn:Ef; [lia|]. destruct (awake_proc kt d2 p) as (kts & Eq).
  assert (forall Q, posts l1 [pipe_lock pi] (awake_d kt d2) (pw_body pi f (Z.to_nat (n - i - 1)) p addr i ≫= pw_end) Q ->
    posts l1 [t_lock kt] d2 (fun s => rbind (rbind (k s) (pw_rest pi (Z.to_nat (n - i - 1)) p addr i)) pw_end) Q) as Hgo.
  { intros Q HQ. apply (po_ungroup l1 k _ pw_end). eapply H3; [reflexivity|done|done|]. apply po_group. exact HQ. }
  split.
  - intros Hro' Hk' Hroom. rewrite pqueue_length in Hroom. apply Hgo.
    destruct (ev_pw_body l1 [pipe_lock pi] pi root own fl f p addr (Z.to_nat (n - i - 1)) i (awake_d kt d2))
      as (bs & d4 & Hev & Heff); rewrite ?Eq; try done; try (by apply He); change (pipes (awake_d kt d2)) with (pipes d2); unfold x in Hroom; try lia.
    apply po_bind. eapply po_evals; [exact Hev|]. apply po_pw_end; [by eapply pipe_env_threads|].
    intros d' Hw'. split; [done|]. exists bs, d4. by rewrite Em.
  - intros Hx. apply Hgo, po_bind. eapply po_evals; [unfold pw_body; ev1; [apply ev_pipewrite_wait_stop; by rewrite ?Eq|]; cbn [pw_rest]; ev1|].
    cbn [pw_end]. po1. po1. po1. done.
Qed.

(** Room for only some of the bytes. *)
Lemma ev_pipewrite_short l0 fl d addr n (room := PIPESIZE - pbytes (d.(pipes) pi)) :
  pipe_env l0 [] kt p pi root own fl d -> 0 <= addr -> addr + Z.max 0 n <= 2 ^ 63 ->
  (d.(pipes) pi).(pi_readopen) <> 0 -> (d.(procs) p).(p_killed) = 0 -> room < n ->
  (cur_cpu l0).(c_noff) = 0 -> lfree l0 (t_lock kt) ->
  exists bs d1, write_effect pi root own fl (Z.to_nat room) addr d bs d1 /\
    (Z.of_nat (length bs) < room ->
     pst l0 [] d (pipewrite pi addr n) (fun r d' => r = Z.of_nat (length bs) /\ woke d1 d')) /\
    (Z.of_nat (length bs) = room -> exists d2, woke d1 d2 /\
     evals_swtch l0 [] d (pipewrite pi addr n) [t_lock kt] (asleep_d kt (chan_nwrite pi) d2)
       (write_resumed n addr room l0)).
Proof.
  intros He Ha Hmax Hro Hk Hroom Hno Ht. destruct (pe_lock _ _ _ _ _ _ _ _ _ He) as [Hl1 Hl2].
  destruct (pe_plock _ _ _ _ _ _ _ _ _ He) as [Hp1 Hp2].
  pose proof (pe_run _ _ _ _ _ _ _ _ _ He) as Hr. pose proof (pe_proc _ _ _ _ _ _ _ _ _ He) as Hpr.
  pose proof (pe_ok _ _ _ _ _ _ _ _ _ He) as Hok. pose proof (pipe_env_threads _ _ _ _ _ _ _ _ _ He) as Hth.
  assert (p_lock p ∉ [pipe_lock pi]) as Hp3 by (by intros ?%list_elem_of_singleton).
  pose proof (pk_bytes _ Hok) as Hb. pose proof (pbytes_bound (d.(pipes) pi)) as Hb0.
  assert (room = PIPESIZE - pbytes (d.(pipes) pi)) as Er by done. clearbody room.
  destruct (ev_pipewrite_prefix l0 [pipe_lock pi] pi root own fl p addr (Z.to_nat room) (Z.to_nat (n - room)) 0 d)
    as (bs & d1 & Heff & H1 & H2); try done; try apply He; try lia.
  rewrite Z.add_0_r in Heff. replace (Z.to_nat room + Z.to_nat (n - room))%nat with (Z.to_nat n) in * by lia.
  exists bs, d1. split; [done|]. split.
  - intros Hlt. unfold pipewrite. po1. po1. eapply po_myproc; [done|done|]. po1. po1. po1. po1. po1.
    eapply po_evals; [apply H1; lia|]. apply po_pw_end; [done|]. intros d' Hw. done.
  - intros Hlen. destruct Heff as [Hmv _ _ _ Hq]. destruct (H2 ltac:(lia)) as [_ H3]. rewrite Z.add_0_l, Z2Nat.id in H3 by lia.
    destruct (ev_pipewrite_sleeps l0 d1 n addr room) as (d2 & Hw & Hev); try done.
    1: by apply Hmv.
    1: by rewrite (proj1 (mv_open _ _ _ _ _ _ Hmv)).
    1: by rewrite (mv_rest _ _ _ _ _ _ Hmv).
    1: { rewrite <- pqueue_length, Hq, length_app, Nat2Z.inj_add, pqueue_length. lia. }
    1,2: lia.
    exists d2. split; [done|]. unfold pipewrite.
    eapply ev_bind_swtch; [by eapply ev_myproc|]. cbn beta. eapply ev_bind_swtch; [ev1; apply not_elem_of_nil|].
    eapply ev_bind_swtch; [ev1|]. cbn beta. apply ev_swtch_bind. apply H3. exact Hev.
Qed.

End writing.

(** ** Instances: a pipe with three bytes, read and written by thread 0 of process 1 *)

Section witnesses.
#[local] Existing Instance demo_image.
#[local] Existing Instance demo_image_ok.
#[local] Existing Instance demo_fuel.

Definition demo_pipe : pipe := Pipe (fun i => 65 + i mod 26) (2 ^ 32 - 1) 2 1 1.

Lemma demo_pipe_queue : pqueue demo_pipe = [82; 65; 66].
Proof. reflexivity. Qed.

Definition demo_piped (m : bytes) : kdata :=
  demo_threads <| mem := m |> <| pipes := fun _ => demo_pipe |>
    <| procs ::= alter (fun x => x <| p_pagetable := demo_root |>) 1%nat |>.

Lemma demo_pipe_env m fl :
  uspace m demo_root PGSIZE fl ->
  pipe_env (demo_run demo_kt) [] demo_kt 1 0x86005000 demo_root (below PGSIZE) fl (demo_piped m).
Proof.
  intros [_ Hu]. split; try done; [split; [apply not_elem_of_nil|done]..|].
  intros kt _ _. split; [apply not_elem_of_nil|done].
Qed.

Lemma piperead_fifo_witness : exists d,
  pst (demo_run demo_kt) [] d (piperead 0x86005000 16 2)
    (fun _ d' => pqueue (d'.(pipes) 0x86005000) = [66]).
Proof.
  destruct demo_grown as (m & f & fl & _ & Hu & Hz). exists (demo_piped m).
  destruct (piperead_fifo (demo_run demo_kt) [] demo_kt 1 0x86005000 demo_root (below PGSIZE) fl
    (demo_piped m) 16 2) as [H _]; [by apply demo_pipe_env|lia|lia|].
  eapply po_mono; [apply H; by left|]. intros r L' d' [-> (k & d1 & -> & [_ _ _ Q] & Hw)].
  split; [done|]. assert (d'.(pipes) = d1.(pipes)) as -> by by rewrite (wk_rest _ _ Hw).
  change (pqueue (pipes (demo_piped m) 0x86005000)) with [82; 65; 66] in Q. cbn in Q.
  destruct Q as [[-> ->]|(Hk & Hn & _)]; [done|]. exfalso.
  specialize (Hz (16 + Z.of_nat k) ltac:(unfold PGSIZE; lia)). unfold vread in Hz.
  change (mem (demo_piped m)) with m in Hn. by rewrite Hn in Hz.
Defined.

End witnesses.
