(* ===== verification/File.v ===== *)
(** * Open files (kernel/file.c, pipealloc of kernel/pipe.c) *)
From S2P Require Export Dir Pipe.

Definition f_get {A} (f : nat) (g : file -> A) : M A := getd (fun d => g (d.(ftable) f)).
Definition f_set (f : nat) (g : file -> file) : M unit := modd (upd_file f g).

Definition fileinit : M unit := initlock ftable_lock "ftable".

Definition filealloc : M (option nat) :=
  acquire ftable_lock;;
  r ← scanM all_files (fun f =>
    ref ← f_get f f_ref;
    if ref =? 0 then
      f_set f (fun x => x <| f_ref := 1 |>);;
      release ftable_lock;;
      mret (Some f)
    else mret None);
  match r with
  | Some f => mret (Some f)
  | None => release ftable_lock;; mret None
  end.

Definition filedup (f : nat) : M nat :=
  acquire ftable_lock;;
  ref ← f_get f f_ref;
  if ref <? 1 then panic "filedup" else
  f_set f (fun x => x <| f_ref ::= fun n => n + 1 |>);;
  release ftable_lock;;
  mret f.

Section file.
Context `{KI : KernelImage} `{WF : WaitFuel} `{DD : DiskDriver}.

Definition fileclose (f : nat) : M unit :=
  acquire ftable_lock;;
  ref ← f_get f f_ref;
  if ref <? 1 then panic "fileclose" else
  f_set f (fun x => x <| f_ref ::= fun n => n - 1 |>);;
  ff ← f_get f id;
  if 0 <? ff.(f_ref) then release ftable_lock else
  f_set f (fun x => x <| f_ref := 0 |>);;
  f_set f (fun x => x <| f_type := FD_NONE |>);;
  release ftable_lock;;
  match ff.(f_type) with
  | FD_PIPE => pipeclose ff.(f_pipe) ff.(f_writable)
  | FD_INODE | FD_DEVICE =>
      begin_op;;
      ip ← deref ff.(f_ip);
      iput ip;;
      end_op
  | FD_NONE => mret tt
  end.

Definition sizeof_stat : Z := 24.

Definition filestat (f : nat) (addr : Z) : M Z :=
  p ← myproc;
  x ← f_get f id;
  match x.(f_type) with
  | FD_INODE | FD_DEVICE =>
      ilock x.(f_ip);;
      ip ← deref x.(f_ip);
      st ← stati ip (fun _ => 0);
      iunlock x.(f_ip);;
      p ← deref p;
      pt ← p_get p p_pagetable;
      r ← copyout pt addr st 0 sizeof_stat;
      if r <? 0 then mret (-1) else mret 0
  | _ => mret (-1)
  end.

(** [devsw[major].read] and [.write]. *)
Definition dev_read (major addr n : Z) : M Z :=
  e ← getd (fun d => d.(devsw) major);
  match e with
  | dev_none => mret (-1)
  | dev_console => r ← consoleread (uva addr) (fun _ => 0) n; mret r.1
  end.
Definition dev_write (major addr n : Z) : M Z :=
  e ← getd (fun d => d.(devsw) major);
  match e with
  | dev_none => mret (-1)
  | dev_console => consolewrite (uva addr) (fun _ => 0) n
  end.

Definition fileread (f : nat) (addr n : Z) : M Z :=
  x ← f_get f id;
  if x.(f_readable) =? 0 then mret (-1) else
  match x.(f_type) with
  | FD_PIPE => piperead x.(f_pipe) addr n
  | FD_DEVICE =>
      if (x.(f_major) <? 0) || (NDEV <=? x.(f_major)) then mret (-1)
      else dev_read x.(f_major) addr n
  | FD_INODE =>
      ilock x.(f_ip);;
      ip ← deref x.(f_ip);
      off ← f_get f f_off;
      r ← readi ip (uva addr) (fun _ => 0) off (u32 n);
      when (0 <? r.1) (f_set f (fun x => x <| f_off ::= fun o => u32 (o + r.1) |>));;
      iunlock x.(f_ip);;
      mret r.1
  | FD_NONE => panic "fileread"
  end.

(** At most [max] bytes go into one transaction. *)
Definition filewrite_max : Z := (MAXOPBLOCKS - 1 - 1 - 2) / 2 * BSIZE.

Fixpoint filewrite_loop (fuel : nat) (f : nat) (addr n i : Z) : M Z :=
  if i <? n then
    match fuel with
    | O => diverge
    | S fuel =>
        let n1 := if filewrite_max <? n - i then filewrite_max else n - i in
        begin_op;;
        x ← f_get f id;
        ilock x.(f_ip);;
        ip ← deref x.(f_ip);
        off ← f_get f f_off;
        r ← writei ip (uva (u64 (addr + i))) (fun _ => 0) off n1;
        when (0 <? r) (f_set f (fun x => x <| f_off ::= fun o => u32 (o + r) |>));;
        iunlock x.(f_ip);;
        end_op;;
        if negb (r =? n1) then mret i else
        filewrite_loop fuel f addr n (i + r)
    end
  else mret i.

Definition filewrite (f : nat) (addr n : Z) : M Z :=
  x ← f_get f id;
  if x.(f_writable) =? 0 then mret (-1) else
  match x.(f_type) with
  | FD_PIPE => pipewrite x.(f_pipe) addr n
  | FD_DEVICE =>
      if (x.(f_major) <? 0) || (NDEV <=? x.(f_major)) then mret (-1)
      else dev_write x.(f_major) addr n
  | FD_INODE =>
      i ← filewrite_loop (Z.to_nat (n / filewrite_max + 1)) f addr n 0;
      mret (if i =? n then n else -1)
  | FD_NONE => panic "filewrite"
  end.

(** ** pipealloc: the two ends of a new pipe, or [None] for -1 *)

Definition pipealloc_bad (f0 f1 : option nat) : M (option (nat * nat)) :=
  match f0 with Some f => fileclose f | None => mret tt end;;
  match f1 with Some f => fileclose f | None => mret tt end;;
  mret None.

Definition pipealloc : M (option (nat * nat)) :=
  f0 ← filealloc;
  match f0 with
  | None => pipealloc_bad None None
  | Some a =>
      f1 ← filealloc;
      match f1 with
      | None => pipealloc_bad f0 None
      | Some b =>
          pi ← kalloc;
          if pi =? 0 then pipealloc_bad f0 f1 else
          pi_set pi (fun x => x <| pi_readopen := 1 |>);;
          pi_set pi (fun x => x <| pi_writeopen := 1 |>);;
          pi_set pi (fun x => x <| pi_nwrite := 0 |>);;
          pi_set pi (fun x => x <| pi_nread := 0 |>);;
          initlock (pipe_lock pi) "pipe";;
          f_set a (fun x => x <| f_type := FD_PIPE |>);;
          f_set a (fun x => x <| f_readable := 1 |>);;
          f_set a (fun x => x <| f_writable := 0 |>);;
          f_set a (fun x => x <| f_pipe := pi |>);;
          f_set b (fun x => x <| f_type := FD_PIPE |>);;
          f_set b (fun x => x <| f_readable := 0 |>);;
          f_set b (fun x => x <| f_writable := 1 |>);;
          f_set b (fun x => x <| f_pipe := pi |>);;
          mret (Some (a, b))
      end
  end.
End file.
