(* ===== verification/Proc.v ===== *)
(** * Processes (kernel/proc.c; kthread_exit of kernel/kthread.c; the kernel page
      table of kernel/vm.c)

    The life of a process: [allocproc], [fork], [exit], [wait], [freeproc], and
    [kthread_exit], which ends in [exit] for the last thread. *)
From S2P Require Export File.

Section proc.
Context `{KI : KernelImage} `{WF : WaitFuel} `{DD : DiskDriver}.

(** ** Boot: kernel stacks, the process table, the kernel page table *)

Definition proc_mapstacks (kpgtbl : Z) : M unit :=
  forM all_procs (fun p =>
    forM all_kts (fun k =>
      pa ← kalloc;
      if pa =? 0 then panic "kalloc" else
      kvmmap kpgtbl (KSTACK (Z.of_nat (p * NKT + k))) pa PGSIZE (Z.lor PTE_R PTE_W))).

Definition procinit : M unit :=
  initlock pid_lock "nextpid";;
  initlock wait_lock "wait_lock";;
  forM all_procs (fun p =>
    initlock (p_lock p) "proc";;
    p_set p (fun x => x <| p_state := UNUSED |>);;
    kthreadinit p).

Definition kvmmake : M Z :=
  kpgtbl ← kalloc;
  kmemset kpgtbl 0 PGSIZE;;
  kvmmap kpgtbl UART0 UART0 PGSIZE (Z.lor PTE_R PTE_W);;
  kvmmap kpgtbl VIRTIO0 VIRTIO0 PGSIZE (Z.lor PTE_R PTE_W);;
  kvmmap kpgtbl PLIC PLIC 0x400000 (Z.lor PTE_R PTE_W);;
  kvmmap kpgtbl KERNBASE KERNBASE (k_etext - KERNBASE) (Z.lor PTE_R PTE_X);;
  kvmmap kpgtbl k_etext k_etext (PHYSTOP - k_etext) (Z.lor PTE_R PTE_W);;
  kvmmap kpgtbl TRAMPOLINE k_trampoline PGSIZE (Z.lor PTE_R PTE_X);;
  proc_mapstacks kpgtbl;;
  mret kpgtbl.

Definition kvminit : M unit :=
  kpgtbl ← kvmmake;
  modd (fun d => d <| kernel_pagetable := kpgtbl |>).

Definition SATP_SV39 : Z := Z.shiftl 8 60.
Definition MAKE_SATP (pagetable : Z) : Z := Z.lor SATP_SV39 (Z.shiftr pagetable 12).

Definition csr_set (f : csr -> csr) : M unit :=
  id ← cpuid;
  modd (fun d => d <| csrs ::= alter f id |>).

Definition kvminithart : M unit :=
  pt ← getd kernel_pagetable;
  csr_set (fun c => c <| r_satp := MAKE_SATP pt |>).

(** ** Allocation *)

Definition allocpid : M Z :=
  acquire pid_lock;;
  pid ← getd nextpid;
  modd (fun d => d <| nextpid := s32 (pid + 1) |>);;
  release pid_lock;;
  mret pid.

Definition proc_pagetable (p : nat) : M Z :=
  pagetable ← uvmcreate;
  if pagetable =? 0 then mret 0 else
  r ← mappages pagetable TRAMPOLINE PGSIZE k_trampoline (Z.lor PTE_R PTE_X);
  if r <? 0 then uvmfree pagetable 0;; mret 0 else
  base ← p_get p p_base_trapframes;
  r ← mappages pagetable (TRAPFRAME 0) PGSIZE base (Z.lor PTE_R PTE_W);
  if r <? 0 then
    uvmunmap pagetable TRAMPOLINE 1 false;;
    uvmfree pagetable 0;;
    mret 0
  else mret pagetable.

Definition proc_freepagetable (pagetable sz : Z) : M unit :=
  uvmunmap pagetable TRAMPOLINE 1 false;;
  uvmunmap pagetable (TRAPFRAME 0) 1 false;;
  uvmfree pagetable sz.

Definition freeproc (p : nat) : M unit :=
  forM all_kts (fun k =>
    acquire (t_lock (p, k));;
    freethread (p, k));;
  base ← p_get p p_base_trapframes;
  when (ctrue base) (kfree base);;
  p_set p (fun x => x <| p_base_trapframes := 0 |>);;
  pt ← p_get p p_pagetable;
  when (ctrue pt)
    (sz ← p_get p p_sz;
     proc_freepagetable pt sz);;
  p_set p (fun x => x <| p_pagetable := 0 |>);;
  p_set p (fun x => x <| p_sz := 0 |>);;
  p_set p (fun x => x <| p_pid := 0 |>);;
  p_set p (fun x => x <| p_parent := None |>);;
  p_set p (fun x => x <| p_name ::= <[0 := 0]> |>);;
  p_set p (fun x => x <| p_killed := 0 |>);;
  p_set p (fun x => x <| p_xstate := 0 |>);;
  p_set p (fun x => x <| p_state := UNUSED |>);;
  p_set p (fun x => x <| p_counter := 0 |>).

(** The search for an unused slot, which is returned locked. *)
Definition find_unused : M (option nat) :=
  scanM all_procs (fun p =>
    acquire (p_lock p);;
    state ← p_get p p_state;
    if bool_decide (state = UNUSED) then mret (Some p)
    else release (p_lock p);; mret None).

(** When no thread is free the code releases the lock of the null thread. *)
Definition allocproc : M (option nat) :=
  o ← find_unused;
  match o with
  | None => mret None
  | Some p =>
      p_set p (fun x => x <| p_counter := 1 |>);;
      pid ← allocpid;
      p_set p (fun x => x <| p_pid := pid |>);;
      p_set p (fun x => x <| p_state := USED |>);;
      base ← kalloc;
      p_set p (fun x => x <| p_base_trapframes := base |>);;
      if base =? 0 then freeproc p;; release (p_lock p);; mret None else
      new_t ← allockthread p;
      match new_t with
      | None => fault
      | Some new_t =>
          pt ← proc_pagetable p;
          p_set p (fun x => x <| p_pagetable := pt |>);;
          if pt =? 0 then
            release (t_lock new_t);;
            freeproc p;;
            release (p_lock p);;
            mret None
          else mret (Some p)
      end
  end.

Definition initcode : list Z :=
  [0x17; 0x05; 0x00; 0x00; 0x13; 0x05; 0x45; 0x02;
   0x97; 0x05; 0x00; 0x00; 0x93; 0x85; 0x35; 0x02;
   0x93; 0x08; 0x70; 0x00; 0x73; 0x00; 0x00; 0x00;
   0x93; 0x08; 0x20; 0x00; 0x73; 0x00; 0x00; 0x00;
   0xef; 0xf0; 0x9f; 0xff; 0x2f; 0x69; 0x6e; 0x69;
   0x74; 0x00; 0x00; 0x24; 0x00; 0x00; 0x00; 0x00;
   0x00; 0x00; 0x00; 0x00].

Definition userinit : M unit :=
  o ← allocproc;
  modd (fun d => d <| initproc := o |>);;
  p ← deref o;
  pt ← p_get p p_pagetable;
  uvmfirst pt (bytes_of initcode) (Z.of_nat (length initcode));;
  p_set p (fun x => x <| p_sz := PGSIZE |>);;
  tf_set (p, 0%nat) tf_epc 0;;
  tf_set (p, 0%nat) tf_sp PGSIZE;;
  t_set (p, 0%nat) (fun t => t <| kt_state := RUNNABLE_t |>);;
  release (t_lock (p, 0%nat));;
  p_set p (fun x => x <| p_name ::= fun m =>
    safestrcpy m 0 (bytes_of (chars "initcode")) 0 16 |>);;
  cwd ← namei (bytes_of (chars "/"));
  p_set p (fun x => x <| p_cwd := cwd |>);;
  release (p_lock p).

Definition growproc (n : Z) : M Z :=
  p ← myproc;
  p ← deref p;
  x ← p_get p id;
  let sz := x.(p_sz) in
  if 0 <? n then
    sz ← uvmalloc x.(p_pagetable) sz (u64 (sz + n)) PTE_W;
    if sz =? 0 then mret (-1) else
    p_set p (fun x => x <| p_sz := sz |>);; mret 0
  else if n <? 0 then
    sz ← uvmdealloc x.(p_pagetable) sz (u64 (sz + n));
    p_set p (fun x => x <| p_sz := sz |>);; mret 0
  else p_set p (fun x => x <| p_sz := sz |>);; mret 0.

(** ** fork *)

(** [*(dst->trapframe) = *(src->trapframe)]. *)
Definition copy_trapframe (dst src : kptr) : M unit :=
  a ← t_get dst kt_trapframe;
  b ← t_get src kt_trapframe;
  if (a =? 0) || (b =? 0) then fault else
  kmemmove a b sizeof_trapframe.

Definition fork : M Z :=
  p ← myproc;
  kt ← mykthread;
  o ← allocproc;
  match o with
  | None => mret (-1)
  | Some np =>
      p ← deref p;
      kt ← deref kt;
      old ← p_get p p_pagetable;
      new ← p_get np p_pagetable;
      sz ← p_get p p_sz;
      r ← uvmcopy old new sz;
      if r <? 0 then
        freeproc np;;
        release (t_lock (np, 0%nat));;
        release (p_lock np);;
        mret (-1)
      else
      p_set np (fun x => x <| p_sz := sz |>);;
      copy_trapframe (np, 0%nat) kt;;
      tf_set (np, 0%nat) tf_a0 0;;
      forM (seq 0 NOFILE) (fun i =>
        f ← p_get p (fun x => x.(p_ofile) i);
        match f with
        | Some f =>
            f' ← filedup f;
            p_set np (fun x => x <| p_ofile ::= <[i := Some f']> |>)
        | None => mret tt
        end);;
      cwd ← p_get p p_cwd;
      cwd ← deref cwd;
      cwd ← idup cwd;
      p_set np (fun x => x <| p_cwd := Some cwd |>);;
      name ← p_get p p_name;
      p_set np (fun x => x <| p_name ::= fun m => safestrcpy m 0 name 0 16 |>);;
      pid ← p_get np p_pid;
      release (t_lock (np, 0%nat));;
      release (p_lock np);;
      acquire wait_lock;;
      p_set np (fun x => x <| p_parent := Some p |>);;
      release wait_lock;;
      acquire (t_lock (np, 0%nat));;
      t_set (np, 0%nat) (fun t => t <| kt_state := RUNNABLE_t |>);;
      release (t_lock (np, 0%nat));;
      mret pid
  end.

(** ** exit and wait *)

Definition reparent (p : nat) : M unit :=
  forM all_procs (fun pp =>
    parent ← p_get pp p_parent;
    when (bool_decide (parent = Some p))
      (init ← getd initproc;
       p_set pp (fun x => x <| p_parent := init |>);;
       init ← getd initproc;
       wakeup (chan_proc <$> init))).

(** The loop over the other threads of the process in [exit]. *)
Definition exit_threads (p : nat) (kt : kptr) : M unit :=
  forM all_kts (fun k =>
    let t2 := (p, k) in
    when (negb (bool_decide (kt = t2)))
      (acquire (t_lock t2);;
       state ← t_get t2 kt_state;
       when (bool_decide (state <> UNUSED_t) && bool_decide (state <> ZOMBIE_t))
         (t_set t2 (fun t => t <| kt_killed := 1 |>);;
          release (t_lock t2);;
          tid ← t_get kt kt_tid;
          _ ← kthread_join tid 0;
          mret tt);;
       release (t_lock t2))).

Definition exit_files (p : nat) : M unit :=
  forM (seq 0 NOFILE) (fun fd =>
    f ← p_get p (fun x => x.(p_ofile) fd);
    match f with
    | Some f =>
        fileclose f;;
        p_set p (fun x => x <| p_ofile ::= <[fd := None]> |>)
    | None => mret tt
    end).

(** The last loop of [exit]: every thread becomes a zombie; the lock of the
    calling thread stays held for the scheduler. *)
Definition exit_zombies (p : nat) (status : Z) : M unit :=
  forM all_kts (fun k =>
    let kt := (p, k) in
    acquire (t_lock kt);;
    t_set kt (fun t => t <| kt_xstate := status |>);;
    t_set kt (fun t => t <| kt_state := ZOMBIE_t |>);;
    me ← mykthread;
    when (negb (bool_decide (Some kt = me))) (release (t_lock kt))).

Definition exit (status : Z) : M unit :=
  p ← myproc;
  kt ← mykthread;
  init ← getd initproc;
  if bool_decide (p = init) then panic "init exiting" else
  p ← deref p;
  kt ← deref kt;
  exit_threads p kt;;
  exit_files p;;
  begin_op;;
  cwd ← p_get p p_cwd;
  cwd ← deref cwd;
  iput cwd;;
  end_op;;
  p_set p (fun x => x <| p_cwd := None |>);;
  acquire wait_lock;;
  reparent p;;
  parent ← p_get p p_parent;
  wakeup (chan_proc <$> parent);;
  acquire (p_lock p);;
  p_set p (fun x => x <| p_xstate := status |>);;
  p_set p (fun x => x <| p_state := ZOMBIE |>);;
  release (p_lock p);;
  exit_zombies p status;;
  release wait_lock;;
  sched;;
  panic "zombie exit".

Definition kthread_exit (status : Z) : M unit :=
  p ← myproc;
  t ← mykthread;
  t ← deref t;
  last ← if_last_thread t;
  when (ctrue last) (exit status);;
  acquire (t_lock t);;
  t_set t (fun x => x <| kt_state := ZOMBIE_t |>);;
  t_set t (fun x => x <| kt_xstate := status |>);;
  release (t_lock t);;
  p ← deref p;
  acquire (p_lock p);;
  wakeup (Some (chan_kthread t));;
  release (p_lock p);;
  acquire (t_lock t);;
  sched;;
  panic "zombie exit".

(** One scan of the process table by [wait]: a value to return, or whether there
    is a child. *)
Fixpoint wait_scan (l : list nat) (p : nat) (addr : Z) (havekids : bool) : M (Z + bool) :=
  match l with
  | [] => mret (inr havekids)
  | pp :: l =>
      parent ← p_get pp p_parent;
      if negb (bool_decide (parent = Some p)) then wait_scan l p addr havekids else
      acquire (p_lock pp);;
      state ← p_get pp p_state;
      if bool_decide (state = ZOMBIE) then
        pid ← p_get pp p_pid;
        failed ←
          (if ctrue addr then
             pt ← p_get p p_pagetable;
             x ← p_get pp p_xstate;
             r ← copyout pt addr (int_bytes x) 0 4;
             mret (r <? 0)
           else mret false);
        if failed : bool then
          release (p_lock pp);;
          release wait_lock;;
          mret (inl (-1))
        else
          freeproc pp;;
          release (p_lock pp);;
          release wait_lock;;
          mret (inl pid)
      else
        release (p_lock pp);;
        wait_scan l p addr true
  end.

Fixpoint wait_loop (fuel : nat) (p : nat) (addr : Z) : M Z :=
  r ← wait_scan all_procs p addr false;
  match r with
  | inl v => mret v
  | inr havekids =>
      stop ← (if havekids : bool then k ← killed p; mret (ctrue k) else mret true);
      if stop : bool then release wait_lock;; mret (-1) else
      sleep (chan_proc p) wait_lock;;
      match fuel with
      | O => diverge
      | S fuel => wait_loop fuel p addr
      end
  end.

Definition wait (addr : Z) : M Z :=
  p ← myproc;
  acquire wait_lock;;
  p ← deref p;
  wait_loop wait_fuel p addr.
End proc.
