(* ===== verification/Exec.v ===== *)
(** * Loading a program (kernel/exec.c, kernel/elf.h)

    The ELF file and program headers are read at their offsets in the bytes that
    [readi] returned.  [goto bad] is the function [exec_bad] of the values that
    the variables have at the jump. *)
From S2P Require Export Proc.

Definition ELF_MAGIC : Z := 0x464C457F.
Definition ELF_PROG_LOAD : Z := 1.
Definition sizeof_elfhdr : Z := 64.
Definition sizeof_proghdr : Z := 56.

(** Fields of [struct elfhdr] and [struct proghdr]. *)
Definition elf_magic (m : bytes) : Z := load32 m 0.
Definition elf_entry (m : bytes) : Z := load64 m 24.
Definition elf_phoff (m : bytes) : Z := load64 m 32.
Definition elf_phnum (m : bytes) : Z := load16 m 56.
Definition ph_type (m : bytes) : Z := load32 m 0.
Definition ph_flags (m : bytes) : Z := load32 m 4.
Definition ph_off (m : bytes) : Z := load64 m 8.
Definition ph_vaddr (m : bytes) : Z := load64 m 16.
Definition ph_filesz (m : bytes) : Z := load64 m 32.
Definition ph_memsz (m : bytes) : Z := load64 m 40.

Definition flags2perm (flags : Z) : Z :=
  let perm := if ctrue (Z.land flags 1) then PTE_X else 0 in
  if ctrue (Z.land flags 2) then Z.lor perm PTE_W else perm.

(** The last element of a path. *)
Fixpoint last_elem (fuel : nat) (path : bytes) (s last : Z) : Z :=
  match fuel with
  | O => last
  | S fuel =>
      if path s =? 0 then last
      else last_elem fuel path (s + 1) (if path s =? SLASH then s + 1 else last)
  end.

Section exec.
Context `{KI : KernelImage} `{WF : WaitFuel} `{DD : DiskDriver}.

Definition loadseg (pagetable va : Z) (ip : nat) (offset sz : Z) : M Z :=
  r ← scanM (steps PGSIZE sz) (fun i =>
    pa ← walkaddr pagetable (u64 (va + i));
    if pa =? 0 then panic "loadseg: address should exist" else
    let n := if sz - i <? PGSIZE then sz - i else PGSIZE in
    r ← readi ip (kva pa) (fun _ => 0) (u32 (offset + i)) n;
    if negb (r.1 =? n) then mret (Some (-1)) else mret None);
  mret (default 0 r).

(** The loop over the program headers: the size of the image, and whether to
    jump to [bad]. *)
Fixpoint exec_segments (n : nat) (ip : nat) (pagetable off sz : Z) : M (Z * bool) :=
  match n with
  | O => mret (sz, false)
  | S n =>
      r ← readi ip (kobj 0) (fun _ => 0) (u32 off) sizeof_proghdr;
      if negb (r.1 =? sizeof_proghdr) then mret (sz, true) else
      let ph := r.2 in
      let next := s32 (off + sizeof_proghdr) in
      if negb (ph_type ph =? ELF_PROG_LOAD) then exec_segments n ip pagetable next sz else
      if ph_memsz ph <? ph_filesz ph then mret (sz, true) else
      if u64 (ph_vaddr ph + ph_memsz ph) <? ph_vaddr ph then mret (sz, true) else
      if negb (ph_vaddr ph mod PGSIZE =? 0) then mret (sz, true) else
      sz1 ← uvmalloc pagetable sz (u64 (ph_vaddr ph + ph_memsz ph)) (flags2perm (ph_flags ph));
      if sz1 =? 0 then mret (sz, true) else
      r ← loadseg pagetable (ph_vaddr ph) ip (u32 (ph_off ph)) (u32 (ph_filesz ph));
      if r <? 0 then mret (sz1, true) else
      exec_segments n ip pagetable next sz1
  end.

(** Push the argument strings; [None] is [goto bad].  [ustack] is the array of
    their addresses; it has [MAXARG] entries, and [sys_exec] passes fewer than [MAXARG]
    arguments, so that the null after the last one is within it. *)
Fixpoint exec_push (argv : list bytes) (pagetable argc sp stackbase : Z) (ustack : bytes)
    : M (option (Z * Z * bytes)) :=
  match argv with
  | [] => mret (Some (argc, sp, store64 ustack (8 * argc) 0))
  | s :: argv =>
      if Z.of_nat MAXARG <=? argc then mret None else
      match strlen (Z.to_nat PGSIZE) s 0 with
      | None => diverge
      | Some len =>
          let sp := u64 (sp - (len + 1)) in
          let sp := sp - sp mod 16 in
          if sp <? stackbase then mret None else
          r ← copyout pagetable sp s 0 (len + 1);
          if r <? 0 then mret None else
          exec_push argv pagetable (argc + 1) sp stackbase (store64 ustack (8 * argc) sp)
      end
  end.

Definition exec_bad (pagetable sz : Z) (ip : option nat) : M Z :=
  when (ctrue pagetable) (proc_freepagetable pagetable sz);;
  match ip with
  | Some ip => iunlockput ip;; end_op
  | None => mret tt
  end;;
  mret (-1).

(** The end of [exec]: the other threads of the process, then the new image. *)
Definition exec_commit (p : nat) (kt : kptr) (path : bytes)
    (pagetable sz oldsz sp entry argc : Z) : M Z :=
  exit_threads p kt;;
  tf_set kt tf_a1 sp;;
  let last := last_elem (Z.to_nat MAXPATH) path 0 0 in
  p_set p (fun x => x <| p_name ::= fun m => safestrcpy m 0 path last 16 |>);;
  oldpagetable ← p_get p p_pagetable;
  p_set p (fun x => x <| p_pagetable := pagetable |>);;
  p_set p (fun x => x <| p_sz := sz |>);;
  tf_set kt tf_epc entry;;
  tf_set kt tf_sp sp;;
  proc_freepagetable oldpagetable oldsz;;
  mret (s32 argc).

(** From the point where the program has been read: stack and arguments. *)
Definition exec_stack (path : bytes) (argv : list bytes) (pagetable sz entry : Z) : M Z :=
  p ← myproc;
  kt ← mykthread;
  p ← deref p;
  kt ← deref kt;
  oldsz ← p_get p p_sz;
  let sz := PGROUNDUP sz in
  sz1 ← uvmalloc pagetable sz (u64 (sz + 2 * PGSIZE)) PTE_W;
  if sz1 =? 0 then exec_bad pagetable sz None else
  let sz := sz1 in
  uvmclear pagetable (u64 (sz - 2 * PGSIZE));;
  let stackbase := u64 (sz - PGSIZE) in
  r ← exec_push argv pagetable 0 sz stackbase (fun _ => 0);
  match r with
  | None => exec_bad pagetable sz None
  | Some (argc, sp, ustack) =>
      let sp := u64 (sp - (argc + 1) * 8) in
      let sp := sp - sp mod 16 in
      if sp <? stackbase then exec_bad pagetable sz None else
      r ← copyout pagetable sp ustack 0 ((argc + 1) * 8);
      if r <? 0 then exec_bad pagetable sz None else
      exec_commit p kt path pagetable sz oldsz sp entry argc
  end.

Definition exec (path : bytes) (argv : list bytes) : M Z :=
  p ← myproc;
  _ ← mykthread;
  begin_op;;
  o ← namei path;
  match o with
  | None => end_op;; mret (-1)
  | Some ip =>
      ilock (Some ip);;
      r ← readi ip (kobj 0) (fun _ => 0) 0 sizeof_elfhdr;
      if negb (r.1 =? sizeof_elfhdr) then exec_bad 0 0 (Some ip) else
      let elf := r.2 in
      if negb (elf_magic elf =? ELF_MAGIC) then exec_bad 0 0 (Some ip) else
      p ← deref p;
      pagetable ← proc_pagetable p;
      if pagetable =? 0 then exec_bad 0 0 (Some ip) else
      r ← exec_segments (Z.to_nat (elf_phnum elf)) ip pagetable (s32 (elf_phoff elf)) 0;
      let sz := r.1 in
      if r.2 : bool then exec_bad pagetable sz (Some ip) else
      iunlockput ip;;
      end_op;;
      exec_stack path argv pagetable sz (elf_entry elf)
  end.
End exec.
