(* ===== verification/Sysfile.v ===== *)
(** * System calls: arguments and files (kernel/syscall.c, kernel/sysfile.c)

    A handler returns the value that [syscall] stores in [a0].  A string argument
    is copied into a local array, which is the second component of the result of
    [argstr]. *)
From S2P Require Export Exec.

Section args.
Context `{KI : KernelImage}.

Definition fetchaddr (addr : Z) : M (Z * Z) :=
  p ← myproc;
  p ← deref p;
  sz ← p_get p p_sz;
  if (sz <=? addr) || (sz <? u64 (addr + 8)) then mret (-1, 0) else
  pt ← p_get p p_pagetable;
  r ← copyin pt (fun _ => 0) 0 addr 8;
  if negb (r.1 =? 0) then mret (-1, 0) else mret (0, load64 r.2 0).

(** Copies to offset [b] of [buf]. *)
Definition fetchstr (addr : Z) (buf : bytes) (b max : Z) : M (Z * bytes) :=
  p ← myproc;
  p ← deref p;
  pt ← p_get p p_pagetable;
  r ← copyinstr pt buf b addr max;
  if r.1 <? 0 then mret (-1, r.2) else
  match strlen (Z.to_nat max) r.2 b with
  | Some n => mret (s32 n, r.2)
  | None => diverge
  end.

Definition argraw (n : Z) : M Z :=
  kt ← mykthread;
  if (0 <=? n) && (n <=? 5) then
    kt ← deref kt;
    tf_get kt (tf_a0 + 8 * n)
  else panic "argraw".

Definition argint (n : Z) : M Z := v ← argraw n; mret (s32 v).
Definition argaddr (n : Z) : M Z := argraw n.
Definition argstr (n max : Z) : M (Z * bytes) :=
  addr ← argaddr n;
  fetchstr addr (fun _ => 0) 0 max.

(** The descriptor and its file, or [None] for -1. *)
Definition argfd (n : Z) : M (option (nat * nat)) :=
  fd ← argint n;
  if (fd <? 0) || (Z.of_nat NOFILE <=? fd) then mret None else
  p ← myproc;
  p ← deref p;
  f ← p_get p (fun x => x.(p_ofile) (Z.to_nat fd));
  mret ((fun f => (Z.to_nat fd, f)) <$> f).

Definition fdalloc (f : nat) : M Z :=
  p ← myproc;
  p ← deref p;
  r ← scanM (seq 0 NOFILE) (fun fd =>
    o ← p_get p (fun x => x.(p_ofile) fd);
    match o with
    | None =>
        p_set p (fun x => x <| p_ofile ::= <[fd := Some f]> |>);;
        mret (Some (Z.of_nat fd))
    | Some _ => mret None
    end);
  mret (default (-1) r).
End args.

Definition O_RDONLY : Z := 0x000.
Definition O_WRONLY : Z := 0x001.
Definition O_RDWR : Z := 0x002.
Definition O_CREATE : Z := 0x200.
Definition O_TRUNC : Z := 0x400.

Section sysfile.
Context `{KI : KernelImage} `{WF : WaitFuel} `{DD : DiskDriver}.

(** ** Descriptors *)

Definition sys_dup : M Z :=
  a ← argfd 0;
  match a with
  | None => mret (-1)
  | Some (_, f) =>
      fd ← fdalloc f;
      if fd <? 0 then mret (-1) else
      _ ← filedup f;
      mret fd
  end.

Definition sys_read : M Z :=
  p ← argaddr 1;
  n ← argint 2;
  a ← argfd 0;
  match a with None => mret (-1) | Some (_, f) => fileread f p n end.

Definition sys_write : M Z :=
  p ← argaddr 1;
  n ← argint 2;
  a ← argfd 0;
  match a with None => mret (-1) | Some (_, f) => filewrite f p n end.

Definition set_ofile (fd : nat) (o : option nat) : M unit :=
  p ← myproc;
  p ← deref p;
  p_set p (fun x => x <| p_ofile ::= <[fd := o]> |>).

Definition sys_close : M Z :=
  a ← argfd 0;
  match a with
  | None => mret (-1)
  | Some (fd, f) => set_ofile fd None;; fileclose f;; mret 0
  end.

Definition sys_fstat : M Z :=
  st ← argaddr 1;
  a ← argfd 0;
  match a with None => mret (-1) | Some (_, f) => filestat f st end.

(** ** Links *)

Definition add_nlink (ip : nat) (n : Z) : M unit :=
  i_set ip (fun x => x <| i_nlink ::= fun l => s16 (l + n) |>);;
  iupdate ip.

Definition sys_link_bad (ip : nat) : M Z :=
  ilock (Some ip);;
  add_nlink ip (-1);;
  iunlockput ip;;
  end_op;;
  mret (-1).

Definition sys_link : M Z :=
  old ← argstr 0 MAXPATH;
  if old.1 <? 0 then mret (-1) else
  new ← argstr 1 MAXPATH;
  if new.1 <? 0 then mret (-1) else
  begin_op;;
  o ← namei old.2;
  match o with
  | None => end_op;; mret (-1)
  | Some ip =>
      ilock (Some ip);;
      type ← i_get ip i_type;
      if type =? T_DIR then iunlockput ip;; end_op;; mret (-1) else
      add_nlink ip 1;;
      iunlock (Some ip);;
      d ← nameiparent new.2 (fun _ => 0);
      match d with
      | (None, _) => sys_link_bad ip
      | (Some dp, name) =>
          ilock (Some dp);;
          ddev ← i_get dp i_dev;
          dev ← i_get ip i_dev;
          inum ← i_get ip i_inum;
          r ← (if negb (ddev =? dev) then mret (-1) else dirlink dp name inum);
          if r <? 0 then iunlockput dp;; sys_link_bad ip else
          iunlockput dp;;
          iput ip;;
          end_op;;
          mret 0
      end
  end.

Definition isdirempty (dp : nat) : M Z :=
  size ← i_get dp i_size;
  r ← scanM (map (Z.add (2 * sizeof_dirent)) (steps sizeof_dirent (size - 2 * sizeof_dirent)))
    (fun off =>
      r ← readi dp (kobj 0) (fun _ => 0) off sizeof_dirent;
      if negb (r.1 =? sizeof_dirent) then panic "isdirempty: readi" else
      if negb (de_inum r.2 =? 0) then mret (Some 0) else mret None);
  mret (default 1 r).

Definition str (s : string) : bytes := bytes_of (chars s).

Definition sys_unlink_bad (dp : nat) : M Z := iunlockput dp;; end_op;; mret (-1).

Definition sys_unlink : M Z :=
  path ← argstr 0 MAXPATH;
  if path.1 <? 0 then mret (-1) else
  begin_op;;
  d ← nameiparent path.2 (fun _ => 0);
  match d with
  | (None, _) => end_op;; mret (-1)
  | (Some dp, name) =>
      ilock (Some dp);;
      if (namecmp name 0 (str ".") 0 =? 0) || (namecmp name 0 (str "..") 0 =? 0)
      then sys_unlink_bad dp else
      o ← dirlookup dp name;
      match o with
      | None => sys_unlink_bad dp
      | Some (ip, off) =>
          ilock (Some ip);;
          nlink ← i_get ip i_nlink;
          if nlink <? 1 then panic "unlink: nlink < 1" else
          type ← i_get ip i_type;
          empty ← (if type =? T_DIR then isdirempty ip else mret 1);
          if empty =? 0 then iunlockput ip;; sys_unlink_bad dp else
          n ← writei dp (kobj 0) (fun _ => 0) off sizeof_dirent;
          if negb (n =? sizeof_dirent) then panic "unlink: writei" else
          when (type =? T_DIR) (add_nlink dp (-1));;
          iunlockput dp;;
          add_nlink ip (-1);;
          iunlockput ip;;
          end_op;;
          mret 0
      end
  end.

(** ** Creation *)

Definition create_fail (ip dp : nat) : M (option nat) :=
  i_set ip (fun x => x <| i_nlink := 0 |>);;
  iupdate ip;;
  iunlockput ip;;
  iunlockput dp;;
  mret None.

Definition create (path : bytes) (type major minor : Z) : M (option nat) :=
  d ← nameiparent path (fun _ => 0);
  match d with
  | (None, _) => mret None
  | (Some dp, name) =>
      ilock (Some dp);;
      o ← dirlookup dp name;
      match o with
      | Some (ip, _) =>
          iunlockput dp;;
          ilock (Some ip);;
          t ← i_get ip i_type;
          if (type =? T_FILE) && ((t =? T_FILE) || (t =? T_DEVICE)) then mret (Some ip)
          else iunlockput ip;; mret None
      | None =>
          dev ← i_get dp i_dev;
          n ← ialloc dev type;
          match n with
          | None => iunlockput dp;; mret None
          | Some ip =>
              ilock (Some ip);;
              i_set ip (fun x => x <| i_major := major |>);;
              i_set ip (fun x => x <| i_minor := minor |>);;
              i_set ip (fun x => x <| i_nlink := 1 |>);;
              iupdate ip;;
              inum ← i_get ip i_inum;
              dinum ← i_get dp i_inum;
              failed ←
                (if type =? T_DIR then
                   r ← dirlink ip (str ".") inum;
                   if r <? 0 then mret true else
                   r ← dirlink ip (str "..") dinum;
                   mret (r <? 0)
                 else mret false);
              if failed : bool then create_fail ip dp else
              r ← dirlink dp name inum;
              if r <? 0 then create_fail ip dp else
              when (type =? T_DIR) (add_nlink dp 1);;
              iunlockput dp;;
              mret (Some ip)
          end
      end
  end.

(** [sys_open] up to the locked inode; [None]: return -1 (the transaction ended). *)
Definition open_inode (path : bytes) (omode : Z) : M (option nat) :=
  if ctrue (Z.land omode O_CREATE) then
    o ← create path T_FILE 0 0;
    match o with
    | None => end_op;; mret None
    | Some ip => mret (Some ip)
    end
  else
    o ← namei path;
    match o with
    | None => end_op;; mret None
    | Some ip =>
        ilock (Some ip);;
        type ← i_get ip i_type;
        if (type =? T_DIR) && negb (omode =? O_RDONLY) then
          iunlockput ip;; end_op;; mret None
        else mret (Some ip)
    end.

Definition open_fail (ip : nat) : M Z := iunlockput ip;; end_op;; mret (-1).

Definition sys_open : M Z :=
  omode ← argint 1;
  path ← argstr 0 MAXPATH;
  if path.1 <? 0 then mret (-1) else
  begin_op;;
  o ← open_inode path.2 omode;
  match o with
  | None => mret (-1)
  | Some ip =>
      x ← i_get ip id;
      if (x.(i_type) =? T_DEVICE) && ((x.(i_major) <? 0) || (NDEV <=? x.(i_major)))
      then open_fail ip else
      f ← filealloc;
      match f with
      | None => open_fail ip
      | Some f =>
          fd ← fdalloc f;
          if fd <? 0 then fileclose f;; open_fail ip else
          (if x.(i_type) =? T_DEVICE then
             f_set f (fun y => y <| f_type := FD_DEVICE |>);;
             f_set f (fun y => y <| f_major := x.(i_major) |>)
           else
             f_set f (fun y => y <| f_type := FD_INODE |>);;
             f_set f (fun y => y <| f_off := 0 |>));;
          f_set f (fun y => y <| f_ip := Some ip |>);;
          f_set f (fun y => y <| f_readable := cbool (negb (ctrue (Z.land omode O_WRONLY))) |>);;
          f_set f (fun y => y <| f_writable :=
            cbool (ctrue (Z.land omode O_WRONLY) || ctrue (Z.land omode O_RDWR)) |>);;
          when (ctrue (Z.land omode O_TRUNC) && (x.(i_type) =? T_FILE)) (itrunc ip);;
          iunlock (Some ip);;
          end_op;;
          mret fd
      end
  end.

(** [mkdir] and [mknod] once [create] has been called. *)
Definition created (o : option nat) : M Z :=
  match o with
  | None => end_op;; mret (-1)
  | Some ip => iunlockput ip;; end_op;; mret 0
  end.

Definition sys_mkdir : M Z :=
  begin_op;;
  path ← argstr 0 MAXPATH;
  o ← (if path.1 <? 0 then mret None else create path.2 T_DIR 0 0);
  created o.

Definition sys_mknod : M Z :=
  begin_op;;
  major ← argint 1;
  minor ← argint 2;
  path ← argstr 0 MAXPATH;
  o ← (if path.1 <? 0 then mret None else create path.2 T_DEVICE (s16 major) (s16 minor));
  created o.

Definition sys_chdir : M Z :=
  p ← myproc;
  begin_op;;
  path ← argstr 0 MAXPATH;
  o ← (if path.1 <? 0 then mret None else namei path.2);
  match o with
  | None => end_op;; mret (-1)
  | Some ip =>
      ilock (Some ip);;
      type ← i_get ip i_type;
      if negb (type =? T_DIR) then iunlockput ip;; end_op;; mret (-1) else
      iunlock (Some ip);;
      p ← deref p;
      cwd ← p_get p p_cwd;
      cwd ← deref cwd;
      iput cwd;;
      end_op;;
      p_set p (fun x => x <| p_cwd := Some ip |>);;
      mret 0
  end.

(** ** exec and pipe *)

(** The loop that fetches the arguments: the pages allocated so far (in reverse)
    and whether to jump to [bad].  A string is copied into its page. *)
Fixpoint fetch_argv (n : nat) (uargv i : Z) (argv : list Z) : M (list Z * bool) :=
  match n with
  | O => mret (argv, true)
  | S n =>
      u ← fetchaddr (u64 (uargv + 8 * i));
      if u.1 <? 0 then mret (argv, true) else
      if u.2 =? 0 then mret (argv, false) else
      pa ← kalloc;
      if pa =? 0 then mret (argv, true) else
      m ← getd mem;
      r ← fetchstr u.2 m pa PGSIZE;
      modd (fun d => d <| mem := r.2 |>);;
      if r.1 <? 0 then mret (pa :: argv, true) else
      fetch_argv n uargv (i + 1) (pa :: argv)
  end.

(** [exec] gets the strings as the bytes of their pages. *)
Definition sys_exec : M Z :=
  uargv ← argaddr 1;
  path ← argstr 0 MAXPATH;
  if path.1 <? 0 then mret (-1) else
  a ← fetch_argv MAXARG uargv 0 [];
  let argv := rev a.1 in
  if a.2 : bool then forM argv kfree;; mret (-1) else
  m ← getd mem;
  ret ← exec path.2 (map (fun pa i => m (pa + i)) argv);
  forM argv kfree;;
  mret ret.

Definition sys_pipe : M Z :=
  p ← myproc;
  fdarray ← argaddr 0;
  o ← pipealloc;
  match o with
  | None => mret (-1)
  | Some (rf, wf) =>
      p ← deref p;
      let clear (fd : Z) := p_set p (fun x => x <| p_ofile ::= <[Z.to_nat fd := None]> |>) in
      fd0 ← fdalloc rf;
      if fd0 <? 0 then fileclose rf;; fileclose wf;; mret (-1) else
      fd1 ← fdalloc wf;
      if fd1 <? 0 then clear fd0;; fileclose rf;; fileclose wf;; mret (-1) else
      pt ← p_get p p_pagetable;
      r ← copyout pt fdarray (int_bytes fd0) 0 4;
      r ← (if r <? 0 then mret r else copyout pt (u64 (fdarray + 4)) (int_bytes fd1) 0 4);
      if r <? 0 then
        clear fd0;; clear fd1;; fileclose rf;; fileclose wf;; mret (-1)
      else mret 0
  end.
End sysfile.
