(* ===== verification/FileSpec.v ===== *)
(** * Descriptors and the file table (kernel/file.c, kernel/sysfile.c)

    The typing of open files: a descriptor names an entry of [ftable], the reference
    count of an entry is the number of descriptors that name it, an entry in use has a
    type with the pointer that the type calls for, and an end of a pipe is open as long
    as an entry refers to it.  [sys_dup] and [sys_close] keep it. *)
From S2P Require Export FsTxn Sysfile.

(** ** The invariant *)

(** Every slot of every descriptor table. *)
Definition slots : list (nat * nat) := list_prod all_procs (seq 0 NOFILE).
Definition ofile (d : kdata) (x : nat * nat) : option nat := (d.(procs) x.1).(p_ofile) x.2.

(** The number of the slots [l] of a table [T] that hold [f]. *)
Definition holders (T : nat * nat -> option nat) (f : nat) (l : list (nat * nat)) : Z :=
  Z.of_nat (length (filter (fun x => T x = Some f) l)).

Definition pipe_end (x : pipe) (writable : Z) : Z :=
  if ctrue writable then x.(pi_writeopen) else x.(pi_readopen).

(** What the type of an entry in use promises of its fields. *)
Definition file_typed `{KI : KernelImage} (d : kdata) (x : file) : Prop :=
  match x.(f_type) with
  | FD_NONE => False
  | FD_PIPE => page_ok x.(f_pipe) /\ pipe_end (d.(pipes) x.(f_pipe)) x.(f_writable) <> 0
  | FD_INODE | FD_DEVICE => exists ip, x.(f_ip) = Some ip /\ (ip < NINODE)%nat
  end.

Definition open_pipe (d : kdata) (f : nat) : Prop :=
  (f < NFILE)%nat /\ 0 < (d.(ftable) f).(f_ref) /\ (d.(ftable) f).(f_type) = FD_PIPE.

Record fd_ok `{KI : KernelImage} (d : kdata) : Prop := {
  fd_file : forall x f, x ∈ slots -> ofile d x = Some f -> (f < NFILE)%nat;
  fd_ref : forall f, (f < NFILE)%nat -> (d.(ftable) f).(f_ref) = holders (ofile d) f slots;
  fd_type : forall f, (f < NFILE)%nat -> 0 < (d.(ftable) f).(f_ref) -> file_typed d (d.(ftable) f);
  fd_end : forall f g, open_pipe d f -> open_pipe d g ->
    (d.(ftable) f).(f_pipe) = (d.(ftable) g).(f_pipe) ->
    ctrue (d.(ftable) f).(f_writable) = ctrue (d.(ftable) g).(f_writable) -> f = g;
}.

(** ** Counting *)

Definition one_if (o : option nat) (f : nat) : Z := if decide (o = Some f) then 1 else 0.

Lemma slots_nodup : NoDup slots.
Proof.
  assert (forall l k : list nat, NoDup l -> NoDup k -> NoDup (list_prod l k)) as H.
  { intros l k Hl Hk. induction Hl as [|a l Ha Hl IH]; cbn; [constructor|]. apply NoDup_app. split; [|split; [|done]].
    - apply NoDup_fmap_2; [|done]. by intros ?? [=].
    - intros [u v] H1 H2. apply list_elem_of_In, in_map_iff in H1 as (? & [= <- <-] & _).
      apply list_elem_of_In, in_prod_iff in H2 as [H2 _]. by apply Ha, list_elem_of_In. }
  apply H; apply NoDup_seq.
Qed.

Lemma slots_elem p fd : (p < NPROC)%nat -> (fd < NOFILE)%nat -> (p, fd) ∈ slots.
Proof. intros Hp Hf. apply list_elem_of_In, in_prod; apply in_seq; lia. Qed.

Lemma holders_app T f l k : holders T f (l ++ k) = holders T f l + holders T f k.
Proof. unfold holders. rewrite filter_app, length_app. lia. Qed.

Lemma holders_cons T f x l : holders T f (x :: l) = one_if (T x) f + holders T f l.
Proof. unfold holders, one_if. rewrite filter_cons. case_decide; cbn [length]; lia. Qed.

Lemma holders_ext T T' f l : (forall x, x ∈ l -> T' x = T x) -> holders T' f l = holders T f l.
Proof.
  induction l as [|x l IH]; intros H; [done|]. rewrite !holders_cons, H by set_solver. rewrite IH; [done|]. set_solver.
Qed.

(** One slot changes. *)
Lemma holders_upd T T' f x : x ∈ slots -> (forall y, y <> x -> T' y = T y) ->
  holders T' f slots = holders T f slots - one_if (T x) f + one_if (T' x) f.
Proof.
  intros Hx HT. pose proof slots_nodup as N. apply list_elem_of_split in Hx as (l & k & E). rewrite E in *.
  apply NoDup_app in N as (_ & N1 & N2). apply NoDup_cons in N2 as [N2 _].
  rewrite !holders_app, !holders_cons, (holders_ext T T' f l), (holders_ext T T' f k); [lia|..].
  - intros y Hy. apply HT. by intros ->.
  - intros y Hy. apply HT. intros ->. by apply (N1 x Hy), list_elem_of_here.
Qed.

Lemma holders_pos T f l x : x ∈ l -> T x = Some f -> 0 < holders T f l.
Proof.
  intros Hx HT. apply list_elem_of_split in Hx as (a & b & ->). rewrite holders_app, holders_cons. unfold one_if.
  rewrite decide_True by done. unfold holders. lia.
Qed.

Lemma holders_nonneg T f l : 0 <= holders T f l.
Proof. unfold holders. lia. Qed.

(** ** The effects of the two calls *)

(** Argument [n] of the system call of thread [kt], and the file that a descriptor of
    process [p] names. *)
Definition arg_of (d : kdata) (kt : kptr) (n : Z) : Z :=
  s32 (load64 d.(mem) ((the_kt d kt).(kt_trapframe) + (tf_a0 + 8 * n))).
Definition desc (d : kdata) (p : nat) (fd : Z) : option nat :=
  if (fd <? 0) || (Z.of_nat NOFILE <=? fd) then None else ofile d (p, Z.to_nat fd).
Definition free_fds (d : kdata) (p : nat) : list nat :=
  filter (fun i => ofile d (p, i) = None) (seq 0 NOFILE).

Definition set_fd (p fd : nat) (o : option nat) (d : kdata) : kdata :=
  upd_proc p (fun x => x <| p_ofile ::= <[fd := o]> |>) d.
Definition dup_d (p fd f : nat) (d : kdata) : kdata :=
  upd_file f (fun x => x <| f_ref ::= fun n => n + 1 |>) (set_fd p fd (Some f) d).

(** A file loses a reference; with the last one it loses its type. *)
Definition drop_ref (x : file) : file :=
  if 1 <? x.(f_ref) then x <| f_ref ::= fun n => n - 1 |> else x <| f_ref := 0 |> <| f_type := FD_NONE |>.
Definition last_ref (x : file) : bool := negb (1 <? x.(f_ref)).
Definition shut (writable : Z) (x : pipe) : pipe :=
  if ctrue writable then x <| pi_writeopen := 0 |> else x <| pi_readopen := 0 |>.
Definition shut_both (x : pipe) : bool := (x.(pi_readopen) =? 0) && (x.(pi_writeopen) =? 0).

(** The effect of closing descriptor [fd] of process [p], which names [f]. *)
Record closed `{KI : KernelImage} (d : kdata) (p fd f : nat) (d' : kdata) : Prop := {
  cl_ofile : forall y, ofile d' y = if decide (y = (p, fd)) then None else ofile d y;
  cl_ftable : forall g, d'.(ftable) g = if decide (f = g) then drop_ref (d.(ftable) g) else d.(ftable) g;
  cl_pipes : let x := d.(ftable) f in
    d'.(pipes) = (if last_ref x && bool_decide (x.(f_type) = FD_PIPE)
                  then alter (shut x.(f_writable)) x.(f_pipe) d.(pipes) else d.(pipes));
  cl_page : let x := d.(ftable) f in
    (d'.(mem), d'.(freelist)) =
      (let e := if last_ref x && bool_decide (x.(f_type) = FD_PIPE) && shut_both (d'.(pipes) x.(f_pipe))
                then kfree_d x.(f_pipe) d else d in (e.(mem), e.(freelist)));
  cl_itable : let x := d.(ftable) f in
    d'.(itable) = (match x.(f_ip) with
                   | Some ip => if last_ref x && bool_decide (x.(f_type) = FD_INODE \/ x.(f_type) = FD_DEVICE)
                                then alter (fun y => y <| i_ref ::= fun n => n - 1 |>) ip d.(itable) else d.(itable)
                   | None => d.(itable)
                   end);
}.

Lemma desc_slot d p fd f : (p < NPROC)%nat -> desc d p fd = Some f ->
  (p, Z.to_nat fd) ∈ slots /\ ofile d (p, Z.to_nat fd) = Some f /\ 0 <= fd < Z.of_nat NOFILE.
Proof.
  intros Hp. unfold desc. destruct (Z.ltb_spec fd 0), (Z.leb_spec (Z.of_nat NOFILE) fd); cbn [orb]; try done.
  intros E. split; [apply slots_elem; lia|]. split; [done|lia].
Qed.

Lemma ofile_set_fd d p fd o y : ofile (set_fd p fd o d) y = if decide (y = (p, fd)) then o else ofile d y.
Proof.
  destruct y as [q i]. unfold ofile, set_fd, upd_proc. cbn. unfold alter, fn_alter. case_decide as E.
  - subst q. cbn. unfold insert, fn_insert. destruct (decide (fd = i)) as [->|N].
    + by rewrite decide_True.
    + by rewrite (decide_False (P := (p, i) = (p, fd))) by congruence.
  - by rewrite (decide_False (P := (q, i) = (p, fd))) by congruence.
Qed.

Section invariant.
Context `{KI : KernelImage}.

(** It is about the descriptors, the files and the pipes only. *)
Lemma fd_ok_ext d d' : fd_ok d -> (forall y, ofile d' y = ofile d y) -> d'.(ftable) = d.(ftable) -> d'.(pipes) = d.(pipes) -> fd_ok d'.
Proof.
  intros [F1 F2 F3 F4] Eo Ef Ep. split; unfold file_typed, open_pipe in *; rewrite ?Ef, ?Ep; try done.
  - intros x f Hx. rewrite Eo. by apply F1.
  - intros f Hf. rewrite F2 by done. symmetry. by apply holders_ext.
Qed.

(** A new descriptor for a file that has one. *)
Lemma fd_ok_dup d p fd x f : fd_ok d -> (p, fd) ∈ slots -> ofile d (p, fd) = None -> x ∈ slots -> ofile d x = Some f ->
  fd_ok (dup_d p fd f d).
Proof.
  intros [F1 F2 F3 F4] Hs Ho Hx Hf. pose proof (F1 x f Hx Hf) as Hn.
  set (d' := dup_d p fd f d).
  assert (forall y, ofile d' y = if decide (y = (p, fd)) then Some f else ofile d y) as Eo by apply ofile_set_fd.
  assert (d'.(pipes) = d.(pipes)) as Ep by done.
  assert (forall g, d'.(ftable) g = d.(ftable) g <| f_ref ::= fun n => n + one_if (Some f) g |>) as Ef.
  { intros g. cbn. unfold alter, fn_alter, one_if. case_decide as E; [subst; by rewrite decide_True|].
    rewrite decide_False by congruence. destruct (ftable d g) as [? r ? ? ? ? ? ?]. unfold rset, set_f_ref. cbn. f_equal. lia. }
  assert (forall g, (g < NFILE)%nat -> 0 < (d'.(ftable) g).(f_ref) -> 0 < (d.(ftable) g).(f_ref)) as Hpos.
  { intros g Hg. rewrite Ef. cbn. unfold one_if. case_decide as E; [|lia]. injection E as <-. intros _. rewrite F2 by done.
    by eapply holders_pos. }
  split.
  - intros y g Hy. rewrite Eo. case_decide; [by intros [= <-]|]. by apply F1.
  - intros g Hg. rewrite Ef. cbn. rewrite F2 by done. rewrite (holders_upd (ofile d) (ofile d') g (p, fd) Hs).
    + rewrite Ho, Eo, decide_True by done. unfold one_if at 2. cbn. rewrite decide_False by done. lia.
    + intros y N. by rewrite Eo, decide_False.
  - intros g Hg Hr. specialize (F3 g Hg (Hpos g Hg Hr)). rewrite Ef. unfold file_typed in *. exact F3.
  - intros g h (G1 & G2 & G3) (H1 & H2 & H3). pose proof (Hpos g G1 G2). pose proof (Hpos h H1 H2).
    rewrite Ef in *. rewrite Ef in *. cbn in *. by apply F4.
Qed.

Lemma drop_ref_ref x : 0 < x.(f_ref) -> (drop_ref x).(f_ref) = x.(f_ref) - 1.
Proof. intros H. unfold drop_ref. destruct (Z.ltb_spec 1 x.(f_ref)); [done|]. cbn. lia. Qed.

(** A file that is in use after the loss of a reference. *)
Lemma drop_ref_live x : 0 < (drop_ref x).(f_ref) -> last_ref x = false /\ drop_ref x = x <| f_ref ::= fun n => n - 1 |>.
Proof. unfold drop_ref, last_ref. by destruct (1 <? x.(f_ref)). Qed.

Lemma pipe_end_shut w v x : ctrue w <> ctrue v -> pipe_end (shut w x) v = pipe_end x v.
Proof. unfold pipe_end, shut. by destruct (ctrue w), (ctrue v). Qed.

Section closing.
Context (d : kdata) (p fd f : nat) (d' : kdata).
Hypothesis Hok : fd_ok d.
Hypothesis Hs : (p, fd) ∈ slots.
Hypothesis Hf : ofile d (p, fd) = Some f.
Hypothesis Hc : closed d p fd f d'.

Lemma closed_pos : (f < NFILE)%nat /\ 0 < (d.(ftable) f).(f_ref).
Proof.
  destruct Hok as [F1 F2 _ _]. pose proof (F1 _ _ Hs Hf) as Hn. split; [done|]. rewrite F2 by done. by eapply holders_pos.
Qed.

(** The entries in use after the close were in use before it. *)
Lemma closed_live g : 0 < (d'.(ftable) g).(f_ref) ->
  exists n, 0 < (d.(ftable) g).(f_ref) /\ d'.(ftable) g = d.(ftable) g <| f_ref := n |> /\ (g = f -> last_ref (d.(ftable) f) = false).
Proof.
  destruct closed_pos as [_ Hp]. rewrite (cl_ftable _ _ _ _ _ Hc). case_decide as E.
  - subst g. intros H. destruct (drop_ref_live _ H) as [El ->]. by eexists.
  - intros H. exists (d.(ftable) g).(f_ref). split; [done|]. split; [by destruct (ftable d g)|]. congruence.
Qed.

Lemma closed_typed g : (g < NFILE)%nat -> 0 < (d'.(ftable) g).(f_ref) -> file_typed d' (d'.(ftable) g).
Proof.
  intros Hg Hr. destruct (closed_live g Hr) as (n & Hp & -> & Hl). pose proof (fd_type _ Hok g Hg Hp) as Ht.
  unfold file_typed in *. cbn. destruct (f_type (ftable d g)) eqn:Et; try done. destruct Ht as [Ht1 Ht2]. split; [done|].
  rewrite (cl_pipes _ _ _ _ _ Hc). destruct (last_ref _) eqn:El, (bool_decide_reflect (f_type (ftable d f) = FD_PIPE)) as [Ef|]; cbn [andb]; try done.
  unfold alter, fn_alter. case_decide as E; [|done]. rewrite pipe_end_shut; [by rewrite E|]. intros Ew. destruct closed_pos as [Hn Hfr].
  assert (f = g) as -> by (apply (fd_end _ Hok); [by repeat split..|done|done]). specialize (Hl eq_refl). congruence.
Qed.

Lemma fd_ok_closed : fd_ok d'.
Proof.
  destruct closed_pos as [Hn Hp]. split.
  - intros y g Hy. rewrite (cl_ofile _ _ _ _ _ Hc). case_decide; [done|]. by apply (fd_file _ Hok).
  - intros g Hg. rewrite (holders_upd (ofile d) (ofile d') g (p, fd) Hs).
    2: { intros y N. by rewrite (cl_ofile _ _ _ _ _ Hc), decide_False. }
    rewrite (cl_ofile _ _ _ _ _ Hc), decide_True, Hf, <- (fd_ref _ Hok) by done. unfold one_if at 2. rewrite (decide_False (P := None = Some g)) by done.
    rewrite (cl_ftable _ _ _ _ _ Hc). unfold one_if. case_decide as E.
    + subst g. rewrite decide_True, drop_ref_ref by done. lia.
    + rewrite decide_False by congruence. lia.
  - apply closed_typed.
  - intros g h (G1 & G2 & G3) (H1 & H2 & H3). destruct (closed_live g G2) as (n & G4 & Eg & _), (closed_live h H2) as (k & H4 & Eh & _).
    rewrite Eg in *. rewrite Eh in *. cbn in *. by apply (fd_end _ Hok); [repeat split..|].
Qed.
End closing.
End invariant.

Lemma upd_file_at f g d : (upd_file f g d).(ftable) f = g (d.(ftable) f).
Proof. cbn. unfold alter, fn_alter. by rewrite decide_True. Qed.

(** ** Execution *)

(** Wakeups and the commit of a transaction do not touch the tables. *)
Lemma closed_fsame `{KI : KernelImage} d p fd f x d' : closed d p fd f x -> fsame x d' -> closed d p fd f d'.
Proof.
  intros [C1 C2 C3 C4 C5] [R P _]. cbn in P.
  assert (d'.(ftable) = x.(ftable) /\ d'.(pipes) = x.(pipes) /\ d'.(mem) = x.(mem) /\ d'.(freelist) = x.(freelist) /\
    d'.(itable) = x.(itable)) as (E1 & E2 & E3 & E4 & E5) by (rewrite R; done).
  split; rewrite ?E1, ?E2, ?E3, ?E4, ?E5; try done. intros y. rewrite <- C1. unfold ofile. by destruct (P y.1) as [h ->].
Qed.

Lemma fs_idle_eq d e : fs_eq d e -> fs_idle d -> fs_idle e.
Proof.
  intros [Eb Eh Ek] [F1 F2 F3 F4 F5 F6 F7 F8 F9]. unfold idle in F2. split; unfold idle; rewrite ?Eb, ?Eh, ?Ek; try done.
  by apply (quiet_eq d).
Qed.

Lemma self_set_fd kt p pid q fd o d : self kt p pid d -> self kt p pid (set_fd q fd o d).
Proof.
  intros [S1 S2]. unfold self, the_kt, set_fd, upd_proc in *. cbn. unfold alter, fn_alter.
  split.
  - rewrite <- S1. by destruct (decide (q = kt.1)) as [<-|].
  - rewrite <- S2. by destruct (decide (q = p)) as [<-|].
Qed.

Section args.
Context `{KI : KernelImage} {KIok : KernelImageOk} `{WF : WaitFuel} (l0 : lockst) (L : list lockptr) (kt : kptr) (p : nat) (pid : Z) (d : kdata).
Hypothesis Hrun : running l0 = Some kt.
Hypothesis Hself : self kt p pid d.
Hypothesis Htf : (the_kt d kt).(kt_trapframe) <> 0.

Lemma ev_argint n : 0 <= n <= 5 -> evals l0 L d (argint n) (arg_of d kt n) L d.
Proof.
  intros Hn. unfold argint, argraw. tev1. { tev1. { tev1. } cbn beta. rewrite Hrun.
    rewrite (proj2 (Z.leb_le _ _)), (proj2 (Z.leb_le _ _)) by lia. cbn [andb]. tev1. { tev1. } unfold tf_get. tev1. { tev1. } cbn beta.
    rewrite (proj2 (Z.eqb_neq _ _)) by done. apply ev_ld. }
  apply ev_ret.
Qed.

Lemma ev_self : evals l0 L d myproc (Some p) L d.
Proof. eapply ev_myproc; [apply Hrun|apply Hself]. Qed.

Lemma ev_argfd (fd := arg_of d kt 0) :
  evals l0 L d (argfd 0) ((fun f => (Z.to_nat fd, f)) <$> desc d p fd) L d.
Proof.
  unfold argfd. tev1. { apply ev_argint. lia. } cbn beta. fold fd. unfold desc.
  destruct ((fd <? 0) || (Z.of_nat NOFILE <=? fd)); [apply ev_ret|]. tev1. { apply ev_self. } tev1. { tev1. } tev1. { tev1. } apply ev_ret.
Qed.

Lemma ev_fdalloc f :
  evals l0 L d (fdalloc f) (match free_fds d p with fd :: _ => Z.of_nat fd | [] => -1 end) L
    (match free_fds d p with fd :: _ => set_fd p fd (Some f) d | [] => d end).
Proof.
  unfold fdalloc. tev1. { apply ev_self. } tev1. { tev1. }
  assert (forall i, ofile d (p, i) = None \/ exists g, (d.(procs) p).(p_ofile) i = Some g) as Hd.
  { intros i. unfold ofile. cbn. destruct (p_ofile (procs d p) i); [right; by eexists|by left]. }
  destruct (free_fds d p) as [|fd fds] eqn:E; unfold free_fds in E.
  - tev1; [apply ev_scan_none|apply ev_ret]. intros i Hi. tev1. { tev1. } cbn beta.
    destruct (Hd i) as [N|[g ->]]; [|apply ev_ret]. assert (i ∈ @nil nat) as []%not_elem_of_nil. rewrite <- E. by apply list_elem_of_filter.
  - assert (exists l1 l2, seq 0 NOFILE = l1 ++ fd :: l2 /\ ofile d (p, fd) = None /\ forall i, i ∈ l1 -> ofile d (p, i) <> None) as (l1 & l2 & -> & Hf & Hl).
    { revert E. generalize (seq 0 NOFILE). induction l as [|i l IH]; [done|]. rewrite filter_cons. case_decide as Ei.
      - intros [= -> _]. exists [], l. split; [done|]. split; [done|]. by intros ? ?%not_elem_of_nil.
      - intros E. destruct (IH E) as (l1 & l2 & -> & ? & Hl). exists (i :: l1), l2. split; [done|]. split; [done|].
        intros j [->|?]%elem_of_cons; [done|by apply Hl]. }
    tev1; [eapply ev_scan_found|apply ev_ret].
    + intros i Hi. tev1. { tev1. } cbn beta. destruct (Hd i) as [N|[g ->]]; [by destruct (Hl i Hi)|apply ev_ret].
    + tev1. { tev1. } cbn beta. change (p_ofile (procs d p) fd) with (ofile d (p, fd)). rewrite Hf. tev1. { tev1. } apply ev_ret.
Qed.

Lemma ev_filedup f : ftable_lock ∉ L -> lfree l0 ftable_lock -> 0 < (d.(ftable) f).(f_ref) ->
  evals l0 L d (filedup f) f L (upd_file f (fun x => x <| f_ref ::= fun n => n + 1 |>) d).
Proof.
  intros H1 H2 Hr. unfold filedup. tev1. { tev1. } tev1. { apply ev_getd. } cbn beta.
  rewrite (proj2 (Z.ltb_ge _ _)) by lia. tev1. { apply ev_modd. } tev1. { tev1. } apply ev_ret.
Qed.
End args.

Section calls.
Context `{KI : KernelImage} {KIok : KernelImageOk} `{WF : WaitFuel} `{DDok : DiskDriverOk} (l0 : lockst) (L : list lockptr).
Context (kt : kptr) (p : nat) (pid : Z).
Hypothesis Henv : fs_env l0 L kt.
Hypothesis Hp : (p < NPROC)%nat.

(** The locks that the two calls take besides those of the file system. *)
Record file_locks : Prop := {
  fl_ftable : (ftable_lock ∉ L) /\ lfree l0 ftable_lock;
  fl_itable : (itable_lock ∉ L) /\ lfree l0 itable_lock;
  fl_kmem : (kmem_lock ∉ L) /\ lfree l0 kmem_lock;
  fl_pipe : forall pi, (pipe_lock pi ∉ L) /\ lfree l0 (pipe_lock pi);
}.
Hypothesis Hlocks : file_locks.

Lemma po_pipeclose e pi w : page_ok pi ->
  pst l0 L e (pipeclose pi w) (fun _ d' =>
    fsame (let e1 := upd_pipe pi (shut w) e in if shut_both (shut w (e.(pipes) pi)) then kfree_d pi e1 else e1) d' /\
    d'.(klog).(lg_outstanding) = e.(klog).(lg_outstanding)).
Proof.
  intros Hpg. destruct (fl_pipe Hlocks pi) as [H1 H2], (fl_kmem Hlocks) as [H3 H4]. unfold pipeclose. po1. po1. po1. po1.
  set (e1 := upd_pipe pi (shut w) e).
  assert (forall d', woke e1 d' -> d'.(pipes) pi = shut w (e.(pipes) pi)) as Ep.
  { intros d' [-> _ _]. cbn. unfold alter, fn_alter. by rewrite decide_True. }
  eapply (po_call _ _ _ _ (fun _ d' => woke e1 d')).
  - pose proof (tlocks_free_cons l0 L (pipe_lock pi) ltac:(done) (fe_threads _ _ _ Henv)) as Ht. unfold e1, shut.
    destruct (ctrue w); (po1; po1; apply po_modd; apply po_wakeup; [done|]; by intros d' Hw).
  - intros [] d' Hw. po1. apply po_getd. cbn [id]. rewrite (Ep _ Hw). fold (shut_both (shut w (pipes e pi))). destruct (shut_both _).
    + po1. po1. eapply po_evals; [by apply ev_kfree|]. split; [done|].
      split; [apply woke_fsame; by apply (woke_upd (kfree_d pi))|by rewrite (wk_rest _ _ Hw)].
    + po1. split; [done|]. split; [by apply woke_fsame|by rewrite (wk_rest _ _ Hw)].
Qed.

(** An operation can begin at once, and its end is understood: the file system is idle, or
    other operations are in progress. *)
Definition put_ready (d : kdata) : Prop :=
  fs_idle d \/ has_room d.(klog) = true /\ 0 < d.(klog).(lg_outstanding).

Lemma put_ready_eq d e : fs_eq d e -> put_ready d -> put_ready e.
Proof. intros H [?|?]; [left; by eapply fs_idle_eq|right; by rewrite (fq_klog _ _ H)]. Qed.

Lemma put_ready_room d : put_ready d -> has_room d.(klog) = true.
Proof. intros [?|[? _]]; [by apply reserved_room|done]. Qed.

Lemma has_room_committing g : has_room g = true -> g.(lg_committing) = 0.
Proof. unfold has_room. intros [H _]%andb_prop. apply ctrue_false. by apply negb_true_iff. Qed.

Lemma fsame_klog d f : fsame d (d <| klog ::= f |>).
Proof. unfold fsame. destruct d. reflexivity. Qed.

(** The end of an operation that wrote nothing. *)
Lemma po_put_end e e1 : put_ready e -> self kt p pid e -> self kt p pid e1 -> fs_eq (reserved e) e1 ->
  pst l0 L e1 end_op (fun _ d' => fsame e1 d' /\ d'.(klog).(lg_outstanding) = e.(klog).(lg_outstanding)).
Proof.
  intros Hr Hs Hs1 He. pose proof (fq_klog _ _ He) as Ek. destruct Hr as [Hi|[Hr Ho]].
  - pose proof (txn_eq _ _ He (reserved_txn _ Hi)) as Ht. eapply po_mono; [apply (po_end_op_last l0 L kt p pid Henv e1)|].
    + rewrite Ek. apply (fi_committing _ Hi).
    + rewrite Ek. change (e.(klog).(lg_outstanding) + 1 = 1). by rewrite (fi_out _ Hi).
    + by apply txn_quiet.
    + done.
    + apply (tx_log _ Ht).
    + by apply txn_room1.
    + by apply txn_pins.
    + intros [] L' d' [-> (ws & [[F K] _ _ _ _] & _)]. split; [done|]. split; [|rewrite K; symmetry; apply (fi_out _ Hi)].
      etrans; [|exact F]. apply fsame_klog.
  - eapply po_mono; [apply (po_end_op_other l0 L kt Henv e1)|].
    + rewrite Ek. exact (has_room_committing _ Hr).
    + rewrite Ek. change (e.(klog).(lg_outstanding) + 1 <> 1). lia.
    + intros [] L' d' [-> W]. split; [done|]. split.
      * etrans; [|apply woke_fsame, W]. apply fsame_klog.
      * rewrite (wk_rest _ _ W). cbn. rewrite Ek. cbn. lia.
Qed.

(** The last reference to an inode that keeps a link is put in a transaction of its own. *)
Lemma po_put e ip : put_ready e -> self kt p pid e ->
  (let y := e.(itable) ip in (y.(i_ref) =? 1) && ctrue y.(i_valid) && (y.(i_nlink) =? 0) = false) ->
  pst l0 L e (begin_op;; ip ← deref (Some ip); iput ip;; end_op)
    (fun _ d' => fsame (upd_inode ip (fun y => y <| i_ref ::= fun n => n - 1 |>) e) d' /\
       d'.(klog).(lg_outstanding) = e.(klog).(lg_outstanding)).
Proof.
  intros Hi Hs Hn. destruct (fe_lock _ _ _ Henv log_lock I) as [Hl1 Hl2], (fl_itable Hlocks) as [H1 H2].
  po1. po1. eapply po_evals; [apply ev_begin_op; [done|done|by apply put_ready_room]|]. po1. po1. po1. unfold iput. po1. po1. po1. apply po_getd.
  cbn zeta in Hn. change (itable (reserved e)) with (itable e). cbn [id]. rewrite Hn. cbn [when]. po1. po1. po1. apply po_modd. po1.
  set (e1 := upd_inode ip _ (reserved e)). eapply po_mono; [by apply (po_put_end e e1)|].
  intros [] L' d' [-> [F O]]. split; [done|]. split; [|done]. etrans; [|exact F]. unfold fsame.
  match goal with |- woke ?a ?b => assert (a = b) as -> by reflexivity end. reflexivity.
Qed.

(** What the last close of a file with an inode needs: the log has room, and the
    inode keeps a link or another reference. *)
Definition puttable (d : kdata) (x : file) : Prop :=
  forall ip, x.(f_ip) = Some ip -> last_ref x = true -> x.(f_type) = FD_INODE \/ x.(f_type) = FD_DEVICE ->
    put_ready d /\ (let y := d.(itable) ip in (y.(i_ref) =? 1) && ctrue y.(i_valid) && (y.(i_nlink) =? 0) = false).

Lemma po_fileclose d fd f : self kt p pid d -> 0 < (d.(ftable) f).(f_ref) -> file_typed d (d.(ftable) f) -> puttable d (d.(ftable) f) ->
  pst l0 L (set_fd p fd None d) (fileclose f) (fun _ d' => closed d p fd f d' /\ d'.(klog).(lg_outstanding) = d.(klog).(lg_outstanding)).
Proof.
  intros Hs Hr Ht Hpt. destruct (fl_ftable Hlocks) as [H1 H2]. set (e := set_fd p fd None d). set (x := d.(ftable) f) in *.
  unfold fileclose. do 4 po1. apply po_getd. change (ftable e f) with x. rewrite (proj2 (Z.ltb_ge _ _)) by lia.
  po1. apply po_modd. po1. apply po_getd. rewrite upd_file_at. change (ftable e f) with x. cbn [id]. cbn.
  destruct (Z.ltb_spec 0 (x.(f_ref) - 1)) as [Hl|Hl].
  { po1. split; [done|]. split; [|done]. assert (last_ref x = false) as El by (unfold last_ref; by rewrite (proj2 (Z.ltb_lt _ _)) by lia).
    split; cbv zeta; fold x; rewrite ?El; cbn [andb]; [apply ofile_set_fd| |done|done|by destruct (f_ip x)].
    intros g. cbn. unfold alter, fn_alter. case_decide; [|done]. subst g. unfold drop_ref. fold x. by rewrite (proj2 (Z.ltb_lt 1 _)) by lia. }
  assert (last_ref x = true) as El by (unfold last_ref; by rewrite (proj2 (Z.ltb_ge _ _)) by lia).
  po1. apply po_modd. po1. apply po_modd. po1. po1.
  match goal with |- posts _ _ ?y _ _ => set (e1 := y) end.
  assert (forall g, e1.(ftable) g = if decide (f = g) then drop_ref (d.(ftable) g) else d.(ftable) g) as E1.
  { intros g. cbn. unfold alter, fn_alter. destruct (decide (f = g)) as [<-|]; [|done]. unfold drop_ref. fold x. rewrite (proj2 (Z.ltb_ge 1 _)) by lia.
    by rewrite !decide_True by done. }
  unfold file_typed in Ht. fold x in Ht. destruct (x.(f_type)) eqn:Et; [done|..].
  1: { eapply po_mono; [apply po_pipeclose, Ht|]. intros [] L' d' [-> [F O]]. split; [done|]. split; [|exact O]. eapply closed_fsame; [|exact F].
    change (pipes e1) with (pipes d). cbv zeta. destruct (shut_both _) eqn:Eb.
    all: split; cbv zeta; fold x; rewrite ?El, ?Et; [apply ofile_set_fd|exact E1|done| |by destruct (f_ip x)].
    all: cbn; unfold alter, fn_alter; rewrite decide_True by done; change (pipes e1) with (pipes d) in Eb; by rewrite Eb. }
  all: destruct Ht as (ip & Eip & _); destruct (Hpt ip Eip El ltac:(rewrite Et; auto)) as [Hi Hn]; rewrite Eip.
  all: (eapply po_mono; [apply (po_put e1 ip); [by apply (put_ready_eq d)|by apply self_set_fd|exact Hn]|]).
  all: intros [] L' d' [-> [F O]]; split; [done|]; split; [|exact O]; eapply closed_fsame; [|exact F].
  all: split; cbv zeta; fold x; rewrite ?El, ?Et, ?Eip; [apply ofile_set_fd|exact E1|done..].
Qed.

Lemma po_sys_close d (fd := arg_of d kt 0) f : self kt p pid d -> (the_kt d kt).(kt_trapframe) <> 0 ->
  desc d p fd = Some f -> 0 < (d.(ftable) f).(f_ref) -> file_typed d (d.(ftable) f) -> puttable d (d.(ftable) f) ->
  pst l0 L d sys_close (fun r d' => r = 0 /\ closed d p (Z.to_nat fd) f d' /\ d'.(klog).(lg_outstanding) = d.(klog).(lg_outstanding)).
Proof.
  intros Hs Htf Hd Hr Ht Hpt. unfold sys_close. po1. po1. eapply po_evals; [apply (ev_argfd l0 L kt p pid d (fe_run _ _ _ Henv)); done|]. fold fd. rewrite Hd. cbn [fmap option_fmap option_map].
  po1. unfold set_ofile. po1. eapply po_evals; [apply (ev_self l0 L kt p pid d (fe_run _ _ _ Henv)); done|]. po. eapply po_call; [by apply po_fileclose|]. intros [] d' Hc. by po1.
Qed.

(** C25: The descriptors stay well typed under [dup]: every descriptor names an entry of
    the file table, the reference count of an entry is the number of descriptors that
    name it, an entry in use has a type and the inode or the open pipe end that the type
    calls for, and no two entries share a pipe end.  [sys_dup] never panics on such a
    table; it puts the file in the lowest free slot and returns that, or returns -1 and
    changes nothing if the argument is no open descriptor or the table is full. *)
Theorem sys_dup_correct d : self kt p pid d -> (the_kt d kt).(kt_trapframe) <> 0 -> fd_ok d ->
  exists r d', evals l0 L d sys_dup r L d' /\ fd_ok d' /\
    match desc d p (arg_of d kt 0), free_fds d p with
    | Some f, fd :: _ => r = Z.of_nat fd /\ d' = dup_d p fd f d
    | _, _ => r = -1 /\ d' = d
    end.
Proof.
  intros Hs Htf Hok. pose proof (ev_argfd l0 L kt p pid d (fe_run _ _ _ Henv) Hs Htf) as Ha. cbv zeta in Ha. destruct (desc d p (arg_of d kt 0)) as [f|] eqn:Ed; cbn in Ha.
  2: { exists (-1), d. split; [|done]. unfold sys_dup. tev1; [exact Ha|]. apply ev_ret. }
  destruct (desc_slot _ _ _ _ Hp Ed) as (Hx & Ef & _). pose proof (ev_fdalloc l0 L kt p pid d (fe_run _ _ _ Henv) Hs f) as Hfd.
  pose proof (fd_file _ Hok _ _ Hx Ef) as Hn. destruct (free_fds d p) as [|fd fds] eqn:Efd.
  { exists (-1), d. split; [|done]. unfold sys_dup. tev1; [exact Ha|]. cbn beta iota. tev1; [exact Hfd|]. apply ev_ret. }
  assert (fd ∈ free_fds d p) as [Hfree Hin]%list_elem_of_filter by (rewrite Efd; apply list_elem_of_here).
  apply elem_of_seq in Hin. exists (Z.of_nat fd), (dup_d p fd f d). split; [|split; [|done]].
  - unfold sys_dup. tev1; [exact Ha|]. cbn beta iota. tev1; [exact Hfd|]. cbn beta. rewrite (proj2 (Z.ltb_ge _ _)) by lia.
    destruct (fl_ftable Hlocks) as [H1 H2]. tev1; [apply ev_filedup; [done|done|]|apply ev_ret]. change (ftable (set_fd p fd (Some f) d)) with (ftable d). rewrite (fd_ref _ Hok) by done. by eapply holders_pos.
  - eapply fd_ok_dup; try done. apply slots_elem; [done|lia].
Qed.

(** The last close of a file with an inode, up to [iput]. *)
Lemma ev_sys_close_put lt d (fd := arg_of d kt 0) f ip : self kt p pid d -> (the_kt d kt).(kt_trapframe) <> 0 ->
  running lt = Some kt -> (ftable_lock ∉ L) /\ lfree lt ftable_lock -> (log_lock ∉ L) /\ lfree lt log_lock ->
  itable_lock ∉ L -> ltaken lt itable_lock -> desc d p fd = Some f -> (d.(ftable) f).(f_ref) = 1 ->
  (d.(ftable) f).(f_type) = FD_INODE \/ (d.(ftable) f).(f_type) = FD_DEVICE -> (d.(ftable) f).(f_ip) = Some ip ->
  has_room d.(klog) = true ->
  exists d1, d1.(klog) = d.(klog) /\ d1.(itable) = d.(itable) /\
    evals_spin lt L d sys_close itable_lock L (reserved d1).
Proof.
  intros Hs Htf Hrun [F1 F2] [G1 G2] Hi Ht Hd Hr Hty Hip Hroom.
  set (e := set_fd p (Z.to_nat fd) None d).
  eexists (upd_file f (fun x => x <| f_type := FD_NONE |>) (upd_file f (fun x => x <| f_ref := 0 |>)
    (upd_file f (fun x => x <| f_ref ::= fun n => n - 1 |>) e))). split; [done|]. split; [done|].
  unfold sys_close. eapply ev_bind_spin; [by apply (ev_argfd lt L kt p pid)|]. fold fd. rewrite Hd. cbn [fmap option_fmap option_map].
  unfold set_ofile. eapply ev_bind_spin; [tev1; [by apply (ev_self lt L kt p pid)|]; tev1; [tev1|]; apply ev_modd|].
  apply ev_spin_bind. unfold fileclose. fold (set_fd p (Z.to_nat fd) None d) in *. fold e.
  eapply ev_bind_spin; [by apply ev_acquire|]. eapply ev_bind_spin; [apply ev_getd|]. cbn beta.
  change (ftable e f) with (ftable d f). rewrite Hr. change (1 <? 1) with false. cbn iota.
  eapply ev_bind_spin; [apply ev_modd|]. eapply ev_bind_spin; [apply ev_getd|]. cbn beta. rewrite upd_file_at.
  change (ftable e f) with (ftable d f). cbn [id]. cbn. rewrite Hr. change (0 <? 1 - 1) with false. cbn iota.
  eapply ev_bind_spin; [apply ev_modd|]. eapply ev_bind_spin; [apply ev_modd|]. eapply ev_bind_spin; [by apply ev_release|].
  match goal with |- evals_spin _ _ ?x _ _ _ _ => set (e1 := x) end.
  assert (evals_spin lt L e1 (begin_op;; ip ← deref (Some ip); iput ip;; end_op) itable_lock L (reserved e1)) as Hput.
  { eapply ev_bind_spin; [by apply ev_begin_op|]. eapply ev_bind_spin; [apply ev_deref|]. cbn beta. apply ev_spin_bind.
    unfold iput. apply ev_spin_bind. by apply ev_acquire_taken. }
  rewrite Hip. destruct Hty as [-> | ->]; exact Hput.
Qed.

(** C26: [close] empties the descriptor and takes one reference from its file.  The last
    reference to a pipe shuts that end and frees the page exactly when the other end is
    shut too, so that no open file is left with a freed pipe; the last reference to a
    file with an inode gives up its reference to the inode.  The descriptors stay well
    typed and no log operation is left open.  An argument that is no open descriptor gives
    -1 and changes nothing.  All this where the log admits the operation at once and the
    inode is not to be freed: it keeps a link or another reference.

    The inode is put in a transaction: a [close] that has to wait for the inode table has
    begun an operation and has not touched the inodes. *)
Theorem sys_close_correct d (fd := arg_of d kt 0) : self kt p pid d -> (the_kt d kt).(kt_trapframe) <> 0 -> fd_ok d ->
  ((forall f, desc d p fd = Some f -> puttable d (d.(ftable) f)) ->
   pst l0 L d sys_close (fun r d' => fd_ok d' /\
     match desc d p fd with
     | Some f => r = 0 /\ closed d p (Z.to_nat fd) f d' /\ d'.(klog).(lg_outstanding) = d.(klog).(lg_outstanding)
     | None => r = -1 /\ d' = d
     end)) /\
  (forall lt f ip, running lt = Some kt -> lfree lt ftable_lock -> lfree lt log_lock -> ltaken lt itable_lock ->
     desc d p fd = Some f -> (d.(ftable) f).(f_ref) = 1 ->
     (d.(ftable) f).(f_type) = FD_INODE \/ (d.(ftable) f).(f_type) = FD_DEVICE -> (d.(ftable) f).(f_ip) = Some ip ->
     has_room d.(klog) = true ->
     exists d1, d1.(klog) = d.(klog) /\ d1.(itable) = d.(itable) /\
       evals_spin lt L d sys_close itable_lock L (reserved d1)).
Proof.
  intros Hs Htf Hok. split.
  2: { intros lt f ip **. destruct (fe_lock _ _ _ Henv log_lock I) as [Hg _], (fl_ftable Hlocks) as [Hf _], (fl_itable Hlocks) as [Hi _].
    by apply (ev_sys_close_put lt d f ip). }
  intros Hpt. destruct (desc d p fd) as [f|] eqn:Ed.
  - destruct (desc_slot _ _ _ _ Hp Ed) as (Hx & Ef & _). pose proof (fd_file _ Hok _ _ Hx Ef) as Hn.
    assert (0 < (d.(ftable) f).(f_ref)) as Hr by (rewrite (fd_ref _ Hok) by done; by eapply holders_pos).
    eapply po_mono; [apply (po_sys_close d f); try done; [by apply (fd_type _ Hok)|by apply Hpt]|].
    intros r L' d' [-> (-> & Hc & Ho)]. split; [done|]. split; [|done]. by eapply fd_ok_closed.
  - unfold sys_close. po1. po1. eapply po_evals; [apply (ev_argfd l0 L kt p pid d (fe_run _ _ _ Henv)); done|]. fold fd. rewrite Ed. cbn [fmap option_fmap option_map]. by po1.
Qed.
End calls.

(** ** Two threads of a process

    The threads of a process share its descriptors, and no lock covers the span from
    [argfd] to [filedup]. *)

Lemma set_fd_kt p fd o d kt : (the_kt (set_fd p fd o d) kt).(kt_trapframe) = (the_kt d kt).(kt_trapframe).
Proof. unfold the_kt, set_fd, upd_proc. cbn. unfold alter, fn_alter. by destruct (decide (p = kt.1)) as [<-|]. Qed.

Section race.
Context `{KI : KernelImage} {KIok : KernelImageOk} `{WF : WaitFuel} `{DDok : DiskDriverOk} (l0 l1 : lockst) (kt kt1 : kptr) (p : nat) (pid : Z).

Lemma po_race_close d n f (d1 := set_fd p n (Some f) d) : (p < NPROC)%nat -> fs_env l1 [] kt1 -> file_locks l0 [] -> file_locks l1 [] ->
  self kt1 p pid d -> (the_kt d kt1).(kt_trapframe) <> 0 ->
  fd_ok d -> arg_of d kt1 0 = arg_of d kt 0 -> desc d p (arg_of d kt 0) = Some f -> (d.(ftable) f).(f_ref) = 1 ->
  puttable d (d.(ftable) f) ->
  pst l1 [] d1 sys_close (fun r d2 => r = 0 /\ evals_panic l0 [] d2 (_ ← filedup f; mret (Z.of_nat n)) "filedup").
Proof.
  intros Hp E1 L0 L1 S1 T1 Hok Ha Hd Hr Hpt.
  assert (arg_of d1 kt1 0 = arg_of d kt 0) as Ea by (rewrite <- Ha; unfold arg_of, d1; by rewrite set_fd_kt).
  destruct (desc_slot _ _ _ _ Hp Hd) as (Hx & Ef & _). pose proof (fd_file _ Hok _ _ Hx Ef) as Hf.
  eapply po_mono; [apply (po_sys_close l1 [] kt1 p pid E1 Hp L1 d1 f)|].
  - by apply self_set_fd.
  - unfold d1. by rewrite set_fd_kt.
  - rewrite Ea. unfold desc in *. destruct ((_ <? 0) || _); [done|]. unfold d1. rewrite ofile_set_fd. by case_decide.
  - change (ftable d1) with (ftable d). lia.
  - apply (fd_type _ Hok f Hf). lia.
  - intros ip I1 I2 I3. destruct (Hpt ip I1 I2 I3) as [Hi Hk]. split; [by apply (put_ready_eq d)|exact Hk].
  - intros r L' d2 [-> (-> & Hc & _)]. split; [done|]. split; [done|]. apply ev_panic_bind. unfold filedup. destruct (fl_ftable _ _ L0) as [A1 A2].
    eapply ev_bind_panic; [by apply ev_acquire|]. eapply ev_bind_panic; [apply ev_getd|]. cbn beta.
    rewrite (cl_ftable _ _ _ _ _ Hc), decide_True by done. change (ftable d1) with (ftable d). rewrite drop_ref_ref, Hr by lia. apply ev_panic.
Qed.

(** From [d], [m] gets to a point with data [d1] at which [k] is what remains of it. *)
Definition gets_to {A} (l : lockst) (d : kdata) (m : M A) (d1 : kdata) (k : M A) : Prop :=
  forall s, lstate [] l s.(lks) -> s.(dat) = d -> exists s1, lstate [] l s1.(lks) /\ s1.(dat) = d1 /\ m s = k s1.

Lemma gets_to_bind {A B} l d (m : M A) (f : A -> M B) a d1 d2 k :
  evals l [] d m a [] d1 -> gets_to l d1 (f a) d2 k -> gets_to l d (m ≫= f) d2 k.
Proof.
  intros H1 H2 s Hl Hd. destruct (H1 s Hl Hd) as (s1 & E1 & Hl1 & Hd1). destruct (H2 s1 Hl1 Hd1) as (s2 & ? & ? & E2).
  exists s2. split; [done|]. split; [done|]. rewrite <- E2. unfold mbind, M_bind. by rewrite E1.
Qed.

(** C27: A [close] by another thread of the process can panic the kernel in [sys_dup]: if
    the descriptor is the only one of its file, [sys_dup] gets to its call of [filedup]
    with the new descriptor in the table, no lock held and the reference not yet counted;
    there it also waits if another hart holds the lock of the file table.  A [close] of
    the descriptor then succeeds and frees the file, and the rest of [sys_dup] panics. *)
Theorem dup_close_race d n fds f : (p < NPROC)%nat -> fs_env l0 [] kt -> fs_env l1 [] kt1 -> file_locks l0 [] -> file_locks l1 [] ->
  self kt p pid d -> self kt1 p pid d -> (the_kt d kt).(kt_trapframe) <> 0 -> (the_kt d kt1).(kt_trapframe) <> 0 ->
  fd_ok d -> arg_of d kt1 0 = arg_of d kt 0 -> desc d p (arg_of d kt 0) = Some f -> (d.(ftable) f).(f_ref) = 1 ->
  free_fds d p = n :: fds -> puttable d (d.(ftable) f) ->
  exists d1, desc d1 p (Z.of_nat n) = Some f /\ (d1.(ftable) f).(f_ref) = 1 /\
    gets_to l0 d sys_dup d1 (_ ← filedup f; mret (Z.of_nat n)) /\
    (forall lt, running lt = Some kt -> ltaken lt ftable_lock -> evals_spin lt [] d sys_dup ftable_lock [] d1) /\
    pst l1 [] d1 sys_close (fun r d2 => r = 0 /\
      evals_panic l0 [] d2 (_ ← filedup f; mret (Z.of_nat n)) "filedup").
Proof.
  intros Hp E0 E1 L0 L1 S0 S1 T0 T1 Hok Ha Hd Hr Hn Hpt. exists (set_fd p n (Some f) d).
  assert (n ∈ free_fds d p) as [_ Hin]%list_elem_of_filter by (rewrite Hn; apply list_elem_of_here). apply elem_of_seq in Hin.
  split. { unfold desc. rewrite (proj2 (Z.ltb_ge _ _)), (proj2 (Z.leb_gt _ _)), Nat2Z.id by lia. cbn [orb]. by rewrite ofile_set_fd, decide_True. }
  split; [done|].
  assert (forall l, running l = Some kt -> evals l [] d (argfd 0) (Some (Z.to_nat (arg_of d kt 0), f)) [] d /\
    evals l [] d (fdalloc f) (Z.of_nat n) [] (set_fd p n (Some f) d)) as Hpre.
  { intros l Hl. pose proof (ev_argfd l [] kt p pid d Hl S0 T0) as H1. pose proof (ev_fdalloc l [] kt p pid d Hl S0 f) as H2.
    cbv zeta in H1. rewrite Hd in H1. by rewrite Hn in H2. }
  split; [|split].
  - destruct (Hpre l0 (fe_run _ _ _ E0)) as [H1 H2]. unfold sys_dup. eapply gets_to_bind; [exact H1|]. cbn beta iota.
    eapply gets_to_bind; [exact H2|]. cbn beta. rewrite (proj2 (Z.ltb_ge _ _)) by lia. intros s ??. by exists s.
  - intros lt Hl Ht. destruct (Hpre lt Hl) as [H1 H2]. unfold sys_dup. eapply ev_bind_spin; [exact H1|]. cbn beta iota.
    eapply ev_bind_spin; [exact H2|]. cbn beta. rewrite (proj2 (Z.ltb_ge _ _)) by lia. apply ev_spin_bind. unfold filedup.
    apply ev_spin_bind. apply ev_acquire_taken; [apply not_elem_of_nil|done].
  - by eapply po_race_close.
Qed.
End race.

(** ** Instances: process 1 has the two ends of a pipe *)

Section witnesses.
#[local] Existing Instance demo_image.
#[local] Existing Instance demo_image_ok.
#[local] Existing Instance demo_fuel.
#[local] Existing Instance sync_disk.
#[local] Existing Instance sync_disk_ok.

Definition demo_end (w : Z) : file := File FD_PIPE 1 (1 - w) w 0x86005000 None 0 0.
Definition demo_fds : kdata :=
  upd_kt demo_kt (fun t => t <| kt_trapframe := 0x86004000 |>)
    (upd_kt (1, 1)%nat (fun t => t <| kt_trapframe := 0x86004200 |>) (set_fd 1 1 (Some 6%nat) (set_fd 1 0 (Some 5%nat) demo_threads)))
    <| ftable := <[5%nat := demo_end 0]> (<[6%nat := demo_end 1]> (fun _ => File FD_NONE 0 0 0 0 None 0 0)) |>
    <| pipes := fun _ => Pipe (fun _ => 0) 0 0 1 1 |>.

Lemma demo_fd_ok : fd_ok demo_fds.
Proof.
  assert (forall f, (f < NFILE)%nat -> 0 < f_ref (ftable demo_fds f) -> f = 5%nat \/ f = 6%nat) as H56.
  { intros f _. cbn. unfold insert, fn_insert. destruct (decide (5%nat = f)) as [<-|]; [by left|]. destruct (decide (6%nat = f)) as [<-|]; [by right|]. done. }
  split.
  - intros x f Hx. assert (forallb (fun x => match ofile demo_fds x with Some f => (f <? NFILE)%nat | None => true end) slots = true) as H by (vm_compute; reflexivity).
    rewrite forallb_forall in H. specialize (H x (proj1 (list_elem_of_In _ _) Hx)). intros E. rewrite E in H. by apply Nat.ltb_lt.
  - intros f Hf. assert (forallb (fun f => (demo_fds.(ftable) f).(f_ref) =? holders (ofile demo_fds) f slots) (seq 0 NFILE) = true) as H by (vm_compute; reflexivity).
    rewrite forallb_forall in H. apply Z.eqb_eq, H, in_seq. lia.
  - intros f Hf Hr. destruct (H56 f Hf Hr) as [-> | ->]; (split; [|done]); split; done.
  - intros f g (F1 & F2 & _) (G1 & G2 & _) _. destruct (H56 f F1 F2) as [-> | ->], (H56 g G1 G2) as [-> | ->]; done.
Qed.

Lemma demo_file_locks kt : file_locks (demo_run kt) [].
Proof. split; try intros pi; (split; [apply not_elem_of_nil|apply demo_run_free]). Qed.

(** The trapframes are zero: both threads pass descriptor 0. *)
Lemma sys_dup_correct_witness : exists d', evals (demo_run demo_kt) [] demo_fds sys_dup 2 [] d' /\ fd_ok d' /\
  desc d' 1 2 = Some 5%nat /\ (d'.(ftable) 5%nat).(f_ref) = 2.
Proof.
  destruct (sys_dup_correct (demo_run demo_kt) [] demo_kt 1 demo_pid demo_fs_env) with (d := demo_fds) as (r & d' & H1 & H2 & H3).
  - apply Nat.ltb_lt. reflexivity.
  - apply demo_file_locks.
  - done.
  - done.
  - apply demo_fd_ok.
  - assert (desc demo_fds 1 (arg_of demo_fds demo_kt 0) = Some 5%nat) as E1 by (vm_compute; reflexivity).
    assert (exists l, free_fds demo_fds 1 = 2%nat :: l) as [l E2] by (eexists; vm_compute; reflexivity).
    rewrite E1, E2 in H3. destruct H3 as [-> ->]. exists (dup_d 1 2 5 demo_fds). do 2 (split; [done|]). split; vm_compute; reflexivity.
Defined.

Lemma demo_puttable : puttable demo_fds (ftable demo_fds 5).
Proof. intros ip [=]. Qed.

(** Process 1 has a file with inode 3, which has a link, as descriptor 0. *)
Definition demo_opened (g : log) : kdata :=
  upd_kt demo_kt (fun t => t <| kt_trapframe := 0x86004000 |>) (set_fd 1 0 (Some 5%nat) (demo_cache (buf0 <| b_dev := ROOTDEV |>) (fun _ _ => 0) g))
    <| ftable := <[5%nat := File FD_INODE 1 1 0 0 (Some 3%nat) 0 0]> (fun _ => File FD_NONE 0 0 0 0 None 0 0) |>
    <| itable := <[3%nat := inode0 <| i_ref := 1 |> <| i_valid := 1 |> <| i_nlink := 1 |>]> (fun _ => inode0) |>.
Definition demo_idle_log : log := Log 2 LOGSIZE 0 0 ROOTDEV 0 (fun _ => 0).

Lemma demo_opened_ok g : fd_ok (demo_opened g).
Proof.
  assert (forall f, (f < NFILE)%nat -> 0 < f_ref (ftable (demo_opened g) f) -> f = 5%nat) as H5.
  { intros f _. cbn. unfold insert, fn_insert. by destruct (decide (5%nat = f)) as [<-|]. }
  split.
  - intros x f Hx. assert (forallb (fun x => match ofile (demo_opened g) x with Some f => (f <? NFILE)%nat | None => true end) slots = true) as H by (vm_compute; reflexivity).
    rewrite forallb_forall in H. specialize (H x (proj1 (list_elem_of_In _ _) Hx)). intros E. rewrite E in H. by apply Nat.ltb_lt.
  - intros f Hf. assert (forallb (fun f => ((demo_opened g).(ftable) f).(f_ref) =? holders (ofile (demo_opened g)) f slots) (seq 0 NFILE) = true) as H by (vm_compute; reflexivity).
    rewrite forallb_forall in H. apply Z.eqb_eq, H, in_seq. lia.
  - intros f Hf Hr. rewrite (H5 f Hf Hr). exists 3%nat. split; [done|]. apply Nat.ltb_lt. reflexivity.
  - intros f h (F1 & F2 & _) (G1 & G2 & _) _ _. by rewrite (H5 f F1 F2), (H5 h G1 G2).
Qed.

Lemma demo_opened_puttable : puttable (demo_opened demo_idle_log) (ftable (demo_opened demo_idle_log) 5).
Proof.
  intros ip [= <-] _ _. split; [left|done]. apply (fs_idle_eq (demo_cache (buf0 <| b_dev := ROOTDEV |>) (fun _ _ => 0) demo_idle_log)); [done|].
  split; try done; [by apply demo_quiet|]. intros b Hb. cbn. unfold demo_bufs. by case_decide.
Qed.

(** A pipe end, and a file with an inode: at once, and while another hart holds the lock of
    the inode table. *)
Lemma sys_close_correct_witness :
  pst (demo_run demo_kt) [] demo_fds sys_close (fun r d' => fd_ok d' /\ r = 0 /\ (d'.(ftable) 5%nat).(f_type) = FD_NONE /\
    (d'.(pipes) 0x86005000).(pi_readopen) = 0 /\ d'.(freelist) = demo_fds.(freelist)) /\
  pst (demo_run demo_kt) [] (demo_opened demo_idle_log) sys_close (fun r d' => fd_ok d' /\ r = 0 /\
    (d'.(ftable) 5%nat).(f_type) = FD_NONE /\ (d'.(itable) 3%nat).(i_ref) = 0 /\ d'.(klog).(lg_outstanding) = 0) /\
  exists d1, d1.(klog).(lg_outstanding) = 1 /\ (d1.(itable) 3%nat).(i_ref) = 1 /\
    evals_spin (upd_lock itable_lock (fun _ => Spinlock 1 EmptyString (Some 1%nat)) (demo_run demo_kt)) []
      (demo_opened demo_idle_log) sys_close itable_lock [] d1.
Proof.
  assert (1 < NPROC)%nat as Hp by (apply Nat.ltb_lt; reflexivity).
  pose proof (sys_close_correct (demo_run demo_kt) [] demo_kt 1 demo_pid demo_fs_env Hp (demo_file_locks demo_kt)) as T.
  split; [|split].
  - assert (desc demo_fds 1 (arg_of demo_fds demo_kt 0) = Some 5%nat) as E1 by (vm_compute; reflexivity).
    destruct (T demo_fds) as [H _]; [done|done|apply demo_fd_ok|]. eapply po_mono; [apply H|].
    + rewrite E1. intros f [= <-]. apply demo_puttable.
    + rewrite E1. intros r L' d' [-> (Hok & -> & [C1 C2 C3 C4 C5] & _)]. split; [done|]. do 2 (split; [done|]). split; [by rewrite C2|].
      cbv zeta in C3. change (d'.(pipes) = alter (shut 0) 0x86005000 demo_fds.(pipes)) in C3. rewrite C3 in *. split; [done|].
      by injection C4.
  - assert (desc (demo_opened demo_idle_log) 1 (arg_of (demo_opened demo_idle_log) demo_kt 0) = Some 5%nat) as E1 by (vm_compute; reflexivity).
    destruct (T (demo_opened demo_idle_log)) as [H _]; [done|done|apply demo_opened_ok|]. eapply po_mono; [apply H|].
    + rewrite E1. intros f [= <-]. apply demo_opened_puttable.
    + rewrite E1. intros r L' d' [-> (Hok & -> & [C1 C2 C3 C4 C5] & Ho)]. split; [done|]. do 2 (split; [done|]). split; [by rewrite C2|].
      cbv zeta in C5. split; [|exact Ho]. by rewrite C5.
  - destruct (T (demo_opened demo_idle_log)) as [_ H]; [done|done|apply demo_opened_ok|].
    destruct (H (upd_lock itable_lock (fun _ => Spinlock 1 EmptyString (Some 1%nat)) (demo_run demo_kt)) 5%nat 3%nat)
      as (d1 & K & I & Hs); try done; [by left|]. exists (reserved d1).
    split; [cbn; by rewrite K|]. split; [cbn; by rewrite I|]. exact Hs.
Defined.

Lemma dup_close_race_witness : exists d1,
  desc d1 1 2 = Some 5%nat /\
  gets_to (demo_run demo_kt) demo_fds sys_dup d1 (_ ← filedup 5; mret 2) /\
  evals_spin (upd_lock ftable_lock (fun _ => Spinlock 1 EmptyString (Some 1%nat)) (demo_run demo_kt)) []
    demo_fds sys_dup ftable_lock [] d1 /\
  pst (demo_run (1, 1)%nat) [] d1 sys_close (fun r d2 => r = 0 /\
    evals_panic (demo_run demo_kt) [] d2 (_ ← filedup 5; mret 2) "filedup").
Proof.
  assert (exists l, free_fds demo_fds 1 = 2%nat :: l) as [l E2] by (eexists; vm_compute; reflexivity).
  destruct (dup_close_race (demo_run demo_kt) (demo_run (1, 1)%nat) demo_kt (1, 1)%nat 1 demo_pid demo_fds 2 l 5)
    as (d1 & H0 & _ & H1 & H2 & H3).
  - apply Nat.ltb_lt. reflexivity.
  - apply demo_fs_env.
  - split; [done|..]; intros ? _; intros; (split; [apply not_elem_of_nil|apply demo_run_free]).
  - apply demo_file_locks.
  - apply demo_file_locks.
  - done.
  - done.
  - done.
  - done.
  - apply demo_fd_ok.
  - vm_compute. reflexivity.
  - vm_compute. reflexivity.
  - reflexivity.
  - exact E2.
  - apply demo_puttable.
  - exists d1. split; [exact H0|]. split; [exact H1|]. split; [by apply H2|exact H3].
Defined.
End witnesses.
