(* ===== verification/ForkSpec.v ===== *)
(** * What fork guarantees (kernel/proc.c)

    [fork] composes the allocation of a process, a thread and a page table, the copy of
    the address space, and the sharing of the open files and of the current directory.
    The theorem states what the child is: a process of its own with the memory, the
    registers, the files and the directory of its parent. *)
From S2P Require Export FileSpec VmSpec KthreadSpec.

Section fork.
Context `{KI : KernelImage} {KIok : KernelImageOk} `{WF : WaitFuel} `{DDok : DiskDriverOk}.

(** ** The page table of a new process *)

Section pagetable.
Context (l0 : lockst) (L : list lockptr).
Hypothesis (Hk : kmem_lock ∉ L) (Hfree : lfree l0 kmem_lock).

(** An address space without pages, whose page table is made of pages of [fl]. *)
Record fresh_space (m : bytes) (fl : list Z) (root : Z) (m' : bytes) (fl' : list Z) : Prop := {
  fs_space : uspace m' root 0 fl';
  fs_used : exists used, fl = used ++ fl';
  fs_count : (length fl <= 5 + length fl')%nat;
  fs_none : forall va, 0 <= va < TRAPFRAME 0 -> va mod PGSIZE = 0 -> vlookup m' root va = None;
  fs_tree : forall q, in_tree m' root q -> q ∈ fl /\ q ∉ fl';
  fs_frame : forall q i, q mod PGSIZE = 0 -> q ∉ fl -> 0 <= i < PGSIZE -> m' (q + i) = m (q + i);
}.

Lemma ev_uvmcreate d q fl : kmem_inv d (q :: fl) ->
  exists m, let d' := with_mem d m (load64 d.(mem) q) in
    evals l0 L d uvmcreate q L d' /\ kmem_inv d' fl /\ page_ok q /\ (q ∉ fl) /\
    (forall i, 0 <= i < PGSIZE -> m (q + i) = 0) /\ same_outside q d.(mem) m.
Proof.
  intros Hi. pose proof (is_freelist_ok _ _ _ (proj1 Hi)) as Hq. apply Forall_inv in Hq.
  pose proof (proj2 Hi) as Hnd. apply NoDup_cons in Hnd as [Hnd Hnd'].
  exists (memset (memset d.(mem) q 5 PGSIZE) q 0 PGSIZE). split; [|split; [|split; [done|split; [done|split]]]].
  - unfold uvmcreate. eapply ev_bind; [by eapply ev_kalloc_some|]. cbn beta.
    rewrite (proj2 (Z.eqb_neq q 0)) by (apply page_ok_pos in Hq; lia).
    eapply ev_bind; [apply ev_kmemset|]. apply ev_ret.
  - destruct (kalloc_inv _ _ _ Hi) as [Hl _]. split; [|done]. cbn in *.
    eapply is_freelist_same; [apply Hq| |done|exact Hl]. intros x Hx. by rewrite memset_out.
  - intros i Hr. apply memset_in. lia.
  - intros x Hx. by rewrite !memset_out.
Qed.

(** A page without [PTE_U] is not for user code. *)
Lemma upage_kernel m root va pa perm : vlookup m root va = Some (mk_pte pa perm) -> 0 <= pa < 2 ^ 64 -> 0 <= perm < 2 ^ 10 -> Z.land perm PTE_U = 0 ->
  upage m root va = None.
Proof.
  intros Hv Ha Hp Hu. unfold upage. rewrite Hv. cbn.
  rewrite (pte_land_flags (mk_pte _ _)), PTE_FLAGS_mk_pte by (unfold PTE_U; lia).
  by rewrite Z.land_lor_distr_l, Hu, (Z.lor_0_l (Z.land PTE_V PTE_U)).
Qed.

(** One more page for the kernel. *)
Lemma ev_map_kernel d root va pa perm fl : pt_wf d.(mem) root fl -> kmem_inv d fl -> (2 <= length fl)%nat ->
  va mod PGSIZE = 0 -> 0 <= va -> va + PGSIZE <= MAXVA -> 0 <= pa < PHYSTOP -> 0 <= perm < 2 ^ 10 -> vlookup d.(mem) root va = None ->
  exists m f fl', let d' := with_mem d m f in
    evals l0 L d (mappages root va PGSIZE pa perm) 0 L d' /\ kmem_inv d' fl' /\
    pt_map root d.(mem) fl m fl' va 1 pa perm /\ (length fl <= 2 + length fl')%nat.
Proof.
  intros Hw Hi Hl Ha H0 Hm Hp Hperm Hn. assert ((va + PGSIZE - 1) / PGSIZE - va / PGSIZE = 0) as E.
  { unfold PGSIZE in *. Z.div_mod_to_equations. lia. }
  destruct (ev_mappages l0 L Hk Hfree root va PGSIZE pa perm d fl) as (r & m & f & fl' & k & Hev & Hmap & Hi' & Hlen & Hr); try done.
  - apply Hp.
  - rewrite E. unfold PHYSTOP, KERNBASE in Hp. lia.
  - intros a Hr Hal. rewrite PGROUNDDOWN_aligned in Hr by done. assert (a = va) as -> by (unfold PGSIZE in *; Z.div_mod_to_equations; lia). done.
  - rewrite E in Hlen, Hr. rewrite PGROUNDDOWN_aligned in Hmap by done. destruct Hr as [[-> Hk1]|(_ & _ & _ & Hs)]; [|lia].
    assert (k = 1%nat) as -> by lia. exists m, f, fl'. split; [exact Hev|]. split; [exact Hi'|]. split; [done|lia].
Qed.

Lemma ev_proc_pagetable d np fl (base := (d.(procs) np).(p_base_trapframes)) : kmem_inv d fl -> (5 <= length fl)%nat -> 0 <= base < PHYSTOP ->
  exists root m f fl', let d' := with_mem d m f in
    evals l0 L d (proc_pagetable np) root L d' /\ kmem_inv d' fl' /\ root <> 0 /\ fresh_space d.(mem) fl root m fl'.
Proof.
  intros Hi Hl Hb. destruct fl as [|root fl]; [cbn in Hl; lia|]. cbn [length] in Hl.
  destruct (ev_uvmcreate d root fl Hi) as (m1 & Hev1 & Hi1 & Hok & Hnf & Hz & Ho). cbv zeta in Hev1, Hi1.
  set (d1 := with_mem d m1 _) in *. pose proof (page_ok_pos root Hok) as Hpos.
  assert (forall q, in_tree m1 root q -> q = root) as Ht1.
  { intros q (π & Hπ & E). rewrite tbl_zero in E by done. destruct π; [|done]. by injection E. }
  destruct k_trampoline_page as [Hta Htr].
  destruct (ev_map_kernel d1 root TRAMPOLINE k_trampoline (Z.lor PTE_R PTE_X) fl) as (m2 & f2 & fl2 & Hev2 & Hi2 & Hm2 & Hl2); try done; [by apply pt_wf_zero|lia|lia|by apply vlookup_zero|].
  cbv zeta in Hev2, Hi2. set (d2 := with_mem d1 m2 f2) in *. change (mem d1) with m1 in Hm2.
  destruct (ev_map_kernel d2 root (TRAPFRAME 0) base (Z.lor PTE_R PTE_W) fl2) as (m3 & f3 & fl3 & Hev3 & Hi3 & Hm3 & Hl3); try done; [apply Hm2|lia| |].
  { rewrite (pm_lookup _ _ _ _ _ _ _ _ _ Hm2) by done. rewrite decide_False by (vm_compute; intuition congruence). by apply vlookup_zero. }
  cbv zeta in Hev3, Hi3. change (mem d2) with m2 in Hm3. exists root, m3, f3, fl3.
  assert (forall va, 0 <= va < MAXVA -> va mod PGSIZE = 0 -> vlookup m3 root va = None \/
    exists pa perm, vlookup m3 root va = Some (mk_pte pa perm) /\ 0 <= pa < 2 ^ 64 /\ 0 <= perm < 2 ^ 10 /\ Z.land perm PTE_U = 0 /\ TRAPFRAME 0 <= va) as Hv3.
  { intros va Hva Hal. rewrite (pm_lookup _ _ _ _ _ _ _ _ _ Hm3) by done. case_decide as E3; [right; do 2 eexists; split; [done|]; split; [unfold PHYSTOP, KERNBASE, PGSIZE in *; lia|]; split; [done|]; split; [done|lia]|].
    rewrite (pm_lookup _ _ _ _ _ _ _ _ _ Hm2) by done. case_decide as E2; [right; do 2 eexists; split; [done|]; split; [unfold PHYSTOP, KERNBASE, PGSIZE in *; lia|]; split; [done|]; split; [done|]|left; by apply vlookup_zero].
    unfold TRAPFRAME, sizeof_trapframe, PGSIZE in *. lia. }
  split; [|split; [exact Hi3|split; [lia|]]].
  - unfold proc_pagetable. eapply ev_bind; [exact Hev1|]. cbn beta. rewrite (proj2 (Z.eqb_neq root 0)) by lia.
    eapply ev_bind; [exact Hev2|]. cbn beta iota. eapply ev_bind; [apply ev_p_get|]. eapply ev_bind; [exact Hev3|]. apply ev_ret.
  - split.
    + split; [done|]. split; [apply Hm3|unfold below; lia..|]. intros va q Hva Hal. destruct (Hv3 va Hva Hal) as [E|(pa & perm & E & P1 & P2 & P3 & _)].
      * unfold upage. by rewrite E.
      * by rewrite (upage_kernel _ _ _ _ _ E).
    + destruct (pm_fl _ _ _ _ _ _ _ _ _ Hm2) as [u2 E2], (pm_fl _ _ _ _ _ _ _ _ _ Hm3) as [u3 E3]. exists (root :: u2 ++ u3). rewrite E2, E3. cbn. by rewrite (assoc_L (++)).
    + cbn [length]. lia.
    + intros va Hva Hal. destruct (Hv3 va) as [E|(pa & perm & _ & _ & _ & _ & E)]; [|done|done|lia]. unfold TRAPFRAME, TRAMPOLINE, sizeof_trapframe, PGSIZE in Hva. lia.
    + intros q Hq. split; [|by apply (wf_free _ _ _ (pm_wf _ _ _ _ _ _ _ _ _ Hm3))].
      destruct (pm_fl _ _ _ _ _ _ _ _ _ Hm2) as [u2 E2]. apply (pm_tree _ _ _ _ _ _ _ _ _ Hm3) in Hq as [Hq|Hq].
      * apply (pm_tree _ _ _ _ _ _ _ _ _ Hm2) in Hq as [->%Ht1|Hq]; [by left|by right].
      * right. rewrite E2. apply elem_of_app. by right.
    + intros q i Hal Hq Hr. apply not_elem_of_cons in Hq as [Hq1 Hq2]. destruct (pm_fl _ _ _ _ _ _ _ _ _ Hm2) as [u2 E2].
      rewrite (pm_frame _ _ _ _ _ _ _ _ _ Hm3), (pm_frame _ _ _ _ _ _ _ _ _ Hm2); [|done|done|by intros ->%Ht1|done|done| | |done].
      * apply Ho. pose proof (pages_disjoint q root Hal (proj1 Hok) Hq1). lia.
      * intros Hin. apply Hq2. rewrite E2. apply elem_of_app. by right.
      * intros [->%Ht1|Hin]%(pm_tree _ _ _ _ _ _ _ _ _ Hm2); done.
Qed.
End pagetable.

(** ** Allocation of a process *)

(** The same process, with the same threads. *)
Definition proc_eq (x y : proc) : Prop :=
  y = x <| p_kthread := y.(p_kthread) |> /\ forall k, y.(p_kthread) k = x.(p_kthread) k.

Section alloc.
Context (l0 : lockst).
Hypothesis Hall : forall lk, lfree l0 lk.

Lemma ev_find_unused d l1 np l2 : all_procs = l1 ++ np :: l2 -> (forall q, q ∈ l1 -> (d.(procs) q).(p_state) <> UNUSED) -> (d.(procs) np).(p_state) = UNUSED ->
  evals l0 [] d find_unused (Some np) [p_lock np] d.
Proof.
  intros El Hu Hn. unfold find_unused. rewrite El. eapply ev_scan_found.
  - intros q Hq. tev1. { apply ev_acquire; [apply not_elem_of_nil|apply Hall]. } tev1. { tev1. } cbn beta. rewrite bool_decide_eq_false_2 by auto. tev.
  - tev1. { apply ev_acquire; [apply not_elem_of_nil|apply Hall]. } tev1. { tev1. } cbn beta. rewrite bool_decide_eq_true_2 by done. tev.
Qed.

(** What [allocproc] makes of the slot [np]: its page table is [root], the page of its
    trapframes is [base]. *)
Record allocated (d : kdata) (np : nat) (fl : list Z) (d' : kdata) (root base : Z) (fl' : list Z) : Prop := {
  al_others : forall q, q <> np -> proc_eq (d.(procs) q) (d'.(procs) q);
  al_state : (d'.(procs) np).(p_state) = USED;
  al_pid : (d'.(procs) np).(p_pid) = d.(nextpid);
  al_root : (d'.(procs) np).(p_pagetable) = root;
  al_ofile : (d'.(procs) np).(p_ofile) = (d.(procs) np).(p_ofile);
  al_thread : the_kt d' (np, 0%nat) = the_kt d (np, 0%nat) <| kt_tid := 1 |> <| kt_state := USED_t |> <| kt_process := Some np |>
    <| kt_trapframe := base |> <| kt_context := context0 <| c_ra := k_forkret |> <| c_sp := (the_kt d (np, 0%nat)).(kt_kstack) + PGSIZE |> |>;
  al_rest : d' = d <| procs := d'.(procs) |> <| mem := d'.(mem) |> <| freelist := d'.(freelist) |> <| nextpid ::= fun n => s32 (n + 1) |>;
  al_kmem : kmem_inv d' fl';
  al_used : exists used, fl = used ++ fl';
  al_count : (length fl <= 6 + length fl')%nat;
  al_base : page_ok base /\ base ∈ fl /\ base ∉ fl' /\ ~ in_tree d'.(mem) root base;
  al_space : uspace d'.(mem) root 0 fl';
  al_none : forall va, 0 <= va < TRAPFRAME 0 -> va mod PGSIZE = 0 -> vlookup d'.(mem) root va = None;
  al_tree : forall q, in_tree d'.(mem) root q -> q ∈ fl /\ q ∉ fl';
  al_frame : forall q i, q mod PGSIZE = 0 -> q ∉ fl -> 0 <= i < PGSIZE -> d'.(mem) (q + i) = d.(mem) (q + i);
}.

Lemma ev_allocproc d l1 np l2 fl : all_procs = l1 ++ np :: l2 -> (forall q, q ∈ l1 -> (d.(procs) q).(p_state) <> UNUSED) ->
  (d.(procs) np).(p_state) = UNUSED -> (the_kt d (np, 0%nat)).(kt_state) = UNUSED_t -> kmem_inv d fl -> (6 <= length fl)%nat ->
  exists d' root base fl', evals l0 [] d allocproc (Some np) [t_lock (np, 0%nat); p_lock np] d' /\ allocated d np fl d' root base fl'.
Proof.
  intros El Hu Hn Ht Hi Hl. destruct fl as [|base fl]; [cbn in Hl; lia|]. cbn [length] in Hl.
  pose proof (is_freelist_ok _ _ _ (proj1 Hi)) as Hb. apply Forall_inv in Hb. pose proof (proj2 Hi) as Hnd. apply NoDup_cons in Hnd as [Hnd _].
  pose proof (page_ok_pos base Hb) as Hpos.
  set (da := upd_proc np (fun x => x <| p_state := USED |>) (upd_proc np (fun x => x <| p_pid := nextpid d |>)
    (upd_proc np (fun x => x <| p_counter := 1 |>) d <| nextpid := s32 (nextpid d + 1) |>))).
  set (dc := upd_proc np (fun x => x <| p_base_trapframes := base |>) (kalloc_d base da)).
  assert (kmem_inv (kalloc_d base da) fl) as Hi1 by (by apply kalloc_inv).
  assert (procs dc np = procs d np <| p_counter := 1 |> <| p_pid := nextpid d |> <| p_state := USED |> <| p_base_trapframes := base |>) as Enp.
  { unfold dc, da, upd_proc. cbn. by rewrite !fn_lookup_alter. }
  destruct (ev_allockthread_found l0 [p_lock np] np) with (d := dc) (l1 := @nil nat) (k := 0%nat) (l2 := seq 1 9) as (de & Hev1 & He); try done.
  { intros H%list_elem_of_singleton. done. }
  { intros k Hk. split; [by intros H%list_elem_of_singleton|apply Hall]. }
  { intros j Hj. by apply elem_of_nil in Hj. }
  { unfold the_kt in *. cbn [fst snd]. by rewrite Enp. }
  destruct (ae_proc _ _ _ _ He np) as [g Ege]. rewrite decide_True, Enp in Ege by done. cbn in Ege.
  assert (de = dc <| procs := procs de |>) as Ede by apply (ae_rest _ _ _ _ He).
  assert (mem de = mem (kalloc_d base da) /\ freelist de = freelist (kalloc_d base da)) as [Em Ef] by (rewrite Ede; done).
  assert (kmem_inv de fl) as Hi2 by (unfold kmem_inv in *; by rewrite Em, Ef).
  destruct (ev_proc_pagetable l0 [t_lock (np, 0%nat); p_lock np]) with (d := de) (np := np) (fl := fl) as (root & m & f & fl' & Hev2 & Hi3 & Hr0 & Hfs).
  { by intros [H|H%list_elem_of_singleton]%elem_of_cons. }
  { apply Hall. }
  { exact Hi2. }
  { lia. }
  { rewrite Ege. cbn. destruct Hb as [_ Hb]. lia. }
  cbv zeta in Hev2, Hi3. set (dg := upd_proc np (fun x => x <| p_pagetable := root |>) (with_mem de m f)).
  exists dg, root, base, fl'. split.
  - unfold allocproc. tev1. { by eapply ev_find_unused. } cbn beta iota. tev1. { tev1. }
    tev1. { unfold allocpid. tev1. { apply ev_acquire; [by intros H%list_elem_of_singleton|apply Hall]. } tev1. { tev1. } tev1. { tev1. } tev1. { tev1. } apply ev_ret. }
    tev1. { tev1. } tev1. { tev1. } tev1. { eapply ev_kalloc_some; [| |exact (Hi : kmem_inv da _)]; [by intros H%list_elem_of_singleton|apply Hall]. }
    tev1. { tev1. } cbn beta. rewrite (proj2 (Z.eqb_neq base 0)) by lia. tev1. { exact Hev1. } cbn beta iota. tev1. { exact Hev2. } tev1. { tev1. }
    cbn beta. rewrite (proj2 (Z.eqb_neq root 0)) by done. apply ev_ret.
  - assert (procs dg np = procs de np <| p_pagetable := root |>) as Egn by (unfold dg, upd_proc; cbn; by rewrite fn_lookup_alter).
    assert (forall q, q <> np -> procs dg q = procs de q) as Ego by (intros q Hq; unfold dg, upd_proc; cbn; by rewrite fn_lookup_alter_ne).
    assert (forall q, q <> np -> procs dc q = procs d q) as Eco by (intros q Hq; unfold dc, da, upd_proc; cbn; by rewrite !fn_lookup_alter_ne).
    rewrite Em in Hfs. change (mem (kalloc_d base da)) with (memset (mem d) base 5 PGSIZE) in Hfs. pose proof Hfs as [S1 [u S2] S3 S4 S5 S6].
    split.
    + intros q Hq. destruct (ae_proc _ _ _ _ He q) as [h Eh]. rewrite decide_False, Eco in Eh by done. unfold proc_eq. rewrite (Ego q Hq). split.
      * rewrite Eh. by destruct (procs d q).
      * intros k. change (the_kt de (q, k) = the_kt d (q, k)). rewrite (ae_kt _ _ _ _ He), decide_False by congruence. unfold the_kt. cbn [fst snd]. by rewrite Eco.
    + by rewrite Egn, Ege.
    + by rewrite Egn, Ege.
    + by rewrite Egn.
    + by rewrite Egn, Ege.
    + unfold the_kt at 1. cbn [fst snd]. rewrite Egn. change (the_kt de (np, 0%nat) = the_kt d (np, 0%nat) <| kt_tid := 1 |> <| kt_state := USED_t |> <| kt_process := Some np |>
        <| kt_trapframe := base |> <| kt_context := context0 <| c_ra := k_forkret |> <| c_sp := (the_kt d (np, 0%nat)).(kt_kstack) + PGSIZE |> |>).
      rewrite (ae_kt _ _ _ _ He), decide_True by done. unfold new_thread, the_kt. cbn [fst snd]. rewrite Enp. cbn. by rewrite Z.add_0_r.
    + change (dg = d <| procs := procs dg |> <| mem := m |> <| freelist := f |> <| nextpid := s32 (nextpid d + 1) |>). unfold dg at 1. rewrite Ede. reflexivity.
    + exact Hi3.
    + exists (base :: u). by rewrite S2.
    + cbn [length]. lia.
    + split; [done|]. split; [by left|]. split; [intros H; apply Hnd; rewrite S2; apply elem_of_app; by right|]. intros [H _]%S5. by apply Hnd.
    + exact S1.
    + exact S4.
    + intros q Hq. destruct (S5 q Hq). split; [by right|done].
    + intros q i Hq Hnq Hr. apply not_elem_of_cons in Hnq as [N1 N2]. change (mem dg) with m. rewrite S6 by done. apply memset_out.
      pose proof (pages_disjoint q base Hq (proj1 Hb) N1). lia.
Qed.
End alloc.

(** ** The open files *)

(** The loop of [fork] over the descriptors. *)
Definition share_file (p np i : nat) : M unit :=
  f ← p_get p (fun x => x.(p_ofile) i);
  match f with
  | Some f =>
      f' ← filedup f;
      p_set np (fun x => x <| p_ofile ::= <[i := Some f']> |>)
  | None => mret tt
  end.

(** [d'] is [d] with other descriptors in process [np]. *)
Record shared (np : nat) (d d' : kdata) : Prop := {
  sh_others : forall q, q <> np -> d'.(procs) q = d.(procs) q;
  sh_child : exists o, d'.(procs) np = d.(procs) np <| p_ofile := o |>;
  sh_rest : d' = d <| procs := d'.(procs) |> <| ftable := d'.(ftable) |>;
}.

#[export] Instance shared_preorder np : PreOrder (shared np).
Proof.
  split.
  - intros d. split; [done|exists (p_ofile (procs d np)); by destruct (procs d np)|by destruct d].
  - intros d1 d2 d3 [A1 [o1 A2] A3] [B1 [o2 B2] B3]. split.
    + intros q Hq. by rewrite B1, A1.
    + exists o2. by rewrite B2, A2.
    + rewrite B3, A3. done.
Qed.

Lemma shared_dup np i f d : shared np d (dup_d np i f d).
Proof.
  split; [|eexists|done].
  - intros q Hq. unfold dup_d, set_fd, upd_proc. cbn. by rewrite fn_lookup_alter_ne.
  - unfold dup_d, set_fd, upd_proc. cbn. by rewrite fn_lookup_alter.
Qed.

Section files.
Context (l0 : lockst) (L : list lockptr) (p np : nat).
Hypothesis (Hlk : ftable_lock ∉ L) (Hfl : lfree l0 ftable_lock).
Hypothesis (Hp : (p < NPROC)%nat) (Hnp : (np < NPROC)%nat) (Hne : p <> np).

Lemma ev_share_file d i : fd_ok d -> (i < NOFILE)%nat -> ofile d (np, i) = None ->
  exists d', evals l0 L d (share_file p np i) tt L d' /\ fd_ok d' /\ shared np d d' /\
    forall y, ofile d' y = if decide (y = (np, i)) then ofile d (p, i) else ofile d y.
Proof.
  intros Hok Hi Hn. destruct (ofile d (p, i)) as [f|] eqn:Ef.
  - pose proof (slots_elem p i Hp Hi) as Hs. pose proof (fd_file _ Hok _ _ Hs Ef) as Hf. exists (dup_d np i f d). split; [|split; [|split]].
    + unfold share_file. eapply ev_bind; [apply ev_p_get|]. cbn beta. change (p_ofile (procs d p) i) with (ofile d (p, i)). rewrite Ef.
      assert (0 < (ftable d f).(f_ref)) as Hr by (rewrite (fd_ref _ Hok) by done; by eapply holders_pos).
      eapply ev_bind.
      { unfold filedup. tev1. { tev1. } tev1. { apply ev_getd. } cbn beta. rewrite (proj2 (Z.ltb_ge _ _)) by lia. tev1. { apply ev_modd. } tev1. { tev1. } apply ev_ret. }
      cbn beta. eapply evals_eq; [apply ev_p_set|done|done|reflexivity].
    + eapply fd_ok_dup; try done. by apply slots_elem.
    + apply shared_dup.
    + apply ofile_set_fd.
  - exists d. split; [|split; [done|split; [done|]]].
    + unfold share_file. eapply ev_bind; [apply ev_p_get|]. cbn beta. change (p_ofile (procs d p) i) with (ofile d (p, i)). rewrite Ef. apply ev_ret.
    + intros y. by case_decide as E; [rewrite E|].
Qed.

Lemma ev_share_files l d : fd_ok d -> NoDup l -> (forall i, i ∈ l -> (i < NOFILE)%nat /\ ofile d (np, i) = None) ->
  exists d', evals l0 L d (forM l (share_file p np)) tt L d' /\ fd_ok d' /\ shared np d d' /\
    (forall i, i ∈ l -> ofile d' (np, i) = ofile d (p, i)) /\
    (forall y, y.1 <> np \/ y.2 ∉ l -> ofile d' y = ofile d y).
Proof.
  intros Hok Hnd. revert d Hok. induction Hnd as [|i l Hi Hnd IH]; intros d Hok Hl.
  - exists d. split; [apply ev_ret|]. split; [done|]. split; [done|]. split; [|done]. intros i Hi. by apply elem_of_nil in Hi.
  - destruct (Hl i ltac:(by left)) as [H1 H2]. destruct (ev_share_file d i Hok H1 H2) as (d1 & Hev & Hok1 & Hs1 & Ho1).
    destruct (IH d1 Hok1) as (d' & Hev' & Hok' & Hs' & Hn' & Ho').
    + intros j Hj. destruct (Hl j ltac:(by right)) as [H3 H4]. split; [done|]. rewrite Ho1, decide_False; [done|]. by intros [= ->].
    + exists d'. split; [|split; [done|split; [by etrans|split]]].
      * cbn [forM]. eapply ev_bind; [exact Hev|]. exact Hev'.
      * intros j [->|Hj]%elem_of_cons.
        -- rewrite Ho' by (by right). by rewrite Ho1, decide_True.
        -- rewrite Hn' by done. rewrite Ho1, decide_False; [done|]. by intros [= -> _].
      * intros y Hy. rewrite Ho', Ho1.
        -- rewrite decide_False; [done|]. intros ->. cbn in Hy. destruct Hy as [|Hy]; [done|]. apply Hy. by left.
        -- destruct Hy as [|Hy]; [by left|right]. intros H. apply Hy. by right.
Qed.
End files.

(** ** The theorem *)

Section theorem.
Context (l0 : lockst) (d : kdata) (kt : kptr) (p np cwd : nat) (l1 l2 : list nat) (own : Z -> Prop) (fl : list Z) (b : Z).
Let old := (d.(procs) p).(p_pagetable).
Let sz := (d.(procs) p).(p_sz).
Let tf := (the_kt d kt).(kt_trapframe).
Let pages := PGROUNDUP sz / PGSIZE.

(** Thread [kt] of process [p] calls [fork]; [np] is the first unused slot of the
    process table, and the trapframe of [kt] is in page [b]. *)
Record fork_pre : Prop := {
  fp_run : running l0 = Some kt;
  fp_locks : forall lk, lfree l0 lk;
  fp_kt : kt.1 = p /\ (the_kt d kt).(kt_process) = Some p /\ (p < NPROC)%nat /\ (d.(procs) p).(p_state) <> UNUSED;
  fp_slot : all_procs = l1 ++ np :: l2 /\ (forall q, q ∈ l1 -> (d.(procs) q).(p_state) <> UNUSED);
  fp_unused : (d.(procs) np).(p_state) = UNUSED /\ (the_kt d (np, 0%nat)).(kt_state) = UNUSED_t /\ forall i, ofile d (np, i) = None;
  fp_kmem : kmem_inv d fl /\ (6 <= length fl)%nat;
  fp_space : uown d.(mem) old own fl /\ 0 <= sz <= TRAPFRAME 0 /\ (forall va, below sz va -> own va);
  fp_tf : b mod PGSIZE = 0 /\ (b ∉ fl) /\ 0 < b <= tf /\ tf + sizeof_trapframe <= b + PGSIZE;
  fp_cwd : (d.(procs) p).(p_cwd) = Some cwd;
  fp_files : fd_ok d;
}.

(** The child: a process of its own, with the memory, the registers except for [a0], the
    open files and the directory of the parent. *)
Record forked (d' : kdata) (root : Z) (fl' : list Z) : Prop := {
  fk_others : forall q, q <> np -> proc_eq (d.(procs) q) (d'.(procs) q);
  fk_child : let c := d'.(procs) np in
    c.(p_state) = USED /\ c.(p_pid) = d.(nextpid) /\ c.(p_parent) = Some p /\ c.(p_sz) = sz /\ c.(p_pagetable) = root /\ c.(p_cwd) = Some cwd;
  fk_nextpid : d'.(nextpid) = s32 (d.(nextpid) + 1);
  fk_thread : let t := the_kt d' (np, 0%nat) in
    t.(kt_state) = RUNNABLE_t /\ t.(kt_process) = Some np /\ t.(kt_context).(c_ra) = k_forkret;
  fk_regs : let t := (the_kt d' (np, 0%nat)).(kt_trapframe) in
    load64 d'.(mem) (t + tf_a0) = 0 /\
    forall i, 0 <= i < sizeof_trapframe -> i < tf_a0 \/ tf_a0 + 8 <= i -> d'.(mem) (t + i) = d.(mem) (tf + i);
  fk_kmem : kmem_inv d' fl';
  fk_space : copying old root own d'.(mem) (PGROUNDUP sz) fl';
  fk_memory : forall va, 0 <= va < PGROUNDUP sz ->
    vread d'.(mem) root va = vread d.(mem) old va /\ vread d'.(mem) old va = vread d.(mem) old va;
  fk_files : fd_ok d' /\ (forall i, (i < NOFILE)%nat -> ofile d' (np, i) = ofile d (p, i));
  fk_cwd : forall j, (d'.(itable) j).(i_ref) = (d.(itable) j).(i_ref) + if decide (j = cwd) then 1 else 0;
}.

Hypothesis Hpre : fork_pre.

Lemma fork_np : (np < NPROC)%nat /\ p <> np.
Proof.
  pose proof Hpre as [_ _ (_ & _ & _ & Hu) [El _] (Hn & _) _ _ _ _ _]. split; [|intros E; apply Hu; by rewrite E].
  assert (np ∈ all_procs) as H by (rewrite El; apply elem_of_app; right; by left). unfold all_procs in H. apply elem_of_seq in H. lia.
Qed.

(** The parent's memory is not in the free list. *)
Lemma old_same m' fl' : (forall q i, q mod PGSIZE = 0 -> q ∉ fl -> 0 <= i < PGSIZE -> m' (q + i) = d.(mem) (q + i)) -> (forall q, q ∈ fl' -> q ∈ fl) ->
  uown m' old own fl' /\ keeps old own d.(mem) m' /\ (forall q, pages_of m' old own q -> q ∉ fl).
Proof.
  intros Hm Hs. destruct (fp_space Hpre) as (Hu & _ & _). assert (forall q, pages_of d.(mem) old own q -> page_ok q /\ q ∉ fl) as Hq by (intros; by eapply pages_of_ok).
  destruct (uown_agree d.(mem) m' old own fl fl' Hu) as (H1 & H2 & _ & H4).
  - intros q i Hp Hi. destruct (Hq q Hp) as [[Mq _] Hn]. by apply Hm.
  - intros q Hp Hin. destruct (Hq q Hp) as [_ Hn]. by apply Hn, Hs.
  - split; [done|]. split; [done|]. intros q Hp. by apply Hq, H4.
Qed.

Section memory.
Context (d1 : kdata) (root base : Z) (fl1 : list Z).
Hypothesis Hal : allocated d np fl d1 root base fl1.

Lemma alloc_sub q : q ∈ fl1 -> q ∈ fl.
Proof. destruct (al_used _ _ _ _ _ _ _ Hal) as [u ->]. intros Hq. apply elem_of_app. by right. Qed.

Lemma fork_copying : copying old root own d1.(mem) 0 fl1.
Proof.
  destruct (old_same d1.(mem) fl1) as (H1 & _ & H3); [apply (al_frame _ _ _ _ _ _ _ Hal)|apply alloc_sub|].
  split; [done|apply (al_space _ _ _ _ _ _ _ Hal)|]. intros q Hq [Ht|(va & pte & Hva & _)]; [|unfold below in Hva; lia].
  apply (H3 q Hq). by apply (al_tree _ _ _ _ _ _ _ Hal).
Qed.

Context (m2 m5 : bytes) (fl2 : list Z).
Hypothesis Hg : grown root d1.(mem) 0 fl1 m2 (PGROUNDUP sz) fl2.
Hypothesis Hm2 : copying old root own m2 (PGROUNDUP sz) fl2.
Hypothesis Hm5 : same_outside base m2 m5.

Lemma fork_sub q : q ∈ fl2 -> q ∈ fl1.
Proof. destruct (gr_used _ _ _ _ _ _ _ Hg) as [u ->]. intros Hq. apply elem_of_app. by right. Qed.

Lemma fork_frame2 q i : q mod PGSIZE = 0 -> q ∉ fl -> 0 <= i < PGSIZE -> m2 (q + i) = d.(mem) (q + i).
Proof.
  intros Hq Hn Hi. rewrite (gr_frame _ _ _ _ _ _ _ Hg); [by apply (al_frame _ _ _ _ _ _ _ Hal)|done|by intros ?%alloc_sub| |done].
  intros Ht. by apply Hn, (al_tree _ _ _ _ _ _ _ Hal).
Qed.

Lemma fork_frame q i : q mod PGSIZE = 0 -> q ∉ fl -> 0 <= i < PGSIZE -> m5 (q + i) = d.(mem) (q + i).
Proof.
  intros Hq Hn Hi. destruct (al_base _ _ _ _ _ _ _ Hal) as ([Mb _] & Hb & _). rewrite Hm5; [by apply fork_frame2|].
  assert (q <> base) as Hne by (intros ->; done). pose proof (pages_disjoint q base Hq Mb Hne). lia.
Qed.

(** The pages of the child. *)
Lemma fork_child_pages q : pages_of m2 root (below (PGROUNDUP sz)) q -> q ∈ fl /\ q <> base.
Proof.
  destruct (al_base _ _ _ _ _ _ _ Hal) as (_ & _ & Hb & Ht).
  intros [Hq|[Hq|(va & pte & Hva & _)]]%(gr_pages _ _ _ _ _ _ _ Hg); [| |unfold below in Hva; lia].
  - split; [by apply alloc_sub|by intros ->].
  - split; [by apply (al_tree _ _ _ _ _ _ _ Hal)|by intros ->].
Qed.

Lemma fork_spaces : copying old root own m5 (PGROUNDUP sz) fl2 /\ forall va, 0 <= va < PGROUNDUP sz ->
  (vread m2 root va = vread m2 old va -> vread m5 root va = vread d.(mem) old va) /\ vread m5 old va = vread d.(mem) old va.
Proof.
  destruct (old_same m5 fl2) as (H1 & H2 & H3); [apply fork_frame|intros q Hq; by apply alloc_sub, fork_sub|].
  destruct (old_same m2 fl2) as (_ & H2' & _); [apply fork_frame2|intros q Hq; by apply alloc_sub, fork_sub|].
  destruct Hm2 as [_ [Hmax Hn] _]. destruct (al_base _ _ _ _ _ _ _ Hal) as ([Mb _] & _).
  destruct (uown_agree m2 m5 root (below (PGROUNDUP sz)) fl2 fl2 Hn) as (G1 & G2 & _ & G4).
  - intros q i Hq Hi. destruct (fork_child_pages q Hq) as [_ Hne]. destruct (pages_of_ok _ _ _ _ _ Hn Hq) as [[Mq _] _].
    apply Hm5. pose proof (pages_disjoint q base Mq Mb Hne). lia.
  - intros q Hq. by destruct (pages_of_ok _ _ _ _ _ Hn Hq).
  - split; [split; [done|by split|]|].
    + intros q Hq Hc%G4. destruct (fork_child_pages q Hc) as [Hin _]. by apply (H3 q Hq).
    + intros va Hva. destruct (fp_space Hpre) as (_ & Hsz & Hown). destruct (PGROUNDDOWN_bound va) as [Ma Ba]. destruct (PGROUNDUP_bound sz) as [Ms Bs].
      { unfold TRAPFRAME, TRAMPOLINE, MAXVA, sizeof_trapframe, PGSIZE in *. lia. }
      assert (below sz (PGROUNDDOWN va) /\ below (PGROUNDUP sz) (PGROUNDDOWN va)) as [B1 B2].
      { unfold below, PGSIZE in *. Z.div_mod_to_equations. lia. }
      split; [intros E; rewrite (G2 va), E, (H2' va)|rewrite (H2 va)]; auto with lia.
Qed.
End memory.

(** *** The run *)

Section run.
Context (d1 : kdata) (root base : Z) (fl1 : list Z).
Hypothesis Hal : allocated d np fl d1 root base fl1.
Hypothesis Hev1 : evals l0 [] d allocproc (Some np) [t_lock (np, 0%nat); p_lock np] d1.
Let L1 := [t_lock (np, 0%nat); p_lock np].

Lemma fork_parent : proc_eq (d.(procs) p) (d1.(procs) p) /\ the_kt d1 kt = the_kt d kt.
Proof.
  destruct fork_np as [_ Hne]. pose proof (al_others _ _ _ _ _ _ _ Hal p Hne) as Hp. split; [done|].
  destruct (fp_kt Hpre) as [E _]. unfold the_kt. rewrite E. apply Hp.
Qed.

Context (m2 : bytes) (f2 : Z).
Let d2 := with_mem d1 m2 f2.
Let m5 := store64 (memmove m2 base tf sizeof_trapframe) (base + tf_a0) 0.
Let d5 := upd_proc np (fun x => x <| p_sz := sz |>) d2 <| mem := m5 |>.

Lemma fork_d5 : (forall q, q <> np -> d5.(procs) q = d1.(procs) q) /\ d5.(procs) np = d1.(procs) np <| p_sz := sz |>.
Proof.
  unfold d5, upd_proc. cbn. split; [intros q Hq; by rewrite fn_lookup_alter_ne|by rewrite fn_lookup_alter].
Qed.

Lemma fork_files5 : fd_ok d5 /\ (forall y, ofile d5 y = ofile d y).
Proof.
  destruct fork_d5 as [E1 E2]. assert (forall y, ofile d5 y = ofile d y) as Eo.
  { intros [q i]. unfold ofile. cbn [fst snd]. destruct (decide (q = np)) as [->|N].
    - rewrite E2. cbn. by rewrite (al_ofile _ _ _ _ _ _ _ Hal).
    - rewrite E1 by done. destruct (al_others _ _ _ _ _ _ _ Hal q N) as [-> _]. done. }
  split; [|done]. eapply fd_ok_ext; [apply (fp_files Hpre)|done| |]; unfold d5, d2; cbn; rewrite (al_rest _ _ _ _ _ _ _ Hal); done.
Qed.

Let child (d6 : kdata) : kdata :=
  upd_kt (np, 0%nat) (fun t => t <| kt_state := RUNNABLE_t |>)
    (upd_proc np (fun x => x <| p_parent := Some p |>)
      (upd_proc np (fun x => x <| p_name ::= fun m => safestrcpy m 0 (d.(procs) p).(p_name) 0 16 |>)
        (upd_proc np (fun x => x <| p_cwd := Some cwd |>)
          (upd_inode cwd (fun x => x <| i_ref ::= fun n => n + 1 |>) d6)))).

Hypothesis Hcopy : evals l0 L1 d1 (uvmcopy old root sz) 0 L1 d2.

Lemma ev_fork_run : exists d6, evals l0 [] d fork d.(nextpid) [] (child d6) /\ fd_ok d6 /\ shared np d5 d6 /\
  (forall i, (i < NOFILE)%nat -> ofile d6 (np, i) = ofile d (p, i)) /\ (forall y, y.1 <> np -> ofile d6 y = ofile d y).
Proof.
  destruct fork_np as [Hnp Hne]. destruct fork_files5 as [Hok5 Ho5]. destruct fork_d5 as [E5 E5n]. destruct fork_parent as [[Ep _] Ek].
  destruct (fp_unused Hpre) as (_ & _ & Hempty). destruct (fp_kt Hpre) as (_ & Hkp & Hpn & _). pose proof (fp_locks Hpre) as Hfree.
  destruct (ev_share_files l0 L1 p np) with (l := seq 0 NOFILE) (d := d5) as (d6 & Hev6 & Hok6 & Hsh & Hn6 & Ho6).
  { unfold L1. by intros [?|?%list_elem_of_singleton]%elem_of_cons. } { apply Hfree. } { done. } { done. } { done. } { done. } { apply NoDup_seq. }
  { intros i Hi%elem_of_seq. split; [lia|]. by rewrite Ho5. }
  exists d6. split; [|split; [done|split; [done|split]]].
  2: { intros i Hi. rewrite Hn6 by (apply elem_of_seq; lia). by rewrite Ho5. }
  2: { intros y Hy. rewrite Ho6 by (by left). by rewrite Ho5. }
  assert (p_pagetable (procs d1 p) = old /\ p_sz (procs d1 p) = sz) as [Eold Esz] by (rewrite Ep; done).
  assert (procs d6 p = procs d1 p) as E6 by (rewrite (sh_others _ _ _ Hsh), E5 by done; done).
  assert ((the_kt d1 (np, 0%nat)).(kt_trapframe) = base) as Etf by (rewrite (al_thread _ _ _ _ _ _ _ Hal); done).
  destruct (al_base _ _ _ _ _ _ _ Hal) as (Hb & _). pose proof (page_ok_pos base Hb) as Hb0. destruct (fp_tf Hpre) as (_ & _ & Htf & _). fold tf in Htf.
  unfold fork. tev1. { eapply ev_myproc; [apply (fp_run Hpre)|done]. } tev1. { tev1. } tev1. { exact Hev1. } cbn beta iota. fold L1.
  tev1. { tev1. } rewrite (fp_run Hpre). tev1. { tev1. } tev1. { tev1. } tev1. { tev1. } tev1. { tev1. } cbn beta.
  rewrite (al_root _ _ _ _ _ _ _ Hal), Eold, Esz. tev1. { exact Hcopy. } cbn beta. change (0 <? 0) with false. cbv iota. tev1. { tev1. }
  set (d3 := upd_proc np (fun x => x <| p_sz := sz |>) d2).
  assert (forall k, the_kt d3 k = the_kt d1 k) as Ekt.
  { intros k. unfold the_kt, d3, upd_proc. cbn. rewrite fn_alter_case. by case_decide as E; [rewrite <- E|]. }
  assert (evals l0 L1 d3 (copy_trapframe (np, 0%nat) kt) tt L1 (d3 <| mem := memmove m2 base tf sizeof_trapframe |>)) as Hct.
  { unfold copy_trapframe. tev1. { tev1. } tev1. { tev1. } cbn beta. rewrite !Ekt, Etf, Ek. fold tf. rewrite (proj2 (Z.eqb_neq base 0)), (proj2 (Z.eqb_neq tf 0)) by lia.
    cbn [orb]. apply ev_kmemmove. }
  assert (evals l0 L1 (d3 <| mem := memmove m2 base tf sizeof_trapframe |>) (tf_set (np, 0%nat) tf_a0 0) tt L1 d5) as Hts.
  { eapply evals_eq; [apply ev_tf_set|done|done|]; change (the_kt (d3 <| mem := ?m |>)) with (the_kt d3); rewrite Ekt, Etf; [lia|reflexivity]. }
  tev1. { exact Hct. } tev1. { exact Hts. } tev1. { exact Hev6. }
  tev1. { tev1. } cbn beta. rewrite E6, Ep. change (p_cwd (procs d p <| p_kthread := ?x |>)) with (p_cwd (procs d p)). rewrite (fp_cwd Hpre). tev1. { tev1. }
  tev1. { unfold idup. tev1. { apply ev_acquire; [by intros [?|?%list_elem_of_singleton]%elem_of_cons|apply Hfree]. } tev1. { apply ev_modd. } tev1. { tev1. } apply ev_ret. }
  tev1. { tev1. } tev1. { tev1. } cbn beta.
  assert (forall g d0, procs (upd_proc np g d0) p = procs d0 p) as Eu by (intros; unfold upd_proc; cbn; by rewrite fn_lookup_alter_ne).
  rewrite Eu. change (procs (upd_inode ?i ?g d6)) with (procs d6). rewrite E6, Ep. change (p_name (procs d p <| p_kthread := ?x |>)) with (p_name (procs d p)).
  tev1. { tev1. } tev1. { tev1. } cbn beta.
  assert (p_pid (procs d6 np) = nextpid d) as Epid.
  { destruct (sh_child _ _ _ Hsh) as [o ->]. rewrite E5n. cbn. apply (al_pid _ _ _ _ _ _ _ Hal). }
  unfold L1. tev1. { tev1. } tev1. { tev1. } tev1. { apply ev_acquire; [set_solver|apply Hfree]. } tev1. { tev1. } tev1. { tev1. }
  tev1. { apply ev_acquire; [set_solver|apply Hfree]. } tev1. { tev1. } tev1. { tev1. }
  eapply evals_eq; [apply ev_ret| |reflexivity|reflexivity]. unfold upd_proc. cbn. rewrite !fn_lookup_alter. cbn. exact Epid.
Qed.

Context (fl2 : list Z).
Hypothesis Hg : grown root d1.(mem) 0 fl1 m2 (PGROUNDUP sz) fl2.

(** The child's trapframe is the parent's with [a0] zero. *)
Lemma fork_regs : same_outside base m2 m5 /\ load64 m5 (base + tf_a0) = 0 /\
  forall i, 0 <= i < sizeof_trapframe -> i < tf_a0 \/ tf_a0 + 8 <= i -> m5 (base + i) = d.(mem) (tf + i).
Proof.
  destruct (fp_tf Hpre) as (Mb & Hb & Htf & Hend). fold tf in Htf, Hend. unfold m5, same_outside, sizeof_trapframe, tf_a0, PGSIZE in *.
  split; [|split; [by apply load64_store64|]].
  - intros x Hx. rewrite store64_out by lia. rewrite memmove_spec by lia. destruct (Z.leb_spec base x), (Z.ltb_spec x (base + 36 * 8)); cbn [andb]; lia || done.
  - intros i Hi Hn. rewrite store64_out by lia. rewrite memmove_spec by lia. rewrite (proj2 (Z.leb_le _ _)), (proj2 (Z.ltb_lt _ _)) by lia. cbn [andb].
    replace (tf + (base + i - base)) with (b + (tf + i - b)) by lia. rewrite (fork_frame2 d1 root base fl1 Hal m2 fl2 Hg b); [|done|done|unfold PGSIZE; lia]. f_equal. lia.
Qed.

Lemma fork_kmem : kmem_inv d2 fl2 -> is_freelist m5 f2 fl2 /\ NoDup fl2.
Proof.
  intros [Hl Hnd]. split; [|done]. destruct (al_base _ _ _ _ _ _ _ Hal) as ([Mb _] & _ & Hb & _).
  eapply is_freelist_same; [exact Mb|apply fork_regs|intros Hin; by eapply Hb, fork_sub|exact Hl].
Qed.

Lemma child_forked d6 : kmem_inv d2 fl2 -> copying old root own m2 (PGROUNDUP sz) fl2 -> (forall va, 0 <= va < PGROUNDUP sz -> vread m2 root va = vread m2 old va) ->
  fd_ok d6 -> shared np d5 d6 -> (forall i, (i < NOFILE)%nat -> ofile d6 (np, i) = ofile d (p, i)) -> forked (child d6) root fl2.
Proof.
  intros Hi2 Hc2 Hr2 Hok6 [S1 [o S2] S3] Ho6. destruct fork_d5 as [E5 E5n]. destruct fork_regs as (R1 & R2 & R3).
  destruct (fork_spaces d1 root base fl1 Hal m2 m5 fl2 Hg Hc2 R1) as [Hc5 Hr5].
  assert (forall q, q <> np -> procs (child d6) q = procs d1 q) as Eq.
  { intros q Hq. unfold child, upd_kt, upd_proc, upd_inode. cbn. rewrite !fn_lookup_alter_ne by done. by rewrite S1, E5. }
  assert (the_kt d6 (np, 0%nat) = the_kt d1 (np, 0%nat)) as Et6 by (unfold the_kt; cbn [fst snd]; by rewrite S2, E5n).
  assert (the_kt (child d6) (np, 0%nat) = the_kt d1 (np, 0%nat) <| kt_state := RUNNABLE_t |>) as Et.
  { rewrite <- Et6. unfold child, the_kt, upd_kt, upd_proc, upd_inode. cbn. by rewrite !fn_lookup_alter. }
  assert (forall y, ofile (child d6) y = ofile d6 y) as Eo.
  { intros [q i]. unfold ofile, child, upd_kt, upd_proc, upd_inode. cbn. destruct (decide (q = np)) as [->|N]; [by rewrite !fn_lookup_alter|by rewrite !fn_lookup_alter_ne]. }
  assert (mem (child d6) = m5) as Em by (unfold child; cbn; by rewrite S3).
  assert (itable d6 = itable d) as Ei by (rewrite S3; unfold d5, d2; cbn; by rewrite (al_rest _ _ _ _ _ _ _ Hal)).
  split; rewrite ?Em, ?Et.
  - intros q Hq. rewrite Eq by done. by apply (al_others _ _ _ _ _ _ _ Hal).
  - unfold child, upd_kt, upd_proc, upd_inode. cbn. rewrite !fn_lookup_alter. cbn. rewrite S2, E5n. cbn.
    by rewrite (al_state _ _ _ _ _ _ _ Hal), (al_pid _ _ _ _ _ _ _ Hal), (al_root _ _ _ _ _ _ _ Hal).
  - unfold child. cbn. rewrite S3. unfold d5, d2. cbn. by rewrite (al_rest _ _ _ _ _ _ _ Hal).
  - by rewrite (al_thread _ _ _ _ _ _ _ Hal).
  - rewrite (al_thread _ _ _ _ _ _ _ Hal). cbn. by split.
  - unfold kmem_inv. rewrite Em. unfold child. cbn. rewrite S3. unfold d5, d2. cbn. by apply fork_kmem.
  - done.
  - intros va Hva. destruct (Hr5 va Hva) as [A B]. split; [apply A, Hr2, Hva|exact B].
  - split; [|intros i Hi; by rewrite Eo, Ho6]. by eapply fd_ok_ext.
  - intros j. unfold child, upd_kt, upd_proc, upd_inode. cbn. rewrite Ei, fn_alter_case. case_decide as E; case_decide as E'; cbn; subst; lia || done.
Qed.
End run.

(** When the copy fails, [freeproc] takes the lock of the child's first thread, which
    [allocproc] has left held. *)
Lemma ev_fork_panic d1 root base fl1 m2 f2 : allocated d np fl d1 root base fl1 ->
  evals l0 [] d allocproc (Some np) [t_lock (np, 0%nat); p_lock np] d1 ->
  evals l0 [t_lock (np, 0%nat); p_lock np] d1 (uvmcopy old root sz) (-1) [t_lock (np, 0%nat); p_lock np] (with_mem d1 m2 f2) ->
  evals_panic l0 [] d fork "acquire".
Proof.
  intros Hal Hev1 Hcopy. destruct (fork_parent d1 root base fl1 Hal) as [[Ep _] _]. destruct (fp_kt Hpre) as (_ & Hkp & _ & _).
  assert (p_pagetable (procs d1 p) = old /\ p_sz (procs d1 p) = sz) as [Eold Esz] by (rewrite Ep; done).
  unfold fork. eapply ev_bind_panic. { eapply ev_myproc; [apply (fp_run Hpre)|done]. } eapply ev_bind_panic. { tev1. } eapply ev_bind_panic. { exact Hev1. } cbn beta iota.
  eapply ev_bind_panic. { tev1. } rewrite (fp_run Hpre). eapply ev_bind_panic. { tev1. } eapply ev_bind_panic. { tev1. } eapply ev_bind_panic. { tev1. } eapply ev_bind_panic. { tev1. } cbn beta.
  rewrite (al_root _ _ _ _ _ _ _ Hal), Eold, Esz. eapply ev_bind_panic. { exact Hcopy. } cbn beta. change (-1 <? 0) with true. cbv iota.
  apply ev_panic_bind. unfold freeproc. apply ev_panic_bind. change all_kts with (0%nat :: seq 1 9). cbn [forM]. do 2 apply ev_panic_bind. apply ev_acquire_held. by left.
Qed.

(** C6: [fork] makes a process of the first unused slot of the table and returns its pid,
    with no lock left held.  The child reads below its size what the parent reads, through
    page frames of its own; its first thread is runnable with the registers of the caller
    except that [a0] is zero; it has the parent's open files and directory, each with one
    reference more; the other processes are as before.  Six free pages and three for each
    page of the parent are enough.  With fewer, the copy of the memory may fail, and the
    kernel then panics in [acquire]: [freeproc] takes a lock that is already held. *)
Theorem fork_correct :
  (exists d' root fl', evals l0 [] d fork d.(nextpid) [] d' /\ forked d' root fl') \/
  (Z.of_nat (length fl) < 6 + 3 * pages /\ evals_panic l0 [] d fork "acquire").
Proof.
  destruct (fp_slot Hpre) as [El Hused]. destruct (fp_unused Hpre) as (Hn & Ht & _). destruct (fp_kmem Hpre) as [Hi Hl]. destruct (fp_space Hpre) as (_ & Hsz & Hown).
  destruct (ev_allocproc l0 (fp_locks Hpre) d l1 np l2 fl) as (d1 & root & base & fl1 & Hev1 & Hal); try done.
  assert (TRAPFRAME 0 <= MAXVA) as Hmax by done. fold sz in Hsz, Hown.
  destruct (ev_uvmcopy l0 [t_lock (np, 0%nat); p_lock np]) with (old := old) (new := root) (own := own) (sz := sz) (d := d1) (fl := fl1)
    as (r & m2 & f2 & fl2 & Hcopy & Hi2 & _ & _ & Hres); try done.
  - by intros [?|?%list_elem_of_singleton]%elem_of_cons.
  - apply (fp_locks Hpre).
  - by eapply fork_copying.
  - apply (al_kmem _ _ _ _ _ _ _ Hal).
  - lia.
  - intros va [Hva Hm]. apply (al_none _ _ _ _ _ _ _ Hal); [lia|done].
  - destruct Hres as [(-> & Hc2 & Hg & Hr & _)|(-> & _ & Hc & _)]; [left|right].
    + destruct (ev_fork_run d1 root base fl1 Hal Hev1 m2 f2 Hcopy) as (d6 & Hev & Hok & Hsh & Ho & _).
      eexists _, root, fl2. split; [exact Hev|]. by eapply child_forked.
    + split; [|by eapply ev_fork_panic]. pose proof (al_count _ _ _ _ _ _ _ Hal). unfold pages. lia.
Qed.
End theorem.
End fork.

(** ** An instance: process 1 forks into slot 0 *)

Section witnesses.
#[local] Existing Instance demo_image.
#[local] Existing Instance demo_image_ok.
#[local] Existing Instance demo_fuel.
#[local] Existing Instance sync_disk.
#[local] Existing Instance sync_disk_ok.

Definition demo_forking : kdata :=
  with_mem (upd_proc 1 (fun x => x <| p_pagetable := demo_root |> <| p_cwd := Some 0%nat |>) demo_fds) demo_d.(mem) demo_d.(freelist).

Lemma demo_fork_pre : fork_pre (demo_run demo_kt) demo_forking demo_kt 1 0 0 [] (seq 1 63) (below 0) (demo_pages 8) 0x86004000.
Proof.
  split.
  - done.
  - intros lk. apply demo_run_free.
  - repeat split; [apply Nat.ltb_lt; reflexivity|done].
  - split; [done|]. intros q Hq. by apply elem_of_nil in Hq.
  - repeat split.
  - split; [apply demo_d_inv|]. apply Nat.leb_le. reflexivity.
  - split; [apply demo_uspace|]. split; [done|]. intros va Hva. exact Hva.
  - split; [done|]. split; [by apply demo_not_free|]. done.
  - done.
  - eapply fd_ok_ext; [apply demo_fd_ok| |done|done]. intros [q i]. unfold ofile, demo_forking, with_mem, upd_proc. cbn -[demo_fds].
    rewrite fn_alter_case. by case_decide as E; [rewrite <- E|].
Qed.

Lemma fork_correct_witness : exists d', evals (demo_run demo_kt) [] demo_forking fork 1 [] d' /\ fd_ok d' /\
  ofile d' (0, 0)%nat = Some 5%nat /\ ofile d' (0, 1)%nat = Some 6%nat.
Proof.
  destruct (fork_correct (demo_run demo_kt) demo_forking demo_kt 1 0 0 [] (seq 1 63) (below 0) (demo_pages 8) 0x86004000 demo_fork_pre)
    as [(d' & root & fl' & Hev & Hf)|[Hn _]]; [|exfalso; by vm_compute in Hn].
  exists d'. split; [exact Hev|]. destruct (fk_files _ _ _ _ _ _ _ _ _ Hf) as [Hok Ho]. split; [exact Hok|].
  split; rewrite Ho by (apply Nat.ltb_lt; reflexivity); vm_compute; reflexivity.
Defined.
End witnesses.
