(* ===== verification/Syscall.v ===== *)
(** * System calls: processes, threads and dispatch (kernel/sysproc.c,
      kernel/syscall.c) *)
From S2P Require Export Sysfile.

Section sysproc.
Context `{KI : KernelImage} `{WF : WaitFuel} `{DD : DiskDriver}.

Definition sys_exit : M Z := n ← argint 0; exit n;; mret 0.
Definition sys_getpid : M Z := p ← myproc; p ← deref p; p_get p p_pid.
Definition sys_fork : M Z := fork.
Definition sys_wait : M Z := p ← argaddr 0; wait p.

Definition sys_sbrk : M Z :=
  n ← argint 0;
  p ← myproc;
  p ← deref p;
  addr ← p_get p p_sz;
  r ← growproc n;
  if r <? 0 then mret (-1) else mret addr.

(** [n] is an [int] but is compared as unsigned. *)
Fixpoint sleep_loop (fuel : nat) (ticks0 n : Z) : M Z :=
  t ← getd ticks;
  if u32 (t - ticks0) <? u32 n then
    p ← myproc;
    p ← deref p;
    k ← killed p;
    if ctrue k then release tickslock;; mret (-1) else
    sleep chan_ticks tickslock;;
    match fuel with
    | O => diverge
    | S fuel => sleep_loop fuel ticks0 n
    end
  else release tickslock;; mret 0.

Definition sys_sleep : M Z :=
  n ← argint 0;
  acquire tickslock;;
  ticks0 ← getd ticks;
  sleep_loop wait_fuel ticks0 n.

Definition sys_kill : M Z := pid ← argint 0; kill pid.

Definition sys_uptime : M Z :=
  acquire tickslock;;
  xticks ← getd ticks;
  release tickslock;;
  mret xticks.

Definition sys_kthread_create : M Z :=
  start_func ← argaddr 0;
  stack ← argaddr 1;
  stack_size ← argint 2;
  kthread_create start_func stack (u32 stack_size).
Definition sys_kthread_id : M Z := kt ← mykthread; kt ← deref kt; t_get kt kt_tid.
Definition sys_kthread_kill : M Z := ktid ← argint 0; kthread_kill ktid.
Definition sys_kthread_exit : M Z := status ← argint 0; kthread_exit status;; mret 0.
Definition sys_kthread_join : M Z :=
  ktid ← argint 0;
  status ← argaddr 1;
  kthread_join ktid status.

(** ** The table and the dispatcher *)

Definition syscalls (num : Z) : option (M Z) :=
  match num with
  | 1 => Some sys_fork
  | 2 => Some sys_exit
  | 3 => Some sys_wait
  | 4 => Some sys_pipe
  | 5 => Some sys_read
  | 6 => Some sys_kill
  | 7 => Some sys_exec
  | 8 => Some sys_fstat
  | 9 => Some sys_chdir
  | 10 => Some sys_dup
  | 11 => Some sys_getpid
  | 12 => Some sys_sbrk
  | 13 => Some sys_sleep
  | 14 => Some sys_uptime
  | 15 => Some sys_open
  | 16 => Some sys_write
  | 17 => Some sys_mknod
  | 18 => Some sys_unlink
  | 19 => Some sys_link
  | 20 => Some sys_mkdir
  | 21 => Some sys_close
  | 22 => Some sys_kthread_create
  | 23 => Some sys_kthread_id
  | 24 => Some sys_kthread_kill
  | 25 => Some sys_kthread_exit
  | 26 => Some sys_kthread_join
  | _ => None
  end.

Definition syscall : M unit :=
  p ← myproc;
  kt ← mykthread;
  kt ← deref kt;
  a7 ← tf_get kt tf_a7;
  let num := s32 a7 in
  match syscalls num with
  | Some f => r ← f; tf_set kt tf_a0 (u64 r)
  | None =>
      p ← deref p;
      x ← p_get p id;
      printf ("%d %s: unknown sys call %d" +:+ nl)
        [va_int x.(p_pid); va_str (Some (cstr 16 x.(p_name) 0)); va_int num];;
      tf_set kt tf_a0 (u64 (-1))
  end.
End sysproc.
