(* ===== verification/Trap.v ===== *)
(** * Traps (kernel/trap.c, forkret of kernel/proc.c)

    [usertrapret] ends in a jump to [userret] of the trampoline, so its result is
    the two arguments of that jump: the address of the trapframe and the [satp] of
    the user page table. *)
From S2P Require Export Syscall Virtio.

Definition SSTATUS_SPP : Z := Z.shiftl 1 8.
Definition SSTATUS_SPIE : Z := Z.shiftl 1 5.

Definition csr_get {A} (f : csr -> A) : M A :=
  id ← cpuid;
  getd (fun d => f (d.(csrs) id)).

Section trap.
Context `{KI : KernelImage} `{WF : WaitFuel} `{DD : DiskDriver}.

Definition trapinit : M unit := initlock tickslock "time".
Definition trapinithart : M unit := csr_set (fun c => c <| r_stvec := k_kernelvec |>).

Definition usertrapret : M (Z * Z) :=
  p ← myproc;
  kt ← mykthread;
  intr_off;;
  csr_set (fun c => c <| r_stvec := u64 (TRAMPOLINE + (k_uservec - k_trampoline)) |>);;
  kt ← deref kt;
  satp ← csr_get r_satp;
  tf_set kt tf_kernel_satp satp;;
  kstack ← t_get kt kt_kstack;
  tf_set kt tf_kernel_sp (u64 (kstack + PGSIZE));;
  tf_set kt tf_kernel_trap k_usertrap;;
  id ← cpuid;
  tf_set kt tf_kernel_hartid (Z.of_nat id);;
  x ← r_sstatus;
  w_sstatus (Z.lor (Z.land x (Z.lnot SSTATUS_SPP)) SSTATUS_SPIE);;
  epc ← tf_get kt tf_epc;
  csr_set (fun c => c <| r_sepc := epc |>);;
  p ← deref p;
  pt ← p_get p p_pagetable;
  mret (TRAPFRAME (Z.of_nat kt.2), MAKE_SATP pt).

Definition clockintr : M unit :=
  acquire tickslock;;
  modd (fun d => d <| ticks ::= fun n => u32 (n + 1) |>);;
  wakeup (Some chan_ticks);;
  release tickslock.

Definition devintr : M Z :=
  scause ← csr_get r_scause;
  if Z.testbit scause 63 && (Z.land scause 0xff =? 9) then
    irq ← plic_claim;
    (if irq =? UART0_IRQ then uartintr
     else if irq =? VIRTIO0_IRQ then virtio_disk_intr
     else when (ctrue irq) (printf ("unexpected interrupt irq=%d" +:+ nl) [va_int irq]));;
    when (ctrue irq) (plic_complete irq);;
    mret 1
  else if scause =? 0x8000000000000001 then
    id ← cpuid;
    when (bool_decide (id = 0%nat)) clockintr;;
    csr_set (fun c => c <| r_sip ::= fun x => Z.land x (Z.lnot 2) |>);;
    mret 2
  else mret 0.

(** The checks before and after the work of [usertrap]. *)
Definition exit_if_killed (p : nat) (kt : kptr) : M unit :=
  k ← killed p;
  when (ctrue k) (exit (-1));;
  k ← t_killed kt;
  when (ctrue k) (kthread_exit (-1)).

Definition usertrap : M (Z * Z) :=
  s ← r_sstatus;
  if negb (Z.land s SSTATUS_SPP =? 0) then panic "usertrap: not from user mode" else
  csr_set (fun c => c <| r_stvec := k_kernelvec |>);;
  p ← myproc;
  kt ← mykthread;
  kt ← deref kt;
  sepc ← csr_get r_sepc;
  tf_set kt tf_epc sepc;;
  p ← deref p;
  scause ← csr_get r_scause;
  which_dev ←
    (if scause =? 8 then
       exit_if_killed p kt;;
       epc ← tf_get kt tf_epc;
       tf_set kt tf_epc (u64 (epc + 4));;
       intr_on;;
       syscall;;
       mret 0
     else
       w ← devintr;
       when (w =? 0)
         (pid ← p_get p p_pid;
          scause ← csr_get r_scause;
          printf ("usertrap(): unexpected scause %p pid=%d" +:+ nl) [va_ptr scause; va_int pid];;
          sepc ← csr_get r_sepc;
          stval ← csr_get r_stval;
          printf ("            sepc=%p stval=%p" +:+ nl) [va_ptr sepc; va_ptr stval];;
          setkilled p);;
       mret w);
  exit_if_killed p kt;;
  when (which_dev =? 2) yield;;
  usertrapret.

Definition kerneltrap : M unit :=
  sepc ← csr_get r_sepc;
  sstatus ← r_sstatus;
  scause ← csr_get r_scause;
  if Z.land sstatus SSTATUS_SPP =? 0 then panic "kerneltrap: not from supervisor mode" else
  i ← intr_get;
  if negb (i =? 0) then panic "kerneltrap: interrupts enabled" else
  which_dev ← devintr;
  if which_dev =? 0 then
    printf ("scause %p" +:+ nl) [va_ptr scause];;
    sepc ← csr_get r_sepc;
    stval ← csr_get r_stval;
    printf ("sepc=%p stval=%p" +:+ nl) [va_ptr sepc; va_ptr stval];;
    panic "kerneltrap"
  else
  when (which_dev =? 2)
    (p ← myproc;
     match p with
     | None => mret tt
     | Some _ =>
         p ← myproc;
         p ← deref p;
         state ← t_get (p, 0%nat) kt_state;
         when (bool_decide (state = RUNNING_t)) yield
     end);;
  csr_set (fun c => c <| r_sepc := sepc |>);;
  w_sstatus sstatus.

Definition forkret : M (Z * Z) :=
  kt ← mykthread;
  kt ← deref kt;
  release (t_lock kt);;
  f ← getd first;
  when (ctrue f)
    (modd (fun d => d <| first := 0 |>);;
     fsinit ROOTDEV);;
  usertrapret.
End trap.
