(* ===== verification/Boot.v ===== *)
(** * Boot (kernel/main.c, kernel/start.c)

    [start] and [timerinit] run in machine mode and only write control registers:
    they are functions on the record [machine] of those registers.  [main] then
    runs in supervisor mode, in the kernel monad. *)
From S2P Require Export Trap.

(** ** start.c *)

(** The machine-mode registers of a hart, and the slots [3] and [4] of its
    [timer_scratch]. *)
Record machine := Machine {
  r_mstatus : Z;
  r_mepc : Z;
  m_satp : Z;
  r_medeleg : Z;
  r_mideleg : Z;
  r_sie : Z;
  r_pmpaddr0 : Z;
  r_pmpcfg0 : Z;
  r_mhartid : Z;
  r_tp : Z;
  r_mscratch : Z;
  r_mtvec : Z;
  r_mie : Z;
  clint_mtime : Z;
  clint_mtimecmp : Z;
  scratch3 : Z;
  scratch4 : Z
}.
Definition eta_machine (r : machine) : machine :=
  Machine r.(r_mstatus) r.(r_mepc) r.(m_satp) r.(r_medeleg) r.(r_mideleg) r.(r_sie)
    r.(r_pmpaddr0) r.(r_pmpcfg0) r.(r_mhartid) r.(r_tp) r.(r_mscratch) r.(r_mtvec)
    r.(r_mie) r.(clint_mtime) r.(clint_mtimecmp) r.(scratch3) r.(scratch4).
#[export] Instance set_r_mstatus : Setter r_mstatus := ltac:(setter eta_machine r_mstatus).
#[export] Instance set_r_mepc : Setter r_mepc := ltac:(setter eta_machine r_mepc).
#[export] Instance set_m_satp : Setter m_satp := ltac:(setter eta_machine m_satp).
#[export] Instance set_r_medeleg : Setter r_medeleg := ltac:(setter eta_machine r_medeleg).
#[export] Instance set_r_mideleg : Setter r_mideleg := ltac:(setter eta_machine r_mideleg).
#[export] Instance set_r_sie : Setter r_sie := ltac:(setter eta_machine r_sie).
#[export] Instance set_r_pmpaddr0 : Setter r_pmpaddr0 := ltac:(setter eta_machine r_pmpaddr0).
#[export] Instance set_r_pmpcfg0 : Setter r_pmpcfg0 := ltac:(setter eta_machine r_pmpcfg0).
#[export] Instance set_r_tp : Setter r_tp := ltac:(setter eta_machine r_tp).
#[export] Instance set_r_mscratch : Setter r_mscratch := ltac:(setter eta_machine r_mscratch).
#[export] Instance set_r_mtvec : Setter r_mtvec := ltac:(setter eta_machine r_mtvec).
#[export] Instance set_r_mie : Setter r_mie := ltac:(setter eta_machine r_mie).
#[export] Instance set_clint_mtimecmp : Setter clint_mtimecmp :=
  ltac:(setter eta_machine clint_mtimecmp).
#[export] Instance set_scratch3 : Setter scratch3 := ltac:(setter eta_machine scratch3).
#[export] Instance set_scratch4 : Setter scratch4 := ltac:(setter eta_machine scratch4).

Definition MSTATUS_MPP_MASK : Z := Z.shiftl 3 11.
Definition MSTATUS_MPP_S : Z := Z.shiftl 1 11.
Definition MSTATUS_MIE : Z := Z.shiftl 1 3.
Definition SIE_SEIE : Z := Z.shiftl 1 9.
Definition SIE_STIE : Z := Z.shiftl 1 5.
Definition SIE_SSIE : Z := Z.shiftl 1 1.
Definition MIE_MTIE : Z := Z.shiftl 1 7.
Definition CLINT : Z := 0x2000000.
Definition CLINT_MTIMECMP (hartid : Z) : Z := CLINT + 0x4000 + 8 * hartid.

(** Addresses of [main], [timervec] and [timer_scratch]. *)
Class BootImage := { k_main : Z; k_timervec : Z; k_timer_scratch : Z }.

Section start.
Context `{BI : BootImage}.

Definition timerinit (r : machine) : machine :=
  let id := s32 r.(r_mhartid) in
  let interval := 1000000 in
  let r := r <| clint_mtimecmp := u64 (r.(clint_mtime) + interval) |> in
  let r := r <| scratch3 := CLINT_MTIMECMP id |> in
  let r := r <| scratch4 := interval |> in
  let r := r <| r_mscratch := k_timer_scratch + 40 * id |> in
  let r := r <| r_mtvec := k_timervec |> in
  let r := r <| r_mstatus ::= fun x => Z.lor x MSTATUS_MIE |> in
  r <| r_mie ::= fun x => Z.lor x MIE_MTIE |>.

Definition start (r : machine) : machine :=
  let x := Z.land r.(r_mstatus) (Z.lnot MSTATUS_MPP_MASK) in
  let x := Z.lor x MSTATUS_MPP_S in
  let r := r <| r_mstatus := x |> in
  let r := r <| r_mepc := k_main |> in
  let r := r <| m_satp := 0 |> in
  let r := r <| r_medeleg := 0xffff |> in
  let r := r <| r_mideleg := 0xffff |> in
  let r := r <| r_sie ::= fun x => Z.lor (Z.lor (Z.lor x SIE_SEIE) SIE_STIE) SIE_SSIE |> in
  let r := r <| r_pmpaddr0 := 0x3fffffffffffff |> in
  let r := r <| r_pmpcfg0 := 0xf |> in
  let r := timerinit r in
  r <| r_tp := s32 r.(r_mhartid) |>.
End start.

(** ** main.c *)

Section main.
Context `{KI : KernelImage} `{WF : WaitFuel} `{DD : DiskDriver}.

(** The harts other than 0 wait for [started]; [fuel] bounds the rounds of the
    scheduler. *)
Definition main (fuel : nat) : M unit :=
  id ← cpuid;
  (if bool_decide (id = 0%nat) then
     consoleinit;;
     printfinit;;
     printf nl [];;
     printf ("xv6 kernel is booting" +:+ nl) [];;
     printf nl [];;
     kinit;;
     kvminit;;
     kvminithart;;
     procinit;;
     trapinit;;
     trapinithart;;
     plicinit;;
     plicinithart;;
     binit;;
     iinit;;
     fileinit;;
     virtio_disk_init;;
     userinit;;
     modd (fun d => d <| started := 1 |>)
   else
     s ← getd started;
     if s =? 0 then diverge else
     id ← cpuid;
     printf ("hart %d starting" +:+ nl) [va_int (Z.of_nat id)];;
     kvminithart;;
     trapinithart;;
     plicinithart);;
  scheduler fuel.
End main.
