(* ===== verification/Asm.v ===== *)
(** * The assembly (kernel/trampoline.S, swtch.S, kernelvec.S, entry.S, user/uswtch.S,
      user/initcode.S, user/usys.pl)

    The instructions that the assembly uses, on a state of the integer registers, some
    control registers and the physical memory.  The theorems say that a trap saves and
    restores the registers of the program, that a context switch resumes where it was
    left, that interrupts of the kernel are transparent, and that the bytes of the first
    process are the program of initcode.S. *)
From Stdlib Require Import Sorted.
From S2P Require Export Syscall.

Module Asm.
(** ** The machine *)

Inductive reg :=
| ra | sp | gp | tp | t0 | t1 | t2 | s0 | s1 | a0 | a1 | a2 | a3 | a4 | a5 | a6 | a7
| s2 | s3 | s4 | s5 | s6 | s7 | s8 | s9 | s10 | s11 | t3 | t4 | t5 | t6.
#[global] Instance reg_eq_dec : EqDecision reg.
Proof. solve_decision. Defined.

Inductive csr := sscratch | satp | mhartid | mscratch | sip.
#[global] Instance csr_eq_dec : EqDecision csr.
Proof. solve_decision. Defined.

(** [mmode]: machine mode, where addresses are physical. *)
Record mach := Mach { reg_of : reg -> Z; csr_of : csr -> Z; pm : bytes; mmode : bool }.

Definition set_reg (r : reg) (v : Z) (s : mach) : mach := Mach (<[r := v]> s.(reg_of)) s.(csr_of) s.(pm) s.(mmode).
Definition set_csr (c : csr) (v : Z) (s : mach) : mach := Mach s.(reg_of) (<[c := v]> s.(csr_of)) s.(pm) s.(mmode).
Definition set_pm (m : bytes) (s : mach) : mach := Mach s.(reg_of) s.(csr_of) m s.(mmode).

Inductive instr :=
| SD (r : reg) (off : Z) (b : reg)
| LD (r : reg) (off : Z) (b : reg)
| LI (r : reg) (imm : Z)
| ADDI (r x : reg) (imm : Z)
| ADD (r x y : reg)
| MUL (r x y : reg)
| CSRR (r : reg) (c : csr)
| CSRW (c : csr) (x : reg)
| CSRRW (r : reg) (c : csr) (x : reg)
| SFENCE.

(** How a sequence ends: a jump to an address, a return from a trap. *)
Inductive ending := Jump (addr : Z) | Sret | Mret.

Section run.
Set Default Proof Using "Type".
(** The translation of addresses by the hardware, with the page table of a value of [satp];
    the sequences do not change page tables. *)
Context (mmu : Z -> Z -> option Z).

Definition phys (s : mach) (va : Z) : option Z := if s.(mmode) then Some va else mmu (s.(csr_of) satp) va.

Definition exec_instr (i : instr) (s : mach) : option mach :=
  match i with
  | SD r off b => pa ← phys s (u64 (s.(reg_of) b + off)); Some (set_pm (store64 s.(pm) pa (s.(reg_of) r)) s)
  | LD r off b => pa ← phys s (u64 (s.(reg_of) b + off)); Some (set_reg r (load64 s.(pm) pa) s)
  | LI r imm => Some (set_reg r (u64 imm) s)
  | ADDI r x imm => Some (set_reg r (u64 (s.(reg_of) x + imm)) s)
  | ADD r x y => Some (set_reg r (u64 (s.(reg_of) x + s.(reg_of) y)) s)
  | MUL r x y => Some (set_reg r (u64 (s.(reg_of) x * s.(reg_of) y)) s)
  | CSRR r c => Some (set_reg r (s.(csr_of) c) s)
  | CSRW c x => Some (set_csr c (s.(reg_of) x) s)
  | CSRRW r c x => let v := s.(csr_of) c in Some (set_reg r v (set_csr c (s.(reg_of) x) s))
  | SFENCE => Some s
  end.

Fixpoint exec_code (l : list instr) (s : mach) : option mach :=
  match l with [] => Some s | i :: l => s ← exec_instr i s; exec_code l s end.

(** ** kernel/trampoline.S *)

Definition uservec_save : list instr :=
  [CSRRW a0 sscratch a0;
   SD ra 40 a0; SD sp 48 a0; SD gp 56 a0; SD tp 64 a0; SD t0 72 a0; SD t1 80 a0; SD t2 88 a0; SD s0 96 a0; SD s1 104 a0;
   SD a1 120 a0; SD a2 128 a0; SD a3 136 a0; SD a4 144 a0; SD a5 152 a0; SD a6 160 a0; SD a7 168 a0;
   SD s2 176 a0; SD s3 184 a0; SD s4 192 a0; SD s5 200 a0; SD s6 208 a0; SD s7 216 a0; SD s8 224 a0; SD s9 232 a0;
   SD s10 240 a0; SD s11 248 a0; SD t3 256 a0; SD t4 264 a0; SD t5 272 a0; SD t6 280 a0;
   CSRR t0 sscratch; SD t0 112 a0].

Definition uservec_enter : list instr :=
  [LD sp 8 a0; LD tp 32 a0; LD t0 16 a0; LD t1 0 a0; SFENCE; CSRW satp t1; SFENCE].

(** [jr t0] *)
Definition uservec (s : mach) : option (mach * ending) :=
  s ← exec_code (uservec_save ++ uservec_enter) s;
  Some (s, Jump (s.(reg_of) t0)).

Definition userret_code : list instr :=
  [CSRW satp a1; SFENCE; LD t0 112 a0; CSRW sscratch t0;
   LD ra 40 a0; LD sp 48 a0; LD gp 56 a0; LD tp 64 a0; LD t0 72 a0; LD t1 80 a0; LD t2 88 a0; LD s0 96 a0; LD s1 104 a0;
   LD a1 120 a0; LD a2 128 a0; LD a3 136 a0; LD a4 144 a0; LD a5 152 a0; LD a6 160 a0; LD a7 168 a0;
   LD s2 176 a0; LD s3 184 a0; LD s4 192 a0; LD s5 200 a0; LD s6 208 a0; LD s7 216 a0; LD s8 224 a0; LD s9 232 a0;
   LD s10 240 a0; LD s11 248 a0; LD t3 256 a0; LD t4 264 a0; LD t5 272 a0; LD t6 280 a0;
   CSRRW a0 sscratch a0].

Definition userret (s : mach) : option (mach * ending) :=
  s ← exec_code userret_code s;
  Some (s, Sret).

(** ** kernel/swtch.S *)

Definition swtch_code : list instr :=
  [SD ra 0 a0; SD sp 8 a0; SD s0 16 a0; SD s1 24 a0; SD s2 32 a0; SD s3 40 a0; SD s4 48 a0; SD s5 56 a0; SD s6 64 a0;
   SD s7 72 a0; SD s8 80 a0; SD s9 88 a0; SD s10 96 a0; SD s11 104 a0;
   LD ra 0 a1; LD sp 8 a1; LD s0 16 a1; LD s1 24 a1; LD s2 32 a1; LD s3 40 a1; LD s4 48 a1; LD s5 56 a1; LD s6 64 a1;
   LD s7 72 a1; LD s8 80 a1; LD s9 88 a1; LD s10 96 a1; LD s11 104 a1].

(** [ret] *)
Definition swtch (s : mach) : option (mach * ending) :=
  s ← exec_code swtch_code s;
  Some (s, Jump (s.(reg_of) ra)).

(** ** user/uswtch.S *)

Definition uswtch_code : list instr :=
  [SD ra 0 a0; SD sp 8 a0; SD s0 16 a0; SD s1 24 a0; SD s2 32 a0; SD s3 40 a0; SD s4 48 a0; SD s5 56 a0; SD s6 64 a0;
   SD s7 72 a0; SD s8 80 a0; SD s9 88 a0; SD s10 96 a0; SD s11 104 a0;
   LD ra 0 a1; LD sp 8 a1; LD s0 16 a1; LD s1 24 a1; LD s2 32 a1; LD s3 40 a1; LD s4 48 a1; LD s5 56 a1; LD s6 64 a1;
   LD s7 72 a1; LD s8 80 a1; LD s9 88 a1; LD s10 96 a1; LD s11 104 a1].

Definition uswtch (s : mach) : option (mach * ending) :=
  s ← exec_code uswtch_code s;
  Some (s, Jump (s.(reg_of) ra)).

(** ** kernel/kernelvec.S *)

Definition kernelvec_save : list instr :=
  [ADDI sp sp (-256);
   SD ra 0 sp; SD sp 8 sp; SD gp 16 sp; SD tp 24 sp; SD t0 32 sp; SD t1 40 sp; SD t2 48 sp; SD s0 56 sp; SD s1 64 sp;
   SD a0 72 sp; SD a1 80 sp; SD a2 88 sp; SD a3 96 sp; SD a4 104 sp; SD a5 112 sp; SD a6 120 sp; SD a7 128 sp;
   SD s2 136 sp; SD s3 144 sp; SD s4 152 sp; SD s5 160 sp; SD s6 168 sp; SD s7 176 sp; SD s8 184 sp; SD s9 192 sp;
   SD s10 200 sp; SD s11 208 sp; SD t3 216 sp; SD t4 224 sp; SD t5 232 sp; SD t6 240 sp].

Definition kernelvec_restore : list instr :=
  [LD ra 0 sp; LD sp 8 sp; LD gp 16 sp; LD t0 32 sp; LD t1 40 sp; LD t2 48 sp; LD s0 56 sp; LD s1 64 sp;
   LD a0 72 sp; LD a1 80 sp; LD a2 88 sp; LD a3 96 sp; LD a4 104 sp; LD a5 112 sp; LD a6 120 sp; LD a7 128 sp;
   LD s2 136 sp; LD s3 144 sp; LD s4 152 sp; LD s5 160 sp; LD s6 168 sp; LD s7 176 sp; LD s8 184 sp; LD s9 192 sp;
   LD s10 200 sp; LD s11 208 sp; LD t3 216 sp; LD t4 224 sp; LD t5 232 sp; LD t6 240 sp;
   ADDI sp sp 256].

(** [kerneltrap] is the call of the C function. *)
Definition kernelvec (kerneltrap : mach -> option mach) (s : mach) : option (mach * ending) :=
  s ← exec_code kernelvec_save s;
  s ← kerneltrap s;
  s ← exec_code kernelvec_restore s;
  Some (s, Sret).

Definition timervec_code : list instr :=
  [CSRRW a0 mscratch a0; SD a1 0 a0; SD a2 8 a0; SD a3 16 a0;
   LD a1 24 a0; LD a2 32 a0; LD a3 0 a1; ADD a3 a3 a2; SD a3 0 a1;
   LI a1 2; CSRW sip a1;
   LD a3 16 a0; LD a2 8 a0; LD a1 0 a0; CSRRW a0 mscratch a0].

Definition timervec (s : mach) : option (mach * ending) :=
  s ← exec_code timervec_code s;
  Some (s, Mret).

(** ** kernel/entry.S *)

(** [stack0] and [start] are the addresses of the array and of the function of start.c, [spin]
    that of the loop after the call, where [start] would return to. *)
Definition entry_code (stack0 : Z) : list instr :=
  [LI sp stack0; LI a0 (1024 * 4); CSRR a1 mhartid; ADDI a1 a1 1; MUL a0 a0 a1; ADD sp sp a0].

Definition entry (stack0 start spin : Z) (s : mach) : option (mach * ending) :=
  s ← exec_code (entry_code stack0) s;
  Some (set_reg ra spin s, Jump start).

(** ** Saving and restoring a frame *)

(** Which register is kept at which offset. *)
Definition frame := list (reg * Z).
Definition saves (b : reg) (l : frame) : list instr := map (fun x => SD x.1 x.2 b) l.
Definition loads (b : reg) (l : frame) : list instr := map (fun x => LD x.1 x.2 b) l.

(** The memory with the registers [R] saved at [p], and the registers loaded from it. *)
Definition saved (R : reg -> Z) (p : Z) (l : frame) (m : bytes) : bytes := foldl (fun m x => store64 m (p + x.2) (R x.1)) m l.
Definition loaded (m : bytes) (p : Z) (l : frame) (R : reg -> Z) : reg -> Z := foldl (fun R x => <[x.1 := load64 m (p + x.2)]> R) R l.

(** The frame at the virtual address [v] is at the physical address [p]. *)
Definition mapped (s : mach) (v p : Z) (l : frame) : Prop := forall r off, (r, off) ∈ l -> phys s (u64 (v + off)) = Some (p + off).

Lemma code_app l1 l2 s : exec_code (l1 ++ l2) s = (s ← exec_code l1 s; exec_code l2 s).
Proof. revert s. induction l1 as [|i l1 IH]; intros s; [done|]. cbn. destruct (exec_instr i s); cbn; [apply IH|done]. Qed.

Lemma code_saves b l p s : mapped s (s.(reg_of) b) p l -> exec_code (saves b l) s = Some (set_pm (saved s.(reg_of) p l s.(pm)) s).
Proof.
  revert s. induction l as [|[r off] l IH]; intros s Hm; [by destruct s|]. cbn. rewrite (Hm r off) by (by left). cbn.
  rewrite IH; [done|]. intros r' off' H. apply (Hm r'). by right.
Qed.

(** The base register may be one of those that are loaded if its value is not changed. *)
Lemma code_loads b l p s : mapped s (s.(reg_of) b) p l -> (forall off, (b, off) ∈ l -> load64 s.(pm) (p + off) = s.(reg_of) b) ->
  exec_code (loads b l) s = Some (Mach (loaded s.(pm) p l s.(reg_of)) s.(csr_of) s.(pm) s.(mmode)).
Proof.
  revert s. induction l as [|[r off] l IH]; intros s Hm Hb; [by destruct s|]. cbn. rewrite (Hm r off) by (by left). cbn.
  assert (reg_of (set_reg r (load64 (pm s) (p + off)) s) b = reg_of s b) as Er.
  { cbn. rewrite fn_insert_case. case_decide as E; [|done]. subst r. apply Hb. by left. }
  rewrite IH; [done| |].
  - intros r' off' H. rewrite Er. apply (Hm r'). by right.
  - intros off' H. rewrite Er. apply Hb. by right.
Qed.

Lemma loaded_in m p l R r off : (r, off) ∈ l -> (forall off', (r, off') ∈ l -> off' = off) -> loaded m p l R r = load64 m (p + off).
Proof.
  intros Hin Hu. induction l as [|[r' off'] l IH] using rev_ind; [by apply elem_of_nil in Hin|].
  unfold loaded. rewrite foldl_snoc. cbn [fst snd]. rewrite fn_insert_case. case_decide as E.
  - subst r'. rewrite (Hu off'); [done|]. apply elem_of_app. right. by left.
  - apply IH; [|intros o H; apply Hu, elem_of_app; by left]. apply elem_of_app in Hin as [?|[= -> ->]%list_elem_of_singleton]; done.
Qed.

Lemma loaded_out m p l R r : (forall off, (r, off) ∉ l) -> loaded m p l R r = R r.
Proof.
  intros Hn. induction l as [|[r' off'] l IH] using rev_ind; [done|]. unfold loaded. rewrite foldl_snoc. cbn [fst snd]. rewrite fn_insert_case. case_decide as E.
  - subst r'. destruct (Hn off'). apply elem_of_app. right. by left.
  - apply IH. intros off H. apply (Hn off), elem_of_app. by left.
Qed.

(** Different slots of a frame do not overlap. *)
Definition spaced (l : frame) : Prop := StronglySorted (fun x y => x.2 + 8 <= y.2) l.

Lemma saved_out R p l m a : (forall r off, (r, off) ∈ l -> a < p + off \/ p + off + 8 <= a) -> saved R p l m a = m a.
Proof.
  revert m. induction l as [|[r off] l IH]; intros m H; [done|]. cbn. unfold saved in *. rewrite IH.
  - apply store64_out. apply (H r). by left.
  - intros r' off' Hin. apply (H r'). by right.
Qed.

Lemma saved_in R p l m r off : spaced l -> (r, off) ∈ l -> load64 (saved R p l m) (p + off) = u64 (R r).
Proof.
  intros Hs. revert m. induction Hs as [|[r' off'] l Hs IH Hall]; intros m Hin; [by apply elem_of_nil in Hin|].
  apply elem_of_cons in Hin as [[= -> ->]|Hin]; [|by apply IH].
  cbn. rewrite <- (load64_store64_wrap m (p + off')). apply load64_ext. intros i Hi. apply saved_out. intros r off Hin. rewrite Forall_forall in Hall. specialize (Hall _ Hin). cbn in Hall. lia.
Qed.

(** ** Traps from user mode *)

(** The slots of the registers in [struct trapframe], [a0] apart. *)
Definition user_frame : frame :=
  [(ra, 40); (sp, 48); (gp, 56); (tp, 64); (t0, 72); (t1, 80); (t2, 88); (s0, 96); (s1, 104);
   (a1, 120); (a2, 128); (a3, 136); (a4, 144); (a5, 152); (a6, 160); (a7, 168);
   (s2, 176); (s3, 184); (s4, 192); (s5, 200); (s6, 208); (s7, 216); (s8, 224); (s9, 232);
   (s10, 240); (s11, 248); (t3, 256); (t4, 264); (t5, 272); (t6, 280)].

(** Checks of a frame by evaluation. *)
Definition one_slot_b (l : frame) : bool := forallb (fun x => forallb (fun y => negb (bool_decide (x.1 = y.1)) || (x.2 =? y.2)) l) l.

Lemma one_slot l r off off' : one_slot_b l = true -> (r, off) ∈ l -> (r, off') ∈ l -> off' = off.
Proof.
  intros H H1 H2. unfold one_slot_b in H. rewrite forallb_forall in H. specialize (H _ (proj1 (list_elem_of_In _ _) H2)). rewrite forallb_forall in H.
  specialize (H _ (proj1 (list_elem_of_In _ _) H1)). cbn in H. rewrite bool_decide_eq_true_2 in H by done. by apply Z.eqb_eq.
Qed.

Lemma frame_check (P : reg * Z -> bool) l r off : forallb P l = true -> (r, off) ∈ l -> P (r, off) = true.
Proof. intros H Hin. rewrite forallb_forall in H. by apply H, list_elem_of_In. Qed.

Lemma user_frame_spaced : spaced user_frame.
Proof. repeat (constructor; [|repeat (constructor; [cbn; lia|]); constructor]). constructor. Qed.

Lemma user_frame_bound r off : (r, off) ∈ user_frame -> 40 <= off <= 280 /\ (off + 8 <= tf_a0 \/ tf_a0 + 8 <= off) /\ r <> a0.
Proof.
  intros H. pose proof (frame_check (fun x => (40 <=? x.2) && (x.2 <=? 280) && ((x.2 + 8 <=? tf_a0) || (tf_a0 + 8 <=? x.2)) && negb (bool_decide (x.1 = a0))) user_frame _ _ eq_refl H) as Hc.
  cbn [fst snd] in Hc. rewrite !andb_true_iff, orb_true_iff, !Z.leb_le, negb_true_iff, bool_decide_eq_false in Hc. clear - Hc. tauto.
Qed.

Lemma has_slot l r : existsb (fun x : reg * Z => bool_decide (x.1 = r)) l = true -> exists off, (r, off) ∈ l.
Proof. rewrite existsb_exists. intros ([r' off] & Hin & E). apply bool_decide_eq_true in E. cbn in E. subst r'. exists off. by apply list_elem_of_In. Qed.

Lemma user_frame_all r : r = a0 \/ exists off, (r, off) ∈ user_frame.
Proof. destruct (decide (r = a0)) as [->|N]; [by left|right]. apply has_slot. by destruct r. Qed.

(** The trapframe of the thread at the virtual address [v] of the page table [pt], at the
    physical address [p]. *)
Definition tf_mapped (pt v p : Z) : Prop := forall off, 0 <= off < sizeof_trapframe -> mmu pt (u64 (v + off)) = Some (p + off).

Lemma tf_frame s v p : s.(mmode) = false -> tf_mapped (s.(csr_of) satp) v p -> mapped s v p user_frame.
Proof.
  intros Hm Ht r off Hin. apply user_frame_bound in Hin as (H & _). unfold phys. rewrite Hm. apply Ht. unfold sizeof_trapframe. lia.
Qed.

(** What [uservec] leaves for [usertrap]. *)
Record trapped (s : mach) (v p : Z) (s' : mach) : Prop := {
  tp_regs : forall r off, (r, off) ∈ (a0, tf_a0) :: user_frame -> load64 s'.(pm) (p + off) = s.(reg_of) r;
  tp_frame : forall a, a < p + 40 \/ p + sizeof_trapframe <= a -> s'.(pm) a = s.(pm) a;
  tp_sp : s'.(reg_of) sp = load64 s.(pm) (p + tf_kernel_sp);
  tp_tp : s'.(reg_of) tp = load64 s.(pm) (p + tf_kernel_hartid);
  tp_satp : s'.(csr_of) satp = load64 s.(pm) (p + tf_kernel_satp);
  tp_mode : s'.(mmode) = false;
}.

Lemma reg_set_eq r v s : reg_of (set_reg r v s) r = v.
Proof. cbn. by rewrite fn_lookup_insert. Qed.
Lemma reg_set_ne r v s x : r <> x -> reg_of (set_reg r v s) x = reg_of s x.
Proof. intros. cbn. by rewrite fn_lookup_insert_ne. Qed.
Lemma csr_set_eq c v s : csr_of (set_csr c v s) c = v.
Proof. cbn. by rewrite fn_lookup_insert. Qed.
Lemma csr_set_ne c v s x : c <> x -> csr_of (set_csr c v s) x = csr_of s x.
Proof. intros. cbn. by rewrite fn_lookup_insert_ne. Qed.

(** A load and a store with the address translated. *)
Lemma code_ld r off b l s pa : phys s (u64 (s.(reg_of) b + off)) = Some pa -> exec_code (LD r off b :: l) s = exec_code l (set_reg r (load64 s.(pm) pa) s).
Proof. intros E. cbn. by rewrite E. Qed.
Lemma code_sd r off b l s pa : phys s (u64 (s.(reg_of) b + off)) = Some pa -> exec_code (SD r off b :: l) s = exec_code l (set_pm (store64 s.(pm) pa (s.(reg_of) r)) s).
Proof. intros E. cbn. by rewrite E. Qed.

(** A step of straight code; [tac] proves the translations. *)
Ltac astep tac :=
  first [erewrite code_ld by tac|erewrite code_sd by tac
        |match goal with |- context [exec_code (?i :: ?l) ?s] => change (exec_code (i :: l) s) with (s ← exec_instr i s; exec_code l s); cbn [exec_instr mbind option_bind] end].
Ltac aregs :=
  repeat first [progress change (reg_of (set_pm ?m ?s)) with (reg_of s)|progress change (reg_of (set_csr ?c ?v ?s)) with (reg_of s)
               |progress change (csr_of (set_pm ?m ?s)) with (csr_of s)|progress change (csr_of (set_reg ?c ?v ?s)) with (csr_of s)
               |rewrite reg_set_eq|rewrite reg_set_ne by discriminate|rewrite csr_set_eq|rewrite csr_set_ne by discriminate].

Lemma uservec_tail s v p : s.(mmode) = false -> s.(reg_of) a0 = v -> tf_mapped (s.(csr_of) satp) v p ->
  let m := store64 s.(pm) (p + tf_a0) (s.(csr_of) sscratch) in
  exists s', exec_code ([CSRR t0 sscratch; SD t0 112 a0] ++ uservec_enter) s = Some s' /\ s'.(pm) = m /\ s'.(reg_of) t0 = load64 m (p + tf_kernel_trap) /\
    s'.(reg_of) sp = load64 m (p + tf_kernel_sp) /\ s'.(reg_of) tp = load64 m (p + tf_kernel_hartid) /\ s'.(csr_of) satp = load64 m (p + tf_kernel_satp) /\ s'.(mmode) = false.
Proof.
  intros Hm Ha Ht m. assert (forall off, 0 <= off < sizeof_trapframe -> phys s (u64 (v + off)) = Some (p + off)) as Hp by (intros off Ho; unfold phys; rewrite Hm; by apply Ht).
  cbn [app]. unfold uservec_enter. unfold sizeof_trapframe in Hp.
  repeat astep ltac:(aregs; rewrite Ha; apply Hp; lia). eexists. split; [reflexivity|]. aregs. done.
Qed.

Lemma uservec_spec s v p : s.(mmode) = false -> s.(csr_of) sscratch = v -> tf_mapped (s.(csr_of) satp) v p -> (forall r, 0 <= s.(reg_of) r < 2 ^ 64) ->
  exists s', uservec s = Some (s', Jump (load64 s.(pm) (p + tf_kernel_trap))) /\ trapped s v p s'.
Proof.
  intros Hm Hv Ht Hr. pose (s1 := set_reg a0 v (set_csr sscratch (s.(reg_of) a0) s)).
  assert (tf_mapped (s1.(csr_of) satp) v p) as Ht1 by exact Ht.
  pose (m1 := saved s1.(reg_of) p user_frame s.(pm)). pose (m2 := store64 m1 (p + tf_a0) (s.(reg_of) a0)).
  assert (forall k, 0 <= k <= 32 -> load64 m2 (p + k) = load64 s.(pm) (p + k)) as Hk.
  { intros k Hk. apply load64_ext. intros i Hi. unfold m2, tf_a0. rewrite store64_out by lia. apply saved_out. intros r off H%user_frame_bound. lia. }
  destruct (uservec_tail (set_pm m1 s1) v p) as (s' & He & E1 & E2 & E3 & E4 & E5 & E6); [exact Hm|apply reg_set_eq|exact Ht1|].
  change (store64 (pm (set_pm m1 s1)) (p + tf_a0) (csr_of (set_pm m1 s1) sscratch)) with m2 in *. exists s'. split.
  - unfold uservec. change (uservec_save ++ uservec_enter) with ([CSRRW a0 sscratch a0] ++ saves a0 user_frame ++ [CSRR t0 sscratch; SD t0 112 a0] ++ uservec_enter).
    rewrite code_app. cbn [exec_code exec_instr mbind option_bind]. rewrite Hv. fold s1. rewrite code_app, (code_saves a0 user_frame p s1); [|by apply tf_frame].
    cbn [mbind option_bind]. unfold m1 in He. change (pm s1) with (pm s). rewrite He. cbn [mbind option_bind]. rewrite E2, Hk by (unfold tf_kernel_trap; lia). done.
  - split; [| |by rewrite E3, Hk by (unfold tf_kernel_sp; lia)|by rewrite E4, Hk by (unfold tf_kernel_hartid; lia)|by rewrite E5, Hk by (unfold tf_kernel_satp; lia)|done].
    + intros r off Hin. rewrite E1. apply elem_of_cons in Hin as [[= -> ->]|Hin]; unfold m2.
      * rewrite load64_store64_wrap. apply u64_small. apply Hr.
      * destruct (user_frame_bound _ _ Hin) as (_ & Hd & Hne). rewrite load64_store64_ne by lia. unfold m1. rewrite (saved_in _ _ _ _ r) by (done || apply user_frame_spaced).
        unfold s1. rewrite reg_set_ne by done. apply u64_small. apply Hr.
    + intros a Hout. rewrite E1. unfold m2. unfold sizeof_trapframe in Hout. rewrite store64_out by (unfold tf_a0; lia). apply saved_out. intros r off H%user_frame_bound. lia.
Qed.

(** [userret] loads the registers from the trapframe and leaves its address in [sscratch]. *)
Lemma userret_spec s v p : s.(mmode) = false -> s.(reg_of) a0 = v -> tf_mapped (s.(reg_of) a1) v p ->
  exists s', userret s = Some (s', Sret) /\ (forall r off, (r, off) ∈ (a0, tf_a0) :: user_frame -> s'.(reg_of) r = load64 s.(pm) (p + off)) /\
    s'.(csr_of) sscratch = v /\ s'.(csr_of) satp = s.(reg_of) a1 /\ s'.(pm) = s.(pm) /\ s'.(mmode) = false.
Proof.
  intros Hm Ha Ht. pose (w := load64 s.(pm) (p + tf_a0)).
  pose (s1 := set_csr sscratch w (set_reg t0 w (set_csr satp (s.(reg_of) a1) s))).
  assert (csr_of s1 satp = reg_of s a1) as Es by reflexivity.
  assert (reg_of s1 a0 = v) as Ea by exact Ha.
  assert (forall off, (a0, off) ∉ user_frame) as Hno by (intros off H%user_frame_bound; tauto).
  pose (s2 := Mach (loaded s.(pm) p user_frame s1.(reg_of)) s1.(csr_of) s.(pm) false).
  assert (reg_of s2 a0 = v) as Ea2 by (unfold s2; cbn [reg_of]; rewrite loaded_out by exact Hno; exact Ea).
  exists (set_reg a0 w (set_csr sscratch v s2)). split; [|split; [|split; [apply csr_set_eq|split; [exact Es|done]]]].
  - unfold userret. change userret_code with ([CSRW satp a1; SFENCE] ++ [LD t0 112 a0; CSRW sscratch t0] ++ loads a0 user_frame ++ [CSRRW a0 sscratch a0]).
    rewrite code_app. cbn [exec_code exec_instr mbind option_bind]. rewrite code_app, (code_ld _ _ _ _ _ (p + tf_a0)).
    2:{ change (reg_of (set_csr _ _ s) a0) with (reg_of s a0). rewrite Ha. unfold phys. cbn [set_csr mmode]. rewrite Hm, csr_set_eq. apply (Ht 112). unfold sizeof_trapframe. lia. }
    cbn [exec_code exec_instr mbind option_bind]. rewrite reg_set_eq. change (pm (set_csr satp (reg_of s a1) s)) with (pm s). fold w. fold s1.
    rewrite code_app, (code_loads a0 user_frame p s1); [|rewrite Ea; apply tf_frame; [exact Hm|rewrite Es; exact Ht]|intros off H; by destruct (Hno off)].
    change (mmode s1) with (mmode s). rewrite Hm. change (pm s1) with (pm s). fold s2. cbn [exec_code exec_instr mbind option_bind]. rewrite Ea2. done.
  - intros r off Hin. apply elem_of_cons in Hin as [[= -> ->]|Hin]; [apply reg_set_eq|].
    destruct (user_frame_bound _ _ Hin) as (_ & _ & Hne). rewrite reg_set_ne by done. cbn [reg_of set_csr]. unfold s2; cbn [reg_of].
    apply loaded_in; [done|]. intros off' H'. exact (one_slot user_frame r off off' eq_refl Hin H').
Qed.

(** C11: A trap is transparent: [uservec] enters [usertrap] on the stack, the hart and the page
    table that the trapframe names, and whatever the kernel then does, if it leaves the saved
    registers, [userret] with the address of the trapframe and the page table of the process
    gives every register its value at the trap, [a0] the value that the kernel put there, and
    leaves [sscratch] ready for the next trap. *)
Theorem trap_roundtrip s v p :
  s.(mmode) = false -> s.(csr_of) sscratch = v -> tf_mapped (s.(csr_of) satp) v p -> (forall r, 0 <= s.(reg_of) r < 2 ^ 64) ->
  exists s1, uservec s = Some (s1, Jump (load64 s.(pm) (p + tf_kernel_trap))) /\ trapped s v p s1 /\
    forall s2, s2.(mmode) = false -> s2.(reg_of) a0 = v -> s2.(reg_of) a1 = s.(csr_of) satp ->
      (forall r off, (r, off) ∈ user_frame -> load64 s2.(pm) (p + off) = load64 s1.(pm) (p + off)) ->
      exists s3, userret s2 = Some (s3, Sret) /\ (forall r, r <> a0 -> s3.(reg_of) r = s.(reg_of) r) /\
        s3.(reg_of) a0 = load64 s2.(pm) (p + tf_a0) /\ s3.(csr_of) sscratch = v /\ s3.(csr_of) satp = s.(csr_of) satp /\ s3.(pm) = s2.(pm).
Proof.
  intros Hm Hv Ht Hr. destruct (uservec_spec s v p Hm Hv Ht Hr) as (s1 & He & T). exists s1. split; [done|]. split; [done|].
  intros s2 Hm2 Ha Ha1 Hk. rewrite <- Ha1 in Ht. destruct (userret_spec s2 v p Hm2 Ha Ht) as (s3 & Hu & Hl & E1 & E2 & E3 & _).
  exists s3. split; [done|]. split; [|split; [apply Hl; by left|split; [done|split; [congruence|done]]]].
  intros r Hne. destruct (user_frame_all r) as [|[off Hin]]; [done|].
  rewrite (Hl r off) by (by right). rewrite (Hk r off Hin). apply (tp_regs _ _ _ _ T). by right.
Qed.

(** ** Context switches *)

(** The slots of [struct context]. *)
Definition ctx_frame : frame :=
  [(ra, 0); (sp, 8); (s0, 16); (s1, 24); (s2, 32); (s3, 40); (s4, 48); (s5, 56); (s6, 64); (s7, 72); (s8, 80); (s9, 88); (s10, 96); (s11, 104)].
Definition sizeof_context : Z := 14 * 8.

(** The [struct context] in the memory at [p], and the one of the values of the registers. *)
Definition context_at (m : bytes) (p : Z) : context :=
  let f i := load64 m (p + 8 * i) in Context_ (f 0) (f 1) (f 2) (f 3) (f 4) (f 5) (f 6) (f 7) (f 8) (f 9) (f 10) (f 11) (f 12) (f 13).
Definition context_of (R : reg -> Z) : context :=
  Context_ (R ra) (R sp) (R s0) (R s1) (R s2) (R s3) (R s4) (R s5) (R s6) (R s7) (R s8) (R s9) (R s10) (R s11).

Lemma ctx_frame_spaced : spaced ctx_frame.
Proof. repeat (constructor; [|repeat (constructor; [cbn; lia|]); constructor]). constructor. Qed.

Lemma ctx_frame_bound r off : (r, off) ∈ ctx_frame -> 0 <= off <= 104 /\ r <> a1.
Proof.
  intros H. pose proof (frame_check (fun x => (0 <=? x.2) && (x.2 <=? 104) && negb (bool_decide (x.1 = a1))) ctx_frame _ _ eq_refl H) as Hc.
  cbn [fst snd] in Hc. rewrite !andb_true_iff, !Z.leb_le, negb_true_iff, bool_decide_eq_false in Hc. clear - Hc. tauto.
Qed.

Definition callee_saved (r : reg) : bool := existsb (fun x => bool_decide (x.1 = r)) ctx_frame.

Lemma callee_no_slot r off : callee_saved r = false -> (r, off) ∉ ctx_frame.
Proof.
  intros H Hin. assert (callee_saved r = true) as E; [|by rewrite E in H].
  apply existsb_exists. exists (r, off). split; [by apply list_elem_of_In|by apply bool_decide_eq_true].
Qed.

(** A context is given by its slots. *)
Lemma context_slots R m p : (forall r off, (r, off) ∈ ctx_frame -> R r = load64 m (p + off)) -> context_of R = context_at m p.
Proof.
  intros H. unfold context_of, context_at. cbn [Z.mul Pos.mul].
  f_equal; apply H; unfold ctx_frame; repeat first [apply list_elem_of_here|apply list_elem_of_further].
Qed.

(** C12: [swtch(old, new)] leaves the callee-saved registers, the stack pointer and the return
    address in [*old], returns to where [*new] says with the registers that it holds, and
    changes nothing else; [uswtch] does the same. *)
Theorem swtch_correct s p q :
  mapped s (s.(reg_of) a0) p ctx_frame -> mapped s (s.(reg_of) a1) q ctx_frame -> p + sizeof_context <= q \/ q + sizeof_context <= p ->
  (forall r, 0 <= s.(reg_of) r < 2 ^ 64) ->
  uswtch s = swtch s /\
  exists s', swtch s = Some (s', Jump (context_at s.(pm) q).(c_ra)) /\
    context_at s'.(pm) p = context_of s.(reg_of) /\ context_of s'.(reg_of) = context_at s.(pm) q /\
    (forall r, callee_saved r = false -> s'.(reg_of) r = s.(reg_of) r) /\
    (forall a, a < p \/ p + sizeof_context <= a -> s'.(pm) a = s.(pm) a) /\ s'.(csr_of) = s.(csr_of) /\ s'.(mmode) = s.(mmode).
Proof.
  intros Hp Hq Hd Hr. split; [reflexivity|]. unfold sizeof_context in *.
  set (m1 := saved s.(reg_of) p ctx_frame s.(pm)). set (R1 := loaded m1 q ctx_frame s.(reg_of)).
  assert (forall r off, (r, off) ∈ ctx_frame -> R1 r = load64 s.(pm) (q + off)) as HR.
  { intros r off Hin. unfold R1. rewrite (loaded_in _ _ _ _ r off Hin); [|intros off' H'; exact (one_slot ctx_frame r off off' eq_refl Hin H')].
    apply load64_ext. intros i Hi. apply saved_out. intros r' off' [H _]%ctx_frame_bound. apply ctx_frame_bound in Hin as [H' _]. lia. }
  exists (Mach R1 s.(csr_of) m1 s.(mmode)). cbn [pm reg_of csr_of mmode]. split; [|split; [|split; [|split; [|split; [|done]]]]].
  - unfold swtch. change swtch_code with (saves a0 ctx_frame ++ loads a1 ctx_frame). rewrite code_app, (code_saves a0 ctx_frame p s Hp).
    fold m1. cbn [mbind option_bind]. rewrite (code_loads a1 ctx_frame q (set_pm m1 s)); [|exact Hq|intros off [_ H]%ctx_frame_bound; done].
    cbn [mbind option_bind set_pm reg_of csr_of pm mmode]. fold R1. rewrite (HR ra 0) by (by left). done.
  - symmetry. apply context_slots. intros r off Hin. unfold m1. rewrite (saved_in _ _ _ _ r off ctx_frame_spaced Hin). symmetry. apply u64_small, Hr.
  - by apply context_slots.
  - intros r H. apply loaded_out. intros off. by apply callee_no_slot.
  - intros a Ha. apply saved_out. intros r off [H _]%ctx_frame_bound. lia.
Qed.

(** ** Interrupts in the kernel *)

(** The registers that [kernelvec] restores, and all that it saves. *)
Definition kernel_frame : frame :=
  [(ra, 0); (sp, 8); (gp, 16); (t0, 32); (t1, 40); (t2, 48); (s0, 56); (s1, 64);
   (a0, 72); (a1, 80); (a2, 88); (a3, 96); (a4, 104); (a5, 112); (a6, 120); (a7, 128);
   (s2, 136); (s3, 144); (s4, 152); (s5, 160); (s6, 168); (s7, 176); (s8, 184); (s9, 192);
   (s10, 200); (s11, 208); (t3, 216); (t4, 224); (t5, 232); (t6, 240)].
Definition kernel_saved : frame := take 3 kernel_frame ++ (tp, 24) :: drop 3 kernel_frame.

Lemma kernel_saved_spaced : spaced kernel_saved.
Proof. repeat (constructor; [|repeat (constructor; [cbn; lia|]); constructor]). constructor. Qed.

Lemma kernel_saved_in r off : (r, off) ∈ kernel_frame -> (r, off) ∈ kernel_saved.
Proof. unfold kernel_saved. rewrite <- (take_drop 3 kernel_frame) at 1. rewrite !elem_of_app, elem_of_cons. clear. tauto. Qed.

Lemma kernel_saved_bound r off : (r, off) ∈ kernel_saved -> 0 <= off <= 240.
Proof.
  intros H. pose proof (frame_check (fun x => (0 <=? x.2) && (x.2 <=? 240)) kernel_saved _ _ eq_refl H) as Hc.
  cbn [fst snd] in Hc. rewrite !andb_true_iff, !Z.leb_le in Hc. clear - Hc. tauto.
Qed.

Lemma kernel_frame_all r : r = tp \/ exists off, (r, off) ∈ kernel_frame.
Proof. destruct (decide (r = tp)) as [->|N]; [by left|right]. apply has_slot. by destruct r. Qed.

Lemma kernel_frame_tp off : (tp, off) ∉ kernel_frame.
Proof.
  intros H. pose proof (frame_check (fun x => negb (bool_decide (x.1 = tp))) kernel_frame _ _ eq_refl H) as Hc.
  cbn [fst] in Hc. by rewrite bool_decide_eq_true_2 in Hc.
Qed.

(** C13: An interrupt in the kernel is transparent: [kernelvec] saves the registers below the stack
    pointer, and if [kerneltrap] returns with the stack pointer and those bytes as it found
    them, the interrupted code goes on with the registers that it had, [tp] apart, which
    stays that of the hart where [kerneltrap] returned. *)
Theorem kernelvec_transparent (kerneltrap : mach -> option mach) s p :
  let f := u64 (s.(reg_of) sp - 256) in
  (forall off, 0 <= off < 256 -> phys s (u64 (f + off)) = Some (p + off)) -> (forall r, 0 <= s.(reg_of) r < 2 ^ 64) ->
  exists s1, exec_code kernelvec_save s = Some s1 /\ s1.(reg_of) sp = f /\ s1.(csr_of) = s.(csr_of) /\ s1.(mmode) = s.(mmode) /\ (forall a, a < p \/ p + 256 <= a -> s1.(pm) a = s.(pm) a) /\
    forall s2, kerneltrap s1 = Some s2 -> s2.(reg_of) sp = f -> s2.(csr_of) satp = s.(csr_of) satp -> s2.(mmode) = s.(mmode) ->
      (forall i, 0 <= i < 256 -> s2.(pm) (p + i) = s1.(pm) (p + i)) ->
      exists s3, kernelvec kerneltrap s = Some (s3, Sret) /\ (forall r, r <> tp -> s3.(reg_of) r = s.(reg_of) r) /\
        s3.(reg_of) tp = s2.(reg_of) tp /\ s3.(pm) = s2.(pm) /\ s3.(csr_of) = s2.(csr_of).
Proof.
  intros f Hf Hr. set (sk := set_reg sp f s). set (m1 := saved sk.(reg_of) p kernel_saved s.(pm)).
  assert (exec_code kernelvec_save s = Some (set_pm m1 sk)) as He.
  { change kernelvec_save with ([ADDI sp sp (-256)] ++ saves sp kernel_saved). rewrite code_app. cbn [exec_code exec_instr mbind option_bind].
    change (u64 (reg_of s sp + -256)) with f. fold sk. rewrite (code_saves sp kernel_saved p sk); [done|].
    intros r off H%kernel_saved_bound. unfold sk at 2. rewrite reg_set_eq. apply Hf. lia. }
  exists (set_pm m1 sk). split; [exact He|]. split; [apply reg_set_eq|]. split; [done|]. split; [done|]. split.
  { intros a Ha. apply saved_out. intros r off H%kernel_saved_bound. lia. }
  intros s2 Hk Esp Esatp Em Hm. set (R3 := loaded s2.(pm) p kernel_frame s2.(reg_of)).
  assert (forall r off, (r, off) ∈ kernel_frame -> load64 s2.(pm) (p + off) = sk.(reg_of) r) as Hl.
  { intros r off Hin%kernel_saved_in. pose proof (kernel_saved_bound _ _ Hin) as Hb. rewrite (load64_ext _ m1).
    2:{ intros i Hi. replace i with (p + (i - p)) by lia. apply Hm. lia. }
    unfold m1. rewrite (saved_in _ _ _ _ r off kernel_saved_spaced Hin). apply u64_small. unfold sk.
    destruct (decide (r = sp)) as [->|N]; [rewrite reg_set_eq; apply u64_bound|rewrite reg_set_ne by done; apply Hr]. }
  assert (forall r, r <> tp -> R3 r = sk.(reg_of) r) as HR.
  { intros r Hne. destruct (kernel_frame_all r) as [|[off Hin]]; [done|]. unfold R3.
    rewrite (loaded_in _ _ _ _ r off Hin); [by apply Hl|]. intros off' H'. exact (one_slot kernel_frame r off off' eq_refl Hin H'). }
  assert (R3 sp = f) as E3 by (rewrite HR by done; apply reg_set_eq).
  exists (set_reg sp (s.(reg_of) sp) (Mach R3 s2.(csr_of) s2.(pm) s2.(mmode))). split; [|split; [|split; [|done]]].
  - unfold kernelvec. rewrite He. cbn [mbind option_bind]. rewrite Hk. cbn [mbind option_bind].
    change kernelvec_restore with (loads sp kernel_frame ++ [ADDI sp sp 256]). rewrite code_app, (code_loads sp kernel_frame p s2).
    + fold R3. cbn [exec_code exec_instr mbind option_bind reg_of]. rewrite E3. unfold f, u64. rewrite Zplus_mod_idemp_l. replace (reg_of s sp - 256 + 256) with (reg_of s sp) by lia.
      rewrite Z.mod_small by apply Hr. done.
    + intros r off H%kernel_saved_in%kernel_saved_bound. unfold phys. rewrite Em, Esatp, Esp. apply Hf. lia.
    + intros off Hin. rewrite (Hl _ _ Hin), Esp. apply reg_set_eq.
  - intros r Hne. destruct (decide (r = sp)) as [->|N]; [apply reg_set_eq|]. rewrite reg_set_ne by done. cbn [reg_of]. rewrite HR by done.
    unfold sk. by rewrite reg_set_ne.
  - rewrite reg_set_ne by done. apply loaded_out, kernel_frame_tp.
Qed.

(** Loads and stores in machine mode, where addresses are physical. *)
Lemma mm_ld r off b l R C m pa : u64 (R b + off) = pa -> exec_code (LD r off b :: l) (Mach R C m true) = exec_code l (Mach (<[r := load64 m pa]> R) C m true).
Proof. by intros <-. Qed.
Lemma mm_sd r off b l R C m pa : u64 (R b + off) = pa -> exec_code (SD r off b :: l) (Mach R C m true) = exec_code l (Mach R C (store64 m pa (R r)) true).
Proof. by intros <-. Qed.
Lemma mm_add r x y l R C m : exec_code (ADD r x y :: l) (Mach R C m true) = exec_code l (Mach (<[r := u64 (R x + R y)]> R) C m true).
Proof. done. Qed.
Lemma mm_li r i l R C m : exec_code (LI r i :: l) (Mach R C m true) = exec_code l (Mach (<[r := u64 i]> R) C m true).
Proof. done. Qed.
Lemma mm_csrw c x l R C m : exec_code (CSRW c x :: l) (Mach R C m true) = exec_code l (Mach R (<[c := R x]> C) m true).
Proof. done. Qed.
Lemma mm_csrrw r c x l R C m : exec_code (CSRRW r c x :: l) (Mach R C m true) = exec_code l (Mach (<[r := C c]> R) (<[c := R x]> C) m true).
Proof. done. Qed.

Ltac upd := repeat first [rewrite fn_lookup_insert|rewrite fn_lookup_insert_ne by discriminate].

(** A timer interrupt moves the next one by the interval that [timerinit] left in the
    scratch area, raises the software interrupt of the supervisor, and changes no register
    of the code that it interrupts. *)
Lemma timervec_spec s :
  let sc := s.(csr_of) mscratch in let cmp := load64 s.(pm) (sc + 24) in let m := s.(pm) in
  s.(mmode) = true -> 0 <= sc -> sc + 40 <= 2 ^ 64 -> cmp + 8 <= sc \/ sc + 40 <= cmp -> (forall r, 0 <= s.(reg_of) r < 2 ^ 64) ->
  exists s', timervec s = Some (s', Mret) /\ (forall r, s'.(reg_of) r = s.(reg_of) r) /\ s'.(csr_of) mscratch = sc /\ s'.(csr_of) sip = 2 /\
    load64 s'.(pm) cmp = u64 (load64 m cmp + load64 m (sc + 32)) /\
    (forall a, a < sc \/ sc + 24 <= a -> a < cmp \/ cmp + 8 <= a -> s'.(pm) a = m a).
Proof.
  intros sc cmp m Hm Hsc Hend Hd Hr. pose proof (load64_bound m (sc + 24)) as Hc. fold cmp in Hc.
  assert (forall k, 0 <= k < 40 -> u64 (sc + k) = sc + k) as Hu by (intros k Hk; apply u64_small; lia).
  set (m1 := store64 (store64 (store64 m (sc + 0) (reg_of s a1)) (sc + 8) (reg_of s a2)) (sc + 16) (reg_of s a3)).
  set (v := u64 (load64 m cmp + load64 m (sc + 32))). set (m2 := store64 m1 cmp v).
  assert (forall a, a < sc \/ sc + 24 <= a -> m1 a = m a) as Ho by (intros a Ha; unfold m1; by rewrite !store64_out by lia).
  assert (load64 m1 (sc + 24) = cmp) as E1 by (apply load64_ext; intros i Hi; apply Ho; lia).
  assert (load64 m1 (sc + 32) = load64 m (sc + 32)) as E2 by (apply load64_ext; intros i Hi; apply Ho; lia).
  assert (load64 m1 cmp = load64 m cmp) as E3 by (apply load64_ext; intros i Hi; apply Ho; lia).
  assert (forall k, 0 <= k <= 16 -> load64 m2 (sc + k) = load64 m1 (sc + k)) as Hk by (intros k Hk; apply load64_ext; intros i Hi; unfold m2; apply store64_out; lia).
  assert (load64 m2 (sc + 0) = reg_of s a1 /\ load64 m2 (sc + 8) = reg_of s a2 /\ load64 m2 (sc + 16) = reg_of s a3) as (F1 & F2 & F3).
  { rewrite !Hk by lia. unfold m1. split_and!.
    - rewrite 2!load64_store64_ne by lia. by apply load64_store64.
    - rewrite load64_store64_ne by lia. by apply load64_store64.
    - by apply load64_store64. }
  destruct s as [R C M mm]; cbn [reg_of csr_of pm mmode] in *. subst mm. fold m.
  unfold timervec, timervec_code. rewrite mm_csrrw. fold sc.
  erewrite 3!mm_sd by (upd; apply Hu; lia). upd. fold m1.
  erewrite mm_ld by (upd; apply Hu; lia). rewrite E1. erewrite mm_ld by (upd; apply Hu; lia). rewrite E2.
  erewrite mm_ld by (upd; rewrite Z.add_0_r; apply u64_small; exact Hc). rewrite E3, mm_add. upd. fold v.
  erewrite mm_sd by (upd; rewrite Z.add_0_r; apply u64_small; exact Hc). upd. fold m2. rewrite mm_li, mm_csrw. upd.
  do 3 (erewrite mm_ld by (upd; apply Hu; lia)). rewrite F1, F2, F3, mm_csrrw. upd. change (u64 2) with 2.
  eexists (Mach _ _ _ true). split; [reflexivity|]. cbn [reg_of csr_of pm mmode]. split_and!.
  - intros r. rewrite !fn_insert_case. repeat case_decide; congruence.
  - upd. done.
  - upd. done.
  - apply load64_store64, u64_bound.
  - intros a Ha Hb. unfold m2. rewrite store64_out by lia. by apply Ho.
Qed.

(** Each hart starts on a stack of its own, the one of its number in [stack0]. *)
Lemma entry_spec stack0 start spin s : 0 <= stack0 -> 0 <= s.(csr_of) mhartid < Z.of_nat NCPU -> stack0 + Z.of_nat NCPU * 4096 < 2 ^ 64 ->
  exists s', entry stack0 start spin s = Some (s', Jump start) /\ s'.(reg_of) sp = stack0 + (s.(csr_of) mhartid + 1) * 4096 /\ s'.(pm) = s.(pm).
Proof.
  intros Hs Hh He. unfold NCPU in *. unfold entry, entry_code. cbn [exec_code exec_instr mbind option_bind]. eexists. split; [reflexivity|]. split; [|done]. aregs.
  change (u64 (1024 * 4)) with 4096. rewrite (u64_small stack0) by lia. rewrite (u64_small (_ + 1)) by lia. rewrite (u64_small (4096 * _)) by lia. rewrite u64_small by lia. lia.
Qed.
End run.

(** ** The first process (user/initcode.S and the bytes of proc.c) *)

(** The user instructions of initcode.S; a register is [None] when it is [x0]. *)
Inductive uop :=
| AUIPC (rd : option reg) (imm : Z)
| ADDIU (rd rs : option reg) (imm : Z)
| JAL (rd : option reg) (off : Z)
| ECALL.

(** The numbers of kernel/syscall.h. *)
Definition syscall_h : list (string * Z) :=
  [("fork", 1); ("exit", 2); ("wait", 3); ("pipe", 4); ("read", 5); ("kill", 6); ("exec", 7); ("fstat", 8); ("chdir", 9); ("dup", 10); ("getpid", 11);
   ("sbrk", 12); ("sleep", 13); ("uptime", 14); ("open", 15); ("write", 16); ("mknod", 17); ("unlink", 18); ("link", 19); ("mkdir", 20); ("close", 21);
   ("kthread_create", 22); ("kthread_id", 23); ("kthread_kill", 24); ("kthread_exit", 25); ("kthread_join", 26)]%string.

Definition SYS (name : string) : option Z := snd <$> List.find (fun x => String.eqb x.1 name) syscall_h.

(** initcode.S, assembled at 0: [la] is a pair [auipc], [addi] relative to its address, [init]
    is at 36 and [argv] at 43 (the assembler drops an alignment of 4 between instructions). *)
Definition initcode_S : list uop :=
  [AUIPC (Some a0) 0; ADDIU (Some a0) (Some a0) 36;
   AUIPC (Some a1) 0; ADDIU (Some a1) (Some a1) 35;
   ADDIU (Some a7) None 7; ECALL;
   ADDIU (Some a7) None 2; ECALL; JAL (Some ra) (-8)].

(** The encodings of RV64I for these instructions. *)
Definition bits (w lo n : Z) : Z := Z.land (Z.shiftr w lo) (Z.ones n).
Definition sext (n x : Z) : Z := if Z.testbit x (n - 1) then x - 2 ^ n else x.
Definition xreg (n : Z) : option reg :=
  if n =? 0 then None else
  [ra; sp; gp; tp; t0; t1; t2; s0; s1; a0; a1; a2; a3; a4; a5; a6; a7; s2; s3; s4; s5; s6; s7; s8; s9; s10; s11; t3; t4; t5; t6] !! Z.to_nat (n - 1).

Definition decode (w : Z) : option uop :=
  let rd := xreg (bits w 7 5) in
  if bits w 0 7 =? 0x17 then Some (AUIPC rd (sext 32 (Z.land w 0xfffff000)))
  else if (bits w 0 7 =? 0x13) && (bits w 12 3 =? 0) then Some (ADDIU rd (xreg (bits w 15 5)) (sext 12 (bits w 20 12)))
  else if bits w 0 7 =? 0x6f then
    Some (JAL rd (sext 21 (Z.lor (Z.shiftl (bits w 31 1) 20) (Z.lor (Z.shiftl (bits w 12 8) 12) (Z.lor (Z.shiftl (bits w 20 1) 11) (Z.shiftl (bits w 21 10) 1))))))
  else if w =? 0x73 then Some ECALL
  else None.

Definition rget (R : reg -> Z) (r : option reg) : Z := match r with None => 0 | Some r => R r end.
Definition rset (r : option reg) (v : Z) (R : reg -> Z) : reg -> Z := match r with None => R | Some r => <[r := v]> R end.

(** Runs to the next [ecall]: its address and the registers there. *)
Fixpoint urun (fuel : nat) (m : bytes) (pc : Z) (R : reg -> Z) : option (Z * (reg -> Z)) :=
  match fuel with
  | O => None
  | S fuel =>
      match decode (load32 m pc) with
      | Some (AUIPC rd imm) => urun fuel m (u64 (pc + 4)) (rset rd (u64 (pc + imm)) R)
      | Some (ADDIU rd rs imm) => urun fuel m (u64 (pc + 4)) (rset rd (u64 (rget R rs + imm)) R)
      | Some (JAL rd off) => urun fuel m (u64 (pc + off)) (rset rd (u64 (pc + 4)) R)
      | Some ECALL => Some (pc, R)
      | None => None
      end
  end.

(** The page of the first process, as [uvmfirst] leaves it. *)
Definition init_page (m : bytes) : Prop := forall i, 0 <= i < PGSIZE -> m i = bytes_of initcode i.

Lemma init_page_decode m k : init_page m -> (k < 9)%nat -> decode (load32 m (4 * Z.of_nat k)) = initcode_S !! k.
Proof.
  intros Hm Hk. assert (load32 m (4 * Z.of_nat k) = load32 (bytes_of initcode) (4 * Z.of_nat k)) as -> by (apply load_ext; intros i Hi; apply Hm; unfold PGSIZE; lia).
  do 9 (destruct k as [|k]; [vm_compute; reflexivity|]). lia.
Qed.

Lemma init_page_load64 m a : init_page m -> 0 <= a <= 4000 -> load64 m a = load64 (bytes_of initcode) a.
Proof. intros Hm Ha. apply load64_ext. intros i Hi. apply Hm. unfold PGSIZE. lia. Qed.

(** A step of the program at its [k]-th instruction. *)
Ltac ustep k H := cbn [urun]; rewrite (init_page_decode _ k H) by lia; cbn [lookup list_lookup initcode_S].

Lemma initcode_calls m R : init_page m -> exists R', urun 6 m 0 R = Some (20, R') /\ SYS "exec" = Some (R' a7) /\ R' a0 = 36 /\ R' a1 = 43.
Proof.
  intros H. change 0 with (4 * Z.of_nat 0) at 1. ustep 0%nat H. change (u64 (4 * Z.of_nat 0 + 4)) with (4 * Z.of_nat 1).
  ustep 1%nat H. change (u64 (4 * Z.of_nat 1 + 4)) with (4 * Z.of_nat 2). ustep 2%nat H. change (u64 (4 * Z.of_nat 2 + 4)) with (4 * Z.of_nat 3).
  ustep 3%nat H. change (u64 (4 * Z.of_nat 3 + 4)) with (4 * Z.of_nat 4). ustep 4%nat H. change (u64 (4 * Z.of_nat 4 + 4)) with (4 * Z.of_nat 5).
  ustep 5%nat H. eexists. split; [reflexivity|]. done.
Qed.

Lemma initcode_exits m R : init_page m -> exists R', urun 2 m 24 R = Some (28, R') /\ SYS "exit" = Some (R' a7).
Proof.
  intros H. change 24 with (4 * Z.of_nat 6). ustep 6%nat H. change (u64 (4 * Z.of_nat 6 + 4)) with (4 * Z.of_nat 7). ustep 7%nat H.
  eexists. split; [reflexivity|]. done.
Qed.

(** The bytes of [initcode] in proc.c are the program of initcode.S: started at 0, the first
    process calls [exec] with the string /init and the arguments /init and null, and if the
    call returns it calls [exit], for ever if it must. *)
Theorem initcode_correct m R : init_page m ->
  exists R', urun 6 m 0 R = Some (20, R') /\ SYS "exec" = Some (R' a7) /\ cstr 14 m (R' a0) = chars "/init" /\
    load64 m (R' a1) = R' a0 /\ load64 m (R' a1 + 8) = 0 /\
    (forall R1, exists R2, urun 2 m 24 R1 = Some (28, R2) /\ SYS "exit" = Some (R2 a7)) /\
    (forall R1, exists R2, urun 3 m 32 R1 = Some (28, R2) /\ SYS "exit" = Some (R2 a7)).
Proof.
  intros H. destruct (initcode_calls m R H) as (R' & E & E7 & E0 & E1). exists R'. rewrite E0, E1. split_and!; [done|done| | | | |].
  - cbn [cstr]. rewrite !H by (unfold PGSIZE; lia). vm_compute. reflexivity.
  - by rewrite init_page_load64.
  - by rewrite init_page_load64.
  - intros R1. by apply initcode_exits.
  - intros R1. change 32 with (4 * Z.of_nat 8). change 3%nat with (S 2). cbn [urun]. rewrite (init_page_decode _ 8%nat H) by lia.
    cbn [lookup list_lookup initcode_S]. change (u64 (4 * Z.of_nat 8 + -8)) with 24. by apply initcode_exits.
Qed.

Lemma initcode_correct_witness : init_page (bytes_of initcode) /\ exists R', urun 6 (bytes_of initcode) 0 (fun _ => 0) = Some (20, R') /\ R' a7 = 7.
Proof.
  assert (init_page (bytes_of initcode)) as H by (intros i _; reflexivity).
  split; [exact H|]. destruct (initcode_correct _ (fun _ => 0) H) as (R' & E & E7 & _). exists R'. split; [exact E|]. injection E7 as E7. symmetry. exact E7.
Defined.

(** ** Witnesses *)

(** A page table that maps the page of the trapframes to the page at 0x87000000. *)
Definition demo_mmu (pt va : Z) : option Z := if (TRAPFRAME 0 <=? va) && (va <? TRAMPOLINE) then Some (va - TRAPFRAME 0 + 0x87000000) else None.
Definition demo_user : mach :=
  Mach (fun r => if bool_decide (r = s11) then 11 else 7) (fun c => match c with sscratch => TRAPFRAME 0 | _ => 0 end) (fun _ => 0) false.

Lemma demo_user_regs r : 0 <= demo_user.(reg_of) r < 2 ^ 64.
Proof. cbn. case_bool_decide; lia. Qed.

Lemma trap_roundtrip_witness : exists s1, uservec demo_mmu demo_user = Some (s1, Jump (load64 demo_user.(pm) (0x87000000 + tf_kernel_trap))) /\
  exists s3, userret demo_mmu (Mach (<[a0 := TRAPFRAME 0]> (fun _ => 0)) (fun _ => 1) s1.(pm) false) = Some (s3, Sret) /\ s3.(reg_of) s11 = 11 /\ s3.(reg_of) t0 = 7.
Proof.
  destruct (trap_roundtrip demo_mmu demo_user (TRAPFRAME 0) 0x87000000) as (s1 & E & _ & H).
  - reflexivity.
  - reflexivity.
  - intros off Ho. unfold demo_mmu, TRAPFRAME, TRAMPOLINE, MAXVA, PGSIZE, sizeof_trapframe in *. rewrite u64_small by lia.
    rewrite (proj2 (andb_true_iff _ _)) by (rewrite Z.leb_le, Z.ltb_lt; lia). f_equal. lia.
  - apply demo_user_regs.
  - exists s1. split; [exact E|]. destruct (H (Mach (<[a0 := TRAPFRAME 0]> (fun _ => 0)) (fun _ => 1) s1.(pm) false)) as (s3 & E3 & Hr & _).
    + reflexivity.
    + reflexivity.
    + reflexivity.
    + intros r off _. reflexivity.
    + exists s3. split; [exact E3|]. split; [exact (Hr s11 ltac:(discriminate))|exact (Hr t0 ltac:(discriminate))].
Defined.

(** Physical addresses, as in the kernel. *)
Definition direct_mmu (pt va : Z) : option Z := Some va.
Definition demo_kernel : mach :=
  Mach (<[a0 := 0x80010000]> (<[a1 := 0x80010070]> (<[sp := 0x80020000]> (fun _ => 7)))) (fun _ => 0) (store64 (fun _ => 0) 0x80010070 0x80000500) false.

Lemma demo_kernel_regs r : 0 <= demo_kernel.(reg_of) r < 2 ^ 64.
Proof. unfold demo_kernel. cbn [reg_of]. rewrite !fn_insert_case. repeat case_decide; lia. Qed.

Lemma swtch_correct_witness : exists s', swtch direct_mmu demo_kernel = Some (s', Jump 0x80000500) /\
  (context_at s'.(pm) 0x80010000).(c_sp) = 0x80020000 /\ s'.(reg_of) sp = 0.
Proof.
  destruct (swtch_correct direct_mmu demo_kernel 0x80010000 0x80010070) as (_ & s' & E & E1 & E2 & _).
  - intros r off [H _]%ctx_frame_bound. unfold phys, direct_mmu. cbn [mmode demo_kernel]. change (reg_of demo_kernel a0) with 0x80010000. by rewrite u64_small by lia.
  - intros r off [H _]%ctx_frame_bound. unfold phys, direct_mmu. cbn [mmode demo_kernel]. change (reg_of demo_kernel a1) with 0x80010070. by rewrite u64_small by lia.
  - unfold sizeof_context. lia.
  - apply demo_kernel_regs.
  - exists s'. rewrite E, E1. split; [reflexivity|]. split; [reflexivity|]. change (reg_of s' sp) with (c_sp (context_of s'.(reg_of))). rewrite E2. reflexivity.
Defined.

Lemma kernelvec_transparent_witness : exists s3, kernelvec direct_mmu (fun s => Some (set_reg a0 1 (set_reg tp 2 s))) demo_kernel = Some (s3, Sret) /\
  s3.(reg_of) a0 = 0x80010000 /\ s3.(reg_of) tp = 2.
Proof.
  destruct (kernelvec_transparent direct_mmu (fun s => Some (set_reg a0 1 (set_reg tp 2 s))) demo_kernel 0x8001ff00) as (s1 & He & Hs & Ec & Em & _ & H).
  - intros off Ho. unfold phys, direct_mmu. cbn [mmode demo_kernel]. change (reg_of demo_kernel sp) with 0x80020000. change (u64 (0x80020000 - 256)) with 0x8001ff00. by rewrite u64_small by lia.
  - apply demo_kernel_regs.
  - destruct (H _ eq_refl) as (s3 & E & Hr & Ht & _).
    + exact Hs.
    + cbn. by rewrite Ec.
    + cbn. by rewrite Em.
    + intros i _. reflexivity.
    + exists s3. split; [exact E|]. split; [exact (Hr a0 ltac:(discriminate))|]. rewrite Ht. reflexivity.
Defined.

(** ** The stubs of the system calls (user/usys.pl, kernel/syscall.h) *)

Definition usys_pl : list string :=
  ["fork"; "exit"; "wait"; "pipe"; "read"; "write"; "close"; "kill"; "exec"; "open"; "mknod"; "unlink"; "fstat"; "link"; "mkdir"; "chdir"; "dup";
   "getpid"; "sbrk"; "sleep"; "uptime"; "kthread_create"; "kthread_id"; "kthread_kill"; "kthread_exit"; "kthread_join"]%string.

(** [entry]: the number in [a7], the call, and the return; [kernel] is the effect of [ecall]. *)
Definition usys_entry (mmu : Z -> Z -> option Z) (kernel : mach -> option mach) (name : string) (s : mach) : option (mach * ending) :=
  n ← SYS name;
  s ← exec_code mmu [LI a7 n] s;
  s ← kernel s;
  Some (s, Jump (s.(reg_of) ra)).

Section stubs.
Context `{KI : KernelImage} `{WF : WaitFuel} `{DD : DiskDriver}.

Definition stub_check (name : string) : bool :=
  match SYS name with Some n => (0 <? n) && (n <? 27) && match syscalls n with Some _ => true | None => false end | None => false end.

(** A stub enters the kernel with the number of its call, for which the kernel has a handler,
    and its arguments; it returns to its caller with the value of the kernel. *)
Lemma usys_entry_spec mmu kernel name s s' : name ∈ usys_pl ->
  (forall s1, (exists n h, SYS name = Some n /\ syscalls n = Some h /\ s1.(reg_of) a7 = n) -> (forall r, r <> a7 -> s1.(reg_of) r = s.(reg_of) r) ->
     s1.(pm) = s.(pm) -> kernel s1 = Some s') ->
  s'.(reg_of) ra = s.(reg_of) ra -> usys_entry mmu kernel name s = Some (s', Jump (s.(reg_of) ra)).
Proof.
  intros Hin Hk Hra. assert (forallb stub_check usys_pl = true) as Hc by (vm_compute; reflexivity).
  rewrite forallb_forall in Hc. apply list_elem_of_In, Hc in Hin. unfold stub_check in Hin. unfold usys_entry.
  destruct (SYS name) as [n|]; [|done]. destruct (syscalls n) as [h|] eqn:Eh; [|by rewrite andb_false_r in Hin].
  cbn [mbind option_bind exec_code exec_instr]. rewrite Hk; cbn [mbind option_bind]; [by rewrite Hra| | |done].
  - exists n, h. split; [done|]. split; [done|]. rewrite reg_set_eq. apply u64_small. lia.
  - intros r Hne. by rewrite reg_set_ne.
Qed.
End stubs.
End Asm.
